(* ===== verification/_CoqProject ===== *)
-Q . S2P
Prelude.v
Errors.v
ReadData.v
Memory.v
Metadata.v
DiskMetadata.v
InsnQueue.v
InsnQueueLib.v
Ptrace.v
InsnQueueTool.v
SimKernel.v
PtraceWords.v
Arch.v
ArchX86.v
ArchPpc.v
PpcStack.v
SymbolLoader.v
Interpose.v
PatchCore.v
PatchCoherence.v
Requests.v
PatchingLock.v
RevertAll.v
StateDump.v
Md4.v
PatchId.v
MsgQueue.v
Messages.v
PcQueue.v
ElfFile.v
Extract.v
SoInfo.v
Description.v
Packer.v
Critical.v
Tracees.v
Trigger.v
TriggerRun.v
Post.v
RemoteState.v
TempFile.v
Release.v
Commands.v
Introspect.v
IntrospectSpec.v
IntrospectProcess.v
Patches.v
ParseError.v
StackCheck.v
PatchesSpec.v
PatchesThreads.v
Dump.v
CommandLine.v
RtldLocks.v
TriggerEntry.v
MiniElf.v
GdbInterface.v
SimElf.v
WitnessMetadata.v
WitnessQueue.v
WitnessProcess.v
WitnessArch.v
WitnessPatch.v
WitnessMessages.v
WitnessPacker.v
WitnessTrigger.v
WitnessElf.v
WitnessIntrospect.v
WitnessTools.v
WitnessPatches.v
WitnessGdb.v
WitnessLibrary.v
