(* ===== verification/Prelude.v ===== *)
(** * libpulp: a verification development

    libpulp patches the functions of shared libraries in running processes. A
    process runs with [libpulp.so] (src/lib/) preloaded; the tool [ulp]
    (src/tools/) builds patches, stops a process, makes it run a routine of
    libpulp, and lets it go. The two sides talk through four buffers in the
    memory of the process: the metadata of the patch, a queue of instructions
    that the tool executes, a queue of messages, and an error state. This
    library models both sides and what lies between them.

    ** The files

    Shared: [Prelude] (bytes, words of fixed width, C strings, the monad [st],
    tactics), [Errors] (include/error_common.h, lib/error.c), [Memory] (memory as
    a finite map).

    The library, from the process's side:
    - [Interpose] is lib/interpose.c: the wrappers that count threads inside the
      allocator and the loader ([alloc_wrapper], [dl_wrapper]), the lock
      ([__ulp_asunsafe_trylock], [__ulp_asunsafe_unlock]), the initialisation and
      the lists of users, groups and paths;
    - [PatchCore] is lib/ulp.c: [lib_state] holds [__ulp_state] and [__ulp_root];
      the entry points are [__ulp_apply_patch], [__ulp_revert_patches_from_lib],
      [__ulp_check_applied_patch], [__ulp_get_global_universe_value];
    - [PatchCoherence], [Requests] and [RevertAll] prove things about it: the
      invariant that the code of the program agrees with the detours, and what
      each request does; [PatchingLock] lets threads, the loader and requests
      interleave and says which requests are let through;
    - [Arch] is the interface of lib/arch/ (classes [Arch] and [ArchLaws]),
      with the instances [ArchX86] and [ArchPpc]; the proofs on [PatchCore] are
      made against the interface; [PpcStack] is the stack of each thread that the
      prologues of powerpc64le use;
    - [SymbolLoader] is lib/symbol_loader.c, and [RtldLocks] its search for the locks
      of the loader with the structures of include/ld_rtld.h;
    - [StateDump] are the dumps of the state and [ReadData] the read loop of
      lib/ulp.c;
    - [MiniElf] is lib/minielf.c, with the buffer that lib/gdb_interface.c
      prepares from a container without the tool; [GdbInterface] is the rest of
      lib/gdb_interface.c, a whole request inside the process: it composes
      [MiniElf], [PatchCore] and [InsnQueueLib];
    - [InsnQueue] is the queue of instructions (lib/insn_queue.c for the insertion,
      common/insn_queue.c for the interpreter, over a class [WriteBackend]), and
      [InsnQueueLib] the backend of the library;
    - [MsgQueue] is lib/msg_queue.c and the reader of tools/messages.c.

    The formats:
    - [Metadata] is the metadata of a patch: the writers of tools/packer.c, the
      insertion of the path (tools/introspection.c, lib/gdb_interface.c) and the
      parser of common/common.c; [DiskMetadata] is the second loader, of
      tools/introspection.c; [TempFile] are temporary files and the metadata written
      into one;
    - [Release] is the release of all these data, over a heap of blocks.

    The tool:
    - [Ptrace] is tools/ptrace.c over a class [Kernel] of system calls, whose
      documented behaviour is in [KernelLaws], [ClockLaws] and [Cooperative];
      [PtraceWords] are its reads without process_vm_readv;
      [InsnQueueTool] is tools/insn_queue.c; [Messages] is tools/messages.c;
    - [Critical] is the critical section of tools/introspection.c
      ([hijack_threads], [apply_patch], [revert_patches_from_lib],
      [restore_threads]), with the laws [ThreadLaws] on threads; [Tracees] is the
      kernel's own view of them ([TraceeLaws]: which threads are attached and
      stopped, and the registers they were caught with), against which the
      commands that stop a process are judged;
    - [Trigger] is tools/trigger.c for the processes it is given, [TriggerRun] what a
      run of it does to the threads, [TriggerEntry] the
      way there from the command line; [StackCheck] is the check of the stacks, over a
      class [Unwind] of the functions of libunwind, which is compiled in only with
      [ENABLE_STACK_CHECK]: [Trigger] has the code without it;
    - [Description], [PatchId], [Md4] and [Packer] are tools/packer.c and
      tools/md4.c: a description is parsed, identified and embedded; [ParseError] is
      how an error in one is shown;
    - [PcQueue] is tools/pcqueue.c;
    - [ElfFile] are the lookups in ELF files (tools/elf-extra.c and others) and
      livepatchable, over a class [Libelf] of the operations of libelf; [Extract]
      is tools/extract.c, over a class [Json], and [SoInfo] the listing of a library; [Post] is tools/post.c with the nops
      of x86_64;
    - [Introspect] is the discovery of libraries and symbols in a process
      (tools/introspection.c up to [initialize_data_structures]);
      [IntrospectSpec] says how a library lies in memory and what is found there,
      [IntrospectProcess] goes from the auxiliary vector to libpulp;
    - [RemoteState] reads the patches, the error state and the version of libpulp
      in a process; [Commands] are tools/check.c and tools/set_patchable.c;
    - [Patches] is tools/patches.c, the iteration over the processes that every
      command with a wildcard uses, and the listing of libraries and labels;
      [PatchesSpec] says what is visited and shown; [PatchesThreads] is the iteration
      with [enable_threading], the thread that looks for processes and the loop
      that takes them out of the queue; [Dump] is tools/dump.c;
    - [CommandLine] is tools/ulp.c: the tables of options, the parser that argp
      calls, and the dispatch.

    [SimKernel], [SimElf] and [WitnessTrigger] define small kernels, a small libelf
    and a small json-c that satisfy the laws; the [Witness] files apply each
    property at a concrete input.

    ** State, errors and effects

    A C function that changes state is a function in the monad [st S E A]: from a
    state to a result and a state. A result is a value, an early return ([Err]),
    an undefined behaviour or a failed assertion ([Ub]), or the end of the fuel
    ([NoFuel]). [code] turns an early return into the value of the function.
    Integers are [Z] with [u32], [u64], [s32] written where the code wraps; bytes
    are [Z]; a pointer that can be NULL is an [option]; linked lists are lists.
    The state of the tool is [tool K], the kernel with the messages printed, and
    in the critical section [cstate K], with what the tool knows of the process.
    The threads of the ring, of the iteration and of the lock are step relations,
    and theorems hold for every interleaving.

    ** What the theorems show

    - Requests: an admissible patch is recorded and its writes are queued
      ([Requests.apply_request]); reverting restores every function
      ([Requests.revert_restores]); refused and failed requests leave the
      state ([Requests.refused_requests], [Requests.failed_apply]); with no error
      state and an empty queue a request is let through exactly when no thread is in
      a wrapped function and the loader is not locked ([PatchingLock.patching_lock]).
    - The queue of instructions refines a list ([InsnQueue.insert_refines],
      [InsnQueue.insert_then_interpret]) and the tool performs its writes in the
      process ([InsnQueueTool.interpret_from_process_spec]).
    - The prologues: a patched function goes to the new one and stays patchable
      ([ArchX86.x86_patch_redirects], [ArchPpc.ppc_patch_redirects]).
    - The formats: round trips and safety of the parser of metadata; what the
      second loader accepts the parser reads alike, for files with a path
      ([DiskMetadata.disk_loader_agrees]).
    - The critical section lets every thread go exactly once with the registers
      it was stopped with ([Critical.critical_section_transparent]), also when
      stopping fails ([Critical.hijack_error]); on every path of trigger the kernel
      holds no thread that it did not hold before, or the tool has said so
      ([TriggerRun.trigger_leaves_nothing_stopped]); success is reported only for a
      patch that fits and that this run had applied while every thread was stopped
      ([TriggerRun.trigger_success]).
    - The tool finds libpulp and its exports in a process
      ([IntrospectProcess.libpulp_found]), reads the patches it recorded
      ([RemoteState.ulp_read_state_spec]), and answers and switches only on what
      libpulp said ([Commands.check_answer], [Commands.enable_or_disable_safe]).
    - The command line: what the commands read without a test is there
      ([CommandLine.arguments_well_formed]), unless a number overflows. Every selected process is visited
      once and in order, as long as all can be examined
      ([PatchesSpec.for_each_visits]), also with a thread
      ([PatchesThreads.threaded_visits]); what is listed and dumped
      ([PatchesSpec.is_library_livepatchable_spec], [PatchesSpec.labels_found],
      [Dump.dump_shows_packed]).
    - The container that the library reads by itself gives the buffer that the tool
      would send ([MiniElf.gdb_matches_tool]), and the parser makes of it the patch
      that was packed ([MiniElf.gdb_metadata_roundtrip]). Driven from a debugger, a
      whole request changes exactly the prologues and the references
      ([GdbInterface.gdb_apply_spec]), and reverting it makes every function go where
      it went ([GdbInterface.gdb_round_trip]).
    - ELF files: the nops of the functions that a symbol names are prepared and
      nothing else changes
      ([Post.post_merges_nops]); what is extracted to JSON is read back
      ([Extract.extract_then_open]).
    - The packer: a description is parsed to what it says
      ([Description.dsc_roundtrip]), MD4 is the digest of RFC 1320, and what is
      embedded is read back in the target ([Packer.packer_end_to_end]).
    - Data are released without a double free or a use of freed memory, and what is
      left over is said ([Release.release_ulp_process_spec],
      [Release.free_metadata_spec]); an error in a description is shown under its place
      ([ParseError.print_parse_error_spec]) and always has one
      ([ParseError.every_error_is_shown]).
    - The locks of the loader are at the offsets of each version
      ([RtldLocks.get_ld_global_locks_spec]); a library in use is noticed
      ([StackCheck.coarse_library_range_check_spec]); both ways of reading a process
      agree ([PtraceWords.read_memory_peek_spec]).
    - The rings: messages and processes are handed over in order
      ([MsgQueue.messages_kept], [PcQueue.pc_refines], [PcQueue.pc_handover]).

    Several theorems state behaviour the code does not mean to have; the
    manifest lists them as findings.

    ** Bounds and fuel

    Loops over data are structural, or have fuel with a theorem that enough of it
    gives a result: [Ptrace.ulp_ptrace_terminates] (601 turns of the retry loop),
    [PatchesSpec.for_each_visits] (the entries of the directory and two),
    [PatchesThreads.threaded_visits] (eleven steps for each entry and eleven more),
    [IntrospectProcess.libpulp_found] (more than the libraries, the entries of a
    dynamic section and the words of a name),
    [Description.parse_description_terminates] (the length of the file and two),
    [MsgQueue.messages_kept] (more than the size of the buffer), the interpreter
    of the queue (its size). Loops that wait for the kernel ([attach_loop],
    [poll_loop], [hijack_loop]) take any fuel: theorems about them assume that a
    result is given. [RevertAll.revert_all_diverges] shows a loop of the code that
    never ends. The size of the message buffer is a parameter.

    ** Not modelled

    - Memory allocation: whether an allocation succeeds is a parameter. What is freed is
      tracked in [Release] only.
    - libelf, the dynamic loader, the file system, argp, the clock and the system
      calls are parameters, with laws where the code relies on them.
    - What is printed, except for the messages of a process, the summary of
      trigger, the errors of descriptions and the data of patches and the dumps; other
      debugging output is left out.
    - The cache of the loader in tools/introspection.c, whose structure is declared
      nowhere, the fuzzing entry of tools/ulp.c, the handler of SIGSEGV of
      tools/packer.c, and the assembly code of lib/arch/.
      lib/ulp.c has second copies of two functions of lib/insn_queue.c that are not
      called.
    - Concurrency inside the process beyond the lock: the requests run while the
      other threads are stopped. In [PatchesThreads] the waits on the semaphores are
      not interrupted, and the release of [it->last] before the join is left out. *)

From stdpp Require Export strings.
From stdpp Require Export base list numbers option.
From Stdlib Require Export ZArith Lia.
From Stdlib Require Export List.
Export ListNotations.

Declare Scope ulp_scope.
Delimit Scope ulp_scope with ulp.
#[global] Open Scope Z_scope.

(** Lemmas that normalise byte strings and lengths. *)
Create HintDb ulp discriminated.
Create Rewrite HintDb ulp.

(** ** Tactics of the development *)

(** Split conjunctions in the hypotheses and clean up equations. *)
Ltac simp :=
  repeat match goal with
    | H : _ /\ _ |- _ => destruct H
    | H : exists _, _ |- _ => destruct H
    | H : Some _ = Some _ |- _ => injection H as H; subst
    | H : (_, _) = (_, _) |- _ => injection H; clear H; intros; subst
    | H : Some _ = None |- _ => discriminate H
    | H : None = Some _ |- _ => discriminate H
    end.

(** Case analysis on the outermost [if] or [match] of the goal. *)
Ltac case_goal :=
  match goal with
  | |- context [if ?b then _ else _] => destruct b eqn:?
  | |- context [match ?x with _ => _ end] => destruct x eqn:?
  end.

(** Turn boolean integer tests into propositions. *)
Ltac zbool :=
  repeat match goal with
    | H : (_ =? _) = true |- _ => apply Z.eqb_eq in H
    | H : (_ =? _) = false |- _ => apply Z.eqb_neq in H
    | H : (_ <? _) = true |- _ => apply Z.ltb_lt in H
    | H : (_ <? _) = false |- _ => apply Z.ltb_ge in H
    | H : (_ <=? _) = true |- _ => apply Z.leb_le in H
    | H : (_ <=? _) = false |- _ => apply Z.leb_gt in H
    | H : (_ >? _) = true |- _ => apply Z.gtb_lt in H
    | H : (_ >=? _) = true |- _ => apply Z.geb_le in H
    | H : andb _ _ = true |- _ => apply andb_true_iff in H; destruct H
    | H : orb _ _ = false |- _ => apply orb_false_iff in H; destruct H
    | H : negb _ = true |- _ => apply negb_true_iff in H
    | H : negb _ = false |- _ => apply negb_false_iff in H
    end.

(** ** Machine integers: a [w]-bit unsigned value is a [Z] in [0, 2^w) *)

Definition wrap (w z : Z) : Z := z mod 2 ^ w.
Abbreviation u8 := (wrap 8).
Abbreviation u16 := (wrap 16).
Abbreviation u32 := (wrap 32).
Abbreviation u64 := (wrap 64).

(** Conversion to a [w]-bit two's complement value. *)
Definition swrap (w z : Z) : Z := (z + 2 ^ (w - 1)) mod 2 ^ w - 2 ^ (w - 1).
Abbreviation s32 := (swrap 32).
Abbreviation s64 := (swrap 64).

Definition in_u (w z : Z) : Prop := 0 <= z < 2 ^ w.
Definition in_s (w z : Z) : Prop := - 2 ^ (w - 1) <= z < 2 ^ (w - 1).

Lemma wrap_range w z : 0 <= w -> in_u w (wrap w z).
Proof. intros. apply Z.mod_pos_bound. lia. Qed.

Lemma wrap_id w z : in_u w z -> wrap w z = z.
Proof. intros. apply Z.mod_small. done. Qed.

Lemma swrap_id w z : 1 <= w -> in_s w z -> swrap w z = z.
Proof.
  unfold in_s, swrap. intros Hw Hz.
  replace (2 ^ w) with (2 * 2 ^ (w - 1)).
  - rewrite Z.mod_small; lia.
  - rewrite <- Z.pow_succ_r by lia. f_equal. lia.
Qed.

(** ** Bytes and little-endian words *)

Abbreviation bytes := (list Z).
Definition is_byte (b : Z) : Prop := in_u 8 b.

(** The [n] bytes of [z], least significant first. *)
Fixpoint le_bytes (n : nat) (z : Z) : bytes :=
  match n with
  | O => []
  | S n => z mod 256 :: le_bytes n (z / 256)
  end.

(** The value of a little-endian byte string. *)
Fixpoint le_val (bs : bytes) : Z :=
  match bs with
  | [] => 0
  | b :: bs => b + 256 * le_val bs
  end.

Lemma length_le_bytes n z : length (le_bytes n z) = n.
Proof. revert z. induction n; simpl; auto. Qed.

Lemma le_val_bytes n z : 0 <= z < 256 ^ Z.of_nat n -> le_val (le_bytes n z) = z.
Proof.
  revert z. induction n as [|n IH]; intros z Hz.
  - simpl in *. lia.
  - cbn [le_bytes le_val]. rewrite IH.
    + rewrite (Z.div_mod z 256) at 3 by lia. lia.
    + rewrite Nat2Z.inj_succ, Z.pow_succ_r in Hz by lia.
      split; [apply Z.div_pos; lia | apply Z.div_lt_upper_bound; lia].
Qed.

Lemma le_bytes_val bs : Forall is_byte bs -> le_bytes (length bs) (le_val bs) = bs.
Proof.
  unfold is_byte, in_u. induction 1 as [|b bs Hb _ IH]; [done|].
  cbn [le_bytes le_val length].
  rewrite (Z.mul_comm 256), Z_mod_plus_full, Z.mod_small by lia.
  rewrite Z.div_add, Z.div_small, Z.add_0_l by lia. by rewrite IH.
Qed.

Lemma le_val_range bs : Forall is_byte bs -> 0 <= le_val bs < 256 ^ Z.of_nat (length bs).
Proof.
  unfold is_byte, in_u. induction 1 as [|b bs Hb _ IH]; cbn [le_val length]; [lia|].
  rewrite Nat2Z.inj_succ, Z.pow_succ_r by lia. lia.
Qed.

Lemma le_bytes_is_byte n z : Forall is_byte (le_bytes n z).
Proof.
  revert z. induction n; intros z; simpl; constructor; auto.
  apply (Z.mod_pos_bound z 256). lia.
Qed.

#[export] Hint Rewrite length_le_bytes @length_app @length_replicate @length_take @length_drop : ulp.
#[export] Hint Resolve le_bytes_is_byte wrap_range : ulp.

(** ** Buffers *)

(** [n] bytes of [l] from offset [off]. *)
Definition slice {A} (off n : nat) (l : list A) : list A := take n (drop off l).

(** Overwrite [l] with [bs] from offset [off]. *)
Definition splice {A} (off : nat) (bs l : list A) : list A :=
  take off l ++ bs ++ drop (off + length bs) l.

Definition zlen {A} (l : list A) : Z := Z.of_nat (length l).

Lemma zlen_nonneg {A} (l : list A) : 0 <= zlen l.
Proof. unfold zlen. lia. Qed.

Lemma zlen_nat {A} (l : list A) : Z.to_nat (zlen l) = length l.
Proof. unfold zlen. lia. Qed.

Lemma zlen_le_bytes n z : zlen (le_bytes n z) = Z.of_nat n.
Proof. unfold zlen. by rewrite length_le_bytes. Qed.

Lemma zlen_app {A} (l k : list A) : zlen (l ++ k) = zlen l + zlen k.
Proof. unfold zlen. rewrite length_app. lia. Qed.

Lemma zlen_cons {A} (x : A) l : zlen (x :: l) = 1 + zlen l.
Proof. unfold zlen. simpl. lia. Qed.

Lemma zlen_take {A} n (l : list A) : Z.of_nat n <= zlen l -> zlen (take n l) = Z.of_nat n.
Proof. unfold zlen. rewrite length_take. lia. Qed.

Lemma zlen_drop {A} n (l : list A) : Z.of_nat n <= zlen l -> zlen (drop n l) = zlen l - Z.of_nat n.
Proof. unfold zlen. rewrite length_drop. lia. Qed.

Lemma length_splice {A} off (bs l : list A) :
  (off + length bs <= length l)%nat -> length (splice off bs l) = length l.
Proof. intros. unfold splice. rewrite !length_app, length_take, length_drop. lia. Qed.

Lemma slice_splice {A} off (bs l : list A) :
  (off + length bs <= length l)%nat -> slice off (length bs) (splice off bs l) = bs.
Proof.
  intros. unfold slice, splice.
  rewrite drop_app_length' by (rewrite length_take; lia).
  by rewrite take_app_length.
Qed.

Lemma slice_app {A} (pre mid post : list A) :
  slice (length pre) (length mid) (pre ++ mid ++ post) = mid.
Proof. unfold slice. by rewrite drop_app_length, take_app_length. Qed.

Lemma splice_app {A} (pre mid mid' post : list A) :
  length mid = length mid' -> splice (length pre) mid' (pre ++ mid ++ post) = pre ++ mid' ++ post.
Proof.
  intros. unfold splice. rewrite take_app_length.
  by rewrite (app_assoc pre mid post), drop_app_length' by (rewrite length_app; lia).
Qed.

(** Two adjacent pieces. *)
Lemma splice_splice {A} i (a b to : list A) : (i + length a <= length to)%nat ->
  splice (i + length a) b (splice i a to) = splice i (a ++ b) to.
Proof.
  intros Hl. unfold splice. rewrite length_app.
  rewrite take_app_ge, take_app_ge, !length_take, !drop_app_ge, !length_take by (rewrite ?length_take; lia).
  replace (i + length a - i `min` length to - length a)%nat with O by lia.
  replace (i + length a + length b - i `min` length to - length a)%nat with (length b) by lia.
  rewrite take_0, drop_drop, app_nil_r, <- !app_assoc. do 4 f_equal. lia.
Qed.

(** ** C strings *)

(** The characters before the terminating NUL. *)
Fixpoint cstr (l : bytes) : bytes :=
  match l with
  | [] => []
  | c :: l => if c =? 0 then [] else c :: cstr l
  end.

(** A string literal as bytes. *)
Fixpoint str (s : string) : bytes :=
  match s with
  | EmptyString => []
  | String c s => Z.of_N (Ascii.N_of_ascii c) :: str s
  end.

Definition no_nul (s : bytes) : Prop := Forall (fun c => c <> 0) s.

Lemma cstr_nul s rest : no_nul s -> cstr (s ++ 0 :: rest) = s.
Proof.
  induction 1 as [|c s Hc _ IH]; [done|].
  simpl. destruct (Z.eqb_spec c 0); [done|]. by rewrite IH.
Qed.

Lemma cstr_id s : no_nul s -> cstr s = s.
Proof. induction 1 as [|c s Hc _ IH]; [done|]. simpl. destruct (Z.eqb_spec c 0); [done|]. by rewrite IH. Qed.

Lemma cstr_no_nul l : no_nul (cstr l).
Proof.
  induction l as [|c l IH]; simpl; [constructor|].
  destruct (Z.eqb_spec c 0); constructor; done.
Qed.

(** Hexadecimal digits, as the C library reads them, and as they are written. *)
Definition hex_digit (c : Z) : option Z :=
  if (48 <=? c) && (c <=? 57) then Some (c - 48)
  else if (97 <=? c) && (c <=? 102) then Some (c - 87)
  else if (65 <=? c) && (c <=? 70) then Some (c - 55)
  else None.

Definition hex_char (d : Z) : Z := if d <? 10 then d + 48 else d + 87.

(** The [n] hexadecimal digits of [v]. *)
Fixpoint hex_str (n : nat) (v : Z) : bytes :=
  match n with
  | O => []
  | S n => hex_str n (v / 16) ++ [hex_char (v mod 16)]
  end.

Lemma hex_digit_char d : 0 <= d < 16 -> hex_digit (hex_char d) = Some d.
Proof.
  intros Hd. unfold hex_char, hex_digit. destruct (Z.ltb_spec d 10).
  - rewrite (proj2 (Z.leb_le 48 _)), (proj2 (Z.leb_le _ 57)) by lia. cbn [andb]. f_equal. lia.
  - rewrite (proj2 (Z.leb_gt _ 57)), andb_false_r by lia.
    rewrite (proj2 (Z.leb_le 97 _)), (proj2 (Z.leb_le _ 102)) by lia. cbn [andb]. f_equal. lia.
Qed.

Definition byte_eqb (a b : bytes) : bool := bool_decide (a = b).

Lemma byte_eqb_spec a b : byte_eqb a b = true <-> a = b.
Proof. unfold byte_eqb. by rewrite bool_decide_eq_true. Qed.

Lemma byte_eqb_refl a : byte_eqb a a = true.
Proof. by apply byte_eqb_spec. Qed.

Lemma byte_eqb_neq a b : byte_eqb a b = false <-> a <> b.
Proof. unfold byte_eqb. by rewrite bool_decide_eq_false. Qed.

(** ** Strings of the C library and of common/common.c *)

(** [isspace] in the C locale. *)
Definition isspace (c : Z) : bool := (c =? 32) || ((9 <=? c) && (c <=? 13)).

Fixpoint skip_spaces (s : bytes) : bytes :=
  match s with
  | c :: s' => if isspace c then skip_spaces s' else s
  | [] => []
  end.

(** [strrchr (s, c)]: from the last [c] on. *)
Fixpoint strrchr (s : bytes) (c : Z) : option bytes :=
  match s with
  | [] => None
  | x :: t =>
    match strrchr t c with
    | Some r => Some r
    | None => if x =? c then Some s else None
    end
  end.

(** common/common.c *)
Definition get_basename (name : option bytes) : option bytes :=
  match name with
  | None => None
  | Some name =>
    match strrchr (cstr name) 47 with
    | Some base => Some (drop 1 base)
    | None => Some name
    end
  end.

#[export] Hint Rewrite @zlen_app @zlen_cons : ulp.
#[export] Hint Resolve zlen_nonneg byte_eqb_refl : ulp.

(** ** The monad of fallible C code

    A C function that returns an error code early, reads outside an object or
    loops without a bound is a computation on an explicit state. *)

Inductive res (E A : Type) : Type :=
| Ok (a : A)      (** the value computed *)
| Err (e : E)     (** an early [return e] *)
| Ub              (** undefined behaviour: an access outside an object *)
| NoFuel.         (** the loop bound of the model was reached *)
Arguments Ok {E A} a.
Arguments Err {E A} e.
Arguments Ub {E A}.
Arguments NoFuel {E A}.

Definition st (S E A : Type) : Type := S -> res E A * S.

Definition ret {S E A} (a : A) : st S E A := fun s => (Ok a, s).
Definition throw {S E A} (e : E) : st S E A := fun s => (Err e, s).
Definition undef {S E A} : st S E A := fun s => (Ub, s).
Definition nofuel {S E A} : st S E A := fun s => (NoFuel, s).
Definition bind {S E A B} (m : st S E A) (k : A -> st S E B) : st S E B :=
  fun s => match m s with
           | (Ok a, s') => k a s'
           | (Err e, s') => (Err e, s')
           | (Ub, s') => (Ub, s')
           | (NoFuel, s') => (NoFuel, s')
           end.
Definition gets {S E A} (f : S -> A) : st S E A := fun s => (Ok (f s), s).
Definition modify {S E} (f : S -> S) : st S E unit := fun s => (Ok tt, f s).

Notation "'let!' x := m 'in' k" := (bind m (fun x => k))
  (at level 10, x name, m at level 100, k at level 200) : ulp_scope.
Notation "m ;;; k" := (bind m (fun _ => k))
  (at level 100, k at level 200, right associativity) : ulp_scope.

(** The same without a state. *)
Definition rbind {E A B} (m : res E A) (k : A -> res E B) : res E B :=
  match m with
  | Ok a => k a
  | Err e => Err e
  | Ub => Ub
  | NoFuel => NoFuel
  end.

Notation "'try' x := m 'in' k" := (rbind m (fun x => k))
  (at level 10, x name, m at level 100, k at level 200) : ulp_scope.

(** A pointer that is used without a test. *)
Definition deref {E A} (p : option A) : res E A :=
  match p with Some a => Ok a | None => Ub end.

(** [if (b) return e;] *)
Definition guard {S E} (b : bool) (e : E) : st S E unit :=
  if b then throw e else ret tt.

(** The body [f] run [n] times, on the state. *)
Fixpoint repeat_m {S E} (n : nat) (f : st S E unit) : st S E unit :=
  match n with
  | O => ret tt
  | Datatypes.S n => bind f (fun _ => repeat_m n f)
  end.

(** The body [f] run on each element. *)
Fixpoint for_each {S E A} (l : list A) (f : A -> st S E unit) : st S E unit :=
  match l with
  | [] => ret tt
  | x :: l => bind (f x) (fun _ => for_each l f)
  end.

(** The code a function of the [int] kind returns: its value or the early one. *)
Definition code {S} (m : st S Z Z) : st S Z Z :=
  fun s => match m s with
           | (Err e, s') => (Ok e, s')
           | r => r
           end.

Section monad_laws.
Context {S E : Type}.

Lemma bind_ok {A B} (m : st S E A) (k : A -> st S E B) s a s' :
  m s = (Ok a, s') -> bind m k s = k a s'.
Proof. unfold bind. by intros ->. Qed.

Lemma bind_err {A B} (m : st S E A) (k : A -> st S E B) s e s' :
  m s = (Err e, s') -> bind m k s = (Err e, s').
Proof. unfold bind. by intros ->. Qed.

Lemma bind_ok_inv {A B} (m : st S E A) (k : A -> st S E B) s b s'' :
  bind m k s = (Ok b, s'') -> exists a s', m s = (Ok a, s') /\ k a s' = (Ok b, s'').
Proof. unfold bind. destruct (m s) as [[] ?]; naive_solver. Qed.

Lemma bind_err_inv {A B} (m : st S E A) (k : A -> st S E B) s e s'' :
  bind m k s = (Err e, s'') -> m s = (Err e, s'') \/ exists a s', m s = (Ok a, s') /\ k a s' = (Err e, s'').
Proof. unfold bind. destruct (m s) as [[] ?]; naive_solver. Qed.

Lemma bind_assoc {A B C} (m : st S E A) (k : A -> st S E B) (h : B -> st S E C) s :
  bind (bind m k) h s = bind m (fun a => bind (k a) h) s.
Proof. unfold bind. by destruct (m s) as [[] ?]. Qed.

Lemma ret_bind {A B} (a : A) (k : A -> st S E B) s : bind (ret a) k s = k a s.
Proof. done. Qed.

(** A property of the state that every step keeps is kept by the loop. *)
Lemma for_each_inv {A} (P : S -> Prop) (l : list A) (f : A -> st S E unit) :
  (forall x s, P s -> P (f x s).2) -> forall s, P s -> P (for_each l f s).2.
Proof.
  intros Hf. induction l as [|x l IH]; intros s Hs; simpl; [done|].
  unfold bind. specialize (Hf x s Hs).
  destruct (f x s) as [[] s']; simpl in *; auto.
Qed.
End monad_laws.

#[export] Hint Rewrite @ret_bind @bind_assoc : ulp.

(** Run a computation one statement further. *)
Ltac step_bind H := rewrite (bind_ok _ _ _ _ _ H).
