(* ===== verification/Errors.v ===== *)
(** * Error codes, their messages and the error state of libpulp

    Models include/error_common.h (the codes and the message table),
    [libpulp_strerror] of common/common.c and lib/error.c (the state that
    blocks live patching, and the routines that enter it). *)

From S2P Require Import Prelude.

(** System error codes of the Linux ABI the code returns. *)
Definition EPERM := 1.
Definition ENOENT := 2.
Definition ESRCH := 3.
Definition EAGAIN := 11.
Definition ENOMEM := 12.
Definition EINVAL := 22.
Definition ENOSYS := 38.
Definition ETIME := 62.
Definition EOVERFLOW := 75.

(** Codes of libpulp, from 256. *)
Definition ENONE := 0.
Definition EUNKNOWN := 256.
Definition EBUILDID := 257.
Definition ETARGETHOOK := 258.
Definition ENODEBUGTAG := 259.
Definition ENOLINKMAP := 260.
Definition ENOPHDR := 261.
Definition ENOPENTRY := 262.
Definition ENOLIBPULP := 263.
Definition ETHRDATTACH := 264.
Definition ETHRDDETTACH := 265.
Definition EINVALIDULP := 266.
Definition ENOOLDFUNC := 267.
Definition ENONEWFUNC := 268.
Definition ENOMETA := 269.
Definition ESTATE := 270.
Definition ENOSTATE := 271.
Definition ENOTAPPLIED := 272.
Definition EDEPEND := 273.
Definition ENOADDRESS := 274.
Definition EAPPLIED := 275.
Definition ENOTARGETLIB := 276.
Definition EHOOKNOTRUN := 277.
Definition ENOPATCHABLE := 278.
Definition EWILDNOMATCH := 279.
Definition EUSRBLOCKED := 280.
Definition EOLDLIBPULP := 281.
Definition EINITFAIL := 282.
Definition MPROTFAIL := 283.
Definition ENOPATCH := 284.
Definition EINSNQ := 285.
Definition EOLDULP := 286.
Definition EDLOPEN := 287.
Definition ENOLIBDL := 288.
Definition ENOLIBC := 289.

(** The message table. The source has no comma after the last but one string,
    so the compiler joins the last two. *)
Definition ULP_ERRLIST : list string :=
  [ "Unknown error"; "Build ID mismatch"; "Error attaching to process";
    "Process without debug tag"; "No link map in object"; "Invalid program header";
    "Unable to find process entry address"; "Libpulp not found in target process";
    "Thread attach failure"; "Thread dettach failure"; "Invalid .ulp file";
    "To be patched function not found"; "New function not found"; "No metadata in .so";
    "State update failure"; "Unable to retrieve ulp state"; "Patch not applied";
    "Dependency failure"; "Address read error"; "Patch already applied";
    "Target library not loaded"; "libpulp.so hook routine not run";
    "Function is not livepatchable"; "No file matched wildcard";
    "Livepatching blocked by user request"; "Libpulp version is too old";
    "Libpulp initialization failure"; "Page permission error"; "No patches installed";
    "Instruction queue in inconsistent state"; "ULP tool is too old";
    "Failure in dlopen"; "Libdl not found." ++ "Libc not found or unsupported." ]%string.

Section strerror.
(** The [strerror] of the C library. *)
Variable strerror : Z -> string.

Definition libpulp_strerror (errnum : Z) : string :=
  if (255 <? errnum) && (errnum <? EUNKNOWN + zlen ULP_ERRLIST) then
    nth (Z.to_nat (Z.land errnum 255)) ULP_ERRLIST EmptyString
  else strerror errnum.
End strerror.

(** ** The error state

    [messages] records the format strings pushed into the message queue, newest
    first; their expansion is the business of the C library. *)

Record diag := { err_state : Z; messages : list string }.

Definition diag_init : diag := {| err_state := ENONE; messages := [] |}.

(** [WARN], [DEBUG] and [msgq_push] in libpulp.so. *)
Definition push_msg (fmt : string) (d : diag) : diag :=
  {| err_state := err_state d; messages := fmt :: messages d |}.

Definition get_libpulp_error_state (d : diag) : Z := err_state d.

Definition libpulp_is_in_error_state (d : diag) : bool :=
  negb (get_libpulp_error_state d =? ENONE).

Definition set_libpulp_error_state (state : Z) (d : diag) : diag :=
  {| err_state := state; messages := messages d |}.

Definition set_libpulp_error_state_with_reason_func (state : Z) (fmt : string) (d : diag) : diag :=
  push_msg fmt
    (push_msg "In file = %s, function = %s, line = %d, error state %d: "
       (set_libpulp_error_state state d)).

Definition libpulp_assert_func (expression : Z) (d : diag) : diag :=
  if negb (expression =? 0) then d
  else
    set_libpulp_error_state EUNKNOWN
      (push_msg "In file = %s, function = %s, line = %d: assertion failure: %lu\n" d).

Definition libpulp_errx_func (eval : Z) (fmt : string) (d : diag) : diag :=
  set_libpulp_error_state EUNKNOWN
    (push_msg fmt (push_msg "In file = %s, function = %s, line = %d: errx : %d ;; " d)).

Definition libpulp_exit_func (val : Z) (d : diag) : diag :=
  set_libpulp_error_state EUNKNOWN
    (push_msg "In file = %s, function = %s, line = %d: exit: %d\n" d).

(** How a routine that may stop the process ends. *)
Inductive ending := Continues | Exits (status : Z) (stderr : list string).

(** The single place where libpulp ends the process. *)
Definition libpulp_unique_exit_point (stderr : list string) : ending := Exits 1 stderr.

Definition libpulp_crash (fmt : string) : ending := libpulp_unique_exit_point [fmt].

Definition libpulp_crash_assert_func (expression : Z) : ending :=
  if negb (expression =? 0) then Continues
  else libpulp_unique_exit_point
         ["LIBPULP CATASTROPHIC FAILURE: In file = %s, function = %s, line = %d: assertion failure: %lu\n"%string].

(** [ulp_enable_or_disable_patching] of lib/ulp.c: the user's switch. *)
Definition ulp_enable_or_disable_patching (d : diag) : Z * diag :=
  let state := get_libpulp_error_state d in
  let d' :=
    if state =? ENONE then set_libpulp_error_state EUSRBLOCKED d
    else if state =? EUSRBLOCKED then set_libpulp_error_state ENONE d
    else d in
  (get_libpulp_error_state d', d').

(** ** Properties *)

(** The range of codes the table serves. *)
Definition has_message (errnum : Z) : Prop := EUNKNOWN <= errnum <= EDLOPEN.

Lemma strerror_in_table f errnum :
  EUNKNOWN <= errnum <= ENOLIBDL ->
  libpulp_strerror f errnum = nth (Z.to_nat (errnum - EUNKNOWN)) ULP_ERRLIST EmptyString.
Proof.
  unfold EUNKNOWN, ENOLIBDL, libpulp_strerror. intros H.
  change (zlen ULP_ERRLIST) with 33. unfold EUNKNOWN.
  rewrite (proj2 (Z.ltb_lt _ _)), (proj2 (Z.ltb_lt _ _)) by lia. cbn [andb].
  change 255 with (Z.ones 8). rewrite Z.land_ones by lia. change (2 ^ 8) with 256.
  replace (errnum mod 256) with (errnum - 256); [done|].
  apply (Z.mod_unique_pos _ _ 1); lia.
Qed.

(** The table is indexed without repetition. *)
Lemma errlist_nodup : NoDup ULP_ERRLIST.
Proof. apply NoDup_ListNoDup, (bool_decide_unpack _). vm_compute. exact I. Qed.

(** Every code of libpulp from [EUNKNOWN] to [EDLOPEN] has its own
    message, taken from libpulp's table and never from the C library. The two
    last codes are lost: [ENOLIBDL] prints the joined text of both and
    [ENOLIBC] is passed to the C library's [strerror]. *)
Theorem strerror_messages f :
  (forall e, has_message e -> In (libpulp_strerror f e) ULP_ERRLIST) /\
  (forall e e', has_message e -> has_message e' ->
     libpulp_strerror f e = libpulp_strerror f e' -> e = e') /\
  libpulp_strerror f ENOLIBDL = "Libdl not found.Libc not found or unsupported."%string /\
  libpulp_strerror f ENOLIBC = f ENOLIBC.
Proof.
  unfold has_message. split; [|split; [|split; reflexivity]].
  - intros e He. rewrite strerror_in_table by (unfold EDLOPEN, ENOLIBDL in *; lia).
    apply nth_In. unfold EUNKNOWN, EDLOPEN in *. change (length ULP_ERRLIST) with 33%nat. lia.
  - intros e e' He He'. rewrite !strerror_in_table by (unfold EDLOPEN, ENOLIBDL in *; lia).
    unfold EUNKNOWN, EDLOPEN in *. intros Heq.
    assert (Z.to_nat (e - 256) = Z.to_nat (e' - 256)); [|lia].
    eapply (proj1 (List.NoDup_nth ULP_ERRLIST EmptyString)); [| | |exact Heq];
      try (change (length ULP_ERRLIST) with 33%nat; lia).
    apply errlist_nodup.
Qed.

(** The user's switch blocks livepatching when the library is healthy and
    unblocks it when the user had blocked it; an error state is never changed by
    it; thrown twice it leaves everything as it was. *)
Theorem patching_switch d :
  (libpulp_is_in_error_state d = false ->
     err_state (ulp_enable_or_disable_patching d).2 = EUSRBLOCKED) /\
  (err_state d = EUSRBLOCKED ->
     libpulp_is_in_error_state (ulp_enable_or_disable_patching d).2 = false) /\
  (err_state d <> ENONE -> err_state d <> EUSRBLOCKED ->
     (ulp_enable_or_disable_patching d).2 = d) /\
  (ulp_enable_or_disable_patching (ulp_enable_or_disable_patching d).2).2 = d.
Proof.
  unfold libpulp_is_in_error_state, ulp_enable_or_disable_patching, get_libpulp_error_state.
  destruct d as [e m]. simpl. split_and!.
  - intros H. zbool. subst. done.
  - intros ->. done.
  - intros H1 H2. rewrite (proj2 (Z.eqb_neq _ _) H1), (proj2 (Z.eqb_neq _ _) H2). done.
  - destruct (Z.eqb_spec e ENONE) as [->|H1]; [done|].
    destruct (Z.eqb_spec e EUSRBLOCKED) as [->|H2]; [done|]. simpl.
    by rewrite (proj2 (Z.eqb_neq _ _) H1), (proj2 (Z.eqb_neq _ _) H2).
Qed.
