(* ===== verification/ReadData.v ===== *)
(** * Reading a fixed amount (lib/ulp.c)

    [read_data] fills a buffer from a descriptor that may deliver the bytes in pieces. *)

From stdpp Require Import list.
From S2P Require Import Prelude Errors.

Open Scope ulp_scope.

(** What successive calls of [read] can give: at most as many bytes as are asked for
    are taken of a piece; [read] is interrupted ([EINTR], [EAGAIN]) or fails. *)
Inductive read_event := Piece (bs : bytes) | Interrupted | Failed.

(** The loop; [done_] bytes are in the buffer. [None] is the return within the loop. *)
Fixpoint read_data_loop (from : list read_event) (to : bytes) (count done_ : nat) : option nat * bytes :=
  match from with
  | [] => (Some done_, to)
  | Interrupted :: from => read_data_loop from to count done_
  | Failed :: _ => (None, to)
  | Piece bs :: from =>
    let got := take (count - done_) bs in
    match got with
    | [] => (Some done_, to)
    | _ =>
      let to := splice done_ got to in
      if (done_ + length got =? count)%nat then (Some count, to) else read_data_loop from to count (done_ + length got)
    end
  end.

(** The code, what is printed and the buffer. *)
Definition read_data (from : list read_event) (to : bytes) (count : nat) : Z * list string * bytes :=
  match read_data_loop from to count 0 with
  | (None, to) => (1, ["Error in call to read()"%string], to)
  | (Some done_, to) => if negb (done_ =? count)%nat then (1, ["line %d: Not enough data to read()"%string], to) else (0, [], to)
  end.

(** What the descriptor delivers until it ends or fails. *)
Fixpoint delivered (from : list read_event) : bytes :=
  match from with
  | Piece [] :: _ | Failed :: _ | [] => []
  | Piece bs :: from => bs ++ delivered from
  | Interrupted :: from => delivered from
  end.

Lemma read_data_loop_ok from : forall to count done_, (done_ < count)%nat -> (count <= length to)%nat ->
  if (count - done_ <=? length (delivered from))%nat
  then read_data_loop from to count done_ = (Some count, splice done_ (take (count - done_) (delivered from)) to)
  else forall to', read_data_loop from to count done_ <> (Some count, to').
Proof.
  induction from as [|[bs| |] from IH]; intros to count done_ Hd Hl; cbn [read_data_loop delivered].
  - destruct (Nat.leb_spec (count - done_) (length (@nil Z))) as [Hle|]; [cbn in Hle; lia|]. intros to' [= E]. lia.
  - destruct bs as [|b bs].
    { rewrite take_nil. destruct (Nat.leb_spec (count - done_) (length (@nil Z))) as [Hle|]; [cbn in Hle; lia|]. intros to' [= E]. lia. }
    set (l := b :: bs). assert (Hl1 : (0 < length l)%nat) by (cbn; lia). clearbody l.
    assert (Hgot : exists c r, take (count - done_) l = c :: r).
    { destruct (take (count - done_) l) as [|c r] eqn:E; [|by exists c, r]. apply (f_equal length) in E. rewrite length_take in E. cbn in E. lia. }
    destruct Hgot as (c & r & Hgot). rewrite Hgot, <- Hgot. rewrite length_take.
    destruct (Nat.eqb_spec (done_ + Nat.min (count - done_) (length l)) count) as [E|E].
    + rewrite (proj2 (Nat.leb_le _ _)) by (rewrite length_app; lia). by rewrite take_app_le by lia.
    + assert (Hlt : (length l < count - done_)%nat) by lia.
      replace (Nat.min (count - done_) (length l)) with (length l) in * by lia. rewrite (take_ge l) by lia.
      specialize (IH (splice done_ l to) count (done_ + length l)%nat ltac:(lia)). rewrite length_splice in IH by lia.
      specialize (IH Hl). rewrite length_app.
      replace (count - (done_ + length l) <=? length (delivered from))%nat with (count - done_ <=? length l + length (delivered from))%nat in IH
        by (apply Bool.eq_true_iff_eq; rewrite !Nat.leb_le; lia).
      destruct (Nat.leb_spec (count - done_) (length l + length (delivered from))) as [Hle|Hgt]; [|exact IH].
      rewrite IH. f_equal. rewrite take_app_ge by lia. replace (count - done_ - length l)%nat with (count - (done_ + length l))%nat by lia.
      by rewrite splice_splice by lia.
  - by apply IH.
  - destruct (Nat.leb_spec (count - done_) (length (@nil Z))) as [Hle|]; [cbn in Hle; lia|]. done.
Qed.

(** The code is 0 exactly when the descriptor delivers [count] bytes, however they are cut and
    however often [read] is interrupted; the buffer then begins with them, and the rest of it
    is as before. *)
Theorem read_data_spec from to count
    (Hroom : (0 < count <= length to)%nat) :
  let '(code, _, to') := read_data from to count in
  (code = 0 <-> (count <= length (delivered from))%nat) /\ (code = 0 -> to' = splice 0 (take count (delivered from)) to).
Proof.
  pose proof (read_data_loop_ok from to count 0 ltac:(lia) ltac:(lia)) as H. rewrite Nat.sub_0_r in H. unfold read_data.
  destruct (Nat.leb_spec count (length (delivered from))) as [Hle|Hgt].
  - rewrite H, Nat.eqb_refl. cbn [negb]. done.
  - destruct (read_data_loop from to count 0) as [[n|] to']; [|split; [split; [done|lia]|done]].
    destruct (Nat.eqb_spec n count) as [->|]; cbn [negb]; [by destruct (H to')|]. split; [split; [done|lia]|done].
Qed.

Lemma read_data_spec_witness :
  read_data [Piece [1; 2]; Interrupted; Piece [3; 4; 5]] (replicate 6 0) 4 = (0, [], [1; 2; 3; 4; 0; 0]).
Proof.
  pose proof (read_data_spec [Piece [1; 2]; Interrupted; Piece [3; 4; 5]] (replicate 6 0) 4 ltac:(cbn; lia)) as H. by vm_compute.
Defined.
