(* ===== verification/Memory.v ===== *)
(** * Memory as a finite map from addresses to bytes

    Shared by the queue's backends, the access to the target process and the
    code that libpulp patches. An address that is not mapped has no entry. *)

From stdpp Require Import gmap.
From S2P Require Import Prelude.

Abbreviation mem := (gmap Z Z).

Fixpoint mem_write (a : Z) (bs : bytes) (m : mem) : mem :=
  match bs with
  | [] => m
  | b :: bs => <[a := b]> (mem_write (a + 1) bs m)
  end.

(** [n] bytes from [a], if all are mapped. *)
Fixpoint mem_read (a : Z) (n : nat) (m : mem) : option bytes :=
  match n with
  | O => Some []
  | S n =>
    match m !! a, mem_read (a + 1) n m with
    | Some b, Some bs => Some (b :: bs)
    | _, _ => None
    end
  end.

Lemma mem_write_lookup_out a bs m x :
  x < a \/ a + zlen bs <= x -> mem_write a bs m !! x = m !! x.
Proof.
  revert a. induction bs as [|b bs IH]; intros a Hx; [done|]. rewrite zlen_cons in Hx.
  pose proof (zlen_nonneg bs). simpl. rewrite lookup_insert_ne by lia. apply IH. lia.
Qed.

Lemma mem_write_lookup_in a bs m x :
  a <= x < a + zlen bs -> mem_write a bs m !! x = bs !! Z.to_nat (x - a).
Proof.
  revert a. induction bs as [|b bs IH]; intros a Hx.
  - change (zlen (@nil Z)) with 0 in Hx. lia.
  - rewrite zlen_cons in Hx. simpl. destruct (decide (a = x)) as [->|Hne].
    + rewrite lookup_insert_eq, Z.sub_diag. done.
    + rewrite lookup_insert_ne, IH by lia.
      replace (Z.to_nat (x - a)) with (S (Z.to_nat (x - (a + 1)))) by lia. done.
Qed.

(** Two maps with the same bytes are equal: the extensionality used below. *)
Lemma mem_write_app a xs ys m :
  mem_write a (xs ++ ys) m = mem_write (a + zlen xs) ys (mem_write a xs m).
Proof.
  apply map_eq. intros x. pose proof (zlen_nonneg xs). pose proof (zlen_nonneg ys).
  destruct (decide (a <= x < a + zlen xs + zlen ys)) as [Hin|Hout].
  - rewrite mem_write_lookup_in by (rewrite zlen_app; lia).
    destruct (decide (x < a + zlen xs)) as [Hx|Hx].
    + rewrite mem_write_lookup_out, mem_write_lookup_in by lia.
      apply lookup_app_l. unfold zlen in *. lia.
    + rewrite mem_write_lookup_in, lookup_app_r by (unfold zlen in *; lia).
      f_equal. unfold zlen in *. lia.
  - rewrite !mem_write_lookup_out by (rewrite ?zlen_app; lia). done.
Qed.

Lemma mem_read_ext a n m m' :
  (forall x, a <= x < a + Z.of_nat n -> m !! x = m' !! x) -> mem_read a n m = mem_read a n m'.
Proof.
  revert a. induction n as [|n IH]; intros a Hx; [done|]. simpl.
  rewrite (Hx a), (IH (a + 1)) by (intros; try apply Hx; lia). done.
Qed.

Lemma mem_read_write a bs m : mem_read a (length bs) (mem_write a bs m) = Some bs.
Proof.
  revert a. induction bs as [|b bs IH]; intros a; [done|]. simpl.
  rewrite lookup_insert_eq.
  rewrite (mem_read_ext (a + 1) _ _ (mem_write (a + 1) bs m)), IH; [done|].
  intros x Hx. by rewrite lookup_insert_ne by lia.
Qed.

Lemma mem_read_write_out a n b bs m :
  a + Z.of_nat n <= b \/ b + zlen bs <= a -> mem_read a n (mem_write b bs m) = mem_read a n m.
Proof. intros H. apply mem_read_ext. intros x Hx. apply mem_write_lookup_out. lia. Qed.

Lemma mem_read_length a n m bs : mem_read a n m = Some bs -> length bs = n.
Proof.
  revert a bs. induction n as [|n IH]; intros a bs; simpl; [by intros [= <-]|].
  destruct (m !! a), (mem_read (a + 1) n m) as [bs'|] eqn:E; try done.
  intros [= <-]. simpl. by rewrite (IH _ _ E).
Qed.

Lemma mem_read_bytes a n m bs :
  (forall x b, m !! x = Some b -> is_byte b) -> mem_read a n m = Some bs -> Forall is_byte bs.
Proof.
  intros Hb. revert a bs. induction n as [|n IH]; intros a bs; simpl; [by intros [= <-]|].
  destruct (m !! a) eqn:Ea, (mem_read (a + 1) n m) as [bs'|] eqn:E; try done.
  intros [= <-]. constructor; [by eapply Hb|by eapply IH].
Qed.

Lemma mem_read_app a n k m :
  mem_read a (n + k) m =
  match mem_read a n m, mem_read (a + Z.of_nat n) k m with
  | Some xs, Some ys => Some (xs ++ ys)
  | _, _ => None
  end.
Proof.
  revert a. induction n as [|n IH]; intros a.
  - simpl. rewrite Z.add_0_r. by destruct (mem_read a k m).
  - simpl. rewrite IH. replace (a + 1 + Z.of_nat n) with (a + Z.of_nat (S n)) by lia.
    destruct (m !! a), (mem_read (a + 1) n m), (mem_read (a + Z.of_nat (S n)) k m); done.
Qed.

(** Writing what is already there changes nothing. *)
Lemma mem_write_read a bs m : mem_read a (length bs) m = Some bs -> mem_write a bs m = m.
Proof.
  revert a. induction bs as [|b bs IH]; intros a; simpl; [done|].
  destruct (m !! a) as [b'|] eqn:E, (mem_read (a + 1) (length bs) m) as [bs'|] eqn:E'; try done.
  intros [= -> ->]. rewrite IH by done. by apply insert_id.
Qed.

(** A write does not unmap anything. *)
Lemma mem_read_is_Some_write a n b bs m :
  is_Some (mem_read a n m) -> is_Some (mem_read a n (mem_write b bs m)).
Proof.
  revert a. induction n as [|n IH]; intros a [xs Hx]; simpl in *; [by eexists|].
  destruct (m !! a) as [y|] eqn:Ea; [|done].
  destruct (mem_read (a + 1) n m) as [ys|] eqn:Er; [|done].
  destruct (IH (a + 1)) as [zs ->]; [by eexists|].
  assert (is_Some (mem_write b bs m !! a)) as [z ->]; [|by eexists].
  pose proof (zlen_nonneg bs). destruct (decide (b <= a < b + zlen bs)).
  - rewrite mem_write_lookup_in by done. apply lookup_lt_is_Some_2. unfold zlen in *. lia.
  - rewrite mem_write_lookup_out by lia. by eexists.
Qed.

(** Reading inside what was written. *)
Lemma mem_read_write_sub a b n bs m :
  a <= b -> b + Z.of_nat n <= a + zlen bs ->
  mem_read b n (mem_write a bs m) = Some (slice (Z.to_nat (b - a)) n bs).
Proof.
  intros Hab Hn. unfold zlen in Hn. set (k := Z.to_nat (b - a)).
  rewrite <- (take_drop k bs), <- (take_drop n (drop k bs)) at 1. rewrite !mem_write_app.
  assert (Hk : zlen (take k bs) = b - a) by (rewrite zlen_take; unfold zlen; lia).
  assert (Hn' : length (take n (drop k bs)) = n) by (rewrite length_take, length_drop; lia).
  rewrite mem_read_write_out by (left; unfold zlen in *; lia).
  replace (a + zlen (take k bs)) with b by lia. rewrite <- Hn' at 1. by rewrite mem_read_write.
Qed.

Lemma mem_read_sub a n b k m bs :
  mem_read a n m = Some bs -> a <= b -> b + Z.of_nat k <= a + Z.of_nat n ->
  mem_read b k m = Some (slice (Z.to_nat (b - a)) k bs).
Proof.
  intros Hr Hab Hk. pose proof (mem_read_length _ _ _ _ Hr) as Hl.
  rewrite <- (mem_write_read a bs m) by (by rewrite Hl).
  apply mem_read_write_sub; unfold zlen; lia.
Qed.

(** A later write to the same place replaces the earlier one. *)
Lemma mem_write_write a xs ys m :
  length xs = length ys -> mem_write a ys (mem_write a xs m) = mem_write a ys m.
Proof.
  intros Hl. apply map_eq. intros x.
  destruct (decide (a <= x < a + zlen ys)).
  - by rewrite !mem_write_lookup_in.
  - rewrite !mem_write_lookup_out; [done|unfold zlen in *; lia..].
Qed.

#[export] Hint Rewrite mem_read_write : ulp.
