(* ===== verification/Metadata.v ===== *)
(** * Live patch metadata: the wire format, its writers and its parser

    The packer writes a patch's metadata into the [.ulp] section of the
    container ([create_patch_metadata_file]) and a revert patch into
    [.ulp.rev] ([write_reverse_patch]); the path of the container is inserted
    when the patch is triggered ([extract_ulp_from_so_to_mem] in the tool,
    [inject_lp_path] in the library); [parse_metadata_from_mem] reads the
    result back inside the target process. *)

From S2P Require Import Prelude Errors.

Open Scope ulp_scope.

(** ** Data (include/ulp_common.h)

    Linked lists are lists; a pointer that may be [NULL] is an option. *)

Definition ULP_METADATA_BUF_LEN : Z := 512 * 1024.
Definition ULP_PATH_LEN : Z := 256.
Definition BUILDID_LEN : Z := 20.
Definition PATH_MAX : Z := 4096.

Record ulp_unit := {
  old_fname : bytes;
  new_fname : bytes;
  old_faddr : Z }.

Record ulp_object := {
  build_id_len : Z;
  build_id_check : Z;
  build_id : option bytes;
  obj_name : option bytes;
  nunits : Z;
  units : list ulp_unit }.

Record ulp_dependency := {
  dep_id : bytes;
  patch_id_check : Z }.

Record ulp_reference := {
  target_name : bytes;
  reference_name : bytes;
  target_offset : Z;
  patch_offset : Z;
  tls : bool }.

Record ulp_metadata := {
  patch_id : bytes;
  so_filename : option bytes;
  so_handler : Z;
  objs : option ulp_object;
  ndeps : Z;
  deps : list ulp_dependency;
  nrefs : Z;
  refs : list ulp_reference;
  type : Z;
  comments : option bytes }.

(** [calloc(1, sizeof(struct ulp_metadata))] and [memset] to zero. *)
Definition zero_metadata : ulp_metadata :=
  {| patch_id := replicate 32 0; so_filename := None; so_handler := 0; objs := None;
     ndeps := 0; deps := []; nrefs := 0; refs := []; type := 0; comments := None |}.

Definition zero_object : ulp_object :=
  {| build_id_len := 0; build_id_check := 0; build_id := None; obj_name := None;
     nunits := 0; units := [] |}.

Section setters.
Variable u : ulp_metadata.
Definition set_type t : ulp_metadata :=
  {| patch_id := patch_id u; so_filename := so_filename u; so_handler := so_handler u;
     objs := objs u; ndeps := ndeps u; deps := deps u; nrefs := nrefs u; refs := refs u;
     type := t; comments := comments u |}.
Definition set_patch_id i : ulp_metadata :=
  {| patch_id := i; so_filename := so_filename u; so_handler := so_handler u;
     objs := objs u; ndeps := ndeps u; deps := deps u; nrefs := nrefs u; refs := refs u;
     type := type u; comments := comments u |}.
Definition set_so_filename f : ulp_metadata :=
  {| patch_id := patch_id u; so_filename := f; so_handler := so_handler u;
     objs := objs u; ndeps := ndeps u; deps := deps u; nrefs := nrefs u; refs := refs u;
     type := type u; comments := comments u |}.
Definition set_so_handler h : ulp_metadata :=
  {| patch_id := patch_id u; so_filename := so_filename u; so_handler := h;
     objs := objs u; ndeps := ndeps u; deps := deps u; nrefs := nrefs u; refs := refs u;
     type := type u; comments := comments u |}.
Definition set_objs o : ulp_metadata :=
  {| patch_id := patch_id u; so_filename := so_filename u; so_handler := so_handler u;
     objs := o; ndeps := ndeps u; deps := deps u; nrefs := nrefs u; refs := refs u;
     type := type u; comments := comments u |}.
Definition set_deps d : ulp_metadata :=
  {| patch_id := patch_id u; so_filename := so_filename u; so_handler := so_handler u;
     objs := objs u; ndeps := ndeps u; deps := d; nrefs := nrefs u; refs := refs u;
     type := type u; comments := comments u |}.
Definition set_nrefs n : ulp_metadata :=
  {| patch_id := patch_id u; so_filename := so_filename u; so_handler := so_handler u;
     objs := objs u; ndeps := ndeps u; deps := deps u; nrefs := n; refs := refs u;
     type := type u; comments := comments u |}.
Definition set_refs r : ulp_metadata :=
  {| patch_id := patch_id u; so_filename := so_filename u; so_handler := so_handler u;
     objs := objs u; ndeps := ndeps u; deps := deps u; nrefs := nrefs u; refs := r;
     type := type u; comments := comments u |}.
End setters.

Section object_setters.
Variable o : ulp_object.
Definition set_build_id_len n : ulp_object :=
  {| build_id_len := n; build_id_check := build_id_check o; build_id := build_id o;
     obj_name := obj_name o; nunits := nunits o; units := units o |}.
Definition set_build_id_check n : ulp_object :=
  {| build_id_len := build_id_len o; build_id_check := n; build_id := build_id o;
     obj_name := obj_name o; nunits := nunits o; units := units o |}.
Definition set_build_id b : ulp_object :=
  {| build_id_len := build_id_len o; build_id_check := build_id_check o; build_id := b;
     obj_name := obj_name o; nunits := nunits o; units := units o |}.
Definition set_obj_name b : ulp_object :=
  {| build_id_len := build_id_len o; build_id_check := build_id_check o;
     build_id := build_id o; obj_name := b; nunits := nunits o; units := units o |}.
Definition set_nunits n : ulp_object :=
  {| build_id_len := build_id_len o; build_id_check := build_id_check o;
     build_id := build_id o; obj_name := obj_name o; nunits := n; units := units o |}.
Definition set_units l : ulp_object :=
  {| build_id_len := build_id_len o; build_id_check := build_id_check o;
     build_id := build_id o; obj_name := obj_name o; nunits := nunits o; units := l |}.
End object_setters.

(** ** The parser (common/common.c)

    [ps_cur] is the static [cur]; [ps_c] the local [c] that every length is read
    into; [ps_nalloc] counts the calls of [calloc]; [ps_log] the warnings. *)

Record pstate := {
  ps_cur : Z;
  ps_c : Z;
  ps_ulp : ulp_metadata;
  ps_nalloc : nat;
  ps_log : list string }.

Definition set_cur x (s : pstate) : pstate :=
  {| ps_cur := x; ps_c := ps_c s; ps_ulp := ps_ulp s; ps_nalloc := ps_nalloc s; ps_log := ps_log s |}.
Definition set_c x (s : pstate) : pstate :=
  {| ps_cur := ps_cur s; ps_c := x; ps_ulp := ps_ulp s; ps_nalloc := ps_nalloc s; ps_log := ps_log s |}.
Definition set_ulp x (s : pstate) : pstate :=
  {| ps_cur := ps_cur s; ps_c := ps_c s; ps_ulp := x; ps_nalloc := ps_nalloc s; ps_log := ps_log s |}.
Definition bump_alloc (s : pstate) : pstate :=
  {| ps_cur := ps_cur s; ps_c := ps_c s; ps_ulp := ps_ulp s; ps_nalloc := S (ps_nalloc s);
     ps_log := ps_log s |}.
Definition add_log x (s : pstate) : pstate :=
  {| ps_cur := ps_cur s; ps_c := ps_c s; ps_ulp := ps_ulp s; ps_nalloc := ps_nalloc s;
     ps_log := x :: ps_log s |}.

Definition upd_ulp (f : ulp_metadata -> ulp_metadata) (s : pstate) : pstate :=
  set_ulp (f (ps_ulp s)) s.

(** Update the object [ulp->objs] points to. *)
Definition upd_obj (f : ulp_object -> ulp_object) (s : pstate) : pstate :=
  upd_ulp (fun u => set_objs u (option_map f (objs u))) s.

Section parser.
(** The allocator: whether the [n]-th call, of a given size, succeeds. *)
Variable calloc_ok : nat -> Z -> bool.
(** The memory at [src] and the length given for it. *)
Variable src : bytes.
Variable meta_len : Z.

Abbreviation parse A := (st pstate Z A).

Definition p_warn (fmt : string) : parse unit := modify (add_log fmt).

(** [WARN(fmt); return e;] *)
Definition fail_with {A} (fmt : string) (e : Z) : parse A := p_warn fmt;;; throw e.

(** [calloc(n, size)], its success. *)
Definition calloc (n : Z) : parse bool :=
  fun s => (Ok (calloc_ok (ps_nalloc s) n), bump_alloc s).

(** Copy [min (n, remaining)] bytes to an object of [cap] bytes; the bytes
    copied are the result. *)
Definition read_from_mem (cap n : Z) : parse bytes :=
  fun s =>
    let final_cnt := if meta_len - ps_cur s <? n then meta_len - ps_cur s else n in
    let bs := slice (Z.to_nat (ps_cur s)) (Z.to_nat final_cnt) src in
    if (final_cnt <? 0) || (cap <? final_cnt) || (zlen bs <? final_cnt) then (Ub, s)
    else (Ok bs, set_cur (ps_cur s + final_cnt) s).

(** [if (read_from_mem (&x, n, 1, src) < least) ...]: the [n]-byte object [x]
    takes the bytes read and keeps its others; [store] writes it back. *)
Definition read_word (n least x : Z) (store : Z -> pstate -> pstate) (fmt : string) (e : Z)
    : parse Z :=
  let! bs := read_from_mem n n in
  let x' := le_val (bs ++ drop (length bs) (le_bytes (Z.to_nat n) x)) in
  modify (store x');;;
  if zlen bs <? least then fail_with fmt e else ret x'.

(** An object that is local to the function. *)
Definition local {A} (_ : A) (s : pstate) : pstate := s.

(** The same for the local [c]. *)
Definition read_c (least : Z) (fmt : string) : parse Z :=
  let! x := gets ps_c in
  read_word 4 least x set_c fmt EINVALIDULP.

(** [p = calloc (cap, 1); if (!p) ...; if (read_from_mem (p, 1, c, src) < c) ...]:
    the buffer; [store] writes the pointer, [None] being [NULL]. *)
Definition read_buf (cap : Z) (store : option bytes -> pstate -> pstate)
    (fmt_alloc : string) (e_alloc : Z) (fmt : string) : parse bytes :=
  let! c := gets ps_c in
  let! ok := calloc cap in
  if negb ok then modify (store None);;; fail_with fmt_alloc e_alloc
  else
    let! bs := read_from_mem cap c in
    let buf := bs ++ replicate (Z.to_nat (cap - zlen bs)) 0 in
    modify (store (Some buf));;;
    if zlen bs <? c then fail_with fmt EINVALIDULP else ret buf.

(** A name of length [c] with room for a NUL: [calloc (c + 1, 1)], where the
    sum is a [uint32_t]. *)
Definition read_name (store : option bytes -> pstate -> pstate) (fmt_alloc fmt : string)
    : parse bytes :=
  let! c := gets ps_c in
  read_buf (u32 (c + 1)) store fmt_alloc EINVALIDULP fmt.

(** A name of length [c] in a buffer of [c] bytes. *)
Definition read_exact (store : option bytes -> pstate -> pstate)
    (fmt_alloc : string) (e_alloc : Z) (fmt : string) : parse bytes :=
  let! c := gets ps_c in
  read_buf c store fmt_alloc e_alloc fmt.

Definition parse_header : parse unit :=
  modify (upd_ulp (fun u => set_objs u None));;;
  let! t := gets (fun s => type (ps_ulp s)) in
  read_word 1 1 t (fun t => upd_ulp (fun u => set_type u t))
    "Unable to read patch type." EINVALIDULP;;;
  let! bs := read_from_mem 32 32 in
  modify (upd_ulp (fun u => set_patch_id u (splice 0 bs (patch_id u))));;;
  (if zlen bs <? 32 then fail_with "Unable to read patch id." EINVALIDULP else ret tt);;;
  read_c 1 "Unable to read so filename length.";;;
  let! name := read_name (fun p => upd_ulp (fun u => set_so_filename u p))
                 "Unable to allocate so filename buffer." "Unable to read so filename." in
  if hd 0 name =? 0 then fail_with "livepatch container path is empty." EINVALIDULP
  else ret tt.

Definition parse_object : parse unit :=
  let! ok := calloc 1 in
  (if negb ok then fail_with "Unable to allocate memory for the patch objects." ENOMEM
   else ret tt);;;
  modify (upd_ulp (fun u => set_objs u (Some zero_object)));;;
  let! c := read_c 1 "Unable to read build id length (trigger)." in
  modify (upd_obj (fun o => set_build_id_len o c));;;
  read_exact (fun p => upd_obj (fun o => set_build_id o p))
    "Unable to allocate build id buffer." EINVALIDULP "Unable to read build id.";;;
  modify (upd_obj (fun o => set_build_id_check o 0));;;
  read_c 1 "Unable to read object name length.";;;
  read_name (fun p => upd_obj (fun o => set_obj_name o p))
    "Unable to allocate object name buffer." "Unable to read object name.";;;
  ret tt.

Definition parse_unit : parse unit :=
  let! ok := calloc 1 in
  (if negb ok then fail_with "Unable to allocate memory for the patch units." ENOMEM
   else ret tt);;;
  read_c 1 "Unable to read unit old function name length.";;;
  let! old := read_name local "Unable to allocate unit old function name buffer."
                "Unable to read unit old function name." in
  read_c 1 "Unable to read unit new function name length.";;;
  let! new := read_name local "Unable to allocate unit new function name buffer."
                "Unable to read unit new function name." in
  let! addr := read_word 8 1 0 local "Unable to read old function address." EINVALIDULP in
  modify (upd_obj (fun o => set_units o
    (units o ++ [{| old_fname := old; new_fname := new; old_faddr := addr |}]))).

(** [prev] tells whether [prev_dep] points to an element of the chain; a chain
    that is not empty while it is [NULL] is dereferenced all the same. *)
Fixpoint parse_deps (n : nat) (prev : bool) : parse unit :=
  match n with
  | O => ret tt
  | S n =>
    let! ok := calloc 1 in
    (if negb ok then fail_with "Unable to allocate memory for dependency state." ENOMEM
     else ret tt);;;
    let! id := read_from_mem 32 32 in
    (if zlen id <? 32 then fail_with "Unable to read dependency patch id." EINVALIDULP
     else ret tt);;;
    let! chain := gets (fun s => deps (ps_ulp s)) in
    (if negb prev && negb (zlen chain =? 0) then undef else ret tt);;;
    modify (upd_ulp (fun u => set_deps u
      (deps u ++ [{| dep_id := id; patch_id_check := 0 |}])));;;
    parse_deps n true
  end.

Definition parse_ref : parse ulp_reference :=
  let! ok := calloc 1 in
  (if negb ok then fail_with "Unable to allocate memory for static data reference." ENOMEM
   else ret tt);;;
  read_c 4 "Unable to read local variable name.";;;
  let! tname := read_exact local "Unable to allocate memory for static data reference name."
                  ENOMEM "Unable to read target variable name." in
  read_c 4 "Unable to read reference name size";;;
  let! rname := read_exact local "Unable to allocate memory for static data reference name."
                  ENOMEM "Unable to read reference name." in
  let! toff := read_word 8 8 0 local "Unable to read target offset within target library"
                 EINVALIDULP in
  let! poff := read_word 8 8 0 local "Unable to read patch offset." EINVALIDULP in
  let! t := read_word 1 1 0 local "Unable to read TLS field." EINVALIDULP in
  ret {| target_name := tname; reference_name := rname; target_offset := toff;
         patch_offset := poff; tls := negb (t =? 0) |}.

Fixpoint parse_refs (n : nat) (prev : bool) : parse unit :=
  match n with
  | O => ret tt
  | S n =>
    let! ref := parse_ref in
    let! chain := gets (fun s => refs (ps_ulp s)) in
    (if negb prev && negb (zlen chain =? 0) then undef else ret tt);;;
    modify (upd_ulp (fun u => set_refs u (refs u ++ [ref])));;;
    parse_refs n true
  end.

Definition parse_references : parse unit :=
  let! n := gets (fun s => nrefs (ps_ulp s)) in
  let! n := read_word 4 4 n (fun n => upd_ulp (fun u => set_nrefs u n))
              "Unable to read the number of static data references in livepatch" EINVALIDULP in
  parse_refs (Z.to_nat n) false;;;
  p_warn "Patch path: %s".

Definition parse_body : parse unit :=
  let! n := gets (fun s => from_option nunits 0 (objs (ps_ulp s))) in
  let! n := read_word 4 1 n (fun n => upd_obj (fun o => set_nunits o n))
              "Unable to read number of patching units." 1 in
  repeat_m (Z.to_nat n) parse_unit;;;
  let! c := read_c 1 "Unable to read number of dependencies." in
  parse_deps (Z.to_nat c) false;;;
  parse_references.

(** The function: the code returned. *)
Definition parse_metadata_m : parse Z :=
  code (
    parse_header;;;
    parse_object;;;
    let! t := gets (fun s => type (ps_ulp s)) in
    (if t =? 2 then ret tt else parse_body);;;
    ret 0).
End parser.

(** [parse_metadata_from_mem (ulp, src, size)]; [c0] is the indeterminate value
    of the local [c] on entry. *)
Definition parse_metadata_from_mem (calloc_ok : nat -> Z -> bool) (c0 : Z)
    (ulp : ulp_metadata) (src : bytes) (size : Z) : res Z Z * pstate :=
  parse_metadata_m calloc_ok src size
    {| ps_cur := 0; ps_c := c0; ps_ulp := ulp; ps_nalloc := 0; ps_log := [] |}.

(** ** The writers (tools/packer.c)

    The file is the list of bytes written; a [FILE] that cannot be opened is
    [None]. A name that is [NULL] stops the writer after the build id. *)

Definition write_u32 (n : Z) : bytes := le_bytes 4 (u32 n).
Definition write_u64 (n : Z) : bytes := le_bytes 8 (u64 n).

(** [c = strlen (s) + 1; fwrite (&c, ...); fwrite (s, 1, c, file)]. *)
Definition write_string (s : bytes) : bytes :=
  write_u32 (zlen (cstr s) + 1) ++ cstr s ++ [0].

Definition write_unit (u : ulp_unit) : bytes :=
  write_string (old_fname u) ++ write_string (new_fname u) ++ write_u64 (old_faddr u).

Definition write_ref (r : ulp_reference) : bytes :=
  write_string (target_name r) ++ write_string (reference_name r) ++
  write_u64 (target_offset r) ++ write_u64 (patch_offset r) ++
  [if tls r then 1 else 0].

(** The build id of the object, [build_id_len] bytes of it. *)
Definition write_build_id (o : ulp_object) : bytes :=
  write_u32 (build_id_len o) ++ take (Z.to_nat (build_id_len o)) (default [] (build_id o)).

Definition create_patch_metadata_file (can_open : bool) (ulp : ulp_metadata)
    : res unit (Z * bytes) :=
  if negb can_open then Ok (0, []) else
  match objs ulp with
  | None => Ub
  | Some obj =>
    let head := [1] ++ take 32 (patch_id ulp) ++ write_build_id obj in
    match obj_name obj with
    | None => Ok (0, head)
    | Some name =>
      Ok (1, head ++ write_string name ++
             write_u32 (nunits obj) ++ concat (map write_unit (units obj)) ++
             write_u32 (ndeps ulp) ++ concat (map dep_id (deps ulp)) ++
             write_u32 (nrefs ulp) ++ concat (map write_ref (refs ulp)))
    end
  end.

(** The revert patch: the name goes without its NUL. [embed] is the result of
    [embed_patch_metadata_into_elf] on the file's bytes. *)
Definition write_reverse_patch (can_open : bool) (embed : bytes -> Z) (ulp : ulp_metadata)
    : res unit (Z * bytes) :=
  if negb can_open then Ok (0, []) else
  match objs ulp with
  | None => Ub
  | Some obj =>
    let head := [2] ++ take 32 (patch_id ulp) ++ write_build_id obj in
    match obj_name obj with
    | None => Ok (0, head)
    | Some name =>
      let file := head ++ write_u32 (zlen (cstr name)) ++ cstr name in
      if negb (embed file =? 0) then Ok (0, file) else Ok (1, file)
    end
  end.

(** ** Inserting the container's path *)

(** lib/gdb_interface.c, on [__ulp_metadata_buffer]. *)
Definition inject_lp_path (path : bytes) (metadata_size : Z) (buffer : bytes)
    : res unit (Z * bytes) :=
  let metadata_left := 1 + 32 in
  let metadata_right := metadata_size - metadata_left in
  let path_size := u32 (zlen (cstr path) + 1) in
  let path_object_size := u32 (4 + path_size) in
  if ULP_METADATA_BUF_LEN <? metadata_size + path_object_size then Ok (ENOMEM, buffer)
  else if metadata_right <? 0 then Ub
  else
    let head := Z.to_nat metadata_left in
    let tail := slice head (Z.to_nat metadata_right) buffer in
    let buffer := splice (head + Z.to_nat path_object_size) tail buffer in
    let buffer := splice head (le_bytes 4 path_size) buffer in
    let buffer := splice (head + 4) (cstr path ++ [0]) buffer in
    Ok (0, buffer).

(** What [extract_ulp_from_so_to_mem] leaves in [*out]. *)
Inductive out_ptr := Untouched | Null | Buffer (b : bytes).

(** tools/introspection.c. [section] is the [.ulp] (or [.ulp.rev]) section, the
    outer [None] an ELF file that does not load, the inner one a missing
    section; [realpath] is the C library's answer for the path. *)
Definition extract_ulp_from_so_to_mem (section : option (option bytes))
    (realpath : option bytes) (livepatch : bytes) (prefix : option bytes)
    : res unit (Z * out_ptr) :=
  match section with
  | None | Some None => Ok (0, Null)
  | Some (Some data) =>
    (* assert (d_size > 0) *)
    if zlen data =? 0 then Err tt else
    let too_long := match prefix with Some p => PATH_MAX <=? zlen (cstr p) | None => false end in
    if too_long then Ok (0, Untouched) else
    let path :=
      match prefix with Some p => cstr p | None => [] end ++
      match realpath with Some p => cstr p | None => cstr livepatch end in
    let path_size := zlen path + 1 in
    (* strcpy into a buffer of 2 * PATH_MAX bytes *)
    if bool_decide (realpath = None) && (2 * PATH_MAX <? path_size) then Ub else
    if PATH_MAX <=? path_size then Ok (0, Untouched) else
    let meta_size := u32 (zlen data + path_size + 4) in
    if ULP_METADATA_BUF_LEN <=? meta_size then Ok (0, Untouched) else
    if zlen data <? 33 then Ub else
    Ok (meta_size, Buffer (take 33 data ++ le_bytes 4 path_size ++ path ++ [0] ++ drop 33 data))
  end.

(** ** What the parser reads back *)

(** The view of a parser state: the bytes still to be read, [c] and [*ulp]. *)
Record view := View { v_rest : bytes; v_c : Z; v_ulp : ulp_metadata }.

(** The effect of a [store] on the view. *)
Ltac view :=
  let s := fresh "s" in
  intros s (? & ? & ? & ?); repeat split; simpl in *; try congruence; try lia.

Section parser_triples.
Variable calloc_ok : nat -> Z -> bool.
Hypothesis calloc_works : forall n size, calloc_ok n size = true.
Variable src : bytes.

Definition viewed (v : view) (s : pstate) : Prop :=
  0 <= ps_cur s <= zlen src /\
  drop (Z.to_nat (ps_cur s)) src = v_rest v /\ ps_c s = v_c v /\ ps_ulp s = v_ulp v.

(** From any state seen as [v], [m] returns [a] in a state seen as [v']. *)
Definition triple {A} (v : view) (m : st pstate Z A) (a : A) (v' : view) : Prop :=
  forall s, viewed v s -> exists s', m s = (Ok a, s') /\ viewed v' s'.

Lemma triple_bind {A B} v v' v'' (m : st pstate Z A) (k : A -> st pstate Z B) a b :
  triple v m a v' -> triple v' (k a) b v'' -> triple v (bind m k) b v''.
Proof.
  intros Hm Hk s Hs. destruct (Hm s Hs) as (s' & Hms & Hs').
  destruct (Hk s' Hs') as (s'' & Hks & Hs''). exists s''. by rewrite (bind_ok _ _ _ _ _ Hms).
Qed.

Lemma triple_ret {A} v (a : A) : triple v (ret a) a v.
Proof. intros s Hs. by exists s. Qed.

Lemma triple_ulp v f :
  triple v (modify (upd_ulp f)) tt (View (v_rest v) (v_c v) (f (v_ulp v))).
Proof.
  intros s (Hc & Hr & Hcv & Hu). eexists. split; [reflexivity|].
  unfold viewed, upd_ulp. simpl. by rewrite Hu.
Qed.

Lemma triple_obj v f :
  triple v (modify (upd_obj f)) tt
    (View (v_rest v) (v_c v) (set_objs (v_ulp v) (option_map f (objs (v_ulp v))))).
Proof. apply triple_ulp. Qed.

Lemma triple_gets {A} v (f : pstate -> A) a :
  (forall s, viewed v s -> f s = a) -> triple v (gets f) a v.
Proof. intros Hf s Hs. exists s. unfold gets. by rewrite (Hf s Hs). Qed.

Lemma triple_c v : triple v (gets ps_c) (v_c v) v.
Proof. apply triple_gets. by intros s (_ & _ & Hc & _). Qed.

Lemma triple_calloc v size : triple v (calloc calloc_ok size) true v.
Proof.
  intros s Hs. eexists. unfold calloc. rewrite calloc_works.
  split; [reflexivity|]. exact Hs.
Qed.

Lemma triple_warn v fmt : triple v (p_warn fmt) tt v.
Proof. intros s Hs. eexists. split; [reflexivity|]. exact Hs. Qed.

Lemma triple_read bs r c u cap :
  zlen bs <= cap ->
  triple (View (bs ++ r) c u) (read_from_mem src (zlen src) cap (zlen bs)) bs (View r c u).
Proof.
  intros Hcap s (Hcur & Hrest & Hc & Hu). simpl in *.
  assert (Hlen : zlen bs + zlen r = zlen src - ps_cur s).
  { rewrite <- zlen_app, <- Hrest. unfold zlen in *. rewrite length_drop. lia. }
  pose proof (zlen_nonneg r). pose proof (zlen_nonneg bs).
  assert (Hbs : slice (Z.to_nat (ps_cur s)) (Z.to_nat (zlen bs)) src = bs).
  { unfold slice. rewrite Hrest. unfold zlen. by rewrite Nat2Z.id, take_app_length. }
  unfold read_from_mem.
  rewrite (proj2 (Z.ltb_ge (zlen src - ps_cur s) (zlen bs))) by lia.
  cbv zeta. rewrite Hbs.
  rewrite (proj2 (Z.ltb_ge (zlen bs) 0)), (proj2 (Z.ltb_ge cap _)), Z.ltb_irrefl by lia.
  eexists. split; [reflexivity|]. unfold viewed. simpl. split; [lia|]. split; [|done].
  replace (Z.to_nat (ps_cur s + zlen bs)) with (Z.to_nat (ps_cur s) + length bs)%nat
    by (unfold zlen; lia).
  by rewrite <- drop_drop, Hrest, drop_app_length.
Qed.

Lemma triple_word n least x v0 r c u store fmt e v' :
  0 <= x < 256 ^ Z.of_nat n -> least <= Z.of_nat n ->
  (forall s, viewed (View r c u) s -> viewed v' (store x s)) ->
  triple (View (le_bytes n x ++ r) c u)
    (read_word src (zlen src) (Z.of_nat n) least v0 store fmt e) x v'.
Proof.
  intros Hx Hl Hstore. unfold read_word.
  assert (Hz : zlen (le_bytes n x) = Z.of_nat n) by (unfold zlen; by rewrite length_le_bytes).
  eapply triple_bind.
  { rewrite <- Hz. apply triple_read. lia. }
  cbv zeta. rewrite length_le_bytes, drop_ge, app_nil_r, le_val_bytes
    by (rewrite ?length_le_bytes; lia || done).
  rewrite (proj2 (Z.ltb_ge (zlen (le_bytes n x)) least)) by lia.
  intros s Hs. eexists. split; [reflexivity|]. auto.
Qed.

Lemma triple_read_c least fmt x r c u :
  0 <= x < 2 ^ 32 -> least <= 4 ->
  triple (View (write_u32 x ++ r) c u) (read_c src (zlen src) least fmt) x (View r x u).
Proof.
  intros Hx Hl. unfold read_c, write_u32. rewrite wrap_id by done.
  eapply triple_bind; [apply triple_c|].
  apply (triple_word 4); [done..|]. view.
Qed.

(** A buffer of [cap] bytes that receives [bs]. *)
Lemma triple_read_buf cap store fmt_alloc e_alloc fmt bs r u v' :
  zlen bs <= cap ->
  (forall s, viewed (View r (zlen bs) u) s ->
     viewed v' (store (Some (bs ++ replicate (Z.to_nat (cap - zlen bs)) 0)) s)) ->
  triple (View (bs ++ r) (zlen bs) u)
    (read_buf calloc_ok src (zlen src) cap store fmt_alloc e_alloc fmt)
    (bs ++ replicate (Z.to_nat (cap - zlen bs)) 0) v'.
Proof.
  intros Hcap Hstore. unfold read_buf.
  eapply triple_bind; [apply triple_c|]. eapply triple_bind; [apply triple_calloc|]. simpl.
  eapply triple_bind; [by apply triple_read|].
  intros s Hs. eexists. split; [|by apply Hstore].
  unfold bind, modify. by rewrite Z.ltb_irrefl.
Qed.

(** A name written with its NUL is read with two. *)
Lemma triple_read_name store fmt_alloc fmt bs r u v' :
  zlen bs < 2 ^ 32 - 1 ->
  (forall s, viewed (View r (zlen bs) u) s -> viewed v' (store (Some (bs ++ [0])) s)) ->
  triple (View (bs ++ r) (zlen bs) u)
    (read_name calloc_ok src (zlen src) store fmt_alloc fmt) (bs ++ [0]) v'.
Proof.
  intros Hlen Hstore. unfold read_name.
  eapply triple_bind; [apply triple_c|]. cbn [v_c].
  pose proof (zlen_nonneg bs).
  rewrite wrap_id by (unfold in_u; lia).
  pose proof (triple_read_buf (zlen bs + 1) store fmt_alloc EINVALIDULP fmt bs r u v') as Hb.
  replace (Z.to_nat (zlen bs + 1 - zlen bs)) with 1%nat in Hb by lia.
  apply Hb; [lia|done].
Qed.

Lemma triple_read_exact store fmt_alloc e_alloc fmt bs r u v' :
  (forall s, viewed (View r (zlen bs) u) s -> viewed v' (store (Some bs) s)) ->
  triple (View (bs ++ r) (zlen bs) u)
    (read_exact calloc_ok src (zlen src) store fmt_alloc e_alloc fmt) bs v'.
Proof.
  intros Hstore. unfold read_exact.
  eapply triple_bind; [apply triple_c|]. cbn [v_c].
  pose proof (triple_read_buf (zlen bs) store fmt_alloc e_alloc fmt bs r u v') as Hb.
  rewrite Z.sub_diag, app_nil_r in Hb. by apply Hb.
Qed.
End parser_triples.

(** ** Well-formed metadata, as the packer builds it *)

Definition small (s : bytes) : Prop := zlen (cstr s) < 2 ^ 32 - 2.

Definition wf_unit (u : ulp_unit) : Prop :=
  small (old_fname u) /\ small (new_fname u) /\ in_u 64 (old_faddr u).

Definition wf_ref (r : ulp_reference) : Prop :=
  small (target_name r) /\ small (reference_name r) /\
  in_u 64 (target_offset r) /\ in_u 64 (patch_offset r).

Definition wf_dep (d : ulp_dependency) : Prop := length (dep_id d) = 32%nat.

Record wf_metadata (u : ulp_metadata) (o : ulp_object) (id name : bytes) : Prop := {
  wf_patch_id : length (patch_id u) = 32%nat;
  wf_objs : objs u = Some o;
  wf_build_id : build_id o = Some id;
  wf_build_id_len : build_id_len o = zlen id /\ zlen id < 2 ^ 32;
  wf_name : obj_name o = Some name /\ small name;
  wf_units : Forall wf_unit (units o) /\ nunits o = zlen (units o) /\ zlen (units o) < 2 ^ 32;
  wf_deps : Forall wf_dep (deps u) /\ ndeps u = zlen (deps u) /\ zlen (deps u) < 2 ^ 32;
  wf_refs : Forall wf_ref (refs u) /\ nrefs u = zlen (refs u) /\ zlen (refs u) < 2 ^ 32 }.

(** What each element becomes after a round trip: the names sit in buffers that
    hold their NUL, and function and object names one more. *)
Definition read_back_unit (u : ulp_unit) : ulp_unit :=
  {| old_fname := cstr (old_fname u) ++ [0; 0]; new_fname := cstr (new_fname u) ++ [0; 0];
     old_faddr := old_faddr u |}.

Definition read_back_ref (r : ulp_reference) : ulp_reference :=
  {| target_name := cstr (target_name r) ++ [0]; reference_name := cstr (reference_name r) ++ [0];
     target_offset := target_offset r; patch_offset := patch_offset r; tls := tls r |}.

Definition read_back_dep (d : ulp_dependency) : ulp_dependency :=
  {| dep_id := dep_id d; patch_id_check := 0 |}.

Section parser_functions.
Variable calloc_ok : nat -> Z -> bool.
Hypothesis calloc_works : forall n size, calloc_ok n size = true.
Variable src : bytes.

Abbreviation tri := (triple src).

Lemma zlen_name s : zlen (cstr s ++ [0]) = zlen (cstr s) + 1.
Proof. apply zlen_app. Qed.

Lemma small_bounds s : small s -> 0 <= zlen (cstr s) + 1 < 2 ^ 32 /\ zlen (cstr s ++ [0]) < 2 ^ 32 - 1.
Proof. unfold small. rewrite zlen_name. pose proof (zlen_nonneg (cstr s)). lia. Qed.

(** Reading a length and a name written by [write_string]. *)
Lemma triple_string {B} s r c u least store fmt1 fmt2 fmt3 v' v'' (k : bytes -> st pstate Z B) b :
  small s -> least <= 4 ->
  (forall p, viewed src (View r (zlen (cstr s) + 1) u) p ->
     viewed src v' (store (Some (cstr s ++ [0; 0])) p)) ->
  tri v' (k (cstr s ++ [0; 0])) b v'' ->
  tri (View (write_string s ++ r) c u)
    (read_c src (zlen src) least fmt1;;;
     bind (read_name calloc_ok src (zlen src) store fmt2 fmt3) k) b v''.
Proof.
  intros Hs Hl Hst Hk. destruct (small_bounds s Hs).
  unfold write_string. rewrite <- !app_assoc.
  eapply triple_bind; [apply triple_read_c; done|].
  change ([0] ++ r) with ([0] ++ r). rewrite (app_assoc (cstr s)), <- zlen_name.
  eapply triple_bind; [apply triple_read_name; [done|done|]|].
  - rewrite zlen_name, <- app_assoc. exact Hst.
  - rewrite <- app_assoc. exact Hk.
Qed.

Lemma triple_exact {B} s r c u least store fmt1 fmt2 e fmt3 v' v'' (k : bytes -> st pstate Z B) b :
  small s -> least <= 4 ->
  (forall p, viewed src (View r (zlen (cstr s) + 1) u) p ->
     viewed src v' (store (Some (cstr s ++ [0])) p)) ->
  tri v' (k (cstr s ++ [0])) b v'' ->
  tri (View (write_string s ++ r) c u)
    (read_c src (zlen src) least fmt1;;;
     bind (read_exact calloc_ok src (zlen src) store fmt2 e fmt3) k) b v''.
Proof.
  intros Hs Hl Hst Hk. destruct (small_bounds s Hs).
  unfold write_string. rewrite <- !app_assoc.
  eapply triple_bind; [apply triple_read_c; done|].
  rewrite (app_assoc (cstr s)), <- zlen_name.
  eapply triple_bind; [apply triple_read_exact; [done|]|exact Hk].
  rewrite zlen_name. exact Hst.
Qed.

Lemma triple_unit un r c u :
  wf_unit un ->
  tri (View (write_unit un ++ r) c u) (parse_unit calloc_ok src (zlen src)) tt
    (View r (zlen (cstr (new_fname un)) + 1)
       (set_objs u (option_map (fun o => set_units o (units o ++ [read_back_unit un])) (objs u)))).
Proof.
  intros (Ho & Hn & Ha). unfold parse_unit, write_unit. rewrite <- !app_assoc.
  eapply triple_bind; [by apply triple_calloc|]. simpl negb. cbv iota.
  eapply triple_bind; [apply triple_ret|].
  eapply triple_string; [done..|by intros|]. cbn beta.
  eapply triple_string; [done..|by intros|]. cbn beta.
  eapply triple_bind.
  { unfold write_u64. rewrite wrap_id by done.
    apply (triple_word src 8); [exact Ha|lia|]. intros s Hs. exact Hs. }
  apply triple_obj.
Qed.

Lemma triple_units us r c u o :
  objs u = Some o -> Forall wf_unit us ->
  exists c', tri (View (concat (map write_unit us) ++ r) c u)
    (repeat_m (length us) (parse_unit calloc_ok src (zlen src))) tt
    (View r c' (set_objs u (Some (set_units o (units o ++ map read_back_unit us))))).
Proof.
  intros Ho Hus. revert c u o Ho. induction Hus as [|un us Hun _ IH]; intros c u o Ho; simpl.
  - exists c. rewrite app_nil_r. intros s Hs. exists s. split; [done|].
    destruct u, o; simpl in *; subst. exact Hs.
  - set (u1 := set_objs u (Some (set_units o (units o ++ [read_back_unit un])))).
    destruct (IH (zlen (cstr (new_fname un)) + 1) u1 (set_units o (units o ++ [read_back_unit un]))
                eq_refl) as (c' & Hc').
    exists c'. rewrite <- app_assoc. eapply triple_bind.
    + apply triple_unit. done.
    + rewrite Ho. simpl. unfold u1 in Hc'. simpl in Hc'. rewrite <- app_assoc in Hc'. exact Hc'.
Qed.

Lemma triple_ref rf r c u :
  wf_ref rf ->
  exists c', tri (View (write_ref rf ++ r) c u) (parse_ref calloc_ok src (zlen src))
    (read_back_ref rf) (View r c' u).
Proof.
  intros (Ht & Hn & Hto & Hpo). unfold parse_ref, write_ref. rewrite <- !app_assoc.
  eexists. eapply triple_bind; [by apply triple_calloc|]. simpl negb. cbv iota.
  eapply triple_bind; [apply triple_ret|].
  eapply triple_exact; [done..|by intros|]. cbn beta.
  eapply triple_exact; [done..|by intros|]. cbn beta.
  unfold write_u64. rewrite !wrap_id by done.
  eapply triple_bind; [apply (triple_word src 8); [exact Hto|lia|by intros]|].
  eapply triple_bind; [apply (triple_word src 8); [exact Hpo|lia|by intros]|].
  eapply triple_bind.
  { change [if tls rf then 1 else 0] with ([(if tls rf then 1 else 0)]).
    replace [if tls rf then 1 else 0] with (le_bytes 1 (if tls rf then 1 else 0))
      by (by destruct (tls rf)).
    apply (triple_word src 1); [destruct (tls rf); simpl; lia|lia|by intros]. }
  replace (negb ((if tls rf then 1 else 0) =? 0)) with (tls rf) by (by destruct (tls rf)).
  apply triple_ret.
Qed.

Lemma triple_refs rs r c u prev :
  (prev = false -> refs u = []) -> Forall wf_ref rs ->
  exists c', tri (View (concat (map write_ref rs) ++ r) c u)
    (parse_refs calloc_ok src (zlen src) (length rs) prev) tt
    (View r c' (set_refs u (refs u ++ map read_back_ref rs))).
Proof.
  intros Hp Hrs. revert c u prev Hp. induction Hrs as [|rf rs Hrf _ IH]; intros c u prev Hp; simpl.
  - exists c. rewrite app_nil_r. destruct u; simpl. apply triple_ret.
  - destruct (triple_ref rf (concat (map write_ref rs) ++ r) c u Hrf) as (c1 & H1).
    destruct (IH c1 (set_refs u (refs u ++ [read_back_ref rf])) true ltac:(done)) as (c2 & H2).
    exists c2. rewrite <- app_assoc.
    eapply triple_bind; [exact H1|].
    eapply triple_bind.
    { apply triple_gets with (a := refs u). intros s (_ & _ & _ & ->). done. }
    eapply triple_bind.
    { destruct prev; simpl; [apply triple_ret|]. rewrite (Hp eq_refl). apply triple_ret. }
    eapply triple_bind; [apply triple_ulp|]. simpl in *. by rewrite <- app_assoc in H2.
Qed.

Lemma triple_deps ds r c u prev :
  (prev = false -> deps u = []) -> Forall wf_dep ds ->
  tri (View (concat (map dep_id ds) ++ r) c u)
    (parse_deps calloc_ok src (zlen src) (length ds) prev) tt
    (View r c (set_deps u (deps u ++ map read_back_dep ds))).
Proof.
  intros Hp Hds. revert u prev Hp. induction Hds as [|d ds Hd _ IH]; intros u prev Hp; simpl.
  - rewrite app_nil_r. destruct u; simpl. apply triple_ret.
  - specialize (IH (set_deps u (deps u ++ [read_back_dep d])) true ltac:(done)).
    rewrite <- app_assoc.
    assert (Hz : zlen (dep_id d) = 32) by (unfold zlen; by rewrite Hd).
    eapply triple_bind; [by apply triple_calloc|]. simpl negb. cbv iota.
    eapply triple_bind; [apply triple_ret|].
    eapply triple_bind.
    { rewrite <- Hz at 1. rewrite <- Hz. apply triple_read. lia. }
    rewrite Hz. simpl (32 <? 32). cbv iota.
    eapply triple_bind; [apply triple_ret|].
    eapply triple_bind.
    { apply triple_gets with (a := deps u). intros s (_ & _ & _ & ->). done. }
    eapply triple_bind.
    { destruct prev; simpl; [apply triple_ret|]. rewrite (Hp eq_refl). apply triple_ret. }
    eapply triple_bind; [apply triple_ulp|]. simpl in *. by rewrite <- app_assoc in IH.
Qed.

(** The path, as both tools insert it. *)
Definition path_field (path : bytes) : bytes := write_string path.

Lemma triple_header t id path r c u :
  is_byte t -> length id = 32%nat -> length (patch_id u) = 32%nat ->
  small path -> cstr path <> [] ->
  tri (View ([t] ++ id ++ path_field path ++ r) c u) (parse_header calloc_ok src (zlen src)) tt
    (View r (zlen (cstr path) + 1)
       (set_so_filename (set_patch_id (set_type (set_objs u None) t) id)
          (Some (cstr path ++ [0; 0])))).
Proof.
  intros Ht Hid Hu Hp Hne. unfold parse_header, path_field.
  assert (Hz : zlen id = 32) by (unfold zlen; by rewrite Hid).
  eapply triple_bind; [apply triple_ulp|]. cbn [v_rest v_c v_ulp].
  eapply triple_bind; [apply triple_gets with (a := type u); intros s (_ & _ & _ & ->); done|].
  eapply triple_bind.
  { assert (Hle : [t] = le_bytes 1 t) by (simpl; by rewrite Z.mod_small by exact Ht).
    rewrite Hle. apply (triple_word src 1 1 t); [exact Ht|lia|].
    instantiate (1 := View _ _ _). intros s (Hc & Hr & Hcv & Hul).
    unfold viewed, upd_ulp. simpl in *. rewrite Hul. done. }
  eapply triple_bind.
  { rewrite <- Hz at 1. rewrite <- Hz. apply triple_read. lia. }
  eapply triple_bind; [apply triple_ulp|]. cbn [v_rest v_c v_ulp].
  rewrite Hz. simpl (32 <? 32). cbv iota.
  eapply triple_bind; [apply triple_ret|].
  eapply triple_string; [done|lia| |].
  { instantiate (1 := View _ _ _). intros s (Hc & Hr & Hcv & Hul).
    unfold viewed, upd_ulp. simpl in *. rewrite Hul. done. }
  cbn beta. destruct (cstr path) as [|x xs] eqn:Hpath; [done|].
  pose proof (cstr_no_nul path) as Hnn. rewrite Hpath in Hnn. inversion Hnn; subst.
  simpl hd. destruct (Z.eqb_spec x 0); [done|].
  assert (Hs : splice 0 id (patch_id u) = id).
  { unfold splice. simpl. by rewrite drop_ge, app_nil_r by lia. }
  simpl. rewrite Hs. apply triple_ret.
Qed.

Lemma triple_object id nb r c u :
  zlen id < 2 ^ 32 -> zlen nb < 2 ^ 32 - 1 ->
  tri (View (write_u32 (zlen id) ++ id ++ write_u32 (zlen nb) ++ nb ++ r) c u)
    (parse_object calloc_ok src (zlen src)) tt
    (View r (zlen nb)
       (set_objs u (Some {| build_id_len := zlen id; build_id_check := 0; build_id := Some id;
                            obj_name := Some (nb ++ [0]); nunits := 0; units := [] |}))).
Proof.
  intros Hid Hnb. pose proof (zlen_nonneg id). pose proof (zlen_nonneg nb). unfold parse_object.
  eapply triple_bind; [by apply triple_calloc|]. simpl negb. cbv iota.
  eapply triple_bind; [apply triple_ret|].
  eapply triple_bind; [apply triple_ulp|]. cbn [v_rest v_c v_ulp].
  eapply triple_bind; [apply triple_read_c; lia|].
  eapply triple_bind; [apply triple_obj|]. cbn [v_rest v_c v_ulp].
  eapply triple_bind.
  { apply triple_read_exact; [done|]. instantiate (1 := View _ _ _).
    intros s (Hc & Hr & Hcv & Hul). unfold viewed, upd_obj, upd_ulp. simpl in *.
    rewrite Hul. done. }
  eapply triple_bind; [apply triple_obj|]. cbn [v_rest v_c v_ulp].
  eapply triple_bind; [apply triple_read_c; lia|].
  eapply triple_bind.
  { apply triple_read_name; [done|done|]. instantiate (1 := View _ _ _).
    intros s (Hc & Hr & Hcv & Hul). unfold viewed, upd_obj, upd_ulp. simpl in *.
    rewrite Hul. done. }
  apply triple_ret.
Qed.

Lemma triple_body u o us ds rs r c :
  objs u = Some o -> units o = [] -> nunits o = 0 -> nrefs u = 0 -> deps u = [] -> refs u = [] ->
  Forall wf_unit us -> Forall wf_dep ds -> Forall wf_ref rs ->
  zlen us < 2 ^ 32 -> zlen ds < 2 ^ 32 -> zlen rs < 2 ^ 32 ->
  exists c', tri
    (View (write_u32 (zlen us) ++ concat (map write_unit us) ++
           write_u32 (zlen ds) ++ concat (map dep_id ds) ++
           write_u32 (zlen rs) ++ concat (map write_ref rs) ++ r) c u)
    (parse_body calloc_ok src (zlen src)) tt
    (View r c'
       (set_refs (set_nrefs (set_deps
          (set_objs u (Some (set_units (set_nunits o (zlen us)) (map read_back_unit us))))
          (map read_back_dep ds)) (zlen rs)) (map read_back_ref rs))).
Proof.
  intros Ho Hu0 Hn0 Hnr Hd0 Hr0 Hus Hds Hrs Hlu Hld Hlr.
  pose proof (zlen_nonneg us). pose proof (zlen_nonneg ds). pose proof (zlen_nonneg rs).
  set (u1 := set_objs u (Some (set_nunits o (zlen us)))).
  set (u2 := set_objs u1 (Some (set_units (set_nunits o (zlen us)) (map read_back_unit us)))).
  set (r3 := write_u32 (zlen rs) ++ concat (map write_ref rs) ++ r).
  set (r2 := write_u32 (zlen ds) ++ concat (map dep_id ds) ++ r3).
  destruct (triple_units us r2 c u1 (set_nunits o (zlen us)) eq_refl Hus) as (c1 & Hunits).
  simpl units in Hunits. rewrite Hu0 in Hunits. simpl app in Hunits.
  set (u3 := set_deps u2 (map read_back_dep ds)).
  set (u4 := set_nrefs u3 (zlen rs)).
  destruct (triple_refs rs r (zlen ds) u4 false (fun _ => Hr0) Hrs) as (c2 & Hrefs).
  exists c2. unfold parse_body, parse_references.
  eapply triple_bind.
  { apply triple_gets with (a := 0). intros s (_ & _ & _ & ->). simpl. by rewrite Ho. }
  eapply triple_bind.
  { unfold write_u32 at 1. rewrite wrap_id by done.
    apply (triple_word src 4); [done|lia|]. instantiate (1 := View _ _ _).
    intros s (Hc & Hr & Hcv & Hul). unfold viewed, upd_obj, upd_ulp. simpl in *.
    rewrite Hul, Ho. done. }
  fold u1. eapply triple_bind.
  { rewrite (zlen_nat us). exact Hunits. }
  eapply triple_bind; [apply triple_read_c; lia|].
  eapply triple_bind.
  { rewrite (zlen_nat ds). apply triple_deps; [|exact Hds]. by intros _. }
  simpl deps. rewrite Hd0. simpl app.
  eapply triple_bind.
  { apply triple_gets with (a := 0). intros s (_ & _ & _ & ->). simpl. done. }
  eapply triple_bind.
  { unfold r3, write_u32. rewrite wrap_id by done.
    apply (triple_word src 4); [done|lia|]. instantiate (1 := View _ _ _).
    intros s (Hc & Hr & Hcv & Hul). unfold viewed, upd_ulp. simpl in *. rewrite Hul. done. }
  eapply triple_bind.
  { rewrite (zlen_nat rs). exact Hrefs. }
  simpl refs. rewrite Hr0. apply triple_warn.
Qed.
End parser_functions.

(** ** The parser on what the writers wrote *)

(** The metadata the parser builds from an apply patch. *)
Definition read_back (u : ulp_metadata) (id name path : bytes) : ulp_metadata :=
  {| patch_id := patch_id u; so_filename := Some (path ++ [0; 0]); so_handler := 0;
     objs := match objs u with
             | Some o => Some {| build_id_len := zlen id; build_id_check := 0; build_id := Some id;
                                 obj_name := Some (cstr name ++ [0; 0]); nunits := nunits o;
                                 units := map read_back_unit (units o) |}
             | None => None
             end;
     ndeps := 0; deps := map read_back_dep (deps u); nrefs := nrefs u;
     refs := map read_back_ref (refs u); type := 1; comments := None |}.

(** The metadata the parser builds from a revert patch. *)
Definition read_back_reverse (u : ulp_metadata) (id name path : bytes) : ulp_metadata :=
  {| patch_id := patch_id u; so_filename := Some (path ++ [0; 0]); so_handler := 0;
     objs := Some {| build_id_len := zlen id; build_id_check := 0; build_id := Some id;
                     obj_name := Some (cstr name ++ [0]); nunits := 0; units := [] |};
     ndeps := 0; deps := []; nrefs := 0; refs := []; type := 2; comments := None |}.

(** The path both writers of the path field insert. *)
Definition full_path (prefix : option bytes) (path : bytes) : bytes :=
  match prefix with Some p => cstr p | None => [] end ++ cstr path.

Lemma cstr_full_path prefix path : cstr (full_path prefix path) = full_path prefix path.
Proof.
  apply cstr_id. unfold full_path, no_nul. apply Forall_app. split; [|apply cstr_no_nul].
  destruct prefix; [apply cstr_no_nul|constructor].
Qed.

Lemma extract_inv data path lp prefix size buf :
  zlen data < 2 ^ 31 ->
  extract_ulp_from_so_to_mem (Some (Some data)) (Some path) lp prefix = Ok (size, Buffer buf) ->
  small (full_path prefix path) /\ size = zlen buf /\ zlen (full_path prefix path) + 1 < PATH_MAX /\
  size < ULP_METADATA_BUF_LEN /\ 33 <= zlen data /\
  buf = take 33 data ++ path_field (full_path prefix path) ++ drop 33 data.
Proof.
  intros Hd. unfold extract_ulp_from_so_to_mem. fold (full_path prefix path).
  rewrite bool_decide_eq_false_2 by done. simpl andb.
  set (p := full_path prefix path). pose proof (zlen_nonneg p).
  destruct (zlen data =? 0); [done|]. destruct (match prefix with Some _ => _ | None => _ end); [done|].
  destruct (Z.leb_spec PATH_MAX (zlen p + 1)) as [|Hp]; [done|].
  pose proof (zlen_nonneg data). unfold PATH_MAX in *.
  rewrite wrap_id by (unfold in_u; lia).
  destruct (Z.leb_spec ULP_METADATA_BUF_LEN (zlen data + (zlen p + 1) + 4)); [done|].
  destruct (Z.ltb_spec (zlen data) 33); [done|]. intros [= <- <-].
  unfold small, path_field, write_string, p. rewrite cstr_full_path. fold p.
  unfold write_u32. rewrite wrap_id by (unfold in_u; lia).
  split_and!; try lia; [|by rewrite <- ?app_assoc].
  autorewrite with ulp. rewrite zlen_take, zlen_drop by lia. change (zlen (@nil Z)) with 0. lia.
Qed.

Lemma viewed_start src c0 u :
  viewed src (View src c0 u)
    {| ps_cur := 0; ps_c := c0; ps_ulp := u; ps_nalloc := 0; ps_log := [] |}.
Proof. split; [|done]. simpl. pose proof (zlen_nonneg src). lia. Qed.

Lemma code_bind_ok {A} (m : st pstate Z A) k s a s' :
  m s = (Ok a, s') -> code (bind m k) s = code (k a) s'.
Proof. intros H. unfold code. by rewrite (bind_ok _ _ _ _ _ H). Qed.

Lemma Ok_pair_inj {E A B} (a : A) (b b' : B) : @Ok E _ (a, b) = Ok (a, b') -> b = b'.
Proof. congruence. Qed.

(** The bytes of an apply patch and of its revert patch. *)
Lemma create_apply u o id name :
  wf_metadata u o id name ->
  create_patch_metadata_file true u =
  Ok (1, ([1] ++ patch_id u) ++ write_u32 (zlen id) ++ id ++ write_string name ++
         write_u32 (nunits o) ++ concat (map write_unit (units o)) ++
         write_u32 (ndeps u) ++ concat (map dep_id (deps u)) ++
         write_u32 (nrefs u) ++ concat (map write_ref (refs u))).
Proof.
  intros [Hpid Ho Hid (Hidl & _) (Hname & _) _ _ _].
  unfold create_patch_metadata_file, write_build_id. simpl negb. cbv iota.
  rewrite Ho, Hname, Hid, Hidl, zlen_nat. simpl default.
  rewrite firstn_all, (take_ge (patch_id u)) by lia. by rewrite <- !app_assoc.
Qed.

Lemma create_revert u o id name embed :
  wf_metadata u o id name ->
  (forall file, embed file = 0) ->
  write_reverse_patch true embed u =
  Ok (1, ([2] ++ patch_id u) ++ write_u32 (zlen id) ++ id ++
         write_u32 (zlen (cstr name)) ++ cstr name).
Proof.
  intros [Hpid Ho Hid (Hidl & _) (Hname & _) _ _ _] Hem.
  unfold write_reverse_patch, write_build_id. simpl negb. cbv iota.
  rewrite Ho, Hname, Hid, Hidl, zlen_nat, Hem. simpl default.
  rewrite firstn_all, (take_ge (patch_id u)) by lia. by rewrite <- !app_assoc.
Qed.

(** The metadata after the header and the object's names. *)
Definition head_object (id nb : bytes) : ulp_object :=
  {| build_id_len := zlen id; build_id_check := 0; build_id := Some id;
     obj_name := Some (nb ++ [0]); nunits := 0; units := [] |}.

Definition head_metadata (t : Z) (pid p id nb : bytes) : ulp_metadata :=
  set_objs
    (set_so_filename (set_patch_id (set_type zero_metadata t) pid) (Some (cstr p ++ [0; 0])))
    (Some (head_object id nb)).

Lemma parse_head calloc_ok c0 t pid p id nb body buf :
  (forall n sz, calloc_ok n sz = true) ->
  is_byte t -> length pid = 32%nat -> small p -> cstr p <> [] ->
  zlen id < 2 ^ 32 -> zlen nb < 2 ^ 32 - 1 ->
  buf = ([t] ++ pid) ++ path_field p ++ write_u32 (zlen id) ++ id ++ write_u32 (zlen nb) ++ nb ++ body ->
  exists s,
    parse_metadata_from_mem calloc_ok c0 zero_metadata buf (zlen buf) =
    code ((if t =? 2 then ret tt else parse_body calloc_ok buf (zlen buf));;; ret 0) s /\
    viewed buf (View body (zlen nb) (head_metadata t pid p id nb)) s.
Proof.
  intros Halloc Ht Hpid Hp Hne Hid Hnb Hb. rewrite <- app_assoc in Hb.
  destruct (triple_header calloc_ok Halloc buf t pid p
              (write_u32 (zlen id) ++ id ++ write_u32 (zlen nb) ++ nb ++ body) c0 zero_metadata
              Ht Hpid eq_refl Hp Hne
              {| ps_cur := 0; ps_c := c0; ps_ulp := zero_metadata; ps_nalloc := 0%nat; ps_log := [] |})
    as (s1 & E1 & V1); [rewrite <- Hb; apply viewed_start|].
  destruct (triple_object calloc_ok Halloc buf id nb body _ _ Hid Hnb s1 V1) as (s2 & E2 & V2).
  exists s2. split; [|exact V2].
  unfold parse_metadata_from_mem, parse_metadata_m.
  rewrite (code_bind_ok _ _ _ _ _ E1), (code_bind_ok _ _ _ _ _ E2),
    (code_bind_ok (gets _) _ s2 _ _ eq_refl).
  destruct V2 as (_ & _ & _ & ->). done.
Qed.

Lemma path_field_full prefix path : path_field (full_path prefix path) =
  write_u32 (zlen (full_path prefix path) + 1) ++ full_path prefix path ++ [0].
Proof. unfold path_field, write_string. by rewrite cstr_full_path. Qed.

Lemma consumed (buf rest : bytes) (c : Z) : drop (Z.to_nat c) (buf ++ rest) = rest -> 0 <= c <= zlen (buf ++ rest) -> c = zlen buf.
Proof.
  intros Hd Hc. apply (f_equal length) in Hd. rewrite length_drop, length_app in Hd.
  unfold zlen in *. rewrite length_app in Hc. lia.
Qed.

Lemma roundtrip_ok calloc_ok c0 u o id name data path lp prefix size buf rest
    (Halloc : forall n sz, calloc_ok n sz = true)
    (Hwf : wf_metadata u o id name)
    (Hsmall : zlen data < 2 ^ 31)
    (Hw : create_patch_metadata_file true u = Ok (1, data))
    (Hpath : full_path prefix path <> [])
    (Hx : extract_ulp_from_so_to_mem (Some (Some data)) (Some path) lp prefix = Ok (size, Buffer buf)) :
  exists s, parse_metadata_from_mem calloc_ok c0 zero_metadata (buf ++ rest) (zlen (buf ++ rest)) = (Ok 0, s) /\
            ps_ulp s = read_back u id name (full_path prefix path) /\ ps_cur s = size.
Proof.
  destruct (extract_inv _ _ _ _ _ _ Hsmall Hx) as (Hp & -> & _ & _ & _ & Hbuf).
  rewrite (create_apply u o id name Hwf) in Hw. apply Ok_pair_inj in Hw.
  destruct Hwf as [Hpid Ho Hid (Hidl & Hidb) (Hname & Hns) (Hus & Hnu & Hlu) (Hds & Hnd & Hld)
                   (Hrs & Hnr & Hlr)].
  set (body := write_u32 (nunits o) ++ _) in Hw.
  destruct (small_bounds name Hns) as [Hnb Hnb'].
  destruct (parse_head calloc_ok c0 1 (patch_id u) (full_path prefix path) id (cstr name ++ [0])
              (body ++ rest) (buf ++ rest)) as (s2 & E & V2); [by rewrite ?cstr_full_path..| |].
  { rewrite Hbuf, <- Hw, take_app_length', drop_app_length' by (simpl; lia).
    rewrite zlen_name. unfold write_string. by rewrite <- !app_assoc. }
  edestruct (triple_body calloc_ok Halloc (buf ++ rest)
               (head_metadata 1 (patch_id u) (full_path prefix path) id (cstr name ++ [0]))
               (head_object id (cstr name ++ [0])) (units o) (deps u) (refs u) rest (zlen (cstr name ++ [0])))
    as (c' & Hbd); [done..|].
  destruct (Hbd s2) as (s3 & E3 & V3).
  { unfold body in V2. rewrite Hnu, Hnd, Hnr in V2. by rewrite <- !app_assoc in V2. }
  exists s3. rewrite E. simpl (_ =? 2). cbv iota. rewrite (code_bind_ok _ _ _ _ _ E3). split; [done|].
  destruct V3 as (Hc3 & Hr3 & _ & Hu3). split.
  - rewrite Hu3. unfold read_back, head_metadata, head_object, set_units, set_nunits. simpl. rewrite Ho, cstr_full_path, Hnu, Hnr.
    by rewrite <- app_assoc.
  - by apply (consumed buf rest) in Hr3.
Qed.

(** C15. Round trip of a live patch: what the packer writes for well-formed
    metadata, once the tool has inserted the container's path, is parsed in the
    target without error, whatever follows it in the buffer, and gives back every
    field: patch id, build id, object, units, dependencies and references; the
    parser stops at its end. *)
Theorem metadata_roundtrip calloc_ok c0 u o id name data path lp prefix size buf rest
    (Halloc : forall n sz, calloc_ok n sz = true)
    (Hwf : wf_metadata u o id name)
    (Hsmall : zlen data < 2 ^ 31)
    (Hw : create_patch_metadata_file true u = Ok (1, data))
    (Hpath : full_path prefix path <> [])
    (Hx : extract_ulp_from_so_to_mem (Some (Some data)) (Some path) lp prefix = Ok (size, Buffer buf)) :
  exists s, parse_metadata_from_mem calloc_ok c0 zero_metadata (buf ++ rest) (zlen (buf ++ rest)) = (Ok 0, s) /\
            ps_ulp s = read_back u id name (full_path prefix path) /\ ps_cur s = size.
Proof. by eapply roundtrip_ok. Qed.

(** Round trip of a revert patch: what the packer writes into [.ulp.rev] is
    parsed without error, whatever follows, as a patch of type 2 that names the same patch id,
    build id and object, with no units; the parser stops there. *)
Theorem reverse_roundtrip calloc_ok c0 embed u o id name data path lp prefix size buf rest
    (Halloc : forall n sz, calloc_ok n sz = true)
    (Hembed : forall file, embed file = 0)
    (Hwf : wf_metadata u o id name)
    (Hsmall : zlen data < 2 ^ 31)
    (Hw : write_reverse_patch true embed u = Ok (1, data))
    (Hpath : full_path prefix path <> [])
    (Hx : extract_ulp_from_so_to_mem (Some (Some data)) (Some path) lp prefix = Ok (size, Buffer buf)) :
  exists s, parse_metadata_from_mem calloc_ok c0 zero_metadata (buf ++ rest) (zlen (buf ++ rest)) = (Ok 0, s) /\
            ps_ulp s = read_back_reverse u id name (full_path prefix path) /\ ps_cur s = size.
Proof.
  destruct (extract_inv _ _ _ _ _ _ Hsmall Hx) as (Hp & -> & _ & _ & _ & Hbuf).
  rewrite (create_revert u o id name embed Hwf Hembed) in Hw. apply Ok_pair_inj in Hw.
  destruct Hwf as [Hpid Ho Hid (Hidl & Hidb) (Hname & Hns) _ _ _].
  destruct (small_bounds name Hns) as [Hnb Hnb'].
  destruct (parse_head calloc_ok c0 2 (patch_id u) (full_path prefix path) id (cstr name)
              rest (buf ++ rest)) as (s2 & E & V2); [by rewrite ?cstr_full_path..|lia| |].
  { rewrite Hbuf, <- Hw, take_app_length', drop_app_length' by (simpl; lia).
    by rewrite <- !app_assoc. }
  exists s2. rewrite E. split; [done|]. destruct V2 as (Hc & Hr & _ & Hu). split.
  - rewrite Hu. unfold read_back_reverse, head_metadata. by rewrite cstr_full_path.
  - by apply (consumed buf rest) in Hr.
Qed.

Lemma splice_app' {A} (pre mid mid' post : list A) l off :
  l = pre ++ mid ++ post -> off = length pre -> length mid = length mid' ->
  splice off mid' l = pre ++ mid' ++ post.
Proof. intros -> ->. apply splice_app. Qed.

Lemma splits {A} a b c d (l : list A) :
  (a + b + c + d <= length l)%nat ->
  exists l1 l2 l3 l4 l5, l = l1 ++ l2 ++ l3 ++ l4 ++ l5 /\ length l1 = a /\ length l2 = b /\
    length l3 = c /\ length l4 = d.
Proof.
  intros Hl. exists (take a l), (take b (drop a l)), (take c (drop (a + b) l)),
    (take d (drop (a + b + c) l)), (drop (a + b + c + d) l).
  rewrite <- !drop_drop, !take_drop, !length_take, !length_drop. split_and!; [done|lia..].
Qed.

(** The two ways in which a path reaches the metadata agree: on the buffer
    that holds a section the tool accepts, the library's [inject_lp_path]
    succeeds, and the bytes it leaves are those the tool sends. *)
Theorem inject_matches_extract buffer n path lp size out
    (Hbuf : zlen buffer = ULP_METADATA_BUF_LEN)
    (Hn : 0 <= n <= ULP_METADATA_BUF_LEN)
    (Hx : extract_ulp_from_so_to_mem (Some (Some (take (Z.to_nat n) buffer))) (Some path) lp None
          = Ok (size, Buffer out)) :
  exists buffer', inject_lp_path path n buffer = Ok (0, buffer') /\
    take (Z.to_nat size) buffer' = out /\ size = n + zlen (cstr path) + 5.
Proof.
  assert (Hl : zlen (take (Z.to_nat n) buffer) = n) by (rewrite zlen_take; lia).
  destruct (extract_inv _ _ _ _ _ _ ltac:(rewrite Hl; unfold ULP_METADATA_BUF_LEN in *; lia) Hx)
    as (Hp & Hsize & Hpm & Hsm & H33 & ->).
  rewrite Hl in H33. rewrite path_field_full in *. unfold full_path in *. rewrite app_nil_l in *.
  set (p := cstr path) in *. pose proof (zlen_nonneg p).
  rewrite !zlen_app, (zlen_take 33), (zlen_drop 33), Hl in Hsize by lia.
  unfold write_u32, ULP_METADATA_BUF_LEN, PATH_MAX in *.
  assert (H4 : zlen (le_bytes 4 (u32 (zlen p + 1))) = 4) by done.
  change (zlen [0]) with 1 in Hsize. rewrite H4 in Hsize.
  unfold inject_lp_path, ULP_METADATA_BUF_LEN. fold p.
  rewrite !wrap_id in * by (unfold in_u; rewrite ?wrap_id; unfold in_u; lia).
  destruct (Z.ltb_spec (512 * 1024) (n + (4 + (zlen p + 1)))); [lia|].
  destruct (Z.ltb_spec (n - (1 + 32)) 0); [lia|].
  eexists. split; [reflexivity|]. split; [|lia].
  change (Z.to_nat (1 + 32)) with 33%nat.
  set (h := take 33 (take (Z.to_nat n) buffer)).
  assert (Hh : length h = 33%nat) by (unfold h, zlen in *; rewrite !length_take in *; lia).
  set (tl := slice 33 (Z.to_nat (n - (1 + 32))) buffer).
  assert (Htl : tl = drop 33 (take (Z.to_nat n) buffer)).
  { unfold tl, slice. rewrite skipn_firstn_comm. f_equal. lia. }
  destruct (splits 33 4 (S (length p)) (length tl) buffer) as (h' & x4 & x5 & z1 & z2 & Hb & L).
  { rewrite Htl, length_drop, length_take. unfold zlen in *. lia. }
  destruct L as (L1 & L2 & L3 & L4).
  assert (Hh' : h' = h).
  { unfold h. rewrite take_take, Nat.min_l by lia. by rewrite Hb, take_app_length'. }
  subst h'. rewrite <- Htl.
  replace (Z.to_nat (4 + (zlen p + 1))) with (4 + S (length p))%nat by (unfold zlen; lia).
  rewrite Hb, (splice_app' (h ++ x4 ++ x5) z1 tl z2), (splice_app' h x4 (le_bytes 4 _) (x5 ++ tl ++ z2)),
    (splice_app' (h ++ le_bytes 4 (zlen p + 1)) x5 (p ++ [0]) (tl ++ z2))
    by (rewrite <- ?app_assoc, ?length_app, ?length_le_bytes; simpl; done || lia).
  rewrite <- !app_assoc, !(app_assoc _ _ z2).
  apply take_app_length'. rewrite !length_app, length_le_bytes, Htl. simpl.
  rewrite length_drop, length_take. unfold zlen in *. lia.
Qed.

Lemma inject_length path n buffer e buffer' :
  zlen buffer = ULP_METADATA_BUF_LEN -> zlen (cstr path) + 1 < PATH_MAX ->
  inject_lp_path path n buffer = Ok (e, buffer') -> zlen buffer' = zlen buffer.
Proof.
  intros Hb Hp. pose proof (zlen_nonneg (cstr path)). unfold inject_lp_path, ULP_METADATA_BUF_LEN, PATH_MAX in *.
  rewrite !(wrap_id 32 (zlen (cstr path) + 1)), (wrap_id 32 (4 + _)) by (unfold in_u; lia).
  destruct (Z.ltb_spec (512 * 1024) (n + (4 + (zlen (cstr path) + 1)))); [congruence|].
  destruct (Z.ltb_spec (n - (1 + 32)) 0); [done|]. intros [= _ <-].
  change (Z.to_nat (1 + 32)) with 33%nat. unfold zlen in *. f_equal.
  assert (Hs : (length (slice 33 (Z.to_nat (n - (1 + 32))) buffer) <= Z.to_nat (n - (1 + 32)))%nat)
    by (unfold slice; rewrite length_take; lia).
  set (b1 := splice _ (slice 33 _ buffer) buffer). assert (L1 : length b1 = length buffer) by (apply length_splice; lia).
  set (b2 := splice 33 _ b1). assert (L2 : length b2 = length b1) by (apply length_splice; cbn [length le_bytes]; lia).
  rewrite length_splice; [lia|]. rewrite length_app. simpl. lia.
Qed.

(** ** Memory safety of the parser *)

(** The four bytes at any offset are not all [0xFF]: the length they give is not
    the one for which [calloc (c + 1, 1)] allocates nothing. *)
Definition no_ff_word (src : bytes) : Prop :=
  forall k, slice k 4 src <> [255; 255; 255; 255].

Section parser_safety.
Variable calloc_ok : nat -> Z -> bool.
Variable src : bytes.
Hypothesis src_bytes : Forall is_byte src.
Hypothesis src_no_ff : no_ff_word src.

(** From a state in [P], [m] stays inside its objects, and [Q] holds of what
    it returns. *)
Definition safe {A} (P : pstate -> Prop) (m : st pstate Z A) (Q : A -> pstate -> Prop) : Prop :=
  forall s, P s -> match m s with
                   | (Ok a, s') => Q a s'
                   | (Err _, _) => True
                   | (Ub, _) | (NoFuel, _) => False
                   end.

(** The cursor is inside the buffer, [c] is a [uint32_t], and the chains the
    parser has not reached are empty. *)
Record inv (d r : bool) (s : pstate) : Prop := {
  inv_cur : 0 <= ps_cur s <= zlen src;
  inv_c : in_u 32 (ps_c s);
  inv_deps : d = true -> deps (ps_ulp s) = [];
  inv_refs : r = true -> refs (ps_ulp s) = [] }.

(** What [read_c] leaves: a length that is not the one that wraps, or the
    buffer is at its end. *)
Definition c_fresh (s : pstate) : Prop := ps_c s = 2 ^ 32 - 1 -> ps_cur s = zlen src.

Lemma safe_bind {A B} P Q R (m : st pstate Z A) (k : A -> st pstate Z B) :
  safe P m Q -> (forall a, safe (Q a) (k a) R) -> safe P (bind m k) R.
Proof.
  intros Hm Hk s Hs. specialize (Hm s Hs). unfold bind.
  destruct (m s) as [[] s']; try done. exact (Hk a s' Hm).
Qed.

Lemma safe_ret {A} P (a : A) : safe P (ret a) (fun _ => P).
Proof. by intros s Hs. Qed.

Lemma safe_fail {A} P fmt e Q : safe P (@fail_with A fmt e) Q.
Proof. by intros s Hs. Qed.

Lemma safe_weaken {A} P P' (m : st pstate Z A) Q Q' :
  (forall s, P' s -> P s) -> (forall a s, Q a s -> Q' a s) -> safe P m Q -> safe P' m Q'.
Proof. intros HP HQ Hm s Hs. specialize (Hm s (HP s Hs)). destruct (m s) as [[] s']; auto. Qed.

Lemma safe_gets {A} P (f : pstate -> A) : safe P (gets f) (fun a s => P s /\ a = f s).
Proof. by intros s Hs. Qed.

Lemma safe_modify (P Q : pstate -> Prop) f :
  (forall s, P s -> Q (f s)) -> safe P (modify f) (fun _ => Q).
Proof. intros Hf s Hs. by apply Hf. Qed.

Lemma safe_guard {A} (b : bool) P fmt e (a : A) Q :
  (forall s, P s -> Q a s) -> safe P (if b then fail_with fmt e else ret a) Q.
Proof. intros H. destruct b; [apply safe_fail|]. intros s Hs. by apply H. Qed.

(** The bytes copied are bytes of the buffer, at the cursor, all [n] of them
    unless the buffer ends. *)
Lemma read_from_mem_spec cap n s :
  0 <= ps_cur s <= zlen src -> 0 <= n ->
  (cap < n -> ps_cur s = zlen src /\ 0 <= cap) ->
  exists bs, read_from_mem src (zlen src) cap n s = (Ok bs, set_cur (ps_cur s + zlen bs) s) /\
    bs = slice (Z.to_nat (ps_cur s)) (Z.to_nat n) src /\ zlen bs <= cap /\ zlen bs <= n /\
    ps_cur s + zlen bs <= zlen src /\ (zlen bs < n -> ps_cur s + zlen bs = zlen src).
Proof.
  intros Hc Hn Hcap. unfold read_from_mem.
  set (bs := slice (Z.to_nat (ps_cur s)) (Z.to_nat n) src).
  set (cnt := if _ <? _ then _ else _).
  assert (Hcnt : 0 <= cnt /\ cnt <= n /\ ps_cur s + cnt <= zlen src /\
                 (cnt < n -> ps_cur s + cnt = zlen src)).
  { unfold cnt. destruct (Z.ltb_spec (zlen src - ps_cur s) n); lia. }
  assert (Hbs : slice (Z.to_nat (ps_cur s)) (Z.to_nat cnt) src = bs).
  { unfold bs, slice. destruct (decide (cnt = n)) as [->|]; [done|].
    rewrite !take_ge; [done|unfold zlen in *; rewrite length_drop; lia..]. }
  assert (Hlen : zlen bs = cnt).
  { rewrite <- Hbs. unfold slice. rewrite zlen_take; [lia|]. rewrite zlen_drop; lia. }
  cbv zeta. rewrite Hbs, Hlen.
  rewrite (proj2 (Z.ltb_ge cnt 0)), (proj2 (Z.ltb_ge cap cnt)), Z.ltb_irrefl by lia.
  exists bs. rewrite Hlen. split_and!; [done|done|lia..].
Qed.

Lemma slice_bytes k n : Forall is_byte (slice k n src).
Proof. apply Forall_take, Forall_drop, src_bytes. Qed.

Lemma safe_read d r cap n :
  0 <= n <= cap ->
  safe (inv d r) (read_from_mem src (zlen src) cap n) (fun _ => inv d r).
Proof.
  intros Hn s [Hc Hv Hd Hr].
  destruct (read_from_mem_spec cap n s Hc ltac:(lia) ltac:(lia)) as (bs & -> & _ & _ & _ & Hb & _).
  pose proof (zlen_nonneg bs). split; simpl; [lia|done..].
Qed.

Lemma safe_word d r (n : nat) least x store fmt e :
  (forall y s, inv d r s -> inv d r (store y s)) ->
  safe (inv d r) (read_word src (zlen src) (Z.of_nat n) least x store fmt e) (fun _ => inv d r).
Proof.
  intros Hst. unfold read_word. eapply safe_bind; [apply safe_read; lia|]. intros bs.
  eapply safe_bind; [apply safe_modify; intros s; apply Hst|]. intros []. by apply safe_guard.
Qed.

Lemma le_val_4 bs : zlen bs = 4 -> Forall is_byte bs -> le_val bs = 2 ^ 32 - 1 ->
  bs = [255; 255; 255; 255].
Proof.
  intros Hl Hb Hv. rewrite <- (le_bytes_val bs Hb), Hv.
  replace (length bs) with 4%nat by (unfold zlen in Hl; lia). done.
Qed.

(** Reading a length leaves a [c] that is safe to add one to. *)
Lemma safe_c d r least fmt :
  safe (inv d r) (read_c src (zlen src) least fmt) (fun c s => inv d r s /\ c_fresh s /\ ps_c s = c).
Proof.
  intros s [Hc Hv Hd Hr]. unfold read_c, read_word, gets, bind.
  destruct (read_from_mem_spec 4 4 s Hc ltac:(lia) ltac:(lia)) as (bs & -> & Hbs & Hcap & _ & Hb & He).
  cbn -[le_bytes le_val]. set (word := bs ++ drop (length bs) (le_bytes (Z.to_nat 4) (ps_c s))).
  pose proof (zlen_nonneg bs).
  assert (Hw : Forall is_byte word).
  { apply Forall_app. split; [rewrite Hbs; apply slice_bytes|apply Forall_drop, le_bytes_is_byte]. }
  assert (Hl : length word = 4%nat).
  { unfold word. rewrite length_app, length_drop, length_le_bytes. unfold zlen in *. lia. }
  pose proof (le_val_range word Hw) as Hrange. rewrite Hl in Hrange.
  destruct (zlen bs <? least); [done|]. cbn -[le_val].
  split; [|split; [|done]].
  - split; simpl; [lia|exact Hrange|done..].
  - intros Hff. simpl in *. destruct (Z.ltb_spec (zlen bs) 4) as [|H4]; [by apply He|].
    exfalso. apply (src_no_ff (Z.to_nat (ps_cur s))). change 4%nat with (Z.to_nat 4).
    rewrite <- Hbs. apply le_val_4; [lia|rewrite Hbs; apply slice_bytes|].
    unfold word in Hff. rewrite drop_ge, app_nil_r in Hff; [done|].
    unfold zlen in *. simpl. lia.
Qed.

(** A buffer that holds what is read into it, or nothing is left to read. *)
Lemma safe_buf d r c cap store fa ea fmt :
  (forall p s, inv d r s -> inv d r (store p s)) ->
  (0 <= cap /\ (c <= cap \/ forall s, c_fresh s -> ps_c s = c -> ps_cur s = zlen src)) ->
  safe (fun s => inv d r s /\ c_fresh s /\ ps_c s = c)
    (read_buf calloc_ok src (zlen src) cap store fa ea fmt) (fun _ => inv d r).
Proof.
  intros Hst [Hcap0 Hcap] s (Hi & Hf & Hc). unfold read_buf.
  rewrite (bind_ok (gets ps_c) _ _ _ _ eq_refl), (bind_ok (calloc _ _) _ s _ _ eq_refl), Hc.
  destruct (calloc_ok (ps_nalloc s) cap); cbn [negb]; [|done].
  destruct Hi as [Hcur Hv Hd Hr].
  destruct (read_from_mem_spec cap c (bump_alloc s) Hcur) as (bs & E & _ & _ & _ & Hb & _).
  { unfold in_u in Hv. lia. }
  { intros Hlt. split; [|done]. destruct Hcap as [|Hcap]; [lia|]. exact (Hcap s Hf Hc). }
  rewrite (bind_ok _ _ _ _ _ E). pose proof (zlen_nonneg bs).
  assert (Hi' : inv d r (set_cur (ps_cur (bump_alloc s) + zlen bs) (bump_alloc s))).
  { split; simpl in *; [lia|done..]. }
  unfold bind, modify. cbn -[zlen]. destruct (zlen bs <? c); [done|]. by apply Hst.
Qed.

Lemma safe_name d r c store fa fmt :
  (forall p s, inv d r s -> inv d r (store p s)) ->
  safe (fun s => inv d r s /\ c_fresh s /\ ps_c s = c)
    (read_name calloc_ok src (zlen src) store fa fmt) (fun _ => inv d r).
Proof.
  intros Hst s Hs. unfold read_name. rewrite (bind_ok (gets ps_c) _ _ _ _ eq_refl).
  apply (safe_buf d r c); [done| |done]. destruct Hs as ([_ Hv _ _] & _ & Hc). rewrite Hc in *. unfold in_u in Hv.
  split; [apply (wrap_range 32); lia|].
  destruct (decide (c = 2 ^ 32 - 1)) as [->|Hne].
  - right. unfold c_fresh. auto.
  - left. rewrite wrap_id; [lia|]. unfold in_u. lia.
Qed.

Lemma safe_exact d r c store fa ea fmt :
  (forall p s, inv d r s -> inv d r (store p s)) ->
  safe (fun s => inv d r s /\ c_fresh s /\ ps_c s = c)
    (read_exact calloc_ok src (zlen src) store fa ea fmt) (fun _ => inv d r).
Proof.
  intros Hst s Hs. unfold read_exact. rewrite (bind_ok (gets ps_c) _ _ _ _ eq_refl).
  apply (safe_buf d r c); [done| |done]. destruct Hs as ([_ Hv _ _] & _ & Hc). rewrite Hc in *. unfold in_u in Hv.
  split; [lia|left; lia].
Qed.

Lemma inv_upd d r f s :
  (forall u, deps (f u) = deps u /\ refs (f u) = refs u) -> inv d r s -> inv d r (upd_ulp f s).
Proof.
  intros Hf [Hc Hv Hd Hr]. destruct (Hf (ps_ulp s)) as [E1 E2].
  split; simpl; rewrite ?E1, ?E2; done.
Qed.

Lemma inv_obj d r f s : inv d r s -> inv d r (upd_obj f s).
Proof. by apply inv_upd. Qed.

Lemma safe_name_field {B} d r least store f1 fa fmt (k : bytes -> st pstate Z B) Q :
  (forall p s, inv d r s -> inv d r (store p s)) ->
  (forall name, safe (inv d r) (k name) Q) ->
  safe (inv d r) (read_c src (zlen src) least f1;;;
                  bind (read_name calloc_ok src (zlen src) store fa fmt) k) Q.
Proof.
  intros Hst Hk. eapply safe_bind; [apply safe_c|]. intros c.
  eapply safe_bind; [by apply safe_name|exact Hk].
Qed.

Lemma safe_exact_field {B} d r least store f1 fa ea fmt (k : bytes -> st pstate Z B) Q :
  (forall p s, inv d r s -> inv d r (store p s)) ->
  (forall name, safe (inv d r) (k name) Q) ->
  safe (inv d r) (read_c src (zlen src) least f1;;;
                  bind (read_exact calloc_ok src (zlen src) store fa ea fmt) k) Q.
Proof.
  intros Hst Hk. eapply safe_bind; [apply safe_c|]. intros c.
  eapply safe_bind; [by apply safe_exact|exact Hk].
Qed.

Lemma safe_mod {B} d r f (k : unit -> st pstate Z B) Q :
  (forall s, inv d r s -> inv d r (f s)) -> safe (inv d r) (k tt) Q ->
  safe (inv d r) (bind (modify f) k) Q.
Proof. intros Hf Hk. eapply safe_bind; [by apply safe_modify|]. by intros []. Qed.

Lemma safe_get {A B} P (f : pstate -> A) (k : A -> st pstate Z B) Q :
  (forall a, safe (fun s => P s /\ a = f s) (k a) Q) -> safe P (bind (gets f) k) Q.
Proof. intros Hk. eapply safe_bind; [apply safe_gets|]. exact Hk. Qed.

Lemma safe_check {B} (b : bool) P fmt e (k : unit -> st pstate Z B) Q :
  safe P (k tt) Q -> safe P (bind (if b then fail_with fmt e else ret tt) k) Q.
Proof.
  intros Hk. eapply safe_bind; [by apply (safe_guard b P fmt e tt (fun _ => P))|]. by intros [].
Qed.

Lemma safe_alloc {B} d r n (k : bool -> st pstate Z B) Q :
  (forall b, safe (inv d r) (k b) Q) -> safe (inv d r) (bind (calloc calloc_ok n) k) Q.
Proof.
  intros Hk. eapply safe_bind; [|exact Hk]. intros s [Hc Hv Hd Hr]. by split.
Qed.

Lemma safe_drop_eq {A B} (a : B) (f : pstate -> B) P (m : st pstate Z A) Q :
  safe P m Q -> safe (fun s => P s /\ a = f s) m Q.
Proof. apply safe_weaken; tauto. Qed.

Ltac safe_step :=
  first
    [ apply safe_name_field; [intros; first [done | apply inv_upd; done | apply inv_obj; done]|intros ?]
    | apply safe_exact_field; [intros; first [done | apply inv_upd; done | apply inv_obj; done]|intros ?]
    | apply safe_alloc; intros ?
    | apply safe_check
    | apply safe_mod; [intros; first [apply inv_upd; done | apply inv_obj; done]|]
    | apply safe_get; intros ?; apply safe_drop_eq ].

Lemma safe_header : safe (inv true true) (parse_header calloc_ok src (zlen src)) (fun _ => inv true true).
Proof.
  unfold parse_header. do 2 safe_step.
  eapply safe_bind; [apply (safe_word true true 1); intros; by apply inv_upd|]. intros ?.
  eapply safe_bind; [apply safe_read; lia|]. intros bs.
  do 3 safe_step. by apply safe_guard.
Qed.

Lemma safe_object : safe (inv true true) (parse_object calloc_ok src (zlen src)) (fun _ => inv true true).
Proof.
  unfold parse_object. do 3 safe_step.
  eapply safe_bind; [apply safe_c|]. intros c.
  eapply safe_bind.
  { apply (safe_modify _ (fun s => inv true true s /\ c_fresh s /\ ps_c s = c)).
    intros s (Hi & Hf & Hc). split; [by apply inv_obj|done]. }
  intros [].
  eapply safe_bind; [apply safe_exact; intros; by apply inv_obj|]. intros ?.
  do 2 safe_step. apply safe_ret.
Qed.

Lemma safe_unit d r : safe (inv d r) (parse_unit calloc_ok src (zlen src)) (fun _ => inv d r).
Proof.
  unfold parse_unit. do 4 safe_step.
  eapply safe_bind; [by apply (safe_word d r 8)|]. intros addr.
  apply safe_modify. intros. by apply inv_obj.
Qed.

Lemma safe_ref d r : safe (inv d r) (parse_ref calloc_ok src (zlen src)) (fun _ => inv d r).
Proof.
  unfold parse_ref. do 4 safe_step.
  eapply safe_bind; [by apply (safe_word d r 8)|]. intros toff.
  eapply safe_bind; [by apply (safe_word d r 8)|]. intros poff.
  eapply safe_bind; [by apply (safe_word d r 1)|]. intros t. apply safe_ret.
Qed.

Lemma safe_repeat P n m : safe P m (fun _ : unit => P) -> safe P (repeat_m n m) (fun _ => P).
Proof. intros Hm. induction n; simpl; [apply safe_ret|]. by eapply safe_bind. Qed.

Lemma safe_deps n d r prev :
  (prev = false -> d = true) ->
  safe (inv d r) (parse_deps calloc_ok src (zlen src) n prev) (fun _ => inv false r).
Proof.
  revert d prev. induction n as [|n IH]; intros d prev Hp; simpl.
  - intros s [Hc Hv Hd Hr]. by split.
  - do 2 safe_step. eapply safe_bind; [apply safe_read; lia|]. intros id. safe_step.
    apply safe_get. intros chain.
    eapply safe_bind with (Q := fun _ => inv d r).
    { intros s (Hi & ->). destruct prev; simpl; [exact Hi|].
      by rewrite (inv_deps _ _ _ Hi (Hp eq_refl)). }
    intros []. eapply safe_bind with (Q := fun _ => inv false r).
    { apply safe_modify. intros s [Hc Hv Hd Hr]. by split. }
    intros []. by apply IH.
Qed.

Lemma safe_refs n d r prev :
  (prev = false -> r = true) ->
  safe (inv d r) (parse_refs calloc_ok src (zlen src) n prev) (fun _ => inv d false).
Proof.
  revert r prev. induction n as [|n IH]; intros r prev Hp; simpl.
  - intros s [Hc Hv Hd Hr]. by split.
  - eapply safe_bind; [apply safe_ref|]. intros rf.
    apply safe_get. intros chain.
    eapply safe_bind with (Q := fun _ => inv d r).
    { intros s (Hi & ->). destruct prev; simpl; [exact Hi|].
      by rewrite (inv_refs _ _ _ Hi (Hp eq_refl)). }
    intros []. eapply safe_bind with (Q := fun _ => inv d false).
    { apply safe_modify. intros s [Hc Hv Hd Hr]. by split. }
    intros []. by apply IH.
Qed.

Lemma safe_body : safe (inv true true) (parse_body calloc_ok src (zlen src)) (fun _ => inv false false).
Proof.
  unfold parse_body, parse_references. safe_step.
  eapply safe_bind; [apply (safe_word true true 4); intros; by apply inv_obj|]. intros n.
  eapply safe_bind; [apply safe_repeat, safe_unit|]. intros ?.
  eapply safe_bind; [apply safe_c|]. intros c.
  eapply safe_bind; [eapply safe_weaken; [|done|by apply (safe_deps _ true true false)]; tauto|].
  intros ?. safe_step.
  eapply safe_bind; [apply (safe_word false true 4); intros; by apply inv_upd|]. intros m.
  eapply safe_bind; [by apply (safe_refs _ false true false)|]. intros ?.
  apply safe_modify. intros s [Hc Hv Hd Hr]. by split.
Qed.
End parser_safety.

(** C38. Memory safety and termination of the parser: on any buffer of the given
    size in which no four bytes are all [0xFF], with an allocator that may fail
    at any point, the parser reads and writes inside the buffer and the objects
    it allocates, and returns a code. *)
Theorem parse_metadata_safe calloc_ok c0 u src
    (Hbytes : Forall is_byte src)
    (Hff : no_ff_word src)
    (Hc0 : in_u 32 c0)
    (Hfresh : deps u = [] /\ refs u = []) :
  exists rc s, parse_metadata_from_mem calloc_ok c0 u src (zlen src) = (Ok rc, s).
Proof.
  unfold parse_metadata_from_mem, parse_metadata_m, code.
  set (s0 := {| ps_cur := 0 |}).
  assert (Hi : inv src true true s0).
  { split; simpl; [pose proof (zlen_nonneg src); lia|done|intros _; apply Hfresh..]. }
  set (m := bind _ _).
  assert (Hs : safe (inv src true true) m (fun _ _ => True)).
  { unfold m. eapply safe_bind; [apply safe_header; done|]. intros ?.
    eapply safe_bind; [apply safe_object; done|]. intros ?.
    apply safe_get. intros t. apply safe_drop_eq.
    eapply safe_bind with (Q := fun _ _ => True); [|by intros ? ?].
    destruct (t =? 2); [by intros ?|].
    eapply safe_weaken; [done| |by apply safe_body]. done. }
  specialize (Hs s0 Hi). destruct (m s0) as [[] ?]; eauto; done.
Qed.

Lemma overflow_read {B} src s (k : bytes -> st pstate Z B) :
  0 <= ps_cur s <= zlen src -> drop (Z.to_nat (ps_cur s)) src <> [] ->
  bind (read_from_mem src (zlen src) (u32 (2 ^ 32 - 1 + 1)) (2 ^ 32 - 1)) k (bump_alloc s) =
  (Ub, bump_alloc s).
Proof.
  intros Hc Hd. unfold bind, read_from_mem. change (u32 (2 ^ 32 - 1 + 1)) with 0.
  assert (0 < zlen src - ps_cur s).
  { destruct (decide (ps_cur s < zlen src)); [lia|]. destruct Hd. apply drop_ge.
    unfold zlen in *. lia. }
  cbn [ps_cur bump_alloc]. set (cnt := if _ <? _ then _ else _).
  assert (0 < cnt) by (unfold cnt; destruct (Z.ltb_spec (zlen src - ps_cur s) (2 ^ 32 - 1)); lia).
  rewrite (proj2 (Z.ltb_lt 0 cnt)), orb_true_r by lia. done.
Qed.

(** The length the parser does not guard: a container path of length
    [0xFFFFFFFF] makes [calloc (c + 1, 1)] allocate no byte, and the path is
    copied over what follows the allocation. *)
Theorem parse_length_overflow calloc_ok c0 u t id x rest
    (Halloc : forall n sz, calloc_ok n sz = true)
    (Ht : is_byte t)
    (Hid : length id = 32%nat) :
  let src := [t] ++ id ++ [255; 255; 255; 255] ++ x :: rest in
  exists s, parse_metadata_from_mem calloc_ok c0 u src (zlen src) = (Ub, s).
Proof.
  intros src. unfold parse_metadata_from_mem, parse_metadata_m.
  set (s0 := {| ps_cur := 0 |}).
  assert (H : exists s, parse_header calloc_ok src (zlen src) s0 = (Ub, s)).
  2:{ destruct H as (s & H). exists s. unfold code, bind. by rewrite H. }
  unfold parse_header.
  rewrite (bind_ok (modify _) _ s0 _ _ eq_refl), (bind_ok (gets _) _ _ _ _ eq_refl).
  set (s1 := upd_ulp (fun u => set_objs u None) s0).
  destruct (triple_word src 1 1 t (type (ps_ulp s1)) (id ++ [255; 255; 255; 255] ++ x :: rest) c0
    (set_objs u None) (fun t => upd_ulp (fun u => set_type u t)) "Unable to read patch type."%string
    EINVALIDULP (View (id ++ [255; 255; 255; 255] ++ x :: rest) c0 (set_type (set_objs u None) t))
    ltac:(exact Ht) ltac:(lia)) with (s := s1) as (s2 & E2 & V2).
  { intros s (A & B & C & D). unfold viewed, upd_ulp. simpl in *. by rewrite D. }
  { simpl. rewrite Z.mod_small by exact Ht. apply viewed_start. }
  change (Z.of_nat 1) with 1 in E2. rewrite (bind_ok _ _ _ _ _ E2).
  assert (Hz : zlen id = 32) by (unfold zlen; by rewrite Hid).
  destruct (triple_read src id ([255; 255; 255; 255] ++ x :: rest) c0 (set_type (set_objs u None) t) 32
              ltac:(lia) s2 V2) as (s3 & E3 & V3).
  rewrite Hz in E3. rewrite (bind_ok _ _ _ _ _ E3), (bind_ok (modify _) _ _ _ _ eq_refl), Hz.
  rewrite Z.ltb_irrefl, ret_bind.
  set (s4 := upd_ulp _ s3).
  destruct (triple_read_c src 1 "Unable to read so filename length."%string (2 ^ 32 - 1) (x :: rest) c0
              (ps_ulp s4) ltac:(lia) ltac:(lia) s4) as (s5 & E5 & (Hc5 & Hr5 & Hcv & _)).
  { destruct V3 as (A & B & C & D). exact (conj A (conj B (conj C eq_refl))). }
  rewrite (bind_ok _ _ _ _ _ E5). cbn [v_c v_rest] in Hcv, Hr5.
  exists (bump_alloc s5). unfold bind at 1, read_name.
  rewrite (bind_ok (gets ps_c) _ _ _ _ eq_refl). unfold read_buf.
  rewrite (bind_ok (gets ps_c) _ _ _ _ eq_refl), Hcv.
  rewrite (bind_ok (calloc _ _) _ s5 true (bump_alloc s5)) by (unfold calloc; by rewrite Halloc).
  cbn [negb]. rewrite overflow_read; [done|exact Hc5|by rewrite Hr5].
Qed.
