(* ===== verification/DiskMetadata.v ===== *)
(** * The tool's loader of metadata files (tools/introspection.c)

    [load_patch_info_from_disk] reads, with [fread], the format that
    [parse_metadata_from_mem] reads from a buffer. It skips the check of the
    empty path, refuses incomplete words and stops after the dependencies; a
    successful load of a file with a path agrees with the parser up to there. *)

From S2P Require Import Prelude Errors Metadata.

Open Scope ulp_scope.

Section loader.
Variable calloc_ok : nat -> Z -> bool.
(** The contents of the file. *)
Variable file : bytes.

Abbreviation load A := (st pstate Z A).

(** [fread (p, 1, n, file)] into an object of [cap] bytes. *)
Definition fread_bytes (cap n : Z) : load bytes := read_from_mem file (zlen file) cap n.

(** [fread (&x, n, 1, file) < 1]: an incomplete element leaves [x]
    indeterminate, and the function returns. *)
Definition fread_word (n : Z) (store : Z -> pstate -> pstate) (fmt : string) (e : Z) : load Z :=
  let! bs := fread_bytes n n in
  if zlen bs <? n then fail_with fmt e
  else modify (store (le_val bs));;; ret (le_val bs).

Definition fread_c (fmt : string) : load Z := fread_word 4 set_c fmt EINVALIDULP.

(** [p = calloc (cap, 1); if (!p) ...; if (fread (p, 1, c, file) < c) ...]. *)
Definition fread_buf (cap : Z) (store : option bytes -> pstate -> pstate)
    (fmt_alloc fmt : string) : load bytes :=
  let! c := gets ps_c in
  let! ok := calloc calloc_ok cap in
  if negb ok then modify (store None);;; fail_with fmt_alloc EINVALIDULP
  else
    let! bs := fread_bytes cap c in
    let buf := bs ++ replicate (Z.to_nat (cap - zlen bs)) 0 in
    modify (store (Some buf));;;
    if zlen bs <? c then fail_with fmt EINVALIDULP else ret buf.

Definition fread_name (store : option bytes -> pstate -> pstate) (fmt_alloc fmt : string)
    : load bytes :=
  let! c := gets ps_c in fread_buf (u32 (c + 1)) store fmt_alloc fmt.

Definition load_header : load unit :=
  modify (upd_ulp (fun u => set_objs u None));;;
  fread_word 1 (fun t => upd_ulp (fun u => set_type u t)) "Unable to read patch type." EINVALIDULP;;;
  let! bs := fread_bytes 32 32 in
  modify (upd_ulp (fun u => set_patch_id u (splice 0 bs (patch_id u))));;;
  (if zlen bs <? 32 then fail_with "Unable to read patch id." EINVALIDULP else ret tt);;;
  fread_c "Unable to read so filename length.";;;
  fread_name (fun p => upd_ulp (fun u => set_so_filename u p))
    "Unable to allocate so filename buffer." "Unable to read so filename.";;;
  ret tt.

Definition load_object : load unit :=
  let! ok := calloc calloc_ok 1 in
  (if negb ok then fail_with "Unable to allocate memory for the patch objects." ENOMEM
   else ret tt);;;
  modify (upd_ulp (fun u => set_objs u (Some zero_object)));;;
  let! c := fread_c "Unable to read build id length (trigger)." in
  modify (upd_obj (fun o => set_build_id_len o c));;;
  (let! c := gets ps_c in
   fread_buf c (fun p => upd_obj (fun o => set_build_id o p))
     "Unable to allocate build id buffer." "Unable to read build id.");;;
  modify (upd_obj (fun o => set_build_id_check o 0));;;
  fread_c "Unable to read object name length.";;;
  fread_name (fun p => upd_obj (fun o => set_obj_name o p))
    "Unable to allocate object name buffer." "Unable to read object name.";;;
  ret tt.

Definition load_unit : load unit :=
  let! ok := calloc calloc_ok 1 in
  (if negb ok then fail_with "Unable to allocate memory for the patch units." ENOMEM
   else ret tt);;;
  fread_c "Unable to read unit old function name length.";;;
  let! old := fread_name local "Unable to allocate unit old function name buffer."
                "Unable to read unit old function name." in
  fread_c "Unable to read unit new function name length.";;;
  let! new := fread_name local "Unable to allocate unit new function name buffer."
                "Unable to read unit new function name." in
  let! addr := fread_word 8 local "Unable to read old function address." EINVALIDULP in
  modify (upd_obj (fun o => set_units o
    (units o ++ [{| old_fname := old; new_fname := new; old_faddr := addr |}]))).

Fixpoint load_deps (n : nat) (prev : bool) : load unit :=
  match n with
  | O => ret tt
  | S n =>
    let! ok := calloc calloc_ok 1 in
    (if negb ok then fail_with "Unable to allocate memory for dependency state." ENOMEM
     else ret tt);;;
    let! id := fread_bytes 32 32 in
    (if zlen id <? 32 then fail_with "Unable to read dependency patch id." EINVALIDULP
     else ret tt);;;
    let! chain := gets (fun s => deps (ps_ulp s)) in
    (if negb prev && negb (zlen chain =? 0) then undef else ret tt);;;
    modify (upd_ulp (fun u => set_deps u
      (deps u ++ [{| dep_id := id; patch_id_check := 0 |}])));;;
    load_deps n true
  end.

Definition load_body : load unit :=
  let! n := fread_word 4 (fun n => upd_obj (fun o => set_nunits o n))
              "Unable to read number of patching units." 1 in
  repeat_m (Z.to_nat n) load_unit;;;
  let! c := fread_c "Unable to read number of dependencies." in
  load_deps (Z.to_nat c) false.

Definition load_patch_info_m : load Z :=
  code (
    load_header;;;
    load_object;;;
    let! t := gets (fun s => type (ps_ulp s)) in
    (if t =? 2 then ret tt else load_body);;;
    ret 0).
End loader.

(** [load_patch_info_from_disk]: [contents] is [None] when the file cannot be
    opened; the state is that of the global [ulp]. *)
Definition load_patch_info_from_disk (calloc_ok : nat -> Z -> bool) (c0 : Z)
    (ulp : ulp_metadata) (contents : option bytes) : res Z Z * pstate :=
  let s := {| ps_cur := 0; ps_c := c0; ps_ulp := ulp; ps_nalloc := 0;
              ps_log := ["reading live patch metadata from %s."%string] |} in
  match contents with
  | None => (Ok ENOENT, add_log "Unable to open metadata file: %s." s)
  | Some file => load_patch_info_m calloc_ok file s
  end.

(** [load_patch_info_from_mem] on the same global. *)
Definition load_patch_info_from_mem (calloc_ok : nat -> Z -> bool) (c0 : Z)
    (ulp : ulp_metadata) (src : bytes) (size : Z) : res Z Z * pstate :=
  parse_metadata_from_mem calloc_ok c0 ulp src size.

(** ** Agreement with the parser *)

(** [m] succeeds wherever [m'] does, with the same result and state. *)
Definition follows {A} (m m' : st pstate Z A) : Prop :=
  forall s a s', m' s = (Ok a, s') -> m s = (Ok a, s').

Section agreement.
Variable calloc_ok : nat -> Z -> bool.
Variable file : bytes.

Lemma follows_refl {A} (m : st pstate Z A) : follows m m.
Proof. by intros s a s'. Qed.

Lemma follows_bind {A B} (m m' : st pstate Z A) (k k' : A -> st pstate Z B) :
  follows m m' -> (forall a, follows (k a) (k' a)) -> follows (bind m k) (bind m' k').
Proof.
  intros Hm Hk s b s'' H. apply bind_ok_inv in H as (a & s' & H1 & H2).
  rewrite (bind_ok _ _ _ _ _ (Hm _ _ _ H1)). by apply Hk.
Qed.

Lemma follows_if {A} (b : bool) (m m' k k' : st pstate Z A) :
  follows m m' -> follows k k' -> follows (if b then m else k) (if b then m' else k').
Proof. by destruct b. Qed.

Lemma follows_fail {A} (m : st pstate Z A) fmt e : follows m (fail_with fmt e).
Proof. by intros s a s' H. Qed.

(** A complete element is what the parser reads. *)
Lemma follows_word (n : nat) least x store fmt e :
  least <= Z.of_nat n ->
  follows (read_word file (zlen file) (Z.of_nat n) least x store fmt e)
          (fread_word file (Z.of_nat n) store fmt e).
Proof.
  intros Hl s a s' H. unfold fread_word, fread_bytes in H.
  apply bind_ok_inv in H as (bs & s1 & Hr & H). unfold read_word.
  rewrite (bind_ok _ _ _ _ _ Hr).
  destruct (Z.ltb_spec (zlen bs) (Z.of_nat n)) as [|Hn]; [done|].
  rewrite drop_ge, app_nil_r by (rewrite length_le_bytes; unfold zlen in Hn; lia).
  apply bind_ok_inv in H as ([] & s2 & H2 & H).
  rewrite (bind_ok _ _ _ _ _ H2), (proj2 (Z.ltb_ge (zlen bs) least)) by lia. done.
Qed.

Lemma follows_c least fmt :
  least <= 4 -> follows (read_c file (zlen file) least fmt) (fread_c file fmt).
Proof.
  intros Hl s a s' H. unfold read_c. rewrite (bind_ok (gets ps_c) _ s _ _ eq_refl).
  by apply (follows_word 4).
Qed.

Lemma follows_name store fa fmt :
  follows (read_name calloc_ok file (zlen file) store fa fmt) (fread_name calloc_ok file store fa fmt).
Proof. apply follows_refl. Qed.

Lemma follows_exact store fa fmt :
  follows (read_exact calloc_ok file (zlen file) store fa EINVALIDULP fmt)
          (let! c := gets ps_c in fread_buf calloc_ok file c store fa fmt).
Proof. apply follows_refl. Qed.

Lemma follows_repeat n m m' : follows m m' -> follows (@repeat_m pstate Z n m) (repeat_m n m').
Proof. intros Hm. induction n; simpl; [apply follows_refl|]. by apply follows_bind. Qed.

Ltac follow :=
  repeat first
    [ apply follows_refl
    | apply follows_name
    | apply follows_exact
    | apply follows_c; lia
    | apply (follows_word 8); lia
    | apply follows_bind; [|intros ?]
    | apply follows_if ].

Lemma follows_object : follows (parse_object calloc_ok file (zlen file)) (load_object calloc_ok file).
Proof. unfold parse_object, load_object. follow. Qed.

Lemma follows_unit : follows (parse_unit calloc_ok file (zlen file)) (load_unit calloc_ok file).
Proof. unfold parse_unit, load_unit. follow. Qed.

Lemma follows_deps n prev :
  follows (parse_deps calloc_ok file (zlen file) n prev) (load_deps calloc_ok file n prev).
Proof. revert prev. induction n; intros prev; simpl; follow. Qed.

(** The pointer stored is the buffer returned. *)
Lemma fread_name_stored store fa fmt s name s' :
  fread_name calloc_ok file store fa fmt s = (Ok name, s') ->
  exists s0, s' = store (Some name) s0.
Proof.
  unfold fread_name, fread_buf. intros H.
  apply bind_ok_inv in H as (c & s1 & _ & H). apply bind_ok_inv in H as (c' & s2 & _ & H).
  apply bind_ok_inv in H as (ok & s3 & _ & H). destruct ok; simpl negb in H; cbv iota in H; [|done].
  apply bind_ok_inv in H as (bs & s4 & _ & H). apply bind_ok_inv in H as ([] & s5 & E & H).
  destruct (zlen bs <? c'); [done|]. injection H as <- <-. injection E as <-. by exists s4.
Qed.

(** The header, but for the check of the empty path. *)
Lemma header_ok s s' p :
  load_header calloc_ok file s = (Ok tt, s') ->
  so_filename (ps_ulp s') = Some p -> hd 0 p <> 0 ->
  parse_header calloc_ok file (zlen file) s = (Ok tt, s').
Proof.
  intros H Hp Hne. unfold load_header in H. unfold parse_header.
  set (k := fun name : bytes => if hd 0 name =? 0 then _ else _).
  apply bind_ok_inv in H as ([] & s1 & E1 & H). step_bind E1.
  rewrite (bind_ok (gets _) _ s1 _ _ eq_refl).
  apply bind_ok_inv in H as (t & s2 & E2 & H).
  apply (follows_word 1 1 (type (ps_ulp s1))) in E2; [|lia].
  change (Z.of_nat 1) with 1 in E2. step_bind E2.
  apply bind_ok_inv in H as (bs & s3 & E3 & H). unfold fread_bytes in E3. step_bind E3.
  apply bind_ok_inv in H as ([] & s4 & E4 & H). step_bind E4.
  apply bind_ok_inv in H as ([] & s5 & E5 & H). step_bind E5.
  apply bind_ok_inv in H as (c & s6 & E6 & H).
  apply (follows_c 1) in E6; [|lia]. step_bind E6.
  apply bind_ok_inv in H as (name & s7 & E7 & H). injection H as <-.
  destruct (fread_name_stored _ _ _ _ _ _ E7) as (s8 & ->). injection Hp as <-.
  apply follows_name in E7. rewrite (bind_ok _ _ _ _ _ E7).
  unfold k. destruct (Z.eqb_spec (hd 0 name) 0); [done|reflexivity].
Qed.

Lemma body_ok s s' :
  load_body calloc_ok file s = (Ok tt, s') ->
  forall k : unit -> st pstate Z Z,
  bind (parse_body calloc_ok file (zlen file)) k s =
  bind (parse_references calloc_ok file (zlen file)) k s'.
Proof.
  intros H k. unfold load_body in H. unfold parse_body. autorewrite with ulp.
  apply bind_ok_inv in H as (n & s1 & E1 & H).
  rewrite (bind_ok (gets _) _ s _ _ eq_refl). autorewrite with ulp.
  apply (follows_word 4 1 (from_option nunits 0 (objs (ps_ulp s)))) in E1; [|lia].
  change (Z.of_nat 4) with 4 in E1. step_bind E1.
  apply bind_ok_inv in H as ([] & s2 & E2 & H).
  apply (follows_repeat _ _ _ follows_unit) in E2. autorewrite with ulp. step_bind E2.
  apply bind_ok_inv in H as (c & s3 & E3 & H).
  apply (follows_c 1) in E3; [|lia]. autorewrite with ulp. step_bind E3.
  apply follows_deps in H. autorewrite with ulp. by step_bind H.
Qed.
End agreement.

(** No failure of the loader is reported as success. *)
Definition errors_nonzero {A} (m : st pstate Z A) : Prop :=
  forall s e s', m s = (Err e, s') -> e <> 0.

Lemma errors_bind {A B} (m : st pstate Z A) (k : A -> st pstate Z B) :
  errors_nonzero m -> (forall a, errors_nonzero (k a)) -> errors_nonzero (bind m k).
Proof.
  intros Hm Hk s e s' H. unfold bind in H. destruct (m s) as [[] s1] eqn:E; try done.
  - by apply (Hk a s1 e s').
  - injection H as <- <-. by apply (Hm s e0 s1).
Qed.

Lemma errors_fail {A} fmt e : e <> 0 -> errors_nonzero (@fail_with A fmt e).
Proof. intros He s e' s' [= <- <-]. done. Qed.

Lemma errors_if {A} (b : bool) (m k : st pstate Z A) :
  errors_nonzero m -> errors_nonzero k -> errors_nonzero (if b then m else k).
Proof. by destruct b. Qed.

Lemma errors_ret {A} (a : A) : errors_nonzero (ret a).
Proof. by intros s e s'. Qed.
Lemma errors_gets {A} (f : pstate -> A) : errors_nonzero (gets f).
Proof. by intros s e s'. Qed.
Lemma errors_modify f : errors_nonzero (modify f).
Proof. by intros s e s'. Qed.
Lemma errors_calloc calloc_ok n : errors_nonzero (calloc calloc_ok n).
Proof. by intros s e s'. Qed.

Lemma errors_read src len cap n : errors_nonzero (read_from_mem src len cap n).
Proof. intros s e s'. unfold read_from_mem. by case_goal. Qed.

Lemma errors_undef {A} : errors_nonzero (@undef pstate Z A).
Proof. by intros s e s'. Qed.

Ltac errors :=
  repeat first
    [ apply errors_fail; done
    | apply errors_read | apply errors_undef
    | apply errors_ret | apply errors_gets | apply errors_modify | apply errors_calloc
    | apply errors_if
    | apply errors_bind; [|intros ?] ].

Lemma errors_repeat n m : errors_nonzero m -> errors_nonzero (repeat_m n m : st pstate Z unit).
Proof. intros. induction n; simpl; errors; done. Qed.

Lemma errors_unit calloc_ok file : errors_nonzero (load_unit calloc_ok file).
Proof. unfold load_unit. errors. Qed.

Lemma errors_deps calloc_ok file n prev : errors_nonzero (load_deps calloc_ok file n prev).
Proof. revert prev. induction n as [|n IH]; intros prev; simpl; errors. apply IH. Qed.

Lemma errors_load calloc_ok file :
  errors_nonzero (load_header calloc_ok file;;; load_object calloc_ok file;;;
    let! t := gets (fun s => type (ps_ulp s)) in
    (if t =? 2 then ret tt else load_body calloc_ok file);;; ret 0).
Proof.
  unfold load_header, load_object, load_body. errors.
  - apply errors_repeat, errors_unit.
  - apply errors_deps.
Qed.

(** C39. What the loader of metadata files accepts, the parser reads alike: when the
    loader succeeds on a file whose container path is not empty, the parser gives
    the same result on the same bytes for a revert patch, and for an apply patch it
    reaches the loader's state and goes on with the references. The converse
    does not hold, and an empty path is refused by the parser alone:
    [truncated_length_accepted], [empty_path_refused]. *)
Theorem disk_loader_agrees calloc_ok file s s' p
    (Hload : load_patch_info_m calloc_ok file s = (Ok 0, s'))
    (Hname : exists s1, load_header calloc_ok file s = (Ok tt, s1) /\
             so_filename (ps_ulp s1) = Some p /\ hd 0 p <> 0) :
  exists s2, (load_header calloc_ok file;;; load_object calloc_ok file) s = (Ok tt, s2) /\
  parse_metadata_m calloc_ok file (zlen file) s =
    code ((if type (ps_ulp s2) =? 2 then ret tt else parse_references calloc_ok file (zlen file));;; ret 0) s'.
Proof.
  destruct Hname as (s1 & E1 & Hp & Hne). unfold load_patch_info_m in Hload.
  set (m := bind _ _) in Hload. pose proof (errors_load calloc_ok file s) as Herr. fold m in Herr.
  assert (Hm : m s = (Ok 0, s')).
  { unfold code in Hload. destruct (m s) as [[] s0] eqn:E; try done.
    injection Hload as -> ->. by destruct (Herr _ _ eq_refl). }
  unfold m in Hm. rewrite (bind_ok _ _ _ _ _ E1) in Hm.
  apply bind_ok_inv in Hm as ([] & s2 & E2 & Hm).
  apply bind_ok_inv in Hm as (t & s3 & E3 & Hm). injection E3 as E3 <-.
  apply bind_ok_inv in Hm as ([] & s4 & E4 & Hm). injection Hm as ->.
  exists s2. split; [by rewrite (bind_ok _ _ _ _ _ E1)|]. unfold parse_metadata_m.
  rewrite (code_bind_ok _ _ _ _ _ (header_ok _ _ _ _ _ E1 Hp Hne)).
  rewrite (code_bind_ok _ _ _ _ _ (follows_object _ _ _ _ _ E2)).
  rewrite (code_bind_ok (gets _) _ s2 _ _ eq_refl), E3.
  unfold code. destruct (t =? 2).
  - rewrite (bind_ok _ _ _ _ _ E4). done.
  - by rewrite (body_ok _ _ _ _ E4).
Qed.

(** ** Where they differ *)

Definition any_calloc (n : nat) (size : Z) : bool := true.
Definition disk_start : pstate :=
  {| ps_cur := 0; ps_c := 0; ps_ulp := zero_metadata; ps_nalloc := 0; ps_log := [] |}.
Definition revert_file (path : bytes) : bytes :=
  2 :: replicate 32 0 ++ le_bytes 4 (zlen path) ++ path ++ le_bytes 4 1 ++ [7].

(** An empty container path is refused by the parser only. *)
Lemma empty_path_refused :
  let file := revert_file [] ++ le_bytes 4 1 ++ [110] in
  fst (parse_metadata_m any_calloc file (zlen file) disk_start) = Ok EINVALIDULP /\
  fst (load_patch_info_m any_calloc file disk_start) = Ok 0.
Proof. split; vm_compute; reflexivity. Qed.

(** A file that ends in the middle of the length of the object's name is refused by
    the loader only: the parser is content with one of the four bytes. *)
Lemma truncated_length_accepted :
  let file := revert_file [97] ++ [0] in
  fst (parse_metadata_m any_calloc file (zlen file) disk_start) = Ok 0 /\
  fst (load_patch_info_m any_calloc file disk_start) = Ok EINVALIDULP.
Proof. split; vm_compute; reflexivity. Qed.
