(* ===== verification/InsnQueue.v ===== *)
(** * The instruction queue between libpulp and the tool

    libpulp.so does not write code itself: it appends print and write
    instructions to [__ulp_insn_queue] (lib/insn_queue.c), and the tool, or the
    library when it is driven from a debugger, interprets them
    (common/insn_queue.c). The interpreter is parameterised by the backend that
    performs a write. *)

From stdpp Require Import gmap.
From S2P Require Import Prelude Errors Memory.

Open Scope ulp_scope.

(** ** The queue (include/insn_queue.h) *)

Definition INSN_BUFFER_MAX : Z := 2 * 1024 * 1024.
Definition INSNQ_CURR_VERSION : Z := 1.

Definition ULP_INSN_NOP : Z := 0.
Definition ULP_INSN_PRINT : Z := 1.
Definition ULP_INSN_WRITE : Z := 2.

(** [sizeof] of the three instruction structures and of the queue's header. *)
Definition sizeof_insn : Z := 4.
Definition sizeof_insn_print : Z := 4.
Definition sizeof_insn_write : Z := 16.
Definition offsetof_buffer : Z := 16.

Record insn_queue := {
  q_version : Z;
  q_num_insns : Z;
  q_size : Z;
  q_align : Z;
  q_buffer : bytes }.

Definition insnq_init : insn_queue :=
  {| q_version := INSNQ_CURR_VERSION; q_num_insns := 0; q_size := 0; q_align := 0;
     q_buffer := replicate (Z.to_nat INSN_BUFFER_MAX) 0 |}.

(** ** Insertion (lib/insn_queue.c) *)

Definition align_to (val bytes : Z) : Z :=
  let mask := bytes - 1 in Z.land (val + mask) (Z.lnot mask).

(** The area is named by its offset in the buffer; [size_t] arithmetic wraps. *)
Definition insnq_get_writable_area (queue : insn_queue) (msg_size : Z) : option Z * insn_queue :=
  let num_insns := q_num_insns queue in
  let size := q_size queue in
  if msg_size =? 0 then (None, queue)
  else if INSN_BUFFER_MAX <? u64 (msg_size + size) then (None, queue)
  else
    (Some size,
     {| q_version := q_version queue; q_num_insns := num_insns + 1;
        q_size := s32 (size + msg_size); q_align := q_align queue; q_buffer := q_buffer queue |}).

(** Store bytes into the buffer; an offset outside it is undefined. *)
Definition store_at (off : Z) (bs : bytes) (queue : insn_queue) : option insn_queue :=
  if (off <? 0) || (zlen (q_buffer queue) <? off + zlen bs) then None
  else Some {| q_version := q_version queue; q_num_insns := q_num_insns queue;
               q_size := q_size queue; q_align := q_align queue;
               q_buffer := splice (Z.to_nat off) bs (q_buffer queue) |}.

(** The type byte and the 24-bit size. *)
Definition insn_header (type size : Z) : bytes := type :: le_bytes 3 (wrap 24 size).

(** libpulp's globals the insertions touch: the queue and the error state. *)
Record qstate := { queue : insn_queue; diagnosis : diag }.

Definition set_queue q (s : qstate) : qstate := {| queue := q; diagnosis := diagnosis s |}.
Definition set_diagnosis d (s : qstate) : qstate := {| queue := queue s; diagnosis := d |}.

Abbreviation lib A := (st qstate Z A).

Definition store (off : Z) (bs : bytes) : lib unit := fun s =>
  match store_at off bs (queue s) with
  | Some q => (Ok tt, set_queue q s)
  | None => (Ub, s)
  end.

Definition get_area (msg_size : Z) : lib (option Z) := fun s =>
  let (area, q) := insnq_get_writable_area (queue s) msg_size in (Ok area, set_queue q s).

Definition fail_state (e : Z) : lib unit :=
  modify (fun s => set_diagnosis (set_libpulp_error_state e (diagnosis s)) s).

Definition insnq_insert_print (string : bytes) : lib Z :=
  let string_size := zlen (cstr string) + 1 in
  let insn_size := align_to (sizeof_insn_print + string_size) 4 in
  let! insn := get_area (u64 insn_size) in
  match insn with
  | None => fail_state EINSNQ;;; ret EINSNQ
  | Some insn =>
    store insn (insn_header ULP_INSN_PRINT insn_size);;;
    store (insn + sizeof_insn_print) (cstr string ++ [0]);;;
    ret ENONE
  end.

(** [bytes] is what the source pointer reads; fewer than [n] is undefined. *)
Definition insnq_insert_write (addr n : Z) (bytes : list Z) : lib Z :=
  let insn_size := align_to (s32 (sizeof_insn_write + n)) 8 in
  let! insn := get_area (u64 insn_size) in
  match insn with
  | None => fail_state EINSNQ;;; ret EINSNQ
  | Some insn =>
    store insn (insn_header ULP_INSN_WRITE insn_size);;;
    store (insn + 4) (le_bytes 4 (u32 n));;;
    store (insn + 8) (le_bytes 8 (u64 addr));;;
    if (n <? 0) || (zlen bytes <? n) then undef
    else store (insn + sizeof_insn_write) (take (Z.to_nat n) bytes);;; ret ENONE
  end.

Definition insnq_ensure_emptiness : lib Z :=
  let! queue := gets queue in
  if (0 <? q_num_insns queue) || (0 <? q_size queue) then
    modify (fun s => set_diagnosis
      (push_msg "WARN: instruction queue not empty. This is an indication that something went wrong on ulp side."
         (diagnosis s)) s);;;
    fail_state EINSNQ;;; ret 1
  else ret 0.

(** ** The interpreter (common/insn_queue.c) *)

(** What performs a write instruction: given its size, address and bytes, it
    returns what is added to the program counter. *)
Class WriteBackend (W : Type) := {
  insn_interpret_write : Z -> Z -> bytes -> W -> Z * W }.

Record istate (W : Type) := {
  world : W;
  output : list bytes;     (** the lines printed, newest first *)
  warnings : list string }.
Arguments world {W} _.
Arguments output {W} _.
Arguments warnings {W} _.

Section interpreter.
Context {W : Type} `{WriteBackend W}.

Abbreviation interp A := (st (istate W) Z A).

Definition iwarn (fmt : string) : interp unit :=
  modify (fun s => {| world := world s; output := output s; warnings := fmt :: warnings s |}).

Definition print_line (l : bytes) : interp unit :=
  modify (fun s => {| world := world s; output := l :: output s; warnings := warnings s |}).

(** [n] bytes of the buffer at [off]; outside of it is undefined. *)
Definition load (buffer : bytes) (off n : Z) : interp bytes :=
  if (off <? 0) || (n <? 0) || (zlen buffer <? off + n) then undef
  else ret (slice (Z.to_nat off) (Z.to_nat n) buffer).

(** The signed 24-bit field [size] of the instruction at [pc]. *)
Definition insn_size (buffer : bytes) (pc : Z) : interp Z :=
  let! bs := load buffer (pc + 1) 3 in ret (swrap 24 (le_val bs)).

Definition ulp_insn_valid (type : Z) : bool :=
  (type =? ULP_INSN_NOP) || (type =? ULP_INSN_PRINT) || (type =? ULP_INSN_WRITE).

Definition insn_interpret_nop : interp Z := ret sizeof_insn.

Definition insn_interpret_print (buffer : bytes) (pc : Z) : interp Z :=
  let! text := load buffer (pc + sizeof_insn_print) (zlen buffer - (pc + sizeof_insn_print)) in
  (if zlen (cstr text) <? zlen text then print_line (cstr text) else undef);;;
  insn_size buffer pc.

Definition interpret_write (buffer : bytes) (pc : Z) : interp Z :=
  let! size := insn_size buffer pc in
  let! n := load buffer (pc + 4) 4 in
  let! address := load buffer (pc + 8) 8 in
  let! bs := load buffer (pc + sizeof_insn_write) (le_val n) in
  fun s =>
    let (r, w) := insn_interpret_write size (le_val address) bs (world s) in
    (Ok r, {| world := w; output := output s; warnings := warnings s |}).

(** The table [decoders]. *)
Definition insn_interpret (buffer : bytes) (pc type : Z) : interp Z :=
  if type =? ULP_INSN_NOP then insn_interpret_nop
  else if type =? ULP_INSN_PRINT then insn_interpret_print buffer pc
  else if type =? ULP_INSN_WRITE then interpret_write buffer pc
  else undef.

(** The loop: [n] instructions are left to execute, from [pc]; the result is
    the program counter. *)
Fixpoint interpret_loop (buffer : bytes) (n : nat) (pc : Z) : interp Z :=
  match n with
  | O => ret pc
  | S n =>
    let! t := load buffer pc 1 in
    let type := le_val t in
    if ulp_insn_valid type then
      let! d := insn_interpret buffer pc type in
      interpret_loop buffer n (s32 (pc + d))
    else
      iwarn "insnq: invalid insn with opcode %d. Further insns will be ignored.";;;
      throw EINSNQ
  end.

(** The number of instructions executed is [num_insns] when the loop ends,
    or 0 when [num_insns] is negative. *)
Definition insnq_interpret (queue : insn_queue) : interp Z := code (
  let num_insns := q_num_insns queue in
  let! pc := interpret_loop (q_buffer queue) (Z.to_nat num_insns) 0 in
  if negb (pc =? q_size queue) then
    iwarn "insnq: there are bytes left in the instruction queue";;; throw EINSNQ
  else if negb (Z.max 0 num_insns =? num_insns) then
    iwarn "insnq: not all instructions executed";;; throw EINSNQ
  else ret 0).
End interpreter.

(** ** Specification: the queue is a list of instructions *)

Inductive insn := IPrint (s : bytes) | IWrite (addr : Z) (bs : bytes).

Definition isize (i : insn) : Z :=
  match i with
  | IPrint s => align_to (sizeof_insn_print + (zlen s + 1)) 4
  | IWrite _ bs => align_to (sizeof_insn_write + zlen bs) 8
  end.

Definition encode (i : insn) : bytes :=
  match i with
  | IPrint s => insn_header ULP_INSN_PRINT (isize i) ++ s ++ [0]
  | IWrite a bs => insn_header ULP_INSN_WRITE (isize i) ++ le_bytes 4 (zlen bs) ++ le_bytes 8 a ++ bs
  end.

Definition insn_ok (i : insn) : Prop :=
  match i with
  | IPrint s => no_nul s /\ zlen s < 2 ^ 31 - 16
  | IWrite a bs => in_u 64 a /\ zlen bs < 2 ^ 31 - 32
  end.

(** [bs] is in the buffer at [off]. *)
Definition found (buf : bytes) (off : Z) (bs : bytes) : Prop :=
  0 <= off /\ off + zlen bs <= zlen buf /\ slice (Z.to_nat off) (length bs) buf = bs.

(** From [pc] to [e] the buffer holds the instructions. *)
Inductive stored (buf : bytes) : Z -> list insn -> Z -> Prop :=
| stored_nil pc : stored buf pc [] pc
| stored_cons pc i l e :
    found buf pc (encode i) -> stored buf (pc + isize i) l e -> stored buf pc (i :: l) e.

Record queue_holds (q : insn_queue) (l : list insn) : Prop := {
  holds_buffer : zlen (q_buffer q) = INSN_BUFFER_MAX;
  holds_num : q_num_insns q = zlen l;
  holds_size : 0 <= q_size q <= INSN_BUFFER_MAX;
  holds_stored : stored (q_buffer q) 0 l (q_size q);
  holds_ok : Forall insn_ok l }.

Lemma align_to_spec k v : 0 <= k -> align_to v (2 ^ k) = (v + (2 ^ k - 1)) - (v + (2 ^ k - 1)) mod 2 ^ k.
Proof.
  intros Hk. unfold align_to. replace (2 ^ k - 1) with (Z.ones k) by (rewrite Z.ones_equiv; lia).
  rewrite <- Z.ldiff_land, Z.ldiff_ones_r, Z.shiftl_mul_pow2, Z.shiftr_div_pow2 by lia.
  pose proof (Z.div_mod (v + Z.ones k) (2 ^ k)). lia.
Qed.

Lemma align_to_bounds k v : 0 <= k ->
  v <= align_to v (2 ^ k) < v + 2 ^ k /\ align_to v (2 ^ k) mod 2 ^ k = 0.
Proof.
  intros Hk. rewrite align_to_spec by done. pose proof (Z.mod_pos_bound (v + (2 ^ k - 1)) (2 ^ k)).
  split; [lia|]. rewrite Zminus_mod_idemp_r. rewrite Z.sub_diag. apply Z.mod_0_l. lia.
Qed.

Lemma encode_length i :
  insn_ok i -> zlen (encode i) = match i with IPrint s => 5 + zlen s | IWrite _ bs => 16 + zlen bs end.
Proof.
  intros _. destruct i; unfold encode, insn_header; autorewrite with ulp;
    rewrite ?zlen_le_bytes; change (zlen (@nil Z)) with 0; lia.
Qed.

Lemma isize_bounds i : insn_ok i -> zlen (encode i) <= isize i < 2 ^ 31 /\ 5 <= isize i.
Proof.
  intros Hi. rewrite (encode_length i Hi).
  destruct i as [s|a bs]; simpl in *; unfold sizeof_insn_print, sizeof_insn_write.
  - pose proof (align_to_bounds 2 (4 + (zlen s + 1)) ltac:(lia)). pose proof (zlen_nonneg s).
    change (2 ^ 2) with 4 in *. lia.
  - pose proof (align_to_bounds 3 (16 + zlen bs) ltac:(lia)). pose proof (zlen_nonneg bs).
    change (2 ^ 3) with 8 in *. lia.
Qed.

Lemma stored_range buf pc l e : Forall insn_ok l -> stored buf pc l e -> pc <= e.
Proof.
  intros Hl Hs. induction Hs as [|pc i l e _ _ IH]; [lia|].
  inversion Hl; subst. pose proof (isize_bounds i ltac:(done)). specialize (IH ltac:(done)). lia.
Qed.

(** What is stored below [off] is not touched by a store at [off]. *)
Lemma found_frame buf off bs pc x :
  0 <= off -> off + zlen bs <= zlen buf -> pc + zlen x <= off -> found buf pc x ->
  found (splice (Z.to_nat off) bs buf) pc x.
Proof.
  intros Ho Hb Hp (H0 & H1 & H2). unfold zlen in *.
  split; [done|]. split; [unfold zlen in *; rewrite length_splice; lia|].
  rewrite <- H2 at 2. unfold slice, splice.
  rewrite drop_app_le by (rewrite length_take; lia).
  rewrite take_app_le by (rewrite length_drop, length_take; lia).
  rewrite skipn_firstn_comm, take_take. f_equal. lia.
Qed.

Lemma stored_frame buf off bs pc l e :
  Forall insn_ok l -> 0 <= off -> off + zlen bs <= zlen buf -> e <= off ->
  stored buf pc l e -> stored (splice (Z.to_nat off) bs buf) pc l e.
Proof.
  intros Hl Ho Hb He Hs. induction Hs as [|pc i l e Hf Hs IH]; [constructor|].
  inversion Hl; subst. pose proof (isize_bounds i ltac:(done)).
  pose proof (stored_range _ _ _ _ ltac:(done) Hs).
  constructor; [apply found_frame; [done|done|lia|done]|auto].
Qed.

Lemma stored_app buf pc l e i :
  stored buf pc l e -> found buf e (encode i) -> stored buf pc (l ++ [i]) (e + isize i).
Proof. intros Hs Hf. induction Hs; simpl; constructor; auto using stored_nil. Qed.

Lemma found_splice buf off bs :
  0 <= off -> off + zlen bs <= zlen buf -> found (splice (Z.to_nat off) bs buf) off bs.
Proof.
  intros Ho Hb. unfold zlen in *. split; [done|]. split.
  - unfold zlen. rewrite length_splice; lia.
  - apply slice_splice. lia.
Qed.

(** ** Insertion refines appending to the list *)

Definition insert (i : insn) : lib Z :=
  match i with
  | IPrint s => insnq_insert_print s
  | IWrite a bs => insnq_insert_write a (zlen bs) bs
  end.

Definition with_buffer (b : bytes) (q : insn_queue) : insn_queue :=
  {| q_version := q_version q; q_num_insns := q_num_insns q; q_size := q_size q;
     q_align := q_align q; q_buffer := b |}.

Lemma store_ok off bs s :
  0 <= off -> off + zlen bs <= zlen (q_buffer (queue s)) ->
  store off bs s =
  (Ok tt, set_queue (with_buffer (splice (Z.to_nat off) bs (q_buffer (queue s))) (queue s)) s).
Proof.
  intros H1 H2. unfold store, store_at.
  by rewrite (proj2 (Z.ltb_ge off 0)), (proj2 (Z.ltb_ge (zlen (q_buffer (queue s))) _)) by lia.
Qed.

Lemma store_store {B} off a b s (k : unit -> lib B) :
  0 <= off -> off + zlen a + zlen b <= zlen (q_buffer (queue s)) ->
  bind (store off a) (fun _ => bind (store (off + zlen a) b) k) s =
  bind (store off (a ++ b)) k s.
Proof.
  intros H1 H2. pose proof (zlen_nonneg a). pose proof (zlen_nonneg b).
  rewrite (bind_ok _ _ _ _ _ (store_ok off a s H1 ltac:(lia))).
  rewrite (bind_ok _ _ _ _ _ (store_ok off (a ++ b) s H1 ltac:(rewrite zlen_app; lia))).
  erewrite bind_ok; [|apply store_ok; [lia|]].
  2:{ simpl. unfold zlen in *. rewrite length_splice by lia. lia. }
  f_equal. unfold set_queue, with_buffer. simpl. do 2 f_equal.
  replace (Z.to_nat (off + zlen a)) with (Z.to_nat off + length a)%nat by (unfold zlen in *; lia).
  apply splice_splice. unfold zlen in *. lia.
Qed.

(** The area for an instruction that fits, and for one that does not. *)
Lemma get_area_fits s n :
  0 < n < 2 ^ 31 -> 0 <= q_size (queue s) <= INSN_BUFFER_MAX ->
  q_size (queue s) + n <= INSN_BUFFER_MAX ->
  get_area (u64 n) s =
  (Ok (Some (q_size (queue s))),
   set_queue {| q_version := q_version (queue s); q_num_insns := q_num_insns (queue s) + 1;
                q_size := q_size (queue s) + n; q_align := q_align (queue s);
                q_buffer := q_buffer (queue s) |} s).
Proof.
  unfold INSN_BUFFER_MAX. intros Hn Hs Hfit. unfold get_area, insnq_get_writable_area, INSN_BUFFER_MAX.
  rewrite !(wrap_id 64) by (unfold in_u; rewrite ?wrap_id; unfold in_u; lia).
  rewrite (proj2 (Z.eqb_neq n 0)), (proj2 (Z.ltb_ge _ _)) by lia.
  by rewrite swrap_id by (unfold in_s; lia).
Qed.

Lemma get_area_full s n :
  0 < n < 2 ^ 31 -> 0 <= q_size (queue s) <= INSN_BUFFER_MAX ->
  INSN_BUFFER_MAX < q_size (queue s) + n ->
  get_area (u64 n) s = (Ok None, s).
Proof.
  unfold INSN_BUFFER_MAX. intros Hn Hs Hfit. unfold get_area, insnq_get_writable_area, INSN_BUFFER_MAX.
  rewrite !(wrap_id 64) by (unfold in_u; rewrite ?wrap_id; unfold in_u; lia).
  rewrite (proj2 (Z.eqb_neq n 0)), (proj2 (Z.ltb_lt _ _)) by lia. by destruct s.
Qed.

(** The queue after the instruction's bytes are stored at its end. *)
Definition appended (i : insn) (s : qstate) : qstate :=
  set_queue {| q_version := q_version (queue s); q_num_insns := q_num_insns (queue s) + 1;
               q_size := q_size (queue s) + isize i; q_align := q_align (queue s);
               q_buffer := splice (Z.to_nat (q_size (queue s))) (encode i) (q_buffer (queue s)) |} s.

Lemma insert_fits i s l :
  queue_holds (queue s) l -> insn_ok i -> q_size (queue s) + isize i <= INSN_BUFFER_MAX ->
  insert i s = (Ok ENONE, appended i s).
Proof.
  intros [Hb _ Hs _ _] Hi Hfit. pose proof (isize_bounds i Hi) as [Hsz Hpos].
  pose proof (get_area_fits s (isize i) ltac:(lia) Hs Hfit) as Harea.
  rewrite (encode_length i Hi) in Hsz. pose proof Hi as Hok.
  destruct i as [str|a bs]; unfold insert, insnq_insert_print, insnq_insert_write.
  - destruct Hi as [Hnn _]. rewrite cstr_id by done. cbv zeta.
    fold (isize (IPrint str)). rewrite (bind_ok _ _ _ _ _ Harea).
    change (q_size (queue s) + sizeof_insn_print) with
      (q_size (queue s) + zlen (insn_header ULP_INSN_PRINT (isize (IPrint str)))).
    rewrite store_store.
    + erewrite bind_ok; [reflexivity|]. rewrite store_ok; [reflexivity|lia|].
      change (insn_header ULP_INSN_PRINT (isize (IPrint str)) ++ str ++ [0]) with (encode (IPrint str)).
      rewrite (encode_length _ Hok). cbn [queue set_queue q_buffer]. lia.
    + cbn [queue set_queue q_buffer]. lia.
    + cbn [queue set_queue q_buffer]. change (zlen (insn_header _ _)) with 4. rewrite zlen_app. change (zlen [0]) with 1. lia.
  - destruct Hi as [Ha Hbs]. rewrite swrap_id by (unfold in_s, sizeof_insn_write; pose proof (zlen_nonneg bs); lia).
    cbv zeta. fold (isize (IWrite a bs)). rewrite (bind_ok _ _ _ _ _ Harea).
    pose proof (zlen_nonneg bs).
    rewrite (wrap_id 32), (wrap_id 64) by (done || (unfold in_u; lia)).
    rewrite (proj2 (Z.ltb_ge (zlen bs) 0)), Z.ltb_irrefl by lia. cbn [orb].
    rewrite zlen_nat, firstn_all.
    set (h := insn_header ULP_INSN_WRITE (isize (IWrite a bs))) in *.
    change (q_size (queue s) + 4) with (q_size (queue s) + zlen h).
    rewrite store_store; [|cbn [queue set_queue q_buffer]; lia|cbn [queue set_queue q_buffer]; change (zlen h) with 4; rewrite zlen_le_bytes; lia].
    change (q_size (queue s) + 8) with (q_size (queue s) + zlen (h ++ le_bytes 4 (zlen bs))).
    rewrite store_store; [|cbn [queue set_queue q_buffer]; lia|].
    2:{ cbn [queue set_queue q_buffer]. change (zlen (h ++ _)) with 8. rewrite zlen_le_bytes. lia. }
    change (q_size (queue s) + sizeof_insn_write) with
      (q_size (queue s) + zlen ((h ++ le_bytes 4 (zlen bs)) ++ le_bytes 8 a)).
    rewrite store_store; [|cbn [queue set_queue q_buffer]; lia|].
    2:{ cbn [queue set_queue q_buffer]. change (zlen ((h ++ _) ++ _)) with 16. lia. }
    rewrite <- !app_assoc. fold (encode (IWrite a bs)).
    erewrite bind_ok; [reflexivity|]. rewrite store_ok; [reflexivity|cbn [queue set_queue q_buffer]; lia|].
    change (h ++ le_bytes 4 (zlen bs) ++ le_bytes 8 a ++ bs) with (encode (IWrite a bs)).
    rewrite (encode_length _ Hok). cbn [queue set_queue q_buffer]. lia.
Qed.

Lemma insert_full i s l :
  queue_holds (queue s) l -> insn_ok i -> INSN_BUFFER_MAX < q_size (queue s) + isize i ->
  insert i s = (Ok EINSNQ, set_diagnosis (set_libpulp_error_state EINSNQ (diagnosis s)) s).
Proof.
  intros [Hb _ Hs _ _] Hi Hfit. pose proof (isize_bounds i Hi) as [Hsz Hpos].
  pose proof (get_area_full s (isize i) ltac:(lia) Hs Hfit) as Harea.
  destruct i as [str|a bs]; unfold insert, insnq_insert_print, insnq_insert_write.
  - destruct Hi as [Hnn _]. rewrite cstr_id by done. cbv zeta.
    fold (isize (IPrint str)). by rewrite (bind_ok _ _ _ _ _ Harea).
  - rewrite (encode_length _ Hi) in Hsz.
    rewrite swrap_id by (unfold in_s, sizeof_insn_write; pose proof (zlen_nonneg bs); lia).
    cbv zeta. fold (isize (IWrite a bs)). by rewrite (bind_ok _ _ _ _ _ Harea).
Qed.

Lemma appended_holds i s l :
  queue_holds (queue s) l -> insn_ok i -> q_size (queue s) + isize i <= INSN_BUFFER_MAX ->
  queue_holds (queue (appended i s)) (l ++ [i]).
Proof.
  intros [Hb Hn Hs Hst Hok] Hi Hfit. pose proof (isize_bounds i Hi) as [Hsz Hpos].
  split; simpl.
  - unfold zlen in *. rewrite length_splice; lia.
  - rewrite Hn, zlen_app. done.
  - lia.
  - apply stored_app; [apply stored_frame; lia || done|]. apply found_splice; lia.
  - apply Forall_app. split; [done|]. by constructor.
Qed.

(** Any sequence of insertions, the results discarded as [memwrite] does not. *)
Definition insert_all (l : list insn) : lib unit :=
  for_each l (fun i => insert i;;; ret tt).

Definition total_size (l : list insn) : Z := fold_right (fun i n => isize i + n) 0 l.

Lemma total_size_app l k : total_size (l ++ k) = total_size l + total_size k.
Proof. induction l; simpl; lia. Qed.

Lemma total_size_nonneg l : Forall insn_ok l -> 0 <= total_size l.
Proof.
  induction 1 as [|i l Hi _ IH]; simpl; [lia|]. pose proof (isize_bounds i Hi). lia.
Qed.

Lemma insert_all_holds l s l0 :
  queue_holds (queue s) l0 -> Forall insn_ok l ->
  q_size (queue s) + total_size l <= INSN_BUFFER_MAX ->
  exists s', insert_all l s = (Ok tt, s') /\ queue_holds (queue s') (l0 ++ l) /\
             diagnosis s' = diagnosis s.
Proof.
  intros Hq Hl. revert s l0 Hq. induction Hl as [|i l Hi Hl IH]; intros s l0 Hq Hsz; simpl.
  - exists s. by rewrite app_nil_r.
  - simpl in Hsz. pose proof (total_size_nonneg l Hl).
    destruct (IH (appended i s) (l0 ++ [i])) as (s' & E & Hq' & Hd).
    + apply appended_holds; [done|done|lia].
    + simpl. lia.
    + exists s'. change (insert_all (i :: l)) with ((insert i;;; ret tt);;; insert_all l).
      rewrite bind_assoc, (bind_ok _ _ _ _ _ (insert_fits i s l0 Hq Hi ltac:(lia))), ret_bind.
      rewrite <- app_assoc in Hq'. done.
Qed.

(** ** The interpreter runs the list *)

(** What a backend promises: a write it accepts returns the instruction's size
    and stores the bytes, and later writes stay accepted. *)
Class BackendLaws (W : Type) `{WriteBackend W} := {
  memory : W -> mem;
  accepts : W -> Z -> bytes -> Prop;
  write_law : forall size a bs w, accepts w a bs ->
    exists w', insn_interpret_write size a bs w = (size, w') /\
      memory w' = mem_write a bs (memory w) /\
      (forall a' bs', accepts w a' bs' -> accepts w' a' bs') }.

(** The effect of the instructions on memory and on the terminal. *)
Definition written (l : list insn) (m : mem) : mem :=
  fold_left (fun m i => match i with IPrint _ => m | IWrite a bs => mem_write a bs m end) l m.

Definition printed (l : list insn) : list bytes :=
  flat_map (fun i => match i with IPrint s => [s] | IWrite _ _ => [] end) l.

Section interpretation.
Context {W : Type} `{BackendLaws W}.

Lemma load_found buf off bs n :
  found buf off bs -> n = zlen bs -> load (W := W) buf off n = ret bs.
Proof.
  intros (H1 & H2 & H3) ->. unfold load. pose proof (zlen_nonneg bs).
  rewrite (proj2 (Z.ltb_ge off 0)), (proj2 (Z.ltb_ge (zlen bs) 0)), (proj2 (Z.ltb_ge (zlen buf) _))
    by lia. cbn [orb]. by rewrite zlen_nat, H3.
Qed.

Lemma found_app buf off a b :
  found buf off (a ++ b) -> found buf off a /\ found buf (off + zlen a) b.
Proof.
  intros (H1 & H2 & H3). rewrite zlen_app in H2. pose proof (zlen_nonneg a). pose proof (zlen_nonneg b).
  unfold slice in H3. rewrite length_app in H3. split; (split; [lia|]; split; [lia|]); unfold slice.
  - apply (f_equal (take (length a))) in H3. rewrite take_take, Nat.min_l, take_app_length in H3 by lia.
    done.
  - apply (f_equal (drop (length a))) in H3.
    rewrite skipn_firstn_comm, drop_drop, drop_app_length in H3.
    replace (Z.to_nat (off + zlen a)) with (Z.to_nat off + length a)%nat by (unfold zlen; lia).
    rewrite <- H3 at 2. f_equal. lia.
Qed.

Lemma insn_size_found buf pc type size rest :
  found buf pc (insn_header type size ++ rest) -> 0 <= size < 2 ^ 23 ->
  insn_size (W := W) buf pc = ret size.
Proof.
  intros Hf Hs. unfold insn_header in Hf. change (type :: ?x) with ([type] ++ x) in Hf.
  rewrite <- app_assoc in Hf. apply found_app in Hf as [_ Hf]. apply found_app in Hf as [Hf _].
  unfold insn_size. change (zlen [type]) with 1 in Hf.
  rewrite (load_found _ _ _ _ Hf) by (by rewrite zlen_le_bytes).
  rewrite wrap_id by (unfold in_u; lia).
  unfold bind, ret. rewrite le_val_bytes by (change (256 ^ Z.of_nat 3) with (2 ^ 24); lia). by rewrite swrap_id by (unfold in_s; lia).
Qed.

(** The text of a print instruction ends before the buffer does. *)
Lemma print_text buf off s :
  found buf off (s ++ [0]) -> no_nul s ->
  load (W := W) buf off (zlen buf - off) = ret (drop (Z.to_nat off) buf) /\
  cstr (drop (Z.to_nat off) buf) = s /\ zlen s < zlen (drop (Z.to_nat off) buf).
Proof.
  intros (H1 & H2 & H3) Hn. rewrite zlen_app in H2. change (zlen [0]) with 1 in H2.
  pose proof (zlen_nonneg s).
  assert (Hd : drop (Z.to_nat off) buf = (s ++ [0]) ++ drop (length (s ++ [0])) (drop (Z.to_nat off) buf)).
  { rewrite <- H3 at 1. unfold slice. by rewrite take_drop. }
  split; [|split].
  - unfold load. rewrite (proj2 (Z.ltb_ge off 0)), (proj2 (Z.ltb_ge (zlen buf - off) 0)),
      (proj2 (Z.ltb_ge (zlen buf) _)) by lia. cbn [orb]. unfold slice.
    rewrite take_ge; [done|]. rewrite length_drop. unfold zlen. lia.
  - rewrite Hd, <- app_assoc. by apply cstr_nul.
  - rewrite zlen_drop by lia. lia.
Qed.

(** A write instruction is decoded into the arguments of the backend. *)
Lemma interpret_write_found buf pc a bs s :
  found buf pc (encode (IWrite a bs)) -> insn_ok (IWrite a bs) -> isize (IWrite a bs) < 2 ^ 23 ->
  load buf pc 1 s = (Ok [ULP_INSN_WRITE], s) /\
  insn_interpret buf pc ULP_INSN_WRITE s =
  (let (r, w) := insn_interpret_write (isize (IWrite a bs)) a bs (world s) in
   (Ok r, {| world := w; output := output s; warnings := warnings s |})).
Proof.
  intros Hf Hi Hsz. pose proof (isize_bounds _ Hi) as [_ Hpos].
  destruct Hi as [Ha Hb]. pose proof (zlen_nonneg bs).
  pose proof (found_app _ _ _ _ Hf) as [Hh Ht].
  pose proof (found_app _ _ [ULP_INSN_WRITE] _ Hh) as [Hty _].
  change (zlen (insn_header _ _)) with 4 in Ht.
  apply found_app in Ht as [Hn Ht]. rewrite zlen_le_bytes in Ht.
  apply found_app in Ht as [Hadr Ht]. rewrite zlen_le_bytes in Ht.
  split; [by rewrite (load_found _ _ _ _ Hty)|].
  change (insn_interpret buf pc ULP_INSN_WRITE) with (interpret_write buf pc).
  unfold interpret_write. rewrite (insn_size_found _ _ _ _ _ Hf), ret_bind by lia.
  rewrite (load_found _ _ _ _ Hn) by (by rewrite zlen_le_bytes). rewrite ret_bind.
  replace (pc + 8) with (pc + 4 + 4) by lia.
  change (Z.of_nat 4) with 4 in Hadr, Ht. change (Z.of_nat 8) with 8 in Ht.
  rewrite (load_found _ _ _ _ Hadr) by (by rewrite zlen_le_bytes). rewrite ret_bind.
  rewrite !le_val_bytes by (unfold in_u in *; change (256 ^ Z.of_nat 8) with (2 ^ 64);
    change (256 ^ Z.of_nat 4) with (2 ^ 32); lia).
  replace (pc + sizeof_insn_write) with (pc + 4 + 4 + 8) by (unfold sizeof_insn_write; lia).
  rewrite (load_found _ _ _ _ Ht) by done. by rewrite ret_bind.
Qed.

(** What the accepted writes of the backend keep. *)
Definition kept_by_writes (P : W -> Prop) : Prop :=
  forall size a bs w, accepts w a bs -> P w -> P (insn_interpret_write size a bs w).2.

Lemma interpret_one buf pc i s :
  found buf pc (encode i) -> insn_ok i -> isize i < 2 ^ 23 ->
  match i with IPrint _ => True | IWrite a bs => accepts (world s) a bs end ->
  exists t s', load buf pc 1 s = (Ok [t], s) /\ ulp_insn_valid t = true /\
    insn_interpret buf pc t s = (Ok (isize i), s') /\ warnings s' = warnings s /\
    memory (world s') = written [i] (memory (world s)) /\ output s' = rev (printed [i]) ++ output s /\
    (forall a bs, accepts (world s) a bs -> accepts (world s') a bs) /\
    (forall P, kept_by_writes P -> P (world s) -> P (world s')).
Proof.
  intros Hf Hi Hsz Hacc. pose proof (isize_bounds i Hi) as [_ Hpos]. destruct i as [t|a bs].
  - destruct Hi as [Hn _]. exists ULP_INSN_PRINT. eexists.
    pose proof (found_app _ _ _ _ Hf) as [Hh Ht]. pose proof (found_app _ _ [ULP_INSN_PRINT] _ Hh) as [Hty _].
    rewrite (load_found _ _ _ _ Hty) by done. split; [done|]. split; [done|].
    change (zlen (insn_header _ _)) with 4 in Ht.
    destruct (print_text _ _ _ Ht Hn) as (Hl & Hc & Hlt).
    change (insn_interpret buf pc ULP_INSN_PRINT) with (insn_interpret_print (W := W) buf pc).
    unfold insn_interpret_print, sizeof_insn_print. rewrite Hl, ret_bind, Hc.
    rewrite (proj2 (Z.ltb_lt (zlen t) _)) by done.
    rewrite (bind_ok (print_line t) _ s _ _ eq_refl), (insn_size_found _ _ _ _ _ Hf) by lia.
    split; [reflexivity|]. done.
  - destruct (interpret_write_found buf pc a bs s Hf Hi Hsz) as [Hl Hint].
    destruct (write_law (isize (IWrite a bs)) a bs (world s) Hacc) as (w' & Hw & Hm & Hstay).
    exists ULP_INSN_WRITE. eexists. rewrite Hint, Hw. split; [done|]. split; [done|].
    split; [reflexivity|]. split_and!; [done..|].
    intros P HP Hw0. specialize (HP (isize (IWrite a bs)) a bs (world s) Hacc Hw0). by rewrite Hw in HP.
Qed.
End interpretation.

Lemma written_cons i l m : written (i :: l) m = written l (written [i] m).
Proof. done. Qed.

Section run.
Context {W : Type} `{BackendLaws W}.

Lemma interpret_loop_run buf pc l e s :
  stored buf pc l e -> Forall insn_ok l -> 0 <= pc -> e <= INSN_BUFFER_MAX ->
  Forall (fun i => match i with IPrint _ => True | IWrite a bs => accepts (world s) a bs end) l ->
  exists s', interpret_loop buf (length l) pc s = (Ok e, s') /\ warnings s' = warnings s /\
    memory (world s') = written l (memory (world s)) /\ output s' = rev (printed l) ++ output s /\
    (forall P, kept_by_writes P -> P (world s) -> P (world s')).
Proof.
  unfold INSN_BUFFER_MAX. intros Hs. revert s.
  induction Hs as [|pc i l e Hf Hs IH]; intros s Hok Hpc He Hacc.
  - by exists s.
  - inversion_clear Hok as [|? ? Hi Hok']. inversion_clear Hacc as [|? ? Ha Hacc'].
    pose proof (isize_bounds i Hi). pose proof (stored_range _ _ _ _ Hok' Hs).
    destruct (interpret_one buf pc i s Hf Hi ltac:(lia) Ha)
      as (t & s1 & E1 & Hv & E2 & Hw1 & Hm1 & Ho1 & Hst & Hk1).
    destruct (IH s1 Hok' ltac:(lia) He) as (s2 & E3 & Hw2 & Hm2 & Ho2 & Hk2).
    { eapply Forall_impl; [|exact Hacc']. intros []; [done|]. apply Hst. }
    exists s2. simpl length. cbn [interpret_loop]. rewrite (bind_ok _ _ _ _ _ E1).
    replace (le_val [t]) with t by (simpl; lia). cbv zeta. rewrite Hv, (bind_ok _ _ _ _ _ E2).
    rewrite swrap_id by (unfold in_s; lia). rewrite E3.
    split; [done|]. split; [congruence|]. split; [rewrite Hm2, Hm1; by rewrite (written_cons i l)|].
    split; [rewrite Ho2, Ho1; unfold printed; simpl; by rewrite app_nil_r, rev_app_distr, <- app_assoc|].
    intros P HP Hp. by apply Hk2, Hk1.
Qed.

Lemma interpret_holds q l s :
  queue_holds q l ->
  Forall (fun i => match i with IPrint _ => True | IWrite a bs => accepts (world s) a bs end) l ->
  exists s', insnq_interpret q s = (Ok 0, s') /\ warnings s' = warnings s /\
    memory (world s') = written l (memory (world s)) /\ output s' = rev (printed l) ++ output s /\
    (forall P, kept_by_writes P -> P (world s) -> P (world s')).
Proof.
  intros [Hb Hn Hs Hst Hok] Hacc.
  destruct (interpret_loop_run _ _ _ _ s Hst Hok ltac:(lia) ltac:(lia) Hacc) as (s' & E & R).
  exists s'. split; [|exact R]. unfold insnq_interpret, code. cbv zeta.
  rewrite Hn, zlen_nat, (bind_ok _ _ _ _ _ E), Z.eqb_refl. pose proof (zlen_nonneg l).
  cbn [negb]. by rewrite (Z.max_r 0), Z.eqb_refl by lia.
Qed.
End run.

(** ** Properties *)

(** Insertion refines appending to a list, and it is all or nothing: an
    instruction that fits the buffer is stored after the others, which are
    left as they are; one that does not fit leaves the queue unchanged, is
    reported by [EINSNQ] and puts the library in an error state. *)
Theorem insert_refines s l i
    (Hq : queue_holds (queue s) l)
    (Hi : insn_ok i) :
  (q_size (queue s) + isize i <= INSN_BUFFER_MAX ->
     exists s', insert i s = (Ok ENONE, s') /\ queue_holds (queue s') (l ++ [i]) /\
                q_size (queue s') = q_size (queue s) + isize i /\ diagnosis s' = diagnosis s) /\
  (INSN_BUFFER_MAX < q_size (queue s) + isize i ->
     exists s', insert i s = (Ok EINSNQ, s') /\ queue s' = queue s /\
                err_state (diagnosis s') = EINSNQ).
Proof.
  split; intros Hsz.
  - exists (appended i s). split; [by apply insert_fits with l|]. by split; [apply appended_holds|].
  - eexists. split; [by apply insert_full with l|]. done.
Qed.

(** C16. What libpulp inserts is what the interpreter does: for any list of
    prints and writes that fits the buffer, inserting it into an empty queue
    and interpreting the queue with any backend that accepts the writes returns
    0, leaves in memory the writes in order, and prints the messages in order. *)
Theorem insert_then_interpret {W} `{BackendLaws W} s0 l w
    (Hempty : queue_holds (queue s0) [])
    (Hl : Forall insn_ok l)
    (Hfits : q_size (queue s0) + total_size l <= INSN_BUFFER_MAX)
    (Hacc : Forall (fun i => match i with IPrint _ => True | IWrite a bs => accepts w a bs end) l) :
  exists s' i', insert_all l s0 = (Ok tt, s') /\
    insnq_interpret (queue s') {| world := w; output := []; warnings := [] |} = (Ok 0, i') /\
    memory (world i') = written l (memory w) /\ rev (output i') = printed l /\ warnings i' = [].
Proof.
  destruct (insert_all_holds l s0 [] Hempty Hl Hfits) as (s' & E & Hq & _).
  destruct (interpret_holds (queue s') l {| world := w; output := []; warnings := [] |} Hq Hacc)
    as (i' & Ei & Hw & Hm & Ho & _).
  exists s', i'. split; [done|]. split; [done|]. split; [done|]. split; [|done].
  rewrite Ho, app_nil_r. apply rev_involutive.
Qed.

(** The queue libpulp starts with is empty. *)
Lemma init_holds d : queue_holds (queue {| queue := insnq_init; diagnosis := d |}) [].
Proof.
  split; [|done|done|constructor|constructor].
  unfold zlen, insnq_init, q_buffer, queue. rewrite length_replicate. unfold INSN_BUFFER_MAX. lia.
Qed.

(** What a failed write does to the interpreter: the backend's [-1] is added
    to the program counter. When the write is the last instruction the mismatch
    with the queue's size is reported as [EINSNQ]; when others follow, the next
    one is fetched from one byte before the failed instruction, and if that was
    the first, from outside the buffer. *)
Theorem failed_write {W} `{WriteBackend W} q a bs l s w
    (Hq : queue_holds q (IWrite a bs :: l))
    (Hfail : insn_interpret_write (isize (IWrite a bs)) a bs (world s) = (-1, w)) :
  (l = [] -> exists s', insnq_interpret q s = (Ok EINSNQ, s') /\ world s' = w) /\
  (l <> [] -> exists s', insnq_interpret q s = (Ub, s') /\ world s' = w).
Proof.
  destruct Hq as [Hb Hn Hs Hst Hok].
  inversion Hst as [|? ? ? ? Hf Hst' Hpc Hl He]; subst. inversion_clear Hok as [|? ? Hi Hok'].
  pose proof (isize_bounds _ Hi). pose proof (stored_range _ _ _ _ Hok' Hst').
  unfold INSN_BUFFER_MAX in *.
  destruct (interpret_write_found _ _ a bs s Hf Hi ltac:(lia)) as [Hl Hint].
  rewrite Hfail in Hint. unfold insnq_interpret, code. cbv zeta. rewrite Hn, zlen_nat.
  set (s1 := {| world := w; output := output s; warnings := warnings s |}) in *.
  assert (Hloop : forall n (k : Z -> st (istate W) Z Z),
    bind (interpret_loop (q_buffer q) (Datatypes.S n) 0) k s =
    bind (interpret_loop (q_buffer q) n (-1)) k s1).
  { intros n k. cbn [interpret_loop]. unfold bind at 1. rewrite (bind_ok _ _ _ _ _ Hl).
    change (ulp_insn_valid (le_val [ULP_INSN_WRITE])) with true. cbv zeta iota.
    change (le_val [ULP_INSN_WRITE]) with ULP_INSN_WRITE. by rewrite (bind_ok _ _ _ _ _ Hint). }
  split; intros Hlen.
  - subst l. simpl length. rewrite Hloop. simpl interpret_loop. rewrite ret_bind.
    destruct (Z.eqb_spec (-1) (q_size q)); [lia|]. cbn [negb]. eexists. by split.
  - destruct l as [|i l]; [done|]. simpl length. rewrite Hloop. exists s1. by split.
Qed.
