(* ===== verification/InsnQueueLib.v ===== *)
(** * The library's own backend of the instruction queue (lib/insn_queue.c)

    When livepatching is driven from a debugger, libpulp interprets its queue
    itself: a write makes the pages it touches writable, copies the bytes and
    gives the pages their protection back. The protection comes from
    [/proc/self/maps]. The kernel is a parameter. *)

From stdpp Require Import gmap.
From S2P Require Import Prelude Errors Memory InsnQueue.

Open Scope ulp_scope.

Definition LINE_MAX : Z := 2048.
Definition PROT_READ : Z := 1.
Definition PROT_WRITE : Z := 2.
Definition PROT_EXEC : Z := 4.

(** ** Reading /proc/self/maps

    What successive calls of [read (fd, ptr, 1)] give. *)
Inductive read_result := RByte (b : Z) | REof | RIntr | RError.

(** [read_line]: [buf] is the buffer, [offset] where the next byte goes; the
    result is the code, the buffer and the calls that remain. *)
Fixpoint read_line_loop (fd : list read_result) (buf : bytes) (offset len : Z)
    : Z * bytes * list read_result :=
  match fd with
  | [] => (if offset <? len then offset else -1, buf, [])
  | r :: fd' =>
    if offset <? len then
      match r with
      | RIntr => read_line_loop fd' buf offset len
      | RError => (-1, buf, fd')
      | REof => (offset, buf, fd')
      | RByte b =>
        let buf := splice (Z.to_nat offset) [b] buf in
        if b =? 10 then (offset, buf, fd') else read_line_loop fd' buf (offset + 1) len
      end
    else (-1, buf, fd)
  end.

Definition read_line (fd : list read_result) (buf : bytes) (len : Z) : Z * bytes * list read_result :=
  read_line_loop fd buf 0 len.

(** [strtoul (s, &end, 16)] on digits: the value, and where it stops. *)
Definition ULONG_MAX : Z := 2 ^ 64 - 1.

Fixpoint strtoul16 (s : bytes) (acc : Z) : Z * bytes :=
  match s with
  | [] => (acc, [])
  | c :: s' =>
    match hex_digit c with
    | Some d => strtoul16 s' (Z.min ULONG_MAX (acc * 16 + d))
    | None => (acc, s)
    end
  end.

(** The loop over the lines, [fuel] of them at most. *)
Fixpoint maps_loop (fuel : nat) (fd : list read_result) (line : bytes) (addr : Z) : res Z Z :=
  match fuel with
  | O => NoFuel
  | S fuel =>
    let '(retcode, line, fd) := read_line fd line LINE_MAX in
    if retcode <=? 0 then Ok (-1)
    else
      let (addr1, end_) := strtoul16 line 0 in
      let (addr2, end_) := strtoul16 (tl end_) 0 in
      if (addr <? addr1) || (addr2 <=? addr) then maps_loop fuel fd line addr
      else
        let result := if nth 1 end_ 0 =? 114 then PROT_READ else 0 in
        let result := if nth 2 end_ 0 =? 119 then Z.lor result PROT_WRITE else result in
        let result := if nth 3 end_ 0 =? 120 then Z.lor result PROT_EXEC else result in
        Ok result
  end.

(** [None] is an [open] that fails; every line but the last takes a byte of the
    input, so the fuel is its length. *)
Definition memory_protection_get (maps : option (list read_result)) (addr : Z) : res Z Z :=
  match maps with
  | None => Ok (-1)
  | Some fd => maps_loop (S (length fd)) fd (replicate (Z.to_nat LINE_MAX) 0) addr
  end.

(** ** The backend *)

Record lib_world (K : Type) := {
  os : K;
  lmem : mem;
  errno : Z;
  ldiag : diag }.
Arguments os {K} _.
Arguments lmem {K} _.
Arguments errno {K} _.
Arguments ldiag {K} _.

Section backend.
Context {K : Type}.
Variable proc_maps : K -> option (list read_result).
Variable mprotect : Z -> Z -> Z -> K -> Z * K.
Variable page_size : Z.

Abbreviation lib A := (st (lib_world K) Z A).

Definition lwarn (fmt : string) : lib unit :=
  modify (fun s => {| os := os s; lmem := lmem s; errno := errno s; ldiag := push_msg fmt (ldiag s) |}).

Definition page_mask : Z := Z.lnot (page_size - 1).

(** The first loop: the protections of [n] pages from [page]. *)
Fixpoint get_protections (n : nat) (page : Z) : lib (list Z) :=
  match n with
  | O => ret []
  | S n =>
    modify (fun s => {| os := os s; lmem := lmem s; errno := errno s;
      ldiag := libpulp_assert_func (if page =? Z.land page page_mask then 1 else 0) (ldiag s) |});;;
    let! k := gets os in
    match memory_protection_get (proc_maps k) page with
    | Ok p =>
      if p =? -1 then
        lwarn "Memory protection get error (%d page)";;;
        let! e := gets errno in throw e
      else
        let! ps := get_protections n (u64 (page + page_size)) in ret (p :: ps)
    | Err e => throw e
    | Ub => undef
    | NoFuel => nofuel
    end
  end.

(** The second and third loops: [f] gives the protection to set. *)
Fixpoint set_protections (f : Z -> Z) (prot : list Z) (page : Z) : lib unit :=
  match prot with
  | [] => ret tt
  | p :: prot =>
    let! r := fun s => let (r, k) := mprotect page page_size (f p) (os s) in
      (Ok r, {| os := k; lmem := lmem s; errno := errno s; ldiag := ldiag s |}) in
    (if negb (r =? 0) then
       lwarn "Memory protection set error (%d page)";;;
       let! e := gets errno in throw e
     else ret tt);;;
    set_protections f prot (u64 (page + page_size))
  end.

Definition lib_interpret_write (size address : Z) (bs : bytes) : lib Z := code (
  let n := zlen bs in
  let page1 := Z.land address page_mask in
  let pagen := Z.land (u64 (address + n)) page_mask in
  let num_pages := s32 (1 + u64 (pagen - page1) / page_size) in
  if num_pages <=? 0 then undef
  else
    let! prot := get_protections (Z.to_nat num_pages) page1 in
    set_protections (fun p => Z.lor p PROT_WRITE) prot page1;;;
    modify (fun s => {| os := os s; lmem := mem_write address bs (lmem s); errno := errno s;
                        ldiag := ldiag s |});;;
    let! m := gets lmem in
    (if bool_decide (mem_read address (length bs) m = Some bs) then ret tt
     else lwarn "Failed to write at address 0x%lx");;;
    set_protections (fun p => p) prot page1;;;
    ret size).

(** As a backend of the interpreter; what the C code does after undefined
    behaviour is not modelled, and the loops need no more fuel than they have. *)
#[export] Instance lib_backend : WriteBackend (lib_world K) := {
  insn_interpret_write size a bs w :=
    match lib_interpret_write size a bs w with
    | (Ok r, w') | (Err r, w') => (r, w')
    | (Ub, w') | (NoFuel, w') => (-1, w')
    end }.

(** [insnq_interpret_from_lib]: the queue is emptied whatever happened. *)
Definition insnq_interpret_from_lib (queue : insn_queue) (s : istate (lib_world K))
    : res Z Z * istate (lib_world K) * insn_queue :=
  let (r, s) := insnq_interpret queue s in
  (r, s,
   {| q_version := q_version queue; q_num_insns := 0; q_size := 0; q_align := q_align queue;
      q_buffer := replicate (Z.to_nat INSN_BUFFER_MAX) 0 |}).
End backend.

(** ** Parsing a line of /proc/self/maps *)

Lemma strtoul16_digits n z acc rest :
  0 <= z < 16 ^ Z.of_nat n -> 0 <= acc -> acc * 16 ^ Z.of_nat n + z <= ULONG_MAX ->
  strtoul16 (hex_str n z ++ rest) acc = strtoul16 rest (acc * 16 ^ Z.of_nat n + z).
Proof.
  revert z acc rest. induction n as [|n IH]; intros z acc rest Hz Ha Hmax.
  - simpl in *. f_equal. lia.
  - rewrite Nat2Z.inj_succ, Z.pow_succ_r in * by lia. cbn [hex_str].
    pose proof (Z.div_mod z 16 ltac:(lia)). pose proof (Z.mod_pos_bound z 16 ltac:(lia)).
    assert (0 <= z / 16 < 16 ^ Z.of_nat n).
    { split; [apply Z.div_pos; lia|apply Z.div_lt_upper_bound; lia]. }
    assert (Hs : (acc * 16 ^ Z.of_nat n + z / 16) * 16 + z mod 16 = acc * (16 * 16 ^ Z.of_nat n) + z) by lia.
    rewrite <- app_assoc, IH; [|done|done|].
    2:{ assert (0 <= acc * 16 ^ Z.of_nat n) by (apply Z.mul_nonneg_nonneg; lia). lia. }
    cbn [app strtoul16]. rewrite hex_digit_char by lia. rewrite Hs, Z.min_r by lia. done.
Qed.

(** A mapping, as a line of the file; [width] digits are enough for its bounds. *)
Record mapping := {
  lo : Z; hi : Z; width : nat;
  perm_r : bool; perm_w : bool; perm_x : bool;
  trailer : bytes }.

Definition perm_chars (m : mapping) : bytes :=
  [if perm_r m then 114 else 45; if perm_w m then 119 else 45; if perm_x m then 120 else 45].

Definition map_line (m : mapping) : bytes :=
  hex_str (width m) (lo m) ++ [45] ++ hex_str (width m) (hi m) ++ [32] ++ perm_chars m ++ trailer m.

Definition mapping_ok (m : mapping) : Prop :=
  (0 < width m <= 16)%nat /\ 0 <= lo m < 16 ^ Z.of_nat (width m) /\ 0 <= hi m < 16 ^ Z.of_nat (width m) /\
  Forall (fun c => c <> 10) (trailer m) /\ zlen (map_line m) < LINE_MAX.

(** What the kernel would answer: the protection of the mapping that has the
    address. *)
Definition prot_bits (m : mapping) : Z :=
  (if perm_r m then PROT_READ else 0) + (if perm_w m then PROT_WRITE else 0) +
  (if perm_x m then PROT_EXEC else 0).

Fixpoint prot_lookup (ms : list mapping) (addr : Z) : Z :=
  match ms with
  | [] => -1
  | m :: ms => if (lo m <=? addr) && (addr <? hi m) then prot_bits m else prot_lookup ms addr
  end.

Lemma hex_digits_chars n z c : In c (hex_str n z) -> c <> 10 /\ c <> 45 /\ c <> 32.
Proof.
  revert z. induction n as [|n IH]; intros z Hin; [done|]. cbn [hex_str] in Hin.
  apply in_app_iff in Hin as [Hin|[<-|[]]]; [by apply IH in Hin|].
  pose proof (Z.mod_pos_bound z 16 ltac:(lia)). unfold hex_char. case_goal; zbool; lia.
Qed.

Lemma map_line_no_newline m : mapping_ok m -> Forall (fun c => c <> 10) (map_line m).
Proof.
  intros (_ & _ & _ & Ht & _). unfold map_line.
  assert (Hh : forall n z, Forall (fun c => c <> 10) (hex_str n z)).
  { intros n z. apply List.Forall_forall. intros c Hc. apply hex_digits_chars in Hc. tauto. }
  repeat (apply Forall_app; split); auto.
  unfold perm_chars. by destruct (perm_r m), (perm_w m), (perm_x m); repeat constructor.
Qed.

(** Reading a line leaves it in the buffer with its newline. *)
Lemma read_line_loop_ok l pre stale fd len :
  Forall (fun c => c <> 10) l -> zlen pre + zlen l < len -> (length l < length stale)%nat ->
  read_line_loop (map RByte l ++ RByte 10 :: fd) (pre ++ stale) (zlen pre) len =
  (zlen pre + zlen l, pre ++ l ++ 10 :: drop (S (length l)) stale, fd).
Proof.
  intros Hl. revert pre stale. induction Hl as [|c l Hc _ IH]; intros pre stale Hlen Hst.
  - destruct stale as [|x stale]; [simpl in Hst; lia|]. change (zlen (@nil Z)) with 0 in *.
    cbn [map app read_line_loop]. rewrite (proj2 (Z.ltb_lt (zlen pre) len)) by lia.
    rewrite zlen_nat. change (x :: stale) with ([x] ++ stale). rewrite splice_app by done.
    rewrite Z.eqb_refl, Z.add_0_r. done.
  - destruct stale as [|x stale]; [simpl in Hst; lia|]. rewrite zlen_cons in Hlen. pose proof (zlen_nonneg l).
    cbn [map app read_line_loop]. rewrite (proj2 (Z.ltb_lt (zlen pre) len)) by lia.
    rewrite zlen_nat. change (x :: stale) with ([x] ++ stale). rewrite !splice_app by done.
    rewrite (proj2 (Z.eqb_neq c 10)) by done.
    replace (zlen pre + 1) with (zlen (pre ++ [c])) by (rewrite zlen_app; done).
    rewrite app_assoc, IH by (rewrite ?zlen_app; change (zlen [c]) with 1; simpl in *; lia).
    rewrite zlen_app, (zlen_cons c l), <- !app_assoc. change (zlen [c]) with 1. by rewrite <- Z.add_assoc.
Qed.

Definition maps_text (ms : list mapping) : list read_result :=
  flat_map (fun m => map RByte (map_line m) ++ [RByte 10]) ms.

Lemma maps_loop_ok ms fuel line addr :
  Forall mapping_ok ms -> (length ms < fuel)%nat -> zlen line = LINE_MAX ->
  maps_loop fuel (maps_text ms) line addr = Ok (prot_lookup ms addr).
Proof.
  intros Hms. revert fuel line. induction Hms as [|m ms Hm _ IH]; intros fuel line Hf Hline;
    (destruct fuel as [|fuel]; [simpl in Hf; lia|]).
  - done.
  - cbn [maps_loop maps_text flat_map]. fold (maps_text ms).
    pose proof (map_line_no_newline m Hm) as Hnl. destruct Hm as (Hw & Hlo & Hhi & Ht & Hlen).
    assert (Hpow : 16 ^ Z.of_nat (width m) <= 2 ^ 64).
    { change 16 with (2 ^ 4). rewrite <- Z.pow_mul_r by lia. apply Z.pow_le_mono_r; lia. }
    unfold read_line. rewrite <- app_assoc.
    pose proof (read_line_loop_ok (map_line m) [] line (maps_text ms) LINE_MAX Hnl) as Hr.
    change (zlen (@nil Z)) with 0 in Hr. rewrite app_nil_l, Z.add_0_l in Hr.
    change ([RByte 10] ++ maps_text ms) with (RByte 10 :: maps_text ms).
    rewrite Hr by (unfold zlen in *; lia). rewrite app_nil_l. clear Hr.
    set (stale := drop _ line).
    assert (Hpos : 0 < zlen (map_line m)).
    { unfold map_line. rewrite !zlen_app. change (zlen [45]) with 1. pose proof (zlen_nonneg (hex_str (width m) (lo m))).
      pose proof (zlen_nonneg (hex_str (width m) (hi m))). pose proof (zlen_nonneg (perm_chars m)).
      pose proof (zlen_nonneg (trailer m)). change (zlen [32]) with 1. lia. }
    rewrite (proj2 (Z.leb_gt _ 0)) by done. unfold map_line at 1. rewrite <- !app_assoc.
    unfold ULONG_MAX in *.
    rewrite strtoul16_digits by (unfold ULONG_MAX; lia). cbn [app strtoul16 hex_digit andb Z.leb Z.compare tl].
    change (hex_digit 45) with (@None Z). cbv iota. cbn [tl].
    rewrite strtoul16_digits by (unfold ULONG_MAX; lia). cbn [app strtoul16].
    change (hex_digit 32) with (@None Z). cbv iota.
    rewrite !Z.mul_0_l, !Z.add_0_l. cbn [prot_lookup].
    assert (Hin : (addr <? lo m) || (hi m <=? addr) = negb ((lo m <=? addr) && (addr <? hi m))).
    { rewrite negb_andb, <- Z.ltb_antisym, <- Z.leb_antisym. done. }
    rewrite Hin. destruct ((lo m <=? addr) && (addr <? hi m)) eqn:E; cbn [negb].
    + unfold prot_bits, perm_chars. cbn [app nth].
      by destruct (perm_r m), (perm_w m), (perm_x m).
    + apply IH; [simpl in Hf; lia|].
      unfold stale, zlen in *. rewrite length_app. simpl. rewrite length_drop. lia.
Qed.

Lemma memory_protection_get_ok ms addr :
  Forall mapping_ok ms -> memory_protection_get (Some (maps_text ms)) addr = Ok (prot_lookup ms addr).
Proof.
  intros Hms. unfold memory_protection_get. apply maps_loop_ok; [done| |].
  - assert (length ms <= length (maps_text ms))%nat; [|lia].
    clear Hms. induction ms as [|m ms IH]; [done|]. cbn [maps_text flat_map].
    rewrite !length_app. fold (maps_text ms). simpl. lia.
  - unfold zlen. rewrite length_replicate. unfold LINE_MAX. lia.
Qed.

(** Reading the protection of a page back from [/proc/self/maps]: on the text
    of any list of mappings, [memory_protection_get] returns the protection bits
    of the first one that has the address, and -1 when none has. *)
Theorem memory_protection_get_spec ms addr
    (Hms : Forall mapping_ok ms) :
  memory_protection_get (Some (maps_text ms)) addr = Ok (prot_lookup ms addr).
Proof. by apply memory_protection_get_ok. Qed.

(** ** A write by the library *)

Lemma lor_write_range p : 0 <= p <= 7 -> 0 <= Z.lor p PROT_WRITE <= 7.
Proof.
  intros Hp. assert (H : p = 0 \/ p = 1 \/ p = 2 \/ p = 3 \/ p = 4 \/ p = 5 \/ p = 6 \/ p = 7) by lia.
  destruct H as [-> |[-> |[-> |[-> |[-> |[-> |[-> | ->]]]]]]]; vm_compute; by split.
Qed.

(** The address of a page. *)
Definition is_page (page_size page : Z) : Prop := page mod page_size = 0 /\ in_u 64 page.

Section library_write.
Context {K : Type}.
Variable proc_maps : K -> option (list read_result).
Variable mprotect : Z -> Z -> Z -> K -> Z * K.
Variable page_size : Z.
(** The protection of each page, -1 when it is not mapped. *)
Variable prot : K -> Z -> Z.

Hypothesis page_pow : exists b, 0 <= b < 32 /\ page_size = 2 ^ b.
Hypothesis maps_law : forall k page, is_page page_size page ->
  memory_protection_get (proc_maps k) page = Ok (prot k page).
Hypothesis prot_range : forall k page, is_page page_size page -> -1 <= prot k page <= 7.
Hypothesis mprotect_law : forall k page p, is_page page_size page -> 0 <= p <= 7 -> prot k page <> -1 ->
  exists k', mprotect page page_size p k = (0, k') /\
    forall q, is_page page_size q -> prot k' q = if q =? page then p else prot k q.

Abbreviation write := (lib_interpret_write proc_maps mprotect page_size).

Lemma page_pos : 0 < page_size.
Proof using page_pow. destruct page_pow as (b & Hb & Hp). rewrite Hp. apply Z.pow_pos_nonneg; lia. Qed.

Lemma page_of x : Z.land x (page_mask page_size) = x - x mod page_size.
Proof.
  unfold page_mask. destruct page_pow as (b & Hb & Hp). rewrite Hp.
  replace (2 ^ b - 1) with (Z.ones b) by (rewrite Z.ones_equiv; lia).
  rewrite <- Z.ldiff_land, Z.ldiff_ones_r, Z.shiftl_mul_pow2, Z.shiftr_div_pow2 by lia.
  pose proof (Z.div_mod x (2 ^ b)). lia.
Qed.

(** The [i]-th page from [page]. *)
Definition nth_page (page : Z) (i : nat) : Z := page + Z.of_nat i * page_size.

Lemma nth_is_page page n i :
  page mod page_size = 0 -> 0 <= page -> page + Z.of_nat n * page_size < 2 ^ 64 -> (i < n)%nat ->
  is_page page_size (nth_page page i).
Proof using page_pow.
  intros Hm Hp Hlim Hi. pose proof page_pos. unfold nth_page, is_page, in_u.
  split; [by rewrite Z_mod_plus_full|nia].
Qed.

Lemma get_protections_ok n page s :
  page mod page_size = 0 -> 0 <= page -> page + Z.of_nat n * page_size < 2 ^ 64 ->
  (forall i, (i < n)%nat -> prot (os s) (nth_page page i) <> -1) ->
  get_protections proc_maps page_size n page s =
  (Ok (map (fun i => prot (os s) (nth_page page i)) (seq 0 n)), s).
Proof.
  pose proof page_pos. revert page. induction n as [|n IH]; intros page Hm Hp Hlim Hmap; [done|].
  cbn [get_protections]. rewrite page_of, Hm, Z.sub_0_r, Z.eqb_refl.
  unfold libpulp_assert_func. cbn [Z.eqb negb]. unfold bind at 1, modify.
  change (negb (1 =? 0)) with true. cbv iota.
  replace {| os := os s; lmem := lmem s; errno := errno s; ldiag := ldiag s |} with s by (by destruct s).
  rewrite (bind_ok (gets os) _ s _ _ eq_refl), maps_law by (split; [done|unfold in_u; lia]).
  pose proof (Hmap 0%nat ltac:(lia)) as Hm0. unfold nth_page in Hm0. rewrite Z.add_0_r in Hm0.
  rewrite (proj2 (Z.eqb_neq _ _) Hm0). rewrite wrap_id by (unfold in_u; lia).
  assert (Hn : forall i, nth_page (page + page_size) i = nth_page page (S i)) by (unfold nth_page; lia).
  erewrite bind_ok; [|apply IH].
  - unfold ret. cbn [seq map]. rewrite <- (seq_shift n 0), map_map.
    replace (nth_page page 0) with page by (unfold nth_page; lia).
    do 3 f_equal. apply map_ext. intros i. by rewrite Hn.
  - rewrite Zplus_mod, Hm, Z_mod_same_full. done.
  - lia.
  - lia.
  - intros i Hi. rewrite Hn. apply Hmap. lia.
Qed.

(** The protections after the loop of [mprotect] calls. *)
Lemma set_protections_ok f ps page s :
  page mod page_size = 0 -> 0 <= page -> page + zlen ps * page_size < 2 ^ 64 ->
  Forall (fun p => 0 <= f p <= 7) ps ->
  (forall i, (i < length ps)%nat -> prot (os s) (nth_page page i) <> -1) ->
  exists k', set_protections mprotect page_size f ps page s =
    (Ok tt, {| os := k'; lmem := lmem s; errno := errno s; ldiag := ldiag s |}) /\
    (forall i p, ps !! i = Some p -> prot k' (nth_page page i) = f p) /\
    (forall q, is_page page_size q -> (forall i, (i < length ps)%nat -> q <> nth_page page i) ->
       prot k' q = prot (os s) q).
Proof.
  pose proof page_pos. revert page s. induction ps as [|p ps IH]; intros page s Hm Hp Hlim Hf Hmap.
  - exists (os s). split; [by destruct s|]. by split.
  - rewrite zlen_cons in Hlim. pose proof (zlen_nonneg ps). inversion_clear Hf as [|? ? Hfp Hfps].
    assert (Hpg : forall i, (i < length (p :: ps))%nat -> is_page page_size (nth_page page i)).
    { intros i Hi. apply (nth_is_page page (length (p :: ps))); [done|done|simpl; unfold zlen in *; lia|done]. }
    pose proof (Hpg 0%nat ltac:(simpl; lia)) as Hpg0. unfold nth_page in Hpg0. rewrite Z.add_0_r in Hpg0.
    pose proof (Hmap 0%nat ltac:(simpl; lia)) as Hm0. unfold nth_page in Hm0. rewrite Z.add_0_r in Hm0.
    destruct (mprotect_law (os s) page (f p) Hpg0 Hfp Hm0) as (k1 & E1 & L1).
    assert (Hn : forall i, nth_page (page + page_size) i = nth_page page (S i)) by (unfold nth_page; lia).
    set (s1 := {| os := k1; lmem := lmem s; errno := errno s; ldiag := ldiag s |}).
    destruct (IH (page + page_size) s1) as (k2 & E2 & L2 & L3); [|lia|lia|done| |].
    { rewrite Zplus_mod, Hm, Z_mod_same_full. done. }
    { intros i Hi. rewrite Hn. unfold s1. cbn [os]. rewrite L1 by (apply Hpg; simpl; lia).
      rewrite (proj2 (Z.eqb_neq _ _)) by (unfold nth_page; lia). apply Hmap. simpl. lia. }
    exists k2. split; [|split].
    + cbn [set_protections]. erewrite bind_ok; [|rewrite E1; reflexivity].
      cbn [Z.eqb negb]. rewrite ret_bind, wrap_id by (unfold in_u; lia). exact E2.
    + intros [|i] q Hq; [|rewrite <- Hn; by apply L2].
      injection Hq as ->. rewrite L3.
      * unfold s1. cbn [os]. rewrite L1 by (apply Hpg; simpl; lia). unfold nth_page. by rewrite Z.add_0_r, Z.eqb_refl.
      * apply Hpg. simpl. lia.
      * intros i Hi. unfold nth_page. lia.
    + intros q Hqp Hq. rewrite L3; [|done|].
      * unfold s1. cbn [os]. rewrite L1 by done.
        rewrite (proj2 (Z.eqb_neq q page)); [done|]. pose proof (Hq 0%nat ltac:(simpl; lia)) as Hq0.
        unfold nth_page in Hq0. lia.
      * intros i Hi. rewrite Hn. apply Hq. simpl. lia.
Qed.

(** The pages a write asks for: one more than it touches when it ends at the
    end of a page. *)
Definition touched (address n : Z) : nat :=
  Z.to_nat (1 + ((address + n) / page_size - address / page_size)).

Lemma page_count address n :
  0 <= address -> 0 <= n < 2 ^ 30 -> address + n + page_size < 2 ^ 64 ->
  Z.land address (page_mask page_size) = page_size * (address / page_size) /\
  s32 (1 + u64 (Z.land (u64 (address + n)) (page_mask page_size) -
                Z.land address (page_mask page_size)) / page_size) = Z.of_nat (touched address n) /\
  (0 < touched address n)%nat /\
  page_size * (address / page_size) + Z.of_nat (touched address n) * page_size < 2 ^ 64.
Proof.
  intros Ha Hn Hlim. pose proof page_pos. rewrite !page_of, (wrap_id 64 (address + n)) by (unfold in_u; lia).
  pose proof (Z.div_mod address page_size ltac:(lia)). pose proof (Z.mod_pos_bound address page_size ltac:(lia)).
  pose proof (Z.div_mod (address + n) page_size ltac:(lia)).
  pose proof (Z.mod_pos_bound (address + n) page_size ltac:(lia)).
  pose proof (Z.div_le_mono address (address + n) page_size ltac:(lia) ltac:(lia)).
  set (a := address / page_size) in *. set (b := (address + n) / page_size) in *.
  assert (Hd : address + n - (address + n) mod page_size - (address - address mod page_size) =
               (b - a) * page_size) by nia.
  assert (Hb : b - a <= n) by nia.
  rewrite Hd, wrap_id, Z.div_mul by (unfold in_u; nia).
  unfold touched. fold a b. rewrite swrap_id by (unfold in_s; lia).
  split; [lia|]. split; [lia|]. split; [lia|]. nia.
Qed.

Lemma library_write_ok size address bs s :
  0 <= address -> zlen bs < 2 ^ 30 -> address + zlen bs + page_size < 2 ^ 64 ->
  (forall i, (i < touched address (zlen bs))%nat ->
     prot (os s) (nth_page (page_size * (address / page_size)) i) <> -1) ->
  exists s', write size address bs s = (Ok size, s') /\
    lmem s' = mem_write address bs (lmem s) /\
    (forall q, is_page page_size q -> prot (os s') q = prot (os s) q) /\ ldiag s' = ldiag s.
Proof.
  intros Ha Hn Hlim Hmap. pose proof page_pos. pose proof (zlen_nonneg bs).
  destruct (page_count address (zlen bs)) as (H1 & H2 & Hpos & Hend); [lia..|].
  unfold lib_interpret_write, code. cbv zeta. rewrite H2, H1, (proj2 (Z.leb_gt _ 0)), Nat2Z.id by lia.
  set (n := touched address (zlen bs)) in *. set (page := page_size * (address / page_size)) in *.
  assert (Hpage : 0 <= page) by (apply Z.mul_nonneg_nonneg; [lia|apply Z.div_pos; lia]).
  erewrite bind_ok; [|apply get_protections_ok; [|done|done|done]].
  2:{ unfold page. by rewrite Z.mul_comm, Z_mod_mult. }
  set (ps := map _ (seq 0 n)).
  assert (Hlen : length ps = n) by (unfold ps; by rewrite length_map, length_seq).
  assert (Hps : forall i p, ps !! i = Some p -> p = prot (os s) (nth_page page i)).
  { intros i p Hi. unfold ps in Hi. apply list_lookup_fmap_Some in Hi as (j & -> & Hj).
    by apply lookup_seq in Hj as [-> _]. }
  assert (Hz : zlen ps = Z.of_nat n) by (unfold zlen; by rewrite Hlen).
  assert (Hpm : page mod page_size = 0) by (unfold page; by rewrite Z.mul_comm, Z_mod_mult).
  assert (Hrange : Forall (fun p => 0 <= p <= 7) ps).
  { apply List.Forall_forall. intros p Hp%list_elem_of_In%list_elem_of_lookup_1. destruct Hp as [i Hi].
    pose proof (lookup_lt_Some _ _ _ Hi) as Hlt. rewrite Hlen in Hlt. rewrite (Hps i p Hi).
    pose proof (prot_range (os s) (nth_page page i) (nth_is_page page n i Hpm Hpage Hend Hlt)).
    specialize (Hmap i Hlt). lia. }
  destruct (set_protections_ok (fun p => Z.lor p PROT_WRITE) ps page s) as (k1 & E1 & L1 & L2);
    [done|done|by rewrite Hz| |by rewrite Hlen|].
  { eapply List.Forall_impl; [|exact Hrange]. intros p Hp. by apply lor_write_range. }
  rewrite (bind_ok _ _ _ _ _ E1), (bind_ok (modify _) _ _ _ _ eq_refl), (bind_ok (gets _) _ _ _ _ eq_refl).
  cbn [lmem os errno ldiag]. rewrite bool_decide_eq_true_2 by apply mem_read_write. rewrite ret_bind.
  set (s2 := {| os := k1; lmem := mem_write _ _ _ |}).
  destruct (set_protections_ok (fun p => p) ps page s2) as (k2 & E2 & L3 & L4); [done|done|by rewrite Hz|done| |].
  { intros i Hi. rewrite Hlen in Hi. destruct (lookup_lt_is_Some_2 ps i ltac:(lia)) as [p Hp].
    unfold s2. cbn [os]. rewrite (L1 i p Hp), (Hps i p Hp). specialize (Hmap i Hi).
    pose proof (prot_range (os s) (nth_page page i) (nth_is_page page n i Hpm Hpage Hend Hi)).
    pose proof (lor_write_range (prot (os s) (nth_page page i)) ltac:(lia)). lia. }
  rewrite (bind_ok _ _ _ _ _ E2). eexists. split; [reflexivity|]. cbn [lmem os ldiag].
  split; [done|]. split; [|done]. intros q Hqp.
  destruct (In_dec Z.eq_dec q (map (nth_page page) (seq 0 n))) as [Hin|Hout].
  - apply in_map_iff in Hin as (i & <- & Hi). apply in_seq in Hi.
    destruct (lookup_lt_is_Some_2 ps i ltac:(lia)) as [p Hp]. by rewrite (L3 i p Hp), (Hps i p Hp).
  - assert (Hne : forall i, (i < length ps)%nat -> q <> nth_page page i).
    { intros i Hi ->. apply Hout, in_map, in_seq. lia. }
    rewrite L4 by done. unfold s2. cbn [os]. by rewrite L2.
Qed.

(** A page that is not mapped stops the loop. *)
Lemma get_protections_unmapped n j page s :
  page mod page_size = 0 -> 0 <= page -> page + Z.of_nat n * page_size < 2 ^ 64 -> (j < n)%nat ->
  (forall i, (i < j)%nat -> prot (os s) (nth_page page i) <> -1) ->
  prot (os s) (nth_page page j) = -1 ->
  exists d, get_protections proc_maps page_size n page s =
    (Err (errno s), {| os := os s; lmem := lmem s; errno := errno s; ldiag := d |}).
Proof.
  pose proof page_pos. revert j page. induction n as [|n IH]; intros j page Hm Hp Hlim Hj Hmap Hun; [lia|].
  cbn [get_protections]. rewrite page_of, Hm, Z.sub_0_r, Z.eqb_refl.
  unfold bind at 1, modify. change (libpulp_assert_func 1 (ldiag s)) with (ldiag s).
  replace {| os := os s; lmem := lmem s; errno := errno s; ldiag := ldiag s |} with s by (by destruct s).
  rewrite (bind_ok (gets os) _ s _ _ eq_refl), maps_law by (split; [done|unfold in_u; lia]).
  destruct j as [|j].
  - unfold nth_page in Hun. rewrite Z.add_0_r in Hun. rewrite Hun. by eexists.
  - pose proof (Hmap 0%nat ltac:(lia)) as Hm0. unfold nth_page in Hm0. rewrite Z.add_0_r in Hm0.
    rewrite (proj2 (Z.eqb_neq _ _) Hm0), wrap_id by (unfold in_u; lia).
    assert (Hn : forall i, nth_page (page + page_size) i = nth_page page (S i)) by (unfold nth_page; lia).
    destruct (IH j (page + page_size)) as (d & E); [|lia|lia|lia| |by rewrite Hn|].
    + rewrite Zplus_mod, Hm, Z_mod_same_full. done.
    + intros i Hi. rewrite Hn. apply Hmap. lia.
    + exists d. by rewrite (bind_err _ _ _ _ _ E).
Qed.

Lemma library_write_unmapped size address bs s j :
  0 <= address -> zlen bs < 2 ^ 30 -> address + zlen bs + page_size < 2 ^ 64 ->
  (j < touched address (zlen bs))%nat ->
  (forall i, (i < j)%nat -> prot (os s) (nth_page (page_size * (address / page_size)) i) <> -1) ->
  prot (os s) (nth_page (page_size * (address / page_size)) j) = -1 ->
  exists s', write size address bs s = (Ok (errno s), s') /\ lmem s' = lmem s.
Proof.
  intros Ha Hn Hlim Hj Hmap Hun. pose proof page_pos. pose proof (zlen_nonneg bs).
  destruct (page_count address (zlen bs)) as (H1 & H2 & Hpos & Hend); [lia..|].
  unfold lib_interpret_write, code. cbv zeta. rewrite H2, H1, (proj2 (Z.leb_gt _ 0)), Nat2Z.id by lia.
  destruct (get_protections_unmapped (touched address (zlen bs)) j
              (page_size * (address / page_size)) s) as (d & E); [| |done..|].
  - by rewrite Z.mul_comm, Z_mod_mult.
  - apply Z.mul_nonneg_nonneg; [lia|apply Z.div_pos; lia].
  - rewrite (bind_err _ _ _ _ _ E). by eexists.
Qed.
End library_write.

(** What a theorem on the library's writes assumes of the kernel: pages are a
    power of two, /proc/self/maps tells their protection, and [mprotect] sets
    that of a mapped page. *)
Record vm_laws {K} (proc_maps : K -> option (list read_result)) (mprotect : Z -> Z -> Z -> K -> Z * K)
    (page_size : Z) (prot : K -> Z -> Z) : Prop := {
  vm_page : exists b, 0 <= b < 32 /\ page_size = 2 ^ b;
  vm_maps : forall k page, is_page page_size page -> memory_protection_get (proc_maps k) page = Ok (prot k page);
  vm_range : forall k page, is_page page_size page -> -1 <= prot k page <= 7;
  vm_mprotect : forall k page p, is_page page_size page -> 0 <= p <= 7 -> prot k page <> -1 ->
    exists k', mprotect page page_size p k = (0, k') /\
      forall q, is_page page_size q -> prot k' q = if q =? page then p else prot k q }.

(** A write by the library: when every page it asks for is mapped, it returns
    the instruction's size, memory has the bytes at the address, and every page
    has again the protection it had. *)
Theorem library_write_spec {K} proc_maps mprotect page_size prot size address bs (s : lib_world K)
    (Hvm : vm_laws proc_maps mprotect page_size prot)
    (Ha : 0 <= address /\ zlen bs < 2 ^ 30 /\ address + zlen bs + page_size < 2 ^ 64)
    (Hmapped : forall i, (i < touched page_size address (zlen bs))%nat ->
       prot (os s) (nth_page page_size (page_size * (address / page_size)) i) <> -1) :
  exists s', lib_interpret_write proc_maps mprotect page_size size address bs s = (Ok size, s') /\
    lmem s' = mem_write address bs (lmem s) /\
    (forall q, is_page page_size q -> prot (os s') q = prot (os s) q) /\ ldiag s' = ldiag s.
Proof.
  destruct Hvm as [H1 H2 H3 H4], Ha as (A1 & A2 & A3).
  exact (library_write_ok proc_maps mprotect page_size prot H1 H2 H3 H4 size address bs s A1 A2 A3 Hmapped).
Qed.

(** The page count is one too many for a write that ends at the end of a page:
    when the next page is not mapped the write is refused, memory is left as it
    was, and the value returned is [errno], not an instruction size. *)
Theorem library_write_boundary {K} proc_maps mprotect page_size prot size address bs (s : lib_world K)
    (Hvm : vm_laws proc_maps mprotect page_size prot)
    (Ha : 0 <= address /\ 0 < zlen bs < 2 ^ 30 /\ address + zlen bs + page_size < 2 ^ 64)
    (Hend : (address + zlen bs) mod page_size = 0)
    (Hmapped : forall q, address - page_size < q < address + zlen bs -> q mod page_size = 0 ->
       prot (os s) q <> -1)
    (Hnext : prot (os s) (address + zlen bs) = -1) :
  exists s', lib_interpret_write proc_maps mprotect page_size size address bs s = (Ok (errno s), s') /\
    lmem s' = lmem s.
Proof.
  destruct Hvm as [H1 H2 H3 H4], Ha as (A1 & A2 & A3).
  pose proof (page_pos page_size H1) as Hp.
  pose proof (Z.div_mod address page_size ltac:(lia)). pose proof (Z.mod_pos_bound address page_size ltac:(lia)).
  pose proof (Z.div_mod (address + zlen bs) page_size ltac:(lia)) as Hdiv. rewrite Hend in Hdiv.
  set (a := address / page_size) in *. set (b := (address + zlen bs) / page_size) in *.
  assert (Hab : a < b) by nia.
  apply (library_write_unmapped proc_maps mprotect page_size prot H1 H2 size address bs s (Z.to_nat (b - a)));
    [lia..| | |].
  - unfold touched. fold a b. lia.
  - intros i Hi. fold a. unfold nth_page. apply Hmapped; [split; nia|].
    rewrite Z.mul_comm, <- Z.mul_add_distr_r, Z_mod_mult. done.
  - fold a. unfold nth_page. rewrite <- Hnext. f_equal. nia.
Qed.

(** ** The whole queue *)

Section library_queue.
Context {K : Type}.
Variable proc_maps : K -> option (list read_result).
Variable mprotect : Z -> Z -> Z -> K -> Z * K.
Variable page_size : Z.
Variable prot : K -> Z -> Z.
Hypothesis Hvm : vm_laws proc_maps mprotect page_size prot.

#[local] Existing Instance lib_backend.

(** A write whose pages, with the one that is counted too much, are mapped. *)
Definition lib_accepts (k : K) (address : Z) (bs : bytes) : Prop :=
  (0 <= address /\ zlen bs < 2 ^ 30 /\ address + zlen bs + page_size < 2 ^ 64) /\
  forall i, (i < touched page_size address (zlen bs))%nat ->
    prot k (nth_page page_size (page_size * (address / page_size)) i) <> -1.

Lemma lib_write_accepted size address bs (w : lib_world K) : lib_accepts (os w) address bs ->
  exists w', lib_interpret_write proc_maps mprotect page_size size address bs w = (Ok size, w') /\
    lmem w' = mem_write address bs (lmem w) /\ ldiag w' = ldiag w /\
    forall q, is_page page_size q -> prot (os w') q = prot (os w) q.
Proof using Hvm.
  intros [(A1 & A2 & A3) Hm]. destruct Hvm as [H1 H2 H3 H4].
  destruct (library_write_ok proc_maps mprotect page_size prot H1 H2 H3 H4 size address bs w A1 A2 A3 Hm)
    as (w' & E & M & Hp & Hd). by exists w'.
Qed.

Lemma touched_page address n i : 0 <= address -> 0 <= n < 2 ^ 30 -> address + n + page_size < 2 ^ 64 ->
  (i < touched page_size address n)%nat -> is_page page_size (nth_page page_size (page_size * (address / page_size)) i).
Proof using Hvm.
  intros Ha Hn Hlim Hi. destruct Hvm as [H1 _ _ _]. pose proof (page_pos page_size H1).
  destruct (page_count page_size H1 address n Ha Hn Hlim) as (_ & _ & _ & Hend).
  apply (nth_is_page page_size H1 _ (touched page_size address n)); [by rewrite Z.mul_comm, Z_mod_mult| |done|done].
  apply Z.mul_nonneg_nonneg; [lia|apply Z.div_pos; lia].
Qed.

Lemma accepts_stays k k' address bs : (forall q, is_page page_size q -> prot k' q = prot k q) ->
  lib_accepts k address bs -> lib_accepts k' address bs.
Proof using Hvm.
  intros Hp [Ha Hm]. split; [done|]. intros i Hi. pose proof (zlen_nonneg bs). rewrite Hp; [by apply Hm|].
  apply (touched_page address (zlen bs)); [lia..|done].
Qed.

#[local] Instance lib_backend_laws : BackendLaws (lib_world K) (H := lib_backend proc_maps mprotect page_size).
Proof using Hvm.
  refine {| memory := lmem; accepts := fun w => lib_accepts (os w) |}.
  intros size a bs w Ha. destruct (lib_write_accepted size a bs w Ha) as (w' & E & M & _ & Hp). exists w'.
  split; [|split; [done|]]; [by cbn; rewrite E|]. intros a' bs'. by apply accepts_stays.
Defined.

(** [insnq_interpret_from_lib] performs the writes of the queue, gives every page
    its protection back, leaves the messages as they were and empties the queue. *)
Lemma interpret_from_lib_ok queue l (w : lib_world K) : queue_holds queue l ->
  Forall (fun i => match i with IPrint _ => True | IWrite a bs => lib_accepts (os w) a bs end) l ->
  exists i' queue', insnq_interpret_from_lib proc_maps mprotect page_size queue {| world := w; output := []; warnings := [] |} =
      (Ok 0, i', queue') /\ queue_holds queue' [] /\ lmem (world i') = written l (lmem w) /\ ldiag (world i') = ldiag w /\
    forall q, is_page page_size q -> prot (os (world i')) q = prot (os w) q.
Proof using Hvm.
  intros Hq Hacc. unfold insnq_interpret_from_lib.
  destruct (interpret_holds (H0 := lib_backend_laws) queue l {| world := w; output := []; warnings := [] |} Hq Hacc)
    as (i' & E & _ & Hm & _ & Hk). rewrite E. eexists i', _. split; [reflexivity|]. split.
  { split; [|done|done|constructor|constructor]. unfold zlen. cbn [q_buffer]. rewrite length_replicate. unfold INSN_BUFFER_MAX. lia. }
  split; [exact Hm|]. cbn [world] in Hk.
  apply (Hk (fun w' => ldiag w' = ldiag w /\ forall q, is_page page_size q -> prot (os w') q = prot (os w) q)); [|done].
  intros size a bs w1 Ha [Hd Hp]. destruct (lib_write_accepted size a bs w1 Ha) as (w2 & E2 & _ & Hd2 & Hp2). cbn. rewrite E2.
  cbn [snd]. split; [congruence|]. intros q Hqp. by rewrite Hp2, Hp.
Qed.
End library_queue.
