(* ===== verification/Ptrace.v ===== *)
(** * Access to the target process (tools/ptrace.c)

    The kernel is not part of the program: a class gives the system calls the
    tool makes, and a second one states what their documentation promises. *)

From stdpp Require Import gmap.
From S2P Require Import Prelude Errors Memory.

Open Scope ulp_scope.

Definition EIO := 5.
Definition EFAULT := 14.
Definition EBUSY := 16.

Definition PTRACE_TIMEOUT : Z := 5.
Definition RESTART_SYSCALL_SIZE : Z := 2.
Definition RED_ZONE_LEN : Z := 128.

(** The registers the tool reads or changes (x86_64), and the others. *)
Record registers_t := { rip : Z; rsp : Z; rax : Z; other_regs : list Z }.

Inductive ptrace_request :=
| PTRACE_PEEKDATA (addr : Z)
| PTRACE_POKEDATA (addr word : Z)
| PTRACE_ATTACH
| PTRACE_DETACH
| PTRACE_GETREGS
| PTRACE_SETREGS (regs : registers_t)
| PTRACE_CONT
| PTRACE_SUSPEND_SECCOMP.

(** The value and registers a request returns, and [errno]. *)
Record reply := { r_ret : Z; r_regs : option registers_t; r_errno : Z }.

(** What [waitpid] reports: nothing, an error, or a change of state of a
    process, with the predicates of its status. *)
Record wait_status := { wifstopped : bool; wifexited : bool; wcoredump : bool; wifsignaled : bool }.
Inductive wait_result := WaitNone | WaitError (errno : Z) | WaitPid (pid : Z) (status : wait_status).

Class Kernel (K : Type) := {
  ptrace : ptrace_request -> Z -> K -> reply * K;
  process_vm_writev : Z -> bytes -> Z -> K -> (Z * Z) * K;
  process_vm_readv : Z -> Z -> Z -> K -> (Z * Z * bytes) * K;
  waitpid : Z -> bool -> K -> wait_result * K;
  time : K -> Z * K;
  usleep : Z -> K -> K }.

Section tool.
Context {K : Type} `{Kernel K}.

(** The state of the tool: the kernel, and the messages it printed. *)
Record tool := { kernel : K; tlog : list string }.

Abbreviation sys A := (st tool Z A).

Definition on_kernel {A} (f : K -> A * K) : sys A := fun s =>
  let (a, k) := f (kernel s) in (Ok a, {| kernel := k; tlog := tlog s |}).
Definition t_log (fmt : string) : sys unit :=
  modify (fun s => {| kernel := kernel s; tlog := fmt :: tlog s |}).

(** The do loop of [ulp_ptrace]; [fuel] bounds its iterations. *)
Fixpoint ulp_ptrace_retry (fuel : nat) (request : ptrace_request) (pid t0 : Z) : sys reply :=
  match fuel with
  | O => nofuel
  | S fuel =>
    let! r := on_kernel (ptrace request pid) in
    let errno := r_errno r in
    if (errno =? EIO) || (errno =? EFAULT) || (errno =? EINVAL) || (errno =? ESRCH) || (errno =? 0)
    then ret r
    else
      (if (errno =? EBUSY) || (errno =? EPERM)
       then on_kernel (fun k => (tt, usleep 10000 k)) else ret tt);;;
      let! t1 := on_kernel time in
      if t1 - t0 <? PTRACE_TIMEOUT then ulp_ptrace_retry fuel request pid t0 else ret r
  end.

Variable fuel : nat.

Definition ulp_ptrace (request : ptrace_request) (pid : Z) : sys reply :=
  let! r := on_kernel (ptrace request pid) in
  if negb ((r_errno r =? EBUSY) || (r_errno r =? EPERM)) then ret r
  else
    let! t0 := on_kernel time in
    ulp_ptrace_retry fuel request pid t0.

(** The loop over the whole words of the buffer. *)
Fixpoint poke_longs (words : nat) (buf : bytes) (pid addr : Z) : sys Z :=
  match words with
  | O => ret addr
  | S words =>
    let! r := ulp_ptrace (PTRACE_POKEDATA addr (le_val (take 8 buf))) pid in
    if negb (r_errno r =? 0) then
      t_log "Unable to write long to process %d at address %lx: %s\n";;; throw 1
    else poke_longs words (drop 8 buf) pid (u64 (addr + 8))
  end.

Definition write_bytes_ptrace (buf : bytes) (pid addr : Z) : sys Z := code (
  let n := length buf in
  let num_longs := (n / 8)%nat in
  let num_remainders := (n mod 8)%nat in
  let! addr := poke_longs num_longs buf pid addr in
  if (0 <? num_remainders)%nat then
    let! r := ulp_ptrace (PTRACE_PEEKDATA addr) pid in
    if negb (r_errno r =? 0) then
      t_log "unable to read byte before writing: %s\n";;; throw 1
    else
      let remainder := splice 0 (drop (8 * num_longs) buf) (le_bytes 8 (u64 (r_ret r))) in
      let! r := ulp_ptrace (PTRACE_POKEDATA addr (le_val remainder)) pid in
      if negb (r_errno r =? 0) then
        t_log "Unable to write long to process %d at address %lx: %s\n";;; throw 1
      else ret 0
  else ret 0).

(** The retry loop of [write_bytes]: [acc] bytes were reported written; the
    vectors are not advanced. *)
Fixpoint write_retry (fuel : nat) (buf : bytes) (pid addr acc : Z) : sys Z :=
  match fuel with
  | O => nofuel
  | S fuel =>
    let! r := on_kernel (process_vm_writev pid buf addr) in
    let (n, errno) := r in
    if n <? 0 then
      t_log "Unable to write byte to process %d at address %lx: %s\n";;; ret errno
    else if acc + n =? zlen buf then ret 0
    else write_retry fuel buf pid addr (acc + n)
  end.

Definition write_bytes (buf : bytes) (pid addr : Z) : sys Z := write_retry fuel buf pid addr 0.

Definition write_string (buffer : bytes) (pid addr : Z) : sys Z :=
  write_bytes (cstr buffer ++ [0]) pid addr.

(** Reading [len] bytes into [buf]: the code and the buffer afterwards. *)
Fixpoint read_retry (fuel : nat) (buf : bytes) (len pid addr acc : Z) : sys (Z * bytes) :=
  match fuel with
  | O => nofuel
  | S fuel =>
    let! r := on_kernel (process_vm_readv pid len addr) in
    let '(n, errno, bs) := r in
    if n <? 0 then ret (errno, buf)
    else
      let buf := splice 0 bs buf in
      if acc + n =? len then ret (0, buf) else read_retry fuel buf len pid addr (acc + n)
  end.

Definition read_memory (buf : bytes) (len pid addr : Z) : sys (Z * bytes) :=
  read_retry fuel buf len pid addr 0.

Definition read_long (buf : bytes) (pid addr : Z) : sys (Z * bytes) :=
  read_retry fuel buf 8 pid addr 0.

(** [((l) - mask1) & ~(l) & mask2], on 64 bits. *)
Definition hasbytezero (l : Z) : bool :=
  let mask1 := 0x0101010101010101 in
  let mask2 := 0x8080808080808080 in
  negb (Z.land (Z.land (u64 (l - mask1)) (u64 (Z.lnot l))) mask2 =? 0).

(** The loop of [read_string]: the words read so far are [acc]. The buffer
    grows before it is full, so every word has a place; what [malloc] and
    [realloc] leave in it is overwritten. *)
Fixpoint read_string_loop (words : nat) (acc : bytes) (pid addr : Z) : sys bytes :=
  match words with
  | O => nofuel
  | S words =>
    let! r := read_long (replicate 8 0) pid addr in
    let (err, word) := r in
    if negb (err =? 0) then t_log "Unable to read string at address 0x%lx";;; throw 1
    else if hasbytezero (le_val word) then ret (acc ++ word)
    else read_string_loop words (acc ++ word) pid (u64 (addr + 8))
  end.

(** The string, or [None] and the error code. *)
Definition read_string (pid addr : Z) : sys (Z * option bytes) := fun s =>
  match read_string_loop fuel [] pid addr s with
  | (Ok buffer, s) => (Ok (0, Some buffer), s)
  | (Err e, s) => (Ok (e, None), s)
  | (Ub, s) => (Ub, s)
  | (NoFuel, s) => (NoFuel, s)
  end.

(** The words of [read_string_allocated]: [done] is the buffer filled so far,
    [left] the rest of it. *)
Fixpoint read_words (words : nat) (done left : bytes) (pid addr : Z) : sys (Z * bytes) :=
  match words with
  | O =>
    if (0 <? length left)%nat then
      let! r := read_long (replicate 8 0) pid addr in
      let (err, word) := r in
      if negb (err =? 0) then
        t_log "Unable to read string at address 0x%lx";;; ret (1, done ++ left)
      else ret (0, done ++ take (length left) word)
    else ret (0, done ++ left)
  | S words =>
    let! r := read_long (take 8 left) pid addr in
    let (err, word) := r in
    if negb (err =? 0) then ret (1, done ++ word ++ drop 8 left)
    else if hasbytezero (le_val word) then ret (0, done ++ word ++ drop 8 left)
    else read_words words (done ++ word) (drop 8 left) pid (u64 (addr + 8))
  end.

Definition read_string_allocated (buffer : bytes) (pid addr : Z) : sys (Z * bytes) :=
  read_words (length buffer / 8) [] buffer pid addr.

(** The loop of [attach]: wait until the process stops. *)
Fixpoint attach_loop (fuel : nat) (pid : Z) : sys Z :=
  match fuel with
  | O => nofuel
  | S fuel =>
    let! w := on_kernel (waitpid pid false) in
    match w with
    | WaitError errno => t_log "waitpid error (pid %d): %s.\n";;; ret errno
    | WaitPid p status =>
      if p =? pid then
        if wifstopped status then ret 0
        else if wifexited status || wcoredump status then
          t_log "Process %d exited while waiting for stop signal.";;; ret 1
        else if wifsignaled status then
          t_log "Process %d terminated by a signal while waiting for stop signal.";;; ret 1
        else attach_loop fuel pid
      else
        (if 0 <? p then
           t_log "waitpid: state changed on unexpected process: expected %d, got %d"
         else ret tt);;;
        attach_loop fuel pid
    | WaitNone => attach_loop fuel pid
    end
  end.

Definition attach (pid : Z) : sys Z :=
  let! r := ulp_ptrace PTRACE_ATTACH pid in
  if negb (r_ret r =? 0) then t_log "PTRACE_ATTACH error: %s.\n";;; ret (r_errno r)
  else attach_loop fuel pid.

Definition detach (pid : Z) : sys Z :=
  let! r := ulp_ptrace PTRACE_DETACH pid in
  if negb (r_ret r =? 0) then t_log "PTRACE_DETACH error: %s.\n";;; ret 1 else ret 0.

Definition get_regs (pid : Z) (regs : registers_t) : sys (Z * registers_t) :=
  let! r := ulp_ptrace PTRACE_GETREGS pid in
  if negb (r_ret r =? 0) then t_log "PTRACE_GETREGS error: %s.\n";;; ret (1, regs)
  else ret (0, default regs (r_regs r)).

Definition set_regs (pid : Z) (regs : registers_t) : sys Z :=
  let! r := ulp_ptrace (PTRACE_SETREGS regs) pid in
  if negb (r_ret r =? 0) then t_log "PTRACE_SETREGS error: %s.\n";;; ret 1 else ret 0.

Definition disable_seccomp (pid : Z) : sys Z :=
  let! r := ulp_ptrace PTRACE_SUSPEND_SECCOMP pid in
  if negb (r_ret r =? 0) then t_log "PTRACE_O_SUSPEND_SECCOMP error: %s.\n";;; ret (r_errno r)
  else ret 0.

(** The registers with which a routine of libpulp is entered. *)
Definition redirected (regs : registers_t) (routine : Z) : registers_t :=
  {| rip := u64 (routine + RESTART_SYSCALL_SIZE);
     rsp := Z.land (u64 (rsp regs - RED_ZONE_LEN)) 0xFFFFFFFFFFFFFFC0;
     rax := rax regs; other_regs := other_regs regs |}.

(** The loop that polls the process; the result is [success], or an early
    return. *)
Fixpoint poll_loop (fuel : nat) (pid t0 timeout : Z) : sys bool :=
  match fuel with
  | O => nofuel
  | S fuel =>
    let! w := on_kernel (waitpid pid true) in
    let next : sys bool :=
      on_kernel (fun k => (tt, usleep 100 k));;;
      let! t1 := on_kernel time in
      if t1 - t0 <? timeout then poll_loop fuel pid t0 timeout else ret false in
    match w with
    | WaitError _ => t_log "waitpid error (pid %d).\n";;; throw EUNKNOWN
    | WaitPid p status =>
      if p =? pid then
        if wifexited status || wcoredump status then
          t_log "%d failed %s.\n";;; throw EUNKNOWN
        else if wifstopped status then ret true
        else next
      else
        (if 0 <? p then
           t_log "waitpid: state changed on unexpected process: expected %d, got %d"
         else ret tt);;; next
    | WaitNone => next
    end
  end.

(** The code and the registers; [timeout] is the static [rr_timeout]. *)
Definition run_and_redirect (timeout pid : Z) (regs : registers_t) (routine : Z)
    : sys (Z * registers_t) := fun s =>
  let regs' := redirected regs routine in
  let m :=
    let! r := ulp_ptrace (PTRACE_SETREGS regs') pid in
    (if negb (r_ret r =? 0) then t_log "PTRACE_SETREGS error (pid %d).\n";;; throw ETARGETHOOK
     else ret tt);;;
    let! r := ulp_ptrace PTRACE_CONT pid in
    (if negb (r_ret r =? 0) then t_log "PTRACE_CONT error (pid %d).\n";;; throw ETARGETHOOK
     else ret tt);;;
    let! t0 := on_kernel time in
    let! success := poll_loop fuel pid t0 timeout in
    (if negb success then throw ETIME else ret tt);;;
    let! r := ulp_ptrace PTRACE_GETREGS pid in
    if negb (r_ret r =? 0) then t_log "PTRACE_GETREGS error (pid %d).\n";;; throw (-1)
    else ret (default regs' (r_regs r)) in
  match m s with
  | (Ok regs, s) => (Ok (0, regs), s)
  | (Err e, s) => (Ok (e, regs'), s)
  | (Ub, s) => (Ub, s)
  | (NoFuel, s) => (NoFuel, s)
  end.
End tool.
Arguments tool K : clear implicits.

(** ** What the kernel promises

    The documented behaviour of ptrace(2), process_vm_readv(2) and
    process_vm_writev(2) on a stopped process whose memory is [kmem]: a request
    that fails changes nothing, and a transfer of one vector is never split. *)
Class KernelLaws (K : Type) `{Kernel K} := {
  kmem : Z -> K -> mem;
  poke_law : forall pid a w k r k', ptrace (PTRACE_POKEDATA a w) pid k = (r, k') ->
    kmem pid k' = if r_errno r =? 0 then mem_write a (le_bytes 8 w) (kmem pid k) else kmem pid k;
  peek_law : forall pid a k r k', ptrace (PTRACE_PEEKDATA a) pid k = (r, k') ->
    kmem pid k' = kmem pid k /\
    (r_errno r = 0 -> mem_read a 8 (kmem pid k) = Some (le_bytes 8 (u64 (r_ret r))));
  writev_law : forall pid bs a k n e k', process_vm_writev pid bs a k = ((n, e), k') ->
    (n < 0 /\ e <> 0 /\ kmem pid k' = kmem pid k) \/
    (n = zlen bs /\ kmem pid k' = mem_write a bs (kmem pid k));
  readv_law : forall pid len a k n e bs k', process_vm_readv pid len a k = ((n, e, bs), k') ->
    kmem pid k' = kmem pid k /\
    ((n < 0 /\ e <> 0) \/ (n = len /\ mem_read a (Z.to_nat len) (kmem pid k) = Some bs));
  time_law : forall pid k, kmem pid (time k).2 = kmem pid k;
  usleep_law : forall pid n k, kmem pid (usleep n k) = kmem pid k }.

Section access.
Context {K : Type} `{KernelLaws K}.
Variable fuel : nat.

Definition tmem (pid : Z) (s : tool K) : mem := kmem pid (kernel s).

(** The outcome of one request, however often it was retried. *)
Lemma retry_inv request pid t0 n (R : reply -> mem -> mem -> Prop) :
  (forall k r k', ptrace request pid k = (r, k') -> R r (kmem pid k) (kmem pid k')) ->
  (forall r m m' m'' r', r_errno r <> 0 -> R r m m' -> R r' m' m'' -> R r' m m'') ->
  forall s r s', ulp_ptrace_retry n request pid t0 s = (Ok r, s') -> R r (tmem pid s) (tmem pid s').
Proof.
  intros HR Htrans. induction n as [|n IH]; intros s r s' Hs; [done|]. cbn [ulp_ptrace_retry] in Hs.
  apply bind_ok_inv in Hs as (r1 & s1 & E1 & Hs).
  unfold on_kernel in E1. destruct (ptrace request pid (kernel s)) as [r1' k1] eqn:Ep.
  injection E1 as -> <-. specialize (HR _ _ _ Ep). cbv zeta in Hs.
  destruct (_ || _ || _ || _ || _) eqn:Estop; [by injection Hs as <- <-|].
  apply orb_false_iff in Estop as [_ Eno]. zbool.
  apply bind_ok_inv in Hs as ([] & s2 & E2 & Hs).
  assert (H2 : tmem pid s2 = kmem pid k1).
  { destruct (_ || _); injection E2 as <-; unfold tmem; simpl; [apply usleep_law|done]. }
  apply bind_ok_inv in Hs as (t1 & s3 & E3 & Hs).
  assert (H3 : tmem pid s3 = kmem pid k1).
  { unfold on_kernel in E3. destruct (time (kernel s2)) as [t k2] eqn:Et. injection E3 as <- <-.
    rewrite <- H2. unfold tmem. simpl. pose proof (time_law pid (kernel s2)) as Ht. by rewrite Et in Ht. }
  destruct (t1 - t0 <? PTRACE_TIMEOUT).
  - apply IH in Hs. rewrite H3 in Hs. by apply (Htrans r1 _ (kmem pid k1)).
  - injection Hs as <- <-. unfold tmem at 1. by rewrite H3.
Qed.

Lemma ulp_ptrace_inv request pid (R : reply -> mem -> mem -> Prop) s r s' :
  (forall k r k', ptrace request pid k = (r, k') -> R r (kmem pid k) (kmem pid k')) ->
  (forall r m m' m'' r', r_errno r <> 0 -> R r m m' -> R r' m' m'' -> R r' m m'') ->
  ulp_ptrace fuel request pid s = (Ok r, s') -> R r (tmem pid s) (tmem pid s').
Proof.
  intros HR Htrans Hs. unfold ulp_ptrace in Hs.
  apply bind_ok_inv in Hs as (r1 & s1 & E1 & Hs).
  unfold on_kernel in E1. destruct (ptrace request pid (kernel s)) as [r1' k1] eqn:Ep.
  injection E1 as -> <-. pose proof (HR _ _ _ Ep) as H1.
  destruct (negb _) eqn:En; [by injection Hs as <- <-|]. zbool.
  apply bind_ok_inv in Hs as (t0 & s2 & E2 & Hs).
  unfold on_kernel in E2. simpl in E2. destruct (time k1) as [t k2] eqn:Et. injection E2 as <- <-.
  apply (retry_inv _ _ _ _ R HR Htrans) in Hs.
  pose proof (time_law pid k1) as Ht. rewrite Et in Ht. simpl in Ht.
  unfold tmem at 1 in Hs. simpl in Hs. rewrite Ht in Hs.
  apply (Htrans r1 _ (kmem pid k1)); [|done..].
  intros E0. rewrite E0 in En. done.
Qed.

Lemma poke_ok pid a w s r s' :
  ulp_ptrace fuel (PTRACE_POKEDATA a w) pid s = (Ok r, s') ->
  tmem pid s' = if r_errno r =? 0 then mem_write a (le_bytes 8 w) (tmem pid s) else tmem pid s.
Proof.
  apply (ulp_ptrace_inv _ _ (fun r m m' => m' = if r_errno r =? 0 then mem_write a (le_bytes 8 w) m else m)).
  - intros k r0 k'. apply poke_law.
  - intros r0 m m' m'' r' He -> ->. apply Z.eqb_neq in He. by rewrite He.
Qed.

Lemma peek_ok pid a s r s' :
  ulp_ptrace fuel (PTRACE_PEEKDATA a) pid s = (Ok r, s') ->
  tmem pid s' = tmem pid s /\
  (r_errno r = 0 -> mem_read a 8 (tmem pid s) = Some (le_bytes 8 (u64 (r_ret r)))).
Proof.
  apply (ulp_ptrace_inv _ _ (fun r m m' => m' = m /\
    (r_errno r = 0 -> mem_read a 8 m = Some (le_bytes 8 (u64 (r_ret r)))))).
  - intros k r0 k'. apply peek_law.
  - intros r0 m m' m'' r' _ [-> _] [-> ?]. done.
Qed.

Lemma poke_longs_ok n buf pid addr s a s' :
  Forall is_byte buf -> (8 * n <= length buf)%nat -> 0 <= addr -> addr + zlen buf < 2 ^ 64 ->
  poke_longs fuel n buf pid addr s = (Ok a, s') ->
  a = addr + 8 * Z.of_nat n /\
  tmem pid s' = mem_write addr (take (8 * n) buf) (tmem pid s).
Proof.
  revert buf addr s. induction n as [|n IH]; intros buf addr s Hb Hl Ha Hlim Hs.
  - injection Hs as <- <-. rewrite take_0. split; [lia|done].
  - cbn [poke_longs] in Hs. apply bind_ok_inv in Hs as (r & s1 & E1 & Hs).
    apply poke_ok in E1. destruct (r_errno r =? 0); [|done]. cbn [negb] in Hs.
    assert (H8 : length (take 8 buf) = 8%nat) by (rewrite length_take; lia).
    rewrite <- H8 in E1 at 1. rewrite le_bytes_val in E1 by (by apply Forall_take).
    assert (Hz : zlen buf = 8 + zlen (drop 8 buf)) by (rewrite zlen_drop; unfold zlen; lia).
    pose proof (zlen_nonneg (drop 8 buf)).
    rewrite wrap_id in Hs by (unfold in_u; lia).
    apply IH in Hs as [-> ->]; [|by apply Forall_drop|rewrite length_drop; lia|lia|lia].
    split; [lia|]. rewrite E1. replace (8 * S n)%nat with (8 + 8 * n)%nat by lia.
    rewrite <- take_take_drop, mem_write_app. do 2 f_equal. unfold zlen. by rewrite H8.
Qed.
End access.

(** ** The test for a zero byte in a word *)

(** [&] acts on the low byte and on the rest apart. *)
Lemma land_split u v :
  Z.land u v = Z.land (u mod 256) (v mod 256) + 256 * Z.land (u / 256) (v / 256).
Proof.
  assert (Hm : forall z, z mod 256 = Z.land z (Z.ones 8)) by (intros; by rewrite Z.land_ones).
  assert (Hd : forall z, z / 256 = Z.shiftr z 8) by (intros; by rewrite Z.shiftr_div_pow2).
  rewrite !Hd, <- Z.shiftr_land, <- Hd, !Hm.
  replace (Z.land (Z.land u (Z.ones 8)) (Z.land v (Z.ones 8))) with (Z.land (Z.land u v) (Z.ones 8)).
  - rewrite <- Hm. pose proof (Z.div_mod (Z.land u v) 256). lia.
  - apply Z.bits_inj. intros i. rewrite !Z.land_spec.
    by destruct (Z.testbit u i), (Z.testbit v i), (Z.testbit (Z.ones 8) i).
Qed.

Definition ones_word (n : nat) : Z := le_val (replicate n 1).
Definition tops_word (n : nat) : Z := le_val (replicate n 128).

(** The test on a word of any number of bytes, without wrap-around. *)
Definition zero_test (l : Z) (n : nat) : Z :=
  Z.land (Z.land (l - ones_word n) (Z.lnot l)) (tops_word n).

Lemma land3_split u v w :
  Z.land (Z.land u v) w =
  Z.land (Z.land (u mod 256) (v mod 256)) (w mod 256) +
  256 * Z.land (Z.land (u / 256) (v / 256)) (w / 256).
Proof.
  assert (Hb : forall a b, 0 <= a < 256 -> 0 <= Z.land a b < 256).
  { intros a b Ha. rewrite <- (Z.mod_small a 256) by done. change 256 with (2 ^ 8).
    rewrite <- Z.land_ones, <- Z.land_assoc, (Z.land_comm (Z.ones 8)), Z.land_assoc, Z.land_ones by lia.
    apply Z.mod_pos_bound. lia. }
  rewrite (land_split (Z.land u v) w), (land_split u v).
  pose proof (Hb (u mod 256) (v mod 256) (Z.mod_pos_bound u 256 ltac:(lia))) as Hl.
  rewrite (Z.mul_comm 256 (Z.land (u / 256) _)), Z_mod_plus_full, Z.div_add, Z.mod_small,
    (Z.div_small (Z.land _ _)) by lia.
  by rewrite Z.add_0_l.
Qed.

(** The low byte of the test is zero exactly when the low byte is not. *)
Lemma low_byte_test :
  forallb (fun b => (Z.land (Z.land ((b - 1) mod 256) (Z.lnot b mod 256)) 128 =? 0) && negb (b =? 0))
    (map Z.of_nat (seq 1 255)) = true.
Proof. vm_compute. done. Qed.

Lemma zero_test_spec bs :
  Forall is_byte bs -> (zero_test (le_val bs) (length bs) <> 0 <-> Exists (fun b => b = 0) bs).
Proof.
  unfold zero_test, is_byte, in_u. induction 1 as [|b bs Hb Hbs IH].
  - rewrite Exists_nil. done.
  - rewrite Exists_cons. rewrite <- IH. clear IH.
    unfold ones_word, tops_word. simpl length. simpl replicate. cbn [le_val].
    set (v := le_val bs). set (o := le_val (replicate _ 1)). set (t := le_val (replicate _ 128)).
    rewrite land3_split.
    replace (b + 256 * v - (1 + 256 * o)) with ((b - 1) + (v - o) * 256) by lia.
    replace (Z.lnot (b + 256 * v)) with ((255 - b) + Z.lnot v * 256) by (unfold Z.lnot; lia).
    replace (128 + 256 * t) with (128 + t * 256) by lia.
    rewrite !Z_mod_plus_full, !Z.div_add, (Z.mod_small 128), (Z.div_small 128) by lia.
    rewrite (Z.mod_small (255 - b)), (Z.div_small (255 - b)), !Z.add_0_l by lia.
    destruct (decide (b = 0)) as [->|Hne].
    + split; [by left|]. intros _. change ((0 - 1) mod 256) with 255.
      change (Z.land (Z.land 255 (255 - 0)) 128) with 128.
      intros H. assert (Hm : (128 + 256 * Z.land (Z.land ((0 - 1) / 256 + (v - o)) (Z.lnot v)) t) mod 256 = 0)
        by (by rewrite H).
      rewrite (Z.mul_comm 256), Z_mod_plus_full in Hm. discriminate Hm.
    + pose proof low_byte_test as Ht. rewrite forallb_forall in Ht. specialize (Ht b).
      rewrite andb_true_iff, Z.eqb_eq in Ht. destruct Ht as [Ht _].
      { apply in_map_iff. exists (Z.to_nat b). split; [lia|]. apply in_seq. lia. }
      replace (Z.lnot b mod 256) with (255 - b) in Ht.
      2:{ apply (Z.mod_unique_pos _ _ (-1)); unfold Z.lnot; lia. }
      rewrite Ht, (Z.div_small (b - 1)), !Z.add_0_l by lia. intuition lia.
Qed.

(** The bit trick is exact: on every 64-bit word, [hasbytezero] answers true
    if and only if one of the eight bytes is zero. *)
Theorem hasbytezero_spec bs
    (Hb : Forall is_byte bs)
    (Hl : length bs = 8%nat) :
  hasbytezero (le_val bs) = true <-> Exists (fun b => b = 0) bs.
Proof.
  rewrite <- (zero_test_spec bs Hb), Hl. unfold hasbytezero, zero_test.
  change (ones_word 8) with 0x0101010101010101. change (tops_word 8) with 0x8080808080808080.
  rewrite negb_true_iff, Z.eqb_neq.
  assert (Hw : forall x y, Z.land (Z.land (u64 x) (u64 y)) 0x8080808080808080 =
                           Z.land (Z.land x y) 0x8080808080808080).
  { intros x y. unfold wrap. rewrite <- !Z.land_ones by lia.
    change 0x8080808080808080 with (Z.land (Z.ones 64) 0x8080808080808080) at 2.
    apply Z.bits_inj. intros i. rewrite !Z.land_spec.
    by destruct (Z.testbit x i), (Z.testbit y i), (Z.testbit (Z.ones 64) i). }
  by rewrite Hw.
Qed.

(** ** Transfers *)

Section no_throw.
Context {K : Type} `{Kernel K}.

(** A computation that never returns early. *)
Definition no_throw {A} (m : st (tool K) Z A) : Prop := forall s e s', m s <> (Err e, s').

Lemma no_throw_bind {A B} (m : st (tool K) Z A) (k : A -> st (tool K) Z B) :
  no_throw m -> (forall a, no_throw (k a)) -> no_throw (bind m k).
Proof.
  intros Hm Hk s e s'. unfold bind. specialize (Hm s). destruct (m s) as [[] s1]; try done.
  - apply Hk.
  - by destruct (Hm e0 s1).
Qed.

Lemma no_throw_ret {A} (a : A) : no_throw (ret a).
Proof. by intros s e s'. Qed.

Lemma no_throw_kernel {A} (f : K -> A * K) : no_throw (on_kernel f).
Proof. intros s e s'. unfold on_kernel. by destruct (f (kernel s)). Qed.

Lemma no_throw_if {A} (b : bool) (m k : st (tool K) Z A) :
  no_throw m -> no_throw k -> no_throw (if b then m else k).
Proof. by destruct b. Qed.

Ltac calm := repeat first
  [ apply no_throw_ret | apply no_throw_kernel | apply no_throw_if
  | apply no_throw_bind; [|intros ?] ].

Lemma no_throw_retry n request pid t0 : no_throw (ulp_ptrace_retry n request pid t0).
Proof. induction n as [|n IH]; cbn [ulp_ptrace_retry]; [done|]. calm. exact IH. Qed.

Lemma no_throw_ptrace n request pid : no_throw (ulp_ptrace n request pid).
Proof. unfold ulp_ptrace. calm. apply no_throw_retry. Qed.
End no_throw.

Section transfers.
Context {K : Type} `{KernelLaws K}.
Variable fuel : nat.

(** A failed sequence of pokes has written some of the words. *)
Lemma poke_longs_failed n buf pid addr s e s' :
  Forall is_byte buf -> (8 * n <= length buf)%nat -> 0 <= addr -> addr + zlen buf < 2 ^ 64 ->
  poke_longs fuel n buf pid addr s = (Err e, s') ->
  exists k, (k < n)%nat /\ tmem pid s' = mem_write addr (take (8 * k) buf) (tmem pid s).
Proof.
  revert buf addr s. induction n as [|n IH]; intros buf addr s Hb Hl Ha Hlim Hs; [done|].
  cbn [poke_longs] in Hs. unfold bind at 1 in Hs.
  destruct (ulp_ptrace fuel _ pid s) as [[r| | |] s1] eqn:E1; try done.
  2:{ by apply (no_throw_ptrace (K := K) fuel _ _ _ _ _) in E1. }
  apply poke_ok in E1. destruct (r_errno r =? 0); cbn [negb] in Hs.
  2:{ exists 0%nat. injection Hs as <- <-. rewrite Nat.mul_0_r, take_0. split; [lia|done]. }
  assert (H8 : length (take 8 buf) = 8%nat) by (rewrite length_take; lia).
  rewrite <- H8 in E1 at 1. rewrite le_bytes_val in E1 by (by apply Forall_take).
  assert (Hz : zlen buf = 8 + zlen (drop 8 buf)) by (rewrite zlen_drop; unfold zlen; lia).
  pose proof (zlen_nonneg (drop 8 buf)).
  rewrite wrap_id in Hs by (unfold in_u; lia).
  apply IH in Hs as (k & Hk & ->); [|by apply Forall_drop|rewrite length_drop; lia|lia|lia].
  exists (S k). split; [lia|]. rewrite E1. replace (8 * S k)%nat with (8 + 8 * k)%nat by lia.
  rewrite <- take_take_drop, mem_write_app. do 2 f_equal. unfold zlen. by rewrite H8.
Qed.

(** The last, incomplete word: what follows the bytes keeps its value. *)
Lemma merge_word a xs m w :
  (length xs <= 8)%nat -> mem_read a 8 m = Some w ->
  mem_write a (splice 0 xs w) m = mem_write a xs m.
Proof.
  intros Hl Hr. pose proof (mem_read_length _ _ _ _ Hr) as Hw.
  unfold splice. rewrite take_0, app_nil_l, Nat.add_0_l, mem_write_app.
  apply mem_write_read.
  replace 8%nat with (length xs + (8 - length xs))%nat in Hr by lia.
  rewrite mem_read_app in Hr.
  destruct (mem_read a (length xs) m) as [w1|] eqn:E1; [|done].
  destruct (mem_read (a + Z.of_nat (length xs)) (8 - length xs) m) as [w2|] eqn:E2; [|done].
  injection Hr as <-. rewrite drop_app_length' by (symmetry; by apply mem_read_length in E1).
  rewrite mem_read_write_out by (unfold zlen; lia). unfold zlen.
  by rewrite (mem_read_length _ _ _ _ E2).
Qed.

Lemma write_tail pid a xs s rc s' :
  Forall is_byte xs -> (length xs < 8)%nat ->
  code (let! r := ulp_ptrace fuel (PTRACE_PEEKDATA a) pid in
    if negb (r_errno r =? 0) then
      t_log "unable to read byte before writing: %s\n";;; throw 1
    else
      let remainder := splice 0 xs (le_bytes 8 (u64 (r_ret r))) in
      let! r := ulp_ptrace fuel (PTRACE_POKEDATA a (le_val remainder)) pid in
      if negb (r_errno r =? 0) then
        t_log "Unable to write long to process %d at address %lx: %s\n";;; throw 1
      else ret 0) s = (Ok rc, s') ->
  (rc = 0 /\ tmem pid s' = mem_write a xs (tmem pid s)) \/ (rc = 1 /\ tmem pid s' = tmem pid s).
Proof.
  intros Hb Hl Hs. unfold code, bind at 1 in Hs.
  destruct (ulp_ptrace fuel (PTRACE_PEEKDATA a) pid s) as [[r| | |] s1] eqn:E1; try done.
  2:{ by apply no_throw_ptrace in E1. }
  apply peek_ok in E1 as [Em Er].
  destruct (Z.eqb_spec (r_errno r) 0) as [Hz|]; cbn [negb] in Hs.
  2:{ right. injection Hs as <- <-. done. }
  specialize (Er Hz). cbv zeta in Hs. unfold bind at 1 in Hs.
  set (w := splice 0 xs _) in *.
  destruct (ulp_ptrace fuel (PTRACE_POKEDATA a (le_val w)) pid s1) as [[r2| | |] s2] eqn:E2; try done.
  2:{ by apply no_throw_ptrace in E2. }
  apply poke_ok in E2. rewrite Em in E2.
  destruct (r_errno r2 =? 0); cbn [negb] in Hs.
  2:{ right. injection Hs as <- <-. done. }
  left. injection Hs as <- <-. split; [done|]. rewrite E2.
  assert (Hw : Forall is_byte w /\ length w = 8%nat).
  { unfold w. split; [|rewrite length_splice; rewrite length_le_bytes; lia].
    unfold splice. rewrite take_0. apply Forall_app. split; [done|].
    apply Forall_app. split; [done|]. apply Forall_drop, le_bytes_is_byte. }
  destruct Hw as [Hw H8]. rewrite <- H8, le_bytes_val by done. by apply merge_word; [lia|].
Qed.

Lemma write_bytes_ptrace_ok buf pid addr s rc s' :
  Forall is_byte buf -> 0 <= addr -> addr + zlen buf < 2 ^ 64 ->
  write_bytes_ptrace fuel buf pid addr s = (Ok rc, s') ->
  (rc = 0 /\ tmem pid s' = mem_write addr buf (tmem pid s)) \/
  (rc = 1 /\ exists k, (k < length buf)%nat /\ tmem pid s' = mem_write addr (take k buf) (tmem pid s)).
Proof.
  intros Hb Ha Hlim. unfold write_bytes_ptrace.
  set (n := (length buf / 8)%nat).
  pose proof (Nat.div_mod (length buf) 8 ltac:(lia)) as Hdm. fold n in Hdm.
  pose proof (Nat.mod_upper_bound (length buf) 8 ltac:(lia)) as Hm.
  unfold code at 1, bind at 1.
  destruct (poke_longs fuel n buf pid addr s) as [[a|e| |] s1] eqn:E1; try done.
  - intros Hs. apply poke_longs_ok in E1 as [-> E1]; [|done|lia|done|done].
    destruct (0 <? length buf mod 8)%nat eqn:Hr.
    + apply Nat.ltb_lt in Hr. eapply write_tail in Hs; [|by apply Forall_drop|rewrite length_drop; lia].
      destruct Hs as [[-> Hs]|[-> Hs]]; [left|right]; (split; [done|]).
      * rewrite Hs, E1. rewrite <- (take_drop (8 * n) buf) at 3. rewrite mem_write_app.
        do 2 f_equal. unfold zlen. rewrite length_take. lia.
      * exists (8 * n)%nat. split; [lia|]. by rewrite Hs.
    + apply Nat.ltb_ge in Hr. injection Hs as <- <-. left. split; [done|].
      rewrite E1, take_ge by lia. done.
  - intros [= <- <-]. right.
    assert (He : e = 1).
    { clear - E1. clearbody n. revert buf addr s E1. induction n as [|n IH]; intros buf addr s E; [done|].
      cbn [poke_longs] in E. unfold bind at 1 in E.
      destruct (ulp_ptrace fuel _ pid s) as [[r| | |] s2] eqn:E2; try done.
      - destruct (negb _); [by injection E as <- _|]. by apply IH in E.
      - by apply no_throw_ptrace in E2. }
    split; [done|]. apply poke_longs_failed in E1 as (k & Hk & E1); [|done|lia|done|done].
    exists (8 * k)%nat. split; [lia|done].
Qed.
End transfers.

(** A write through ptrace: when [write_bytes_ptrace] reports success the
    target's memory has exactly the buffer at the address, and every byte before
    and after it, those of the last word included, keeps its value; when it
    reports failure, a proper prefix of the buffer has been written. *)
Theorem write_bytes_ptrace_spec {K} `{KernelLaws K} fuel buf pid addr s rc s'
    (Hb : Forall is_byte buf)
    (Ha : 0 <= addr /\ addr + zlen buf < 2 ^ 64)
    (Hs : write_bytes_ptrace fuel buf pid addr s = (Ok rc, s')) :
  (rc = 0 /\ tmem pid s' = mem_write addr buf (tmem pid s)) \/
  (rc = 1 /\ exists k, (k < length buf)%nat /\ tmem pid s' = mem_write addr (take k buf) (tmem pid s)).
Proof. destruct Ha. by apply write_bytes_ptrace_ok with fuel. Qed.

Section vectors.
Context {K : Type} `{KernelLaws K}.
Variable fuel : nat.

Lemma read_retry_ok n buf len pid addr s err buf' s' :
  0 <= len -> zlen buf = len ->
  read_retry n buf len pid addr 0 s = (Ok (err, buf'), s') ->
  tmem pid s' = tmem pid s /\
  (err = 0 -> mem_read addr (Z.to_nat len) (tmem pid s) = Some buf').
Proof.
  intros Hlen Hbuf Hs. destruct n as [|n]; [done|]. cbn [read_retry] in Hs.
  apply bind_ok_inv in Hs as ([[k e] bs] & s1 & E1 & Hs). unfold on_kernel in E1.
  destruct (process_vm_readv pid len addr (kernel s)) as [p k1] eqn:Ep. injection E1 as -> <-.
  apply readv_law in Ep as [Em Ep].
  destruct (Z.ltb_spec k 0) as [Hk|Hk].
  - injection Hs as <- <- <-. split; [done|]. destruct Ep as [[_ He]|[-> _]]; [done|lia].
  - destruct Ep as [[? _]|[-> Hr]]; [lia|]. rewrite Z.add_0_l, Z.eqb_refl in Hs.
    injection Hs as <- <- <-. split; [done|]. intros _.
    unfold tmem. rewrite Hr. pose proof (mem_read_length _ _ _ _ Hr). f_equal.
    unfold splice. rewrite take_0, app_nil_l, drop_ge, app_nil_r; [done|]. unfold zlen in *. lia.
Qed.

Lemma read_retry_total n buf len pid addr s :
  exists r s', read_retry (S n) buf len pid addr 0 s = (Ok r, s').
Proof.
  cbn [read_retry]. unfold bind, on_kernel.
  destruct (process_vm_readv pid len addr (kernel s)) as [[[k e] bs] k1] eqn:Ep.
  apply readv_law in Ep as [_ Ep]. destruct (Z.ltb_spec k 0); [by eexists _, _|].
  destruct Ep as [[? _]|[-> _]]; [lia|]. rewrite Z.add_0_l, Z.eqb_refl. by eexists _, _.
Qed.

(** The words read are those of memory, up to the first that has a zero byte. *)
Lemma read_string_loop_ok words acc pid addr s out s' :
  (forall x b, tmem pid s !! x = Some b -> is_byte b) ->
  0 <= addr -> addr + 8 * Z.of_nat words < 2 ^ 64 ->
  read_string_loop fuel words acc pid addr s = (Ok out, s') ->
  exists pre last, out = acc ++ pre ++ last /\ no_nul pre /\ Exists (fun b => b = 0) last /\
    mem_read addr (length (pre ++ last)) (tmem pid s) = Some (pre ++ last).
Proof.
  revert acc addr s. induction words as [|words IH]; intros acc addr s Hb Ha Hlim Hs; [done|].
  cbn [read_string_loop] in Hs. apply bind_ok_inv in Hs as ([err word] & s1 & E1 & Hs).
  unfold read_long in E1. apply read_retry_ok in E1 as [Em E1]; [|lia|done].
  destruct (Z.eqb_spec err 0) as [He|]; cbn [negb] in Hs; [|done].
  specialize (E1 He). change (Z.to_nat 8) with 8%nat in E1.
  pose proof (mem_read_length _ _ _ _ E1) as Hl.
  assert (Hw : Forall is_byte word) by (by eapply mem_read_bytes).
  destruct (hasbytezero (le_val word)) eqn:Hz.
  - injection Hs as <- <-. exists [], word. simpl. rewrite Hl.
    apply (hasbytezero_spec word Hw Hl) in Hz. split_and!; [done|constructor|done|done].
  - rewrite wrap_id in Hs by (unfold in_u; lia).
    apply IH in Hs as (pre & last & -> & Hpre & Hlast & Hr); [|by rewrite Em|lia|lia].
    exists (word ++ pre), last. rewrite <- !app_assoc. split; [done|]. split; [|split; [done|]].
    + apply Forall_app. split; [|done]. apply Forall_forall. intros b Hin ->.
      apply not_true_iff_false in Hz. apply Hz, (hasbytezero_spec word Hw Hl), Exists_exists.
      exists 0. split; [|done]. done.
    + rewrite length_app, Hl, mem_read_app, E1. rewrite Em in Hr. change (Z.of_nat 8) with 8. by rewrite Hr.
Qed.
End vectors.

Lemma exists_cut l : Exists (fun b => b = 0) l -> exists u v, l = u ++ 0 :: v /\ no_nul u.
Proof.
  induction 1 as [b l ->|b l _ (u & v & -> & Hu)]; [by exists [], l; split; [|constructor]|].
  destruct (decide (b = 0)) as [->|Hb]; [by exists [], (u ++ 0 :: v); split; [|constructor]|].
  exists (b :: u), v. split; [done|]. by constructor.
Qed.

(** Reading a string: when [read_string] succeeds, the C string in the buffer
    it returns, with its NUL, is what the target's memory holds at the address. *)
Theorem read_string_spec {K} `{KernelLaws K} fuel pid addr s rc buffer s'
    (Hbytes : forall x b, tmem pid s !! x = Some b -> is_byte b)
    (Ha : 0 <= addr /\ addr + 8 * Z.of_nat fuel < 2 ^ 64)
    (Hs : read_string fuel pid addr s = (Ok (rc, Some buffer), s')) :
  rc = 0 /\
  mem_read addr (S (length (cstr buffer))) (tmem pid s) = Some (cstr buffer ++ [0]).
Proof.
  unfold read_string in Hs. destruct (read_string_loop fuel fuel [] pid addr s) as [[b| | |] s1] eqn:E;
    try done. injection Hs as <- <- <-. split; [done|].
  apply read_string_loop_ok in E as (pre & last & -> & Hpre & Hlast & Hr); [|done|lia|lia].
  rewrite app_nil_l in *. destruct (exists_cut _ Hlast) as (u & v & -> & Hu).
  rewrite app_assoc. rewrite app_assoc in Hr.
  assert (Hnn : no_nul (pre ++ u)) by (by apply Forall_app).
  rewrite (cstr_nul _ v Hnn).
  replace (length ((pre ++ u) ++ 0 :: v)) with (S (length (pre ++ u)) + length v)%nat in Hr
    by (rewrite (length_app (pre ++ u)); simpl; lia).
  rewrite mem_read_app in Hr.
  destruct (mem_read addr (S (length (pre ++ u))) (tmem pid s)) as [xs|] eqn:Ex; [|done].
  destruct (mem_read _ (length v) _) as [ys|] eqn:Ey; [|done]. injection Hr as Hr.
  pose proof (mem_read_length _ _ _ _ Ex) as Hx. f_equal.
  rewrite <- (take_app_length xs ys), Hr, Hx.
  change (0 :: v) with ([0] ++ v). rewrite app_assoc, take_app_length'; [done|].
  rewrite (length_app (pre ++ u)). simpl. lia.
Qed.

(** The vector transfers always return, and when they report success they
    have moved every byte: [write_bytes] leaves the buffer in memory, and
    [read_memory] returns what memory holds. *)
Theorem transfers_spec {K} `{KernelLaws K} fuel buf pid addr s :
  (exists rc s', write_bytes (S fuel) buf pid addr s = (Ok rc, s') /\
     (rc = 0 -> tmem pid s' = mem_write addr buf (tmem pid s))) /\
  (exists rc out s', read_memory (S fuel) buf (zlen buf) pid addr s = (Ok (rc, out), s') /\
     tmem pid s' = tmem pid s /\
     (rc = 0 -> mem_read addr (length buf) (tmem pid s) = Some out)).
Proof.
  split.
  - unfold write_bytes. cbn [write_retry]. unfold bind at 1, on_kernel.
    destruct (process_vm_writev pid buf addr (kernel s)) as [[n e] k] eqn:Ep.
    apply writev_law in Ep as [(Hn & He & Hm)|(-> & Hm)].
    + rewrite (proj2 (Z.ltb_lt n 0)) by done. eexists _, _. split; [reflexivity|]. by intros ->.
    + rewrite (proj2 (Z.ltb_ge (zlen buf) 0)), Z.add_0_l, Z.eqb_refl by apply zlen_nonneg.
      by eexists _, _.
  - unfold read_memory. destruct (read_retry_total fuel buf (zlen buf) pid addr s) as ([rc out] & s' & E).
    exists rc, out, s'. split; [done|]. apply read_retry_ok in E; [|apply zlen_nonneg|done].
    by rewrite zlen_nat in E.
Qed.

(** The documented errors of ptrace(2), and a clock in microseconds that never
    goes back and advances by a sleep. *)
Class ClockLaws (K : Type) `{Kernel K} := {
  us : K -> Z;
  time_us : forall k, (time k).1 = us k / 1000000 /\ us k <= us (time k).2;
  ptrace_us : forall r pid k, us k <= us (ptrace r pid k).2;
  usleep_us : forall n k, us k + n <= us (usleep n k);
  ptrace_errnos : forall r pid k,
    r_errno (ptrace r pid k).1 ∈ [0; EPERM; ESRCH; EIO; EFAULT; EBUSY; EINVAL] }.

Section termination.
Context {K : Type} `{ClockLaws K}.

Lemma retry_terminates n request pid t0 s :
  (t0 + 6) * 1000000 <= us (kernel s) + 10000 * Z.of_nat n ->
  exists r s', ulp_ptrace_retry (S n) request pid t0 s = (Ok r, s').
Proof.
  revert s. induction n as [|n IH]; intros s Hus; cbn [ulp_ptrace_retry]; unfold bind at 1, on_kernel at 1;
    pose proof (ptrace_us request pid (kernel s)) as Hp;
    pose proof (ptrace_errnos request pid (kernel s)) as He;
    destruct (ptrace request pid (kernel s)) as [r k]; simpl in Hp, He; cbv zeta.
  all: destruct (_ || _ || _ || _ || _) eqn:Estop; [by eexists _, _|].
  all: assert (Hs : (r_errno r =? EBUSY) || (r_errno r =? EPERM) = true)
    by (rewrite !elem_of_cons, elem_of_nil in He; unfold EIO, EFAULT, EINVAL, ESRCH, EBUSY, EPERM in *;
        rewrite !orb_false_iff, !Z.eqb_neq in Estop; rewrite orb_true_iff, !Z.eqb_eq; lia).
  all: rewrite Hs; unfold bind at 1, on_kernel at 1; unfold bind at 1, on_kernel at 1; cbn [kernel].
  all: pose proof (usleep_us 10000 k) as Hu; pose proof (time_us (usleep 10000 k)) as [Ht1 Ht2];
    destruct (time (usleep 10000 k)) as [t1 k2]; simpl in Ht1, Ht2.
  all: destruct (Z.ltb_spec (t1 - t0) PTRACE_TIMEOUT) as [Hlt|]; [|by eexists _, _].
  - exfalso. unfold PTRACE_TIMEOUT in Hlt.
    assert (t0 + 6 <= t1) by (rewrite Ht1; apply Z.div_le_lower_bound; lia). lia.
  - apply IH. cbn [kernel]. lia.
Qed.
End termination.

(** C40. The retry loop of the ptrace wrapper ends: whatever the kernel answers,
    601 iterations are enough for the five seconds of [PTRACE_TIMEOUT], and a
    result is returned. *)
Theorem ulp_ptrace_terminates {K} `{ClockLaws K} fuel request pid s
    (Hfuel : (601 <= fuel)%nat) :
  exists r s', ulp_ptrace fuel request pid s = (Ok r, s').
Proof.
  unfold ulp_ptrace, bind at 1, on_kernel at 1.
  destruct (ptrace request pid (kernel s)) as [r k]. destruct (negb _); [by eexists _, _|].
  unfold bind at 1, on_kernel at 1. cbn [kernel].
  pose proof (time_us k) as [Ht Hk]. destruct (time k) as [t0 k']. simpl in Ht, Hk.
  destruct fuel as [|n]; [lia|]. apply retry_terminates. cbn [kernel].
  pose proof (Z.div_mod (us k) 1000000 ltac:(lia)).
  pose proof (Z.mod_pos_bound (us k) 1000000 ltac:(lia)). lia.
Qed.

(** How a routine of libpulp is entered: the program counter is the routine
    past its landing nops, the stack pointer lies below the red zone of the
    interrupted frame, less than 64 bytes further down than it must, and is
    aligned to 64 bytes; the other registers are untouched. *)
Theorem redirected_spec regs routine
    (Hsp : RED_ZONE_LEN + 64 <= rsp regs < 2 ^ 64)
    (Hr : 0 <= routine < 2 ^ 64 - RESTART_SYSCALL_SIZE) :
  let regs' := redirected regs routine in
  rip regs' = routine + RESTART_SYSCALL_SIZE /\
  rsp regs' mod 64 = 0 /\
  rsp regs - RED_ZONE_LEN - 64 < rsp regs' <= rsp regs - RED_ZONE_LEN /\
  rax regs' = rax regs /\ other_regs regs' = other_regs regs.
Proof.
  unfold RED_ZONE_LEN, RESTART_SYSCALL_SIZE in *. cbn [rip rsp rax other_regs redirected].
  unfold RED_ZONE_LEN, RESTART_SYSCALL_SIZE. rewrite !(wrap_id 64) by (unfold in_u; lia).
  set (x := rsp regs - 128).
  assert (Hx : Z.land x 0xFFFFFFFFFFFFFFC0 = x - x mod 64).
  { replace (Z.land x 0xFFFFFFFFFFFFFFC0) with (Z.ldiff x (Z.ones 6)).
    - rewrite Z.ldiff_ones_r, Z.shiftl_mul_pow2, Z.shiftr_div_pow2 by lia. change (2 ^ 6) with 64.
      pose proof (Z.div_mod x 64). lia.
    - rewrite Z.ldiff_land. replace 0xFFFFFFFFFFFFFFC0 with (Z.land (Z.ones 64) (Z.lnot (Z.ones 6))) by done.
      rewrite Z.land_assoc. f_equal. rewrite Z.land_ones, Z.mod_small by lia. done. }
  rewrite Hx. pose proof (Z.mod_pos_bound x 64 ltac:(lia)).
  split_and!; [done| |lia|lia|done|done].
  rewrite Zminus_mod_idemp_r, Z.sub_diag. done.
Qed.
