(* ===== verification/InsnQueueTool.v ===== *)
(** * The tool's side of the instruction queue (tools/insn_queue.c)

    The tool copies the queue out of the target, checks its version, interprets
    it with ptrace as the backend, and resets the queue in the target. *)

From stdpp Require Import gmap.
From S2P Require Import Prelude Errors Memory InsnQueue Ptrace.

Open Scope ulp_scope.

(** The fields of [struct ulp_process] and [struct ulp_dynobj] used here. *)
Record libpulp_dynobj := { dyn_insn_queue : Z; insn_queue_version : Z }.

Section tool_queue.
Context {K : Type} `{Kernel K}.
Variable fuel : nat.

Abbreviation sys A := (st (tool K) Z A).

(** [insn_interpret_write] on the process [remote_pid]; a transfer that does
    not end is excluded by [ulp_ptrace_terminates]. *)
#[export] Instance tool_backend (remote_pid : Z) : WriteBackend (tool K) := {
  insn_interpret_write size a bs w :=
    match write_bytes_ptrace fuel bs remote_pid a w with
    | (Ok rc, w') => (if negb (rc =? 0) then -1 else size, w')
    | (_, w') => (-1, w')
    end }.

Definition int_at (off : nat) (h : bytes) : Z := s32 (le_val (slice off 4 h)).

(** The structure in the tool's memory, from its bytes. *)
Definition queue_of (h buffer : bytes) : insn_queue :=
  {| q_version := int_at 0 h; q_num_insns := int_at 4 h; q_size := int_at 8 h;
     q_align := int_at 12 h; q_buffer := buffer |}.

Definition zero_buffer : bytes := replicate (Z.to_nat INSN_BUFFER_MAX) 0.

(** The code and the local queue. *)
Definition insnq_get_from_remote_process (queue_addr pid : Z) : sys (Z * insn_queue) :=
  let bias := offsetof_buffer in
  let! r := read_memory fuel (replicate 16 0) bias pid queue_addr in
  let (err, h) := r in
  if negb (err =? 0) then
    t_log "pid %d: unable to read remote queue.";;; ret (EINSNQ, queue_of h zero_buffer)
  else
    let queue := queue_of h zero_buffer in
    if INSNQ_CURR_VERSION <? q_version queue then
      t_log "pid %d: ULP tool is too old, queue version is %d\n";;; ret (EOLDULP, queue)
    else
      let size := u32 (q_size queue) in
      if size =? 0 then ret (0, queue)
      else if INSN_BUFFER_MAX <? size then
        t_log "pid %d: invalid insn queue size.";;; ret (EINSNQ, queue)
      else
        let! r := read_memory fuel (take (Z.to_nat size) zero_buffer) size pid (u64 (queue_addr + bias)) in
        let (err, bs) := r in
        ret (err, queue_of h (splice 0 bs zero_buffer)).

Definition insnq_update_remote (queue : insn_queue) (queue_address pid : Z) : sys Z :=
  let size_addr := u64 (queue_address + 8) in
  let num_insns_addr := u64 (queue_address + 4) in
  let! r := write_bytes fuel (le_bytes 4 0) pid size_addr in
  if negb (r =? 0) then ret EINSNQ
  else
    let! r := write_bytes fuel (le_bytes 4 0) pid num_insns_addr in
    if negb (r =? 0) then ret EINSNQ else ret 0.

Definition insnq_get_version (pid : Z) (dynobj : libpulp_dynobj) : sys (Z * libpulp_dynobj) :=
  let version := insn_queue_version dynobj in
  if 0 <? version then ret (version, dynobj)
  else
    let queue_addr := dyn_insn_queue dynobj in
    if queue_addr =? 0 then ret (0, dynobj)
    else
      let! r := read_memory fuel (le_bytes 4 (u32 version)) 4 pid queue_addr in
      let (err, bs) := r in
      if negb (err =? 0) then ret (0, dynobj)
      else
        let version := s32 (le_val bs) in
        ret (version, {| dyn_insn_queue := queue_addr; insn_queue_version := version |}).

Definition insnq_check_compatibility (pid : Z) (dynobj : libpulp_dynobj) : sys (bool * libpulp_dynobj) :=
  if dyn_insn_queue dynobj =? 0 then ret (true, dynobj)
  else
    let! r := insnq_get_version pid dynobj in
    let (version, dynobj) := r in
    ret (negb (INSNQ_CURR_VERSION <? version), dynobj).

(** The interpreter on the tool's state. *)
Definition interpret (pid : Z) (queue : insn_queue) : sys Z := fun s =>
  match insnq_interpret (H := tool_backend pid) queue {| world := s; output := []; warnings := [] |} with
  | (r, i) => (r, world i)
  end.

Definition insnq_interpret_from_process_ (pid queue_addr : Z) : sys Z :=
  if queue_addr =? 0 then ret EOLDLIBPULP
  else
    let! r := insnq_get_from_remote_process queue_addr pid in
    let (err, queue) := r in
    if negb (err =? 0) then
      t_log "pid %d: unable to retrieve instruction queue from process.";;; ret err
    else if INSN_BUFFER_MAX <? q_size queue then
      t_log "pid %d: invalid insn queue size.";;; ret EINSNQ
    else
      let! r := interpret pid queue in
      if negb (r =? 0) then t_log "pid %d: interpret failure.";;; ret EINSNQ
      else
        let! r := insnq_update_remote queue queue_addr pid in
        if negb (r =? 0) then t_log "pid %d: unable to reset queue.";;; ret EINSNQ
        else ret 0.

Definition insnq_interpret_from_process (pid : Z) (dynobj : libpulp_dynobj) : sys Z :=
  insnq_interpret_from_process_ pid (dyn_insn_queue dynobj).
End tool_queue.

(** ** Mapped memory *)

Definition mapped (a : Z) (n : nat) (m : mem) : Prop := is_Some (mem_read a n m).

Lemma mapped_spec a n m : mapped a n m <-> forall x, a <= x < a + Z.of_nat n -> is_Some (m !! x).
Proof.
  unfold mapped. revert a. induction n as [|n IH]; intros a; simpl.
  - split; [lia|]. intros _. by eexists.
  - specialize (IH (a + 1)). split.
    + intros [bs Hbs]. destruct (m !! a) eqn:Ea, (mem_read (a + 1) n m) eqn:Er; try done.
      intros x Hx. destruct (decide (x = a)) as [->|]; [by rewrite Ea|].
      apply (proj1 IH); [by eexists|lia].
    + intros Hx. destruct (Hx a ltac:(lia)) as [b ->].
      destruct (proj2 IH) as [bs ->]; [|by eexists]. intros x Hx'. apply Hx. lia.
Qed.

Lemma mapped_write a n b bs m : mapped a n m -> mapped a n (mem_write b bs m).
Proof.
  rewrite !mapped_spec. intros Hm x Hx. pose proof (zlen_nonneg bs).
  destruct (decide (b <= x < b + zlen bs)) as [Hin|Hout].
  - rewrite mem_write_lookup_in by done. apply lookup_lt_is_Some_2. unfold zlen in *. lia.
  - rewrite mem_write_lookup_out by lia. by apply Hm.
Qed.

Lemma mapped_sub a n b k m :
  mapped a n m -> a <= b -> b + Z.of_nat k <= a + Z.of_nat n -> mapped b k m.
Proof. rewrite !mapped_spec. intros Hm H1 H2 x Hx. apply Hm. lia. Qed.

(** A kernel that serves the requests on mapped memory. *)
Class Cooperative (K : Type) `{KernelLaws K} := {
  peek_mapped : forall pid a k, mapped a 8 (kmem pid k) ->
    r_errno (ptrace (PTRACE_PEEKDATA a) pid k).1 = 0;
  poke_mapped : forall pid a w k, mapped a 8 (kmem pid k) ->
    r_errno (ptrace (PTRACE_POKEDATA a w) pid k).1 = 0;
  writev_mapped : forall pid bs a k, Forall is_byte bs -> mapped a (length bs) (kmem pid k) ->
    0 <= (process_vm_writev pid bs a k).1.1;
  readv_mapped : forall pid len a k, 0 <= len -> mapped a (Z.to_nat len) (kmem pid k) ->
    0 <= (process_vm_readv pid len a k).1.1.1 }.

Section cooperative.
Context {K : Type} `{Cooperative K}.
Variable fuel : nat.

Lemma poke_succeeds pid a w s :
  mapped a 8 (tmem pid s) ->
  exists r s', ulp_ptrace fuel (PTRACE_POKEDATA a w) pid s = (Ok r, s') /\ r_errno r = 0 /\
    tmem pid s' = mem_write a (le_bytes 8 w) (tmem pid s).
Proof.
  intros Hm. pose proof (poke_mapped pid a w (kernel s) Hm) as He.
  destruct (ulp_ptrace fuel (PTRACE_POKEDATA a w) pid s) as [r s'] eqn:E. pose proof E as E'.
  unfold ulp_ptrace, bind, on_kernel in E'.
  destruct (ptrace (PTRACE_POKEDATA a w) pid (kernel s)) as [rep k']. simpl in He. rewrite He in E'.
  injection E' as <- <-. apply poke_ok in E. rewrite He in E. eexists _, _. split; [done|]. done.
Qed.

Lemma peek_succeeds pid a s :
  mapped a 8 (tmem pid s) ->
  exists r s', ulp_ptrace fuel (PTRACE_PEEKDATA a) pid s = (Ok r, s') /\ r_errno r = 0 /\
    tmem pid s' = tmem pid s.
Proof.
  intros Hm. pose proof (peek_mapped pid a (kernel s) Hm) as He.
  destruct (ulp_ptrace fuel (PTRACE_PEEKDATA a) pid s) as [r s'] eqn:E. pose proof E as E'.
  unfold ulp_ptrace, bind, on_kernel in E'.
  destruct (ptrace (PTRACE_PEEKDATA a) pid (kernel s)) as [rep k']. simpl in He. rewrite He in E'.
  injection E' as <- <-. apply peek_ok in E as [E _]. eexists _, _. split; [done|]. done.
Qed.

Lemma poke_longs_succeeds n buf pid a s :
  (8 * n <= length buf)%nat -> 0 <= a -> a + 8 * Z.of_nat n < 2 ^ 64 -> mapped a (8 * n) (tmem pid s) ->
  exists s', poke_longs fuel n buf pid a s = (Ok (a + 8 * Z.of_nat n), s') /\
    (forall b k, mapped b k (tmem pid s) -> mapped b k (tmem pid s')).
Proof.
  revert buf a s. induction n as [|n IH]; intros buf a s Hl Ha Hlim Hm.
  - exists s. split; [by rewrite Z.add_0_r|done].
  - destruct (poke_succeeds pid a (le_val (take 8 buf)) s) as (r & s1 & E & He & Em).
    { eapply mapped_sub; [exact Hm|lia|lia]. }
    destruct (IH (drop 8 buf) (a + 8) s1) as (s2 & E2 & Hst).
    { rewrite length_drop. lia. } { lia. } { lia. }
    { rewrite Em. apply mapped_write. eapply mapped_sub; [exact Hm|lia|lia]. }
    exists s2. cbn [poke_longs]. rewrite (bind_ok _ _ _ _ _ E), He. cbn [negb Z.eqb].
    change (negb (0 =? 0)) with false. cbv iota.
    rewrite wrap_id by (unfold in_u; lia). rewrite E2. split; [do 2 f_equal; lia|].
    intros b k Hb. apply Hst. rewrite Em. by apply mapped_write.
Qed.

Lemma ptrace_write_succeeds buf pid a s :
  0 <= a -> a + zlen buf + 8 < 2 ^ 64 -> mapped a (length buf + 7) (tmem pid s) ->
  exists s', write_bytes_ptrace fuel buf pid a s = (Ok 0, s').
Proof.
  intros Ha Hlim Hm. unfold write_bytes_ptrace, code.
  pose proof (Nat.div_mod (length buf) 8 ltac:(lia)) as Hdm.
  pose proof (Nat.mod_upper_bound (length buf) 8 ltac:(lia)).
  set (n := (length buf / 8)%nat) in *.
  destruct (poke_longs_succeeds n buf pid a s) as (s1 & E1 & Hst); [lia|lia|unfold zlen in *; lia| |].
  { eapply mapped_sub; [exact Hm|lia|lia]. }
  rewrite (bind_ok _ _ _ _ _ E1). destruct (0 <? length buf mod 8)%nat eqn:Er; [|by eexists].
  apply Nat.ltb_lt in Er.
  assert (Hm1 : mapped (a + 8 * Z.of_nat n) 8 (tmem pid s1)).
  { apply Hst. eapply mapped_sub; [exact Hm|lia|lia]. }
  destruct (peek_succeeds pid _ s1 Hm1) as (r & s2 & E2 & He & Em).
  rewrite (bind_ok _ _ _ _ _ E2), He. change (negb (0 =? 0)) with false. cbv iota zeta.
  rewrite <- Em in Hm1.
  set (w := le_val _). destruct (poke_succeeds pid _ w s2 Hm1) as (r3 & s3 & E3 & He3 & _).
  rewrite (bind_ok _ _ _ _ _ E3), He3. by eexists.
Qed.
End cooperative.

Section backend_laws.
Context {K : Type} `{Cooperative K}.
Variable fuel : nat.

(** The tool's backend keeps the promise of the interface. *)
#[export] Instance tool_backend_laws (pid : Z) : BackendLaws (tool K) (H := tool_backend fuel pid).
Proof.
  refine {| memory := tmem pid;
            accepts w a bs := Forall is_byte bs /\ 0 <= a /\ a + zlen bs + 8 < 2 ^ 64 /\
                              mapped a (length bs + 7) (tmem pid w) |}.
  intros size a bs w (Hb & Ha & Hlim & Hm).
  destruct (ptrace_write_succeeds fuel bs pid a w Ha Hlim Hm) as (w' & E).
  exists w'. cbn [insn_interpret_write tool_backend]. rewrite E. split; [done|].
  apply write_bytes_ptrace_ok in E as [[_ E]|[? _]]; [|done|done|done|lia].
  split; [done|]. intros a' bs' (Hb' & Ha' & Hlim' & Hm'). split_and!; [done..|].
  rewrite E. by apply mapped_write.
Defined.

Lemma read_memory_succeeds n buf pid a s :
  mapped a (length buf) (tmem pid s) ->
  exists bs s', read_memory (S n) buf (zlen buf) pid a s = (Ok (0, bs), s') /\
    tmem pid s' = tmem pid s /\ mem_read a (length buf) (tmem pid s) = Some bs.
Proof.
  intros Hm. pose proof (readv_mapped pid (zlen buf) a (kernel s) (zlen_nonneg buf)) as Hn.
  rewrite zlen_nat in Hn. specialize (Hn Hm).
  unfold read_memory.
  destruct (read_retry (S n) buf (zlen buf) pid a 0 s) as [r s'] eqn:E. pose proof E as E'.
  cbn [read_retry] in E'. unfold bind, on_kernel in E'.
  destruct (process_vm_readv pid (zlen buf) a (kernel s)) as [[[k e] bs] k'] eqn:Ep. simpl in Hn.
  rewrite (proj2 (Z.ltb_ge k 0)) in E' by done.
  apply readv_law in Ep as [_ [[? _]|[-> _]]]; [lia|].
  rewrite Z.add_0_l, Z.eqb_refl in E'. injection E' as <- <-.
  apply read_retry_ok in E as [Em Er]; [|apply zlen_nonneg|done].
  rewrite zlen_nat in Er. eexists _, _. split; [reflexivity|]. by split; [|apply Er].
Qed.

Lemma write_bytes_succeeds n buf pid a s :
  Forall is_byte buf -> mapped a (length buf) (tmem pid s) ->
  exists s', write_bytes (S n) buf pid a s = (Ok 0, s') /\
    tmem pid s' = mem_write a buf (tmem pid s).
Proof.
  intros Hb Hm. pose proof (writev_mapped pid buf a (kernel s) Hb Hm) as Hn.
  unfold write_bytes. cbn [write_retry]. unfold bind, on_kernel.
  destruct (process_vm_writev pid buf a (kernel s)) as [[k e] k'] eqn:Ep. simpl in Hn.
  apply writev_law in Ep as [(? & _)|(-> & Em)]; [lia|].
  rewrite (proj2 (Z.ltb_ge (zlen buf) 0)), Z.add_0_l, Z.eqb_refl by done.
  eexists. split; [reflexivity|]. done.
Qed.
End backend_laws.

(** The header of the queue as it lies in the target's memory. *)
Definition queue_header (q : insn_queue) : bytes :=
  le_bytes 4 (u32 (q_version q)) ++ le_bytes 4 (u32 (q_num_insns q)) ++
  le_bytes 4 (u32 (q_size q)) ++ le_bytes 4 (u32 (q_align q)).

Definition queue_in_target (m : mem) (addr : Z) (q : insn_queue) : Prop :=
  mem_read addr 16 m = Some (queue_header q) /\
  mem_read (addr + offsetof_buffer) (Z.to_nat (q_size q)) m = Some (take (Z.to_nat (q_size q)) (q_buffer q)).

Lemma int_of_header x : in_s 32 x -> s32 (le_val (le_bytes 4 (u32 x))) = x.
Proof.
  unfold in_s. intros Hx. rewrite le_val_bytes by (apply (wrap_range 32); lia).
  unfold swrap, wrap. rewrite Zplus_mod_idemp_l. fold (swrap 32 x). by apply swrap_id.
Qed.

Lemma queue_of_header q buffer :
  in_s 32 (q_version q) -> in_s 32 (q_num_insns q) -> in_s 32 (q_size q) -> in_s 32 (q_align q) ->
  queue_of (queue_header q) buffer =
  {| q_version := q_version q; q_num_insns := q_num_insns q; q_size := q_size q;
     q_align := q_align q; q_buffer := buffer |}.
Proof.
  intros H1 H2 H3 H4. unfold queue_of, int_at, queue_header. 
  set (a := le_bytes 4 (u32 (q_version q))). set (b := le_bytes 4 (u32 (q_num_insns q))).
  set (c := le_bytes 4 (u32 (q_size q))). set (d := le_bytes 4 (u32 (q_align q))).
  change (slice 0 4 (a ++ b ++ c ++ d)) with a. change (slice 4 4 (a ++ b ++ c ++ d)) with b.
  change (slice 8 4 (a ++ b ++ c ++ d)) with c. change (slice 12 4 (a ++ b ++ c ++ d)) with d.
  unfold a, b, c, d. by rewrite !int_of_header.
Qed.

(** Only the part of the buffer below [size] matters. *)
Lemma stored_take buf buf' pc l e :
  stored buf pc l e -> Forall insn_ok l -> 0 <= pc -> zlen buf' = zlen buf ->
  take (Z.to_nat e) buf' = take (Z.to_nat e) buf -> stored buf' pc l e.
Proof.
  intros Hs. induction Hs as [|pc i l e (H1 & H2 & H3) Hs IH]; intros Hok Hpc Hz Ht; [constructor|].
  inversion Hok; subst. pose proof (isize_bounds i ltac:(done)).
  pose proof (stored_range _ _ _ _ ltac:(done) Hs). pose proof (zlen_nonneg (encode i)).
  constructor; [|apply IH; [done|lia|done|done]].
  split; [done|]. split; [lia|]. rewrite <- H3 at 2. unfold slice.
  assert (Hsub : forall b : bytes, take (length (encode i)) (drop (Z.to_nat pc) b) =
            take (length (encode i)) (drop (Z.to_nat pc) (take (Z.to_nat e) b))).
  { intros b. rewrite skipn_firstn_comm, take_take, Nat.min_l; [done|]. unfold zlen in *. lia. }
  by rewrite (Hsub buf'), (Hsub buf), Ht.
Qed.

Lemma local_copy_holds q l :
  queue_holds q l ->
  queue_holds {| q_version := q_version q; q_num_insns := q_num_insns q; q_size := q_size q;
                 q_align := q_align q;
                 q_buffer := splice 0 (take (Z.to_nat (q_size q)) (q_buffer q)) zero_buffer |} l.
Proof.
  intros [Hb Hn Hs Hst Hok].
  assert (Hz : length zero_buffer = Z.to_nat INSN_BUFFER_MAX) by apply length_replicate.
  assert (Ht : length (take (Z.to_nat (q_size q)) (q_buffer q)) = Z.to_nat (q_size q)).
  { rewrite length_take. unfold zlen in *. lia. }
  assert (Hl : zlen (splice 0 (take (Z.to_nat (q_size q)) (q_buffer q)) zero_buffer) = INSN_BUFFER_MAX).
  { unfold zlen. rewrite length_splice by lia. rewrite Hz. unfold INSN_BUFFER_MAX. lia. }
  split; cbn [q_buffer q_num_insns q_size]; [done..| |done].
  eapply stored_take; [done|done|done|by rewrite Hl, Hb|].
  unfold splice. rewrite take_0, app_nil_l. apply take_app_length'. done.
Qed.

(** The target's memory once its queue is reset. *)
Definition queue_reset (addr : Z) (m : mem) : mem :=
  mem_write (addr + 4) (le_bytes 4 0) (mem_write (addr + 8) (le_bytes 4 0) m).

Lemma splice_nil {A} (l : list A) : splice 0 [] l = l.
Proof. unfold splice. by rewrite take_0, drop_0. Qed.

Section from_process.
Context {K : Type} `{Cooperative K}.
Variable fuel : nat.

Lemma update_remote_ok q addr pid s :
  0 <= addr -> addr + 16 < 2 ^ 64 -> mapped addr 16 (tmem pid s) ->
  exists s', insnq_update_remote (S fuel) q addr pid s = (Ok 0, s') /\
    tmem pid s' = queue_reset addr (tmem pid s).
Proof.
  intros Ha Hlim Hm. unfold insnq_update_remote. cbv zeta. rewrite !wrap_id by (unfold in_u; lia).
  destruct (write_bytes_succeeds fuel (le_bytes 4 0) pid (addr + 8) s) as (s1 & E1 & M1).
  { apply le_bytes_is_byte. } { eapply mapped_sub; [exact Hm|lia|simpl; lia]. }
  destruct (write_bytes_succeeds fuel (le_bytes 4 0) pid (addr + 4) s1) as (s2 & E2 & M2).
  { apply le_bytes_is_byte. } { rewrite M1. apply mapped_write. eapply mapped_sub; [exact Hm|lia|simpl; lia]. }
  exists s2. rewrite (bind_ok _ _ _ _ _ E1). cbn [negb Z.eqb].
  change (negb (0 =? 0)) with false. cbv iota.
  rewrite (bind_ok _ _ _ _ _ E2). split; [done|]. by rewrite M2, M1.
Qed.

Lemma get_from_remote_ok q l addr pid s :
  queue_holds q l -> zlen l < 2 ^ 31 -> in_s 32 (q_version q) -> in_s 32 (q_align q) ->
  q_version q <= INSNQ_CURR_VERSION ->
  0 <= addr -> addr + 16 + INSN_BUFFER_MAX < 2 ^ 64 -> queue_in_target (tmem pid s) addr q ->
  exists q' s', insnq_get_from_remote_process (S fuel) addr pid s = (Ok (0, q'), s') /\
    tmem pid s' = tmem pid s /\ queue_holds q' l /\ q_size q' = q_size q.
Proof.
  unfold INSN_BUFFER_MAX, INSNQ_CURR_VERSION.
  intros Hq Hl Hv Hal Hver Ha Hlim [Hh Hb]. pose proof Hq as [_ Hn Hs _ _].
  unfold INSN_BUFFER_MAX in Hs. pose proof (zlen_nonneg l).
  unfold insnq_get_from_remote_process, offsetof_buffer in *. cbv zeta.
  destruct (read_memory_succeeds fuel (replicate 16 0) pid addr s) as (h & s1 & E1 & M1 & R1);
    [by eexists|].
  change (length (replicate 16 0)) with 16%nat in R1. rewrite Hh in R1. injection R1 as <-.
  change (zlen (replicate 16 0)) with 16 in E1. rewrite (bind_ok _ _ _ _ _ E1).
  change (negb (0 =? 0)) with false. cbv iota.
  rewrite queue_of_header by (done || (unfold in_s; lia)). cbn [q_version q_size].
  unfold INSNQ_CURR_VERSION. rewrite (proj2 (Z.ltb_ge 1 _)), (wrap_id 32) by (done || (unfold in_u; lia)).
  pose proof (local_copy_holds q l Hq) as Hcopy.
  destruct (Z.eqb_spec (q_size q) 0) as [Hz|Hz].
  - rewrite Hz in Hcopy. change (Z.to_nat 0) with 0%nat in Hcopy. rewrite take_0 in Hcopy.
    rewrite splice_nil in Hcopy.
    eexists _, s1. split; [reflexivity|]. split; [done|]. rewrite Hz. exact (conj Hcopy eq_refl).
  - unfold INSN_BUFFER_MAX. rewrite (proj2 (Z.ltb_ge _ (q_size q))) by lia.
    rewrite wrap_id by (unfold in_u; lia).
    set (t := take (Z.to_nat (q_size q)) zero_buffer).
    assert (Ht : length t = Z.to_nat (q_size q)).
    { unfold t, zero_buffer. rewrite length_take, length_replicate. unfold INSN_BUFFER_MAX. lia. }
    destruct (read_memory_succeeds fuel t pid (addr + 16) s1) as (bs & s2 & E2 & M2 & R2).
    { rewrite Ht, M1. by eexists. }
    rewrite Ht, M1, Hb in R2. injection R2 as <-.
    replace (zlen t) with (q_size q) in E2 by (unfold zlen; rewrite Ht; lia).
    rewrite (bind_ok _ _ _ _ _ E2). eexists _, s2. split; [reflexivity|].
    split; [by rewrite M2|]. rewrite queue_of_header by (done || (unfold in_s; lia)).
    exact (conj Hcopy eq_refl).
Qed.
End from_process.

(** C23. The tool's interpretation of the target's queue: when the target's memory
    holds a queue of a version the tool knows and the memory it writes is
    mapped, the call returns 0, all the queue's writes are in the target's
    memory in their order, and the queue in the target is empty again. *)
Theorem interpret_from_process_spec {K} `{Cooperative K} fuel pid dynobj q l s
    (Hq : queue_holds q l)
    (Hints : zlen l < 2 ^ 31 /\ in_s 32 (q_version q) /\ in_s 32 (q_align q))
    (Hver : q_version q <= INSNQ_CURR_VERSION)
    (Haddr : 0 < dyn_insn_queue dynobj /\ dyn_insn_queue dynobj + 16 + INSN_BUFFER_MAX < 2 ^ 64)
    (Htarget : queue_in_target (tmem pid s) (dyn_insn_queue dynobj) q)
    (Hwrites : Forall (fun i => match i with
       | IPrint _ => True
       | IWrite a bs => Forall is_byte bs /\ 0 <= a /\ a + zlen bs + 8 < 2 ^ 64 /\
                        mapped a (length bs + 7) (tmem pid s)
       end) l) :
  exists s', insnq_interpret_from_process (S fuel) pid dynobj s = (Ok 0, s') /\
    tmem pid s' = queue_reset (dyn_insn_queue dynobj) (written l (tmem pid s)).
Proof.
  destruct Hints as (Hl & Hv & Hal), Haddr as [Hpos Hlim]. set (addr := dyn_insn_queue dynobj) in *.
  destruct (get_from_remote_ok fuel q l addr pid s) as (q' & s1 & E1 & M1 & Hq' & Hs'); [done..|lia|done|done|].
  unfold insnq_interpret_from_process, insnq_interpret_from_process_. fold addr.
  rewrite (proj2 (Z.eqb_neq addr 0)), (bind_ok _ _ _ _ _ E1) by lia.
  change (negb (0 =? 0)) with false. cbv iota.
  rewrite (proj2 (Z.ltb_ge _ _)) by apply (holds_size _ _ Hq').
  destruct (interpret_holds (H0 := tool_backend_laws (S fuel) pid) q' l
              {| world := s1; output := []; warnings := [] |} Hq') as (i & Ei & _ & Mi & _).
  { eapply Forall_impl; [|exact Hwrites]. intros [t|a bs]; [done|]. cbn [world accepts tool_backend_laws].
    by rewrite M1. }
  cbn [world memory tool_backend_laws] in Mi. rewrite M1 in Mi.
  assert (Er : interpret (S fuel) pid q' s1 = (Ok 0, world i)).
  { unfold interpret. by rewrite Ei. }
  rewrite (bind_ok _ _ _ _ _ Er). change (negb (0 =? 0)) with false. cbv iota.
  destruct (update_remote_ok fuel q' addr pid (world i)) as (s2 & E2 & M2); [lia|unfold INSN_BUFFER_MAX in *; lia| |].
  { rewrite Mi. assert (Hm : mapped addr 16 (tmem pid s)) by (eexists; apply Htarget).
    clear - Hm. revert Hm. generalize (tmem pid s) as m. induction l as [|[t|a bs] l IH]; intros m Hm; [done|by apply IH|].
    apply (IH (mem_write a bs m)). by apply mapped_write. }
  exists s2. rewrite (bind_ok _ _ _ _ _ E2). split; [done|]. by rewrite M2, Mi.
Qed.

(** Version gating: a queue of a later version is refused with [EOLDULP], a
    process without a queue with [EOLDLIBPULP], and in both cases nothing is
    interpreted and the target's memory is left as it was. *)
Theorem version_gate {K} `{Cooperative K} fuel pid dynobj s h
    (Htarget : dyn_insn_queue dynobj <> 0 ->
       mem_read (dyn_insn_queue dynobj) 16 (tmem pid s) = Some h /\
       INSNQ_CURR_VERSION < s32 (le_val (take 4 h))) :
  exists s', insnq_interpret_from_process (S fuel) pid dynobj s =
    (Ok (if dyn_insn_queue dynobj =? 0 then EOLDLIBPULP else EOLDULP), s') /\
    tmem pid s' = tmem pid s.
Proof.
  unfold insnq_interpret_from_process, insnq_interpret_from_process_.
  destruct (Z.eqb_spec (dyn_insn_queue dynobj) 0) as [Hz|Hz]; [by exists s|].
  destruct (Htarget Hz) as [Hh Hv].
  destruct (read_memory_succeeds fuel (replicate 16 0) pid (dyn_insn_queue dynobj) s) as (h' & s1 & E1 & M1 & R1);
    [by eexists|].
  change (length (replicate 16 0)) with 16%nat in R1. rewrite Hh in R1. injection R1 as <-.
  change (zlen (replicate 16 0)) with 16 in E1.
  eexists. unfold insnq_get_from_remote_process, offsetof_buffer. cbv zeta.
  rewrite bind_assoc, (bind_ok _ _ _ _ _ E1). change (negb (0 =? 0)) with false. cbv iota.
  assert (Hver : q_version (queue_of h zero_buffer) = s32 (le_val (take 4 h))).
  { unfold queue_of, int_at, slice. cbn [q_version]. by rewrite drop_0. }
  rewrite Hver, (proj2 (Z.ltb_lt _ _)) by done. split; [reflexivity|]. exact M1.
Qed.
