(* ===== verification/SimKernel.v ===== *)
(** * A concrete kernel

    One process, whose memory is a map; requests on unmapped memory fail with
    the errors the manual pages give. It satisfies the laws the theorems on the
    access to the target assume, which are therefore consistent. *)

From stdpp Require Import gmap.
From S2P Require Import Prelude Errors Memory InsnQueue Ptrace InsnQueueTool.

Record sim := { sim_map : mem; sim_us : Z }.

(** Memory holds bytes. *)
Definition sim_mem (k : sim) : mem := (fun b => b mod 256) <$> sim_map k.

Definition with_mem (m : mem) (k : sim) : sim := {| sim_map := m; sim_us := sim_us k |}.

Definition reply_of (ret errno : Z) : reply := {| r_ret := ret; r_regs := None; r_errno := errno |}.

Definition sim_ptrace (r : ptrace_request) (pid : Z) (k : sim) : reply * sim :=
  match r with
  | PTRACE_PEEKDATA a =>
    match mem_read a 8 (sim_mem k) with
    | Some bs => (reply_of (le_val bs) 0, k)
    | None => (reply_of (-1) EIO, k)
    end
  | PTRACE_POKEDATA a w =>
    match mem_read a 8 (sim_mem k) with
    | Some _ => (reply_of 0 0, with_mem (mem_write a (le_bytes 8 w) (sim_mem k)) k)
    | None => (reply_of (-1) EIO, k)
    end
  | _ => (reply_of 0 0, k)
  end.

Definition sim_writev (pid : Z) (bs : bytes) (a : Z) (k : sim) : (Z * Z) * sim :=
  if bool_decide (Forall is_byte bs /\ is_Some (mem_read a (length bs) (sim_mem k)))
  then ((zlen bs, 0), with_mem (mem_write a bs (sim_mem k)) k)
  else ((-1, EFAULT), k).

Definition sim_readv (pid len a : Z) (k : sim) : (Z * Z * bytes) * sim :=
  match mem_read a (Z.to_nat len) (sim_mem k) with
  | Some bs => (if 0 <=? len then (len, 0, bs) else (-1, EINVAL, []), k)
  | None => ((-1, EFAULT, []), k)
  end.

#[export] Instance sim_kernel : Kernel sim := {
  ptrace := sim_ptrace;
  process_vm_writev := sim_writev;
  process_vm_readv := sim_readv;
  waitpid pid nohang k :=
    (WaitPid pid {| wifstopped := true; wifexited := false; wcoredump := false; wifsignaled := false |}, k);
  time k := (sim_us k / 1000000, k);
  usleep n k := {| sim_map := sim_map k; sim_us := sim_us k + n |} }.

Lemma sim_lookup k x b : sim_mem k !! x = Some b -> is_byte b.
Proof.
  unfold sim_mem. rewrite lookup_fmap. destruct (sim_map k !! x) as [b'|]; [|done].
  intros [= <-]. apply (Z.mod_pos_bound b' 256). lia.
Qed.

Lemma sim_mem_id k : (fun b => b mod 256) <$> sim_mem k = sim_mem k.
Proof.
  unfold sim_mem. rewrite <- map_fmap_compose. apply map_fmap_ext. intros i x _.
  simpl. by rewrite Z.mod_mod.
Qed.

Lemma sim_write_mem bs a k :
  Forall is_byte bs -> sim_mem (with_mem (mem_write a bs (sim_mem k)) k) = mem_write a bs (sim_mem k).
Proof.
  intros Hb. unfold sim_mem at 1, with_mem. cbn [sim_map].
  revert a. induction Hb as [|b bs Hb _ IH]; intros a; cbn [mem_write]; [apply sim_mem_id|].
  rewrite fmap_insert, IH. by rewrite Z.mod_small.
Qed.

#[export] Instance sim_laws : KernelLaws sim.
Proof.
  refine {| kmem := fun _ => sim_mem |}.
  - intros pid a w k r k'. unfold ptrace, sim_kernel, sim_ptrace. destruct (mem_read a 8 (sim_mem k)); intros E'; apply pair_equal_spec in E' as [<- <-]; [|done].
    exact (sim_write_mem _ a k (le_bytes_is_byte 8 w)).
  - intros pid a k r k'. unfold ptrace, sim_kernel, sim_ptrace. destruct (mem_read a 8 (sim_mem k)) as [bs|] eqn:E; intros E'; apply pair_equal_spec in E' as [<- <-]; [|done].
    split; [done|]. intros _.
    assert (Hb : Forall is_byte bs) by (eapply mem_read_bytes; [apply sim_lookup|exact E]).
    pose proof (mem_read_length _ _ _ _ E) as Hl. pose proof (le_val_range bs Hb) as Hr. rewrite Hl in Hr.
    cbn [r_ret reply_of]. rewrite wrap_id by exact Hr. rewrite <- Hl. by rewrite le_bytes_val.
  - intros pid bs a k n e k'. unfold process_vm_writev, sim_kernel, sim_writev.
    case_bool_decide as Hd; intros E; injection E as <- <- <-; [right|left; by split_and!].
    split; [done|]. by apply sim_write_mem, Hd.
  - intros pid len a k n e bs k'. unfold process_vm_readv, sim_kernel, sim_readv.
    destruct (mem_read a (Z.to_nat len) (sim_mem k)) as [out|] eqn:E; [|intros E'; injection E' as <- <- <- <-; split; [done|by left]].
    destruct (0 <=? len); intros E'; injection E' as <- <- <- <-; (split; [done|]); [by right|by left].
  - done.
  - done.
Defined.

#[export] Instance sim_clock : ClockLaws sim.
Proof.
  refine {| us := sim_us |}.
  - intros k. unfold time, sim_kernel. cbn. lia.
  - intros r pid k. unfold ptrace, sim_kernel, sim_ptrace. destruct r as [a|a w| | | | | |]; cbv beta iota;
      try destruct (mem_read a 8 (sim_mem k)); cbn; lia.
  - intros n k. unfold usleep, sim_kernel. cbn. lia.
  - intros r pid k. unfold ptrace, sim_kernel, sim_ptrace. destruct r as [a|a w| | | | | |]; cbv beta iota;
      try destruct (mem_read a 8 (sim_mem k)); cbn; unfold EIO; repeat constructor.
Defined.

#[export] Instance sim_cooperative : Cooperative sim.
Proof.
  split.
  - intros pid a k [bs Hbs]. unfold ptrace, sim_kernel, sim_ptrace. change (mem_read a 8 (sim_mem k) = Some bs) in Hbs. by rewrite Hbs.
  - intros pid a w k [bs Hbs]. unfold ptrace, sim_kernel, sim_ptrace. change (mem_read a 8 (sim_mem k) = Some bs) in Hbs. by rewrite Hbs.
  - intros pid bs a k Hb Hm. unfold process_vm_writev, sim_kernel, sim_writev. rewrite bool_decide_eq_true_2 by done.
    cbn. apply zlen_nonneg.
  - intros pid len a k Hl [bs Hbs]. unfold process_vm_readv, sim_kernel, sim_readv. change (mem_read a (Z.to_nat len) (sim_mem k) = Some bs) in Hbs.
    by rewrite Hbs, (proj2 (Z.leb_le 0 len)).
Defined.
