(* ===== verification/PtraceWords.v ===== *)
(** * Reading a process word by word (tools/ptrace.c)

    Without process_vm_readv(2) the memory of the target is read with
    [PTRACE_PEEKDATA], one word at a time; the last word may lie partly behind
    what is asked for. Both ways of reading agree, except for such a word. *)

From stdpp Require Import gmap.
From S2P Require Import Prelude Errors Memory Ptrace SimKernel.

Open Scope ulp_scope.

Section words.
Context {K : Type} `{Kernel K}.
Variable fuel : nat.

(** The code and [*value]. *)
Definition ptrace_peekdata (pid addr : Z) : st (tool K) Z (Z * Z) :=
  let! r := ulp_ptrace fuel (PTRACE_PEEKDATA addr) pid in
  if negb (r_errno r =? 0) then t_log "unable to read byte: %s\n";;; ret (1, r_ret r) else ret (0, r_ret r).

(** The code and the 8 bytes at [src]. *)
Definition read_long_peek (src : bytes) (pid addr : Z) : st (tool K) Z (Z * bytes) :=
  let! r := ptrace_peekdata pid addr in
  if fst r =? 0 then ret (0, le_bytes 8 (u64 (snd r))) else ret (fst r, src).

(** [read] is what was read, [left] the rest of the buffer, [remaining] the
    length of the last, incomplete word. *)
Fixpoint read_memory_words (len_word remaining : nat) (read left : bytes) (pid addr : Z) : st (tool K) Z (Z * bytes) :=
  match len_word with
  | O =>
    if (0 <? remaining)%nat then
      let! r := read_long_peek (replicate 8 0) pid addr in
      if negb (fst r =? 0) then ret (1, read ++ left)
      else ret (0, read ++ take remaining (snd r) ++ drop remaining left)
    else ret (0, read ++ left)
  | S len_word =>
    let! r := read_long_peek (take 8 left) pid addr in
    if negb (fst r =? 0) then ret (1, read ++ left)
    else read_memory_words len_word remaining (read ++ snd r) (drop 8 left) pid (u64 (addr + 8))
  end.

Definition read_memory_peek (buf : bytes) (len : Z) (pid addr : Z) : st (tool K) Z (Z * bytes) :=
  read_memory_words (Z.to_nat (len / 8)) (Z.to_nat (len mod 8)) [] buf pid addr.
End words.

Section laws.
Context {K : Type} `{KernelLaws K}.
Variable fuel : nat.

Lemma read_long_peek_ok src pid addr s err out s' :
  read_long_peek fuel src pid addr s = (Ok (err, out), s') ->
  tmem pid s' = tmem pid s /\ (err = 0 -> mem_read addr 8 (tmem pid s) = Some out /\ length out = 8%nat) /\ (err <> 0 -> out = src).
Proof.
  unfold read_long_peek, ptrace_peekdata. intros Hs. apply bind_ok_inv in Hs as ([c v] & s1 & Hp & Hs).
  apply bind_ok_inv in Hp as (r & s2 & E & Hp). apply peek_ok in E as [Em Er].
  destruct (Z.eqb_spec (r_errno r) 0) as [Hz|Hz]; cbn [negb] in Hp.
  - injection Hp as <- <- <-. cbn [fst snd Z.eqb] in Hs. injection Hs as <- <- <-.
    split_and!; [done|intros _; split; [by apply Er|done]|done].
  - unfold bind, t_log, modify, ret in Hp. injection Hp as <- <- <-. cbn [fst snd Z.eqb] in Hs. injection Hs as <- <- <-. by split_and!.
Qed.

(** The words are those of memory. *)
Lemma read_memory_words_ok n remaining read left pid addr s err out s' :
  (remaining < 8)%nat -> length left = (8 * n + remaining)%nat -> 0 <= addr -> addr + zlen left < 2 ^ 64 ->
  read_memory_words fuel n remaining read left pid addr s = (Ok (err, out), s') ->
  tmem pid s' = tmem pid s /\ (err = 0 \/ err = 1) /\
  (err = 0 -> exists xs, out = read ++ xs /\ mem_read addr (length left) (tmem pid s) = Some xs /\
     ((0 < remaining)%nat -> is_Some (mem_read (addr + 8 * Z.of_nat n) 8 (tmem pid s)))).
Proof.
  intros Hrem. revert read left addr s. induction n as [|n IH]; intros read left addr s Hl Ha Hlim Hs; cbn [read_memory_words] in Hs.
  - destruct (Nat.ltb_spec 0 remaining) as [Hr|Hr].
    + apply bind_ok_inv in Hs as ([c w] & s1 & E & Hs). apply read_long_peek_ok in E as (Em & E0 & _). cbn [fst snd] in Hs.
      destruct (Z.eqb_spec c 0) as [Hc|Hc]; cbn [negb] in Hs; injection Hs as <- <- <-; split_and!; auto; [|done].
      intros _. destruct (E0 Hc) as [Hw Hw8]. exists (take remaining w). rewrite drop_ge, app_nil_r by lia.
      split_and!; [done| |by rewrite Z.mul_0_r, Z.add_0_r; eexists].
      rewrite (mem_read_sub _ _ addr (length left) _ _ Hw) by lia. rewrite Z.sub_diag. unfold slice. by rewrite drop_0, Hl.
    + injection Hs as <- <- <-. split_and!; auto. intros _. exists left. destruct left; [|cbn in Hl; lia]. split_and!; [done..|lia].
  - apply bind_ok_inv in Hs as ([c w] & s1 & E & Hs). apply read_long_peek_ok in E as (Em & E0 & _). cbn [fst snd] in Hs.
    destruct (Z.eqb_spec c 0) as [Hc|Hc]; cbn [negb] in Hs; [|injection Hs as <- <- <-; split_and!; auto; done].
    destruct (E0 Hc) as [Hw Hw8]. unfold zlen in Hlim. rewrite wrap_id in Hs by (unfold in_u; lia).
    apply IH in Hs as (Em' & He & Hout); [|rewrite length_drop; lia|lia|unfold zlen; rewrite length_drop; lia].
    rewrite Em in *. split_and!; [done..|]. intros Hz. destruct (Hout Hz) as (xs & -> & Hxs & Htail).
    exists (w ++ xs). split_and!; [by rewrite app_assoc| |].
    + replace (length left) with (8 + length (drop 8 left))%nat by (rewrite length_drop; lia).
      rewrite mem_read_app, Hw. change (Z.of_nat 8) with 8. by rewrite Hxs.
    + intros Hr. specialize (Htail Hr). by replace (addr + 8 * Z.of_nat (S n)) with (addr + 8 + 8 * Z.of_nat n) by lia.
Qed.

(** Reading word by word: the memory of the target does not change; with the code 0
    the buffer has what the memory holds, which is also what [process_vm_readv] gives;
    the whole of the last word must be mapped, not only the part that is wanted. *)
Theorem read_memory_peek_spec buf len pid addr s err out s'
    (Hlen : zlen buf = len /\ 0 <= addr /\ addr + len < 2 ^ 64)
    (Hs : read_memory_peek fuel buf len pid addr s = (Ok (err, out), s')) :
  tmem pid s' = tmem pid s /\ (err = 0 \/ err = 1) /\
  (err = 0 -> mem_read addr (Z.to_nat len) (tmem pid s) = Some out /\
     (len mod 8 <> 0 -> is_Some (mem_read (addr + len / 8 * 8) 8 (tmem pid s))) /\
     forall buf' vfuel out' s'', zlen buf' = len -> read_memory vfuel buf' len pid addr s = (Ok (0, out'), s'') -> out' = out).
Proof.
  destruct Hlen as (<- & Ha & Hlim). pose proof (zlen_nonneg buf).
  pose proof (Z.div_mod (zlen buf) 8 ltac:(lia)). pose proof (Z.mod_pos_bound (zlen buf) 8 ltac:(lia)).
  unfold read_memory_peek in Hs. apply read_memory_words_ok in Hs as (Em & He & Hout); [|lia|unfold zlen in *; lia|done|done].
  split_and!; [done..|]. intros Hz. destruct (Hout Hz) as (xs & -> & Hxs & Htail). rewrite app_nil_l, zlen_nat.
  split_and!; [done| |].
  - intros Hm. replace (zlen buf / 8 * 8) with (8 * Z.of_nat (Z.to_nat (zlen buf / 8))) by lia. apply Htail. lia.
  - intros buf' vfuel out' s'' Hb Hv. apply read_retry_ok in Hv as [_ Hv]; [|lia|done]. specialize (Hv eq_refl).
    rewrite zlen_nat in Hv. congruence.
Qed.
End laws.

(** Ten bytes of a mapping that ends with them: [process_vm_readv] reads them, the words do
    not. *)
Example last_word_unmapped :
  let s := {| kernel := {| sim_map := mem_write 0x1000 (replicate 10 65) ∅; sim_us := 0 |}; tlog := [] |} in
  fst (read_memory_peek 700 (replicate 10 0) 10 1 0x1000 s) = Ok (1, replicate 8 65 ++ [0; 0]) /\
  fst (read_memory 1 (replicate 10 0) 10 1 0x1000 s) = Ok (0, replicate 10 65).
Proof. split; vm_compute; reflexivity. Qed.

(** The hypotheses hold for a mapping of two words. *)
Lemma read_memory_peek_spec_witness :
  let s := {| kernel := {| sim_map := mem_write 0x1000 (replicate 16 65) ∅; sim_us := 0 |}; tlog := [] |} in
  mem_read 0x1000 10 (tmem 1 s) = Some (replicate 10 65).
Proof.
  intros s.
  assert (E : read_memory_peek 700 (replicate 10 0) 10 1 0x1000 s = (Ok (0, replicate 10 65), s)) by (vm_compute; reflexivity).
  assert (Hlen : zlen (replicate 10 0) = 10 /\ 0 <= 0x1000 /\ 0x1000 + 10 < 2 ^ 64) by (split; [reflexivity|lia]).
  exact (proj1 (proj2 (proj2 (read_memory_peek_spec 700 (replicate 10 0) 10 1 0x1000 s 0 (replicate 10 65) s Hlen E)) eq_refl)).
Defined.
