(* ===== verification/Arch.v ===== *)
(** * What the architecture-dependent code works on, and what it promises

    The prologue code of lib/arch/<arch>/patch.c reads the function it patches
    and queues writes; the memory changes when the queue is interpreted. *)

From stdpp Require Import gmap.
From S2P Require Import Prelude Errors Memory InsnQueue.

Open Scope ulp_scope.

(** The code of the process, and libpulp's queue and error state. *)
Record code_state := { code_mem : mem; code_q : qstate }.

Definition set_code_q q (s : code_state) : code_state := {| code_mem := code_mem s; code_q := q |}.

Abbreviation arch_m A := (st code_state Z A).

Definition on_queue {A} (m : lib A) : arch_m A := fun s =>
  let (r, q) := m (code_q s) in (r, set_code_q q s).

(** [WARN] and [DEBUG]. *)
Definition a_log (fmt : string) : arch_m unit :=
  on_queue (modify (fun s => set_diagnosis (push_msg fmt (diagnosis s)) s)).

(** [n] bytes of the process; memory that is not mapped faults. *)
Definition read_code (a : Z) (n : nat) : arch_m bytes := fun s =>
  match mem_read a n (code_mem s) with
  | Some bs => (Ok bs, s)
  | None => (Ub, s)
  end.

(** lib/ulp.c; [NULL] is 0. *)
Definition memwrite (dest : Z) (src : bytes) (n : Z) : arch_m Z :=
  let! e := on_queue (insnq_insert_write dest n src) in
  ret (if negb (e =? ENONE) then 0 else dest).

Lemma read_code_ok a n s bs : mem_read a n (code_mem s) = Some bs -> read_code a n s = (Ok bs, s).
Proof. unfold read_code. by intros ->. Qed.

Lemma a_log_ok fmt s :
  a_log fmt s = (Ok tt, set_code_q (set_diagnosis (push_msg fmt (diagnosis (code_q s))) (code_q s)) s).
Proof. done. Qed.

(** A queued write of a whole buffer. *)
Lemma memwrite_ok a bs s l :
  queue_holds (queue (code_q s)) l -> insn_ok (IWrite a bs) -> a <> 0 ->
  q_size (queue (code_q s)) + isize (IWrite a bs) <= INSN_BUFFER_MAX ->
  exists q', memwrite a bs (zlen bs) s = (Ok a, set_code_q q' s) /\
    queue_holds (queue q') (l ++ [IWrite a bs]) /\
    q_size (queue q') = q_size (queue (code_q s)) + isize (IWrite a bs) /\
    diagnosis q' = diagnosis (code_q s).
Proof.
  intros Hq Hi Ha Hfit. exists (appended (IWrite a bs) (code_q s)).
  pose proof (insert_fits (IWrite a bs) (code_q s) l Hq Hi Hfit) as E. simpl insert in E.
  split; [|by split; [apply appended_holds|]].
  unfold memwrite, on_queue, bind. rewrite E. done.
Qed.

Lemma read2_bytes m a b0 b1 :
  mem_read a 2 m = Some [b0; b1] -> mem_read a 1 m = Some [b0] /\ mem_read (a + 1) 1 m = Some [b1].
Proof.
  simpl. destruct (m !! a), (m !! (a + 1)); try done. by intros [= -> ->].
Qed.

(** ** The interface of the architecture *)

Class Arch := {
  (** [ulp_patch_addr (old_faddr, new_faddr, enable)]. *)
  ulp_patch_addr : Z -> Z -> bool -> arch_m Z;
  (** [TLS_DTV_OFFSET]. *)
  TLS_DTV_OFFSET : Z }.

(** What the rest of libpulp relies on. [livepatchable m f] says that the code
    at [f] can be patched, and [target m f] where a call of [f] goes: to another
    function, or on to the function's own body ([None]). *)
Class ArchLaws `{Arch} := {
  livepatchable : mem -> Z -> Prop;
  target : mem -> Z -> option Z;
  (** The bytes the prologue of [f] occupies. *)
  prologue_start : Z -> Z;
  prologue_end : Z -> Z;
  (** The writes that are queued, for the memory at the time of the call. *)
  patch_writes : mem -> Z -> option Z -> list insn;
  patch_law : forall f new (enable : bool) s l,
    livepatchable (code_mem s) f -> in_u 64 new -> queue_holds (queue (code_q s)) l ->
    let ws := patch_writes (code_mem s) f (if enable then Some new else None) in
    q_size (queue (code_q s)) + total_size ws <= INSN_BUFFER_MAX ->
    exists s', ulp_patch_addr f new enable s = (Ok 0, s') /\
      code_mem s' = code_mem s /\ queue_holds (queue (code_q s')) (l ++ ws) /\
      q_size (queue (code_q s')) = q_size (queue (code_q s)) + total_size ws /\
      err_state (diagnosis (code_q s')) = err_state (diagnosis (code_q s));
  writes_law : forall m f new, livepatchable m f ->
    (forall a, new = Some a -> in_u 64 a) ->
    let m' := written (patch_writes m f new) m in
    livepatchable m' f /\ target m' f = new /\
    (forall x, x < prologue_start f \/ prologue_end f <= x -> m' !! x = m !! x);
  (** Only the prologue matters, and what is written depends only on the part of
      it that a patch does not change. *)
  frame_law : forall m m' f, livepatchable m f ->
    (forall x, prologue_start f <= x < prologue_end f -> m' !! x = m !! x) ->
    livepatchable m' f /\ target m' f = target m f /\
    (forall new, patch_writes m' f new = patch_writes m f new);
  stable_law : forall m f new new', livepatchable m f ->
    (forall a, new = Some a -> in_u 64 a) ->
    patch_writes (written (patch_writes m f new) m) f new' = patch_writes m f new';
  (** The room a patch takes in the queue. *)
  patch_room : Z;
  room_law : forall m f new, livepatchable m f ->
    0 <= total_size (patch_writes m f new) <= patch_room;
  confined_law : forall m f new, livepatchable m f ->
    Forall (fun i => match i with
                     | IPrint _ => True
                     | IWrite a bs => prologue_start f <= a /\ a + zlen bs <= prologue_end f
                     end) (patch_writes m f new);
  patchable_nonzero : forall m f, livepatchable m f -> f <> 0;
  prologue_range : forall f, prologue_start f < prologue_end f }.
