(* ===== verification/ArchX86.v ===== *)
(** * Function prologues on x86_64 (lib/arch/x86_64/patch.c)

    A livepatchable function is preceded by 14 nops and starts with a two-byte
    nop, after an [endbr64] when the code has indirect branch tracking. Patching
    turns the nops into an absolute jump and the two-byte nop into a jump to
    them. *)

From stdpp Require Import gmap.
From S2P Require Import Prelude Errors Memory InsnQueue Arch.

Open Scope ulp_scope.

Definition PRE_NOPS_LEN : Z := 14.
Definition ULP_NOPS_LEN : Z := 16.
Definition ULP_NOPS_LEN_ENDBR64 : Z := ULP_NOPS_LEN + 4.
Definition ULP_DATA_OFFSET : Z := 6.

Definition insn_endbr64 : bytes := [0xf3; 0x0f; 0x1e; 0xfa].

(** [(unsigned char) x]. *)
Definition byte_of (x : Z) : Z := u8 x.

Definition ulp_prologue : bytes :=
  [0xff; 0x25; 0; 0; 0; 0;
   0; 0; 0; 0; 0; 0; 0; 0;
   0xeb; byte_of (-(PRE_NOPS_LEN + 2))].

Definition ulp_prologue_endbr64 : bytes :=
  [0xff; 0x25; 0; 0; 0; 0;
   0; 0; 0; 0; 0; 0; 0; 0] ++
  insn_endbr64 ++
  [0xeb; byte_of (-(PRE_NOPS_LEN + 2 + 4))].

Definition ulp_patch_prologue_layout (old_fentry : Z) (prologue : bytes) (len : Z) : arch_m unit :=
  memwrite old_fentry prologue len;;; ret tt.

Definition is_endbr64 (fentry : Z) : arch_m bool :=
  let! bs := read_code fentry 4 in ret (byte_eqb bs insn_endbr64).

Definition ulp_skip_prologue (fentry : Z) : arch_m unit :=
  let insn_nop2 := [0x66; 0x90] in
  let! e := is_endbr64 fentry in
  let bias := if e then 4 else 0 in
  memwrite (u64 (fentry + bias)) insn_nop2 2;;; ret tt.

Definition x86_patch_addr (old_faddr new_faddr : Z) (enable : bool) : arch_m Z :=
  let! e := is_endbr64 old_faddr in
  let ulp_nops_len := if e then ULP_NOPS_LEN_ENDBR64 else ULP_NOPS_LEN in
  let prologue := if e then ulp_prologue_endbr64 else ulp_prologue in
  let as_bytes := if e then u64 (old_faddr + 4) else old_faddr in
  let! b0 := read_code as_bytes 1 in
  let! ok :=
    if byte_eqb b0 [0xEB] then ret true
    else
      let! b1 := read_code (u64 (as_bytes + 1)) 1 in
      ret (byte_eqb b1 [0x90] && (byte_eqb b0 [0x90] || byte_eqb b0 [0x66])) in
  if negb ok then a_log "Function at addr %lx is not livepatchable";;; ret ENOPATCHABLE
  else
    let addr := u64 (old_faddr - PRE_NOPS_LEN) in
    if enable then
      a_log "Patching function 0x%lx to 0x%lx";;;
      let patched_prologue :=
        splice (Z.to_nat ULP_DATA_OFFSET) (le_bytes 8 (u64 new_faddr)) prologue in
      ulp_patch_prologue_layout addr patched_prologue ulp_nops_len;;; ret 0
    else
      a_log "Removing patch from 0x%lx";;;
      ulp_skip_prologue old_faddr;;; ret 0.

#[export] Instance x86_arch : Arch := {
  ulp_patch_addr := x86_patch_addr;
  TLS_DTV_OFFSET := 0 }.

(** ** A decoder for the instructions of a prologue

    Where execution at [a] goes, or [None] at the first instruction that is not
    one of a prologue. *)
Definition decode (m : mem) (a : Z) : option Z :=
  match mem_read a 1 m with
  | Some [0xf3] =>
    if bool_decide (mem_read a 4 m = Some insn_endbr64) then Some (a + 4) else None
  | Some [0xeb] =>
    match mem_read (a + 1) 1 m with
    | Some [rel] => Some (a + 2 + swrap 8 rel)
    | _ => None
    end
  | Some [0xff] =>
    if bool_decide (mem_read a 6 m = Some [0xff; 0x25; 0; 0; 0; 0]) then
      option_map le_val (mem_read (a + 6) 8 m)
    else None
  | Some [0x66] => if bool_decide (mem_read (a + 1) 1 m = Some [0x90]) then Some (a + 2) else None
  | Some [0x90] => Some (a + 1)
  | _ => None
  end.

(** The address of the nop or jump of a function. *)
Definition jump_slot (m : mem) (f : Z) : Z :=
  if bool_decide (mem_read f 4 m = Some insn_endbr64) then f + 4 else f.

(** Execution from [f] through the prologue: [Some new] when it leaves for
    [new], [None] when it goes on behind the nop. *)
Definition x86_target (m : mem) (f : Z) : option Z :=
  let slot := jump_slot m f in
  match decode m slot with
  | Some a => if a =? f - 14 then decode m a else None
  | None => None
  end.

(** The padding and the first bytes are mapped, and the slot holds one of the
    forms a prologue has. *)
Record x86_livepatchable (m : mem) (f : Z) : Prop := {
  lp_range : 14 < f /\ f + 8 < 2 ^ 64;
  lp_pad : is_Some (mem_read (f - 14) 20 m);
  lp_slot : exists b0 b1, mem_read (jump_slot m f) 2 m = Some [b0; b1] /\
    ((b0 = 0xeb /\ b1 = u8 (f - 14 - (jump_slot m f + 2))) \/ (b0 = 0x66 /\ b1 = 0x90) \/ (b0 = 0x90 /\ b1 = 0x90)) }.

(** ** The prologue keeps the promise of the interface *)

Definition x86_prologue (e : bool) (new : Z) : bytes :=
  splice (Z.to_nat ULP_DATA_OFFSET) (le_bytes 8 new) (if e then ulp_prologue_endbr64 else ulp_prologue).

Definition has_endbr64 (m : mem) (f : Z) : bool := bool_decide (mem_read f 4 m = Some insn_endbr64).

Definition x86_patch_write (m : mem) (f : Z) (new : option Z) : Z * bytes :=
  match new with
  | Some a => (f - 14, x86_prologue (has_endbr64 m f) a)
  | None => (jump_slot m f, [0x66; 0x90])
  end.

(** The parts of a patched prologue: the jump through its data, the data, and
    the two bytes at the slot. *)
Lemma x86_prologue_parts e new :
  zlen (x86_prologue e new) = (if e then 20 else 16) /\
  slice 0 6 (x86_prologue e new) = [0xff; 0x25; 0; 0; 0; 0] /\
  slice 6 8 (x86_prologue e new) = le_bytes 8 new /\
  (e = true -> slice 14 4 (x86_prologue e new) = insn_endbr64) /\
  slice (if e then 18 else 14) 2 (x86_prologue e new) = [0xeb; if e then 0xec else 0xf0].
Proof. by destruct e. Qed.

Lemma jump_slot_eq m f : jump_slot m f = if has_endbr64 m f then f + 4 else f.
Proof. done. Qed.

(** The slot stays where it is when the prologue is written. *)
Lemma has_endbr64_write m f e new :
  has_endbr64 m f = e -> has_endbr64 (mem_write (f - 14) (x86_prologue e new) m) f = e.
Proof.
  intros He. destruct (x86_prologue_parts e new) as (Hl & _ & _ & Hb & Hs).
  destruct e.
  - unfold has_endbr64. apply bool_decide_eq_true.
    rewrite mem_read_write_sub by lia. replace (f - (f - 14)) with 14 by lia.
    change (Z.to_nat 14) with 14%nat. by rewrite Hb.
  - unfold has_endbr64 in *. apply bool_decide_eq_false. intros Hr.
    apply (mem_read_sub _ _ f 2) in Hr; [|lia|lia].
    rewrite mem_read_write_sub in Hr by (rewrite ?Hl; simpl; lia).
    replace (f - (f - 14)) with 14 in Hr by lia. rewrite Z.sub_diag in Hr.
    change (Z.to_nat 14) with 14%nat in Hr. rewrite Hs in Hr. done.
Qed.

(** Where a call goes, from the two bytes at the slot. *)
Lemma decode_slot_jump m f :
  mem_read (jump_slot m f) 2 m = Some [0xeb; u8 (f - 14 - (jump_slot m f + 2))] ->
  x86_target m f = decode m (f - 14).
Proof.
  intros Hs. apply read2_bytes in Hs as [H0 H1]. unfold x86_target. cbv zeta.
  unfold decode at 1. rewrite H0, H1.
  assert (Hj : jump_slot m f + 2 + swrap 8 (u8 (f - 14 - (jump_slot m f + 2))) = f - 14).
  { rewrite jump_slot_eq. destruct (has_endbr64 m f).
    - replace (f - 14 - (f + 4 + 2)) with (-20) by lia. change (swrap 8 (u8 (-20))) with (-20). lia.
    - replace (f - 14 - (f + 2)) with (-16) by lia. change (swrap 8 (u8 (-16))) with (-16). lia. }
  by rewrite Hj, Z.eqb_refl.
Qed.

Lemma decode_slot_nop m f b0 :
  mem_read (jump_slot m f) 2 m = Some [b0; 0x90] -> b0 = 0x66 \/ b0 = 0x90 -> x86_target m f = None.
Proof.
  intros Hs Hb. apply read2_bytes in Hs as [H0 H1]. unfold x86_target. cbv zeta.
  unfold decode at 1. rewrite H0. rewrite jump_slot_eq in *.
  destruct Hb as [-> | ->].
  - rewrite bool_decide_eq_true_2 by done.
    destruct (has_endbr64 m f); destruct (Z.eqb_spec (f + 4 + 2) (f - 14)), (Z.eqb_spec (f + 2) (f - 14)); lia || done.
  - destruct (has_endbr64 m f); destruct (Z.eqb_spec (f + 4 + 1) (f - 14)), (Z.eqb_spec (f + 1) (f - 14)); lia || done.
Qed.

Lemma x86_enable_law m f new :
  x86_livepatchable m f -> in_u 64 new ->
  let m' := mem_write (f - 14) (x86_prologue (has_endbr64 m f) new) m in
  x86_livepatchable m' f /\ x86_target m' f = Some new.
Proof.
  intros [Hr Hp (b0 & b1 & Hs & _)] Hn m'. set (e := has_endbr64 m f) in *.
  destruct (x86_prologue_parts e new) as (Hl & H6 & Hd & Hb & Hslot).
  assert (He : has_endbr64 m' f = e) by (by apply has_endbr64_write).
  assert (Hj : jump_slot m' f = if e then f + 4 else f) by (by rewrite jump_slot_eq, He).
  assert (Hs' : mem_read (jump_slot m' f) 2 m' = Some [0xeb; u8 (f - 14 - (jump_slot m' f + 2))]).
  { rewrite Hj. unfold m'. destruct e.
    - rewrite mem_read_write_sub by (rewrite ?Hl; lia). replace (f + 4 - (f - 14)) with 18 by lia.
      change (Z.to_nat 18) with 18%nat. rewrite Hslot. by replace (f - 14 - (f + 4 + 2)) with (-20) by lia.
    - rewrite mem_read_write_sub by (rewrite ?Hl; lia). replace (f - (f - 14)) with 14 by lia.
      change (Z.to_nat 14) with 14%nat. rewrite Hslot. by replace (f - 14 - (f + 2)) with (-16) by lia. }
  split.
  - split; [done| |exists 0xeb, (u8 (f - 14 - (jump_slot m' f + 2))); split; [done|by left]].
    destruct Hp as [pad Hp]. unfold m'. apply mem_read_is_Some_write. by eexists.
  - rewrite decode_slot_jump by done. unfold decode, m'.
    assert (R1 : mem_read (f - 14) 1 (mem_write (f - 14) (x86_prologue e new) m) = Some [0xff]).
    { rewrite mem_read_write_sub by (rewrite ?Hl; destruct e; lia). rewrite Z.sub_diag. by destruct e. }
    assert (R6 : mem_read (f - 14) 6 (mem_write (f - 14) (x86_prologue e new) m) = Some [0xff; 0x25; 0; 0; 0; 0]).
    { rewrite mem_read_write_sub by (rewrite ?Hl; destruct e; lia). rewrite Z.sub_diag.
      change (Z.to_nat 0) with 0%nat. by rewrite H6. }
    assert (R8 : mem_read (f - 14 + 6) 8 (mem_write (f - 14) (x86_prologue e new) m) = Some (le_bytes 8 new)).
    { rewrite mem_read_write_sub by (rewrite ?Hl; destruct e; lia).
      replace (f - 14 + 6 - (f - 14)) with 6 by lia. change (Z.to_nat 6) with 6%nat. by rewrite Hd. }
    rewrite R1, bool_decide_eq_true_2, R8 by exact R6. cbn [option_map].
    by rewrite le_val_bytes by exact Hn.
Qed.

Lemma has_endbr64_disabled m f :
  x86_livepatchable m f -> has_endbr64 (mem_write (jump_slot m f) [0x66; 0x90] m) f = has_endbr64 m f.
Proof.
  intros [Hr _ _]. rewrite jump_slot_eq. destruct (has_endbr64 m f) eqn:E; unfold has_endbr64 in *.
  - apply bool_decide_eq_true in E. apply bool_decide_eq_true.
    rewrite mem_read_write_out; [done|]. left. change (Z.of_nat 4) with 4. lia.
  - apply bool_decide_eq_false. intros Hx. apply (mem_read_sub _ _ f 2) in Hx; [|lia|lia].
    rewrite mem_read_write_sub in Hx by (change (zlen [102; 144]) with 2; lia).
    rewrite Z.sub_diag in Hx. done.
Qed.

Lemma x86_disable_law m f :
  x86_livepatchable m f ->
  let m' := mem_write (jump_slot m f) [0x66; 0x90] m in
  x86_livepatchable m' f /\ x86_target m' f = None.
Proof.
  intros Hlp m'. pose proof Hlp as [Hr Hp _].
  assert (He : has_endbr64 m' f = has_endbr64 m f) by (by apply has_endbr64_disabled).
  assert (Hj : jump_slot m' f = jump_slot m f) by (by rewrite !jump_slot_eq, He).
  assert (Hs' : mem_read (jump_slot m' f) 2 m' = Some [0x66; 0x90]).
  { rewrite Hj. unfold m'. apply (mem_read_write (jump_slot m f) [0x66; 0x90]). }
  split; [|by apply (decode_slot_nop m' f 0x66); [|left]].
  split; [done| |exists 0x66, 0x90; split; [done|by right; left]].
  unfold m'. by apply mem_read_is_Some_write.
Qed.

(** ** What is queued *)

Lemma is_endbr64_ok f s :
  x86_livepatchable (code_mem s) f -> is_endbr64 f s = (Ok (has_endbr64 (code_mem s) f), s).
Proof.
  intros [Hr [pad Hp] _]. unfold is_endbr64.
  pose proof (mem_read_sub _ _ f 4 _ _ Hp ltac:(lia) ltac:(lia)) as H4.
  rewrite (bind_ok _ _ _ _ _ (read_code_ok _ _ _ _ H4)). unfold ret, has_endbr64. do 2 f_equal.
  rewrite H4. unfold byte_eqb. apply bool_decide_ext. split; [by intros ->|congruence].
Qed.

(** The check of the bytes at the slot passes. *)
Lemma slot_check_ok m f s k :
  x86_livepatchable m f -> code_mem s = m ->
  bind (read_code (if has_endbr64 m f then u64 (f + 4) else f) 1) (fun b0 =>
    bind (if byte_eqb b0 [0xEB] then ret true
          else bind (read_code (u64 ((if has_endbr64 m f then u64 (f + 4) else f) + 1)) 1) (fun b1 =>
            ret (byte_eqb b1 [0x90] && (byte_eqb b0 [0x90] || byte_eqb b0 [0x66])))) k) s = k true s
  :> res Z Z * code_state.
Proof.
  intros [Hr _ (b0 & b1 & Hs & Hb)] <-. rewrite jump_slot_eq in Hs.
  rewrite (wrap_id 64 (f + 4)) by (unfold in_u; lia).
  set (slot := if has_endbr64 (code_mem s) f then f + 4 else f) in *.
  assert (Hslot : f <= slot <= f + 4) by (unfold slot; destruct (has_endbr64 _ _); lia).
  rewrite (wrap_id 64) by (unfold in_u; lia). apply read2_bytes in Hs as [H0 H1].
  rewrite (bind_ok _ _ _ _ _ (read_code_ok _ _ _ _ H0)).
  destruct Hb as [[-> _]|[[-> ->]|[-> ->]]]; [done| |].
  - change (byte_eqb [0x66] [0xEB]) with false. cbv iota.
    by rewrite bind_assoc, (bind_ok _ _ _ _ _ (read_code_ok _ _ _ _ H1)).
  - change (byte_eqb [0x90] [0xEB]) with false. cbv iota.
    by rewrite bind_assoc, (bind_ok _ _ _ _ _ (read_code_ok _ _ _ _ H1)).
Qed.

Lemma x86_patch_law f new (enable : bool) s l :
  x86_livepatchable (code_mem s) f -> in_u 64 new -> queue_holds (queue (code_q s)) l ->
  let w := x86_patch_write (code_mem s) f (if enable then Some new else None) in
  let i := IWrite w.1 w.2 in
  q_size (queue (code_q s)) + isize i <= INSN_BUFFER_MAX ->
  exists s', x86_patch_addr f new enable s = (Ok 0, s') /\
    code_mem s' = code_mem s /\ queue_holds (queue (code_q s')) (l ++ [i]) /\
    q_size (queue (code_q s')) = q_size (queue (code_q s)) + isize i /\
    err_state (diagnosis (code_q s')) = err_state (diagnosis (code_q s)).
Proof.
  intros Hlp Hn Hq w i Hfit. pose proof Hlp as [Hr Hp _].
  unfold x86_patch_addr. rewrite (bind_ok _ _ _ _ _ (is_endbr64_ok f s Hlp)). cbv zeta.
  set (e := has_endbr64 (code_mem s) f) in *.
  change (let! b0 := read_code (if e then u64 (f + 4) else f) 1 in ?k) with
    (bind (read_code (if e then u64 (f + 4) else f) 1) (fun b0 => k)).
  rewrite (slot_check_ok _ f s _ Hlp eq_refl). cbn [negb]. cbv iota.
  unfold PRE_NOPS_LEN. rewrite !(wrap_id 64) by (done || (unfold in_u; lia)).
  destruct enable.
  - rewrite (bind_ok _ _ _ _ _ (a_log_ok _ s)). set (s1 := set_code_q _ s).
    destruct (x86_prologue_parts e new) as (Hl & _).
    destruct (memwrite_ok (f - 14) (x86_prologue e new) s1 l) as (q' & E & Hq' & Hs' & Hd); [done| |lia|done|].
    { split; [unfold in_u; lia|]. rewrite Hl. destruct e; lia. }
    replace (zlen (x86_prologue e new)) with (if e then ULP_NOPS_LEN_ENDBR64 else ULP_NOPS_LEN) in E
      by (rewrite Hl; by destruct e).
    unfold ulp_patch_prologue_layout. fold (x86_prologue e new).
    rewrite bind_assoc, (bind_ok _ _ _ _ _ E), ret_bind.
    eexists. split; [reflexivity|]. cbn [code_mem code_q set_code_q]. rewrite Hd. by split_and!.
  - rewrite (bind_ok _ _ _ _ _ (a_log_ok _ s)). set (s1 := set_code_q _ s).
    unfold ulp_skip_prologue. cbv zeta. rewrite bind_assoc.
    rewrite (bind_ok _ _ _ _ _ (is_endbr64_ok f s1 Hlp)). change (code_mem s1) with (code_mem s). fold e.
    replace (u64 (f + (if e then 4 else 0))) with (jump_slot (code_mem s) f).
    2:{ rewrite jump_slot_eq. fold e. destruct e; [by rewrite wrap_id by (unfold in_u; lia)|].
        by rewrite Z.add_0_r, wrap_id by (unfold in_u; lia). }
    assert (Hj : f <= jump_slot (code_mem s) f <= f + 4) by (rewrite jump_slot_eq; destruct (has_endbr64 _ _); lia).
    destruct (memwrite_ok (jump_slot (code_mem s) f) [0x66; 0x90] s1 l) as (q' & E & Hq' & Hs' & Hd); [done| |lia|done|].
    { split; [unfold in_u; lia|]. change (zlen [0x66; 0x90]) with 2. lia. }
    change (zlen [0x66; 0x90]) with 2 in E.
    rewrite bind_assoc, (bind_ok _ _ _ _ _ E), ret_bind.
    eexists. split; [reflexivity|]. cbn [code_mem code_q set_code_q]. rewrite Hd. by split_and!.
Qed.

(** Only the bytes of the prologue matter. *)
Lemma decode_ext m m' a :
  (forall x, a <= x < a + 14 -> m' !! x = m !! x) -> decode m' a = decode m a.
Proof.
  intros Hx. unfold decode.
  assert (E : forall o k, 0 <= o -> o + Z.of_nat k <= 14 -> mem_read (a + o) k m' = mem_read (a + o) k m)
    by (intros; apply mem_read_ext; intros; apply Hx; lia).
  pose proof (E 0) as E0. rewrite Z.add_0_r in E0.
  by rewrite (E0 1%nat), (E0 4%nat), (E0 6%nat), (E 1 1%nat), (E 6 8%nat) by lia.
Qed.

Lemma decode_slot_ext m m' a b0 b1 :
  mem_read a 2 m = Some [b0; b1] -> b0 = 0xeb \/ b0 = 0x66 \/ b0 = 0x90 ->
  (forall x, a <= x < a + 2 -> m' !! x = m !! x) -> decode m' a = decode m a.
Proof.
  intros H2 Hb Hx.
  assert (H2' : mem_read a 2 m' = Some [b0; b1])
    by (rewrite <- H2; apply mem_read_ext; intros; apply Hx; lia).
  apply read2_bytes in H2 as [E0 E1], H2' as [E0' E1']. unfold decode.
  rewrite E0, E1, E0', E1'. by destruct Hb as [-> |[-> | ->]].
Qed.

Lemma x86_frame_law m m' f :
  x86_livepatchable m f -> (forall x, f - 14 <= x < f + 6 -> m' !! x = m !! x) ->
  x86_livepatchable m' f /\ x86_target m' f = x86_target m f /\
  (forall new, x86_patch_write m' f new = x86_patch_write m f new).
Proof.
  intros [Hr Hp (b0 & b1 & Hs & Hb)] Hx.
  assert (E : forall a k, f - 14 <= a -> a + Z.of_nat k <= f + 6 -> mem_read a k m' = mem_read a k m)
    by (intros; apply mem_read_ext; intros; apply Hx; lia).
  assert (He : has_endbr64 m' f = has_endbr64 m f) by (unfold has_endbr64; by rewrite E by lia).
  assert (Hj : jump_slot m' f = jump_slot m f) by (by rewrite !jump_slot_eq, He).
  assert (Hjr : f <= jump_slot m f <= f + 4) by (rewrite jump_slot_eq; destruct (has_endbr64 m f); lia).
  split_and!.
  - split; [done|by rewrite E by lia|]. exists b0, b1. by rewrite Hj, E by lia.
  - unfold x86_target. cbv zeta. rewrite Hj.
    rewrite (decode_slot_ext m m' _ b0 b1) by (done || (intros; apply Hx; lia) || tauto).
    destruct (decode m (jump_slot m f)) as [a|]; [|done]. destruct (Z.eqb_spec a (f - 14)) as [->|]; [|done].
    apply decode_ext. intros. apply Hx. lia.
  - intros new. unfold x86_patch_write. rewrite He, Hj. done.
Qed.

Lemma x86_stable_law m f new new' :
  x86_livepatchable m f ->
  let w := x86_patch_write m f new in
  x86_patch_write (mem_write w.1 w.2 m) f new' = x86_patch_write m f new'.
Proof.
  intros Hlp w.
  assert (He : has_endbr64 (mem_write w.1 w.2 m) f = has_endbr64 m f).
  { unfold w. destruct new; simpl; [by apply has_endbr64_write|by apply has_endbr64_disabled]. }
  unfold x86_patch_write. by rewrite !jump_slot_eq, He.
Qed.

#[export] Instance x86_arch_laws : ArchLaws.
Proof.
  refine {| livepatchable := x86_livepatchable; target := x86_target;
            prologue_start f := f - 14; prologue_end f := f + 6; patch_room := 40;
            patch_writes m f new :=
              [IWrite (x86_patch_write m f new).1 (x86_patch_write m f new).2] |}.
  - intros f new enable s l Hlp Hn Hq. cbn [total_size fold_right]. rewrite Z.add_0_r.
    by apply x86_patch_law.
  - intros m f new Hlp Hnew m'. destruct new as [a|].
    + destruct (x86_enable_law m f a Hlp (Hnew a eq_refl)) as [H1 H2].
      split_and!; [done|done|]. intros x Hx. apply mem_write_lookup_out.
      destruct (x86_prologue_parts (has_endbr64 m f) a) as (Hl & _). simpl. rewrite Hl.
      destruct (has_endbr64 m f); lia.
    + destruct (x86_disable_law m f Hlp) as [H1 H2]. split_and!; [done|done|].
      intros x Hx. apply mem_write_lookup_out. simpl. rewrite jump_slot_eq.
      change (zlen [0x66; 0x90]) with 2. destruct Hlp as [Hr _ _]. destruct (has_endbr64 m f); lia.
  - intros m m' f Hlp Hx. destruct (x86_frame_law m m' f Hlp Hx) as (H1 & H2 & H3).
    split_and!; [done|done|]. intros new. by rewrite H3.
  - intros m f new new' Hlp _. cbn [written fold_left]. by rewrite x86_stable_law.
  - intros m f new Hlp. destruct new as [a|]; simpl; [|done].
    destruct (x86_prologue_parts (has_endbr64 m f) a) as (Hl & _). rewrite Hl. by destruct (has_endbr64 m f).
  - intros m f new [Hr _ _]. constructor; [|constructor]. destruct new as [a|]; cbn [x86_patch_write fst snd].
    + destruct (x86_prologue_parts (has_endbr64 m f) a) as (Hl & _). rewrite Hl. destruct (has_endbr64 m f); lia.
    + rewrite jump_slot_eq. change (zlen [0x66; 0x90]) with 2. destruct (has_endbr64 m f); lia.
  - intros m f [Hr _ _]. lia.
  - intros f. lia.
Defined.

(** ** Properties *)

(** C22. Patching a function on x86_64: one write is queued, nothing else changes;
    once it is performed, a call of the function runs the jump at its entry, then
    the absolute jump, and arrives at the new function; no byte outside the
    padding and the first bytes of the function is touched, and the function can
    be patched again. *)
Theorem x86_patch_redirects f new s l
    (Hlp : x86_livepatchable (code_mem s) f)
    (Hnew : in_u 64 new)
    (Hq : queue_holds (queue (code_q s)) l)
    (Hroom : q_size (queue (code_q s)) + 40 <= INSN_BUFFER_MAX) :
  exists s' a bs, x86_patch_addr f new true s = (Ok 0, s') /\
    code_mem s' = code_mem s /\ queue_holds (queue (code_q s')) (l ++ [IWrite a bs]) /\
    x86_target (mem_write a bs (code_mem s)) f = Some new /\
    x86_livepatchable (mem_write a bs (code_mem s)) f /\
    (forall x, x < f - 14 \/ f + 6 <= x -> mem_write a bs (code_mem s) !! x = code_mem s !! x).
Proof.
  destruct (x86_prologue_parts (has_endbr64 (code_mem s) f) new) as (Hl & _).
  destruct (x86_patch_law f new true s l Hlp Hnew Hq) as (s' & E & Hm & Hq' & _).
  { cbn [x86_patch_write fst snd]. pose proof (align_to_bounds 3 (16 + 20) ltac:(lia)).
    pose proof (align_to_bounds 3 (16 + 16) ltac:(lia)). unfold isize, sizeof_insn_write. rewrite Hl.
    change (2 ^ 3) with 8 in *. destruct (has_endbr64 _ _).
    - change (align_to (16 + 20) 8) with 40. lia.
    - change (align_to (16 + 16) 8) with 32. lia. }
  exists s', (f - 14), (x86_prologue (has_endbr64 (code_mem s) f) new).
  destruct (x86_enable_law _ f new Hlp Hnew) as [H1 H2].
  split_and!; try done. intros x Hx. apply mem_write_lookup_out. rewrite Hl.
  destruct (has_endbr64 _ _); lia.
Qed.

(** Removing a patch on x86_64: once the queued write is performed, a call of
    the function goes on into its own body, whatever was there before. *)
Theorem x86_unpatch_falls_through f new s l
    (Hlp : x86_livepatchable (code_mem s) f)
    (Hnew : in_u 64 new)
    (Hq : queue_holds (queue (code_q s)) l)
    (Hroom : q_size (queue (code_q s)) + 24 <= INSN_BUFFER_MAX) :
  exists s' a, x86_patch_addr f new false s = (Ok 0, s') /\
    code_mem s' = code_mem s /\ queue_holds (queue (code_q s')) (l ++ [IWrite a [0x66; 0x90]]) /\
    x86_target (mem_write a [0x66; 0x90] (code_mem s)) f = None /\
    x86_livepatchable (mem_write a [0x66; 0x90] (code_mem s)) f.
Proof.
  destruct (x86_patch_law f new false s l Hlp Hnew Hq) as (s' & E & Hm & Hq' & _).
  { cbn [x86_patch_write fst snd]. change (isize (IWrite _ [0x66; 0x90])) with 24. lia. }
  exists s', (jump_slot (code_mem s) f).
  destruct (x86_disable_law _ f Hlp) as [H1 H2]. by split_and!.
Qed.

(** A function whose entry has neither the two-byte nop nor a short jump is
    refused with [ENOPATCHABLE], and nothing is queued. *)
Theorem x86_not_patchable f new enable s b0 b1 pad
    (Hr : 0 <= f /\ f + 8 < 2 ^ 64)
    (Hp : mem_read f 8 (code_mem s) = Some pad)
    (Hs : mem_read (jump_slot (code_mem s) f) 2 (code_mem s) = Some [b0; b1])
    (Hb : b0 <> 0xeb /\ (b1 = 0x90 -> b0 <> 0x90 /\ b0 <> 0x66)) :
  exists s', x86_patch_addr f new enable s = (Ok ENOPATCHABLE, s') /\
    queue (code_q s') = queue (code_q s) /\ code_mem s' = code_mem s.
Proof.
  pose proof (mem_read_sub _ _ f 4 _ _ Hp ltac:(lia) ltac:(lia)) as H4.
  unfold x86_patch_addr, is_endbr64. rewrite bind_assoc, (bind_ok _ _ _ _ _ (read_code_ok _ _ _ _ H4)), ret_bind.
  assert (He : byte_eqb (slice (Z.to_nat (f - f)) 4 pad) insn_endbr64 = has_endbr64 (code_mem s) f).
  { unfold has_endbr64. rewrite H4. apply bool_decide_ext. split; [by intros ->|congruence]. }
  rewrite He. cbv zeta. rewrite jump_slot_eq in Hs. apply read2_bytes in Hs as [H0 H1].
  set (slot := if has_endbr64 (code_mem s) f then f + 4 else f) in *.
  assert (Hslot : (if has_endbr64 (code_mem s) f then u64 (f + 4) else f) = slot).
  { unfold slot. destruct (has_endbr64 _ _); [|done]. by rewrite wrap_id by (unfold in_u; lia). }
  assert (f <= slot <= f + 4) by (unfold slot; destruct (has_endbr64 _ _); lia).
  rewrite Hslot, (bind_ok _ _ _ _ _ (read_code_ok _ _ _ _ H0)).
  destruct Hb as [Hb0 Hb1].
  assert (E0 : byte_eqb [b0] [0xEB] = false) by (apply byte_eqb_neq; congruence). rewrite E0.
  rewrite wrap_id by (unfold in_u; lia).
  rewrite bind_assoc, (bind_ok _ _ _ _ _ (read_code_ok _ _ _ _ H1)), ret_bind.
  assert (E1 : byte_eqb [b1] [0x90] && (byte_eqb [b0] [0x90] || byte_eqb [b0] [0x66]) = false).
  { destruct (decide (b1 = 0x90)) as [->|Hne].
    - destruct (Hb1 eq_refl). rewrite !(proj2 (byte_eqb_neq [b0] _)) by congruence. apply andb_false_r.
    - by rewrite (proj2 (byte_eqb_neq [b1] _)) by congruence. }
  rewrite E1. cbn [negb]. eexists. split; [reflexivity|]. done.
Qed.
