(* ===== verification/ArchPpc.v ===== *)
(** * Function prologues on powerpc64le (lib/arch/powerpc64le/patch.c)

    A livepatchable function is preceded by 13 nops and has one nop at its entry
    or behind the 8 bytes of its global entry point. Patching copies the
    assembled [ulp_prologue], which holds the address of the new function, over
    the 13 nops, and turns the one nop into a branch to them. The stack on which
    the prologue saves registers is in [PpcStack]. *)

From stdpp Require Import gmap.
From S2P Require Import Prelude Errors Memory InsnQueue Arch.

Open Scope ulp_scope.

Definition PRE_NOPS_LEN : Z := 13.
Definition ULP_NOPS_LEN : Z := 14.
Definition INSN_SIZE : Z := 4.
Definition INT_MAX : Z := 2 ^ 31 - 1.

Definition gNop : bytes := [0x00; 0x00; 0x00; 0x60].

Definition generate_branch_to_prologue (offset : Z) : Z :=
  u32 (Z.lor (Z.land offset 0x00FFFFFF) (Z.shiftl 0x4B 24)).

(** [WITH_OFFSET]. *)
Definition with_offset (offset : Z) : Z := - (INSN_SIZE * PRE_NOPS_LEN + offset).

Section patch.
(** The code assembled from ulp_prologue.S, and where the address of the new
    function lies in it. *)
Variable ulp_prologue : bytes.
Variable ulp_prologue_new_function_offset : nat.

Definition ulp_prologue_size : Z := zlen ulp_prologue.

(** An early return is the end of the process. *)
Definition ulp_patch_prologue_layout (old_fentry new_fentry : Z) (prologue : bytes) : arch_m unit :=
  (if ulp_prologue_size <=? INSN_SIZE * PRE_NOPS_LEN then ret tt else throw (-1));;;
  let prolog := splice ulp_prologue_new_function_offset (le_bytes 8 (u64 new_fentry)) prologue in
  if bool_decide (length prologue < ulp_prologue_new_function_offset + 8)%nat then undef
  else
    let fentry_prologue := u64 (old_fentry - INSN_SIZE * PRE_NOPS_LEN) in
    memwrite fentry_prologue prolog (INSN_SIZE * PRE_NOPS_LEN);;; ret tt.

(** The loop over [valid_offsets]. *)
Fixpoint try_offsets (offsets : list Z) (fentry : Z) : arch_m Z :=
  match offsets with
  | [] => ret (- INT_MAX)
  | offset :: offsets =>
    let branch := generate_branch_to_prologue (with_offset offset) in
    let! insn := read_code (u64 (fentry + offset)) 4 in
    if byte_eqb insn gNop || byte_eqb insn (le_bytes 4 branch) then ret offset
    else try_offsets offsets fentry
  end.

Definition get_branch_offset (fentry : Z) : arch_m Z := try_offsets [0; 8] fentry.

Definition ulp_skip_prologue (fentry : Z) : arch_m Z :=
  let! offset := get_branch_offset fentry in
  if offset <? 0 then ret ENOPATCHABLE
  else
    let! offset := get_branch_offset fentry in
    memwrite (u64 (fentry + offset)) gNop 4;;; ret 0.

Definition ulp_patch_addr_trampoline (old_fentry : Z) : arch_m Z :=
  let! offset := get_branch_offset old_fentry in
  if offset <? 0 then ret ENOPATCHABLE
  else
    let branch := generate_branch_to_prologue (with_offset offset) in
    memwrite (u64 (old_fentry + offset)) (le_bytes 4 branch) 4;;; ret 0.

Definition ppc_patch_addr (old_faddr new_faddr : Z) (enable : bool) : arch_m Z :=
  if enable then
    ulp_patch_prologue_layout old_faddr new_faddr ulp_prologue;;;
    ulp_patch_addr_trampoline old_faddr
  else ulp_skip_prologue old_faddr.

#[export] Instance ppc_arch : Arch := {
  ulp_patch_addr := ppc_patch_addr;
  TLS_DTV_OFFSET := 0x8000 }.
End patch.

(** ** A decoder for the branch at a function's entry *)

(** The offset of an unconditional relative branch without link. *)
Definition decode_branch (w : Z) : option Z :=
  if Z.land w 0xFC000003 =? 0x48000000 then Some (swrap 26 (Z.land w 0x03FFFFFC)) else None.

Definition branch_to (o : Z) : bytes := le_bytes 4 (generate_branch_to_prologue (with_offset o)).

(** The branch words are those of the offsets. *)
Lemma branch_to_decodes o : o = 0 \/ o = 8 -> decode_branch (le_val (branch_to o)) = Some (with_offset o).
Proof. intros [-> | ->]; vm_compute; done. Qed.

Definition slot_word (m : mem) (f o : Z) : bool :=
  bool_decide (mem_read (f + o) 4 m = Some gNop) || bool_decide (mem_read (f + o) 4 m = Some (branch_to o)).

(** The offset of the nop or branch of a function. *)
Definition slot_offset (m : mem) (f : Z) : option Z :=
  if slot_word m f 0 then Some 0 else if slot_word m f 8 then Some 8 else None.

Record ppc_livepatchable (m : mem) (f : Z) : Prop := {
  ppc_range : 52 < f /\ f + 16 < 2 ^ 64;
  ppc_pad : is_Some (mem_read (f - 52) 64 m);
  ppc_slot : is_Some (slot_offset m f) }.

Lemma slot_offset_cases m f o : slot_offset m f = Some o -> o = 0 \/ o = 8.
Proof. unfold slot_offset. destruct (slot_word m f 0), (slot_word m f 8); intros [= <-]; auto. Qed.

Lemma read_slot m f o k :
  ppc_livepatchable m f -> 0 <= o -> o + Z.of_nat k <= 12 -> is_Some (mem_read (f + o) k m).
Proof.
  intros [Hr [pad Hp] _] Ho Hk. eexists. eapply mem_read_sub; [exact Hp|lia|lia].
Qed.

(** The words at the two slots that do not overlap the write stay. *)
Lemma slot_word_frame m f o a bs :
  f + o + 4 <= a \/ a + zlen bs <= f + o -> slot_word (mem_write a bs m) f o = slot_word m f o.
Proof. intros H. unfold slot_word. rewrite !mem_read_write_out by (change (Z.of_nat 4) with 4; lia). done. Qed.

Lemma slot_word_written m f o bs :
  length bs = 4%nat -> bs = gNop \/ bs = branch_to o -> slot_word (mem_write (f + o) bs m) f o = true.
Proof.
  intros Hl Hb. unfold slot_word. rewrite <- Hl, mem_read_write. apply orb_true_iff.
  rewrite !bool_decide_eq_true. destruct Hb as [-> | ->]; auto.
Qed.

(** Writing a nop or the branch at the slot leaves the slot where it is. *)
Lemma slot_offset_written m f o bs :
  slot_offset m f = Some o -> length bs = 4%nat -> bs = gNop \/ bs = branch_to o ->
  slot_offset (mem_write (f + o) bs m) f = Some o.
Proof.
  intros Hs Hl Hb. unfold slot_offset in *. destruct (slot_word m f 0) eqn:E0.
  - injection Hs as <-. by rewrite slot_word_written.
  - destruct (slot_word m f 8) eqn:E8; [|done]. injection Hs as <-.
    rewrite slot_word_frame by (unfold zlen; lia). by rewrite E0, slot_word_written.
Qed.

Lemma slot_offset_frame m f a bs :
  a + zlen bs <= f -> slot_offset (mem_write a bs m) f = slot_offset m f.
Proof. intros H. unfold slot_offset. by rewrite !slot_word_frame by lia. Qed.

Section ppc_laws.
Variable ulp_prologue : bytes.
Variable new_offset : nat.
Hypothesis prologue_len : zlen ulp_prologue = 52.
Hypothesis new_offset_in : (new_offset + 8 <= 52)%nat.

(** Where a call goes: through the branch into the prologue, and from there to
    the address the prologue holds; or on behind the nop. *)
Definition ppc_target (m : mem) (f : Z) : option Z :=
  match slot_offset m f with
  | Some o =>
    match option_map le_val (mem_read (f + o) 4 m) with
    | Some w =>
      match decode_branch w with
      | Some d =>
        if f + o + d =? f - 52 then option_map le_val (mem_read (f - 52 + Z.of_nat new_offset) 8 m)
        else None
      | None => None
      end
    | None => None
    end
  | None => None
  end.

Definition ppc_prologue (new : Z) : bytes := splice new_offset (le_bytes 8 new) ulp_prologue.

Definition ppc_slot_of (m : mem) (f : Z) : Z := f + default 0 (slot_offset m f).

Definition ppc_patch_writes (m : mem) (f : Z) (new : option Z) : list insn :=
  match new with
  | Some a => [IWrite (f - 52) (ppc_prologue a);
               IWrite (ppc_slot_of m f) (branch_to (default 0 (slot_offset m f)))]
  | None => [IWrite (ppc_slot_of m f) gNop]
  end.

Lemma ppc_prologue_len new : zlen (ppc_prologue new) = 52.
Proof.
  unfold ppc_prologue, zlen in *. rewrite length_splice; [done|]. rewrite length_le_bytes. lia.
Qed.

Lemma ppc_enable_law m f new :
  ppc_livepatchable m f -> in_u 64 new ->
  let m' := written (ppc_patch_writes m f (Some new)) m in
  ppc_livepatchable m' f /\ ppc_target m' f = Some new.
Proof.
  intros Hlp Hn m'. pose proof Hlp as [Hr Hp [o Ho]].
  pose proof (slot_offset_cases m f o Ho) as Hc.
  unfold m', written, ppc_patch_writes, ppc_slot_of. cbn [fold_left]. rewrite Ho. cbn [from_option id].
  set (m1 := mem_write (f - 52) (ppc_prologue new) m).
  pose proof (ppc_prologue_len new) as Hl.
  assert (Ho1 : slot_offset m1 f = Some o) by (unfold m1; rewrite slot_offset_frame by lia; done).
  assert (Ho2 : slot_offset (mem_write (f + o) (branch_to o) m1) f = Some o).
  { apply slot_offset_written; [done|apply length_le_bytes|by right]. }
  split.
  - split; [done| |by rewrite Ho2]. by do 2 apply mem_read_is_Some_write.
  - unfold ppc_target. rewrite Ho2.
    assert (E4 : mem_read (f + o) 4 (mem_write (f + o) (branch_to o) m1) = Some (branch_to o)).
    { rewrite <- (length_le_bytes 4 (generate_branch_to_prologue (with_offset o))). apply mem_read_write. }
    rewrite E4. cbn [option_map]. rewrite branch_to_decodes by done.
    unfold with_offset, INSN_SIZE, PRE_NOPS_LEN. replace (f + o + - (4 * 13 + o)) with (f - 52) by lia.
    rewrite Z.eqb_refl, mem_read_write_out by lia. unfold m1.
    rewrite mem_read_write_sub by lia.
    replace (Z.to_nat (f - 52 + Z.of_nat new_offset - (f - 52))) with new_offset by lia.
    unfold ppc_prologue. rewrite <- (length_le_bytes 8 new) at 1. rewrite slice_splice.
    + cbn [option_map]. by rewrite le_val_bytes by exact Hn.
    + rewrite length_le_bytes. unfold zlen in prologue_len. lia.
Qed.

Lemma ppc_disable_law m f :
  ppc_livepatchable m f ->
  let m' := written (ppc_patch_writes m f None) m in
  ppc_livepatchable m' f /\ ppc_target m' f = None.
Proof.
  intros Hlp m'. pose proof Hlp as [Hr Hp [o Ho]].
  unfold m', written, ppc_patch_writes, ppc_slot_of. cbn [fold_left]. rewrite Ho. cbn [from_option id].
  assert (Ho2 : slot_offset (mem_write (f + o) gNop m) f = Some o).
  { apply slot_offset_written; [done|done|by left]. }
  split.
  - split; [done| |by rewrite Ho2]. by apply mem_read_is_Some_write.
  - unfold ppc_target. rewrite Ho2. rewrite (mem_read_write (f + o) gNop). cbn [option_map].
    by change (decode_branch (le_val gNop)) with (@None Z).
Qed.
Lemma ppc_frame_law m m' f :
  ppc_livepatchable m f -> (forall x, f - 52 <= x < f + 12 -> m' !! x = m !! x) ->
  ppc_livepatchable m' f /\ ppc_target m' f = ppc_target m f /\
  (forall new, ppc_patch_writes m' f new = ppc_patch_writes m f new).
Proof.
  intros [Hr Hp [o Ho]] Hx. pose proof (slot_offset_cases m f o Ho) as Hc.
  assert (E : forall a k, f - 52 <= a -> a + Z.of_nat k <= f + 12 -> mem_read a k m' = mem_read a k m)
    by (intros; apply mem_read_ext; intros; apply Hx; lia).
  assert (Es : slot_offset m' f = slot_offset m f) by (unfold slot_offset, slot_word; by rewrite !E by lia).
  split_and!.
  - split; [done|by rewrite E by lia|by rewrite Es, Ho].
  - unfold ppc_target. rewrite Es, Ho, !E by lia. done.
  - intros new. unfold ppc_patch_writes, ppc_slot_of. by rewrite Es.
Qed.

Lemma ppc_stable_law m f new new' :
  ppc_livepatchable m f ->
  ppc_patch_writes (written (ppc_patch_writes m f new) m) f new' = ppc_patch_writes m f new'.
Proof.
  intros [Hr Hp [o Ho]]. pose proof (ppc_prologue_len) as Hl.
  assert (Es : slot_offset (written (ppc_patch_writes m f new) m) f = slot_offset m f).
  { unfold ppc_patch_writes, ppc_slot_of. rewrite Ho. cbn [from_option id].
    destruct new as [a|]; cbn [written fold_left].
    - apply slot_offset_written; [|apply length_le_bytes|by right].
      rewrite slot_offset_frame; [done|]. rewrite Hl. lia.
    - apply slot_offset_written; [done|done|by left]. }
  generalize dependent (written (ppc_patch_writes m f new) m). intros m' Es.
  unfold ppc_patch_writes, ppc_slot_of. by rewrite Es.
Qed.
End ppc_laws.

Lemma slot_word_test m f o insn :
  mem_read (f + o) 4 m = Some insn ->
  byte_eqb insn gNop || byte_eqb insn (le_bytes 4 (generate_branch_to_prologue (with_offset o))) =
  slot_word m f o.
Proof.
  intros Hr. unfold slot_word, branch_to, byte_eqb. rewrite Hr.
  f_equal; apply bool_decide_ext; (split; [by intros ->|congruence]).
Qed.

Lemma get_branch_offset_ok f s o :
  ppc_livepatchable (code_mem s) f -> slot_offset (code_mem s) f = Some o ->
  get_branch_offset f s = (Ok o, s).
Proof.
  intros Hlp Ho. pose proof Hlp as [Hr _ _]. unfold get_branch_offset. cbn [try_offsets]. cbv zeta.
  destruct (read_slot _ f 0 4 Hlp ltac:(lia) ltac:(lia)) as [i0 R0].
  destruct (read_slot _ f 8 4 Hlp ltac:(lia) ltac:(lia)) as [i8 R8].
  rewrite !wrap_id by (unfold in_u; lia).
  rewrite (bind_ok _ _ _ _ _ (read_code_ok _ _ _ _ R0)), (slot_word_test _ _ _ _ R0).
  unfold slot_offset in Ho. destruct (slot_word (code_mem s) f 0); [by injection Ho as <-|].
  rewrite (bind_ok _ _ _ _ _ (read_code_ok _ _ _ _ R8)), (slot_word_test _ _ _ _ R8).
  destruct (slot_word (code_mem s) f 8); [by injection Ho as <-|done].
Qed.

Lemma ppc_write_4 f o bs s l :
  queue_holds (queue (code_q s)) l -> length bs = 4%nat -> 52 < f -> f + 16 < 2 ^ 64 -> o = 0 \/ o = 8 ->
  q_size (queue (code_q s)) + 24 <= INSN_BUFFER_MAX ->
  exists q', memwrite (u64 (f + o)) bs 4 s = (Ok (f + o), set_code_q q' s) /\
    queue_holds (queue q') (l ++ [IWrite (f + o) bs]) /\
    q_size (queue q') = q_size (queue (code_q s)) + 24 /\ diagnosis q' = diagnosis (code_q s).
Proof.
  intros Hq Hl Hf Hlim Ho Hfit. rewrite wrap_id by (unfold in_u; lia).
  assert (Hz : zlen bs = 4) by (unfold zlen; by rewrite Hl).
  assert (Hi : isize (IWrite (f + o) bs) = 24) by (unfold isize; by rewrite Hz).
  destruct (memwrite_ok (f + o) bs s l) as (q' & E & R); [done| |lia|lia|].
  - split; [unfold in_u; lia|lia].
  - rewrite Hz in E. rewrite Hi in R. by exists q'.
Qed.

Section ppc_calls.
Variable ulp_prologue : bytes.
Variable new_offset : nat.
Hypothesis prologue_len : zlen ulp_prologue = 52.
Hypothesis new_offset_in : (new_offset + 8 <= 52)%nat.

Lemma ppc_patch_law f new (enable : bool) s l :
  ppc_livepatchable (code_mem s) f -> in_u 64 new -> queue_holds (queue (code_q s)) l ->
  let ws := ppc_patch_writes ulp_prologue new_offset (code_mem s) f (if enable then Some new else None) in
  q_size (queue (code_q s)) + total_size ws <= INSN_BUFFER_MAX ->
  exists s', ppc_patch_addr ulp_prologue new_offset f new enable s = (Ok 0, s') /\
    code_mem s' = code_mem s /\ queue_holds (queue (code_q s')) (l ++ ws) /\
    q_size (queue (code_q s')) = q_size (queue (code_q s)) + total_size ws /\
    err_state (diagnosis (code_q s')) = err_state (diagnosis (code_q s)).
Proof.
  intros Hlp Hn Hq ws. pose proof Hlp as [[Hf Hlim] _ [o Ho]].
  pose proof (slot_offset_cases _ _ _ Ho) as Hc. unfold ws, ppc_patch_writes, ppc_slot_of. rewrite Ho.
  cbn [from_option id]. destruct enable; cbn [total_size fold_right].
  - pose proof (ppc_prologue_len _ _ prologue_len new_offset_in new) as Hpl.
    set (p := ppc_prologue ulp_prologue new_offset new) in *.
    assert (Hi1 : isize (IWrite (f - 52) p) = 72) by (unfold isize; by rewrite Hpl).
    assert (Hi2 : isize (IWrite (f + o) (branch_to o)) = 24) by done.
    rewrite Hi1, Hi2. intros Hfit.
    unfold ppc_patch_addr, ulp_patch_prologue_layout. rewrite !bind_assoc.
    unfold ulp_prologue_size. rewrite prologue_len. change (52 <=? INSN_SIZE * PRE_NOPS_LEN) with true.
    cbv iota zeta. rewrite ret_bind, bool_decide_eq_false_2 by (unfold zlen in prologue_len; lia).
    rewrite (wrap_id 64 new) by done. fold (ppc_prologue ulp_prologue new_offset new). fold p.
    change (INSN_SIZE * PRE_NOPS_LEN) with 52. rewrite wrap_id by (unfold in_u; lia).
    destruct (memwrite_ok (f - 52) p s l) as (q1 & E1 & Hq1 & Hs1 & Hd1); [done| |lia|lia|].
    { split; [unfold in_u; lia|lia]. }
    rewrite Hpl in E1. rewrite bind_assoc, (bind_ok _ _ _ _ _ E1), ret_bind. rewrite Hi1 in Hs1.
    set (s1 := set_code_q q1 s). unfold ulp_patch_addr_trampoline.
    rewrite (bind_ok _ _ _ _ _ (get_branch_offset_ok f s1 o Hlp Ho)).
    rewrite (proj2 (Z.ltb_ge o 0)) by lia. cbv zeta.
    destruct (ppc_write_4 f o (branch_to o) s1 _ Hq1) as (q2 & E2 & Hq2 & Hs2 & Hd2); [done|done|done|done| |].
    { unfold s1. cbn [code_q set_code_q]. lia. }
    rewrite (bind_ok _ _ _ _ _ E2). eexists. split; [reflexivity|]. unfold s1 in *. cbn [code_mem code_q set_code_q] in *.
    rewrite <- app_assoc in Hq2. split_and!; [done|done|lia|by rewrite Hd2, Hd1].
  - assert (Hi : isize (IWrite (f + o) gNop) = 24) by done. rewrite Hi. intros Hfit.
    unfold ppc_patch_addr, ulp_skip_prologue.
    rewrite (bind_ok _ _ _ _ _ (get_branch_offset_ok f s o Hlp Ho)), (proj2 (Z.ltb_ge o 0)) by lia.
    rewrite (bind_ok _ _ _ _ _ (get_branch_offset_ok f s o Hlp Ho)).
    destruct (ppc_write_4 f o gNop s l Hq) as (q2 & E2 & Hq2 & Hs2 & Hd2); [done|done|done|done|lia|].
    rewrite (bind_ok _ _ _ _ _ E2). eexists. split; [reflexivity|]. cbn [code_mem code_q set_code_q].
    split_and!; [done|done|lia|by rewrite Hd2].
Qed.

#[export] Instance ppc_arch_laws : @ArchLaws (ppc_arch ulp_prologue new_offset).
Proof using prologue_len new_offset_in.
  refine {| livepatchable := ppc_livepatchable; target := ppc_target new_offset;
            prologue_start f := f - 52; prologue_end f := f + 12; patch_room := 96;
            patch_writes := ppc_patch_writes ulp_prologue new_offset |}.
  - exact ppc_patch_law.
  - intros m f new Hlp Hnew m'. pose proof Hlp as [_ _ [o Ho]]. pose proof (slot_offset_cases _ _ _ Ho).
    split; [|split].
    + destruct new as [a|]; [by apply ppc_enable_law; [..|apply Hnew]|by apply ppc_disable_law].
    + destruct new as [a|]; [by apply ppc_enable_law; [..|apply Hnew]|by apply ppc_disable_law].
    + intros x Hx. unfold m', written, ppc_patch_writes, ppc_slot_of. rewrite Ho. cbn [from_option id].
      destruct new as [a|]; cbn [fold_left]; rewrite !mem_write_lookup_out; try done;
        rewrite ?(ppc_prologue_len _ _ prologue_len new_offset_in); unfold branch_to; rewrite ?zlen_le_bytes;
        change (zlen gNop) with 4; lia.
  - intros m m' f Hlp Hx. by apply ppc_frame_law.
  - intros m f new new' Hlp _. by apply ppc_stable_law.
  - intros m f new Hlp. destruct new as [a|]; simpl; [|done].
    by rewrite (ppc_prologue_len _ _ prologue_len new_offset_in).
  - intros m f new [_ _ [o Ho]]. pose proof (slot_offset_cases _ _ _ Ho).
    unfold ppc_patch_writes, ppc_slot_of. rewrite Ho. cbn [from_option id].
    destruct new as [a|]; repeat (constructor; [|]); try constructor; cbn beta iota;
      rewrite ?(ppc_prologue_len _ _ prologue_len new_offset_in); unfold branch_to; rewrite ?zlen_le_bytes;
      change (zlen gNop) with 4; lia.
  - intros m f [Hr _ _]. lia.
  - intros f. lia.
Defined.
End ppc_calls.

(** C37. Patching a function on powerpc64le: a call of the function branches from
    its nop to the padding, which after the queued writes is the assembled
    prologue with the address of the new function; removing the patch makes the
    call go on into the function's own body. *)
Theorem ppc_patch_redirects ulp_prologue new_offset f new enable s l
    (Hlen : zlen ulp_prologue = 52 /\ (new_offset + 8 <= 52)%nat)
    (Hlp : ppc_livepatchable (code_mem s) f)
    (Hnew : in_u 64 new)
    (Hq : queue_holds (queue (code_q s)) l)
    (Hroom : q_size (queue (code_q s)) + 96 <= INSN_BUFFER_MAX) :
  exists s' ws, ppc_patch_addr ulp_prologue new_offset f new enable s = (Ok 0, s') /\
    queue_holds (queue (code_q s')) (l ++ ws) /\
    ppc_target new_offset (written ws (code_mem s)) f = (if enable then Some new else None) /\
    ppc_livepatchable (written ws (code_mem s)) f.
Proof.
  destruct Hlen as [H1 H2].
  destruct (ppc_patch_law ulp_prologue new_offset H1 H2 f new enable s l Hlp Hnew Hq) as (s' & E & _ & Hq' & _).
  - destruct enable; cbn [ppc_patch_writes total_size fold_right].
    + unfold isize. rewrite ppc_prologue_len by done. unfold branch_to. rewrite zlen_le_bytes.
      change (align_to (sizeof_insn_write + 52) 8) with 72.
      change (align_to (sizeof_insn_write + Z.of_nat 4) 8) with 24. lia.
    + change (isize (IWrite _ gNop)) with 24. lia.
  - eexists s', _. split; [done|]. split; [exact Hq'|].
    destruct enable; [by destruct (ppc_enable_law ulp_prologue new_offset H1 H2 _ f new Hlp Hnew)|].
    by destruct (ppc_disable_law ulp_prologue new_offset (code_mem s) f Hlp).
Qed.

(** On powerpc64le the 52 bytes before a function are overwritten before the
    function is found not to be livepatchable: the call returns [ENOPATCHABLE],
    but the write of the prologue stays in the queue. *)
Theorem ppc_clobbers_unpatchable ulp_prologue new_offset f new s l i0 i8
    (Hlen : zlen ulp_prologue = 52 /\ (new_offset + 8 <= 52)%nat)
    (Hr : 52 < f /\ f + 16 < 2 ^ 64)
    (H0 : mem_read f 4 (code_mem s) = Some i0 /\ i0 <> gNop /\ i0 <> branch_to 0)
    (H8 : mem_read (f + 8) 4 (code_mem s) = Some i8 /\ i8 <> gNop /\ i8 <> branch_to 8)
    (Hnew : in_u 64 new)
    (Hq : queue_holds (queue (code_q s)) l)
    (Hroom : q_size (queue (code_q s)) + 72 <= INSN_BUFFER_MAX) :
  exists s', ppc_patch_addr ulp_prologue new_offset f new true s = (Ok ENOPATCHABLE, s') /\
    queue_holds (queue (code_q s')) (l ++ [IWrite (f - 52) (ppc_prologue ulp_prologue new_offset new)]).
Proof.
  destruct Hlen as [Hl Ho], H0 as (R0 & N0 & B0), H8 as (R8 & N8 & B8).
  pose proof (ppc_prologue_len _ _ Hl Ho new) as Hpl.
  set (p := ppc_prologue ulp_prologue new_offset new) in *.
  assert (Hi1 : isize (IWrite (f - 52) p) = 72) by (unfold isize; by rewrite Hpl).
  unfold ppc_patch_addr, ulp_patch_prologue_layout. rewrite !bind_assoc.
  unfold ulp_prologue_size. rewrite Hl. change (52 <=? INSN_SIZE * PRE_NOPS_LEN) with true.
  cbv iota zeta. rewrite ret_bind, bool_decide_eq_false_2 by (unfold zlen in Hl; lia).
  rewrite (wrap_id 64 new) by done. fold (ppc_prologue ulp_prologue new_offset new). fold p.
  change (INSN_SIZE * PRE_NOPS_LEN) with 52. rewrite wrap_id by (unfold in_u; lia).
  destruct (memwrite_ok (f - 52) p s l) as (q1 & E1 & Hq1 & _); [done| |lia|lia|].
  { split; [unfold in_u; lia|lia]. }
  rewrite Hpl in E1. rewrite bind_assoc, (bind_ok _ _ _ _ _ E1), ret_bind.
  exists (set_code_q q1 s). split; [|exact Hq1].
  unfold ulp_patch_addr_trampoline, get_branch_offset. cbn [try_offsets]. cbv zeta.
  rewrite !wrap_id by (unfold in_u; lia). rewrite Z.add_0_r. rewrite !bind_assoc.
  rewrite (bind_ok _ _ _ _ _ (read_code_ok f 4 (set_code_q q1 s) _ R0)).
  fold (branch_to 0) (branch_to 8).
  rewrite (proj2 (byte_eqb_neq i0 _) N0), (proj2 (byte_eqb_neq i0 _) B0). cbn [orb]. cbv iota.
  rewrite bind_assoc, (bind_ok _ _ _ _ _ (read_code_ok (f + 8) 4 (set_code_q q1 s) _ R8)).
  rewrite (proj2 (byte_eqb_neq i8 _) N8), (proj2 (byte_eqb_neq i8 _) B8). done.
Qed.
