(* ===== verification/PpcStack.v ===== *)
(** * The stack of the powerpc64le prologue (lib/arch/powerpc64le/patch.c)

    The prologue of a patched function saves two registers in a buffer of its
    thread. [ulp_stack_helper] makes the buffer grow when it is full; it also
    installs, once for the process, the destructor [ulp_stack_cleanup] that is to
    release the buffer when the thread ends. *)

From stdpp Require Import gmap.
From S2P Require Import Prelude Errors Memory.

Open Scope ulp_scope.

(** The thread's [ulp_stack]: sizes in bytes and the buffer from [mmap]. *)
Record ulp_stack := { real_size : Z; used_size : Z; stack_ptr : Z }.

(** The thread; the key and the [pthread_once] of the process; and the value that
    the thread has for the key, [NULL] until it is set. *)
Record stack_state := {
  stack : ulp_stack; thread_mem : mem; thread_diag : diag;
  ulp_once_control : bool; ulp_key : option Z; key_value : Z }.

Definition set_buffer (st : ulp_stack) (m : mem) (d : diag) (s : stack_state) : stack_state :=
  {| stack := st; thread_mem := m; thread_diag := d;
     ulp_once_control := ulp_once_control s; ulp_key := ulp_key s; key_value := key_value s |}.

(** [while (s > 0) { *newp++ = *oldp++; s--; }]; unmapped memory faults. *)
Fixpoint copy_bytes (s : nat) (oldp newp : Z) (m : mem) : option mem :=
  match s with
  | O => Some m
  | S s =>
    match m !! oldp, m !! newp with
    | Some b, Some _ => copy_bytes s (oldp + 1) (newp + 1) (<[newp := b]> m)
    | _, _ => None
    end
  end.

Fixpoint unmap (a : Z) (n : nat) (m : mem) : mem :=
  match n with
  | O => m
  | S n => delete a (unmap (a + 1) n m)
  end.

(** The [munmap] system call: 0, or -1 with nothing done. *)
Definition munmap_t : Type := Z -> Z -> mem -> Z * mem.

(** [ulp_stack_cleanup]. *)
Definition ulp_stack_cleanup (munmap : munmap_t) (s : stack_state) : stack_state :=
  let st := stack s in
  if negb (stack_ptr st =? 0) then
    let (ret, m) := munmap (stack_ptr st) (real_size st) (thread_mem s) in
    let d := libpulp_assert_func (if ret =? 0 then 1 else 0) (thread_diag s) in
    set_buffer {| real_size := 0; used_size := 0; stack_ptr := 0 |} m d s
  else s.

Section stack_helper.
Variable page_size : Z.
(** The address [mmap] gives for a size, or [None] when memory is out. *)
Variable mmap : Z -> mem -> option Z.
(** What [pthread_key_create] returns, and the key. *)
Variable pthread_key_create : Z * Z.

(** [ulp_pthread_key_init]: the value of a new key is [NULL] in every thread. *)
Definition ulp_pthread_key_init (s : stack_state) : stack_state :=
  let (ret, key) := pthread_key_create in
  {| stack := stack s; thread_mem := thread_mem s;
     thread_diag := libpulp_assert_func (if ret =? 0 then 1 else 0) (thread_diag s);
     ulp_once_control := ulp_once_control s;
     ulp_key := if ret =? 0 then Some key else ulp_key s;
     key_value := if ret =? 0 then 0 else key_value s |}.

(** [pthread_once (&ulp_once_control, ulp_pthread_key_init)]. *)
Definition pthread_once (s : stack_state) : stack_state :=
  if ulp_once_control s then s
  else
    let s := ulp_pthread_key_init s in
    {| stack := stack s; thread_mem := thread_mem s; thread_diag := thread_diag s;
       ulp_once_control := true; ulp_key := ulp_key s; key_value := key_value s |}.

(** The address of [ulp_stack] is returned in the code; here the new state.
    [Err] is the end of the process. *)
Definition ulp_stack_helper : st stack_state ending unit := fun s =>
  let st := stack s in
  let d := libpulp_assert_func (if real_size st <=? used_size st then 1 else 0) (thread_diag s) in
  let old_size := real_size st in
  let new_size := u64 (u64 (real_size st + page_size) * 2) in
  let old := stack_ptr st in
  let st := {| real_size := new_size; used_size := used_size st; stack_ptr := old |} in
  match mmap new_size (thread_mem s) with
  | None =>
    (Err (libpulp_crash "libpulp: mmap returned -1, application can not continue\n"),
     set_buffer st (thread_mem s) d s)
  | Some new =>
    let m := mem_write new (replicate (Z.to_nat new_size) 0) (thread_mem s) in
    let m :=
      if negb (old =? 0) then
        match copy_bytes (Z.to_nat old_size) old new m with
        | Some m => Some (unmap old (Z.to_nat old_size) m)
        | None => None
        end
      else Some m in
    match m with
    | None => (Ub, s)
    | Some m =>
      let st := {| real_size := new_size; used_size := used_size st; stack_ptr := new |} in
      let d := libpulp_assert_func (if new =? 0 then 0 else 1) d in
      (Ok tt, pthread_once (set_buffer st m (push_msg "thread %lu: expanded stack to %lu bytes" d) s))
    end
  end.
End stack_helper.

(** ** Growing *)

Lemma once_kept key_create s : key_create.1 = 0 ->
  let s' := pthread_once key_create s in
  stack s' = stack s /\ thread_mem s' = thread_mem s /\ thread_diag s' = thread_diag s /\ ulp_once_control s' = true.
Proof.
  destruct key_create as [ret key]. intros E. cbn [fst] in E. subst ret. unfold pthread_once, ulp_pthread_key_init.
  destruct (ulp_once_control s) eqn:Eo; by split_and!.
Qed.

Lemma copy_bytes_ok n oldp newp m bs :
  mem_read oldp n m = Some bs -> is_Some (mem_read newp n m) ->
  newp + Z.of_nat n <= oldp \/ oldp + Z.of_nat n <= newp ->
  copy_bytes n oldp newp m = Some (mem_write newp bs m).
Proof.
  revert oldp newp m bs. induction n as [|n IH]; intros oldp newp m bs Ho [ys Hn] Hd; simpl in *.
  - by injection Ho as <-.
  - destruct (m !! oldp) as [b|]; [|done]. destruct (mem_read (oldp + 1) n m) as [bs'|] eqn:Eo; [|done].
    injection Ho as <-. destruct (m !! newp) as [y|]; [|done].
    destruct (mem_read (newp + 1) n m) as [ys'|] eqn:En; [|done].
    rewrite (IH (oldp + 1) (newp + 1) _ bs'); [|..|lia].
    + f_equal. simpl. apply map_eq. intros x. pose proof (mem_read_length _ _ _ _ Eo).
      destruct (decide (newp + 1 <= x < newp + 1 + zlen bs')) as [Hin|Hout].
      * rewrite mem_write_lookup_in, lookup_insert_ne, mem_write_lookup_in by lia. done.
      * rewrite mem_write_lookup_out by lia. destruct (decide (x = newp)) as [->|].
        -- by rewrite !lookup_insert_eq.
        -- rewrite !lookup_insert_ne, mem_write_lookup_out by lia. done.
    + change (<[newp := b]> m) with (mem_write newp [b] m).
      rewrite (mem_read_write_out (oldp + 1) n newp [b] m) by (change (zlen [b]) with 1; lia). done.
    + change (<[newp := b]> m) with (mem_write newp [b] m).
      rewrite (mem_read_write_out (newp + 1) n newp [b] m) by (change (zlen [b]) with 1; lia). by eexists.
Qed.

Lemma unmap_lookup a n m x : x < a \/ a + Z.of_nat n <= x -> unmap a n m !! x = m !! x.
Proof.
  revert a. induction n as [|n IH]; intros a Hx; simpl; [done|].
  rewrite lookup_delete_ne by lia. apply IH. lia.
Qed.

Lemma unmap_inside a n m x : a <= x < a + Z.of_nat n -> unmap a n m !! x = None.
Proof.
  revert a. induction n as [|n IH]; intros a Hx; [lia|]. cbn [unmap].
  destruct (decide (x = a)) as [->|]; [apply lookup_delete_eq|]. rewrite lookup_delete_ne by done. apply IH. lia.
Qed.

(** Growing the prologue's stack: when memory is not out, the new buffer has
    room for one more entry of two registers, its first bytes are those of the
    old buffer, which is unmapped, and no error is recorded; the process goes on. *)
Theorem ulp_stack_helper_spec page_size mmap key_create s new bs
    (Hkey : key_create.1 = 0)
    (Hpage : 16 <= page_size < 2 ^ 32)
    (Hfull : used_size (stack s) = real_size (stack s) /\ 0 <= real_size (stack s) < 2 ^ 32)
    (Hold : stack_ptr (stack s) <> 0 ->
       mem_read (stack_ptr (stack s)) (Z.to_nat (real_size (stack s))) (thread_mem s) = Some bs)
    (Hnone : stack_ptr (stack s) = 0 -> bs = [])
    (Hmap : mmap (2 * (real_size (stack s) + page_size)) (thread_mem s) = Some new)
    (Hnew : new <> 0 /\ (new + 2 * (real_size (stack s) + page_size) <= stack_ptr (stack s) \/
                         stack_ptr (stack s) + real_size (stack s) <= new)) :
  exists s', ulp_stack_helper page_size mmap key_create s = (Ok tt, s') /\
    stack_ptr (stack s') = new /\
    used_size (stack s') + 16 <= real_size (stack s') /\
    mem_read new (length bs) (thread_mem s') = Some bs /\
    err_state (thread_diag s') = err_state (thread_diag s) /\
    (stack_ptr (stack s) <> 0 -> forall x, stack_ptr (stack s) <= x < stack_ptr (stack s) + real_size (stack s) ->
       thread_mem s' !! x = None).
Proof.
  destruct Hfull as [Hu Hr]. unfold ulp_stack_helper. cbv zeta.
  set (size := real_size (stack s)) in *. set (old := stack_ptr (stack s)) in *.
  rewrite !wrap_id by (unfold in_u; rewrite ?wrap_id; unfold in_u; lia).
  replace ((size + page_size) * 2) with (2 * (size + page_size)) by lia. rewrite Hmap.
  set (m0 := mem_write new _ (thread_mem s)). rewrite Hu, Z.leb_refl.
  assert (Hz : zlen (replicate (Z.to_nat (2 * (size + page_size))) 0) = 2 * (size + page_size)).
  { unfold zlen. rewrite length_replicate. lia. }
  destruct Hnew as [Hn0 Hdis]. rewrite (proj2 (Z.eqb_neq new 0)) by done.
  destruct (Z.eqb_spec old 0) as [Ho|Ho]; cbn [negb].
  - eexists. split; [reflexivity|].
    match goal with |- context [pthread_once _ ?x] => destruct (once_kept key_create x Hkey) as (-> & -> & -> & _) end.
    cbn. rewrite (Hnone Ho). split_and!; [done|lia|done|done|done].
  - specialize (Hold Ho).
    assert (Hl : length bs = Z.to_nat size) by (by apply mem_read_length in Hold).
    assert (Hcopy : copy_bytes (Z.to_nat size) old new m0 = Some (mem_write new bs m0)).
    { apply copy_bytes_ok; [|unfold m0; rewrite mem_read_write_sub by lia; by eexists|lia].
      unfold m0. rewrite mem_read_write_out by lia. done. }
    rewrite Hcopy. eexists. split; [reflexivity|].
    match goal with |- context [pthread_once _ ?x] => destruct (once_kept key_create x Hkey) as (-> & -> & -> & _) end.
    cbn [set_buffer stack stack_ptr used_size real_size thread_mem thread_diag].
    split_and!; [done|lia| |done|intros _ x Hx; apply unmap_inside; lia].
    rewrite <- (mem_read_write new bs m0). apply mem_read_ext. intros x Hx. apply unmap_lookup. lia.
Qed.

(** ** The end of the thread *)

(** POSIX calls the destructor of a key only for a value that is not [NULL], which
    it resets first. *)
Definition thread_exit (munmap : munmap_t) (s : stack_state) : stack_state :=
  match ulp_key s with
  | Some _ =>
    if key_value s =? 0 then s
    else ulp_stack_cleanup munmap
           {| stack := stack s; thread_mem := thread_mem s; thread_diag := thread_diag s;
              ulp_once_control := ulp_once_control s; ulp_key := ulp_key s; key_value := 0 |}
  | None => s
  end.

(** What the destructor would do: the buffer is unmapped and the stack is empty. *)
Lemma ulp_stack_cleanup_ok munmap s :
  stack_ptr (stack s) <> 0 -> 0 <= real_size (stack s) ->
  (forall a n m, munmap a n m = (0, unmap a (Z.to_nat n) m)) ->
  let s' := ulp_stack_cleanup munmap s in
  stack s' = {| real_size := 0; used_size := 0; stack_ptr := 0 |} /\ thread_diag s' = thread_diag s /\
  (forall x, stack_ptr (stack s) <= x < stack_ptr (stack s) + real_size (stack s) -> thread_mem s' !! x = None) /\
  (forall x, x < stack_ptr (stack s) \/ stack_ptr (stack s) + real_size (stack s) <= x -> thread_mem s' !! x = thread_mem s !! x).
Proof.
  intros Hp Hr Hm s'. unfold s', ulp_stack_cleanup. destruct (Z.eqb_spec (stack_ptr (stack s)) 0); [done|]. cbn [negb].
  rewrite Hm. cbn. split; [done|]. split; [done|]. split; intros x Hx; [apply unmap_inside; lia|apply unmap_lookup; lia].
Qed.

Section thread.
Variable page_size : Z.
Variable mmap : Z -> mem -> option Z.
Variable key_create : Z * Z.

(** The life of a thread: the prologue moves within the buffer and writes into it,
    or asks for a larger one. *)
Inductive thread_step : stack_state -> stack_state -> Prop :=
| step_use s used m : thread_step s (set_buffer {| real_size := real_size (stack s); used_size := used;
    stack_ptr := stack_ptr (stack s) |} m (thread_diag s) s)
| step_grow s s' : ulp_stack_helper page_size mmap key_create s = (Ok tt, s') -> thread_step s s'.

(** It starts without a buffer, the first one of the process also without a key. *)
Inductive thread_run : stack_state -> Prop :=
| run_start m d once key : thread_run {| stack := {| real_size := 0; used_size := 0; stack_ptr := 0 |};
    thread_mem := m; thread_diag := d; ulp_once_control := once; ulp_key := key; key_value := 0 |}
| run_step s s' : thread_run s -> thread_step s s' -> thread_run s'.

Lemma once_value s : key_value s = 0 -> key_value (pthread_once key_create s) = 0.
Proof.
  intros Hs. unfold pthread_once, ulp_pthread_key_init. destruct (ulp_once_control s); [done|].
  destruct key_create as [ret key]. cbn. by destruct (ret =? 0).
Qed.

Lemma helper_value s s' : ulp_stack_helper page_size mmap key_create s = (Ok tt, s') -> key_value s = 0 -> key_value s' = 0.
Proof.
  unfold ulp_stack_helper. cbv zeta. destruct (mmap _ _) as [new|]; [|done].
  destruct (if negb _ then _ else _) as [m|]; [|done]. intros [= <-] Hs. by apply once_value.
Qed.

Lemma run_value s : thread_run s -> key_value s = 0.
Proof. induction 1 as [|s s' _ IH Hst]; [done|]. destruct Hst; [exact IH|by eapply helper_value]. Qed.

(** The destructor that is installed never runs: nothing sets the value of the key,
    so at the end of a thread, whatever it did, the buffer stays mapped. *)
Theorem stack_never_released munmap s (Hrun : thread_run s) : thread_exit munmap s = s.
Proof. unfold thread_exit. rewrite (run_value s Hrun). by destruct (ulp_key s). Qed.
End thread.
