(* ===== verification/SymbolLoader.v ===== *)
(** * Symbols of the loaded libraries (lib/symbol_loader.c)

    libpulp finds functions, load addresses and TLS indices by walking the
    program headers that [dl_iterate_phdr] reports. The tables a header points
    to are given with it: an entry of the dynamic section carries the object its
    pointer designates. *)

From S2P Require Import Prelude Errors.

Open Scope ulp_scope.

Record elf_sym := { st_name : Z; st_value : Z; st_size : Z }.

Inductive elf_dyn :=
| DT_SYMTAB (syms : list elf_sym)
| DT_STRTAB (strs : bytes)
| DT_SYMENT (size : Z)
| DT_HASH (nbuckets nchains : Z)
| DT_NULL
| DT_OTHER.

(** A program header: the dynamic section, the bytes of a note segment with its
    file size, or another. *)
Inductive elf_phdr :=
| PT_DYNAMIC (dyn : list elf_dyn)
| PT_NOTE (content : bytes) (p_filesz : Z)
| PT_OTHER.

Record dl_phdr_info := {
  dlpi_name : bytes;
  dlpi_addr : Z;
  dlpi_phdr : list elf_phdr;
  dlpi_tls_modid : Z }.

Definition sizeof_Elf64_Sym : Z := 24.

Abbreviation sym_m A := (st diag Z A).

(** The [i]-th symbol's name is compared; a table shorter than [len] is overrun. *)
Fixpoint symbol_by_name (dynsym : list elf_sym) (dynstr : bytes) (len : nat) (name : bytes)
    : option (option elf_sym) :=
  match len with
  | O => Some None
  | S len =>
    match dynsym with
    | [] => None
    | s :: dynsym =>
      if (st_name s <? 0) || (zlen dynstr <=? st_name s) then None
      else if byte_eqb (cstr (drop (Z.to_nat (st_name s)) dynstr)) (cstr name) then Some (Some s)
      else symbol_by_name dynsym dynstr len name
    end
  end.

Definition get_symbol_by_name (dynsym : list elf_sym) (dynstr : bytes) (len : Z) (name : bytes)
    : sym_m (option elf_sym) := fun d =>
  match symbol_by_name dynsym dynstr (Z.to_nat len) name with
  | Some r => (Ok r, d)
  | None => (Ub, d)
  end.

Record dl_iterate_arg := {
  library : bytes;
  symbol : bytes;
  symbol_addr : Z;
  symbol_size : Z;
  bias_addr : Z;
  tls_index : Z }.

(** [strstr (haystack, needle) != NULL], on the characters before the NULs. *)
Fixpoint is_prefix (needle haystack : bytes) : bool :=
  match needle, haystack with
  | [], _ => true
  | n :: needle, h :: haystack => (n =? h) && is_prefix needle haystack
  | _, _ => false
  end.

Fixpoint strstr (haystack needle : bytes) : bool :=
  is_prefix needle haystack ||
  match haystack with
  | [] => false
  | _ :: haystack => strstr haystack needle
  end.

(** The tables found so far in the dynamic section. *)
Record tables := { t_sym : option (list elf_sym); t_str : option bytes; t_num : Z }.

(** The loop over the tags: [None] is the early return on a bad [DT_SYMENT]. *)
Fixpoint scan_dyn (dyn : list elf_dyn) (t : tables) : option tables :=
  match dyn with
  | [] | DT_NULL :: _ => Some t
  | DT_SYMTAB l :: dyn => scan_dyn dyn {| t_sym := Some l; t_str := t_str t; t_num := t_num t |}
  | DT_STRTAB l :: dyn => scan_dyn dyn {| t_sym := t_sym t; t_str := Some l; t_num := t_num t |}
  | DT_SYMENT n :: dyn => if negb (n =? sizeof_Elf64_Sym) then None else scan_dyn dyn t
  | DT_HASH _ n :: dyn => scan_dyn dyn {| t_sym := t_sym t; t_str := t_str t; t_num := n |}
  | DT_OTHER :: dyn => scan_dyn dyn t
  end.

Fixpoint scan_phdrs (phdrs : list elf_phdr) (t : tables) : option tables :=
  match phdrs with
  | [] => Some t
  | PT_DYNAMIC dyn :: phdrs =>
    match scan_dyn dyn t with
    | Some t => scan_phdrs phdrs t
    | None => None
    end
  | _ :: phdrs => scan_phdrs phdrs t
  end.

Definition vdso : bytes := str "linux-vdso.so.1".

(** The callback: what it returns, and its argument afterwards. *)
Definition dl_find_symbol (info : dl_phdr_info) (args : dl_iterate_arg) : sym_m (Z * dl_iterate_arg) :=
  let args := {| library := library args; symbol := symbol args; symbol_addr := 0; symbol_size := 0;
                 bias_addr := bias_addr args; tls_index := -1 |} in
  if negb (strstr (cstr (dlpi_name info)) (cstr (library args))) then ret (0, args)
  else if byte_eqb (cstr (dlpi_name info)) vdso then ret (0, args)
  else
    match scan_phdrs (dlpi_phdr info) {| t_sym := None; t_str := None; t_num := 0 |} with
    | None =>
      modify (libpulp_errx_func 1 "DT_SYMENT value of %s is unexpected");;; ret (0, args)
    | Some {| t_sym := Some dynsym; t_str := Some dynstr; t_num := num_symbols |} =>
      let! sym := get_symbol_by_name dynsym dynstr num_symbols (symbol args) in
      let (a, n) := match sym with Some s => (st_value s, st_size s) | None => (0, 0) end in
      ret (1, {| library := library args; symbol := symbol args; symbol_addr := a; symbol_size := n;
                 bias_addr := dlpi_addr info; tls_index := dlpi_tls_modid info |})
    | Some _ => ret (0, args)
    end.

Definition dl_find_base_addr (info : dl_phdr_info) (args : dl_iterate_arg) : sym_m (Z * dl_iterate_arg) :=
  let args := {| library := library args; symbol := symbol args; symbol_addr := symbol_addr args;
                 symbol_size := symbol_size args; bias_addr := 0xFF; tls_index := -1 |} in
  if byte_eqb (cstr (dlpi_name info)) vdso then ret (0, args)
  else if negb (strstr (cstr (dlpi_name info)) (cstr (library args))) then ret (0, args)
  else
    ret (1, {| library := library args; symbol := symbol args; symbol_addr := symbol_addr args;
               symbol_size := symbol_size args; bias_addr := dlpi_addr info;
               tls_index := dlpi_tls_modid info |}).

(** [dl_iterate_phdr]: the callback on each object until it returns nonzero. *)
Fixpoint dl_iterate_phdr {A} (infos : list dl_phdr_info) (callback : dl_phdr_info -> A -> sym_m (Z * A))
    (data : A) : sym_m A :=
  match infos with
  | [] => ret data
  | info :: infos =>
    let! r := callback info data in
    let (rc, data) := r in
    if negb (rc =? 0) then ret data else dl_iterate_phdr infos callback data
  end.

Section loader.
(** The objects of the process, and its program name. *)
Variable infos : list dl_phdr_info.
Variable progname : bytes.

(** [NULL] or the program's own name stand for the program. *)
Definition library_arg (library : option bytes) : bytes :=
  match library with
  | None => []
  | Some l => if byte_eqb (cstr l) (cstr progname) then [] else l
  end.

Definition init_arg (library symbol : bytes) : dl_iterate_arg :=
  {| library := library; symbol := symbol; symbol_addr := 0; symbol_size := 0; bias_addr := 0;
     tls_index := 0 |}.

(** The address and the size; [NULL] is 0. *)
Definition get_loaded_symbol_addr_size (library : option bytes) (symbol : bytes) (old_faddr : Z)
    : sym_m (Z * Z) :=
  let! arg := dl_iterate_phdr infos dl_find_symbol (init_arg (library_arg library) symbol) in
  if negb (old_faddr =? 0) && negb (symbol_addr arg =? old_faddr) then
    modify (push_msg "Symbol requested not found in .dynsym. Using address from .ulp");;;
    ret (u64 (bias_addr arg + old_faddr), 0)
  else if symbol_addr arg =? 0 then ret (0, 0)
  else ret (u64 (bias_addr arg + symbol_addr arg), symbol_size arg).

Definition get_loaded_symbol_addr (library : option bytes) (symbol : bytes) (old_faddr : Z) : sym_m Z :=
  let! r := get_loaded_symbol_addr_size library symbol old_faddr in ret r.1.

Definition get_loaded_library_base_addr (library : option bytes) : sym_m Z :=
  let! arg := dl_iterate_phdr infos dl_find_base_addr (init_arg (library_arg library) []) in
  ret (bias_addr arg).

Definition get_loaded_library_tls_index (library : option bytes) : sym_m Z :=
  let! arg := dl_iterate_phdr infos dl_find_base_addr (init_arg (library_arg library) []) in
  ret (tls_index arg).
End loader.

(** ** Properties *)

(** An object is the one asked for. *)
Definition names_library (info : dl_phdr_info) (lib : bytes) : bool :=
  negb (byte_eqb (cstr (dlpi_name info)) vdso) && strstr (cstr (dlpi_name info)) (cstr lib).

Lemma base_addr_run infos arg d :
  dl_iterate_phdr infos dl_find_base_addr arg d =
  (Ok match find (fun i => names_library i (library arg)) infos with
      | Some i => {| library := library arg; symbol := symbol arg; symbol_addr := symbol_addr arg;
                     symbol_size := symbol_size arg; bias_addr := dlpi_addr i; tls_index := dlpi_tls_modid i |}
      | None => match infos with
                | [] => arg
                | _ => {| library := library arg; symbol := symbol arg; symbol_addr := symbol_addr arg;
                          symbol_size := symbol_size arg; bias_addr := 0xFF; tls_index := -1 |}
                end
      end, d).
Proof.
  revert arg. induction infos as [|i infos IH]; intros arg; [done|].
  cbn [dl_iterate_phdr find]. unfold dl_find_base_addr at 1, names_library at 1. cbn [library].
  destruct (byte_eqb (cstr (dlpi_name i)) vdso); cbn [negb andb].
  - rewrite ret_bind. cbn [negb Z.eqb]. change (negb (0 =? 0)) with false. cbv iota. rewrite IH. cbn [library symbol symbol_addr symbol_size].
    by destruct (find _ infos), infos.
  - destruct (strstr (cstr (dlpi_name i)) (cstr (library arg))); cbn [negb].
    + done.
    + rewrite ret_bind. change (negb (0 =? 0)) with false. cbv iota. rewrite IH. cbn [library symbol symbol_addr symbol_size].
      by destruct (find _ infos), infos.
Qed.

(** Load addresses: the base address and the TLS index of a library are those
    of the first loaded object, the vdso apart, whose name contains the one
    asked for; when there is none, they are the two values the callers test
    for, [0xFF] and -1. The error state is not touched. *)
Theorem base_addr_spec infos progname lib d
    (Hinfos : infos <> []) :
  let found := find (fun i => names_library i (library_arg progname lib)) infos in
  get_loaded_library_base_addr infos progname lib d =
    (Ok (match found with Some i => dlpi_addr i | None => 0xFF end), d) /\
  get_loaded_library_tls_index infos progname lib d =
    (Ok (match found with Some i => dlpi_tls_modid i | None => -1 end), d).
Proof.
  intros found. unfold get_loaded_library_base_addr, get_loaded_library_tls_index.
  split; rewrite (bind_ok _ _ _ _ _ (base_addr_run infos _ d)); cbn [library init_arg];
    unfold found; destruct (find _ infos); try done; by destruct infos.
Qed.

(** The tables of an object, when its dynamic section has them. *)
Definition symbol_tables (info : dl_phdr_info) : option (list elf_sym * bytes * Z) :=
  match scan_phdrs (dlpi_phdr info) {| t_sym := None; t_str := None; t_num := 0 |} with
  | Some {| t_sym := Some dynsym; t_str := Some dynstr; t_num := n |} => Some (dynsym, dynstr, n)
  | _ => None
  end.

Definition searchable (lib : bytes) (info : dl_phdr_info) : bool :=
  names_library info lib && match symbol_tables info with Some _ => true | None => false end.

Definition cleared (a : dl_iterate_arg) : dl_iterate_arg :=
  {| library := library a; symbol := symbol a; symbol_addr := 0; symbol_size := 0;
     bias_addr := bias_addr a; tls_index := -1 |}.

Lemma find_symbol_skip info arg d :
  searchable (library arg) info = false ->
  exists d', dl_find_symbol info arg d = (Ok (0, cleared arg), d').
Proof.
  unfold searchable, names_library, symbol_tables, dl_find_symbol. cbn [library]. intros Hs.
  destruct (strstr (cstr (dlpi_name info)) (cstr (library arg))); cbn [negb]; [|by eexists].
  destruct (byte_eqb (cstr (dlpi_name info)) vdso); cbn [negb andb] in *; [by eexists|].
  destruct (scan_phdrs _ _) as [[[l|] [k|] n]|]; try done; by eexists.
Qed.

Lemma find_symbol_found info arg d dynsym dynstr n r :
  searchable (library arg) info = true -> symbol_tables info = Some (dynsym, dynstr, n) ->
  symbol_by_name dynsym dynstr (Z.to_nat n) (symbol arg) = Some r ->
  dl_find_symbol info arg d =
    (Ok (1, {| library := library arg; symbol := symbol arg;
               symbol_addr := match r with Some s => st_value s | None => 0 end;
               symbol_size := match r with Some s => st_size s | None => 0 end;
               bias_addr := dlpi_addr info; tls_index := dlpi_tls_modid info |}), d).
Proof.
  unfold searchable, names_library, symbol_tables, dl_find_symbol. cbn [library symbol]. intros Hs Ht Hr.
  destruct (strstr (cstr (dlpi_name info)) (cstr (library arg))); cbn [negb]; [|by rewrite andb_false_r in Hs].
  destruct (byte_eqb (cstr (dlpi_name info)) vdso); [done|].
  destruct (scan_phdrs _ _) as [[[l|] [k|] m]|]; try done. injection Ht as -> -> ->.
  assert (Hg : get_symbol_by_name dynsym dynstr n (symbol arg) d = (Ok r, d)).
  { unfold get_symbol_by_name. by rewrite Hr. }
  rewrite (bind_ok _ _ _ _ _ Hg). by destruct r.
Qed.

Lemma find_symbol_run infos arg d :
  symbol_addr arg = 0 -> symbol_size arg = 0 ->
  match find (searchable (library arg)) infos with
  | None => exists d' t, dl_iterate_phdr infos dl_find_symbol arg d =
      (Ok {| library := library arg; symbol := symbol arg; symbol_addr := 0; symbol_size := 0;
             bias_addr := bias_addr arg; tls_index := t |}, d')
  | Some i => forall dynsym dynstr n r, symbol_tables i = Some (dynsym, dynstr, n) ->
      symbol_by_name dynsym dynstr (Z.to_nat n) (symbol arg) = Some r ->
      exists d', dl_iterate_phdr infos dl_find_symbol arg d =
        (Ok {| library := library arg; symbol := symbol arg;
               symbol_addr := match r with Some s => st_value s | None => 0 end;
               symbol_size := match r with Some s => st_size s | None => 0 end;
               bias_addr := dlpi_addr i; tls_index := dlpi_tls_modid i |}, d')
  end.
Proof.
  revert arg d. induction infos as [|i infos IH]; intros arg d Ha Hz; cbn [find].
  - exists d, (tls_index arg). destruct arg. simpl in *. by subst.
  - cbn [dl_iterate_phdr]. destruct (searchable (library arg) i) eqn:Es.
    + intros dynsym dynstr n r Ht Hr. exists d.
      by rewrite (bind_ok _ _ _ _ _ (find_symbol_found _ _ _ _ _ _ _ Es Ht Hr)).
    + destruct (find_symbol_skip i arg d Es) as [d1 E1].
      specialize (IH (cleared arg) d1 eq_refl eq_refl). cbn [cleared library symbol bias_addr] in IH.
      destruct (find _ infos) as [j|].
      * intros dynsym dynstr n r Ht Hr. destruct (IH _ _ _ _ Ht Hr) as [d' E'].
        exists d'. by rewrite (bind_ok _ _ _ _ _ E1).
      * destruct IH as (d' & t & E'). exists d', t. by rewrite (bind_ok _ _ _ _ _ E1).
Qed.

(** The address of a function: the first loaded object, the vdso apart, whose
    name contains the library's and that has symbol tables decides. If the patch gives
    the function's offset in the library, the address is that offset from the
    object's base, whatever the tables say; otherwise it is the base plus the value
    of the first symbol with the name, and [NULL] if there is none. When no object
    is found and the patch gives an offset, the offset itself is returned as the
    address, as if the library were loaded at 0. *)
Theorem symbol_addr_spec infos progname lib sym old d
    (Hold : in_u 64 old) :
  let found := find (searchable (library_arg progname lib)) infos in
  (forall i dynsym dynstr n r, found = Some i -> symbol_tables i = Some (dynsym, dynstr, n) ->
     symbol_by_name dynsym dynstr (Z.to_nat n) sym = Some r ->
     exists d', get_loaded_symbol_addr infos progname lib sym old d =
       (Ok (if negb (old =? 0) then u64 (dlpi_addr i + old)
            else match r with
                 | Some s => if st_value s =? 0 then 0 else u64 (dlpi_addr i + st_value s)
                 | None => 0
                 end), d')) /\
  (found = None -> exists d', get_loaded_symbol_addr infos progname lib sym old d = (Ok old, d')).
Proof.
  intros found. unfold found.
  pose proof (find_symbol_run infos (init_arg (library_arg progname lib) sym) d eq_refl eq_refl) as Hrun.
  cbn [init_arg library symbol bias_addr] in Hrun.
  unfold get_loaded_symbol_addr, get_loaded_symbol_addr_size. split.
  - intros i dynsym dynstr n r Hf Ht Hr. rewrite Hf in Hrun. destruct (Hrun _ _ _ _ Ht Hr) as [d' E].
    rewrite bind_assoc, (bind_ok _ _ _ _ _ E). cbn [symbol_addr symbol_size bias_addr].
    destruct (Z.eqb_spec old 0) as [->|Ho]; cbn [negb andb].
    + destruct r as [s|]; [|by eexists]. destruct (st_value s =? 0); by eexists.
    + destruct r as [s|].
      * destruct (Z.eqb_spec (st_value s) old) as [->|]; cbn [negb]; [|by eexists].
        destruct (Z.eqb_spec old 0); [done|]. by eexists.
      * destruct (Z.eqb_spec 0 old); [by subst|]. by eexists.
  - intros Hf. rewrite Hf in Hrun. destruct Hrun as (d' & t & E).
    rewrite bind_assoc, (bind_ok _ _ _ _ _ E). cbn [symbol_addr symbol_size bias_addr].
    destruct (Z.eqb_spec old 0) as [->|Ho]; cbn [negb andb]; [by eexists|].
    destruct (Z.eqb_spec 0 old); [by subst|]. cbn [negb]. rewrite Z.add_0_l, wrap_id by done. by eexists.
Qed.
