(* ===== verification/Interpose.v ===== *)
(** * The interposed functions, their lock and the initialisation (lib/interpose.c)

    libpulp wraps the allocator and the dynamic loader to count, in [flag], the
    threads that are inside one of them; a live patch is refused while there is
    one. The initialisation resolves the wrapped functions and reads the
    variables by which a user forbids live patching. *)

From S2P Require Import Prelude Errors.

Open Scope ulp_scope.

(** ** The lock *)

(** [flag], and the loader's two mutexes: the value of the futex word, behind a
    pointer that may be [NULL]. *)
Record locks := {
  flag : Z;
  dl_load_lock : option Z;
  dl_load_write_lock : option Z }.

Record lock_state := { lk : locks; lk_diag : diag }.

Abbreviation lock_m A := (st lock_state Z A).

Definition set_lk l (s : lock_state) : lock_state := {| lk := l; lk_diag := lk_diag s |}.
Definition lk_log (f : diag -> diag) : lock_m unit :=
  modify (fun s => {| lk := lk s; lk_diag := f (lk_diag s) |}).
Definition set_flag (n : Z) : lock_m unit :=
  modify (fun s => set_lk {| flag := n; dl_load_lock := dl_load_lock (lk s);
                             dl_load_write_lock := dl_load_write_lock (lk s) |} s).

(** [*p] for a mutex. *)
Definition deref (p : option Z) : lock_m Z :=
  match p with Some v => ret v | None => undef end.

Definition dl_locks_held : lock_m bool :=
  let! s := gets lk in
  let! l := deref (dl_load_lock s) in
  lk_log (libpulp_assert_func (Z.b2z ((0 <=? l) && (l <=? 1))));;;
  let! w := deref (dl_load_write_lock s) in
  lk_log (libpulp_assert_func (Z.b2z ((0 <=? w) && (w <=? 1))));;;
  ret (negb (l =? 0) || negb (w =? 0)).

Definition __ulp_asunsafe_trylock : lock_m Z :=
  let! held := dl_locks_held in
  if held then ret 1
  else
    let! local := gets (fun s => flag (lk s)) in
    (if local =? 0 then set_flag 1 else ret tt);;;
    if negb (local =? 0) then ret 1 else ret 0.

Definition __ulp_asunsafe_unlock : lock_m Z := set_flag 0;;; ret 0.

(** ** The wrappers *)

Inductive interposed :=
| Dlopen | Dlmopen | Dlclose | Dladdr | Dladdr1 | Dlinfo
| Free | Malloc | Calloc | Realloc | Valloc | Pvalloc | Memalign | Aligned_alloc | Posix_memalign.

#[export] Instance interposed_eq_dec : EqDecision interposed.
Proof. solve_decision. Defined.

(** Around the real function. *)
Definition enter : lock_m unit := let! n := gets (fun s => flag (lk s)) in set_flag (s32 (n + 1)).
Definition leave : lock_m unit := let! n := gets (fun s => flag (lk s)) in set_flag (s32 (n - 1)).

Definition counted {A} (real : lock_m A) : lock_m A :=
  enter;;; let! result := real in leave;;; ret result.

(** The allocator's wrappers: before the initialisation, the C library's own. *)
Definition alloc_wrapper {A} (real : option (lock_m A)) (libc : lock_m A) : lock_m A :=
  match real with
  | None => libc
  | Some f => counted f
  end.

(** Those that have no other name in the C library are emulated; the result of
    [__libc_memalign] is a parameter. *)
Definition aligned_alloc_libc (libc_memalign : Z -> Z -> Z) (alignment size : Z) : Z * option Z :=
  if negb (Z.land alignment (u64 (alignment - 1)) =? 0) || negb (Z.land size (u64 (alignment - 1)) =? 0) then
    (0, Some EINVAL)
  else (libc_memalign alignment size, None).

Definition powerof2 (x : Z) : bool := Z.land (u64 (x - 1)) x =? 0.

Definition posix_memalign_libc (libc_memalign : Z -> Z -> Z) (alignment size : Z) : Z * option Z :=
  if negb (alignment mod 8 =? 0) || negb (powerof2 (alignment / 8)) || (alignment =? 0) then (EINVAL, None)
  else
    let mem := libc_memalign alignment size in
    if negb (mem =? 0) then (0, Some mem) else (ENOMEM, None).

(** ** The user's wish *)

(** [isdigit] and [isnumber] of common/common.c; [NULL] is [None]. *)
Definition isdigit (c : Z) : bool := (48 <=? c) && (c <=? 57).

Definition isnumber (s : option bytes) : bool :=
  match s with
  | None => false
  | Some s =>
    match cstr s with
    | [] => false
    | s => forallb isdigit s
    end
  end.

(** [strtoul (s, NULL, 10)] of a string of digits. *)
Definition strtoul10 (s : bytes) : Z :=
  Z.min (fold_left (fun acc c => 10 * acc + (c - 48)) s 0) (2 ^ 64 - 1).

(** The tokens [strtok (names, ":")] yields. *)
Fixpoint split_on (sep : Z) (s cur : bytes) : list bytes :=
  match s with
  | [] => match cur with [] => [] | _ => [rev cur] end
  | c :: s =>
    if c =? sep then match cur with [] => split_on sep s [] | _ => rev cur :: split_on sep s [] end
    else split_on sep s (c :: cur)
  end.

Definition strtok (sep : Z) (s : bytes) : list bytes := split_on sep (cstr s) [].

Section wishes.
(** The environment: [getenv], the [errno] of a failed allocation of a copy,
    the link of /proc/self/exe, and the process's user and group. *)
Variable getenv : string -> option bytes.
Variable malloc_errno : bytes -> option Z.
Variable readlink_exe : option bytes.
Variables uid gid : Z.
Variables uname gname : option bytes.
(** [fnmatch (pattern, s, FNM_EXTMATCH) == 0]. *)
Variable fnmatch : bytes -> bytes -> bool.

Definition PATH_MAX : Z := 4096.

(** A loop over the tokens that stops at the first match. *)
Fixpoint first_match (matches : bytes -> option string) (tokens : list bytes) (d : diag) : diag :=
  match tokens with
  | [] => d
  | wildcard :: tokens =>
    match matches wildcard with
    | Some fmt => push_msg fmt (set_libpulp_error_state EUSRBLOCKED d)
    | None => first_match matches tokens d
    end
  end.

Definition path_match (process_path wildcard : bytes) : option string :=
  if fnmatch wildcard process_path then
    Some "Matched path pattern %s: livepatching disabled by user request."%string
  else None.

Definition maybe_disable_livepatching_on_path : st diag Z unit :=
  match getenv "LIBPULP_DISABLE_ON_PATH" with
  | None => ret tt
  | Some names =>
    match malloc_errno names with
    | Some errno => modify (set_libpulp_error_state errno)
    | None =>
      let n := match readlink_exe with Some p => Z.min (zlen p) PATH_MAX | None => -1 end in
      (if PATH_MAX <=? u64 n then
         modify (fun d => set_libpulp_error_state EINITFAIL
           (push_msg "Unable to get path to executable. Livepatching is disabled." d))
       else ret tt);;;
      (* process_path[n] = 0 *)
      if (n <? 0) || (PATH_MAX <=? n) then undef
      else modify (first_match (path_match (cstr (default [] readlink_exe))) (strtok 58 names))
    end
  end.

(** The body shared by the two functions on identities. *)
Definition id_match (id : Z) (name : option bytes) (id_msg name_msg : string) (wildcard : bytes) : option string :=
  if isnumber (Some wildcard) && (strtoul10 wildcard =? id) then Some id_msg
  else
    match name with
    | None => None
    | Some name => if fnmatch wildcard (cstr name) then Some name_msg else None
    end.

Definition maybe_disable_livepatching_on_user : st diag Z unit :=
  match getenv "LIBPULP_DISABLE_ON_USERS" with
  | None => ret tt
  | Some names =>
    match malloc_errno names with
    | Some errno => modify (set_libpulp_error_state errno)
    | None =>
      modify (first_match
        (id_match uid uname "Matched uid %s: livepatching disabled by user request."
           "Matched user pattern %s: livepatching disabled by user request.") (strtok 58 names))
    end
  end.

Definition maybe_disable_livepatching_on_group : st diag Z unit :=
  match getenv "LIBPULP_DISABLE_ON_GROUPS" with
  | None => ret tt
  | Some names =>
    match malloc_errno names with
    | Some errno => modify (set_libpulp_error_state errno)
    | None =>
      modify (first_match
        (id_match gid gname "Matched gid %s: livepatching disabled by user request."
           "Matched group pattern %s: livepatching disabled by user request.") (strtok 58 names))
    end
  end.

(** ** The initialisation *)

(** Whether [dlsym (RTLD_NEXT, name)] finds the function, and the mutexes
    [get_ld_global_locks] derives from the loader's [_rtld_global]. *)
Variable next_symbol : interposed -> bool.
Variables rtld_load_lock rtld_write_lock : option Z.

Record init_state := {
  real : interposed -> bool;     (** the [real_] pointers that are set *)
  init_locks : lock_state }.

Abbreviation init_m A := (st init_state Z A).

Definition resolve (l : list interposed) : init_m unit :=
  modify (fun s => {| real f := if bool_decide (f ∈ l) then next_symbol f else real s f;
                      init_locks := init_locks s |}).

Definition on_locks {A} (m : lock_m A) : init_m A := fun s =>
  let (r, l) := m (init_locks s) in (r, {| real := real s; init_locks := l |}).

Definition on_diag {A} (m : st diag Z A) : init_m A := fun s =>
  let (r, d) := m (lk_diag (init_locks s)) in
  (r, {| real := real s; init_locks := {| lk := lk (init_locks s); lk_diag := d |} |}).

(** [if (!real_f) { set_libpulp_error_state_with_reason(e, reason); ok = false; }] *)
Fixpoint check_all (e : Z) (l : list (interposed * string)) (ok : bool) : init_m bool :=
  match l with
  | [] => ret ok
  | (f, reason) :: l =>
    let! r := gets (fun s => real s f) in
    if negb r then
      on_locks (lk_log (set_libpulp_error_state_with_reason_func e reason));;; check_all e l false
    else check_all e l ok
  end.

Definition libdl_functions : list (interposed * string) :=
  [(Dlopen, "unable to find function `dlopen`."); (Dlmopen, "unable to find function `dlmopen`.");
   (Dlclose, "unable to find function `dlclose`."); (Dladdr, "unable to find function `dladdr`.");
   (Dladdr1, "unable to find function `dladdr1`."); (Dlinfo, "unable to find function `dlinfo`.")]%string.

Definition libc_functions : list (interposed * string) :=
  [(Free, "unable to find function `free`."); (Malloc, "unable to find function `malloc`.");
   (Calloc, "unable to find function `calloc`."); (Realloc, "unable to find function `realloc`.");
   (Pvalloc, "unable to find function `pvalloc`."); (Memalign, "unable to find function `memalign`.");
   (Aligned_alloc, "unable to find function `aligned_alloc`.");
   (Posix_memalign, "unable to find function `posix_memalign`")]%string.

Definition __ulp_asunsafe_begin : init_m unit :=
  let! done := gets (fun s => real s Malloc) in
  if done then ret tt
  else
    resolve [Dlopen; Dlmopen; Dlclose; Dladdr; Dladdr1; Dlinfo];;;
    let! ok := check_all ENOLIBDL libdl_functions true in
    resolve [Free; Malloc; Calloc; Realloc; Valloc; Pvalloc; Memalign; Aligned_alloc; Posix_memalign];;;
    let! ok := check_all ENOLIBC libc_functions ok in
    if negb ok then ret tt
    else
      on_locks (modify (fun s => set_lk {| flag := flag (lk s); dl_load_lock := rtld_load_lock;
                                           dl_load_write_lock := rtld_write_lock |} s));;;
      on_locks dl_locks_held;;;
      on_diag maybe_disable_livepatching_on_path;;;
      on_diag maybe_disable_livepatching_on_user;;;
      on_diag maybe_disable_livepatching_on_group.

(** The loader's wrappers initialise first when they must. *)
Definition dl_wrapper {A} (f : interposed) (call : lock_m A) : init_m A :=
  let! r := gets (fun s => real s f) in
  (if r then ret tt else __ulp_asunsafe_begin);;;
  let! r := gets (fun s => real s f) in
  if r then on_locks (counted call)
  else
    (* the call of a null pointer, after the count was raised *)
    on_locks enter;;; undef.
End wishes.

(** ** The lock *)

(** It is not taken while a thread is inside or the loader is locked; a mutex
    with waiters makes an assertion of the library fail. *)
Lemma trylock_held s l w : dl_load_lock (lk s) = Some l -> dl_load_write_lock (lk s) = Some w ->
  l <> 0 \/ w <> 0 \/ flag (lk s) <> 0 ->
  exists d, __ulp_asunsafe_trylock s = (Ok 1, {| lk := lk s; lk_diag := d |}) /\
    err_state d = if (0 <=? l) && (l <=? 1) && ((0 <=? w) && (w <=? 1)) then err_state (lk_diag s) else EUNKNOWN.
Proof.
  intros Hl Hw Hb. destruct s as [[f ol ow] d]. simpl in *. subst.
  unfold __ulp_asunsafe_trylock, dl_locks_held, bind, gets, deref, lk_log, modify, ret. simpl.
  destruct ((0 <=? l) && (l <=? 1)) eqn:Cl, ((0 <=? w) && (w <=? 1)) eqn:Cw; simpl;
    destruct (Z.eqb_spec l 0), (Z.eqb_spec w 0); simpl;
    try (eexists; split; [reflexivity|]; by simpl);
    destruct (Z.eqb_spec f 0); simpl; try lia; eexists; (split; [reflexivity|]; by simpl).
Qed.

(** ** The user's wishes, and the initialisation *)

Lemma first_match_spec matches tokens d :
  err_state (first_match matches tokens d) =
  if existsb (fun t => match matches t with Some _ => true | None => false end) tokens
  then EUSRBLOCKED else err_state d.
Proof.
  induction tokens as [|t tokens IH]; [done|]. simpl. by destruct (matches t).
Qed.

(** A wildcard list names an identity: by its number, or by a pattern of its name. *)
Definition names_identity (fnmatch : bytes -> bytes -> bool) (id : Z) (name : option bytes) (token : bytes) : bool :=
  (isnumber (Some token) && (strtoul10 token =? id)) ||
  match name with Some n => fnmatch token (cstr n) | None => false end.

Lemma id_match_spec fnmatch id name m1 m2 token :
  match id_match fnmatch id name m1 m2 token with Some _ => true | None => false end =
  names_identity fnmatch id name token.
Proof.
  unfold id_match, names_identity. destruct (isnumber _ && _); [done|]. simpl.
  destruct name as [n|]; [|done]. by destruct (fnmatch token (cstr n)).
Qed.

Lemma existsb_ext' {A} (f g : A -> bool) l : (forall x, f x = g x) -> existsb f l = existsb g l.
Proof. intros E. induction l; simpl; [done|]. by rewrite E, IHl. Qed.

(** The user's wishes: in a healthy library, the list of users (and likewise the
    list of groups) blocks live patching exactly when one of its colon-separated
    tokens is the number of the process's user, or a pattern that matches its
    name; a list of paths, when one of its patterns matches the program's path. When that
    path cannot be read, or fills the buffer, the program writes outside it. *)
Theorem user_wishes getenv malloc_errno exe uid gid uname gname fnmatch names d
    (Hmalloc : malloc_errno names = None)
    (Hhealthy : err_state d = ENONE) :
  (getenv "LIBPULP_DISABLE_ON_USERS"%string = Some names ->
     exists d', maybe_disable_livepatching_on_user getenv malloc_errno uid uname fnmatch d = (Ok tt, d') /\
       err_state d' = if existsb (names_identity fnmatch uid uname) (strtok 58 names) then EUSRBLOCKED else ENONE) /\
  (getenv "LIBPULP_DISABLE_ON_GROUPS"%string = Some names ->
     exists d', maybe_disable_livepatching_on_group getenv malloc_errno gid gname fnmatch d = (Ok tt, d') /\
       err_state d' = if existsb (names_identity fnmatch gid gname) (strtok 58 names) then EUSRBLOCKED else ENONE) /\
  (getenv "LIBPULP_DISABLE_ON_PATH"%string = Some names ->
     forall path, exe = Some path -> zlen path < PATH_MAX ->
     exists d', maybe_disable_livepatching_on_path getenv malloc_errno exe fnmatch d = (Ok tt, d') /\
       err_state d' = if existsb (fun t => fnmatch t (cstr path)) (strtok 58 names) then EUSRBLOCKED else ENONE) /\
  (getenv "LIBPULP_DISABLE_ON_PATH"%string = Some names ->
     (exe = None \/ exists path, exe = Some path /\ PATH_MAX <= zlen path) ->
     exists d', maybe_disable_livepatching_on_path getenv malloc_errno exe fnmatch d = (Ub, d')).
Proof.
  split_and!.
  - intros E. unfold maybe_disable_livepatching_on_user. rewrite E, Hmalloc. eexists. split; [reflexivity|].
    rewrite first_match_spec, Hhealthy. erewrite existsb_ext'; [reflexivity|]. intros. apply id_match_spec.
  - intros E. unfold maybe_disable_livepatching_on_group. rewrite E, Hmalloc. eexists. split; [reflexivity|].
    rewrite first_match_spec, Hhealthy. erewrite existsb_ext'; [reflexivity|]. intros. apply id_match_spec.
  - intros E path -> Hlen. unfold maybe_disable_livepatching_on_path. rewrite E, Hmalloc. cbv zeta.
    unfold PATH_MAX in *. pose proof (zlen_nonneg path). rewrite Z.min_l by lia.
    rewrite wrap_id by (unfold in_u; lia).
    destruct (Z.leb_spec 4096 (zlen path)); [lia|]. destruct (Z.ltb_spec (zlen path) 0); [lia|].
    eexists. split; [reflexivity|]. rewrite first_match_spec, Hhealthy.
    erewrite existsb_ext'; [reflexivity|]. intros tok. unfold path_match. simpl. by destruct (fnmatch tok _).
  - intros E Hexe. unfold maybe_disable_livepatching_on_path. rewrite E, Hmalloc. cbv zeta.
    unfold PATH_MAX in *. destruct Hexe as [-> |(path & -> & Hlen)]; [by eexists|].
    rewrite Z.min_r by lia. by eexists.
Qed.

Lemma log_bind {B} g (k : unit -> st init_state Z B) s :
  bind (on_locks (lk_log g)) k s =
  k tt {| real := real s; init_locks := {| lk := lk (init_locks s); lk_diag := g (lk_diag (init_locks s)) |} |}.
Proof. done. Qed.

Lemma check_all_run e l ok s :
  exists s', check_all e l ok s = (Ok (ok && forallb (real s) (map fst l)), s') /\ real s' = real s /\
    lk (init_locks s') = lk (init_locks s) /\
    err_state (lk_diag (init_locks s')) =
      if forallb (real s) (map fst l) then err_state (lk_diag (init_locks s)) else e.
Proof.
  revert ok s. induction l as [|[f reason] l IH]; intros ok s; [exists s; by rewrite andb_true_r|].
  cbn [check_all map fst forallb]. unfold bind at 1, gets at 1. destruct (real s f) eqn:R; cbn [negb andb].
  - destruct (IH ok s) as (s' & E & H). by exists s'.
  - rewrite log_bind. match goal with |- context [check_all e l false ?x] => set (s1 := x) end.
    destruct (IH false s1) as (s' & E & Hr & Hl & He). exists s'. rewrite E, andb_false_r.
    split_and!; [done|done|done|]. rewrite He. simpl. by destruct (forallb _ _).
Qed.

(** What [__ulp_asunsafe_begin] needs: every wrapped function but [valloc]. *)
Definition required : list interposed := map fst libdl_functions ++ map fst libc_functions.

(** The initialisation is all or nothing: when one of the functions it needs cannot
    be found, the library is left in an error state that the user's switch does
    not clear, and the loader's mutexes, which would not be known, are never
    looked at; when all are found the mutexes are known and, unless a variable asks
    otherwise, the library is healthy. *)
Theorem initialisation getenv malloc_errno exe uid gid uname gname fnmatch next_symbol l w s
    (Hfirst : real s Malloc = false)
    (Hhealthy : err_state (lk_diag (init_locks s)) = ENONE) :
  let run := __ulp_asunsafe_begin getenv malloc_errno exe uid gid uname gname fnmatch next_symbol l w in
  ((exists f, In f required /\ next_symbol f = false) ->
     exists s', run s = (Ok tt, s') /\ lk (init_locks s') = lk (init_locks s) /\
       libpulp_is_in_error_state (lk_diag (init_locks s')) = true /\
       (ulp_enable_or_disable_patching (lk_diag (init_locks s'))).2 = lk_diag (init_locks s')) /\
  ((forall f, In f required -> next_symbol f = true) -> (forall v, getenv v = None) ->
   (l = Some 0 \/ l = Some 1) -> (w = Some 0 \/ w = Some 1) ->
     exists s', run s = (Ok tt, s') /\ dl_load_lock (lk (init_locks s')) = l /\
       dl_load_write_lock (lk (init_locks s')) = w /\
       flag (lk (init_locks s')) = flag (lk (init_locks s)) /\
       libpulp_is_in_error_state (lk_diag (init_locks s')) = false /\
       (forall f, In f required -> real s' f = true)).
Proof.
  intros run.
  set (r1 f := if bool_decide (f ∈ [Dlopen; Dlmopen; Dlclose; Dladdr; Dladdr1; Dlinfo]) then next_symbol f else real s f).
  set (r2 f := if bool_decide (f ∈ [Free; Malloc; Calloc; Realloc; Valloc; Pvalloc; Memalign; Aligned_alloc;
                                    Posix_memalign]) then next_symbol f else r1 f).
  destruct (check_all_run ENOLIBDL libdl_functions true {| real := r1; init_locks := init_locks s |})
    as (s1 & E1 & Hr1 & Hl1 & He1).
  destruct (check_all_run ENOLIBC libc_functions (forallb r1 (map fst libdl_functions))
              {| real := r2; init_locks := init_locks s1 |}) as (s2 & E2 & Hr2 & Hl2 & He2).
  simpl real in *. simpl init_locks in *. rewrite Hl1 in Hl2. rewrite He1, Hhealthy in He2.
  assert (Hfa : forallb r1 (map fst libdl_functions) && forallb r2 (map fst libc_functions) =
                forallb next_symbol required) by (unfold required; by rewrite forallb_app).
  assert (Hrun : run s = (if negb (forallb next_symbol required) then ret tt else
      (on_locks (modify (fun s => set_lk {| flag := flag (lk s); dl_load_lock := l; dl_load_write_lock := w |} s));;;
       on_locks dl_locks_held;;;
       on_diag (maybe_disable_livepatching_on_path getenv malloc_errno exe fnmatch);;;
       on_diag (maybe_disable_livepatching_on_user getenv malloc_errno uid uname fnmatch);;;
       on_diag (maybe_disable_livepatching_on_group getenv malloc_errno gid gname fnmatch))) s2).
  { unfold run, __ulp_asunsafe_begin. unfold bind at 1, gets. rewrite Hfirst.
    unfold bind at 1, resolve at 1, modify at 1. fold r1. rewrite (bind_ok _ _ _ _ _ E1).
    unfold bind at 1, resolve, modify at 1. rewrite Hr1. fold r2.
    by rewrite (bind_ok _ _ _ _ _ E2), Hfa. }
  split.
  - intros (f & Hin & Hf).
    assert (Hmiss : forallb next_symbol required = false).
    { apply not_true_iff_false. rewrite forallb_forall. intros H. rewrite (H f Hin) in Hf. done. }
    rewrite Hmiss in Hrun. exists s2. split; [exact Hrun|]. split; [done|].
    unfold libpulp_is_in_error_state, ulp_enable_or_disable_patching, get_libpulp_error_state.
    rewrite He2. rewrite Hmiss in Hfa. apply andb_false_iff in Hfa as [-> | ->]; [|done].
    by destruct (forallb r2 _).
  - intros Hall Henv Hload Hwrite.
    assert (Hok : forallb next_symbol required = true) by (by apply forallb_forall).
    rewrite Hok in Hrun, Hfa. apply andb_true_iff in Hfa as [F1 F2]. rewrite F1, F2 in He2.
    assert (Hreal : forall f, In f required -> r2 f = true).
    { intros f Hin. unfold required in Hin. apply in_app_iff in Hin as [Hin|Hin].
      - rewrite forallb_forall in F1. specialize (F1 f Hin). unfold r2.
        destruct (bool_decide _); [|done]. by apply Hall, in_app_iff; left.
      - rewrite forallb_forall in F2. by apply F2. }
    unfold on_diag, maybe_disable_livepatching_on_path, maybe_disable_livepatching_on_user,
      maybe_disable_livepatching_on_group in Hrun. rewrite !Henv in Hrun.
    clear - Hrun Hl2 He2 Hr2 Hreal Hload Hwrite.
    destruct s2 as [rr [[fl ll wl] dd]]. cbn [lk init_locks real lk_diag] in *. rewrite <- Hl2 in *.
    destruct Hload as [-> | ->], Hwrite as [-> | ->]; (eexists; split; [exact Hrun|]);
      (split_and!; [done|done|done| |intros f Hin; change (rr f = true); rewrite Hr2; by apply Hreal]);
      unfold libpulp_is_in_error_state, get_libpulp_error_state;
      match goal with |- context [err_state ?d] => change (err_state d) with (err_state dd) end; by rewrite He2.
Qed.
