(* ===== verification/PatchCore.v ===== *)
(** * Applying and reverting live patches (lib/ulp.c)

    The state libpulp keeps in the process: the applied patches, newest first,
    and for each patched function a root with its detours, newest first. A patch
    changes the program through the queued writes of the architecture code. *)

From stdpp Require Import gmap.
From S2P Require Import Prelude Errors Memory Metadata InsnQueue Arch SymbolLoader Interpose.

Open Scope ulp_scope.

(** ** Data *)

Record ulp_applied_unit := {
  patched_addr : Z;
  target_addr : Z;
  overwritten_bytes : bytes }.

Record ulp_applied_patch := {
  applied_id : bytes;
  lib_name : bytes;
  container_name : bytes;
  applied_units : list ulp_applied_unit;
  applied_deps : list ulp_dependency;
  timestamp : Z }.

Record ulp_detour := {
  detour_id : bytes;
  universe : Z;
  detour_target : Z;
  active : bool }.

Record ulp_detour_root := {
  index : Z;
  root_addr : Z;
  detours : list ulp_detour }.

(** The dynamic loader of the C library. [dl_objects] is what [dl_iterate_phdr]
    reports; [dlopen] maps the object into memory; a null handle or address is
    0; [dlsym] says also whether [dlerror] has an error; [dlinfo] gives the load address
    or fails. *)
Class Libdl (D : Type) := {
  dlopen : option bytes -> D -> mem -> Z * D * mem;
  dlclose : Z -> D -> Z * D;
  dlsym : Z -> bytes -> D -> Z * bool * D;
  dlinfo : Z -> D -> option Z * D;
  dl_objects : D -> list dl_phdr_info }.

Record lib_state (D : Type) := {
  load_state : Z;
  patches : list ulp_applied_patch;          (** [__ulp_state.patches] *)
  roots : list ulp_detour_root;              (** [__ulp_root] *)
  root_index_counter : Z;
  global_universe : Z;
  metadata_ref : option ulp_metadata;        (** what [__ulp_metadata_ref] points to *)
  metadata_buffer : bytes;                   (** [__ulp_metadata_buffer] *)
  core : code_state;
  loader : D;
  lib_locks : locks;
  n_allocs : nat }.
Arguments load_state {D} _.
Arguments patches {D} _.
Arguments roots {D} _.
Arguments root_index_counter {D} _.
Arguments global_universe {D} _.
Arguments metadata_ref {D} _.
Arguments metadata_buffer {D} _.
Arguments core {D} _.
Arguments loader {D} _.
Arguments lib_locks {D} _.
Arguments n_allocs {D} _.

Section setters.
Context {D : Type}.
Implicit Types s : lib_state D.
Definition set_load_state x s : lib_state D := {| load_state := x; patches := patches s; roots := roots s;
  root_index_counter := root_index_counter s; global_universe := global_universe s;
  metadata_ref := metadata_ref s; metadata_buffer := metadata_buffer s; core := core s;
  loader := loader s; lib_locks := lib_locks s; n_allocs := n_allocs s |}.
Definition set_patches x s : lib_state D := {| load_state := load_state s; patches := x; roots := roots s;
  root_index_counter := root_index_counter s; global_universe := global_universe s;
  metadata_ref := metadata_ref s; metadata_buffer := metadata_buffer s; core := core s;
  loader := loader s; lib_locks := lib_locks s; n_allocs := n_allocs s |}.
Definition set_roots x s : lib_state D := {| load_state := load_state s; patches := patches s; roots := x;
  root_index_counter := root_index_counter s; global_universe := global_universe s;
  metadata_ref := metadata_ref s; metadata_buffer := metadata_buffer s; core := core s;
  loader := loader s; lib_locks := lib_locks s; n_allocs := n_allocs s |}.
Definition set_counter x s : lib_state D := {| load_state := load_state s; patches := patches s; roots := roots s;
  root_index_counter := x; global_universe := global_universe s;
  metadata_ref := metadata_ref s; metadata_buffer := metadata_buffer s; core := core s;
  loader := loader s; lib_locks := lib_locks s; n_allocs := n_allocs s |}.
Definition set_universe x s : lib_state D := {| load_state := load_state s; patches := patches s; roots := roots s;
  root_index_counter := root_index_counter s; global_universe := x;
  metadata_ref := metadata_ref s; metadata_buffer := metadata_buffer s; core := core s;
  loader := loader s; lib_locks := lib_locks s; n_allocs := n_allocs s |}.
Definition set_metadata_ref x s : lib_state D := {| load_state := load_state s; patches := patches s; roots := roots s;
  root_index_counter := root_index_counter s; global_universe := global_universe s;
  metadata_ref := x; metadata_buffer := metadata_buffer s; core := core s;
  loader := loader s; lib_locks := lib_locks s; n_allocs := n_allocs s |}.
Definition set_metadata_buffer x s : lib_state D := {| load_state := load_state s; patches := patches s; roots := roots s;
  root_index_counter := root_index_counter s; global_universe := global_universe s;
  metadata_ref := metadata_ref s; metadata_buffer := x; core := core s;
  loader := loader s; lib_locks := lib_locks s; n_allocs := n_allocs s |}.
Definition set_core x s : lib_state D := {| load_state := load_state s; patches := patches s; roots := roots s;
  root_index_counter := root_index_counter s; global_universe := global_universe s;
  metadata_ref := metadata_ref s; metadata_buffer := metadata_buffer s; core := x;
  loader := loader s; lib_locks := lib_locks s; n_allocs := n_allocs s |}.
Definition set_loader (x : D) s : lib_state D := {| load_state := load_state s; patches := patches s; roots := roots s;
  root_index_counter := root_index_counter s; global_universe := global_universe s;
  metadata_ref := metadata_ref s; metadata_buffer := metadata_buffer s; core := core s;
  loader := x; lib_locks := lib_locks s; n_allocs := n_allocs s |}.
Definition set_locks x s : lib_state D := {| load_state := load_state s; patches := patches s; roots := roots s;
  root_index_counter := root_index_counter s; global_universe := global_universe s;
  metadata_ref := metadata_ref s; metadata_buffer := metadata_buffer s; core := core s;
  loader := loader s; lib_locks := x; n_allocs := n_allocs s |}.
Definition set_allocs x s : lib_state D := {| load_state := load_state s; patches := patches s; roots := roots s;
  root_index_counter := root_index_counter s; global_universe := global_universe s;
  metadata_ref := metadata_ref s; metadata_buffer := metadata_buffer s; core := core s;
  loader := loader s; lib_locks := lib_locks s; n_allocs := x |}.

(** The error state and the messages. *)
Definition lib_diag s : diag := diagnosis (code_q (core s)).
Definition set_lib_diag d s : lib_state D := set_core (set_code_q (set_diagnosis d (code_q (core s))) (core s)) s.
End setters.

(** *** Liftings of the parts' computations *)

Abbreviation lib_m D A := (st (lib_state D) Z A).

Section lift.
Context {D : Type}.

Definition on_core {A} (m : arch_m A) : lib_m D A := fun s =>
  let (r, c) := m (core s) in (r, set_core c s).
Definition on_lib_diag {A} (m : st diag Z A) : lib_m D A := fun s =>
  let (r, d) := m (lib_diag s) in (r, set_lib_diag d s).
Definition on_lib_locks {A} (m : lock_m A) : lib_m D A := fun s =>
  let (r, l) := m {| lk := lib_locks s; lk_diag := lib_diag s |} in
  (r, set_lib_diag (lk_diag l) (set_locks (lk l) s)).
Definition warn (fmt : string) : lib_m D unit := modify (fun s => set_lib_diag (push_msg fmt (lib_diag s)) s).
End lift.

(** ** Strings and identifiers *)

(** [memcmp (a, b, 32) == 0] *)
Definition same_id (a b : bytes) : bool := byte_eqb (take 32 a) (take 32 b).

(** [strndup (s, n)] *)
Definition strndup (s : bytes) (n : Z) : bytes := take (Z.to_nat n) (cstr s).

(** ** Operations *)

Section operations.
Context {D : Type} `{Libdl D} `{Arch}.
(** The program's name; the allocator, as libpulp and its parser call it; the
    parser's indeterminate local; the clock. *)
Variable progname : bytes.
Variable alloc_ok : nat -> bool.
Variable calloc_ok : nat -> Z -> bool.
Variable c0 : Z.
Variable now : Z.

Abbreviation M A := (lib_m D A).

Definition lib_alloc : M bool := fun s => (Ok (alloc_ok (n_allocs s)), set_allocs (S (n_allocs s)) s).

(** A function on the object [__ulp_metadata_ref] points to, which is the [ulp]
    the callers pass around. *)
Definition get_ulp : M ulp_metadata := fun s =>
  match metadata_ref s with
  | Some u => (Ok u, s)
  | None => (Ub, s)
  end.
Definition upd_metadata (f : ulp_metadata -> ulp_metadata) : M unit :=
  modify (fun s => set_metadata_ref (option_map f (metadata_ref s)) s).

(** [ulp->objs->...] *)
Definition get_obj : M ulp_object :=
  let! ulp := get_ulp in
  match objs ulp with Some o => ret o | None => undef end.

Definition find_symbol (library : option bytes) (symbol : bytes) (old_faddr : Z) : M Z := fun s =>
  on_lib_diag (get_loaded_symbol_addr (dl_objects (loader s)) progname library symbol old_faddr) s.

(** *** The loader *)

Definition unload_handlers : M Z :=
  let! ulp := get_ulp in
  if so_handler ulp =? 0 then ret 1
  else fun s =>
    let (rc, d) := dlclose (so_handler ulp) (loader s) in
    ((if negb (rc =? 0) then warn "Error unloading patch so handler: %s";;; ret 0 else ret 1)
      : M Z) (set_loader d s).

Definition load_so_symbol (fname : bytes) (handle : Z) : M Z := fun s =>
  match dlsym handle (cstr fname) (loader s) with
  | (func, error, d) =>
    ((if error then warn "Unable to load function %s: %s.";;; ret 0 else ret func) : M Z)
      (set_loader d s)
  end.

Definition load_so (obj : option bytes) : M Z := fun s =>
  match dlopen (option_map cstr obj) (loader s) (code_mem (core s)) with
  | (patch_obj, d, m) =>
    ((if patch_obj =? 0 then warn "Unable to load shared object %s: %s.";;; ret 0 else ret patch_obj)
      : M Z) (set_core {| code_mem := m; code_q := code_q (core s) |} (set_loader d s))
  end.

Definition load_so_handlers : M Z :=
  let! ulp := get_ulp in
  let! h := load_so (so_filename ulp) in
  upd_metadata (fun u => set_so_handler u h);;;
  if h =? 0 then
    warn "Unable to load patch dl handler.";;;
    unload_handlers;;; ret 0
  else ret 1.

Definition unload_metadata : M Z := modify (set_metadata_ref None);;; ret 0.

(** *** Checks *)

(** The notes of a segment, from offset [off], while [size] bytes are left:
    whether a build id is found and compared, and how. [fuel] bounds the number of
    notes, each of which takes 12 bytes or more. *)
Definition align4 (val : Z) : Z := Z.land (u32 (u32 (val + 4) - 1)) (2 ^ 32 - 4).

Fixpoint scan_notes (fuel : nat) (content : bytes) (off size : Z) (o : ulp_object) : res Z bool :=
  match fuel with
  | O => NoFuel
  | S fuel =>
    if negb (16 <=? size) then Ok false
    else
      let word k := le_val (slice (Z.to_nat (off + k)) 4 content) in
      if zlen content <? off + 12 then Ub
      else
        let namesz := word 0 in
        let descsz := word 4 in
        let type := word 8 in
        if (type =? 3) && (namesz =? 4) && (16 <=? descsz) then
          if descsz =? build_id_len o then
            match build_id o with
            | None => Ub
            | Some id =>
              if (zlen content <? off + 16 + descsz) || (zlen id <? descsz) then Ub
              else Ok (negb (byte_eqb (take (Z.to_nat descsz) id)
                               (slice (Z.to_nat (off + 16)) (Z.to_nat descsz) content)))
            end
          else Ok false
        else
          let offset := 12 + align4 namesz + align4 descsz in
          scan_notes fuel content (off + offset) (size - offset) o
  end.

Fixpoint compare_build_ids (phdrs : list elf_phdr) (o : ulp_object) : res Z bool :=
  match phdrs with
  | [] => Ok false
  | PT_NOTE content p_filesz :: phdrs =>
    match scan_notes (S (Z.to_nat p_filesz)) content 0 p_filesz o with
    | Ok true => Ok true
    | Ok false => compare_build_ids phdrs o
    | r => r
    end
  | _ :: phdrs => compare_build_ids phdrs o
  end.

(** [dl_iterate_phdr (compare_build_ids, ulp)] *)
Fixpoint iterate_build_ids (infos : list dl_phdr_info) : M unit :=
  match infos with
  | [] => ret tt
  | info :: infos =>
    let! o := get_obj in
    match compare_build_ids (dlpi_phdr info) o with
    | Ok true => upd_metadata (fun u => set_objs u (option_map (fun o => set_build_id_check o 1) (objs u)))
    | Ok false => iterate_build_ids infos
    | Err e => throw e
    | Ub => undef
    | NoFuel => nofuel
    end
  end.

Definition check_build_id : M Z :=
  let! infos := gets (fun s => dl_objects (loader s)) in
  iterate_build_ids infos;;;
  let! o := get_obj in
  if build_id_check o =? 0 then
    warn "Could not match patch target build id %s.";;; ret 0
  else ret 1.

Definition ulp_get_applied_patch (id : bytes) : M (option ulp_applied_patch) :=
  gets (fun s => find (fun p => same_id (applied_id p) id) (patches s)).

Definition check_patch_dependencies : M Z :=
  let! applied := gets patches in
  upd_metadata (fun u => set_deps u (map (fun dep =>
    if existsb (fun p => same_id (applied_id p) (dep_id dep)) applied then
      {| dep_id := dep_id dep; patch_id_check := 1 |}
    else dep) (deps u)));;;
  let! ulp := get_ulp in
  if existsb (fun dep => patch_id_check dep =? 0) (deps ulp) then
    warn "Patch does not match dependencies.";;; ret EDEPEND
  else ret 0.

Definition check_patch_sanity : M Z :=
  let! ok := check_build_id in
  if ok =? 0 then ret EBUILDID
  else
    let! r := check_patch_dependencies in
    if negb (r =? 0) then ret r
    else
      let! ulp := get_ulp in
      let! p := ulp_get_applied_patch (patch_id ulp) in
      match p with
      | Some _ => ret EAPPLIED
      | None => ret 0
      end.

(** *** The metadata *)

Definition run_parser : M Z := fun s =>
  match metadata_ref s with
  | None => (Ub, s)
  | Some u =>
    let (r, p) := parse_metadata_from_mem calloc_ok c0 u (metadata_buffer s) ULP_METADATA_BUF_LEN in
    (r, set_lib_diag {| err_state := err_state (lib_diag s);
                        messages := ps_log p ++ messages (lib_diag s) |}
          (set_metadata_ref (Some (ps_ulp p)) s))
  end.

Definition parse_metadata : M Z :=
  let! r := run_parser in
  let! ulp := get_ulp in
  let! r :=
    (if negb (r =? ENONE) || (type ulp =? 2) then ret r
     else
       let! r := check_patch_sanity in
       if negb (r =? 0) then ret r
       else
         let! ok := load_so_handlers in
         ret (if ok =? 0 then EDLOPEN else r)) in
  modify (set_metadata_buffer (replicate (Z.to_nat ULP_METADATA_BUF_LEN) 0));;;
  ret r.

(** The pointer and [*err]; [errno] of a failed [calloc] is [ENOMEM]. *)
Definition load_metadata : M (bool * Z) :=
  let! r := gets metadata_ref in
  match r with
  | Some _ => ret (true, 0)
  | None =>
    let! ok := lib_alloc in
    if negb ok then
      warn "Unable to allocate memory for ulp metadata";;; ret (false, ENOMEM)
    else
      modify (set_metadata_ref (Some zero_metadata));;;
      let! err := parse_metadata in
      if negb (err =? 0) then
        unload_metadata;;;
        warn "Error in metadata load: %s.";;;
        ret (false, err)
      else ret (true, 0)
  end.

(** *** Roots and detours *)

Fixpoint position {A} (p : A -> bool) (l : list A) : option nat :=
  match l with
  | [] => None
  | x :: l => if p x then Some O else option_map S (position p l)
  end.

(** A root is designated by its place in the list. *)
Definition get_detour_root_by_index (idx : Z) : M (option nat) :=
  gets (fun s => position (fun r => index r =? idx) (roots s)).

Definition get_detour_root_by_address (addr : Z) : M (option nat) :=
  gets (fun s => position (fun r => root_addr r =? addr) (roots s)).

Definition get_next_function_index : M Z :=
  let! n := gets root_index_counter in
  modify (set_counter (u32 (n + 1)));;; ret n.

Definition push_new_root : M (option nat) :=
  let! ok := lib_alloc in
  if negb ok then
    warn "unable to allocate memory for ulp detour root";;; ret None
  else
    modify (fun s => set_roots ({| index := 0; root_addr := 0; detours := [] |} :: roots s) s);;;
    ret (Some O).

Definition upd_root (i : nat) (f : ulp_detour_root -> ulp_detour_root) : M unit :=
  modify (fun s => set_roots (alter f i (roots s)) s).

Definition push_new_detour (universe : Z) (patch_id : bytes) (root : nat) (new_faddr : Z) : M Z :=
  let! ok := lib_alloc in
  if negb ok then
    warn "Unable to allocate memory for ulp detour";;; ret 0
  else
    upd_root root (fun r => {| index := index r; root_addr := root_addr r;
      detours := {| detour_id := take 32 patch_id; universe := universe; detour_target := new_faddr;
                    active := true |} :: detours r |});;;
    ret 1.

(** *** Applying *)

Definition next_universe : M unit := modify (fun s => set_universe (u64 (global_universe s + 1)) s).

(** The root of a function, a new one when it has none. *)
Definition get_or_push_root (old_fun : Z) : M nat :=
  let! root := get_detour_root_by_address old_fun in
  match root with
  | Some i => ret i
  | None =>
    let! r := push_new_root in
    match r with
    | None => throw EUNKNOWN
    | Some i =>
      let! n := get_next_function_index in
      upd_root i (fun r => {| index := n; root_addr := old_fun; detours := detours r |});;;
      ret i
    end
  end.

(** One unit of a patch; a throw is the early return of the function. *)
Definition apply_unit (ulp : ulp_metadata) (target : option bytes) (un : ulp_unit) : M unit :=
  let! old_fun := find_symbol target (old_fname un) (old_faddr un) in
  guard (old_fun =? 0) ENOOLDFUNC;;;
  let! new_fun := load_so_symbol (new_fname un) (so_handler ulp) in
  guard (new_fun =? 0) ENONEWFUNC;;;
  let! root := get_or_push_root old_fun in
  let! u := gets global_universe in
  let! ok := push_new_detour u (patch_id ulp) root new_fun in
  (if ok =? 0 then warn "error setting ulp data structure\n";;; throw EUNKNOWN else ret tt);;;
  let! retcode := on_core (ulp_patch_addr old_fun new_fun true) in
  (if 0 <? retcode then warn "error patching address %p";;; throw retcode else ret tt).

(** The [i]-th reference to data of the target. *)
Definition apply_ref (ulp : ulp_metadata) (target_base tls_idx patch_base : Z)
    (r : nat * ulp_reference) : M unit :=
  let (i, ref) := r in
  let! patch_address :=
    (if patch_offset ref =? 0 then
       let! a := load_so_symbol (reference_name ref) (so_handler ulp) in
       guard (a =? 0) ENONEWFUNC;;;
       upd_metadata (fun u => set_refs u (alter (fun ref =>
         {| target_name := target_name ref; reference_name := reference_name ref;
            target_offset := target_offset ref; patch_offset := u64 (a - patch_base);
            tls := tls ref |}) i (refs u)));;;
       ret a
     else ret (u64 (patch_base + patch_offset ref))) in
  (if tls ref then
     on_core (memwrite patch_address
       (le_bytes 8 tls_idx ++ le_bytes 8 (u64 (target_offset ref - TLS_DTV_OFFSET))) 16)
   else
     on_core (memwrite patch_address (le_bytes 8 (u64 (target_base + target_offset ref))) 8));;;
  ret tt.

Definition lib_base (target : option bytes) : M Z := fun s =>
  on_lib_diag (get_loaded_library_base_addr (dl_objects (loader s)) progname target) s.
Definition lib_tls (target : option bytes) : M Z := fun s =>
  on_lib_diag (get_loaded_library_tls_index (dl_objects (loader s)) progname target) s.

Definition call_dlinfo (handle : Z) : M (option Z) := fun s =>
  let (r, d) := dlinfo handle (loader s) in (Ok r, set_loader d s).

Definition ulp_apply_all_units : M Z := code (
  let! ulp := get_ulp in
  let! obj := get_obj in
  next_universe;;;
  let target := get_basename (obj_name obj) in
  for_each (units obj) (apply_unit ulp target);;;
  let! target_base := lib_base target in
  let! tls_idx := lib_tls target in
  (if target_base =? 0xFF then
     warn "Unable to find target library load address of %s";;; throw ENOADDRESS
   else ret tt);;;
  let! map := call_dlinfo (so_handler ulp) in
  match map with
  | None => warn "Error in call to dlinfo: %s";;; throw EUNKNOWN
  | Some patch_base =>
    (if patch_base =? 0 then
       warn "Unable to find target library load address: %s";;; throw ENOADDRESS
     else ret tt);;;
    for_each (imap pair (refs ulp)) (apply_ref ulp target_base (u64 tls_idx) patch_base);;;
    ret 0
  end).

(** *** The record of a patch *)

(** A failed allocation is the early [return 0]. *)
Definition alloc_or_fail (fmt : string) : lib_m D unit :=
  let! ok := lib_alloc in
  if ok then ret tt else warn fmt;;; throw 0.

Definition record_unit (ulp : ulp_metadata) (target : option bytes) (un : ulp_unit)
    : M ulp_applied_unit :=
  alloc_or_fail "Unable to allocate memory to update ulp state (unit).";;;
  let! a := find_symbol target (old_fname un) (old_faddr un) in
  (if a =? 0 then warn "Symbol %s not found in %s.";;; throw 0 else ret tt);;;
  let! n := load_so_symbol (new_fname un) (so_handler ulp) in
  guard (n =? 0) 0;;;
  let! old := on_core (read_code a 14) in
  ret {| patched_addr := a; target_addr := n; overwritten_bytes := old |}.

Fixpoint record_units (ulp : ulp_metadata) (target : option bytes) (l : list ulp_unit)
    : M (list ulp_applied_unit) :=
  match l with
  | [] => ret []
  | un :: l =>
    let! a := record_unit ulp target un in
    let! rest := record_units ulp target l in
    ret (a :: rest)
  end.

Definition strndup_or_fail (s : option bytes) : M bytes :=
  match s with
  | None => undef
  | Some s =>
    let! ok := lib_alloc in
    if ok then ret (strndup s ULP_PATH_LEN)
    else warn "Unable to allocate filename buffer state.";;; throw 0
  end.

(** 0 is [NULL]; otherwise the new entry is the head of the list. *)
Definition ulp_state_update : M Z := code (
  let! ulp := get_ulp in
  alloc_or_fail "Unable to allocate memory to update ulp state.";;;
  let! obj := get_obj in
  let target := get_basename (obj_name obj) in
  let! name := strndup_or_fail target in
  let! container := strndup_or_fail (so_filename ulp) in
  for_each (deps ulp) (fun _ => alloc_or_fail "Unable to allocate memory to ulp state dependency.");;;
  let! l := record_units ulp target (units obj) in
  modify (fun s => set_patches
    ({| applied_id := take 32 (patch_id ulp); lib_name := name; container_name := container;
        applied_units := l; applied_deps := rev (deps ulp); timestamp := now |} :: patches s) s);;;
  ret 1).

(** *** Reverting *)

Fixpoint log_times (n : nat) (fmt : string) : M unit :=
  match n with
  | O => ret tt
  | S n => warn fmt;;; log_times n fmt
  end.

Definition ulp_can_revert_patch (id : bytes) : M Z :=
  let! p := ulp_get_applied_patch id in
  match p with
  | None => warn "Can't revert because patch was not applied";;; ret ENOTAPPLIED
  | Some _ =>
    let! applied := gets patches in
    if existsb (fun p => existsb (fun dep => same_id (dep_id dep) id) (applied_deps p)) applied then
      warn "Can't revert. Dependency:\n   PATCH 0x";;; log_times 32 "%x ";;; warn "\n";;;
      ret EDEPEND
    else ret 0
  end.

(** The loops of [ulp_revert_all_units], over the detours of a root ([pre] are
    those already visited) and over the roots. *)
Definition deactivate (d : ulp_detour) : ulp_detour :=
  {| detour_id := detour_id d; universe := universe d; detour_target := detour_target d; active := false |}.

Fixpoint revert_detours (addr : Z) (id : bytes) (pre l : list ulp_detour) : M (list ulp_detour) :=
  match l with
  | [] => ret pre
  | d :: l =>
    if same_id (detour_id d) id then
      let d := deactivate d in
      match find active (pre ++ d :: l) with
      | None => on_core (ulp_patch_addr addr 0 false);;; ret tt
      | Some dactive => on_core (ulp_patch_addr addr (detour_target dactive) true);;; ret tt
      end;;;
      revert_detours addr id (pre ++ [d]) l
    else revert_detours addr id (pre ++ [d]) l
  end.

Fixpoint revert_roots (id : bytes) (l : list ulp_detour_root) : M (list ulp_detour_root) :=
  match l with
  | [] => ret []
  | r :: l =>
    let! ds := revert_detours (root_addr r) id [] (detours r) in
    let! l := revert_roots id l in
    ret ({| index := index r; root_addr := root_addr r; detours := ds |} :: l)
  end.

Definition ulp_revert_all_units (patch_id : bytes) : M Z :=
  let! l := gets roots in
  let! l := revert_roots patch_id l in
  modify (set_roots l);;; ret 1.

(** Remove the first patch with the id. *)
Fixpoint remove_patch (id : bytes) (l : list ulp_applied_patch) : option (list ulp_applied_patch) :=
  match l with
  | [] => None
  | p :: l => if same_id (applied_id p) id then Some l else option_map (cons p) (remove_patch id l)
  end.

Definition ulp_state_remove (id : bytes) : M Z :=
  let! l := gets patches in
  match remove_patch id l with
  | None => ret 0
  | Some l => modify (set_patches l);;; ret 1
  end.

Definition ulp_revert_patch (id : bytes) : M Z :=
  next_universe;;;
  let! r := ulp_revert_all_units id in
  if negb (r =? 0) then
    let! r := ulp_state_remove id in
    if r =? 0 then warn "Problem updating state. Program may be inconsistent.";;; ret ESTATE
    else ret 0
  else ret 0.

(** The walk over the list, which removes none but the current element. [fuel]
    bounds the iterations. *)
Fixpoint revert_loop (fuel : nat) (name : bytes) (ret0 : Z) (l : list ulp_applied_patch) : M Z :=
  match fuel with
  | O => nofuel
  | S fuel =>
    match l with
    | [] => ret ret0
    | patch :: next =>
      if byte_eqb (strndup name ULP_PATH_LEN) (strndup (lib_name patch) ULP_PATH_LEN) then
        let! r := ulp_can_revert_patch (applied_id patch) in
        if negb (r =? 0) then revert_loop fuel name r (patch :: next)   (* continue *)
        else
          let! r := ulp_revert_patch (applied_id patch) in
          if negb (r =? 0) then throw r else revert_loop fuel name r next
      else revert_loop fuel name ret0 next
    end
  end.

Definition revert_all_patches_from_lib (fuel : nat) (lib_name : bytes) : M Z := code (
  let! l := gets patches in
  match get_basename (Some lib_name) with
  | None => undef
  | Some lib_basename =>
    if ULP_PATH_LEN <=? zlen (cstr lib_name) - zlen (cstr lib_basename) then
      warn "Path buffer overflow, aborting revert...";;; ret EOVERFLOW
    else
      let! r := revert_loop fuel lib_basename ENOTARGETLIB l in
      if r =? ENOTARGETLIB then
        let! base := lib_base (Some lib_basename) in
        ret (if negb (base =? 0xFF) then ENOPATCH else r)
      else ret r
  end).

(** *** The entry points *)

Definition load_patch : M Z :=
  let! r := load_metadata in
  let (loaded, err) := r in
  if negb loaded then ret err
  else
    let! ulp := get_ulp in
    let! r :=
      (if type ulp =? 1 then
         let! entry := ulp_state_update in
         if entry =? 0 then ret ESTATE
         else
           let! r := ulp_apply_all_units in
           (if negb (r =? 0) then
              warn "FATAL ERROR while applying patch units\n";;;
              on_lib_diag (modify (libpulp_exit_func r))
            else ret tt);;;
           ret r
       else if type ulp =? 2 then
         let! r := ulp_can_revert_patch (patch_id ulp) in
         if negb (r =? 0) then ret r
         else
           let! r := ulp_revert_patch (patch_id ulp) in
           (if negb (r =? 0) then warn "Unable to revert patch." else ret tt);;;
           ret r
       else if type ulp =? 0 then warn "load patch metadata error";;; ret ENOMETA
       else warn "Unknown load metadata status";;; ret EUNKNOWN) in
    unload_metadata;;; ret r.

(** What every request does first. *)
Definition entry_checks (body : M Z) : M Z :=
  let! d := gets lib_diag in
  if libpulp_is_in_error_state d then ret (get_libpulp_error_state d)
  else
    let! r := on_core (on_queue insnq_ensure_emptiness) in
    if negb (r =? 0) then let! d := gets lib_diag in ret (get_libpulp_error_state d)
    else
      let! busy := on_lib_locks __ulp_asunsafe_trylock in
      if negb (busy =? 0) then ret EAGAIN
      else
        on_lib_locks __ulp_asunsafe_unlock;;;
        body.

Definition __ulp_apply_patch : M Z := entry_checks load_patch.

Definition __ulp_revert_patches_from_lib (fuel : nat) : M Z := entry_checks (
  let! buf := gets metadata_buffer in
  revert_all_patches_from_lib fuel (cstr buf)).

Definition __ulp_check_applied_patch : M Z :=
  let! d := gets lib_diag in
  if libpulp_is_in_error_state d then ret 0
  else
    let! buf := gets metadata_buffer in
    let! patch := ulp_get_applied_patch buf in
    ret (match patch with Some _ => 1 | None => 0 end).

Definition __ulp_get_global_universe_value : M Z := gets global_universe.

(** The function is [void], and its local [target] is lost when it returns;
    [libpulp_exit] returns, so without a root a null pointer is followed. *)
Definition __ulp_manage_universes (idx : Z) : M unit :=
  let! root := get_detour_root_by_index (u32 idx) in
  (match root with
   | None => warn "FATAL ERROR While Live Patching.";;; on_lib_diag (modify (libpulp_exit_func (-1)))
   | Some _ => ret tt
   end);;;
  let! rs := gets roots in
  match root with
  | None => undef
  | Some i =>
    match rs !! i with
    | None => undef
    | Some r =>
      let target := match find active (detours r) with Some d => detour_target d | None => 0 end in
      let target := if target =? 0 then u64 (root_addr r + 2) else target in
      ret tt
    end
  end.

(** The constructor. *)
Definition begin_constructor : M unit :=
  modify (set_load_state 1);;; warn "libpulp loaded...\n".
End operations.
