(* ===== verification/PatchCoherence.v ===== *)
(** * Detours and the program's code agree

    The invariant of libpulp: for every patched function, a call goes where the
    newest active detour says. The queue stands between the two: the invariant
    speaks of the memory once the queued writes are done. *)

From stdpp Require Import gmap.
From S2P Require Import Prelude Errors Memory Metadata InsnQueue Arch SymbolLoader Interpose PatchCore.

Open Scope ulp_scope.

(** ** Patching several functions through one queue *)

Lemma written_app l k m : written (l ++ k) m = written k (written l m).
Proof. apply fold_left_app. Qed.

Section ready.
Context `{ArchLaws}.

(** Prologues that do not meet. *)
Definition apart (f g : Z) : Prop := prologue_end f <= prologue_start g \/ prologue_end g <= prologue_start f.

Lemma apart_sym f g : apart f g -> apart g f.
Proof. unfold apart. tauto. Qed.

Definition all_apart (F : list Z) : Prop := forall f g, In f F -> In g F -> f <> g -> apart f g.

(** The functions [F] can be patched now, though the code that decides how sees
    the memory [m] and not the pending writes [l]. *)
Record ready (m : mem) (l : list insn) (F : list Z) : Prop := {
  ready_now : forall f, In f F -> livepatchable m f;
  ready_then : forall f, In f F -> livepatchable (written l m) f;
  ready_same : forall f new, In f F -> patch_writes (written l m) f new = patch_writes m f new }.

(** A write within the prologue of one of [F]. *)
Definition in_prologues (F : list Z) (i : insn) : Prop :=
  match i with
  | IPrint _ => True
  | IWrite a bs => exists f, In f F /\ prologue_start f <= a /\ a + zlen bs <= prologue_end f
  end.

(** More writes, all within these prologues. *)
Definition extends (F : list Z) (l l' : list insn) : Prop := exists k, l' = l ++ k /\ Forall (in_prologues F) k.

Lemma extends_refl F l : extends F l l.
Proof. exists []. by rewrite app_nil_r. Qed.

Lemma extends_trans F l1 l2 l3 : extends F l1 l2 -> extends F l2 l3 -> extends F l1 l3.
Proof. intros (k1 & -> & H1') (k2 & -> & H2'). exists (k1 ++ k2). rewrite app_assoc. split; [done|]. by apply Forall_app. Qed.

Lemma extends_patch F m f new l : livepatchable m f -> In f F -> extends F l (l ++ patch_writes m f new).
Proof.
  intros Hl Hf. exists (patch_writes m f new). split; [done|].
  eapply Forall_impl; [|exact (confined_law m f new Hl)]. intros [text|a bs] Hi; [done|]. by exists f.
Qed.

Lemma ready_start m F : (forall f, In f F -> livepatchable m f) -> ready m [] F.
Proof. by split. Qed.

Lemma ready_sub m l F G : ready m l F -> (forall f, In f G -> In f F) -> ready m l G.
Proof. intros [? ? ?] Hs. split; eauto. Qed.

(** What one more patch changes. *)
Lemma ready_patch m l F f new :
  ready m l F -> all_apart F -> In f F -> (forall a, new = Some a -> in_u 64 a) ->
  let l' := l ++ patch_writes m f new in
  ready m l' F /\ target (written l' m) f = new /\
  (forall g, In g F -> g <> f -> target (written l' m) g = target (written l m) g) /\
  (forall x, x < prologue_start f \/ prologue_end f <= x -> written l' m !! x = written l m !! x).
Proof.
  intros [Hn Ht Hs] Hap Hf Hb l'. unfold l'. rewrite written_app, <- (Hs f new Hf).
  destruct (writes_law _ _ _ (Ht f Hf) Hb) as (Hlp & Htgt & Hout).
  assert (Hfr : forall g, In g F -> g <> f -> forall x, prologue_start g <= x < prologue_end g ->
    written (patch_writes (written l m) f new) (written l m) !! x = written l m !! x).
  { intros g Hg Hne x Hx. apply Hout. destruct (Hap g f Hg Hf Hne); lia. }
  split; [|split; [done|split; [|done]]].
  - split; [done| |].
    + intros g Hg. rewrite written_app. destruct (Z.eq_dec g f) as [->|Hne]; [done|].
      by apply (frame_law _ _ _ (Ht g Hg)), Hfr.
    + intros g new' Hg. rewrite written_app. destruct (Z.eq_dec g f) as [->|Hne].
      * rewrite stable_law by auto. by apply Hs.
      * destruct (frame_law _ _ _ (Ht g Hg) (Hfr g Hg Hne)) as (_ & _ & E). by rewrite E, Hs.
  - intros g Hg Hne. by apply (frame_law _ _ _ (Ht g Hg)), Hfr.
Qed.

(** A write that avoids the prologues. *)
Lemma ready_data m l F a bs :
  ready m l F ->
  (forall f, In f F -> prologue_end f <= a \/ a + zlen bs <= prologue_start f) ->
  ready m (l ++ [IWrite a bs]) F /\
  (forall g, In g F -> target (written (l ++ [IWrite a bs]) m) g = target (written l m) g).
Proof.
  intros [Hn Ht Hs] Hav.
  assert (Hfr : forall g, In g F -> forall x, prologue_start g <= x < prologue_end g ->
    written (l ++ [IWrite a bs]) m !! x = written l m !! x).
  { intros g Hg x Hx. rewrite written_app. simpl. apply mem_write_lookup_out. destruct (Hav g Hg); lia. }
  split; [split|]; try done.
  - intros g Hg. by apply (frame_law _ _ _ (Ht g Hg)), Hfr.
  - intros g new Hg. destruct (frame_law _ _ _ (Ht g Hg) (Hfr g Hg)) as (_ & _ & E). by rewrite E, Hs.
  - intros g Hg. by apply (frame_law _ _ _ (Ht g Hg)), Hfr.
Qed.
End ready.

(** ** The invariant *)

Definition active_target (ds : list ulp_detour) : option Z := option_map detour_target (find active ds).

Definition root_addrs (rs : list ulp_detour_root) : list Z := map root_addr rs.

Section coherent.
Context `{ArchLaws}.

(** In memory [m]. *)
Record coherent (m : mem) (rs : list ulp_detour_root) : Prop := {
  coh_unique : NoDup (root_addrs rs);
  coh_patchable : forall f, In f (root_addrs rs) -> livepatchable m f;
  coh_targets : forall r d, In r rs -> In d (detours r) -> in_u 64 (detour_target d);
  coh_target : forall r, In r rs -> target m (root_addr r) = active_target (detours r) }.
End coherent.

(** ** Steps that change no more than messages and counts *)

(** What every step of a request keeps. *)
Record kept {D} (s s' : lib_state D) : Prop := {
  k_load : load_state s' = load_state s;
  k_patches : patches s' = patches s;
  k_universe : global_universe s' = global_universe s;
  k_buffer : metadata_buffer s' = metadata_buffer s;
  k_mem : code_mem (core s') = code_mem (core s);
  k_loader : loader s' = loader s;
  k_locks : lib_locks s' = lib_locks s;
  k_err : err_state (lib_diag s') = err_state (lib_diag s) }.

Record quiet {D} (s s' : lib_state D) : Prop := {
  q_kept : kept s s';
  q_roots : roots s' = roots s;
  q_counter : root_index_counter s' = root_index_counter s;
  q_ref : metadata_ref s' = metadata_ref s;
  q_queue : queue (code_q (core s')) = queue (code_q (core s)) }.

#[export] Instance kept_preorder D : PreOrder (@kept D).
Proof.
  split; [by split|]. intros s1 s2 s3 [] []. split; congruence.
Qed.

#[export] Instance quiet_preorder D : PreOrder (@quiet D).
Proof.
  split; [by split|]. intros s1 s2 s3 [Hk1] [Hk2].
  split; [by etransitivity|congruence..].
Qed.

Lemma warn_quiet {D} fmt (s : lib_state D) : exists s', warn fmt s = (Ok tt, s') /\ quiet s s'.
Proof. eexists. split; [reflexivity|]. by repeat split. Qed.

(** ** Calls of the architecture code *)

Section patching.
Context {D : Type} `{ArchLaws}.
Implicit Types s : lib_state D.

(** [s'] is [s] with the queue holding [l'] instead of [l]: the functions [F]
    are still ready, and no byte outside their prologues differs. *)
Record requeued (F : list Z) s l s' l' : Prop := {
  rq_kept : kept s s';
  rq_roots : roots s' = roots s;
  rq_counter : root_index_counter s' = root_index_counter s;
  rq_holds : queue_holds (queue (code_q (core s'))) l';
  rq_ready : ready (code_mem (core s)) l' F;
  rq_confined : forall x, (forall f, In f F -> x < prologue_start f \/ prologue_end f <= x) ->
    written l' (code_mem (core s)) !! x = written l (code_mem (core s)) !! x;
  rq_extends : extends F l l' }.

#[local] Hint Resolve extends_refl extends_trans : core.

Lemma requeued_trans F s1 l1 s2 l2 s3 l3 :
  requeued F s1 l1 s2 l2 -> requeued F s2 l2 s3 l3 -> requeued F s1 l1 s3 l3.
Proof.
  intros [K1 R1 C1 H1 Y1 F1 X1] [K2 R2 C2 H2 Y2 F2 X2]. pose proof (k_mem _ _ K1) as Em.
  rewrite Em in *. split; [by etransitivity|congruence..|done|done| |by eauto].
  intros x Hx. by rewrite F2, F1.
Qed.

(** One call of [ulp_patch_addr]; [None] removes the patch. *)
Definition patch_call (f : Z) (new : option Z) : lib_m D Z :=
  on_core (ulp_patch_addr f (default 0 new) (bool_decide (is_Some new))).

Lemma patch_call_ok F f new s l :
  queue_holds (queue (code_q (core s))) l -> ready (code_mem (core s)) l F -> all_apart F -> In f F ->
  (forall a, new = Some a -> in_u 64 a) ->
  q_size (queue (code_q (core s))) + patch_room <= INSN_BUFFER_MAX ->
  let l' := l ++ patch_writes (code_mem (core s)) f new in
  exists s', patch_call f new s = (Ok 0, s') /\ requeued F s l s' l' /\
    q_size (queue (code_q (core s'))) <= q_size (queue (code_q (core s))) + patch_room /\
    target (written l' (code_mem (core s))) f = new /\
    (forall g, In g F -> g <> f ->
       target (written l' (code_mem (core s))) g = target (written l (code_mem (core s))) g).
Proof.
  intros Hq Hr Hap Hf Hb Hroom l'. unfold patch_call, on_core.
  assert (Hnew : (if (bool_decide (is_Some new)) then Some (default 0 new) else None) = new) by (by destruct new).
  pose proof (room_law (code_mem (core s)) f new (ready_now _ _ _ Hr f Hf)) as Hrm.
  destruct (patch_law f (default 0 new) (bool_decide (is_Some new)) (core s) l) as (c' & E & Em & Hh & Hs & He).
  { by apply (ready_now _ _ _ Hr). }
  { destruct new as [a|]; [by apply Hb|]. unfold in_u. simpl. lia. }
  { done. }
  { rewrite Hnew. lia. }
  rewrite Hnew in *. rewrite E. eexists. split; [reflexivity|].
  destruct (ready_patch _ l F f new Hr Hap Hf Hb) as (Hr' & Ht & Hg & Hx).
  split; [|split; [simpl; lia|by split]].
  split; try done; [intros x Hout; by apply Hx, Hout|]. apply extends_patch; [by apply (ready_now _ _ _ Hr)|done].
Qed.

Definition drop_id (id : bytes) (d : ulp_detour) : ulp_detour :=
  if same_id (detour_id d) id then deactivate d else d.

Definition n_detours (id : bytes) (ds : list ulp_detour) : nat :=
  length (List.filter (fun d => same_id (detour_id d) id) ds).

Lemma drop_targets id ds d : In d (map (drop_id id) ds) ->
  exists d0, In d0 ds /\ detour_target d = detour_target d0.
Proof.
  intros (d0 & <- & Hin)%in_map_iff. exists d0. split; [done|]. unfold drop_id. by destruct (same_id _ _).
Qed.

Lemma room_step a b c r n : a <= b + r -> c <= a + Z.of_nat n * r -> c <= b + Z.of_nat (S n) * r.
Proof. lia. Qed.

Lemma room_split b r n k : 0 <= r -> b + Z.of_nat (n + k) * r <= INSN_BUFFER_MAX ->
  b + Z.of_nat n * r <= INSN_BUFFER_MAX /\ (forall c, c <= b + Z.of_nat n * r -> c + Z.of_nat k * r <= INSN_BUFFER_MAX).
Proof. unfold INSN_BUFFER_MAX. split; [|intros]; nia. Qed.

Lemma patch_room_nonneg F m l f : ready m l F -> In f F -> 0 <= patch_room.
Proof. intros Hr Hf. pose proof (room_law m f None (ready_now _ _ _ Hr f Hf)). lia. Qed.

Lemma revert_detours_ok F addr id l : forall pre s lq,
  queue_holds (queue (code_q (core s))) lq -> ready (code_mem (core s)) lq F -> all_apart F -> In addr F ->
  (forall d, In d (pre ++ l) -> in_u 64 (detour_target d)) ->
  q_size (queue (code_q (core s))) + Z.of_nat (n_detours id l) * patch_room <= INSN_BUFFER_MAX ->
  target (written lq (code_mem (core s))) addr = active_target (pre ++ l) ->
  exists s' lq', revert_detours addr id pre l s = (Ok (pre ++ map (drop_id id) l), s') /\
    requeued F s lq s' lq' /\
    q_size (queue (code_q (core s'))) <= q_size (queue (code_q (core s))) + Z.of_nat (n_detours id l) * patch_room /\
    target (written lq' (code_mem (core s))) addr = active_target (pre ++ map (drop_id id) l) /\
    (forall g, In g F -> g <> addr ->
       target (written lq' (code_mem (core s))) g = target (written lq (code_mem (core s))) g).
Proof.
  induction l as [|d l IH]; intros pre s lq Hq Hr Hap Hin Hb Hroom Ht.
  - exists s, lq. simpl. rewrite app_nil_r in *. split; [done|].
    split; [by split|]. split; [change (n_detours id []) with 0%nat; lia|]. by split.
  - pose proof (patch_room_nonneg _ _ _ _ Hr Hin) as Hpos.
    cbn [revert_detours map]. unfold drop_id at 1 3. unfold n_detours in *.
    destruct (same_id (detour_id d) id) eqn:Hid.
    + cbn [List.filter] in *. rewrite Hid in *. cbn [length] in *.
      set (pre' := pre ++ deactivate d :: l).
      assert (Hcall : (match find active pre' with
          | None => on_core (ulp_patch_addr addr 0 false);;; ret tt
          | Some dactive => on_core (ulp_patch_addr addr (detour_target dactive) true);;; ret tt
          end) = (patch_call addr (active_target pre');;; ret tt)).
      { unfold patch_call, active_target. by destruct (find active pre'). }
      cbv zeta. fold pre'. rewrite Hcall.
      destruct (patch_call_ok F addr (active_target pre') s lq Hq Hr Hap Hin) as (s1 & E1 & R1 & Z1 & T1 & G1).
      { intros a Ha. unfold active_target in Ha. destruct (find active pre') as [x|] eqn:Ef; [|done].
        injection Ha as <-. apply find_some in Ef as [Hx _]. unfold pre' in Hx.
        apply in_app_iff in Hx as [Hx|[<-|Hx]].
        - apply Hb, in_app_iff. by left.
        - apply (Hb d), in_app_iff. by right; left.
        - apply Hb, in_app_iff. by right; right. }
      { nia. }
      rewrite bind_assoc, (bind_ok _ _ _ _ _ E1), ret_bind.
      pose proof (k_mem _ _ (rq_kept _ _ _ _ _ R1)) as Em.
      destruct (IH (pre ++ [deactivate d]) s1 _ (rq_holds _ _ _ _ _ R1)) as (s2 & lq2 & E2 & R2 & Z2 & T2 & G2).
      * rewrite Em. apply (rq_ready _ _ _ _ _ R1).
      * done.
      * done.
      * intros x Hx. rewrite <- app_assoc in Hx. apply in_app_iff in Hx as [Hx|[<-|Hx]].
        -- apply Hb, in_app_iff. by left.
        -- apply (Hb d), in_app_iff. by right; left.
        -- apply Hb, in_app_iff. by right; right.
      * nia.
      * rewrite Em, <- app_assoc. done.
      * rewrite <- app_assoc in E2, T2. exists s2, lq2. rewrite Em in T2, G2.
        split; [done|]. split; [by eapply requeued_trans|]. split; [nia|]. split; [done|].
        intros g Hg Hne. by rewrite G2, G1.
    + cbn [List.filter] in *. rewrite Hid in *.
      destruct (IH (pre ++ [d]) s lq Hq Hr Hap Hin) as (s2 & lq2 & E2 & R2 & Z2 & T2 & G2);
        rewrite <- ?app_assoc; try done.
      rewrite <- app_assoc in E2, T2. by exists s2, lq2.
Qed.

Definition drop_root (id : bytes) (r : ulp_detour_root) : ulp_detour_root :=
  {| index := index r; root_addr := root_addr r; detours := map (drop_id id) (detours r) |}.

Definition n_root_detours (id : bytes) (rs : list ulp_detour_root) : nat :=
  fold_right (fun r n => n_detours id (detours r) + n)%nat 0%nat rs.

Lemma revert_roots_ok F id l : forall s lq,
  queue_holds (queue (code_q (core s))) lq -> ready (code_mem (core s)) lq F -> all_apart F ->
  (forall r, In r l -> In (root_addr r) F) -> NoDup (root_addrs l) ->
  (forall r d, In r l -> In d (detours r) -> in_u 64 (detour_target d)) ->
  q_size (queue (code_q (core s))) + Z.of_nat (n_root_detours id l) * patch_room <= INSN_BUFFER_MAX ->
  (forall r, In r l -> target (written lq (code_mem (core s))) (root_addr r) = active_target (detours r)) ->
  exists s' lq', revert_roots id l s = (Ok (map (drop_root id) l), s') /\
    requeued F s lq s' lq' /\
    q_size (queue (code_q (core s'))) <=
      q_size (queue (code_q (core s))) + Z.of_nat (n_root_detours id l) * patch_room /\
    (forall r, In r l ->
       target (written lq' (code_mem (core s))) (root_addr r) = active_target (map (drop_id id) (detours r))) /\
    (forall g, In g F -> ~ In g (root_addrs l) ->
       target (written lq' (code_mem (core s))) g = target (written lq (code_mem (core s))) g).
Proof.
  induction l as [|r l IH]; intros s lq Hq Hr Hap Hin Hnd Hb Hroom Ht.
  - exists s, lq. split; [done|]. split; [by split|]. split; [simpl; lia|]. by split.
  - assert (Hpos : 0 <= patch_room) by (eapply patch_room_nonneg; [done|apply (Hin r); by left]).
    cbn [n_root_detours fold_right] in *. fold (n_root_detours id l) in *.
    inversion_clear Hnd as [|? ? Hnotin Hnd'].
    destruct (room_split _ _ _ _ Hpos Hroom) as [Hroom1 Hroom2].
    destruct (revert_detours_ok F (root_addr r) id (detours r) [] s lq Hq Hr Hap)
      as (s1 & lq1 & E1 & R1 & Z1 & T1 & G1); [by apply Hin; left|intros d; apply Hb; by left|done|by apply Ht; left|].
    pose proof (k_mem _ _ (rq_kept _ _ _ _ _ R1)) as Em.
    assert (Hne : forall r', In r' l -> root_addr r' <> root_addr r).
    { intros r' Hr' He. apply Hnotin. rewrite <- He. by apply in_map. }
    destruct (IH s1 lq1 (rq_holds _ _ _ _ _ R1)) as (s2 & lq2 & E2 & R2 & Z2 & T2 & G2).
    { rewrite Em. apply (rq_ready _ _ _ _ _ R1). }
    { done. }
    { intros r' Hr'. apply Hin. by right. }
    { done. }
    { intros r' d Hr'. apply Hb. by right. }
    { by apply Hroom2. }
    { intros r' Hr'. rewrite Em, G1; [apply Ht; by right|apply Hin; by right|by apply Hne]. }
    rewrite Em in T2, G2. exists s2, lq2. cbn [revert_roots map].
    rewrite (bind_ok _ _ _ _ _ E1), (bind_ok _ _ _ _ _ E2).
    split; [done|]. split; [by eapply requeued_trans|]. split; [lia|]. split.
    + intros r' [<-|Hr']; [|by apply T2]. rewrite G2; [done|by apply Hin; left|done].
    + intros g Hg Hni. rewrite G2, G1; [done|done| |done|]; intros Hx; apply Hni; [by left|by right].
Qed.

(** *** The whole of a reversal *)

Lemma coherent_drop m m' id rs :
  coherent m rs -> (forall f, In f (root_addrs rs) -> livepatchable m' f) ->
  (forall r, In r rs -> target m' (root_addr r) = active_target (map (drop_id id) (detours r))) ->
  coherent m' (map (drop_root id) rs).
Proof.
  intros [Hu Hp Hb Ht] Hp' Ht'.
  assert (Ha : root_addrs (map (drop_root id) rs) = root_addrs rs) by (unfold root_addrs; by rewrite map_map).
  split; rewrite ?Ha; try done.
  - intros r d (r0 & <- & Hr)%in_map_iff Hd. destruct (drop_targets _ _ _ Hd) as (d0 & Hd0 & ->). eauto.
  - intros r (r0 & <- & Hr)%in_map_iff. exact (Ht' r0 Hr).
Qed.

Lemma ulp_revert_all_units_ok F id s lq :
  queue_holds (queue (code_q (core s))) lq -> ready (code_mem (core s)) lq F -> all_apart F ->
  (forall f, In f (root_addrs (roots s)) -> In f F) ->
  coherent (written lq (code_mem (core s))) (roots s) ->
  q_size (queue (code_q (core s))) + Z.of_nat (n_root_detours id (roots s)) * patch_room <= INSN_BUFFER_MAX ->
  exists s0 s' lq', ulp_revert_all_units id s = (Ok 1, s') /\
    s' = set_roots (map (drop_root id) (roots s)) s0 /\ requeued F s lq s0 lq' /\
    q_size (queue (code_q (core s0))) <=
      q_size (queue (code_q (core s))) + Z.of_nat (n_root_detours id (roots s)) * patch_room /\
    coherent (written lq' (code_mem (core s))) (roots s') /\
    (forall g, In g F -> ~ In g (root_addrs (roots s)) ->
       target (written lq' (code_mem (core s))) g = target (written lq (code_mem (core s))) g).
Proof.
  intros Hq Hr Hap HF Hc Hroom. pose proof Hc as [Hu Hp Hb Ht].
  destruct (revert_roots_ok F id (roots s) s lq Hq Hr Hap) as (s1 & lq1 & E1 & R1 & Z1 & T1 & G1); try done.
  { intros r Hr'. apply HF. by apply in_map. }
  exists s1, (set_roots (map (drop_root id) (roots s)) s1), lq1.
  split; [|split; [done|split; [done|split; [done|split; [|done]]]]].
  - unfold ulp_revert_all_units, bind at 1, gets. by rewrite (bind_ok _ _ _ _ _ E1).
  - apply (coherent_drop _ _ id _ Hc); [|done].
    intros f Hf. apply (ready_then _ _ _ (rq_ready _ _ _ _ _ R1)), HF, Hf.
Qed.
End patching.

#[export] Hint Resolve extends_refl : core.

(** ** Applying a patch *)

Lemma position_some {A} (p : A -> bool) l i :
  position p l = Some i -> exists x, l !! i = Some x /\ p x = true.
Proof.
  revert i. induction l as [|x l IH]; intros i; simpl; [done|]. destruct (p x) eqn:E.
  - intros [= <-]. by exists x.
  - destruct (position p l) as [j|]; [|done]. intros [= <-]. by apply IH.
Qed.

Lemma position_none {A} (p : A -> bool) l : position p l = None -> forall x, In x l -> p x = false.
Proof.
  induction l as [|x l IH]; simpl; [done|]. destruct (p x) eqn:E; [done|].
  destruct (position p l); [done|]. intros _ y [<-|Hy]; [done|by apply IH].
Qed.

(** The roots, and the counter, once a function has one more detour. *)
Definition push_detour (d : ulp_detour) (r : ulp_detour_root) : ulp_detour_root :=
  {| index := index r; root_addr := root_addr r; detours := d :: detours r |}.

Definition add_detour (rs : list ulp_detour_root) (n a : Z) (d : ulp_detour) : list ulp_detour_root * Z :=
  match position (fun r => root_addr r =? a) rs with
  | Some i => (alter (push_detour d) i rs, n)
  | None => ({| index := n; root_addr := a; detours := [d] |} :: rs, u32 (n + 1))
  end.

Lemma in_alter {A} (f : A -> A) i l x :
  In x (alter f i l) -> (exists r, l !! i = Some r /\ x = f r) \/ (exists j, j <> i /\ l !! j = Some x).
Proof.
  intros (j & Hj)%list_elem_of_In%list_elem_of_lookup_1. rewrite list_lookup_alter in Hj.
  destruct (decide (i = j)) as [->|Hne]; [|right; by exists j].
  destruct (l !! j) as [r|]; [|done]. injection Hj as <-. left. by exists r.
Qed.

Lemma lookup_In {A} (l : list A) i x : l !! i = Some x -> In x l.
Proof. intros Hi. by eapply list_elem_of_In, list_elem_of_lookup_2. Qed.

Lemma root_addrs_unique rs i j r r' :
  NoDup (root_addrs rs) -> rs !! i = Some r -> rs !! j = Some r' -> root_addr r = root_addr r' -> i = j.
Proof.
  intros Hnd Hi Hj He. apply NoDup_ListNoDup in Hnd.
  eapply (NoDup_lookup (root_addrs rs)); [done| |].
  - unfold root_addrs. change (map root_addr rs) with (root_addr <$> rs). rewrite list_lookup_fmap, Hi. done.
  - unfold root_addrs. change (map root_addr rs) with (root_addr <$> rs). rewrite list_lookup_fmap, Hj. simpl. by rewrite He.
Qed.

Lemma root_addrs_alter d i rs : root_addrs (alter (push_detour d) i rs) = root_addrs rs.
Proof.
  revert i. induction rs as [|r rs IH]; intros [|i]; [done..|].
  unfold root_addrs in *. simpl. f_equal. apply IH.
Qed.

Lemma add_detour_addrs rs n a d f :
  In f (root_addrs (add_detour rs n a d).1) <-> f = a \/ In f (root_addrs rs).
Proof.
  unfold add_detour. destruct (position _ rs) as [i|] eqn:Hp; simpl.
  - rewrite root_addrs_alter. split; [auto|]. intros [-> |]; [|done].
    apply position_some in Hp as (r & Hi & He). apply Z.eqb_eq in He. subst.
    apply in_map. eapply list_elem_of_In, list_elem_of_lookup_2, Hi.
  - firstorder.
Qed.

(** Every root is as it was, or is the one that got the detour. *)
Lemma add_detour_roots rs n a d r :
  NoDup (root_addrs rs) -> In r (add_detour rs n a d).1 ->
  (root_addr r = a /\ exists ds, detours r = d :: ds /\
     ((ds = [] /\ ~ In a (root_addrs rs)) \/ exists r0, In r0 rs /\ root_addr r0 = a /\ ds = detours r0)) \/
  (root_addr r <> a /\ In r rs).
Proof.
  intros Hnd. unfold add_detour. destruct (position _ rs) as [i|] eqn:Hp; simpl.
  - apply position_some in Hp as (r0 & Hi & He). apply Z.eqb_eq in He.
    intros [(r1 & Hi1 & ->)|(j & Hne & Hj)]%in_alter.
    + rewrite Hi in Hi1. injection Hi1 as <-. left. split; [done|]. exists (detours r0). split; [done|].
      right. exists r0. split; [by eapply lookup_In|done].
    + right. split; [|by eapply lookup_In]. intros Ha. apply Hne. symmetry.
      eapply root_addrs_unique; [done..|congruence].
  - intros [<-|Hr].
    + left. split; [done|]. exists []. split; [done|]. left. split; [done|].
      intros (r & Ha & Hr)%in_map_iff. apply (position_none _ _ Hp) in Hr. by apply Z.eqb_neq in Hr.
    + right. split; [|done]. apply (position_none _ _ Hp) in Hr. by apply Z.eqb_neq in Hr.
Qed.

Lemma add_detour_nodup rs n a d : NoDup (root_addrs rs) -> NoDup (root_addrs (add_detour rs n a d).1).
Proof.
  intros Hnd. unfold add_detour. destruct (position _ rs) as [i|] eqn:Hp; simpl.
  - by rewrite root_addrs_alter.
  - constructor; [|done]. intros (r & Ha & Hr)%in_map_iff.
    apply (position_none _ _ Hp) in Hr. apply Z.eqb_neq in Hr. done.
Qed.

Lemma coherent_add `{ArchLaws} m m' rs n a d :
  coherent m rs -> in_u 64 (detour_target d) -> active d = true ->
  (forall f, f = a \/ In f (root_addrs rs) -> livepatchable m' f) ->
  target m' a = Some (detour_target d) ->
  (forall g, In g (root_addrs rs) -> g <> a -> target m' g = target m g) ->
  coherent m' (add_detour rs n a d).1.
Proof.
  intros [Hu Hp Hb Ht] Hd Hact Hp' Ha Hg. split.
  - by apply add_detour_nodup.
  - intros f Hf. by apply Hp', (add_detour_addrs rs n a d).
  - intros r d' Hr Hd'. apply add_detour_roots in Hr as [(_ & ds & E & Hds)|[_ Hr]]; [|eauto|done].
    rewrite E in Hd'. destruct Hd' as [<-|Hd']; [done|].
    destruct Hds as [[-> _]|(r0 & Hr0 & _ & ->)]; [done|eauto].
  - intros r Hr. apply add_detour_roots in Hr as [(Er & ds & E & _)|[Hne Hr]]; [| |done].
    + rewrite Er, E, Ha. unfold active_target. simpl. by rewrite Hact.
    + rewrite Hg; [by apply Ht|by apply in_map|done].
Qed.

Section applying.
Context {D : Type} `{Libdl D} `{ArchLaws}.
Variable progname : bytes.
Variable alloc_ok : nat -> bool.
Hypothesis alloc_all : forall k, alloc_ok k = true.
Implicit Types s : lib_state D.

(** What a symbol of the target resolves to, whatever the error state. *)
Definition resolves (d : D) (target : option bytes) (un : ulp_unit) (a : Z) : Prop :=
  forall dg, exists dg',
    get_loaded_symbol_addr (dl_objects d) progname target (old_fname un) (old_faddr un) dg = (Ok a, dg') /\
    err_state dg' = err_state dg.

(** A unit of a patch with the addresses of its two functions. *)
Record unit_resolved (d : D) (handle : Z) (target : option bytes) (un : ulp_unit) (an : Z * Z) : Prop := {
  ur_old : resolves d target un an.1;
  ur_new : dlsym handle (cstr (new_fname un)) d = (an.2, false, d);
  ur_new_range : an.2 <> 0 /\ in_u 64 an.2 }.

Lemma find_symbol_ok s target un a :
  resolves (loader s) target un a ->
  exists s', find_symbol progname target (old_fname un) (old_faddr un) s = (Ok a, s') /\ quiet s s'.
Proof using.
  intros Hr. unfold find_symbol, on_lib_diag. destruct (Hr (lib_diag s)) as (dg' & -> & He).
  eexists. split; [reflexivity|]. by repeat split.
Qed.

Lemma load_so_symbol_ok s h f a :
  dlsym h (cstr f) (loader s) = (a, false, loader s) ->
  exists s', load_so_symbol f h s = (Ok a, s') /\ quiet s s'.
Proof using.
  intros E. unfold load_so_symbol. rewrite E. eexists. split; [reflexivity|]. by repeat split.
Qed.

Lemma lib_alloc_ok s : exists s', lib_alloc alloc_ok s = (Ok true, s') /\ quiet s s'.
Proof using alloc_all.
  unfold lib_alloc. rewrite alloc_all. eexists. split; [reflexivity|]. by repeat split.
Qed.

(** The detour of a unit, where its root is. *)
Lemma get_or_push_root_ok s a :
  exists i rs n s', get_or_push_root alloc_ok a s = (Ok i, s') /\ quiet (set_roots rs (set_counter n s)) s' /\
    forall d, (alter (push_detour d) i rs, n) = add_detour (roots s) (root_index_counter s) a d.
Proof using alloc_all.
  unfold get_or_push_root, get_detour_root_by_address, bind at 1, gets at 1, add_detour.
  destruct (position _ (roots s)) as [i|] eqn:Hp.
  - exists i, (roots s), (root_index_counter s), s. split; [done|]. split; [by repeat split|done].
  - destruct (lib_alloc_ok s) as (s1 & E1 & [K1 R1 C1 M1 Q1]).
    unfold push_new_root. rewrite bind_assoc, (bind_ok _ _ _ _ _ E1). simpl negb. cbv iota.
    rewrite bind_assoc. unfold bind at 1, modify at 1. rewrite ret_bind.
    unfold get_next_function_index, bind, gets, modify, upd_root, ret. simpl.
    exists O, ({| index := root_index_counter s; root_addr := a; detours := [] |} :: roots s),
      (u32 (root_index_counter s + 1)). eexists.
    split; [reflexivity|]. split; [|done]. rewrite <- C1, <- R1. destruct K1. by repeat split.
Qed.

Lemma push_new_detour_ok s u id i a :
  exists s', push_new_detour alloc_ok u id i a s = (Ok 1, s') /\
    quiet (set_roots (alter (push_detour {| detour_id := take 32 id; universe := u; detour_target := a;
                                           active := true |}) i (roots s)) s) s'.
Proof using alloc_all.
  destruct (lib_alloc_ok s) as (s1 & E1 & [K1 R1 C1 M1 Q1]).
  unfold push_new_detour. rewrite (bind_ok _ _ _ _ _ E1). simpl negb. cbv iota.
  eexists. split; [reflexivity|]. destruct K1. simpl. rewrite R1. by repeat split.
Qed.

Lemma quiet_requeued F s s1 l s' l' : quiet s s1 -> requeued F s1 l s' l' -> requeued F s l s' l'.
Proof using.
  intros [K R C M Q] [K1 R1 C1 H1' Y1 F1 X1]. rewrite (k_mem _ _ K) in *.
  split; try congruence; try done. by etransitivity.
Qed.

Lemma quiet_holds s s' l :
  quiet s s' -> queue_holds (queue (code_q (core s))) l -> queue_holds (queue (code_q (core s'))) l.
Proof using. intros [_ _ _ _ ->]. done. Qed.

Definition new_detour (u : Z) (id : bytes) (a : Z) : ulp_detour :=
  {| detour_id := take 32 id; universe := u; detour_target := a; active := true |}.

Lemma apply_unit_ok F ulp target un an s l :
  unit_resolved (loader s) (so_handler ulp) target un an ->
  queue_holds (queue (code_q (core s))) l -> ready (code_mem (core s)) l F -> all_apart F -> In an.1 F ->
  q_size (queue (code_q (core s))) + patch_room <= INSN_BUFFER_MAX ->
  let rn := add_detour (roots s) (root_index_counter s) an.1
              (new_detour (global_universe s) (patch_id ulp) an.2) in
  let l' := l ++ patch_writes (code_mem (core s)) an.1 (Some an.2) in
  exists s', apply_unit progname alloc_ok ulp target un s = (Ok tt, s') /\
    requeued F (set_roots rn.1 (set_counter rn.2 s)) l s' l' /\
    q_size (queue (code_q (core s'))) <= q_size (queue (code_q (core s))) + patch_room /\
    Arch.target (written l' (code_mem (core s))) an.1 = Some an.2 /\
    (forall g, In g F -> g <> an.1 ->
       Arch.target (written l' (code_mem (core s))) g = Arch.target (written l (code_mem (core s))) g).
Proof using alloc_all.
  intros [Hold Hnew [Hn0 Hn]] Hq Hr Hap Hin Hroom rn l'. destruct an as [a n]. simpl in *.
  pose proof (patchable_nonzero _ _ (ready_now _ _ _ Hr _ Hin)) as Ha0.
  destruct (find_symbol_ok s target un a Hold) as (s1 & E1 & Q1).
  destruct (load_so_symbol_ok s1 (so_handler ulp) (new_fname un) n) as (s2 & E2 & Q2).
  { by rewrite (k_loader _ _ (q_kept _ _ Q1)). }
  assert (Q12 : quiet s s2) by (by etransitivity).
  destruct (get_or_push_root_ok s2 a) as (i & rs & c & s3 & E3 & Q3 & Hadd).
  destruct (push_new_detour_ok s3 (global_universe s3) (patch_id ulp) i n) as (s4 & E4 & Q4).
  assert (Q : quiet (set_roots rn.1 (set_counter rn.2 s)) s4).
  { destruct Q12 as [[] R C M Q12], Q3 as [[] R3 C3 M3 Q3], Q4 as [[] R4 C4 M4 Q4].
    unfold lib_diag in *. simpl in *.
    specialize (Hadd (new_detour (global_universe s) (patch_id ulp) n)).
    rewrite R, C in Hadd. fold rn in Hadd. rewrite <- Hadd. simpl.
    unfold new_detour. replace (global_universe s) with (global_universe s3) by congruence.
    split; [split|..]; unfold lib_diag; simpl; congruence. }
  destruct (patch_call_ok F a (Some n) s4 l) as (s5 & E5 & R5 & Z5 & T5 & G5);
    rewrite ?(k_mem _ _ (q_kept _ _ Q)), ?(q_queue _ _ Q); try done.
  { by intros ? [= <-]. }
  exists s5. rewrite (k_mem _ _ (q_kept _ _ Q)), (q_queue _ _ Q) in *. simpl in *.
  split; [|split; [by eapply quiet_requeued|by split]].
  unfold apply_unit. rewrite (bind_ok _ _ _ _ _ E1). destruct (Z.eqb_spec a 0); [done|].
  unfold guard. rewrite ret_bind, (bind_ok _ _ _ _ _ E2). destruct (Z.eqb_spec n 0); [done|].
  rewrite ret_bind, (bind_ok _ _ _ _ _ E3). unfold bind at 1, gets.
  rewrite (bind_ok _ _ _ _ _ E4). change (1 =? 0) with false. cbv iota. rewrite ret_bind.
  unfold patch_call in E5. simpl in E5. by rewrite (bind_ok _ _ _ _ _ E5).
Qed.

(** All the units: the roots and the counter, and the writes that are queued. *)
Definition add_all (u : Z) (id : bytes) (funs : list (Z * Z)) (rn : list ulp_detour_root * Z) :
    list ulp_detour_root * Z :=
  fold_left (fun rn an => add_detour rn.1 rn.2 an.1 (new_detour u id an.2)) funs rn.

Definition all_writes (m : mem) (funs : list (Z * Z)) : list insn :=
  flat_map (fun an => patch_writes m an.1 (Some an.2)) funs.

Lemma add_all_in (F : list Z) f u id funs rn :
  In f (root_addrs (add_all u id funs rn).1) -> (forall an, In an funs -> In an.1 F) ->
  (forall g, In g (root_addrs rn.1) -> In g F) -> In f F.
Proof using.
  revert rn. induction funs as [|an funs IH]; intros rn Hf Hin Hrn; [by apply Hrn|].
  apply (IH _ Hf); [intros; apply Hin; by right|]. intros g Hg.
  apply add_detour_addrs in Hg as [-> |Hg]; [by apply Hin; left|by apply Hrn].
Qed.

Lemma requeued_roots_trans F rs c rs' c' s l s1 l1 s2 l2 :
  requeued F (set_roots rs (set_counter c s)) l s1 l1 ->
  requeued F (set_roots rs' (set_counter c' s1)) l1 s2 l2 ->
  requeued F (set_roots rs' (set_counter c' s)) l s2 l2.
Proof using.
  intros [K R C Q Y X W] [K1 R1 C1 Q1 Y1 X1 W1]. pose proof (k_mem _ _ K) as Em. simpl in *.
  rewrite Em in *. split; try done.
  - destruct K, K1. unfold lib_diag in *. simpl in *. split; unfold lib_diag; simpl; congruence.
  - intros x Hx. simpl. by rewrite X1, X.
  - by eapply extends_trans.
Qed.

Lemma apply_units_ok F ulp target units funs : forall s l,
  Forall2 (unit_resolved (loader s) (so_handler ulp) target) units funs ->
  queue_holds (queue (code_q (core s))) l -> ready (code_mem (core s)) l F -> all_apart F ->
  (forall an, In an funs -> In an.1 F) -> (forall f, In f (root_addrs (roots s)) -> In f F) ->
  coherent (written l (code_mem (core s))) (roots s) ->
  q_size (queue (code_q (core s))) + Z.of_nat (length units) * patch_room <= INSN_BUFFER_MAX ->
  let rn := add_all (global_universe s) (patch_id ulp) funs (roots s, root_index_counter s) in
  let l' := l ++ all_writes (code_mem (core s)) funs in
  exists s', for_each units (apply_unit progname alloc_ok ulp target) s = (Ok tt, s') /\
    requeued F (set_roots rn.1 (set_counter rn.2 s)) l s' l' /\
    q_size (queue (code_q (core s'))) <=
      q_size (queue (code_q (core s))) + Z.of_nat (length units) * patch_room /\
    coherent (written l' (code_mem (core s))) rn.1 /\
    (forall g, In g F -> ~ In g (map fst funs) ->
       Arch.target (written l' (code_mem (core s))) g = Arch.target (written l (code_mem (core s))) g).
Proof using alloc_all.
  revert funs. induction units as [|un units IH]; intros funs s l HF2.
  - inversion HF2; subst. intros Hq Hr Hap Hin HF Hc Hroom rn l'. exists s. unfold l', rn. simpl.
    rewrite app_nil_r. split; [done|]. split; [by split|]. split; [lia|by split].
  - inversion HF2 as [|? an ? funs' Hun HF2']; subst. intros Hq Hr Hap Hin HF Hc Hroom rn l'.
    pose proof (patch_room_nonneg _ _ _ _ Hr (Hin an (or_introl eq_refl))) as Hpos.
    cbn [length] in *.
    destruct (apply_unit_ok F ulp target un an s l Hun Hq Hr Hap) as (s1 & E1 & R1 & Z1 & T1 & G1).
    { by apply Hin; left. } { nia. }
    set (d := new_detour (global_universe s) (patch_id ulp) an.2) in *.
    set (rn1 := add_detour (roots s) (root_index_counter s) an.1 d) in *.
    pose proof (rq_kept _ _ _ _ _ R1) as [_ _ Ku _ Km Kl _ _]. simpl in Ku, Km, Kl.
    assert (Er : (roots s1, root_index_counter s1) = rn1).
    { rewrite (rq_roots _ _ _ _ _ R1), (rq_counter _ _ _ _ _ R1). simpl. by destruct rn1. }
    injection (eq_trans Er (surjective_pairing rn1)) as Er1 _.
    set (l1 := l ++ patch_writes (code_mem (core s)) an.1 (Some an.2)) in *.
    pose proof (rq_ready _ _ _ _ _ R1 : ready (code_mem (core s)) l1 F) as Hr1.
    pose proof (IH funs' s1 l1) as IH'. rewrite Kl, Km, Ku, Er, Er1 in IH'.
    destruct IH' as (s2 & E2 & R2 & Z2 & C2 & G2).
    + done.
    + apply (rq_holds _ _ _ _ _ R1).
    + done.
    + done.
    + intros an' Han'. apply Hin. by right.
    + intros f Hf. apply add_detour_addrs in Hf as [-> |Hf]; [by apply Hin; left|by apply HF].
    + apply (coherent_add _ _ _ _ _ _ Hc); [by destruct Hun as [_ _ []]|done| |done|].
      * intros f [-> |Hf]; [by apply (ready_then _ _ _ Hr1), Hin; left|by apply (ready_then _ _ _ Hr1), HF].
      * intros g Hg. by apply G1, HF.
    + nia.
    + exists s2. cbn [for_each]. rewrite (bind_ok _ _ _ _ _ E1).
      assert (El : l' = l1 ++ all_writes (code_mem (core s)) funs')
        by (unfold l', l1; cbn [all_writes flat_map]; by rewrite app_assoc).
      rewrite El. split; [done|]. split; [by eapply requeued_roots_trans|]. split; [nia|]. split; [done|].
      intros g Hg Hni. rewrite G2, G1; [done|done| |done|]; intros Hx; apply Hni; [by left|by right].
Qed.

(** *** References to data *)

(** Where a reference is written, and what. *)
Definition ref_address (d : D) (handle patch_base : Z) (ref : ulp_reference) (a : Z) : Prop :=
  a <> 0 /\ in_u 64 a /\
  if patch_offset ref =? 0 then dlsym handle (cstr (reference_name ref)) d = (a, false, d)
  else a = u64 (patch_base + patch_offset ref).

Definition ref_value (target_base tls_idx : Z) (ref : ulp_reference) : bytes :=
  if tls ref then le_bytes 8 tls_idx ++ le_bytes 8 (u64 (target_offset ref - TLS_DTV_OFFSET))
  else le_bytes 8 (u64 (target_base + target_offset ref)).

Lemma ref_value_len tb ti ref : zlen (ref_value tb ti ref) = if tls ref then 16 else 8.
Proof using. unfold ref_value. destruct (tls ref); unfold zlen; by rewrite ?length_app, !length_le_bytes. Qed.

(** A write of data that is clear of the functions. *)
Definition clear_of (F : list Z) (a n : Z) : Prop :=
  forall f, In f F -> prologue_end f <= a \/ a + n <= prologue_start f.

Lemma apply_ref_ok F ulp tb ti pb i ref a s l :
  ref_address (loader s) (so_handler ulp) pb ref a -> clear_of F a 16 ->
  queue_holds (queue (code_q (core s))) l -> ready (code_mem (core s)) l F ->
  q_size (queue (code_q (core s))) + 32 <= INSN_BUFFER_MAX ->
  let w := IWrite a (ref_value tb ti ref) in
  exists s', apply_ref ulp tb ti pb (i, ref) s = (Ok tt, s') /\
    kept s s' /\ roots s' = roots s /\ root_index_counter s' = root_index_counter s /\
    queue_holds (queue (code_q (core s'))) (l ++ [w]) /\
    q_size (queue (code_q (core s'))) <= q_size (queue (code_q (core s))) + 32 /\
    ready (code_mem (core s)) (l ++ [w]) F /\
    (forall g, In g F -> Arch.target (written (l ++ [w]) (code_mem (core s))) g =
                         Arch.target (written l (code_mem (core s))) g).
Proof using.
  intros (Ha0 & Ha & Hres) Hclear Hq Hr Hroom w.
  assert (Hi : insn_ok w).
  { split; [done|]. rewrite ref_value_len. by destruct (tls ref). }
  assert (Hsz : 0 <= isize w <= 32).
  { unfold isize, w. rewrite ref_value_len. by destruct (tls ref). }
  assert (Haddr : exists s1, (if patch_offset ref =? 0 then
       let! a := load_so_symbol (reference_name ref) (so_handler ulp) in
       guard (a =? 0) ENONEWFUNC;;;
       upd_metadata (fun u => set_refs u (alter (fun ref =>
         {| target_name := target_name ref; reference_name := reference_name ref;
            target_offset := target_offset ref; patch_offset := u64 (a - pb);
            tls := tls ref |}) i (refs u)));;;
       ret a
     else ret (u64 (pb + patch_offset ref))) s = (Ok a, s1) /\ kept s s1 /\ roots s1 = roots s /\
     root_index_counter s1 = root_index_counter s /\
     queue (code_q (core s1)) = queue (code_q (core s))).
  { destruct (patch_offset ref =? 0).
    - destruct (load_so_symbol_ok s (so_handler ulp) (reference_name ref) a Hres) as (s1 & E1 & [K R C M Q]).
      rewrite (bind_ok _ _ _ _ _ E1). destruct (Z.eqb_spec a 0); [done|].
      eexists. split; [reflexivity|]. split_and!; [|done|done|done].
      destruct K. by split.
    - subst a. exists s. by split. }
  destruct Haddr as (s1 & E1 & K1 & R1 & C1 & Q1).
  destruct (memwrite_ok a (ref_value tb ti ref) (core s1) l) as (q' & E2 & Hq' & Hs' & Hd');
    rewrite ?Q1; [done|done|done|fold w; lia|].
  rewrite ref_value_len in E2.
  destruct (ready_data _ l F a (ref_value tb ti ref) Hr) as [Hr' Hg].
  { intros f Hf. rewrite ref_value_len. destruct (Hclear f Hf), (tls ref); lia. }
  exists (set_core (set_code_q q' (core s1)) s1). unfold apply_ref. rewrite (bind_ok _ _ _ _ _ E1).
  split; [|split; [|split; [done|split; [done|split; [done|split; [|by split]]]]]].
  - unfold on_core, bind. unfold ref_value in E2. destruct (tls ref); rewrite E2; done.
  - destruct K1. split; try done. unfold lib_diag. simpl. by rewrite Hd'.
  - simpl. rewrite Hs', Q1. fold w. lia.
Qed.

Definition ref_writes (tb ti : Z) (ras : list (ulp_reference * Z)) : list insn :=
  map (fun ra => IWrite ra.2 (ref_value tb ti ra.1)) ras.

Lemma apply_refs_ok F ulp tb ti pb : forall (irs : list (nat * ulp_reference)) addrs s l,
  Forall2 (fun ir a => ref_address (loader s) (so_handler ulp) pb ir.2 a) irs addrs ->
  Forall (fun a => clear_of F a 16) addrs ->
  queue_holds (queue (code_q (core s))) l -> ready (code_mem (core s)) l F ->
  q_size (queue (code_q (core s))) + 32 * Z.of_nat (length irs) <= INSN_BUFFER_MAX ->
  let l' := l ++ ref_writes tb ti (zip (map snd irs) addrs) in
  exists s', for_each irs (apply_ref ulp tb ti pb) s = (Ok tt, s') /\
    kept s s' /\ roots s' = roots s /\ root_index_counter s' = root_index_counter s /\
    queue_holds (queue (code_q (core s'))) l' /\ ready (code_mem (core s)) l' F /\
    (forall g, In g F -> Arch.target (written l' (code_mem (core s))) g =
                         Arch.target (written l (code_mem (core s))) g).
Proof using.
  induction irs as [|[i ref] irs IH]; intros addrs s l HF2 Hcl Hq Hr Hroom l'.
  - inversion HF2; subst. exists s. unfold l'. simpl. rewrite app_nil_r. by split_and!.
  - inversion HF2 as [|? a ? addrs' Ha HF2']; subst. inversion_clear Hcl as [|? ? Hcl1 Hcl'].
    cbn [length] in Hroom.
    destruct (apply_ref_ok F ulp tb ti pb i ref a s l Ha Hcl1 Hq Hr) as (s1 & E1 & K1 & R1 & C1 & Q1 & Z1 & Y1 & G1).
    { lia. }
    pose proof (k_mem _ _ K1) as Em. pose proof (k_loader _ _ K1) as El.
    destruct (IH addrs' s1 (l ++ [IWrite a (ref_value tb ti ref)])) as (s2 & E2 & K2 & R2 & C2 & Q2 & Y2 & G2);
      rewrite ?El, ?Em; try done. { lia. }
    rewrite Em, <- app_assoc in *. exists s2. cbn [for_each]. rewrite (bind_ok _ _ _ _ _ E1).
    split_and!; [done|by etransitivity|congruence..|done|done|].
    intros g Hg. by rewrite <- G1, <- G2.
Qed.

(** What a patch needs of its environment: its target is loaded, its symbols
    resolve to [funs] and its references to [addrs]. *)
Record environment (d : D) (ulp : ulp_metadata) (obj : ulp_object) (funs : list (Z * Z)) (addrs : list Z)
    (tb ti pb : Z) : Prop := {
  env_units : Forall2 (unit_resolved d (so_handler ulp) (get_basename (obj_name obj))) (units obj) funs;
  env_base : forall dg, get_loaded_library_base_addr (dl_objects d) progname (get_basename (obj_name obj)) dg
                        = (Ok tb, dg);
  env_tls : forall dg, get_loaded_library_tls_index (dl_objects d) progname (get_basename (obj_name obj)) dg
                       = (Ok ti, dg);
  env_loaded : tb <> 0xFF;
  env_map : dlinfo (so_handler ulp) d = (Some pb, d) /\ pb <> 0;
  env_refs : Forall2 (fun ref a => ref_address d (so_handler ulp) pb ref a) (refs ulp) addrs }.

Lemma imap_pair_snd {A} (l : list A) : map snd (imap pair l) = l.
Proof using.
  change (map snd (imap pair l)) with (snd <$> imap pair l). rewrite fmap_imap.
  apply list_eq. intros i. rewrite list_lookup_imap. by destruct (l !! i).
Qed.

Lemma set_lib_diag_id s : set_lib_diag (lib_diag s) s = s.
Proof using. by destruct s as [? ? ? ? ? ? ? [? [? []]] ? ? ?]. Qed.

Lemma set_loader_id s : set_loader (loader s) s = s.
Proof using. by destruct s. Qed.

Lemma lib_base_ok s target b :
  (forall dg, get_loaded_library_base_addr (dl_objects (loader s)) progname target dg = (Ok b, dg)) ->
  lib_base progname target s = (Ok b, s).
Proof using. intros E. unfold lib_base, on_lib_diag. by rewrite E, set_lib_diag_id. Qed.

Lemma lib_tls_ok s target i :
  (forall dg, get_loaded_library_tls_index (dl_objects (loader s)) progname target dg = (Ok i, dg)) ->
  lib_tls progname target s = (Ok i, s).
Proof using. intros E. unfold lib_tls, on_lib_diag. by rewrite E, set_lib_diag_id. Qed.

Lemma call_dlinfo_ok s h r : dlinfo h (loader s) = (r, loader s) -> call_dlinfo h s = (Ok r, s).
Proof using. intros E. unfold call_dlinfo. by rewrite E, set_loader_id. Qed.

Lemma ulp_apply_all_units_ok F ulp obj funs addrs tb ti pb s :
  metadata_ref s = Some ulp -> objs ulp = Some obj ->
  environment (loader s) ulp obj funs addrs tb ti pb ->
  queue_holds (queue (code_q (core s))) [] -> (forall f, In f F -> livepatchable (code_mem (core s)) f) ->
  all_apart F -> (forall an, In an funs -> In an.1 F) -> (forall f, In f (root_addrs (roots s)) -> In f F) ->
  Forall (fun a => clear_of F a 16) addrs ->
  coherent (code_mem (core s)) (roots s) ->
  q_size (queue (code_q (core s))) + Z.of_nat (length (units obj)) * patch_room
    + 32 * Z.of_nat (length (refs ulp)) <= INSN_BUFFER_MAX ->
  let u := u64 (global_universe s + 1) in
  let rn := add_all u (patch_id ulp) funs (roots s, root_index_counter s) in
  let l' := all_writes (code_mem (core s)) funs ++ ref_writes tb (u64 ti) (zip (refs ulp) addrs) in
  exists s', ulp_apply_all_units progname alloc_ok s = (Ok 0, s') /\
    kept (set_universe u s) s' /\ roots s' = rn.1 /\ root_index_counter s' = rn.2 /\
    queue_holds (queue (code_q (core s'))) l' /\ ready (code_mem (core s)) l' F /\
    coherent (written l' (code_mem (core s))) (roots s') /\
    (forall g, In g F -> ~ In g (map fst funs) ->
       Arch.target (written l' (code_mem (core s))) g = Arch.target (code_mem (core s)) g).
Proof using alloc_all.
  intros Href Hobj [Hunits Hbase Htls Hld [Hmap Hpb] Hrefs] Hq Hlp Hap Hin HF Hcl Hc Hroom u rn l'.
  assert (Hrl : 0 <= 32 * Z.of_nat (length (refs ulp))) by lia.
  set (s0 := set_universe u s).
  destruct (apply_units_ok F ulp (get_basename (obj_name obj)) (units obj) funs s0 [] Hunits Hq
              (ready_start _ _ Hlp) Hap Hin HF Hc) as (s1 & E1 & R1 & Z1 & C1 & G1).
  { simpl. unfold INSN_BUFFER_MAX in *. lia. }
  simpl in R1, Z1, C1, G1. fold u rn in R1, C1. set (l1 := all_writes (code_mem (core s)) funs) in *.
  pose proof (rq_kept _ _ _ _ _ R1) as K1. pose proof (rq_ready _ _ _ _ _ R1) as Y1. simpl in Y1.
  pose proof (k_loader _ _ K1) as El. pose proof (k_mem _ _ K1) as Em. simpl in El, Em.
  pose proof (rq_roots _ _ _ _ _ R1) as Er1. pose proof (rq_counter _ _ _ _ _ R1) as Ec1. simpl in Er1, Ec1.
  assert (Elen : length (imap pair (refs ulp)) = length (refs ulp)) by apply length_imap.
  destruct (apply_refs_ok F ulp tb (u64 ti) pb (imap pair (refs ulp)) addrs s1 l1)
    as (s2 & E2 & K2 & R2 & C2 & Q2 & Y2 & G2).
  { rewrite El. rewrite <- (imap_pair_snd (refs ulp)) in Hrefs. clear -Hrefs.
    revert addrs Hrefs. induction (imap pair (refs ulp)); intros addrs Hr; inversion Hr; subst; constructor; auto. }
  { done. } { apply (rq_holds _ _ _ _ _ R1). } { by rewrite Em. } { rewrite Elen. lia. }
  rewrite imap_pair_snd, Em in *. fold l' in Q2, Y2, G2.
  assert (Er2 : roots s2 = rn.1) by congruence.
  exists s2. split; [|split; [|split; [done|split; [congruence|split; [done|split; [done|split]]]]]].
  - unfold ulp_apply_all_units, code, get_obj. unfold bind at 1, get_ulp at 1. rewrite Href.
    rewrite bind_assoc. unfold bind at 1, get_ulp at 1. rewrite Href, Hobj, ret_bind.
    unfold next_universe, bind at 1, modify. fold u s0. rewrite (bind_ok _ _ _ _ _ E1).
    rewrite <- El in Hbase, Htls, Hmap.
    rewrite (bind_ok _ _ _ _ _ (lib_base_ok _ _ _ Hbase)), (bind_ok _ _ _ _ _ (lib_tls_ok _ _ _ Htls)).
    destruct (Z.eqb_spec tb 0xFF); [done|]. rewrite ret_bind, (bind_ok _ _ _ _ _ (call_dlinfo_ok _ _ _ Hmap)).
    destruct (Z.eqb_spec pb 0); [done|]. by rewrite ret_bind, (bind_ok _ _ _ _ _ E2).
  - transitivity s1; [destruct K1; by split|done].
  - rewrite Er2. destruct C1 as [Cu Cp Cb Ct]. split; [done| |done|].
    + intros f Hf. apply (ready_then _ _ _ Y2). by apply (add_all_in F f _ _ _ _ Hf).
    + intros r Hr. rewrite G2; [by apply Ct|].
      by apply (add_all_in F _ u (patch_id ulp) funs (roots s, root_index_counter s)); [apply in_map|..].
  - intros g Hg Hni. by rewrite G2, G1.
Qed.
End applying.
