(* ===== verification/Requests.v ===== *)
(** * What a live patching request does

    The properties of lib/ulp.c, from the entry points down: which requests are
    let through, what applying and reverting do to the program, what happens on
    failure. *)

From stdpp Require Import gmap.
From S2P Require Import Prelude Errors Memory Metadata InsnQueue Arch SymbolLoader Interpose.
From S2P Require Import PatchCore PatchCoherence.

Open Scope ulp_scope.

(** ** The entry checks *)

(** Nothing stands in the way of a request. *)
Record admissible {D} (s : lib_state D) : Prop := {
  adm_healthy : err_state (lib_diag s) = ENONE;
  adm_queue : queue_holds (queue (code_q (core s))) [];
  adm_locks : lib_locks s = {| flag := 0; dl_load_lock := Some 0; dl_load_write_lock := Some 0 |} }.

Lemma emptiness_ok q : queue_holds (queue q) [] -> insnq_ensure_emptiness q = (Ok 0, q).
Proof.
  intros [_ Hn _ Hst _]. assert (Hs : q_size (queue q) = 0) by (by inversion Hst).
  unfold insnq_ensure_emptiness, bind, gets. by rewrite Hn, Hs.
Qed.

Lemma entry_pass {D} (body : st (lib_state D) Z Z) s : admissible s -> entry_checks body s = body s.
Proof.
  intros [He Hq Hl]. unfold entry_checks, bind at 1, gets at 1.
  unfold libpulp_is_in_error_state, get_libpulp_error_state. rewrite He. cbn [negb Z.eqb ENONE].
  assert (E1 : on_core (on_queue insnq_ensure_emptiness) s = (Ok 0, s)).
  { unfold on_core, on_queue. rewrite emptiness_ok by done.
    destruct s as [? ? ? ? ? ? ? [? ?] ? ? ?]. done. }
  rewrite (bind_ok _ _ _ _ _ E1). cbn [negb Z.eqb].
  destruct s as [a b c d e f g [m [q dg]] h l k]. simpl in Hl, He. subst l. done.
Qed.

Lemma entry_error {D} (body : st (lib_state D) Z Z) s :
  err_state (lib_diag s) <> ENONE -> entry_checks body s = (Ok (err_state (lib_diag s)), s).
Proof.
  intros He. unfold entry_checks, bind at 1, gets at 1, libpulp_is_in_error_state, get_libpulp_error_state.
  by destruct (Z.eqb_spec (err_state (lib_diag s)) ENONE).
Qed.

Lemma entry_queue {D} (body : st (lib_state D) Z Z) s :
  err_state (lib_diag s) = ENONE ->
  0 < q_num_insns (queue (code_q (core s))) \/ 0 < q_size (queue (code_q (core s))) ->
  exists dg, entry_checks body s = (Ok EINSNQ, set_lib_diag dg s) /\ err_state dg = EINSNQ.
Proof.
  intros He Hq. unfold entry_checks, bind at 1, gets at 1, libpulp_is_in_error_state, get_libpulp_error_state.
  rewrite He. cbn [negb Z.eqb ENONE].
  destruct s as [a b c d e f g [m [q dg]] h l k]. simpl in *.
  unfold bind at 1, on_core, on_queue, insnq_ensure_emptiness. unfold bind at 1, gets at 1. simpl.
  assert (Ht : (0 <? q_num_insns q) || (0 <? q_size q) = true).
  { destruct Hq; [rewrite (proj2 (Z.ltb_lt _ _)) by done; done|].
    rewrite (proj2 (Z.ltb_lt 0 (q_size q))) by done. by rewrite orb_true_r. }
  rewrite Ht. eexists. split; reflexivity.
Qed.

Lemma entry_busy {D} (body : st (lib_state D) Z Z) s l w :
  err_state (lib_diag s) = ENONE -> queue_holds (queue (code_q (core s))) [] ->
  dl_load_lock (lib_locks s) = Some l -> dl_load_write_lock (lib_locks s) = Some w ->
  l <> 0 \/ w <> 0 \/ flag (lib_locks s) <> 0 ->
  exists dg, entry_checks body s = (Ok EAGAIN, set_lib_diag dg s).
Proof.
  intros He Hq Hl Hw Hbusy. unfold entry_checks, bind at 1, gets at 1.
  unfold libpulp_is_in_error_state, get_libpulp_error_state. rewrite He. cbn [negb Z.eqb ENONE].
  assert (E1 : on_core (on_queue insnq_ensure_emptiness) s = (Ok 0, s)).
  { unfold on_core, on_queue. rewrite emptiness_ok by done.
    destruct s as [? ? ? ? ? ? ? [? ?] ? ? ?]. done. }
  rewrite (bind_ok _ _ _ _ _ E1). cbn [negb Z.eqb].
  destruct s as [a b c d e f g [m [q dg]] h [fl ol ow] k]. simpl in Hl, Hw, He, Hbusy. subst ol ow.
  unfold bind at 1, on_lib_locks, __ulp_asunsafe_trylock, dl_locks_held, bind, gets, deref, lk_log, modify, ret.
  simpl. destruct (Z.eqb_spec l 0), (Z.eqb_spec w 0); simpl; try (eexists; reflexivity).
  destruct (Z.eqb_spec fl 0); [lia|]. simpl. eexists. reflexivity.
Qed.

(** C14. Refused requests have no effect. A request to apply or to revert is
    refused with the error code while the library is in an error state; with
    [EINSNQ], which becomes the error state, when writes of an earlier request are
    still queued; and with [EAGAIN] while a thread is in a wrapped function or the
    loader is locked. In each case nothing changes but the messages and the
    error state: not the patches, the detours, the queue or the program. *)
Theorem refused_requests {D} `{Libdl D} `{Arch} progname alloc_ok calloc_ok c0 now fuel (s : lib_state D)
    (request : lib_m D Z)
    (Hrequest : request = __ulp_apply_patch progname alloc_ok calloc_ok c0 now \/
                request = __ulp_revert_patches_from_lib progname fuel) :
  (err_state (lib_diag s) <> ENONE -> request s = (Ok (err_state (lib_diag s)), s)) /\
  (err_state (lib_diag s) = ENONE ->
   0 < q_num_insns (queue (code_q (core s))) \/ 0 < q_size (queue (code_q (core s))) ->
   exists dg, request s = (Ok EINSNQ, set_lib_diag dg s) /\ err_state dg = EINSNQ) /\
  (forall l w, err_state (lib_diag s) = ENONE -> queue_holds (queue (code_q (core s))) [] ->
   dl_load_lock (lib_locks s) = Some l -> dl_load_write_lock (lib_locks s) = Some w ->
   l <> 0 \/ w <> 0 \/ flag (lib_locks s) <> 0 ->
   exists dg, request s = (Ok EAGAIN, set_lib_diag dg s)).
Proof.
  destruct Hrequest as [-> | ->];
    (split; [apply entry_error|split; [apply entry_queue|intros l w; apply entry_busy]]).
Qed.

(** ** Recording a patch *)

Section recording.
Context {D : Type} `{Libdl D} `{ArchLaws}.
Variable progname : bytes.
Variable alloc_ok : nat -> bool.
Hypothesis alloc_all : forall k, alloc_ok k = true.
Variable now : Z.
Implicit Types s : lib_state D.

Definition applied_unit (m : mem) (an : Z * Z) : ulp_applied_unit :=
  {| patched_addr := an.1; target_addr := an.2; overwritten_bytes := default [] (mem_read an.1 14 m) |}.

Lemma alloc_or_fail_ok fmt s : exists s', alloc_or_fail alloc_ok fmt s = (Ok tt, s') /\ quiet s s'.
Proof using alloc_all.
  destruct (lib_alloc_ok alloc_ok alloc_all s) as (s' & E & Q). exists s'. split; [|done].
  unfold alloc_or_fail. by rewrite (bind_ok _ _ _ _ _ E).
Qed.

Lemma alloc_loop_ok {A} fmt (l : list A) s :
  exists s', for_each l (fun _ => alloc_or_fail alloc_ok fmt) s = (Ok tt, s') /\ quiet s s'.
Proof using alloc_all.
  revert s. induction l as [|x l IH]; intros s; [by exists s|].
  destruct (alloc_or_fail_ok fmt s) as (s1 & E1 & Q1). destruct (IH s1) as (s2 & E2 & Q2).
  exists s2. cbn [for_each]. rewrite (bind_ok _ _ _ _ _ E1). split; [done|by etransitivity].
Qed.

Lemma strndup_ok b s :
  exists s', strndup_or_fail alloc_ok (Some b) s = (Ok (strndup b ULP_PATH_LEN), s') /\ quiet s s'.
Proof using alloc_all.
  destruct (lib_alloc_ok alloc_ok alloc_all s) as (s' & E & Q). exists s'. split; [|done].
  unfold strndup_or_fail. by rewrite (bind_ok _ _ _ _ _ E).
Qed.

Lemma record_unit_ok ulp target un an s :
  unit_resolved progname (loader s) (so_handler ulp) target un an -> an.1 <> 0 ->
  is_Some (mem_read an.1 14 (code_mem (core s))) ->
  exists s', record_unit progname alloc_ok ulp target un s = (Ok (applied_unit (code_mem (core s)) an), s') /\
    quiet s s'.
Proof using alloc_all.
  intros [Hold Hnew [Hn _]] Ha [old Hread].
  destruct (alloc_or_fail_ok "Unable to allocate memory to update ulp state (unit)." s) as (s1 & E1 & Q1).
  destruct (find_symbol_ok progname s1 target un an.1) as (s2 & E2 & Q2).
  { by rewrite (k_loader _ _ (q_kept _ _ Q1)). }
  assert (Q12 : quiet s s2) by (by etransitivity).
  destruct (load_so_symbol_ok s2 (so_handler ulp) (new_fname un) an.2) as (s3 & E3 & Q3).
  { by rewrite (k_loader _ _ (q_kept _ _ Q12)). }
  assert (Q : quiet s s3) by (by etransitivity).
  exists s3. split; [|done]. unfold record_unit.
  rewrite (bind_ok _ _ _ _ _ E1), (bind_ok _ _ _ _ _ E2). destruct (Z.eqb_spec an.1 0); [done|].
  rewrite ret_bind, (bind_ok _ _ _ _ _ E3). unfold guard. destruct (Z.eqb_spec an.2 0); [done|].
  rewrite ret_bind. unfold applied_unit. rewrite Hread.
  assert (Er : on_core (read_code an.1 14) s3 = (Ok old, s3)).
  { unfold on_core, read_code. rewrite (k_mem _ _ (q_kept _ _ Q)), Hread. by destruct s3. }
  by rewrite (bind_ok _ _ _ _ _ Er).
Qed.

Lemma record_units_ok ulp target units funs : forall s,
  Forall2 (unit_resolved progname (loader s) (so_handler ulp) target) units funs ->
  Forall (fun an => an.1 <> 0 /\ is_Some (mem_read an.1 14 (code_mem (core s)))) funs ->
  exists s', record_units progname alloc_ok ulp target units s =
               (Ok (map (applied_unit (code_mem (core s))) funs), s') /\ quiet s s'.
Proof using alloc_all.
  revert funs. induction units as [|un units IH]; intros funs s HF HR.
  - inversion HF; subst. by exists s.
  - inversion HF as [|? an ? funs' Hun HF']; subst. inversion_clear HR as [|? ? [Ha0 Hr] HR'].
    destruct (record_unit_ok ulp target un an s Hun Ha0 Hr) as (s1 & E1 & Q1).
    pose proof (k_loader _ _ (q_kept _ _ Q1)) as El. pose proof (k_mem _ _ (q_kept _ _ Q1)) as Em.
    destruct (IH funs' s1) as (s2 & E2 & Q2); rewrite ?El, ?Em; try done.
    exists s2. cbn [record_units map]. rewrite (bind_ok _ _ _ _ _ E1), (bind_ok _ _ _ _ _ E2), Em.
    split; [done|by etransitivity].
Qed.

(** The entry a patch gets. *)
Definition new_entry (m : mem) (ulp : ulp_metadata) (name container : bytes) (funs : list (Z * Z)) :
    ulp_applied_patch :=
  {| applied_id := take 32 (patch_id ulp); lib_name := strndup name ULP_PATH_LEN;
     container_name := strndup container ULP_PATH_LEN; applied_units := map (applied_unit m) funs;
     applied_deps := rev (deps ulp); timestamp := now |}.

Lemma ulp_state_update_ok ulp obj name container funs s :
  metadata_ref s = Some ulp -> objs ulp = Some obj ->
  get_basename (obj_name obj) = Some name -> so_filename ulp = Some container ->
  Forall2 (unit_resolved progname (loader s) (so_handler ulp) (Some name)) (units obj) funs ->
  Forall (fun an => an.1 <> 0 /\ is_Some (mem_read an.1 14 (code_mem (core s)))) funs ->
  exists s1, ulp_state_update progname alloc_ok now s =
    (Ok 1, set_patches (new_entry (code_mem (core s)) ulp name container funs :: patches s1) s1) /\ quiet s s1.
Proof using alloc_all.
  intros Href Hobj Hname Hcont HF HR.
  destruct (alloc_or_fail_ok "Unable to allocate memory to update ulp state." s) as (s1 & E1 & Q1).
  destruct (strndup_ok name s1) as (s2 & E2 & Q2). destruct (strndup_ok container s2) as (s3 & E3 & Q3).
  destruct (alloc_loop_ok "Unable to allocate memory to ulp state dependency." (deps ulp) s3) as (s4 & E4 & Q4).
  assert (Q : quiet s s4) by (do 3 (etransitivity; [eassumption|]); done).
  destruct (record_units_ok ulp (Some name) (units obj) funs s4) as (s5 & E5 & Q5).
  { by rewrite (k_loader _ _ (q_kept _ _ Q)). } { by rewrite (k_mem _ _ (q_kept _ _ Q)). }
  rewrite (k_mem _ _ (q_kept _ _ Q)) in E5.
  exists s5. split; [|by etransitivity].
  unfold ulp_state_update, code. unfold bind at 1, get_ulp at 1. rewrite Href.
  rewrite (bind_ok _ _ _ _ _ E1). unfold get_obj. rewrite bind_assoc. unfold bind at 1, get_ulp at 1.
  rewrite (q_ref _ _ Q1), Href, Hobj, ret_bind, Hname, Hcont.
  rewrite (bind_ok _ _ _ _ _ E2), (bind_ok _ _ _ _ _ E3), (bind_ok _ _ _ _ _ E4), (bind_ok _ _ _ _ _ E5).
  done.
Qed.
End recording.

(** ** What loading the metadata leaves alone *)

Record framed {D} (s s' : lib_state D) : Prop := {
  fr_patches : patches s' = patches s;
  fr_roots : roots s' = roots s;
  fr_counter : root_index_counter s' = root_index_counter s;
  fr_universe : global_universe s' = global_universe s;
  fr_queue : queue (code_q (core s')) = queue (code_q (core s));
  fr_err : err_state (lib_diag s') = err_state (lib_diag s);
  fr_locks : lib_locks s' = lib_locks s }.

#[export] Instance framed_preorder D : PreOrder (@framed D).
Proof. split; [by split|]. intros s1 s2 s3 [] []. split; congruence. Qed.

Definition keeps {D E A} (m : st (lib_state D) E A) : Prop := forall s, framed s (m s).2.

Section keeping.
Context {D : Type}.

Lemma keeps_bind {E A B} (m : st (lib_state D) E A) (k : A -> st (lib_state D) E B) :
  keeps m -> (forall a, keeps (k a)) -> keeps (bind m k).
Proof.
  intros Hm Hk s. unfold bind. specialize (Hm s). destruct (m s) as [[a|e| |] s1]; simpl in *; try done.
  etransitivity; [exact Hm|apply Hk].
Qed.

Lemma keeps_const {E A} (r : res E A) : keeps (fun s : lib_state D => (r, s)).
Proof. intros s. reflexivity. Qed.

Lemma keeps_gets {E A} (f : lib_state D -> A) : keeps (gets f : st _ E A).
Proof. intros s. reflexivity. Qed.

Lemma keeps_modify {E} (f : lib_state D -> lib_state D) :
  (forall s, framed s (f s)) -> keeps (modify f : st _ E unit).
Proof. intros Hf s. apply Hf. Qed.

Lemma keeps_warn fmt : keeps (@warn D fmt).
Proof. by intros s. Qed.
End keeping.

Create HintDb keeps discriminated.
#[export] Hint Resolve keeps_const keeps_gets keeps_warn : keeps.

(** Go through a computation statement by statement. *)
Ltac keep :=
  repeat first
    [ solve [auto with keeps]
    | apply keeps_const
    | match goal with
      | |- keeps (bind _ _) => apply keeps_bind; [|intros]
      | |- keeps (modify _) => apply keeps_modify; intros []; by split
      | |- keeps (if ?b then _ else _) => destruct b
      | |- keeps (match ?x with _ => _ end) => destruct x
      | |- keeps (let (_, _) := ?x in _) => destruct x
      end ].

Section loading.
Context {D : Type} `{Libdl D} `{Arch}.

Lemma keeps_unload_handlers : keeps (unload_handlers (D := D)).
Proof.
  unfold unload_handlers. keep.
  - intros s. unfold get_ulp. by destruct (metadata_ref s).
  - intros s. destruct (dlclose _ _). simpl. by destruct (negb _).
Qed.

Lemma keeps_get_ulp : keeps (get_ulp (D := D)).
Proof. intros s. unfold get_ulp. by destruct (metadata_ref s). Qed.

Lemma keeps_load_so o : keeps (load_so (D := D) o).
Proof. intros s. unfold load_so. destruct (dlopen _ _ _) as [[h d] m]. simpl. by destruct (h =? 0). Qed.

Lemma keeps_upd_metadata f : keeps (upd_metadata (D := D) f).
Proof. by intros s. Qed.

Lemma keeps_lib_alloc a : keeps (lib_alloc (D := D) a).
Proof. by intros s. Qed.
End loading.

#[export] Hint Resolve keeps_unload_handlers keeps_get_ulp keeps_load_so keeps_upd_metadata keeps_lib_alloc : keeps.

Section loading_2.
Context {D : Type} `{Libdl D} `{Arch}.

Lemma keeps_get_obj : keeps (get_obj (D := D)).
Proof. unfold get_obj. keep. Qed.

Lemma keeps_iterate infos : keeps (iterate_build_ids (D := D) infos).
Proof.
  induction infos as [|info infos IH]; simpl; [keep|].
  apply keeps_bind; [apply keeps_get_obj|]. intros o. destruct (compare_build_ids _ _) as [[]|?| |]; keep.
Qed.

Lemma keeps_check_patch_sanity : keeps (check_patch_sanity (D := D)).
Proof.
  unfold check_patch_sanity, check_build_id, check_patch_dependencies, ulp_get_applied_patch.
  keep; try apply keeps_iterate; try apply keeps_get_obj.
Qed.

Lemma keeps_run_parser cok c0 : keeps (run_parser (D := D) cok c0).
Proof. intros s. unfold run_parser. destruct (metadata_ref s); [|reflexivity]. by destruct (parse_metadata_from_mem _ _ _ _). Qed.

Lemma keeps_load_metadata a cok c0 : keeps (load_metadata (D := D) a cok c0).
Proof.
  unfold load_metadata, parse_metadata, load_so_handlers, unload_metadata.
  keep; try apply keeps_run_parser; try apply keeps_check_patch_sanity.
Qed.
End loading_2.

(** ** Applying *)

(** A patch that can be applied in state [s], the one that loading its metadata
    leaves: it targets the functions [funs] (addresses of the old and the new
    one), which together with those already patched can be patched and do not
    overlap, and writes data at [addrs], outside them. *)
Record applicable {D} `{Libdl D} `{ArchLaws} (progname : bytes) (s : lib_state D) (ulp : ulp_metadata)
    (obj : ulp_object) (name container : bytes) (funs : list (Z * Z)) (addrs : list Z) (tb ti pb : Z) : Prop := {
  ap_ref : metadata_ref s = Some ulp;
  ap_type : type ulp = 1;
  ap_obj : objs ulp = Some obj;
  ap_name : get_basename (obj_name obj) = Some name;
  ap_container : so_filename ulp = Some container;
  ap_env : environment progname (loader s) ulp obj funs addrs tb ti pb;
  ap_readable : Forall (fun an => is_Some (mem_read an.1 14 (code_mem (core s)))) funs;
  ap_live : forall f, In f (map fst funs ++ root_addrs (roots s)) -> livepatchable (code_mem (core s)) f;
  ap_apart : all_apart (map fst funs ++ root_addrs (roots s));
  ap_clear : Forall (fun a => clear_of (map fst funs ++ root_addrs (roots s)) a 16) addrs;
  ap_room : q_size (queue (code_q (core s))) + Z.of_nat (length (units obj)) * patch_room
      + 32 * Z.of_nat (length (refs ulp)) <= INSN_BUFFER_MAX }.

(** [load_patch] after the metadata is there. *)
Lemma load_patch_applies {D} `{Libdl D} `{ArchLaws} progname alloc_ok calloc_ok c0 now (s s1 : lib_state D)
    ulp obj name container funs addrs tb ti pb :
  (forall k, alloc_ok k = true) ->
  load_metadata alloc_ok calloc_ok c0 s = (Ok (true, 0), s1) ->
  applicable progname s1 ulp obj name container funs addrs tb ti pb ->
  queue_holds (queue (code_q (core s1))) [] -> coherent (code_mem (core s1)) (roots s1) ->
  let u := u64 (global_universe s1 + 1) in
  let m := code_mem (core s1) in
  let l' := all_writes m funs ++ ref_writes tb (u64 ti) (zip (refs ulp) addrs) in
  exists s', load_patch progname alloc_ok calloc_ok c0 now s = (Ok 0, s') /\
    patches s' = new_entry now m ulp name container funs :: patches s1 /\
    metadata_ref s' = None /\ err_state (lib_diag s') = err_state (lib_diag s1) /\
    roots s' = (add_all u (patch_id ulp) funs (roots s1, root_index_counter s1)).1 /\
    global_universe s' = u /\ code_mem (core s') = m /\
    queue_holds (queue (code_q (core s'))) l' /\
    coherent (written l' m) (roots s') /\ (loader s' = loader s1 /\ lib_locks s' = lib_locks s1) /\
    (forall g, In g (root_addrs (roots s1)) -> ~ In g (map fst funs) -> target (written l' m) g = target m g).
Proof.
  intros Halloc Hload [Href Hty Hobj Hname Hcont Henv Hread Hlive Hapart Hclear Hroom] Hq Hc u m l'.
  pose proof Henv as [Hunits _ _ _ _ _]. rewrite Hname in Hunits.
  destruct (ulp_state_update_ok progname alloc_ok Halloc now ulp obj name container funs s1) as (s2 & E2 & [K2 R2 C2 M2 Q2]);
    try done.
  { rewrite Forall_forall in Hread. apply Forall_forall. intros an Han. split; [|by apply Hread].
    apply (patchable_nonzero m). apply Hlive, in_app_iff. left. by apply in_map. }
  fold m in E2. set (s3 := set_patches (new_entry now m ulp name container funs :: patches s2) s2) in *.
  assert (Em3 : code_mem (core s3) = m) by apply (k_mem _ _ K2).
  destruct (ulp_apply_all_units_ok progname alloc_ok Halloc (map fst funs ++ root_addrs (roots s1)) ulp obj
              funs addrs tb ti pb s3) as (s4 & E4 & K4 & R4 & C4 & Q4 & Y4 & Co4 & G4);
    rewrite ?Em3; simpl; rewrite ?M2, ?Q2, ?R2, ?(k_loader _ _ K2); try done.
  { intros an Han. apply in_app_iff. left. by apply in_map. }
  { intros f Hf. apply in_app_iff. by right. }
  assert (Eu : u64 (global_universe s3 + 1) = u) by (unfold u; by rewrite <- (k_universe _ _ K2)).
  assert (Er : (roots s3, root_index_counter s3) = (roots s1, root_index_counter s1)) by (by rewrite <- R2, <- C2).
  rewrite Em3, Eu, Er in *. fold l' in Q4, Y4, Co4, G4.
  exists (set_metadata_ref None s4).
  split; [|split; [|split; [done|split; [|split; [done|split; [|split; [|split; [done|split; [done|split]]]]]]]]].
  - unfold load_patch. rewrite (bind_ok _ _ _ _ _ Hload). cbn [negb].
    unfold bind at 1, get_ulp at 1. rewrite Href, Hty. cbn [Z.eqb Pos.eqb]. rewrite bind_assoc, (bind_ok _ _ _ _ _ E2).
    cbn [Z.eqb]. rewrite bind_assoc, (bind_ok _ _ _ _ _ E4). cbn [negb Z.eqb].
    unfold unload_metadata. by rewrite bind_assoc, !ret_bind.
  - rewrite (k_patches _ _ K4 : patches (set_metadata_ref None s4) = _). simpl. by rewrite (k_patches _ _ K2).
  - rewrite (k_err _ _ K4 : err_state (lib_diag (set_metadata_ref None s4)) = _). exact (k_err _ _ K2).
  - exact (k_universe _ _ K4).
  - by rewrite (k_mem _ _ K4 : code_mem (core (set_metadata_ref None s4)) = _).
  - split; [rewrite (k_loader _ _ K4 : loader (set_metadata_ref None s4) = _); exact (k_loader _ _ K2)|].
    rewrite (k_locks _ _ K4 : lib_locks (set_metadata_ref None s4) = _). exact (k_locks _ _ K2).
  - intros g Hg Hni. apply G4; [|done]. apply in_app_iff. by right.
Qed.

(** What a request to apply does, and that the loader is as the metadata left it. *)
Lemma apply_request_ok {D} `{Libdl D} `{ArchLaws} progname alloc_ok calloc_ok c0 now (s s1 : lib_state D)
    ulp obj name container funs addrs tb ti pb
    (Hadm : admissible s)
    (Halloc : forall k, alloc_ok k = true)
    (Hload : load_metadata alloc_ok calloc_ok c0 s = (Ok (true, 0), s1))
    (Happ : applicable progname s1 ulp obj name container funs addrs tb ti pb)
    (Hcoh : coherent (code_mem (core s1)) (roots s)) :
  let u := u64 (global_universe s + 1) in
  let m := code_mem (core s1) in
  let l' := all_writes m funs ++ ref_writes tb (u64 ti) (zip (refs ulp) addrs) in
  exists s', __ulp_apply_patch progname alloc_ok calloc_ok c0 now s = (Ok 0, s') /\
    patches s' = new_entry now m ulp name container funs :: patches s /\
    metadata_ref s' = None /\ err_state (lib_diag s') = ENONE /\
    roots s' = (add_all u (patch_id ulp) funs (roots s, root_index_counter s)).1 /\
    global_universe s' = u /\ code_mem (core s') = m /\
    queue_holds (queue (code_q (core s'))) l' /\
    coherent (written l' m) (roots s') /\ (loader s' = loader s1 /\ lib_locks s' = lib_locks s) /\
    (forall g, In g (root_addrs (roots s)) -> ~ In g (map fst funs) -> target (written l' m) g = target m g).
Proof.
  unfold __ulp_apply_patch. rewrite entry_pass by done. destruct Hadm as [He Hq _].
  pose proof (keeps_load_metadata alloc_ok calloc_ok c0 s) as Hk. rewrite Hload in Hk.
  destruct Hk as [Kp Kr Kc Ku Kq Ke Kl]. cbn [snd] in *.
  rewrite <- Kp, <- Ku, <- Kc, <- Kl, <- He, <- Ke, <- Kr in *. eapply load_patch_applies; try done. by rewrite Kq.
Qed.

(** C1. Applying a patch: an admissible request with applicable metadata returns 0 and
    leaves the library ready for the next one; the patch is recorded at the head
    of the list, with its dependencies and the bytes its functions start with; each of
    its functions has a new active detour; the queue holds exactly the writes of the
    prologues and of the references, in order. Once they are done, every patched
    function goes where its newest active detour says, and the functions that other
    patches changed go where they went. *)
Theorem apply_request {D} `{Libdl D} `{ArchLaws} progname alloc_ok calloc_ok c0 now (s s1 : lib_state D)
    ulp obj name container funs addrs tb ti pb
    (Hadm : admissible s)
    (Halloc : forall k, alloc_ok k = true)
    (Hload : load_metadata alloc_ok calloc_ok c0 s = (Ok (true, 0), s1))
    (Happ : applicable progname s1 ulp obj name container funs addrs tb ti pb)
    (Hcoh : coherent (code_mem (core s1)) (roots s)) :
  let u := u64 (global_universe s + 1) in
  let m := code_mem (core s1) in
  let l' := all_writes m funs ++ ref_writes tb (u64 ti) (zip (refs ulp) addrs) in
  exists s', __ulp_apply_patch progname alloc_ok calloc_ok c0 now s = (Ok 0, s') /\
    patches s' = new_entry now m ulp name container funs :: patches s /\
    metadata_ref s' = None /\ err_state (lib_diag s') = ENONE /\
    roots s' = (add_all u (patch_id ulp) funs (roots s, root_index_counter s)).1 /\
    global_universe s' = u /\ code_mem (core s') = m /\
    queue_holds (queue (code_q (core s'))) l' /\
    coherent (written l' m) (roots s') /\
    (forall g, In g (root_addrs (roots s)) -> ~ In g (map fst funs) -> target (written l' m) g = target m g).
Proof.
  intros u m l'. destruct (apply_request_ok progname alloc_ok calloc_ok c0 now s s1 ulp obj name container funs addrs tb ti pb
    Hadm Halloc Hload Happ Hcoh) as (s' & E & P & M & Er & R & U & C & Q & Co & _ & G).
  by exists s'.
Qed.

(** ** Reverting *)

Lemma ulp_revert_patch_ok {D} `{ArchLaws} F id (s : lib_state D) lq l :
  queue_holds (queue (code_q (core s))) lq -> ready (code_mem (core s)) lq F -> all_apart F ->
  (forall f, In f (root_addrs (roots s)) -> In f F) ->
  coherent (written lq (code_mem (core s))) (roots s) ->
  q_size (queue (code_q (core s))) + Z.of_nat (n_root_detours id (roots s)) * patch_room <= INSN_BUFFER_MAX ->
  remove_patch id (patches s) = Some l ->
  exists s' lq', ulp_revert_patch id s = (Ok 0, s') /\
    patches s' = l /\ roots s' = map (drop_root id) (roots s) /\
    global_universe s' = u64 (global_universe s + 1) /\
    code_mem (core s') = code_mem (core s) /\ (loader s' = loader s /\ lib_locks s' = lib_locks s) /\ err_state (lib_diag s') = err_state (lib_diag s) /\
    queue_holds (queue (code_q (core s'))) lq' /\ ready (code_mem (core s)) lq' F /\
    q_size (queue (code_q (core s'))) <=
      q_size (queue (code_q (core s))) + Z.of_nat (n_root_detours id (roots s)) * patch_room /\
    coherent (written lq' (code_mem (core s))) (roots s') /\
    (forall x, (forall f, In f F -> x < prologue_start f \/ prologue_end f <= x) ->
      written lq' (code_mem (core s)) !! x = written lq (code_mem (core s)) !! x) /\
    extends F lq lq'.
Proof.
  intros Hq Hr Hap HF Hc Hroom Hrm. set (s0 := set_universe (u64 (global_universe s + 1)) s).
  destruct (ulp_revert_all_units_ok F id s0 lq Hq Hr Hap HF Hc Hroom) as (s1 & s2 & lq' & E & -> & R & Z2 & C & _).
  pose proof (rq_kept _ _ _ _ _ R) as K.
  exists (set_patches l (set_roots (map (drop_root id) (roots s0)) s1)), lq'.
  split; [|split_and!]; try done.
  - unfold ulp_revert_patch, next_universe, bind at 1, modify. fold s0.
    rewrite (bind_ok _ _ _ _ _ E). cbn [negb Z.eqb]. unfold ulp_state_remove. rewrite bind_assoc.
    unfold bind at 1, gets.
    replace (patches (set_roots (map (drop_root id) (roots s0)) s1)) with (patches s)
      by (symmetry; apply (k_patches _ _ K)).
    by rewrite Hrm.
  - apply (k_universe _ _ K).
  - apply (k_mem _ _ K).
  - apply (k_loader _ _ K).
  - apply (k_locks _ _ K).
  - apply (k_err _ _ K).
  - apply (rq_holds _ _ _ _ _ R).
  - apply (rq_ready _ _ _ _ _ R).
  - apply (rq_confined _ _ _ _ _ R).
  - apply (rq_extends _ _ _ _ _ R).
Qed.

Definition inactive (id : bytes) (rs : list ulp_detour_root) : Prop :=
  forall r d, In r rs -> In d (detours r) -> active d = true -> same_id (detour_id d) id = false.

Lemma same_id_take id : same_id (take 32 id) id = true.
Proof. unfold same_id. rewrite take_take. apply byte_eqb_refl. Qed.

Lemma drop_inactive id ds :
  (forall d, In d ds -> active d = true -> same_id (detour_id d) id = false) ->
  active_target (map (drop_id id) ds) = active_target ds.
Proof.
  unfold active_target. induction ds as [|d ds IH]; intros Hf; [done|]. cbn [map find].
  unfold drop_id at 1 2. destruct (same_id (detour_id d) id) eqn:E.
  - cbn [deactivate active]. destruct (active d) eqn:Ea; [by rewrite (Hf d (or_introl eq_refl) Ea) in E|].
    apply IH. intros. apply Hf; [by right|done].
  - destruct (active d); [done|]. apply IH. intros. apply Hf; [by right|done].
Qed.

(** Dropping a patch's detours gives what was before it. *)
Lemma add_all_dropped u id funs : forall rs n (old : Z -> option Z),
  NoDup (root_addrs rs) ->
  (forall r, In r rs -> active_target (map (drop_id id) (detours r)) = old (root_addr r)) ->
  (forall an, In an funs -> ~ In an.1 (root_addrs rs) -> old an.1 = None) ->
  forall r, In r (add_all u id funs (rs, n)).1 ->
  active_target (map (drop_id id) (detours r)) = old (root_addr r).
Proof.
  induction funs as [|an funs IH]; intros rs n old Hnd Hold Hnew r Hr; [by apply Hold|].
  cbn [add_all fold_left fst snd] in Hr. fold (add_all u id funs) in Hr.
  set (d := new_detour u id an.2) in *.
  rewrite (surjective_pairing (add_detour rs n an.1 d)) in Hr.
  apply (IH _ _ old) in Hr; [done|by apply add_detour_nodup| |].
  - intros r' Hr'. apply add_detour_roots in Hr' as [(Ea & ds & Ed & Hds)|[_ Hr']]; [|by apply Hold|done].
    rewrite Ed, Ea. cbn [map]. unfold active_target. cbn [find].
    unfold drop_id at 1. cbn [d new_detour detour_id]. rewrite same_id_take. cbn [deactivate active].
    destruct Hds as [[-> Hni]|(r0 & Hr0 & Ea0 & ->)].
    + rewrite (Hnew an); [done|by left|done].
    + rewrite <- Ea0. by apply Hold.
  - intros an' Han' Hni. apply Hnew; [by right|]. intros Hin. apply Hni, add_detour_addrs. by right.
Qed.

(** What a patch added, dropped: the functions go where they went. *)
Lemma add_all_undone `{ArchLaws} m u id funs rs n r :
  coherent m rs -> inactive id rs ->
  (forall an, In an funs -> ~ In an.1 (root_addrs rs) -> target m an.1 = None) ->
  In r (add_all u id funs (rs, n)).1 -> active_target (map (drop_id id) (detours r)) = target m (root_addr r).
Proof.
  intros [Hu _ _ Ht] Hin Hun Hr. apply (add_all_dropped u id funs rs n (target m)); try done.
  intros r0 Hr0. rewrite drop_inactive by (intros d Hd; by apply (Hin r0)). symmetry. by apply Ht.
Qed.

Lemma dropped_target `{ArchLaws} m id rs r : coherent m (map (drop_root id) rs) -> In r rs ->
  target m (root_addr r) = active_target (map (drop_id id) (detours r)).
Proof. intros [_ _ _ Ht] Hr. exact (Ht (drop_root id r) (in_map _ _ _ Hr)). Qed.

(** C2. Reverting undoes applying: when a patch that was not active in state [s] has
    been applied and its writes done (state [s2]), reverting it returns 0, restores the list of
    patches, and once its writes are done every function of the library goes
    where it went in [s]: the ones only this patch changed, to their own bodies, the
    others, where the patch before said. No byte outside the prologues changes. *)
Theorem revert_restores {D} `{ArchLaws} (s s2 : lib_state D) m u id funs entry
    (Hcoh : coherent m (roots s))
    (Hinactive : inactive id (roots s))
    (Hunpatched : forall an, In an funs -> ~ In an.1 (root_addrs (roots s)) -> target m an.1 = None)
    (Hentry : applied_id entry = take 32 id)
    (Hpatches : patches s2 = entry :: patches s)
    (Hroots : roots s2 = (add_all u id funs (roots s, root_index_counter s)).1)
    (Hcoh2 : coherent (code_mem (core s2)) (roots s2))
    (Hq : queue_holds (queue (code_q (core s2))) [])
    (Hapart : all_apart (root_addrs (roots s2)))
    (Hroom : q_size (queue (code_q (core s2))) + Z.of_nat (n_root_detours id (roots s2)) * patch_room
             <= INSN_BUFFER_MAX) :
  exists s3 lq, ulp_revert_patch id s2 = (Ok 0, s3) /\
    patches s3 = patches s /\ queue_holds (queue (code_q (core s3))) lq /\
    coherent (written lq (code_mem (core s2))) (roots s3) /\
    (forall f, In f (root_addrs (roots s2)) -> target (written lq (code_mem (core s2))) f = target m f) /\
    (forall x, (forall f, In f (root_addrs (roots s2)) -> x < prologue_start f \/ prologue_end f <= x) ->
       written lq (code_mem (core s2)) !! x = code_mem (core s2) !! x).
Proof.
  destruct (ulp_revert_patch_ok (root_addrs (roots s2)) id s2 [] (patches s) Hq)
    as (s3 & lq & E & P3 & R3 & _ & _ & _ & _ & Q3 & _ & _ & C3 & X3 & _); try done.
  { apply ready_start, Hcoh2. }
  { rewrite Hpatches. simpl. by rewrite Hentry, same_id_take. }
  exists s3, lq. split_and!; try done.
  intros f Hf. apply in_map_iff in Hf as (r & <- & Hr). rewrite R3 in C3. rewrite (dropped_target _ _ _ _ C3 Hr).
  rewrite Hroots in Hr. by eapply add_all_undone.
Qed.

(** A patch is applied; an applied patch depends on it. *)
Definition is_applied (id : bytes) (ps : list ulp_applied_patch) : bool :=
  existsb (fun p => same_id (applied_id p) id) ps.

Definition depended_on (id : bytes) (ps : list ulp_applied_patch) : bool :=
  existsb (fun p => existsb (fun dep => same_id (dep_id dep) id) (applied_deps p)) ps.

Lemma log_times_quiet {D} n fmt (s : lib_state D) : exists s', log_times n fmt s = (Ok tt, s') /\ quiet s s'.
Proof.
  revert s. induction n as [|n IH]; intros s; [by exists s|].
  destruct (warn_quiet fmt s) as (s1 & E1 & Q1). destruct (IH s1) as (s2 & E2 & Q2).
  exists s2. cbn [log_times]. rewrite (bind_ok _ _ _ _ _ E1). split; [done|by etransitivity].
Qed.

Lemma find_applied id ps :
  match find (fun p => same_id (applied_id p) id) ps with Some _ => true | None => false end = is_applied id ps.
Proof. unfold is_applied. induction ps as [|p ps IH]; simpl; [done|]. by destruct (same_id _ _). Qed.

Lemma can_revert_result {D} id (s : lib_state D) :
  exists s', ulp_can_revert_patch id s =
    (Ok (if is_applied id (patches s) then if depended_on id (patches s) then EDEPEND else 0 else ENOTAPPLIED), s') /\
    quiet s s'.
Proof.
  unfold ulp_can_revert_patch, ulp_get_applied_patch, bind at 1, gets at 1. rewrite <- find_applied.
  destruct (find _ (patches s)).
  2:{ destruct (warn_quiet "Can't revert because patch was not applied" s) as (s1 & E1 & Q1).
      exists s1. by rewrite (bind_ok _ _ _ _ _ E1). }
  unfold bind at 1, gets. fold (depended_on id (patches s)). destruct (depended_on id (patches s)).
  - destruct (warn_quiet "Can't revert. Dependency:\n   PATCH 0x" s) as (s1 & E1 & Q1).
    destruct (log_times_quiet 32 "%x " s1) as (s2 & E2 & Q2).
    destruct (warn_quiet "\n" s2) as (s3 & E3 & Q3). exists s3.
    rewrite (bind_ok _ _ _ _ _ E1), (bind_ok _ _ _ _ _ E2), (bind_ok _ _ _ _ _ E3).
    split; [done|]. etransitivity; [|done]. by etransitivity.
  - by exists s.
Qed.

Lemma remove_applied id ps : is_applied id ps = true -> exists l, remove_patch id ps = Some l.
Proof.
  induction ps as [|p ps IH]; simpl; [done|]. destruct (same_id _ _); [by eexists|].
  intros E. destruct (IH E) as [l ->]. by eexists.
Qed.

(** What a request to revert does, and that the loader is as the metadata left it. *)
Lemma revert_request_ok {D} `{Libdl D} `{ArchLaws} progname alloc_ok calloc_ok c0 now (s s1 : lib_state D) ulp
    (Hadm : admissible s)
    (Hload : load_metadata alloc_ok calloc_ok c0 s = (Ok (true, 0), s1))
    (Href : metadata_ref s1 = Some ulp)
    (Htype : type ulp = 2) :
  let id := patch_id ulp in
  let m := code_mem (core s1) in
  let request := __ulp_apply_patch progname alloc_ok calloc_ok c0 now in
  (is_applied id (patches s) = false -> exists s', request s = (Ok ENOTAPPLIED, s') /\ framed s s') /\
  (is_applied id (patches s) = true -> depended_on id (patches s) = true ->
     exists s', request s = (Ok EDEPEND, s') /\ framed s s') /\
  (is_applied id (patches s) = true -> depended_on id (patches s) = false ->
   coherent m (roots s) -> all_apart (root_addrs (roots s)) ->
   q_size (queue (code_q (core s))) + Z.of_nat (n_root_detours id (roots s)) * patch_room <= INSN_BUFFER_MAX ->
     exists s' lq, request s = (Ok 0, s') /\
       remove_patch id (patches s) = Some (patches s') /\ roots s' = map (drop_root id) (roots s) /\
       metadata_ref s' = None /\ err_state (lib_diag s') = ENONE /\ code_mem (core s') = m /\ (loader s' = loader s1 /\ lib_locks s' = lib_locks s) /\
       extends (root_addrs (roots s)) [] lq /\
       queue_holds (queue (code_q (core s'))) lq /\ coherent (written lq m) (roots s') /\
       (forall x, (forall f, In f (root_addrs (roots s)) -> x < prologue_start f \/ prologue_end f <= x) ->
          written lq m !! x = m !! x)).
Proof.
  intros id m request. unfold request, __ulp_apply_patch. rewrite entry_pass by done.
  destruct Hadm as [He Hq _].
  pose proof (keeps_load_metadata alloc_ok calloc_ok c0 s) as Hk. rewrite Hload in Hk. cbn [snd] in Hk.
  pose proof Hk as [Kp Kr Kc Ku Kq Ke Kl].
  destruct (can_revert_result id s1) as (s2 & E2 & Q2). rewrite Kp in E2.
  assert (Hrun : load_patch progname alloc_ok calloc_ok c0 now s =
    bind (bind (ulp_can_revert_patch id) (fun r => if negb (r =? 0) then ret r else
           let! r := ulp_revert_patch id in
           (if negb (r =? 0) then warn "Unable to revert patch." else ret tt);;; ret r))
         (fun r => unload_metadata;;; ret r) s1).
  { unfold load_patch. rewrite (bind_ok _ _ _ _ _ Hload). cbn [negb].
    unfold bind at 1, get_ulp at 1. rewrite Href, Htype. done. }
  rewrite Hrun, bind_assoc, (bind_ok _ _ _ _ _ E2). clear Hrun.
  assert (Hfr : framed s (set_metadata_ref None s2)).
  { transitivity s1; [done|]. destruct Q2 as [[] ? ? ? ?]. by split. }
  split; [|split].
  - intros ->. eexists. split; [reflexivity|done].
  - intros -> ->. eexists. split; [reflexivity|done].
  - intros Hap Hdep Hc Hapart Hroom. rewrite Hap, Hdep. cbn [negb Z.eqb].
    destruct (remove_applied _ _ Hap) as [l Hl]. pose proof (k_mem _ _ (q_kept _ _ Q2)) as Em. fold m in Em.
    destruct (ulp_revert_patch_ok (root_addrs (roots s)) id s2 [] l)
      as (s3 & lq & E3 & P3 & R3 & _ & M3 & [L3 K3] & Er3 & Q3 & _ & _ & C3 & X3 & W3);
      rewrite ?(q_queue _ _ Q2), ?Kq, ?(q_roots _ _ Q2), ?Kr, ?Em, ?(k_patches _ _ (q_kept _ _ Q2)), ?Kp; try done.
    { apply ready_start, Hc. }
    rewrite (q_roots _ _ Q2), Kr in R3. rewrite Em in M3, C3, X3.
    exists (set_metadata_ref None s3), lq. split; [|split_and!; try done].
    + by rewrite bind_assoc, (bind_ok _ _ _ _ _ E3).
    + by rewrite Hl, <- P3.
    + change (err_state (lib_diag s3) = ENONE). by rewrite Er3, (k_err _ _ (q_kept _ _ Q2)), Ke.
    + rewrite (L3 : loader (set_metadata_ref None s3) = _). exact (k_loader _ _ (q_kept _ _ Q2)).
    + rewrite (K3 : lib_locks (set_metadata_ref None s3) = _), (k_locks _ _ (q_kept _ _ Q2)). exact Kl.
Qed.

(** C3. Requests to revert. With the metadata of a reversal loaded, a request
    fails with [ENOTAPPLIED] when the patch is not applied and with [EDEPEND] when an
    applied patch depends on it, and then neither the patches, the detours nor the
    queue change. Otherwise it returns 0: the first patch with that id is gone from
    the list, its detours are inactive, and once the queued writes are done every
    patched function goes where its newest active detour says; no byte outside their
    prologues changes. *)
Theorem revert_request {D} `{Libdl D} `{ArchLaws} progname alloc_ok calloc_ok c0 now (s s1 : lib_state D) ulp
    (Hadm : admissible s)
    (Hload : load_metadata alloc_ok calloc_ok c0 s = (Ok (true, 0), s1))
    (Href : metadata_ref s1 = Some ulp)
    (Htype : type ulp = 2) :
  let id := patch_id ulp in
  let m := code_mem (core s1) in
  let request := __ulp_apply_patch progname alloc_ok calloc_ok c0 now in
  (is_applied id (patches s) = false -> exists s', request s = (Ok ENOTAPPLIED, s') /\ framed s s') /\
  (is_applied id (patches s) = true -> depended_on id (patches s) = true ->
     exists s', request s = (Ok EDEPEND, s') /\ framed s s') /\
  (is_applied id (patches s) = true -> depended_on id (patches s) = false ->
   coherent m (roots s) -> all_apart (root_addrs (roots s)) ->
   q_size (queue (code_q (core s))) + Z.of_nat (n_root_detours id (roots s)) * patch_room <= INSN_BUFFER_MAX ->
     exists s' lq, request s = (Ok 0, s') /\
       remove_patch id (patches s) = Some (patches s') /\ roots s' = map (drop_root id) (roots s) /\
       metadata_ref s' = None /\ err_state (lib_diag s') = ENONE /\ code_mem (core s') = m /\
       queue_holds (queue (code_q (core s'))) lq /\ coherent (written lq m) (roots s') /\
       (forall x, (forall f, In f (root_addrs (roots s)) -> x < prologue_start f \/ prologue_end f <= x) ->
          written lq m !! x = m !! x)).
Proof.
  intros id m request.
  destruct (revert_request_ok progname alloc_ok calloc_ok c0 now s s1 ulp Hadm Hload Href Htype) as (G1 & G2 & G3).
  split; [exact G1|split; [exact G2|]]. intros Ha Hd Hc Hap Hroom.
  destruct (G3 Ha Hd Hc Hap Hroom) as (s' & lq & E & P & R & M & Er & C & _ & _ & Q & Co & X). by exists s', lq.
Qed.

(** ** Failures *)

(** The records of patches and detours are as they were. *)
Definition untouched {D} (s s' : lib_state D) : Prop := patches s' = patches s /\ roots s' = roots s.

Definition spares {D E A} (m : st (lib_state D) E A) : Prop := forall s, untouched s (m s).2.

(** The same when the computation ends early or returns 0. *)
Definition early {D} (m : lib_m D Z) : Prop :=
  forall s, match m s with (Err _, s') | (Ok 0, s') => untouched s s' | _ => True end.

Lemma keeps_spares {D E A} (m : st (lib_state D) E A) : keeps m -> spares m.
Proof. intros Hm s. by destruct (Hm s). Qed.

Lemma spares_bind {D E A B} (m : st (lib_state D) E A) (k : A -> st (lib_state D) E B) :
  spares m -> (forall a, spares (k a)) -> spares (bind m k).
Proof.
  intros Hm Hk s. unfold bind, untouched in *. specialize (Hm s). destruct (m s) as [[a|e| |] s1]; simpl in *; try done.
  specialize (Hk a s1). simpl in Hk. unfold untouched in *. intuition congruence.
Qed.

Lemma early_bind {D A} (m : lib_m D A) (k : A -> lib_m D Z) :
  spares m -> (forall a, early (k a)) -> early (bind m k).
Proof.
  intros Hm Hk s. unfold bind, untouched. specialize (Hm s). unfold untouched in Hm.
  destruct (m s) as [[a|e| |] s1]; try done.
  specialize (Hk a s1). unfold untouched in Hk. destruct (k a s1) as [[[]|e| |] s2]; try done; simpl in *; intuition congruence.
Qed.

Lemma early_code {D} (m : lib_m D Z) s :
  early m -> match code m s with (Ok 0, s') => untouched s s' | _ => True end.
Proof. intros He. unfold code. specialize (He s). by destruct (m s) as [[[]|[]| |] s']. Qed.

Section state_update.
Context {D : Type} `{Libdl D} `{Arch}.
Variable alloc_ok : nat -> bool.
Variable progname : bytes.

Lemma spares_find_symbol l n o : spares (find_symbol (D := D) progname l n o).
Proof using. intros s. unfold find_symbol, on_lib_diag. by destruct (get_loaded_symbol_addr _ _ _ _ _ _). Qed.

Lemma keeps_read_code a n : keeps (on_core (D := D) (read_code a n)).
Proof using. intros s. unfold on_core, read_code. destruct (mem_read _ _ _); by destruct s. Qed.

Lemma keeps_load_so_symbol f h : keeps (load_so_symbol (D := D) f h).
Proof using. intros s. unfold load_so_symbol. destruct (dlsym _ _ _) as [[a e] d]. by destruct e. Qed.

Lemma keeps_alloc_or_fail fmt : keeps (alloc_or_fail (D := D) alloc_ok fmt).
Proof using. unfold alloc_or_fail. keep. Qed.

Lemma keeps_strndup s : keeps (strndup_or_fail (D := D) alloc_ok s).
Proof using. unfold strndup_or_fail. keep. Qed.

Lemma keeps_for_each {A} (l : list A) (f : A -> lib_m D unit) : (forall x, keeps (f x)) -> keeps (for_each l f).
Proof using. intros Hf. induction l; simpl; [keep|]. by apply keeps_bind. Qed.

Lemma spares_record_units ulp t l : spares (record_units (D := D) progname alloc_ok ulp t l).
Proof using.
  induction l as [|un l IH]; [by intros s|]. cbn [record_units]. apply spares_bind; [|intros; by apply spares_bind].
  unfold record_unit, guard. apply spares_bind; [apply keeps_spares, keeps_alloc_or_fail|intros _].
  apply spares_bind; [apply spares_find_symbol|intros a].
  apply keeps_spares. keep; [apply keeps_load_so_symbol|apply keeps_read_code].
Qed.

Lemma ulp_state_update_early now s :
  match ulp_state_update (D := D) progname alloc_ok now s with (Ok 0, s') => untouched s s' | _ => True end.
Proof using.
  unfold ulp_state_update. apply early_code.
  apply early_bind; [apply keeps_spares; keep|intros ulp].
  apply early_bind; [apply keeps_spares, keeps_alloc_or_fail|intros _].
  apply early_bind; [apply keeps_spares, keeps_get_obj|intros obj]. cbv zeta.
  do 2 (apply early_bind; [apply keeps_spares, keeps_strndup|intros ?]).
  apply early_bind; [apply keeps_spares, keeps_for_each; intros; apply keeps_alloc_or_fail|intros _].
  apply early_bind; [apply spares_record_units|intros l]. by intros s0.
Qed.
End state_update.

(** C34. Failing while applying. When a patch cannot be recorded (a function is
    missing, or memory) the request fails with [ESTATE] and the patches and the
    detours are as before. When it is recorded and then cannot be applied, the
    request fails with the code of the failure and the library stops: the error state
    becomes [EUNKNOWN], the user's switch does not clear it, every later request to apply or revert
    is refused with no effect, and the half-applied patch stays recorded. *)
Theorem failed_apply {D} `{Libdl D} `{Arch} progname alloc_ok calloc_ok c0 now (s s1 s2 s3 : lib_state D) ulp
    (Hadm : admissible s)
    (Hload : load_metadata alloc_ok calloc_ok c0 s = (Ok (true, 0), s1))
    (Href : metadata_ref s1 = Some ulp)
    (Htype : type ulp = 1) :
  let apply := __ulp_apply_patch progname alloc_ok calloc_ok c0 now in
  (ulp_state_update progname alloc_ok now s1 = (Ok 0, s2) ->
     exists s', apply s = (Ok ESTATE, s') /\ patches s' = patches s /\ roots s' = roots s /\
       metadata_ref s' = None) /\
  (forall e r, ulp_state_update progname alloc_ok now s1 = (Ok e, s2) -> e <> 0 ->
   ulp_apply_all_units progname alloc_ok s2 = (Ok r, s3) -> r <> 0 ->
     exists s', apply s = (Ok r, s') /\ patches s' = patches s3 /\ err_state (lib_diag s') = EUNKNOWN /\
       (ulp_enable_or_disable_patching (lib_diag s')).2 = lib_diag s' /\
       (forall fuel, apply s' = (Ok EUNKNOWN, s') /\
                     __ulp_revert_patches_from_lib progname fuel s' = (Ok EUNKNOWN, s'))).
Proof.
  intros apply. unfold apply, __ulp_apply_patch at 1 2.
  pose proof (keeps_load_metadata alloc_ok calloc_ok c0 s) as Hk. rewrite Hload in Hk. destruct Hk as [Kp Kr _ _ _ _ _].
  cbn [snd] in *.
  assert (Hrun : forall r s', ulp_state_update progname alloc_ok now s1 = (r, s') ->
    load_patch progname alloc_ok calloc_ok c0 now s =
    bind (bind (fun _ => (r, s')) (fun entry => if entry =? 0 then ret ESTATE
           else
             let! r := ulp_apply_all_units progname alloc_ok in
             (if negb (r =? 0) then
                warn "FATAL ERROR while applying patch units\n";;;
                on_lib_diag (modify (libpulp_exit_func r))
              else ret tt);;;
             ret r)) (fun r => unload_metadata;;; ret r) s1).
  { intros r s' E. unfold load_patch. rewrite (bind_ok _ _ _ _ _ Hload). cbn [negb].
    unfold bind at 1, get_ulp at 1. rewrite Href, Htype. cbn [Z.eqb Pos.eqb].
    rewrite !bind_assoc. unfold bind at 1 4. by rewrite E. }
  split.
  - intros E. rewrite entry_pass, (Hrun _ _ E) by done.
    pose proof (ulp_state_update_early alloc_ok progname now s1) as He. rewrite E in He. destruct He as [Ep Er].
    eexists. split; [reflexivity|]. simpl. rewrite <- Kp, <- Kr. done.
  - intros e r E He Ea Hr. rewrite entry_pass, (Hrun _ _ E) by done.
    rewrite bind_assoc. unfold bind at 1. destruct (Z.eqb_spec e 0); [done|].
    rewrite bind_assoc, (bind_ok _ _ _ _ _ Ea). destruct (Z.eqb_spec r 0); [done|]. cbn [negb].
    eexists. split; [reflexivity|]. split; [done|]. split; [done|]. split; [done|].
    intros fuel. split; unfold __ulp_apply_patch, __ulp_revert_patches_from_lib; by rewrite entry_error.
Qed.

(** ** Build ids *)

(** The note a linker puts into a library. *)
Definition build_id_note (id : bytes) : bytes :=
  le_bytes 4 4 ++ le_bytes 4 (zlen id) ++ le_bytes 4 3 ++ str "GNU" ++ [0] ++ id.

Lemma slice_head {A} n (l k : list A) : length l = n -> slice 0 n (l ++ k) = l.
Proof. intros <-. unfold slice. rewrite drop_0. apply take_app_length. Qed.

Lemma slice_skip {A} n k (l r : list A) : length l = n -> slice (n + k) n (l ++ r) = slice k n r.
Proof. intros <-. unfold slice. by rewrite drop_app_add. Qed.

(** The build id check is inverted: of a library whose first note is its build id, the
    patch's build id is found to match when it has the same length and is
    {e different}, and not to match when it is the same. *)
Theorem build_ids_inverted id o pid rest phdrs size
    (Hlen : 16 <= zlen id < 2 ^ 31)
    (Hpid : build_id o = Some pid /\ zlen pid = build_id_len o)
    (Hsize : 16 + zlen id <= size) :
  compare_build_ids (PT_NOTE (build_id_note id ++ rest) size :: phdrs) o =
    if negb (build_id_len o =? zlen id) || byte_eqb pid id then compare_build_ids phdrs o else Ok true.
Proof.
  destruct Hpid as [Hpid Hpl]. pose proof (zlen_nonneg id).
  cbn [compare_build_ids]. set (content := build_id_note id ++ rest).
  assert (Ew : forall k a b, content = a ++ le_bytes 4 b ++ drop (length a + 4) content -> zlen a = k -> in_u 32 b ->
    le_val (slice (Z.to_nat (0 + k)) 4 content) = b).
  { intros k a b Ec Ha Hb. rewrite Ec. replace (Z.to_nat (0 + k)) with (length a) by (unfold zlen in Ha; lia).
    rewrite <- (length_le_bytes 4 b) at 1. rewrite slice_app. by apply le_val_bytes. }
  assert (Elen : zlen content = 16 + zlen id + zlen rest).
  { unfold content, build_id_note. rewrite !zlen_app, !zlen_le_bytes. change (zlen (str "GNU")) with 3.
    change (zlen [0]) with 1. lia. }
  pose proof (zlen_nonneg rest).
  cbn [scan_notes].
  destruct (Z.leb_spec 16 size); [|lia]. cbn [negb]. cbv zeta.
  destruct (Z.ltb_spec (zlen content) (0 + 12)); [lia|].
  rewrite (Ew 0 [] 4), (Ew 4 (le_bytes 4 4) (zlen id)), (Ew 8 (le_bytes 4 4 ++ le_bytes 4 (zlen id)) 3);
    try reflexivity; try (unfold in_u; lia).
  cbn [Z.eqb Pos.eqb andb]. destruct (Z.leb_spec 16 (zlen id)); [|lia]. rewrite (Z.eqb_sym (zlen id)).
  destruct (Z.eqb_spec (build_id_len o) (zlen id)) as [El|]; cbn [negb orb]; [|done].
  rewrite Hpid. destruct (Z.ltb_spec (zlen content) (0 + 16 + zlen id)); [lia|].
  destruct (Z.ltb_spec (zlen pid) (zlen id)); [lia|]. cbn [orb].
  assert (Es : slice (Z.to_nat (0 + 16)) (Z.to_nat (zlen id)) content = id).
  { unfold content, build_id_note.
    replace (le_bytes 4 4 ++ le_bytes 4 (zlen id) ++ le_bytes 4 3 ++ str "GNU" ++ [0] ++ id)
      with ((le_bytes 4 4 ++ le_bytes 4 (zlen id) ++ le_bytes 4 3 ++ str "GNU" ++ [0]) ++ id)
      by (by rewrite <- !app_assoc).
    rewrite <- app_assoc, zlen_nat. change (Z.to_nat (0 + 16)) with 16%nat.
    apply (slice_app (le_bytes 4 4 ++ le_bytes 4 (zlen id) ++ le_bytes 4 3 ++ str "GNU" ++ [0]) id rest). }
  rewrite Es, take_ge by (unfold zlen in *; lia). by destruct (byte_eqb pid id).
Qed.
