(* ===== verification/PatchingLock.v ===== *)
(** * The patching lock, under every interleaving

    Threads enter and leave the interposed functions, the loader locks and
    unlocks, threads are started, patches are applied and reverted, and the tool
    and the program change what is theirs. In every state that can be reached
    this way it is known which requests are let through. *)

From stdpp Require Import gmap.
From S2P Require Import Prelude Errors Memory Metadata InsnQueue Arch SymbolLoader Interpose.
From S2P Require Import PatchCore PatchCoherence Requests.

Open Scope ulp_scope.

(** ** What a request leaves of the lock *)

Section kept.
Context {D : Type}.

Definition keeps_locks {A} (m : lib_m D A) : Prop := forall s, lib_locks (m s).2 = lib_locks s.

Lemma kept_ret {A} (a : A) : keeps_locks (ret a).
Proof. by intros s. Qed.
Lemma kept_throw {A} e : keeps_locks (throw e : lib_m D A).
Proof. by intros s. Qed.
Lemma kept_undef {A} : keeps_locks (undef : lib_m D A).
Proof. by intros s. Qed.
Lemma kept_nofuel {A} : keeps_locks (nofuel : lib_m D A).
Proof. by intros s. Qed.
Lemma kept_gets {A} (f : lib_state D -> A) : keeps_locks (gets f).
Proof. by intros s. Qed.
Lemma kept_modify f : (forall s, lib_locks (f s) = lib_locks s) -> keeps_locks (modify f).
Proof. intros Hf s. apply Hf. Qed.
Lemma kept_bind {A B} (m : lib_m D A) (k : A -> lib_m D B) : keeps_locks m -> (forall a, keeps_locks (k a)) -> keeps_locks (bind m k).
Proof.
  intros Hm Hk s. unfold bind. specialize (Hm s). destruct (m s) as [[a|e| |] s1]; cbn [snd] in *; try done. by rewrite Hk.
Qed.
Lemma kept_code (m : lib_m D Z) : keeps_locks m -> keeps_locks (code m).
Proof. intros Hm s. unfold code. specialize (Hm s). by destruct (m s) as [[] ?]. Qed.
Lemma kept_core {A} (m : arch_m A) : keeps_locks (on_core m).
Proof. intros s. unfold on_core. by destruct (m (core s)). Qed.
Lemma kept_diag {A} (m : st diag Z A) : keeps_locks (on_lib_diag m).
Proof. intros s. unfold on_lib_diag. by destruct (m (lib_diag s)). Qed.
Lemma kept_warn m : keeps_locks (warn m).
Proof. by intros s. Qed.
Lemma kept_for_each {A} (l : list A) (f : A -> lib_m D unit) : (forall a, keeps_locks (f a)) -> keeps_locks (for_each l f).
Proof. intros Hf. induction l as [|a l IH]; cbn [for_each]; [apply kept_ret|]. by apply kept_bind. Qed.
(** A computation that looks at the state first. *)
Lemma kept_at {A} (m : lib_state D -> lib_m D A) : (forall s0, keeps_locks (m s0)) -> keeps_locks (fun s => m s s).
Proof. intros Hm s. apply Hm. Qed.
End kept.

Create HintDb locks.
#[export] Hint Resolve kept_ret kept_throw kept_undef kept_nofuel kept_gets kept_core kept_diag kept_warn : locks.

Ltac keep_locks := repeat first
  [ assumption | progress (auto with locks nocore) | simple apply kept_modify; done | simple apply kept_code | simple apply kept_for_each; intros
  | simple apply kept_bind; [|intros] | progress cbv zeta | progress unfold guard | case_goal ].

Section requests.
Context {D : Type} `{Libdl D} `{Arch}.
Variable progname : bytes.
Variable alloc_ok : nat -> bool.
Variable calloc_ok : nat -> Z -> bool.
Variable c0 now : Z.

Lemma kept_alloc : keeps_locks (lib_alloc alloc_ok : lib_m D bool).
Proof. by intros s. Qed.
Lemma kept_get_ulp : keeps_locks (get_ulp : lib_m D ulp_metadata).
Proof. intros s. unfold get_ulp. by destruct (metadata_ref s). Qed.
Lemma kept_upd f : keeps_locks (upd_metadata f : lib_m D unit).
Proof. by intros s. Qed.
Lemma kept_find_symbol l n a : keeps_locks (find_symbol progname l n a : lib_m D Z).
Proof. intros s. apply kept_diag. Qed.
Lemma kept_lib_base t : keeps_locks (lib_base progname t : lib_m D Z).
Proof. intros s. apply kept_diag. Qed.
Lemma kept_lib_tls t : keeps_locks (lib_tls progname t : lib_m D Z).
Proof. intros s. apply kept_diag. Qed.
Lemma kept_dlinfo h : keeps_locks (call_dlinfo h : lib_m D (option Z)).
Proof. intros s. unfold call_dlinfo. by destruct (dlinfo h (loader s)). Qed.
Lemma kept_so_symbol n h : keeps_locks (load_so_symbol n h : lib_m D Z).
Proof. intros s. unfold load_so_symbol. destruct (dlsym h (cstr n) (loader s)) as [[f e] d]. by destruct e. Qed.
Lemma kept_load_so o : keeps_locks (load_so o : lib_m D Z).
Proof. intros s. unfold load_so. destruct (dlopen _ _ _) as [[o' d] m]. by destruct (o' =? 0). Qed.
Lemma kept_parser : keeps_locks (run_parser calloc_ok c0 : lib_m D Z).
Proof. intros s. unfold run_parser. destruct (metadata_ref s) as [u|]; [|done]. by destruct (parse_metadata_from_mem _ _ _ _ _). Qed.
Hint Resolve kept_alloc kept_get_ulp kept_upd kept_find_symbol kept_lib_base kept_lib_tls kept_dlinfo kept_so_symbol kept_load_so kept_parser : locks.

Lemma kept_get_obj : keeps_locks (get_obj : lib_m D ulp_object).
Proof. unfold get_obj. keep_locks. Qed.
Hint Resolve kept_get_obj : locks.

Lemma kept_unload_handlers : keeps_locks (unload_handlers : lib_m D Z).
Proof.
  unfold unload_handlers. keep_locks. intros s. destruct (dlclose _ _) as [rc d]. by destruct (negb _).
Qed.
Hint Resolve kept_unload_handlers : locks.

Lemma kept_load_so_handlers : keeps_locks (load_so_handlers : lib_m D Z).
Proof. unfold load_so_handlers. keep_locks. Qed.

Lemma kept_build_ids infos : keeps_locks (iterate_build_ids infos : lib_m D unit).
Proof. induction infos as [|i infos IH]; cbn [iterate_build_ids]; keep_locks. Qed.
Hint Resolve kept_load_so_handlers kept_build_ids : locks.

Lemma kept_sanity : keeps_locks (check_patch_sanity : lib_m D Z).
Proof. unfold check_patch_sanity, check_build_id, check_patch_dependencies, ulp_get_applied_patch. keep_locks. Qed.
Hint Resolve kept_sanity : locks.

Lemma kept_load_metadata : keeps_locks (load_metadata alloc_ok calloc_ok c0 : lib_m D (bool * Z)).
Proof. unfold load_metadata, parse_metadata, unload_metadata. keep_locks. Qed.

Lemma kept_apply_all : keeps_locks (ulp_apply_all_units progname alloc_ok : lib_m D Z).
Proof.
  unfold ulp_apply_all_units, apply_unit, apply_ref, next_universe, get_or_push_root, get_detour_root_by_address,
    push_new_root, get_next_function_index, upd_root, push_new_detour.
  keep_locks.
Qed.

Lemma kept_record_units u t l : keeps_locks (record_units progname alloc_ok u t l : lib_m D _).
Proof. induction l as [|x l IH]; cbn [record_units]; unfold record_unit, alloc_or_fail; keep_locks. Qed.
Hint Resolve kept_load_metadata kept_apply_all kept_record_units : locks.

Lemma kept_state_update : keeps_locks (ulp_state_update progname alloc_ok now : lib_m D Z).
Proof. unfold ulp_state_update, alloc_or_fail, strndup_or_fail. keep_locks. Qed.

Lemma kept_log_times n fmt : keeps_locks (log_times n fmt : lib_m D unit).
Proof. induction n as [|n IH]; cbn [log_times]; keep_locks. Qed.
Hint Resolve kept_state_update kept_log_times : locks.

Lemma kept_can_revert id : keeps_locks (ulp_can_revert_patch id : lib_m D Z).
Proof. unfold ulp_can_revert_patch, ulp_get_applied_patch. keep_locks. Qed.

Lemma kept_revert_detours a id l : forall pre, keeps_locks (revert_detours a id pre l : lib_m D _).
Proof. induction l as [|d l IH]; intros pre; cbn [revert_detours]; keep_locks; apply IH. Qed.

Lemma kept_revert_roots id l : keeps_locks (revert_roots id l : lib_m D _).
Proof. induction l as [|r l IH]; cbn [revert_roots]; keep_locks. apply kept_revert_detours. Qed.
Hint Resolve kept_can_revert kept_revert_roots : locks.

Lemma kept_revert_patch id : keeps_locks (ulp_revert_patch id : lib_m D Z).
Proof. unfold ulp_revert_patch, next_universe, ulp_revert_all_units, ulp_state_remove. keep_locks. Qed.
Hint Resolve kept_revert_patch : locks.

Lemma kept_revert_loop fuel name : forall r l, keeps_locks (revert_loop fuel name r l : lib_m D Z).
Proof. induction fuel as [|n IH]; intros r l; cbn [revert_loop]; keep_locks; apply IH. Qed.
Hint Resolve kept_revert_loop : locks.

(** The two requests, behind their entry checks. *)
Lemma kept_load_patch : keeps_locks (load_patch progname alloc_ok calloc_ok c0 now : lib_m D Z).
Proof. unfold load_patch, unload_metadata. keep_locks. Qed.

Lemma kept_revert_all fuel name : keeps_locks (revert_all_patches_from_lib progname fuel name : lib_m D Z).
Proof. unfold revert_all_patches_from_lib. keep_locks. Qed.
End requests.

(** ** The process

    Each thread has a depth: the number of wrappers it is inside of. A request
    finds the threads stopped wherever they are. *)

Definition total_depth (ds : list nat) : Z := fold_right (fun d n => Z.of_nat d + n) 0 ds.

Lemma total_depth_insert ds t d d' :
  ds !! t = Some d -> total_depth (<[t := d']> ds) = total_depth ds - Z.of_nat d + Z.of_nat d'.
Proof.
  revert t. induction ds as [|x ds IH]; intros [|t] Hx; simpl in *; try done.
  - injection Hx as ->. lia.
  - rewrite (IH t Hx). lia.
Qed.

Lemma total_depth_app ds ds' : total_depth (ds ++ ds') = total_depth ds + total_depth ds'.
Proof. induction ds; simpl; lia. Qed.

Lemma total_depth_nonneg ds : 0 <= total_depth ds.
Proof. induction ds; simpl; lia. Qed.

Lemma total_depth_zero ds : total_depth ds = 0 <-> Forall (fun d => d = 0%nat) ds.
Proof.
  induction ds as [|d ds IH]; simpl; [by split; [constructor|]|].
  pose proof (total_depth_nonneg ds). rewrite Forall_cons_iff, <- IH. lia.
Qed.

Section process.
Context {D : Type} `{Libdl D} `{Arch}.
Variable progname : bytes.

Record process := { depths : list nat; lib : lib_state D }.

(** A request of the tool, run to its end: [allocs] and the others are what the
    allocator, the parser's indeterminate local and the clock are at this time. *)
Inductive requests : lib_m D Z -> Prop :=
| Applies allocs callocs c0 now : requests (load_patch progname allocs callocs c0 now)
| Reverts fuel : requests (
    let! buf := gets metadata_buffer in
    revert_all_patches_from_lib progname fuel (cstr buf)).

(** They are the bodies of the entry points. *)
Lemma apply_entry allocs callocs c0 now :
  __ulp_apply_patch progname allocs callocs c0 now = entry_checks (load_patch (D := D) progname allocs callocs c0 now).
Proof. done. Qed.
Lemma revert_entry fuel : __ulp_revert_patches_from_lib progname fuel = entry_checks (
  let! buf := gets metadata_buffer in revert_all_patches_from_lib (D := D) progname fuel (cstr buf)).
Proof. done. Qed.

Inductive step : process -> process -> Prop :=
| Enters p t d s :
    depths p !! t = Some d -> total_depth (depths p) < 2 ^ 31 - 1 ->
    on_lib_locks enter (lib p) = (Ok tt, s) ->
    step p {| depths := <[t := S d]> (depths p); lib := s |}
| Leaves p t d s :
    depths p !! t = Some (S d) ->
    on_lib_locks leave (lib p) = (Ok tt, s) ->
    step p {| depths := <[t := d]> (depths p); lib := s |}
| Loader p l w x :    (* the loader locks and unlocks, and loads or unloads *)
    step p {| depths := depths p;
              lib := set_loader x (set_locks {| flag := flag (lib_locks (lib p)); dl_load_lock := Some l;
                                                dl_load_write_lock := Some w |} (lib p)) |}
| Starts p :          (* a new thread *)
    step p {| depths := depths p ++ [0%nat]; lib := lib p |}
| Outside p c buf :   (* the program runs, the tool writes its buffer and executes
                         the queue, the user forbids or allows live patching *)
    step p {| depths := depths p; lib := set_core c (set_metadata_buffer buf (lib p)) |}
| Requests p body r s :
    requests body -> entry_checks body (lib p) = (r, s) ->
    step p {| depths := depths p; lib := s |}.

Inductive reachable (p0 : process) : process -> Prop :=
| reach_start : reachable p0 p0
| reach_step p p' : reachable p0 p -> step p p' -> reachable p0 p'.

(** [flag] counts the threads inside, and the mutexes are known. *)
Record counts (p : process) : Prop := {
  counts_flag : flag (lib_locks (lib p)) = total_depth (depths p);
  counts_bound : 0 <= total_depth (depths p) < 2 ^ 31;
  counts_load : is_Some (dl_load_lock (lib_locks (lib p)));
  counts_write : is_Some (dl_load_write_lock (lib_locks (lib p))) }.

(** ** The entry checks, in every state with known mutexes *)

Definition queue_empty (s : lib_state D) : Prop :=
  q_num_insns (queue (code_q (core s))) <= 0 /\ q_size (queue (code_q (core s))) <= 0.

(** The words a free or a locked mutex may have without a waiter. *)
Definition uncontended (l w : Z) : Prop := (0 <= l <= 1) /\ (0 <= w <= 1).

Lemma entry_open (body : lib_m D Z) s : err_state (lib_diag s) = ENONE -> queue_empty s ->
  entry_checks body s =
    (let! busy := on_lib_locks __ulp_asunsafe_trylock in
     if negb (busy =? 0) then ret EAGAIN else on_lib_locks __ulp_asunsafe_unlock;;; body) s.
Proof.
  intros He [Hn Hs]. unfold entry_checks, bind at 1, gets at 1.
  unfold libpulp_is_in_error_state, get_libpulp_error_state. rewrite He. cbn [negb Z.eqb ENONE].
  assert (E1 : on_core (on_queue insnq_ensure_emptiness) s = (Ok 0, s)).
  { unfold on_core, on_queue, insnq_ensure_emptiness, bind at 1, gets at 1.
    rewrite (proj2 (Z.ltb_ge 0 (q_num_insns _))) by done. rewrite (proj2 (Z.ltb_ge 0 (q_size _))) by done.
    cbn. destruct s as [? ? ? ? ? ? ? [? [? ?]] ? ? ?]. done. }
  by rewrite (bind_ok _ _ _ _ _ E1).
Qed.

(** The lock is taken and given back, and the body runs. *)
Lemma entry_free (body : lib_m D Z) s : err_state (lib_diag s) = ENONE -> queue_empty s ->
  lib_locks s = {| flag := 0; dl_load_lock := Some 0; dl_load_write_lock := Some 0 |} ->
  entry_checks body s = body s.
Proof.
  intros He Hq Hl. rewrite entry_open by done.
  destruct s as [a b c d e f g [m [q dg]] h l k]. simpl in Hl, He. subst l. done.
Qed.

(** The lock is not taken. *)
Lemma entry_held (body : lib_m D Z) s l w : err_state (lib_diag s) = ENONE -> queue_empty s ->
  dl_load_lock (lib_locks s) = Some l -> dl_load_write_lock (lib_locks s) = Some w ->
  l <> 0 \/ w <> 0 \/ flag (lib_locks s) <> 0 ->
  exists dg, entry_checks body s = (Ok EAGAIN, set_lib_diag dg s) /\
    (uncontended l w -> err_state dg = ENONE) /\ (~ uncontended l w -> err_state dg = EUNKNOWN).
Proof.
  intros He Hq Hl Hw Hbusy. rewrite entry_open by done.
  destruct (trylock_held {| lk := lib_locks s; lk_diag := lib_diag s |} l w Hl Hw Hbusy) as (d & E & Hd). cbn [lk lk_diag] in E, Hd.
  unfold bind, on_lib_locks. rewrite E. exists d. split; [by destruct s|].
  rewrite Hd, He. assert (Hb : (0 <=? l) && (l <=? 1) && ((0 <=? w) && (w <=? 1)) = true <-> uncontended l w).
  { unfold uncontended. rewrite !andb_true_iff, !Z.leb_le. tauto. }
  destruct (_ && _ && _); split; intros Hx; try done; exfalso; [by apply Hx, Hb|by apply Hb in Hx].
Qed.

Lemma entry_locks (body : lib_m D Z) s : keeps_locks body -> is_Some (dl_load_lock (lib_locks s)) -> is_Some (dl_load_write_lock (lib_locks s)) ->
  lib_locks (entry_checks body s).2 = lib_locks s.
Proof.
  intros Hb [l Hl] [w Hw]. destruct (Z.eq_dec (err_state (lib_diag s)) ENONE) as [He|He]; [|by rewrite entry_error].
  destruct (Z.le_gt_cases (q_num_insns (queue (code_q (core s)))) 0);
    [destruct (Z.le_gt_cases (q_size (queue (code_q (core s)))) 0)|].
  2,3: destruct (entry_queue body s He) as (dg & -> & _); [lia|done].
  destruct (Z.eq_dec l 0) as [->|]; [destruct (Z.eq_dec w 0) as [->|]; [destruct (Z.eq_dec (flag (lib_locks s)) 0) as [Hf|]|]|].
  2-4: destruct (entry_held body s _ _ He ltac:(by split) Hl Hw ltac:(tauto)) as (dg & -> & _); done.
  rewrite entry_free; [apply Hb|done|by split|]. destruct (lib_locks s). simpl in *. by subst.
Qed.

Lemma requests_keep body : requests body -> keeps_locks body.
Proof.
  destruct 1; [apply kept_load_patch|]. apply kept_bind; [apply kept_gets|intros buf; apply (kept_revert_all progname (fun _ => true))].
Qed.

(** A wrapper counts the thread. *)
Lemma enter_locks (s : lib_state D) : on_lib_locks enter s = (Ok tt,
  set_locks {| flag := s32 (flag (lib_locks s) + 1); dl_load_lock := dl_load_lock (lib_locks s);
               dl_load_write_lock := dl_load_write_lock (lib_locks s) |} s).
Proof. by destruct s as [? ? ? ? ? ? ? [? [? ?]] ? [? ? ?] ?]. Qed.

Lemma step_counts p p' : counts p -> step p p' -> counts p'.
Proof.
  intros [Hf Hb Hl Hw] Hs. destruct Hs as [p t d s Ht Hlt E|p t d s Ht E|p l w x|p|p c buf|p body r s Hr E].
  - injection E as <-. pose proof (total_depth_insert _ _ _ (S d) Ht).
    split; simpl; [rewrite swrap_id by (lia || (unfold in_s; lia)); lia|lia|done|done].
  - injection E as <-. pose proof (total_depth_insert _ _ _ d Ht).
    pose proof (total_depth_nonneg (<[t:=d]> (depths p))).
    split; simpl; [rewrite swrap_id by (lia || (unfold in_s; lia)); lia|lia|done|done].
  - by split.
  - split; simpl; rewrite ?total_depth_app; simpl; rewrite ?Z.add_0_r; done.
  - by split.
  - pose proof (entry_locks body (lib p) (requests_keep _ Hr) Hl Hw) as Hk. rewrite E in Hk. cbn [snd] in Hk.
    split; simpl; rewrite ?Hk; done.
Qed.

Lemma reachable_counts p0 p : counts p0 -> reachable p0 p -> counts p.
Proof. intros Hc. induction 1; eauto using step_counts. Qed.

(** ** Properties *)

(** C6. Which requests are let through, in every state that threads entering and
    leaving the wrapped functions, the loader, new threads, earlier requests and
    whatever else happens to the program, the queue and the error state can
    reach. In an error state the request is answered with it. Otherwise, with
    instructions left in the queue, it is answered [EINSNQ]. Otherwise, when no
    thread is inside a wrapped function and both mutexes of the loader are free,
    exactly the body of the request runs; and when not, it is answered [EAGAIN],
    nothing having changed but the messages and, only if a mutex had waiters, the
    error state. And in all cases the lock is left as it was. *)
Theorem patching_lock p0 p body
    (Hinit : counts p0)
    (Hreach : reachable p0 p)
    (Hbody : requests body) :
  let s := lib p in
  (err_state (lib_diag s) <> ENONE -> entry_checks body s = (Ok (err_state (lib_diag s)), s)) /\
  (err_state (lib_diag s) = ENONE -> ~ queue_empty s ->
     exists dg, entry_checks body s = (Ok EINSNQ, set_lib_diag dg s) /\ err_state dg = EINSNQ) /\
  (err_state (lib_diag s) = ENONE -> queue_empty s ->
     exists l w, dl_load_lock (lib_locks s) = Some l /\ dl_load_write_lock (lib_locks s) = Some w /\
       if bool_decide (Forall (fun d => d = 0%nat) (depths p) /\ l = 0 /\ w = 0)
       then entry_checks body s = body s
       else exists dg, entry_checks body s = (Ok EAGAIN, set_lib_diag dg s) /\
              (uncontended l w -> err_state dg = ENONE) /\ (~ uncontended l w -> err_state dg = EUNKNOWN)) /\
  lib_locks (entry_checks body s).2 = lib_locks s.
Proof.
  pose proof (reachable_counts _ _ Hinit Hreach) as [Hf Hb Hl Hw]. cbv zeta.
  split_and!; [by apply entry_error| | |by apply entry_locks; [apply requests_keep|..]].
  - intros He Hq. apply entry_queue; [done|]. unfold queue_empty in Hq. lia.
  - intros He Hq. destruct Hl as [l Hl], Hw as [w Hw]. exists l, w. split_and!; [done|done|].
    case_bool_decide as Hx.
    + destruct Hx as (Hd & -> & ->). apply total_depth_zero in Hd. apply entry_free; [done|done|].
      destruct (lib_locks (lib p)). simpl in *. congruence.
    + apply entry_held; try done. rewrite Hf, <- total_depth_zero in *. destruct (Z.eq_dec l 0), (Z.eq_dec w 0); tauto.
Qed.

(** A contended mutex stops live patching for good: when a thread waits for one
    of the loader's mutexes, its futex word is 2, and a request that finds it so
    puts the library in the error state [EUNKNOWN], which the user's switch does
    not clear and in which every later request is refused. *)
Theorem contended_mutex body later (s : lib_state D) l w
    (Herr : err_state (lib_diag s) = ENONE) (Hq : queue_empty s)
    (Hl : dl_load_lock (lib_locks s) = Some l)
    (Hw : dl_load_write_lock (lib_locks s) = Some w)
    (Hcontended : l = 2 \/ w = 2) :
  exists s', entry_checks body s = (Ok EAGAIN, s') /\ entry_checks later s' = (Ok EUNKNOWN, s') /\
    (ulp_enable_or_disable_patching (lib_diag s')).2 = lib_diag s'.
Proof.
  destruct (entry_held body s l w Herr Hq Hl Hw) as (dg & E & _ & Hu); [lia|].
  exists (set_lib_diag dg s). assert (Hd : err_state (lib_diag (set_lib_diag dg s)) = EUNKNOWN) by (apply Hu; unfold uncontended; lia).
  split_and!; [done|by rewrite entry_error; rewrite Hd|].
  unfold ulp_enable_or_disable_patching, get_libpulp_error_state. by rewrite Hd.
Qed.
End process.
Arguments process D : clear implicits.
