(* ===== verification/RevertAll.v ===== *)
(** * Reverting every patch of a library, and the checks before applying

    The walk of [revert_all_patches_from_lib], which does not always end; the
    sanity checks; and [__ulp_manage_universes], which has no effect. *)

From stdpp Require Import gmap.
From S2P Require Import Prelude Errors Memory Metadata InsnQueue Arch SymbolLoader Interpose.
From S2P Require Import PatchCore PatchCoherence Requests.

Open Scope ulp_scope.

(** The comparison of the walk. *)
Definition from_library (name : bytes) (p : ulp_applied_patch) : bool :=
  byte_eqb (strndup name ULP_PATH_LEN) (strndup (lib_name p) ULP_PATH_LEN).

Lemma revert_loop_skip {D} `{Arch} name r0 l1 l2 fuel (s : lib_state D) :
  Forall (fun p => from_library name p = false) l1 ->
  exists k, revert_loop fuel name r0 (l1 ++ l2) s = revert_loop k name r0 l2 s.
Proof.
  revert fuel. induction l1 as [|p l1 IH]; intros fuel Hf; [by exists fuel|].
  inversion_clear Hf as [|? ? Hp Hf']. destruct fuel as [|fuel]; [by exists 0%nat|].
  destruct (IH fuel Hf') as (k & E). exists k. simpl. unfold from_library in Hp. by rewrite Hp.
Qed.

(** The walk stays at a patch that cannot be reverted. *)
Lemma revert_loop_stuck {D} `{Arch} name p l fuel : forall r0 (s : lib_state D),
  from_library name p = true ->
  is_applied (applied_id p) (patches s) = true -> depended_on (applied_id p) (patches s) = true ->
  exists s', revert_loop fuel name r0 (p :: l) s = (NoFuel, s') /\ quiet s s'.
Proof.
  induction fuel as [|fuel IH]; intros r0 s Hp Ha Hd; [by exists s|].
  cbn [revert_loop]. unfold from_library in Hp. rewrite Hp.
  destruct (can_revert_result (applied_id p) s) as (s1 & E1 & Q1). rewrite Ha, Hd in E1.
  rewrite (bind_ok _ _ _ _ _ E1). change (negb (EDEPEND =? 0)) with true. cbv iota.
  pose proof (k_patches _ _ (q_kept _ _ Q1)) as Ep.
  destruct (IH EDEPEND s1) as (s2 & E2 & Q2); rewrite ?Ep; try done.
  exists s2. split; [done|by etransitivity].
Qed.

Lemma is_applied_in p ps : In p ps -> is_applied (applied_id p) ps = true.
Proof.
  intros Hin. apply existsb_exists. exists p. split; [done|]. unfold same_id. apply byte_eqb_refl.
Qed.

(** The request, when the name in the buffer is short enough. *)
Lemma revert_request_run {D} `{Libdl D} `{Arch} progname fuel (s : lib_state D) name :
  admissible s -> get_basename (Some (cstr (metadata_buffer s))) = Some name ->
  zlen (cstr (metadata_buffer s)) - zlen (cstr name) < ULP_PATH_LEN ->
  __ulp_revert_patches_from_lib progname fuel s =
    code (let! r := revert_loop fuel name ENOTARGETLIB (patches s) in
          if r =? ENOTARGETLIB then
            let! base := lib_base progname (Some name) in
            ret (if negb (base =? 0xFF) then ENOPATCH else r)
          else ret r) s.
Proof.
  intros Hadm Hbuf Hdir. unfold __ulp_revert_patches_from_lib. rewrite entry_pass by done. unfold bind at 1, gets.
  unfold revert_all_patches_from_lib, code. unfold bind at 1, gets. rewrite Hbuf.
  assert (Hc : cstr (cstr (metadata_buffer s)) = cstr (metadata_buffer s)) by apply cstr_id, cstr_no_nul.
  rewrite Hc. by destruct (Z.leb_spec ULP_PATH_LEN (zlen (cstr (metadata_buffer s)) - zlen (cstr name))); [lia|].
Qed.

(** Reverting all the patches of a library does not end when one of them
    is depended on: if a patch of the library is applied that another applied patch, as
    one of another library, depends on, and it is the first of its library in the
    list, the request loops at it, whatever the bound, changing nothing but the
    messages it keeps adding. *)
Theorem revert_all_diverges {D} `{Libdl D} `{Arch} progname fuel (s : lib_state D) pre p post name
    (Hadm : admissible s)
    (Hbuf : get_basename (Some (cstr (metadata_buffer s))) = Some name)
    (Hdir : zlen (cstr (metadata_buffer s)) - zlen (cstr name) < ULP_PATH_LEN)
    (Hpatches : patches s = pre ++ p :: post)
    (Hfirst : Forall (fun q => from_library name q = false) pre)
    (Hp : from_library name p = true)
    (Hdep : depended_on (applied_id p) (patches s) = true) :
  exists s', __ulp_revert_patches_from_lib progname fuel s = (NoFuel, s') /\ quiet s s'.
Proof.
  rewrite (revert_request_run _ _ _ name) by done. rewrite Hpatches.
  destruct (revert_loop_skip name ENOTARGETLIB pre (p :: post) fuel s Hfirst) as (k & E).
  destruct (revert_loop_stuck name p post k ENOTARGETLIB s) as (s' & E' & Q); try done.
  { apply is_applied_in. rewrite Hpatches. apply in_app_iff. right. by left. }
  exists s'. split; [|done]. unfold code, bind at 1. by rewrite E, E'.
Qed.

(** ** When it ends *)

Definition short_id (p : ulp_applied_patch) : bytes := take 32 (applied_id p).

Lemma remove_middle pre p l :
  NoDup (map short_id (pre ++ p :: l)) -> remove_patch (applied_id p) (pre ++ p :: l) = Some (pre ++ l).
Proof.
  induction pre as [|q pre IH]; intros Hnd; simpl.
  - unfold same_id. by rewrite byte_eqb_refl.
  - simpl in Hnd. inversion_clear Hnd as [|? ? Hni Hnd']. destruct (same_id _ _) eqn:E.
    + exfalso. apply Hni. apply byte_eqb_spec in E. unfold short_id at 1. rewrite E.
      apply (in_map short_id). apply in_app_iff. right. by left.
    + by rewrite IH.
Qed.

Lemma nodup_remove pre p l : NoDup (map short_id (pre ++ p :: l)) -> NoDup (map short_id (pre ++ l)).
Proof. rewrite !map_app. simpl. apply NoDup_remove_1. Qed.

Lemma n_detours_drop id id' ds : n_detours id (map (drop_id id') ds) = n_detours id ds.
Proof.
  unfold n_detours. induction ds as [|d ds IH]; [done|]. cbn [map List.filter].
  assert (E : detour_id (drop_id id' d) = detour_id d) by (unfold drop_id; by destruct (same_id _ _)).
  rewrite E. destruct (same_id _ _); simpl; by rewrite IH.
Qed.

Lemma n_root_detours_drop id id' rs : n_root_detours id (map (drop_root id') rs) = n_root_detours id rs.
Proof. induction rs as [|r rs IH]; simpl; [done|]. by rewrite IH, n_detours_drop. Qed.

Lemma root_addrs_drop id rs : root_addrs (map (drop_root id) rs) = root_addrs rs.
Proof. unfold root_addrs. by rewrite map_map. Qed.

Lemma independent id ps : Forall (fun p => applied_deps p = []) ps -> depended_on id ps = false.
Proof. unfold depended_on. induction 1 as [|p ps Hp _ IH]; simpl; [done|]. by rewrite Hp, IH. Qed.

(** The roots, and the number of calls of the patching code, after the walk. *)
Definition drop_library (name : bytes) (l : list ulp_applied_patch) (rs : list ulp_detour_root) : list ulp_detour_root :=
  fold_left (fun rs p => if from_library name p then map (drop_root (applied_id p)) rs else rs) l rs.

Definition n_reverted (name : bytes) (l : list ulp_applied_patch) (rs : list ulp_detour_root) : nat :=
  fold_right (fun p n => if from_library name p then n_root_detours (applied_id p) rs + n else n)%nat 0%nat l.

Lemma n_reverted_drop name l id rs : n_reverted name l (map (drop_root id) rs) = n_reverted name l rs.
Proof. induction l as [|p l IH]; simpl; [done|]. rewrite n_root_detours_drop, IH. done. Qed.

Lemma revert_loop_ok {D} `{ArchLaws} F name (m : mem) l : forall pre (s : lib_state D) lq r0 fuel,
  (length l < fuel)%nat -> patches s = pre ++ l -> NoDup (map short_id (pre ++ l)) ->
  Forall (fun p => applied_deps p = []) (pre ++ l) -> code_mem (core s) = m ->
  queue_holds (queue (code_q (core s))) lq -> ready m lq F -> all_apart F -> 0 <= patch_room ->
  (forall f, In f (root_addrs (roots s)) -> In f F) -> coherent (written lq m) (roots s) ->
  q_size (queue (code_q (core s))) + Z.of_nat (n_reverted name l (roots s)) * patch_room <= INSN_BUFFER_MAX ->
  exists s' lq', revert_loop fuel name r0 l s = (Ok (if existsb (from_library name) l then 0 else r0), s') /\
    patches s' = pre ++ List.filter (fun p => negb (from_library name p)) l /\
    roots s' = drop_library name l (roots s) /\ code_mem (core s') = m /\ loader s' = loader s /\
    err_state (lib_diag s') = err_state (lib_diag s) /\
    queue_holds (queue (code_q (core s'))) lq' /\ coherent (written lq' m) (roots s').
Proof.
  induction l as [|p l IH]; intros pre s lq r0 fuel Hfuel Hp Hnd Hdeps Hm Hq Hr Hap Hpos HF Hc Hroom;
    (destruct fuel as [|fuel]; [simpl in Hfuel; lia|]).
  - exists s, lq. simpl. by split_and!.
  - cbn [revert_loop existsb List.filter drop_library fold_left n_reverted fold_right length] in *.
    unfold from_library at 1. fold (from_library name p). fold (drop_library name l).
    destruct (from_library name p) eqn:Ep; cbn [negb orb].
    + destruct (can_revert_result (applied_id p) s) as (s1 & E1 & Q1).
      rewrite Hp, is_applied_in, independent in E1 by (done || (apply in_app_iff; right; by left)).
      rewrite (bind_ok _ _ _ _ _ E1). cbn [negb Z.eqb].
      pose proof (k_mem _ _ (q_kept _ _ Q1)) as Em. rewrite Hm in Em.
      fold (n_reverted name l (roots s)) in Hroom. destruct (room_split _ _ _ _ Hpos Hroom) as [Hroom1 Hroom2].
      destruct (ulp_revert_patch_ok F (applied_id p) s1 lq (pre ++ l))
        as (s2 & lq2 & E2 & P2 & R2 & _ & M2 & [L2 _] & Er2 & Q2 & Y2 & Z2 & C2 & _);
        rewrite ?Em, ?(q_queue _ _ Q1), ?(q_roots _ _ Q1), ?(k_patches _ _ (q_kept _ _ Q1)), ?Hp; try done.
      { by apply remove_middle. }
      rewrite Em, (q_queue _ _ Q1), (q_roots _ _ Q1) in *. rewrite (bind_ok _ _ _ _ _ E2). cbn [negb Z.eqb].
      destruct (IH pre s2 lq2 0 fuel) as (s3 & lq3 & E3 & P3 & R3 & M3 & L3 & Er3 & Q3 & C3); rewrite ?R2; try done.
      { lia. } { by apply nodup_remove in Hnd. }
      { apply Forall_app in Hdeps as [Hd1 Hd2]. apply Forall_app. split; [done|]. by inversion Hd2. }
      { by rewrite root_addrs_drop. }
      { by rewrite R2 in C2. }
      { rewrite n_reverted_drop. by apply Hroom2. }
      pose proof (k_loader _ _ (q_kept _ _ Q1)) as Kl. pose proof (k_err _ _ (q_kept _ _ Q1)) as Ke.
      assert (E4 : revert_loop fuel name 0 l s2 = (Ok 0, s3)) by (rewrite E3; by destruct (existsb _ l)).
      exists s3, lq3. split_and!; try done; try congruence. by rewrite R3, R2.
    + destruct (IH (pre ++ [p]) s lq r0 fuel) as (s3 & lq3 & E3 & P3 & R3 & M3 & L3 & Er3 & Q3 & C3);
        rewrite <- ?app_assoc; try done.
      { lia. }
      exists s3, lq3. rewrite <- app_assoc in P3. by split_and!.
Qed.

(** C33. Reverting all the patches of a library, when no applied patch depends on
    another: with the library's name (or a path to it) in the buffer, the request
    ends, within as many iterations as there are patches. It returns 0 if a patch
    of the library was applied; otherwise [ENOPATCH] if the library is loaded and
    [ENOTARGETLIB] if not. Exactly the patches of the library are gone, their detours
    are inactive, and once the queued writes are done every patched function goes where
    its newest active detour says. *)
Theorem revert_all_spec {D} `{Libdl D} `{ArchLaws} progname fuel (s : lib_state D) name base
    (Hadm : admissible s)
    (Hbuf : get_basename (Some (cstr (metadata_buffer s))) = Some name)
    (Hdir : zlen (cstr (metadata_buffer s)) - zlen (cstr name) < ULP_PATH_LEN)
    (Hids : NoDup (map short_id (patches s)))
    (Hdeps : Forall (fun p => applied_deps p = []) (patches s))
    (Hcoh : coherent (code_mem (core s)) (roots s))
    (Hapart : all_apart (root_addrs (roots s)))
    (Hroom : q_size (queue (code_q (core s))) + Z.of_nat (n_reverted name (patches s) (roots s)) * patch_room
             <= INSN_BUFFER_MAX)
    (Hroom0 : 0 <= patch_room)
    (Hfuel : (length (patches s) < fuel)%nat)
    (Hbase : forall dg, get_loaded_library_base_addr (dl_objects (loader s)) progname (Some name) dg = (Ok base, dg)) :
  exists s' lq, __ulp_revert_patches_from_lib progname fuel s =
      (Ok (if existsb (from_library name) (patches s) then 0
           else if base =? 0xFF then ENOTARGETLIB else ENOPATCH), s') /\
    patches s' = List.filter (fun p => negb (from_library name p)) (patches s) /\
    roots s' = drop_library name (patches s) (roots s) /\ err_state (lib_diag s') = ENONE /\
    queue_holds (queue (code_q (core s'))) lq /\ coherent (written lq (code_mem (core s))) (roots s').
Proof.
  rewrite (revert_request_run _ _ _ name) by done. destruct Hadm as [He Hq _].
  destruct (revert_loop_ok (root_addrs (roots s)) name (code_mem (core s)) (patches s) [] s [] ENOTARGETLIB fuel)
    as (s' & lq & E & P & R & M & L & Er & Q & C); try done.
  { apply ready_start, Hcoh. }
  exists s', lq. unfold code. rewrite (bind_ok _ _ _ _ _ E). split_and!; try done; [|congruence].
  destruct (existsb _ (patches s)); [done|]. cbn [Z.eqb Pos.eqb ENOTARGETLIB].
  rewrite <- L in Hbase. rewrite (bind_ok _ _ _ _ _ (lib_base_ok progname _ _ _ Hbase)).
  by destruct (base =? 0xFF).
Qed.

(** ** The dispatch that is not *)

(** [__ulp_manage_universes] does not dispatch anything: for an index with a root
    it returns without a value and without any effect, the address it looked for
    being a local; for an index without a root the library enters its error state
    and then follows a null pointer. *)
Theorem manage_universes_no_effect {D} `{Arch} (s : lib_state D) idx :
  match find (fun r => index r =? u32 idx) (roots s) with
  | Some _ => __ulp_manage_universes idx s = (Ok tt, s)
  | None => exists s', __ulp_manage_universes idx s = (Ub, s') /\ err_state (lib_diag s') = EUNKNOWN
  end.
Proof.
  assert (Hpos : forall l, match position (fun r => index r =? u32 idx) l with
      | Some i => l !! i = find (fun r => index r =? u32 idx) l
      | None => find (fun r => index r =? u32 idx) l = None end).
  { induction l as [|r l IH]; [done|]. simpl. destruct (index r =? u32 idx); [done|].
    by destruct (position _ l). }
  specialize (Hpos (roots s)). unfold __ulp_manage_universes, get_detour_root_by_index.
  destruct (position _ (roots s)) as [i|] eqn:Ei.
  - destruct (position_some _ _ _ Ei) as (x & Hx & _). rewrite <- Hpos. unfold bind, gets. rewrite Ei. cbn. by rewrite Hx.
  - rewrite Hpos. unfold bind at 1, gets at 1. rewrite Ei. eexists. split; reflexivity.
Qed.

(** ** The sanity checks *)

Lemma iterate_build_ids_run {D} `{Libdl D} `{Arch} ulp obj infos bs (s : lib_state D) :
  metadata_ref s = Some ulp -> objs ulp = Some obj ->
  Forall2 (fun info b => compare_build_ids (dlpi_phdr info) obj = Ok b) infos bs ->
  iterate_build_ids infos s =
    (Ok tt, if existsb id bs then set_metadata_ref (Some (set_objs ulp (Some (set_build_id_check obj 1)))) s else s).
Proof.
  intros Href Hobj. induction 1 as [|info b infos bs E _ IH]; [done|]. cbn [iterate_build_ids existsb].
  unfold get_obj. rewrite bind_assoc. unfold bind at 1, get_ulp. rewrite Href, Hobj, ret_bind, E.
  destruct b; [|exact IH]. unfold upd_metadata, modify. by rewrite Href; simpl; rewrite Hobj.
Qed.

(** The checks before a patch is loaded: it is refused with [EBUILDID] when the
    comparison finds no library, then with [EDEPEND] when a dependency neither was
    checked before nor is applied, then with [EAPPLIED] when it is applied already, and
    passes otherwise; none of them changes the patches, the detours, the queue or the
    error state. So no patch is ever applied twice. *)
Theorem sanity_checks {D} `{Libdl D} `{Arch} (s : lib_state D) ulp obj bs
    (Href : metadata_ref s = Some ulp)
    (Hobj : objs ulp = Some obj)
    (Hfresh : build_id_check obj = 0)
    (Hcompare : Forall2 (fun info b => compare_build_ids (dlpi_phdr info) obj = Ok b) (dl_objects (loader s)) bs) :
  exists s', check_patch_sanity s =
    (Ok (if negb (existsb id bs) then EBUILDID
         else if negb (forallb (fun dep => negb (patch_id_check dep =? 0) || is_applied (dep_id dep) (patches s))
                         (deps ulp)) then EDEPEND
         else if is_applied (patch_id ulp) (patches s) then EAPPLIED else 0), s') /\ framed s s'.
Proof.
  unfold check_patch_sanity, check_build_id. rewrite bind_assoc. unfold bind at 1, gets at 1.
  rewrite bind_assoc, (bind_ok _ _ _ _ _ (iterate_build_ids_run ulp obj _ bs s Href Hobj Hcompare)).
  unfold get_obj. destruct (existsb id bs); cbn [negb].
  2:{ rewrite !bind_assoc. unfold bind at 1, get_ulp at 1. rewrite Href, Hobj, ret_bind, Hfresh. cbn [Z.eqb].
      eexists. split; [reflexivity|]. by split. }
  set (s1 := set_metadata_ref _ s). rewrite !bind_assoc. unfold bind at 1, get_ulp at 1. cbn [s1 metadata_ref set_metadata_ref].
  cbn [objs set_objs]. rewrite ret_bind. cbn [build_id_check set_build_id_check Z.eqb].
  rewrite ret_bind. cbn [Z.eqb].
  unfold check_patch_dependencies. rewrite bind_assoc. unfold bind at 1, gets at 1.
  rewrite bind_assoc. unfold upd_metadata. unfold bind at 1, modify at 1.
  rewrite bind_assoc. unfold bind at 1, get_ulp at 1. cbn [s1 metadata_ref set_metadata_ref option_map patches].
  set (ulp2 := set_deps _ _).
  assert (Hd : existsb (fun dep => patch_id_check dep =? 0) (deps ulp2) =
               negb (forallb (fun dep => negb (patch_id_check dep =? 0) || is_applied (dep_id dep) (patches s)) (deps ulp))).
  { unfold ulp2. cbn [deps set_deps set_objs]. induction (deps ulp) as [|dep l IH]; [done|].
    cbn [map existsb forallb]. rewrite IH, negb_andb. f_equal.
    fold (is_applied (dep_id dep) (patches s)).
    destruct (is_applied _ _); simpl; [by rewrite orb_true_r|]. by rewrite orb_false_r, negb_involutive. }
  rewrite Hd. destruct (forallb _ (deps ulp)); cbn [negb].
  - rewrite ret_bind. cbn [negb Z.eqb]. unfold bind at 1, get_ulp. cbn [metadata_ref set_metadata_ref].
    unfold ulp_get_applied_patch, bind, gets. cbn [patches set_metadata_ref].
    change (patches s1) with (patches s). rewrite <- find_applied. change (patch_id ulp2) with (patch_id ulp).
    destruct (find _ (patches s)); (eexists; split; [reflexivity|by split]).
  - eexists. split; [reflexivity|by split].
Qed.
