(* ===== verification/StateDump.v ===== *)
(** * The dumps of the state (lib/ulp.c)

    What a debugger sees of the applied patches and of the detours. The lines are
    data; nothing of the roots is lost in them. *)

From stdpp Require Import list.
From S2P Require Import Prelude Errors Metadata PatchCore.

Open Scope ulp_scope.

(** ["%x."] of a byte. *)
Definition hex_byte (b : Z) : bytes := (if b <? 16 then [hex_char b] else hex_str 2 b) ++ [46].
Definition hex_id (id : bytes) : bytes := flat_map hex_byte id.

Inductive dump_line :=
| Heading (text : string)
| Libname (name : bytes)
| Container (name : bytes)
| Patch (id : bytes)
| Depends (id : bytes)
| Unit_at (patched target : Z)
| Index (i : Z)
| Patched_addr (a : Z)
| Universe (u : Z)
| Target_addr (a : Z)
| Active (yes : bool)
| Patch_ID (first_half second_half : bytes).

Definition dump_patch (a_patch : ulp_applied_patch) : list dump_line :=
  [Libname (cstr (lib_name a_patch)); Container (cstr (container_name a_patch)); Patch (hex_id (take 32 (applied_id a_patch)))] ++
  map (fun dep => Depends (hex_id (take 32 (dep_id dep)))) (applied_deps a_patch) ++
  map (fun a_unit => Unit_at (patched_addr a_unit) (target_addr a_unit)) (applied_units a_patch).

Definition dump_ulp_patching_state {D} (s : lib_state D) : list dump_line :=
  [Heading "----- ULP state dump -----\n"; Heading "__ulp_state address: %lx\n"] ++ flat_map dump_patch (patches s) ++
  [Heading "----- End of dump ------\n"].

Definition dump_detour (d : ulp_detour) : list dump_line :=
  [Heading "  * DETOUR:\n"; Universe (universe d); Target_addr (detour_target d); Active (active d);
   Patch_ID (hex_id (take 16 (detour_id d))) (hex_id (take 16 (drop 16 (detour_id d)))); Heading "========================\n"].

Definition dump_root (r : ulp_detour_root) : list dump_line :=
  [Heading "* ROOT:\n"; Index (index r); Patched_addr (root_addr r); Heading "----- ULP DETOURS -----\n"] ++
  flat_map dump_detour (detours r).

Definition dump_ulp_detours {D} (s : lib_state D) : list dump_line :=
  Heading "====== ULP Roots ======\n" :: flat_map dump_root (roots s).

(** ** Identifiers *)

Lemma hex_char_dot d : 0 <= d < 16 -> hex_char d <> 46.
Proof. intros Hd. unfold hex_char. destruct (_ <? _); lia. Qed.

Lemma hex_char_inj a b : 0 <= a < 16 -> 0 <= b < 16 -> hex_char a = hex_char b -> a = b.
Proof. intros Ha Hb. unfold hex_char. destruct (Z.ltb_spec a 10), (Z.ltb_spec b 10); lia. Qed.

(** A byte is given by its digits, which end at the dot. *)
Lemma hex_byte_inj a b r r' : is_byte a -> is_byte b -> hex_byte a ++ r = hex_byte b ++ r' -> a = b /\ r = r'.
Proof.
  unfold is_byte, in_u, hex_byte. intros Ha Hb.
  pose proof (Z.mod_pos_bound a 16 ltac:(lia)). pose proof (Z.mod_pos_bound b 16 ltac:(lia)).
  pose proof (Z.div_mod a 16 ltac:(lia)). pose proof (Z.div_mod b 16 ltac:(lia)).
  assert (Hdiv : forall x, 0 <= x < 2 ^ 8 -> 0 <= x / 16 < 16) by (intros; split; [apply Z.div_pos|apply Z.div_lt_upper_bound]; lia).
  pose proof (Hdiv a Ha). pose proof (Hdiv b Hb).
  assert (Hstr : forall x, 0 <= x < 2 ^ 8 -> hex_str 2 x = [hex_char (x / 16); hex_char (x mod 16)]).
  { intros x Hx. cbn [hex_str app]. by rewrite (Z.mod_small (x / 16)) by by apply Hdiv. }
  rewrite !Hstr by done.
  destruct (Z.ltb_spec a 16), (Z.ltb_spec b 16); cbn [app]; intros E; injection E; intros; subst.
  - split; [apply hex_char_inj; [lia|lia|done]|done].
  - by exfalso; apply (hex_char_dot (b mod 16)).
  - by exfalso; apply (hex_char_dot (a mod 16)).
  - match goal with H1 : hex_char (a / 16) = _, H2 : hex_char (a mod 16) = _ |- _ => apply hex_char_inj in H1, H2; try done end.
    split; [lia|done].
Qed.

Lemma hex_id_inj a b : Forall is_byte a -> Forall is_byte b -> hex_id a = hex_id b -> a = b.
Proof.
  intros Ha. revert b. induction Ha as [|x a Hx _ IH]; intros b Hb E; destruct Hb as [|y b Hy Hb]; [done| | |].
  - unfold hex_id, hex_byte in E. cbn in E. by destruct (y <? 16).
  - unfold hex_id, hex_byte in E. cbn in E. by destruct (x <? 16).
  - cbn [hex_id flat_map] in E. apply hex_byte_inj in E as [-> E]; [|done..]. f_equal. by apply IH.
Qed.

(** ** The detours can be read back *)

Definition shown_id (id : bytes) : Prop := length id = 32%nat /\ Forall is_byte id.
Definition shown_root (r : ulp_detour_root) : Prop := Forall (fun d => shown_id (detour_id d)) (detours r).

Lemma dump_detour_inj d d' r r' : shown_id (detour_id d) -> shown_id (detour_id d') ->
  dump_detour d ++ r = dump_detour d' ++ r' -> d = d' /\ r = r'.
Proof.
  intros [Hl Hb] [Hl' Hb'] E. unfold dump_detour in E. cbn [app] in E. injection E as E1 E2 E3 E4 E5 E6.
  apply hex_id_inj in E4, E5; try by repeat first [apply Forall_take | apply Forall_drop].
  assert (Hid : forall id : bytes, length id = 32%nat -> take 16 id ++ take 16 (drop 16 id) = id).
  { intros id Hid. rewrite (take_ge (drop 16 id)) by (rewrite length_drop; lia). apply take_drop. }
  split; [|done]. destruct d, d'. cbn in *. subst. f_equal. rewrite <- (Hid detour_id), <- (Hid detour_id0) by done. by rewrite E4, E5.
Qed.

(** What follows the detours of a root is no detour. *)
Definition no_detour (r : list dump_line) : Prop := match r with Heading h :: _ => h <> "  * DETOUR:\n"%string | _ => True end.

Lemma dump_detours_inj ds ds' r r' : Forall (fun d => shown_id (detour_id d)) ds -> Forall (fun d => shown_id (detour_id d)) ds' ->
  no_detour r -> no_detour r' -> flat_map dump_detour ds ++ r = flat_map dump_detour ds' ++ r' -> ds = ds' /\ r = r'.
Proof.
  intros Hd. revert ds'. induction Hd as [|d ds Hd _ IH]; intros ds' Hd' Hr Hr' E; destruct Hd' as [|d' ds' Hd' Hds'].
  - done.
  - cbn in E. subst r. by cbn in Hr.
  - cbn in E. subst r'. by cbn in Hr'.
  - cbn [flat_map] in E. rewrite <- !app_assoc in E. apply dump_detour_inj in E as [-> E]; [|done..].
    destruct (IH ds' Hds' Hr Hr' E) as [-> ->]. done.
Qed.

Lemma no_detour_roots rs : no_detour (flat_map dump_root rs).
Proof. by destruct rs. Qed.

(** The dump of the detours is faithful: two states with the same dump have the same
    roots, in the same order, with the same detours. *)
Theorem dump_ulp_detours_faithful {D} (s s' : lib_state D)
    (Hids : Forall shown_root (roots s) /\ Forall shown_root (roots s'))
    (Hsame : dump_ulp_detours s = dump_ulp_detours s') :
  roots s = roots s'.
Proof.
  destruct Hids as [Hs Hs']. unfold dump_ulp_detours in Hsame. injection Hsame as E. revert E Hs'. generalize (roots s').
  induction Hs as [|r rs Hr _ IH]; intros rs' E Hs'; destruct Hs' as [|r' rs' Hr' Hs']; try done.
  cbn [flat_map dump_root app] in E. injection E as E1 E2 E.
  apply dump_detours_inj in E as [E3 E4]; [|done|done|apply no_detour_roots|apply no_detour_roots].
  rewrite (IH rs' E4 Hs'). destruct r, r'. cbn in *. by subst.
Qed.
