(* ===== verification/Md4.v ===== *)
(** * The digest of a patch's description (tools/md4.c, tools/packer.c)

    [MD4] is the routine of the packer, in place on a padded copy of its input
    with the rounds unrolled; [md4] below it is the algorithm of RFC 1320 on
    lists of words. The identifier of a patch is made of the build id of its
    library and of the digest of its description. *)

From stdpp Require Import list.
From S2P Require Import Prelude Errors.

Open Scope ulp_scope.

Definition BYTE_LENGTH : Z := 8.
Definition BLOCK_LENGTH : Z := 512 / BYTE_LENGTH.
Definition BLOCK_PADDING : Z := 448 / BYTE_LENGTH.
Definition SIZE_FIELD : Z := BLOCK_LENGTH - BLOCK_PADDING.
Definition MD4_LENGTH : Z := 16.

(** ** The rounds *)

Definition F (x y z : Z) : Z := Z.lor (Z.land x y) (Z.land (u32 (Z.lnot x)) z).
Definition G (x y z : Z) : Z := Z.lor (Z.lor (Z.land x y) (Z.land x z)) (Z.land y z).
Definition H (x y z : Z) : Z := Z.lxor (Z.lxor x y) z.

(** [(A << s) | (A >> (32 - s))] *)
Definition rotate (A s : Z) : Z := Z.lor (u32 (Z.shiftl A s)) (Z.shiftr A (32 - s)).

Section rounds.
(** The words of the block. *)
Variable X : list Z.

Definition R1 (A B C D : Z) (i : nat) (s : Z) : Z := rotate (u32 (A + F B C D + nth i X 0)) s.
Definition R2 (A B C D : Z) (i : nat) (s : Z) : Z := rotate (u32 (A + G B C D + nth i X 0 + 0x5A827999)) s.
Definition R3 (A B C D : Z) (i : nat) (s : Z) : Z := rotate (u32 (A + H B C D + nth i X 0 + 0x6ED9EBA1)) s.

(** Four invocations of the macro, which turn the registers round once:
    [R (A, B, C, D, i0, s0); R (D, A, B, C, i1, s1); R (C, D, A, B, i2, s2); R (B, C, D, A, i3, s3)]. *)
Definition row (R : Z -> Z -> Z -> Z -> nat -> Z -> Z) (i0 i1 i2 i3 : nat) (s0 s1 s2 s3 : Z)
    (st : Z * Z * Z * Z) : Z * Z * Z * Z :=
  let '(A, B, C, D) := st in
  let A := R A B C D i0 s0 in
  let D := R D A B C i1 s1 in
  let C := R C D A B i2 s2 in
  let B := R B C D A i3 s3 in
  (A, B, C, D).

Definition round1 (st : Z * Z * Z * Z) : Z * Z * Z * Z :=
  let st := row R1 0 1 2 3 3 7 11 19 st in
  let st := row R1 4 5 6 7 3 7 11 19 st in
  let st := row R1 8 9 10 11 3 7 11 19 st in
  row R1 12 13 14 15 3 7 11 19 st.

Definition round2 (st : Z * Z * Z * Z) : Z * Z * Z * Z :=
  let st := row R2 0 4 8 12 3 5 9 13 st in
  let st := row R2 1 5 9 13 3 5 9 13 st in
  let st := row R2 2 6 10 14 3 5 9 13 st in
  row R2 3 7 11 15 3 5 9 13 st.

Definition round3 (st : Z * Z * Z * Z) : Z * Z * Z * Z :=
  let st := row R3 0 8 4 12 3 9 11 15 st in
  let st := row R3 2 10 6 14 3 9 11 15 st in
  let st := row R3 1 9 5 13 3 9 11 15 st in
  row R3 3 11 7 15 3 9 11 15 st.

(** The body of the loop after the words are read. *)
Definition md4_block (st : Z * Z * Z * Z) : Z * Z * Z * Z :=
  let '(AA, BB, CC, DD) := st in
  let '(A, B, C, D) := round3 (round2 (round1 st)) in
  (u32 (A + AA), u32 (B + BB), u32 (C + CC), u32 (D + DD)).
End rounds.

(** ** The routine *)

(** The four bytes at [p]: [X[j] = (X[j] << 8) | (0x00ff & p[3 - k])], [k] from 0 to 3. *)
Definition read_word (p : bytes) : Z :=
  fold_left (fun x k => Z.lor (u32 (Z.shiftl x BYTE_LENGTH)) (Z.land 0x00ff (nth (3 - k) p 0))) (seq 0 4) 0.

(** The words of a block and where [bufptr] is afterwards. *)
Fixpoint read_words (n : nat) (bufptr : bytes) : list Z * bytes :=
  match n with
  | O => ([], bufptr)
  | S n => let (X, p) := read_words n (drop 4 bufptr) in (read_word bufptr :: X, p)
  end.

Fixpoint md4_loop (blocks : nat) (bufptr : bytes) (st : Z * Z * Z * Z) : Z * Z * Z * Z :=
  match blocks with
  | O => st
  | S blocks => let (X, p) := read_words 16 bufptr in md4_loop blocks p (md4_block X st)
  end.

(** [APPEND]. *)
Definition append_word (item : Z) : bytes :=
  map (fun i => u8 (Z.land (Z.shiftr item (BYTE_LENGTH * Z.of_nat i)) 0x0ff)) (seq 0 4).

Definition count_zeros (total : Z) : Z :=
  let zeros := total mod BLOCK_LENGTH in
  if zeros <=? BLOCK_PADDING then BLOCK_PADDING - zeros else BLOCK_LENGTH - (zeros - BLOCK_PADDING).

(** The bytes of the size field, as they are stored one by one. *)
Fixpoint store_size (n : nat) (i : nat) (off : nat) (length : Z) (buffer : bytes) : bytes :=
  match n with
  | O => buffer
  | S n =>
    store_size n (S i) off length
      (splice (off + i) [u8 (Z.shiftr (u64 (length * BYTE_LENGTH)) (BYTE_LENGTH * Z.of_nat i))] buffer)
  end.

(** The padded copy, in a buffer of [total] bytes. *)
Definition md4_buffer (input : bytes) (length : Z) : bytes :=
  let total := u64 (length + 1) in
  let zeros := count_zeros total in
  let total := u64 (u64 (total + zeros) + SIZE_FIELD) in
  let buffer := replicate (Z.to_nat total) 0 in
  let buffer := splice 0 (take (Z.to_nat length) input) buffer in
  let buffer := splice (Z.to_nat length) [0x80] buffer in
  store_size (Z.to_nat SIZE_FIELD) 0 (Z.to_nat (length + 1 + zeros)) length buffer.

(** [None] when memory is out; [malloc] tells for the two allocations. *)
Definition MD4 (malloc : Z -> bool) (input : bytes) (length : Z) : res Z (option bytes) :=
  let total := u64 (u64 (u64 (length + 1) + count_zeros (u64 (length + 1))) + SIZE_FIELD) in
  if negb (malloc total) then Ok None
  else if (zlen input <? length) || (total <? length + 1 + SIZE_FIELD) then Ub
  else
    let buffer := md4_buffer input length in
    let '(A, B, C, D) :=
      md4_loop (Z.to_nat (total / BLOCK_LENGTH)) buffer (0x67452301, 0xefcdab89, 0x98badcfe, 0x10325476) in
    if negb (malloc MD4_LENGTH) then Ok None
    else Ok (Some (append_word A ++ append_word B ++ append_word C ++ append_word D)).

(** ** The algorithm of RFC 1320 *)

Definition rotl32 (x s : Z) : Z := (x * 2 ^ s) mod 2 ^ 32 + x / 2 ^ (32 - s).

(** The operation [[abcd k s]] of a round, with the registers renamed for the
    next one. *)
Definition rfc_step (f : Z -> Z -> Z -> Z) (c : Z) (X : list Z) (st : Z * Z * Z * Z) (op : nat * Z) :
    Z * Z * Z * Z :=
  let '(A, B, C, D) := st in
  let '(k, s) := op in
  (D, rotl32 ((A + f B C D + nth k X 0 + c) mod 2 ^ 32) s, B, C).

(** The indices of the words in each round, and the shifts, four by four. *)
Definition rfc_ops (ks : list nat) (shifts : list Z) : list (nat * Z) :=
  zip ks (shifts ++ shifts ++ shifts ++ shifts).

Definition rfc_block (st : Z * Z * Z * Z) (X : list Z) : Z * Z * Z * Z :=
  let st1 := fold_left (rfc_step F 0 X) (rfc_ops (seq 0 16) [3; 7; 11; 19]) st in
  let st2 := fold_left (rfc_step G 0x5A827999 X)
    (rfc_ops [0; 4; 8; 12; 1; 5; 9; 13; 2; 6; 10; 14; 3; 7; 11; 15]%nat [3; 5; 9; 13]) st1 in
  let st3 := fold_left (rfc_step H 0x6ED9EBA1 X)
    (rfc_ops [0; 8; 4; 12; 2; 10; 6; 14; 1; 9; 5; 13; 3; 11; 7; 15]%nat [3; 9; 11; 15]) st2 in
  let '(A, B, C, D) := st3 in
  let '(AA, BB, CC, DD) := st in
  ((A + AA) mod 2 ^ 32, (B + BB) mod 2 ^ 32, (C + CC) mod 2 ^ 32, (D + DD) mod 2 ^ 32).

(** The message padded to whole blocks. *)
Definition rfc_padded (msg : bytes) : bytes :=
  msg ++ [0x80] ++ replicate (Z.to_nat ((55 - zlen msg) mod 64)) 0 ++ le_bytes 8 (8 * zlen msg).

(** Cut into groups of [n]. *)
Fixpoint groups {A} (k n : nat) (l : list A) : list (list A) :=
  match k with
  | O => []
  | S k => take n l :: groups k n (drop n l)
  end.

Definition rfc_words (block : bytes) : list Z := map le_val (groups 16 4 block).

Definition md4 (msg : bytes) : bytes :=
  let p := rfc_padded msg in
  let blocks := groups (length p / 64) 64 p in
  let '(A, B, C, D) :=
    fold_left rfc_block (map rfc_words blocks) (0x67452301, 0xefcdab89, 0x98badcfe, 0x10325476) in
  le_bytes 4 A ++ le_bytes 4 B ++ le_bytes 4 C ++ le_bytes 4 D.

Definition hex (s : string) : bytes :=
  (fix go (s : string) : bytes :=
     match s with
     | String a (String b s) =>
       let d c := let n := Z.of_N (Ascii.N_of_ascii c) in if n <? 58 then n - 48 else n - 87 in
       (16 * d a + d b) :: go s
     | _ => []
     end) s.

Example md4_abc : md4 (str "abc") = hex "a448017aaf21d8525fc10ae87aa6729d".
Proof. vm_compute. reflexivity. Qed.
Example MD4_abc : MD4 (fun _ => true) (str "abc") 3 = Ok (Some (hex "a448017aaf21d8525fc10ae87aa6729d")).
Proof. vm_compute. reflexivity. Qed.
Example MD4_long : MD4 (fun _ => true) (str "12345678901234567890123456789012345678901234567890123456789012345678901234567890") 80
  = Ok (Some (hex "e33b4ddc9c38f2199c3e7b164fcc0536")).
Proof. vm_compute. reflexivity. Qed.

(** ** The routine computes the digest *)

Lemma rotate_rotl a s : in_u 32 a -> 0 < s < 32 -> rotate a s = rotl32 a s.
Proof.
  unfold in_u. intros Ha Hs. unfold rotate, rotl32, wrap.
  rewrite Z.shiftl_mul_pow2, Z.shiftr_div_pow2 by lia.
  rewrite <- Z.lxor_lor; [symmetry; apply Z.add_nocarry_lxor|].
  all: apply Z.bits_inj'; intros n Hn; rewrite Z.land_spec, Z.bits_0.
  all: destruct (Z.lt_ge_cases n s) as [Hlt|Hge].
  1, 3: rewrite Z.mod_pow2_bits_low, Z.mul_pow2_bits_low by lia; done.
  all: rewrite <- Z.shiftr_div_pow2, Z.shiftr_spec by lia.
  all: rewrite (Z.bits_above_log2 a), andb_false_r; [done|lia|].
  all: destruct (Z.eq_dec a 0) as [->|]; [simpl; lia|]; apply Z.log2_lt_pow2; [lia|].
  all: apply Z.lt_le_trans with (2 ^ 32); [lia|apply Z.pow_le_mono_r; lia].
Qed.

(** A step of the code, for the function and the constant of a round. *)
Lemma step_rotl f c (X : list Z) (R : Z -> Z -> Z -> Z -> nat -> Z -> Z) :
  (forall A B C D i s, R A B C D i s = rotate (u32 (A + f B C D + nth i X 0 + c)) s) ->
  forall A B C D i s, 0 < s < 32 -> rfc_step f c X (A, B, C, D) (i, s) = (D, R A B C D i s, B, C).
Proof.
  intros HR A B C D i s Hs. rewrite HR, rotate_rotl; [done| |done]. apply wrap_range. lia.
Qed.

Lemma row_rfc f c (X : list Z) (R : Z -> Z -> Z -> Z -> nat -> Z -> Z) :
  (forall A B C D i s, R A B C D i s = rotate (u32 (A + f B C D + nth i X 0 + c)) s) ->
  forall i0 i1 i2 i3 s0 s1 s2 s3 st, 0 < s0 < 32 -> 0 < s1 < 32 -> 0 < s2 < 32 -> 0 < s3 < 32 ->
  fold_left (rfc_step f c X) [(i0, s0); (i1, s1); (i2, s2); (i3, s3)] st = row R i0 i1 i2 i3 s0 s1 s2 s3 st.
Proof.
  intros HR i0 i1 i2 i3 s0 s1 s2 s3 [[[A B] C] D] H0 H1 H2 H3. cbn [fold_left].
  pose proof (step_rotl f c X R HR) as E. by rewrite !E by done.
Qed.

(** A round is its four rows. *)
Lemma fold_rows {S O} (f : S -> O -> S) (l1 l2 l3 l4 : list O) st :
  fold_left f (l1 ++ l2 ++ l3 ++ l4) st = fold_left f l4 (fold_left f l3 (fold_left f l2 (fold_left f l1 st))).
Proof. by rewrite !fold_left_app. Qed.

Lemma block_rfc X st : md4_block X st = rfc_block st X.
Proof.
  assert (E1 : forall st, round1 X st = fold_left (rfc_step F 0 X) (rfc_ops (seq 0 16) [3; 7; 11; 19]) st).
  { intros st'. unfold round1. rewrite <- !(row_rfc F 0 X (R1 X)) by (lia || (intros; unfold R1; do 2 f_equal; lia)).
    symmetry. apply (fold_rows _ [_; _; _; _] [_; _; _; _] [_; _; _; _] [_; _; _; _]). }
  assert (E2 : forall st, round2 X st = fold_left (rfc_step G 0x5A827999 X)
    (rfc_ops [0; 4; 8; 12; 1; 5; 9; 13; 2; 6; 10; 14; 3; 7; 11; 15]%nat [3; 5; 9; 13]) st).
  { intros st'. unfold round2. rewrite <- !(row_rfc G 0x5A827999 X (R2 X)) by (lia || done).
    symmetry. apply (fold_rows _ [_; _; _; _] [_; _; _; _] [_; _; _; _] [_; _; _; _]). }
  assert (E3 : forall st, round3 X st = fold_left (rfc_step H 0x6ED9EBA1 X)
    (rfc_ops [0; 8; 4; 12; 2; 10; 6; 14; 1; 9; 5; 13; 3; 11; 7; 15]%nat [3; 9; 11; 15]) st).
  { intros st'. unfold round3. rewrite <- !(row_rfc H 0x6ED9EBA1 X (R3 X)) by (lia || done).
    symmetry. apply (fold_rows _ [_; _; _; _] [_; _; _; _] [_; _; _; _] [_; _; _; _]). }
  unfold md4_block, rfc_block. rewrite E1, E2, E3. destruct st as [[[A B] C] D]. done.
Qed.

(** *** Bytes and words *)

(** The [i]-th byte of a word. *)
Definition byte_at (z : Z) (i : nat) : Z := (z / 256 ^ Z.of_nat i) mod 256.

Lemma le_bytes_map n z : le_bytes n z = map (byte_at z) (seq 0 n).
Proof.
  revert z. induction n as [|n IH]; intros z; [done|]. cbn [le_bytes seq map]. f_equal.
  - unfold byte_at. by rewrite Z.div_1_r.
  - rewrite IH, <- seq_shift, map_map. apply map_ext. intros i. unfold byte_at.
    rewrite Nat2Z.inj_succ, Z.pow_succ_r, Z.div_div by lia. done.
Qed.

Lemma pow_256 i : 256 ^ Z.of_nat i = 2 ^ (8 * Z.of_nat i).
Proof. rewrite Z.pow_mul_r by lia. done. Qed.

Lemma byte_of_u64 z i : (i < 8)%nat -> u8 (Z.shiftr (u64 z) (BYTE_LENGTH * Z.of_nat i)) = byte_at z i.
Proof.
  intros Hi. unfold byte_at, wrap, BYTE_LENGTH. rewrite pow_256, <- Z.shiftr_div_pow2 by lia.
  change 256 with (2 ^ 8). apply Z.bits_inj'. intros n Hn.
  destruct (Z.lt_ge_cases n 8); [|by rewrite !Z.mod_pow2_bits_high by lia].
  rewrite !Z.mod_pow2_bits_low, !Z.shiftr_spec by lia. by rewrite Z.mod_pow2_bits_low by lia.
Qed.

Lemma append_word_le z : append_word z = le_bytes 4 z.
Proof.
  rewrite le_bytes_map. unfold append_word. apply map_ext_in. intros i Hi.
  unfold byte_at, wrap, BYTE_LENGTH. rewrite pow_256, <- Z.shiftr_div_pow2 by lia.
  change 0x0ff with (Z.ones 8). rewrite Z.land_ones by lia. by rewrite Z.mod_mod by lia.
Qed.

Lemma shift_or x b : 0 <= x < 2 ^ 24 -> is_byte b ->
  Z.lor (u32 (Z.shiftl x BYTE_LENGTH)) (Z.land 0x00ff b) = 256 * x + b.
Proof.
  unfold is_byte, in_u, BYTE_LENGTH. intros Hx Hb. change 0x00ff with (Z.ones 8).
  rewrite Z.land_comm, Z.land_ones, (Z.mod_small b) by lia.
  rewrite Z.shiftl_mul_pow2 by lia. unfold wrap. rewrite Z.mod_small by lia.
  rewrite <- Z.lxor_lor; [rewrite <- Z.add_nocarry_lxor; [lia|]|].
  all: apply Z.bits_inj'; intros n Hn; rewrite Z.land_spec, Z.bits_0.
  all: destruct (Z.lt_ge_cases n 8); [by rewrite Z.mul_pow2_bits_low by lia|].
  all: rewrite (Z.bits_above_log2 b), andb_false_r; [done|lia|].
  all: destruct (Z.eq_dec b 0) as [->|]; [simpl; lia|]; apply Z.log2_lt_pow2; [lia|].
  all: apply Z.lt_le_trans with (2 ^ 8); [lia|apply Z.pow_le_mono_r; lia].
Qed.

Lemma read_word_le p : (4 <= length p)%nat -> Forall is_byte p -> read_word p = le_val (take 4 p).
Proof.
  intros Hl Hp. destruct p as [|b0 [|b1 [|b2 [|b3 p]]]]; try (simpl in Hl; lia).
  inversion_clear Hp as [|? ? H0 Hp']. inversion_clear Hp' as [|? ? H1 Hp]. inversion_clear Hp as [|? ? H2 Hp'].
  inversion_clear Hp' as [|? ? H3 _]. unfold read_word. cbn [seq fold_left nth Nat.sub take le_val].
  rewrite (shift_or 0 b3), (shift_or _ b2), (shift_or _ b1), (shift_or _ b0); unfold is_byte, in_u in *; rewrite ?take_0; cbn [le_val]; lia.
Qed.

Lemma read_words_le n p : (4 * n <= length p)%nat -> Forall is_byte p ->
  read_words n p = (map le_val (groups n 4 p), drop (4 * n) p).
Proof.
  revert p. induction n as [|n IH]; intros p Hl Hp; [by rewrite drop_0|].
  cbn [read_words groups map]. rewrite IH, read_word_le by (rewrite ?length_drop; auto using Forall_drop; lia).
  rewrite drop_drop. do 2 f_equal. lia.
Qed.

Lemma take_groups k n m (l : bytes) : (k * n <= m)%nat -> groups k n (take m l) = groups k n l.
Proof.
  revert m l. induction k as [|k IH]; intros m l Hm; [done|]. cbn [groups].
  rewrite take_take, Nat.min_l, skipn_firstn_comm, IH by lia. done.
Qed.

Lemma md4_loop_rfc n p st : (64 * n <= length p)%nat -> Forall is_byte p ->
  md4_loop n p st = fold_left rfc_block (map rfc_words (groups n 64 p)) st.
Proof.
  revert p st. induction n as [|n IH]; intros p st Hl Hp; [done|].
  cbn [md4_loop groups map fold_left]. rewrite read_words_le by (done || lia).
  rewrite IH by (rewrite ?length_drop; auto using Forall_drop; lia).
  change (rfc_words (take 64 p)) with (map le_val (groups 16 4 (take 64 p))).
  rewrite take_groups by lia. by rewrite block_rfc.
Qed.

(** *** Padding *)

Lemma count_zeros_spec total : count_zeros total = (56 - total) mod 64.
Proof.
  unfold count_zeros. change BLOCK_LENGTH with 64. change BLOCK_PADDING with 56.
  pose proof (Z.mod_pos_bound total 64 ltac:(lia)). rewrite (Z.mod_eq (56 - total) 64), (Z.mod_eq total 64) in * by lia.
  pose proof (Z.div_mod (56 - total) 64 ltac:(lia)). pose proof (Z.mod_pos_bound (56 - total) 64 ltac:(lia)).
  destruct (Z.leb_spec (total - 64 * (total / 64)) 56); lia.
Qed.

Lemma store_size_ok n : forall i pre written length off,
  off = List.length pre -> i = List.length written -> (i + n <= 8)%nat ->
  store_size n i off length (pre ++ written ++ replicate n 0) =
  pre ++ written ++ map (byte_at (length * BYTE_LENGTH)) (seq i n).
Proof.
  induction n as [|n IH]; intros i pre written length off Ho Hi Hn; [done|].
  cbn [store_size seq map]. rewrite byte_of_u64 by lia.
  assert (E : splice (off + i) [byte_at (length * BYTE_LENGTH) i] (pre ++ written ++ replicate (S n) 0) =
    pre ++ (written ++ [byte_at (length * BYTE_LENGTH) i]) ++ replicate n 0).
  { rewrite (app_assoc pre), <- !app_assoc, (app_assoc pre). subst off i. rewrite <- length_app.
    change (replicate (S n) 0) with ([0] ++ replicate n 0). rewrite splice_app by done. by rewrite <- !app_assoc. }
  rewrite E, IH by (rewrite ?length_app; simpl; lia || done). by rewrite <- !app_assoc.
Qed.

Lemma md4_buffer_padded msg : zlen msg + 128 < 2 ^ 64 ->
  md4_buffer msg (zlen msg) = rfc_padded msg.
Proof.
  intros Hl. pose proof (zlen_nonneg msg). unfold md4_buffer. rewrite (wrap_id 64 (zlen msg + 1)) by (unfold in_u; lia).
  rewrite count_zeros_spec. replace (56 - (zlen msg + 1)) with (55 - zlen msg) by lia.
  set (zeros := (55 - zlen msg) mod 64). assert (Hz : 0 <= zeros < 64) by (apply Z.mod_pos_bound; lia).
  change SIZE_FIELD with 8. rewrite !wrap_id by (unfold in_u; rewrite ?wrap_id; unfold in_u; lia).
  rewrite zlen_nat, take_ge by lia.
  assert (E : replicate (Z.to_nat (zlen msg + 1 + zeros + 8)) 0 =
    replicate (length msg) 0 ++ [0] ++ replicate (Z.to_nat zeros) 0 ++ replicate 8 0).
  { change [0] with (replicate 1 0). rewrite <- !replicate_add. f_equal. unfold zlen in *. lia. }
  rewrite E. assert (E0 : splice 0 msg (replicate (length msg) 0 ++ [0] ++ replicate (Z.to_nat zeros) 0 ++ replicate 8 0)
    = msg ++ [0] ++ replicate (Z.to_nat zeros) 0 ++ replicate 8 0).
  { apply (splice_app [] (replicate (length msg) 0) msg). by rewrite length_replicate. }
  rewrite E0, splice_app by done. unfold rfc_padded. fold zeros.
  replace (Z.to_nat (zlen msg + 1 + zeros)) with (length (msg ++ [0x80] ++ replicate (Z.to_nat zeros) 0))
    by (rewrite !length_app, length_replicate; unfold zlen in *; simpl; lia).
  change (Z.to_nat 8) with 8%nat.
  replace (msg ++ [128] ++ replicate (Z.to_nat zeros) 0 ++ replicate 8 0)
    with ((msg ++ [128] ++ replicate (Z.to_nat zeros) 0) ++ [] ++ replicate 8 0) by (by rewrite <- !app_assoc).
  rewrite store_size_ok by (done || simpl; lia). rewrite app_nil_l, <- !app_assoc, le_bytes_map.
  unfold BYTE_LENGTH. rewrite (Z.mul_comm (zlen msg)). done.
Qed.

Lemma rfc_padded_length msg : exists k, length (rfc_padded msg) = (64 * k)%nat /\
  Z.of_nat (64 * k) = zlen msg + 1 + (55 - zlen msg) mod 64 + 8.
Proof.
  unfold rfc_padded. rewrite !length_app, length_replicate, length_le_bytes. simpl length.
  pose proof (Z.mod_pos_bound (55 - zlen msg) 64 ltac:(lia)). pose proof (zlen_nonneg msg).
  pose proof (Z.div_mod (55 - zlen msg) 64 ltac:(lia)).
  exists (Z.to_nat (1 - (55 - zlen msg) / 64)). unfold zlen in *. split; lia.
Qed.

Lemma rfc_padded_bytes msg : Forall is_byte msg -> Forall is_byte (rfc_padded msg).
Proof.
  intros Hm. unfold rfc_padded. rewrite !Forall_app. split_and!; [done| | |apply le_bytes_is_byte].
  - constructor; [unfold is_byte, in_u; lia|done].
  - apply Forall_replicate. unfold is_byte, in_u. lia.
Qed.

(** The registers of the code at the end of its loop are those of the
    algorithm, so the bytes written out are the digest. *)
Lemma MD4_ok malloc msg (Hmsg : Forall is_byte msg) (Hl : zlen msg + 128 < 2 ^ 64) :
  MD4 malloc msg (zlen msg) =
    Ok (if malloc (zlen (rfc_padded msg)) && malloc MD4_LENGTH then Some (md4 msg) else None).
Proof.
  destruct (rfc_padded_length msg) as (k & Hk & Ht). pose proof (zlen_nonneg msg).
  assert (E : u64 (u64 (u64 (zlen msg + 1) + count_zeros (u64 (zlen msg + 1))) + SIZE_FIELD) = zlen (rfc_padded msg)).
  { rewrite (wrap_id 64 (zlen msg + 1)) by (unfold in_u; lia). rewrite count_zeros_spec.
    replace (56 - (zlen msg + 1)) with (55 - zlen msg) by lia.
    pose proof (Z.mod_pos_bound (55 - zlen msg) 64 ltac:(lia)). change SIZE_FIELD with 8.
    rewrite !wrap_id by (unfold in_u; rewrite ?wrap_id; unfold in_u; lia).
    unfold zlen in *. lia. }
  unfold MD4. rewrite E. destruct (malloc (zlen (rfc_padded msg))); [|done]. cbn [negb andb].
  rewrite Z.ltb_irrefl. replace (zlen (rfc_padded msg) <? zlen msg + 1 + SIZE_FIELD) with false
    by (pose proof (Z.mod_pos_bound (55 - zlen msg) 64 ltac:(lia)); change SIZE_FIELD with 8; unfold zlen in *; lia).
  cbn [orb]. rewrite md4_buffer_padded by done.
  assert (E2 : Z.to_nat (zlen (rfc_padded msg) / BLOCK_LENGTH) = (length (rfc_padded msg) / 64)%nat).
  { unfold zlen. change BLOCK_LENGTH with (Z.of_nat 64). by rewrite <- Nat2Z.inj_div, Nat2Z.id. }
  rewrite E2, md4_loop_rfc; [|rewrite Hk, (Nat.mul_comm 64 k), Nat.div_mul by done; lia|by apply rfc_padded_bytes].
  unfold md4. destruct (fold_left _ _ _) as [[[A B] C] D]. destruct (malloc MD4_LENGTH); [|done].
  by rewrite !append_word_le.
Qed.

(** C18. The packer's in-place MD4, with its unrolled rounds, its wrap-around
    arithmetic and its padding in a zeroed buffer, computes the digest of RFC
    1320 of every input of bytes whose padded length fits 64 bits, and returns
    NULL exactly when one of its two allocations fails. *)
Theorem MD4_is_md4 malloc msg (Hmsg : Forall is_byte msg) (Hl : zlen msg + 128 < 2 ^ 64) :
  MD4 malloc msg (zlen msg) =
    Ok (if malloc (zlen (rfc_padded msg)) && malloc MD4_LENGTH then Some (md4 msg) else None).
Proof. by apply MD4_ok. Qed.
