(* ===== verification/PatchId.v ===== *)
(** * The identifier of a patch (tools/packer.c)

    The first half of an identifier is the build id of the live patch, found in
    the notes of its ELF file, and the second half the digest of its
    description. The ELF library, the file system and the allocator are
    parameters. *)

From stdpp Require Import list.
From S2P Require Import Prelude Errors Metadata Md4.

Open Scope ulp_scope.

Definition NT_GNU_BUILD_ID : Z := 3.

(** What [gelf_getnote] gives for the note at an offset: the offset of the next
    one, the type and where the descriptor is. *)
Record note := { n_next : Z; n_type : Z; n_descp : Z; n_descsz : Z }.

Section notes.
(** The data of the section, [None] when [elf_getdata] fails. *)
Variable elf_getdata : option bytes.
(** [gelf_getnote]; [None] is its 0. *)
Variable gelf_getnote : Z -> option note.

(** The loop over the notes. Its condition is
    [(n = gelf_getnote (d, offset, ...) > 0)], which assigns the value of the
    comparison to [n]. *)
Fixpoint find_build_id_note (fuel : nat) (offset : Z) : res Z (option note) :=
  match fuel with
  | O => NoFuel
  | S fuel =>
    let n := if gelf_getnote offset is Some _ then 1 else 0 in
    match gelf_getnote offset with
    | None => Ok None
    | Some nhdr =>
      if n_type nhdr =? NT_GNU_BUILD_ID then Ok (Some nhdr)
      else find_build_id_note fuel n
    end
  end.

(** The bytes of [buf] from [off], as [memcpy] of [n] reads them. *)
Definition read_buf (buf : bytes) (off n : Z) : res Z bytes :=
  if (off <? 0) || (n <? 0) || (zlen buf <? off + n) then Ub
  else Ok (slice (Z.to_nat off) (Z.to_nat n) buf).

(** [room] is the size of [buildid_buf]; the result is what it gets and [len]. *)
Definition get_build_id (fuel : nat) (room : Z) : res Z (bytes * Z) :=
  match elf_getdata with
  | None => Err 1
  | Some d_buf =>
    match find_build_id_note fuel 0 with
    | Ok None => Err 1
    | Ok (Some nhdr) =>
      match read_buf d_buf (n_descp nhdr) (n_descsz nhdr) with
      | Ok id => if room <? n_descsz nhdr then Ub else Ok (id, n_descsz nhdr)
      | Err e => Err e | Ub => Ub | NoFuel => NoFuel
      end
    | Err e => Err e | Ub => Ub | NoFuel => NoFuel
    end
  end.

(** The offset [result] points to in the data and [length]. *)
Definition parse_build_id (fuel : nat) : res Z (Z * Z) :=
  match elf_getdata with
  | None => Err 1
  | Some _ =>
    match find_build_id_note fuel 0 with
    | Ok None => Err 1
    | Ok (Some nhdr) => Ok (n_descp nhdr, s32 (n_descsz nhdr))
    | Err e => Err e | Ub => Ub | NoFuel => NoFuel
    end
  end.
End notes.

(** What the routines below ask of the machine. *)
Record pack_env := {
  load_elf : bool;                      (** the live patch opens as an ELF file *)
  build_id_note : bool;                 (** it has the section *)
  elf_getdata : option bytes;
  gelf_getnote : Z -> option note;
  fopen : bool;                         (** the description opens *)
  fseek : bool;
  ftell : Z;                            (** its size, -1 on failure *)
  malloc : Z -> bool;
  fread : Z -> bytes                    (** what reading so many bytes gives *)
}.

Definition ID_LEN : Z := 32.
Definition half : Z := ID_LEN / 2.

(** [ulp->patch_id] with [bs] from [off]. *)
Definition store_id (off : Z) (bs : bytes) (id : bytes) : bytes := splice (Z.to_nat off) bs id.

(** The second part: the digest of the description. *)
Definition write_digest (e : pack_env) (patch_id : bytes) : res Z (Z * bytes) :=
  if negb (fopen e) then Ok (1, patch_id)
  else if negb (fseek e) then Ok (1, patch_id)
  else
    let length := s32 (ftell e) in
    if length =? -1 then Ok (1, patch_id)
    else if negb (malloc e (u64 length)) then Ok (1, patch_id)
    else
      let input := fread e (u64 length) in
      let retcode := s32 (zlen input) in
      if negb (retcode =? length) then Ok (1, patch_id)
      else
        match MD4 (malloc e) input (u64 length) with
        | Ok None => Ok (1, patch_id)
        | Ok (Some digest) =>
          let length := if half <? MD4_LENGTH then half else MD4_LENGTH in
          Ok (0, store_id half (take (Z.to_nat length) digest) patch_id)
        | Err x => Err x | Ub => Ub | NoFuel => NoFuel
        end.

(** The code the function returns and the identifier it leaves in the patch. *)
Definition write_patch_id (fuel : nat) (e : pack_env) : res Z (Z * bytes) :=
  let patch_id := replicate (Z.to_nat ID_LEN) 0 in
  if negb (load_elf e) then Ok (1, patch_id)
  else if negb (build_id_note e) then Ok (1, patch_id)
  else
    match parse_build_id (elf_getdata e) (gelf_getnote e) fuel with
    | Ok (id, length) =>
      let length := if half <? length then half else length in
      match read_buf (default [] (elf_getdata e)) id length with
      | Ok bs => write_digest e (store_id 0 bs patch_id)
      | Err x => Err x | Ub => Ub | NoFuel => NoFuel
      end
    | Err _ => Ok (1, patch_id)
    | Ub => Ub | NoFuel => NoFuel
    end.

(** ** The notes *)

(** The loop looks at the note at offset 0 and then, because of the precedence
    of its condition, at offset 1 for ever. *)
Lemma find_note_spec getnote nt : getnote 0 = Some nt ->
  (n_type nt = NT_GNU_BUILD_ID -> forall fuel, find_build_id_note getnote (S fuel) 0 = Ok (Some nt)) /\
  (n_type nt <> NT_GNU_BUILD_ID -> getnote 1 = None ->
     forall fuel, find_build_id_note getnote (S (S fuel)) 0 = Ok None) /\
  (n_type nt <> NT_GNU_BUILD_ID -> (exists nt1, getnote 1 = Some nt1 /\ n_type nt1 <> NT_GNU_BUILD_ID) ->
     forall fuel, find_build_id_note getnote fuel 0 = NoFuel).
Proof.
  intros H0. split_and!.
  - intros Ht fuel. cbn [find_build_id_note]. by rewrite H0, (proj2 (Z.eqb_eq _ _) Ht).
  - intros Ht H1 fuel. cbn [find_build_id_note]. by rewrite H0, (proj2 (Z.eqb_neq _ _) Ht), H1.
  - intros Ht (nt1 & H1 & Ht1) fuel.
    assert (E : forall fuel, find_build_id_note getnote fuel 1 = NoFuel).
    { clear fuel. induction fuel as [|fuel IH]; [done|].
      cbn [find_build_id_note]. by rewrite H1, (proj2 (Z.eqb_neq _ _) Ht1). }
    destruct fuel; [done|]. cbn [find_build_id_note]. by rewrite H0, (proj2 (Z.eqb_neq _ _) Ht).
Qed.

(** *** The build id behind another note *)

(** A section whose second note, at offset 24, is the build id: the loop does
    not end. *)
Definition second_note (off : Z) : option note :=
  if off =? 0 then Some {| n_next := 24; n_type := 1; n_descp := 16; n_descsz := 8 |}
  else if off =? 1 then Some {| n_next := 25; n_type := 0; n_descp := 17; n_descsz := 0 |}
  else if off =? 24 then Some {| n_next := 60; n_type := NT_GNU_BUILD_ID; n_descp := 40; n_descsz := 20 |}
  else None.

Lemma build_id_never_found fuel : find_build_id_note second_note fuel 0 = NoFuel.
Proof. eapply find_note_spec; [reflexivity|done|]. eexists. by split. Qed.

(** ** The identifier *)

(** The first bytes of [id], filled with zeros. *)
Definition first_half (id : bytes) : bytes :=
  take (Z.to_nat half) id ++ replicate (Z.to_nat half - List.length id) 0.

Lemma first_half_length id : length (first_half id) = Z.to_nat half.
Proof. unfold first_half. rewrite length_app, length_take, length_replicate. lia. Qed.

Lemma md4_length msg : length (md4 msg) = Z.to_nat MD4_LENGTH.
Proof.
  unfold md4. destruct (fold_left _ _ _) as [[[A B] C] D].
  by rewrite !length_app, !length_le_bytes.
Qed.

(** The description is read and digested. *)
Definition described (e : pack_env) (msg : bytes) : Prop :=
  fopen e = true /\ fseek e = true /\ ftell e = zlen msg /\ zlen msg < 2 ^ 31 /\
  malloc e (zlen msg) = true /\ fread e (zlen msg) = msg /\ Forall is_byte msg.

Lemma write_digest_ok e msg h : described e msg -> length h = Z.to_nat ID_LEN ->
  write_digest e h =
    Ok (if malloc e (zlen (rfc_padded msg)) && malloc e MD4_LENGTH
        then (0, take (Z.to_nat half) h ++ md4 msg) else (1, h)).
Proof.
  intros (Ho & Hs & Ht & Hl & Hm & Hr & Hb) Hh. pose proof (zlen_nonneg msg).
  unfold write_digest. rewrite Ho, Hs, Ht, swrap_id by (unfold in_s; lia). cbn [negb].
  rewrite wrap_id by (unfold in_u; lia). replace (zlen msg =? -1) with false by lia.
  rewrite Hm, Hr, swrap_id, Z.eqb_refl by (unfold in_s; lia). cbn [negb].
  rewrite MD4_ok by (done || lia). destruct (_ && _); [|done].
  change (half <? MD4_LENGTH) with false. cbv iota. unfold store_id, splice.
  rewrite (take_ge (md4 msg)) by (rewrite md4_length; done). rewrite drop_ge, app_nil_r; [done|].
  rewrite md4_length, Hh. done.
Qed.

Lemma clamp_min z : (if half <? z then half else z) = Z.min half z.
Proof. destruct (Z.ltb_spec half z); lia. Qed.

Lemma store_first_half off n (d : bytes) : 0 <= off -> 0 <= n -> off + n <= zlen d ->
  store_id 0 (slice (Z.to_nat off) (Z.to_nat (Z.min half n)) d) (replicate (Z.to_nat ID_LEN) 0) =
  first_half (slice (Z.to_nat off) (Z.to_nat n) d) ++ replicate (Z.to_nat half) 0.
Proof.
  intros Ho Hn Hd. unfold store_id, splice, first_half, slice. cbn [app].
  change (take (Z.to_nat 0) (replicate (Z.to_nat ID_LEN) 0)) with (@nil Z). cbn [app].
  rewrite take_take, drop_replicate, <- app_assoc, <- replicate_add.
  unfold zlen, half, ID_LEN in *. rewrite Z2Nat.inj_min.
  f_equal. f_equal. rewrite !length_take, length_drop.
  change (Z.to_nat (32 / 2)) with 16%nat. change (Z.to_nat 32) with 32%nat. lia.
Qed.

(** When the first note of the live patch is its build id, the identifier is
    the first 16 bytes of the build id, filled with zeros, and the MD4 digest of
    the description, and the code is 0; a description that cannot be opened,
    measured, held in memory or digested gives the code 1 and an empty second half: the identifier is complete exactly when the code is 0. *)
Theorem patch_id_spec fuel e nt d (Helf : load_elf e = true) (Hsec : build_id_note e = true)
    (Hd : elf_getdata e = Some d) (Hnt : gelf_getnote e 0 = Some nt) (Hty : n_type nt = NT_GNU_BUILD_ID)
    (Hsz : 0 <= n_descsz nt < 2 ^ 31) (Hoff : 0 <= n_descp nt) (Hin : n_descp nt + n_descsz nt <= zlen d) :
  let id := slice (Z.to_nat (n_descp nt)) (Z.to_nat (n_descsz nt)) d in
  (forall msg, described e msg ->
     write_patch_id (S fuel) e =
       Ok (if malloc e (zlen (rfc_padded msg)) && malloc e MD4_LENGTH
           then (0, first_half id ++ md4 msg)
           else (1, first_half id ++ replicate (Z.to_nat half) 0))) /\
  (fopen e = false \/ fseek e = false \/ ftell e = -1 ->
     write_patch_id (S fuel) e = Ok (1, first_half id ++ replicate (Z.to_nat half) 0)).
Proof.
  intros id.
  assert (E : write_patch_id (S fuel) e = write_digest e (first_half id ++ replicate (Z.to_nat half) 0)).
  { unfold write_patch_id, parse_build_id. rewrite Helf, Hsec, Hd. cbn [negb].
    rewrite (proj1 (find_note_spec _ _ Hnt) Hty), swrap_id by (unfold in_s; lia).
    rewrite clamp_min. change (default [] (Some d)) with d. unfold read_buf, id.
    replace ((n_descp nt <? 0) || (Z.min half (n_descsz nt) <? 0) || (zlen d <? n_descp nt + Z.min half (n_descsz nt)))
      with false by (change half with 16; lia).
    by rewrite store_first_half by lia. }
  assert (Hl : length (first_half id ++ replicate (Z.to_nat half) 0) = Z.to_nat ID_LEN)
    by (by rewrite length_app, first_half_length, length_replicate).
  rewrite E. split.
  - intros msg Hm. rewrite (write_digest_ok _ _ _ Hm Hl).
    by rewrite take_app_length' by (by rewrite first_half_length).
  - intros Hf. unfold write_digest. destruct (fopen e), (fseek e); try done.
    destruct Hf as [|[| ->]]; done.
Qed.

(** An identifier has 32 bytes, whatever fails. *)
Lemma MD4_length malloc input len d : MD4 malloc input len = Ok (Some d) -> List.length d = 16%nat.
Proof.
  unfold MD4. destruct (negb (malloc _)); [done|]. destruct (_ || _); [done|].
  destruct (md4_loop _ _ _) as [[[A B] C] D]. destruct (negb _); [done|]. intros [= <-]. done.
Qed.

Lemma write_digest_length e h code id : List.length h = Z.to_nat ID_LEN -> write_digest e h = Ok (code, id) ->
  List.length id = Z.to_nat ID_LEN.
Proof.
  intros Hh. unfold write_digest. repeat (destruct (negb _); [by intros [= _ <-]|]).
  destruct (_ =? -1); [by intros [= _ <-]|]. repeat (destruct (negb _); [by intros [= _ <-]|]).
  destruct (MD4 _ _ _) as [[d|]| | |] eqn:E; try done; [|by intros [= _ <-]]. apply MD4_length in E.
  intros [= _ <-]. unfold store_id. rewrite length_splice; [done|].
  rewrite length_take, E, Hh. change (Z.to_nat half) with 16%nat. change (Z.to_nat ID_LEN) with 32%nat.
  change (Z.to_nat (if half <? MD4_LENGTH then half else MD4_LENGTH)) with 16%nat. lia.
Qed.

Lemma write_patch_id_length fuel e code id : write_patch_id fuel e = Ok (code, id) -> List.length id = 32%nat.
Proof.
  unfold write_patch_id. destruct (negb _); [by intros [= _ <-]|]. destruct (negb _); [by intros [= _ <-]|].
  destruct (parse_build_id _ _ _) as [[off n]| | |]; try done; [|by intros [= _ <-]]. rewrite clamp_min.
  unfold read_buf. destruct (_ || _) eqn:Eb; [done|]. apply write_digest_length. unfold store_id.
  rewrite length_splice; [done|]. rewrite length_replicate. unfold slice. rewrite length_take.
  change (Z.to_nat ID_LEN) with 32%nat. change (Z.to_nat 0) with 0%nat. change half with 16. lia.
Qed.
