(* ===== verification/MsgQueue.v ===== *)
(** * The message queue (lib/msg_queue.c, tools/messages.c)

    libpulp keeps its messages in a circular buffer that the tool reads from the
    process. [msgq_strpush] is the writer, [msgq_print] the reader. The buffer
    refines the list of the newest messages. The size of the buffer is a
    parameter [cap] of the operations, [MSGQ_BUFFER_MAX] in libpulp. *)

From stdpp Require Import list.
From S2P Require Import Prelude.

Open Scope ulp_scope.

Definition MSGQ_BUFFER_MAX : Z := 2 * 1024 * 1024.

Record msg_queue := { buffer : bytes; top : Z; bottom : Z; distance : Z }.

(** [__ulp_msg_queue] at the start. *)
Definition msgq_init (cap : Z) : msg_queue :=
  {| buffer := replicate (Z.to_nat cap) 0; top := 0; bottom := 0; distance := 0 |}.

(** [buffer[i]]. *)
Definition char_at (buffer : bytes) (i : Z) : option Z := if i <? 0 then None else buffer !! Z.to_nat i.

(** [strlen (&buffer[i])]. *)
Definition strlen_at (buffer : bytes) (i : Z) : option Z :=
  let s := drop (Z.to_nat i) buffer in
  if (i <? 0) || (zlen s <=? zlen (cstr s)) then None else Some (zlen (cstr s)).

Section queue.
Variable cap : Z.
(** The bound on the iterations of each loop. *)
Variable fuel : nat.

(** [while (buffer[bottom] == '\0')]: the new [bottom] and [travel]. *)
Fixpoint skip_nul (n : nat) (buffer : bytes) (bottom travel : Z) : res Z (Z * Z) :=
  match n with
  | O => NoFuel
  | S n =>
    match char_at buffer bottom with
    | None => Ub
    | Some c =>
      if c =? 0 then skip_nul n buffer (Z.rem (bottom + 1) cap) (travel + 1)
      else Ok (bottom, travel)
    end
  end.

(** [while (distance + msg_size >= MSGQ_BUFFER_MAX)]: the sum is a [size_t]. *)
Fixpoint evict (n : nat) (buffer : bytes) (msg_size bottom distance : Z) : res Z (Z * Z) :=
  if cap <=? u64 (distance + msg_size) then
    match n with
    | O => NoFuel
    | S n =>
      match strlen_at buffer bottom with
      | None => Ub
      | Some len =>
        let travel := len + 1 in
        match skip_nul fuel buffer (Z.rem (bottom + travel) cap) travel with
        | Ok (bottom, travel) => evict n buffer msg_size bottom (distance - travel)
        | Err e => Err e | Ub => Ub | NoFuel => NoFuel
        end
      end
    end
  else Ok (bottom, distance).

(** [top], [distance] and the buffer before the loop: a message that does not
    fit at the end goes to the beginning. *)
Definition wrap_top (msg_size : Z) (q : msg_queue) : msg_queue :=
  if cap <=? u64 (top q + msg_size) then
    {| buffer := splice (Z.to_nat (top q)) (replicate (Z.to_nat (cap - top q)) 0) (buffer q);
       top := 0; bottom := bottom q; distance := distance q + (cap - top q) |}
  else q.

Definition msgq_strpush (msg : bytes) (msg_size : Z) (q : msg_queue) : res Z msg_queue :=
  match msg with
  | [] => Ub
  | c :: _ =>
    if (c =? 0) || (cap <? msg_size) then Ok q
    else
      let q := wrap_top msg_size q in
      match evict fuel (buffer q) msg_size (bottom q) (distance q) with
      | Ok (bottom', distance') =>
        if (top q <? 0) || (zlen (buffer q) <? top q + msg_size) || (zlen msg <? msg_size) then Ub
        else
          Ok {| buffer := splice (Z.to_nat (top q)) (take (Z.to_nat msg_size) msg) (buffer q);
                top := (top q + msg_size) mod cap; bottom := bottom'; distance := distance' + msg_size |}
      | Err e => Err e | Ub => Ub | NoFuel => NoFuel
      end
  end.

(** The static buffer [msg] and the queue. *)
Record msgq_state := { msg : bytes; queue : msg_queue }.

(** [msgq_push] and [msgq_vpush]; [expansion] is what the format expands to,
    [None] when [vsnprintf] fails and returns -1. *)
Definition msgq_vpush (expansion : option bytes) (s : msgq_state) : res Z msgq_state :=
  let (msg, msg_size) :=
    match expansion with
    | Some text => (splice 0 (take (Z.to_nat (cap - 1)) text ++ [0]) (msg s), zlen text + 1)
    | None => (msg s, 0)
    end in
  match msgq_strpush msg msg_size (queue s) with
  | Ok q => Ok {| msg := msg; queue := q |}
  | Err e => Err e | Ub => Ub | NoFuel => NoFuel
  end.

(** [ulp_warn] and [ulp_debug]; [timestamp] is what [strftime] writes, [None]
    when it returns 0. *)
Definition ulp_warn (timestamp expansion : option bytes) (s : msgq_state) : res Z msgq_state :=
  match timestamp with
  | Some stamp =>
    match msgq_strpush (stamp ++ [0]) (zlen stamp + 1) (queue s) with
    | Ok q => msgq_vpush expansion {| msg := msg s; queue := q |}
    | Err e => Err e | Ub => Ub | NoFuel => NoFuel
    end
  | None => msgq_vpush expansion s
  end.

(** [msgq_print]: the characters that are put. *)
Fixpoint print_from (n : nat) (buffer : bytes) (bottom : Z) : res Z bytes :=
  match n with
  | O => Ok []
  | S n =>
    match char_at buffer bottom with
    | None => Ub
    | Some c =>
      match print_from n buffer (Z.rem (bottom + 1) cap) with
      | Ok out => Ok (c :: out)
      | r => r
      end
    end
  end.

Definition msgq_print (q : msg_queue) : res Z bytes :=
  print_from (Z.to_nat (distance q)) (buffer q) (bottom q).
End queue.

(** Messages pushed one after the other. *)
Fixpoint push_all (cap : Z) (fuel : nat) (texts : list bytes) (q : msg_queue) : res Z msg_queue :=
  match texts with
  | [] => Ok q
  | t :: texts =>
    match msgq_strpush cap fuel (t ++ [0]) (zlen t + 1) q with
    | Ok q => push_all cap fuel texts q
    | r => r
    end
  end.


(** ** The list of messages the buffer holds *)

(** An entry is a message with its terminator and the number of NUL characters
    that fill the end of the buffer behind it. *)
Abbreviation entry := (bytes * nat)%type.

Definition enc1 (e : entry) : bytes := e.1 ++ replicate e.2 0.
Definition enc (es : list entry) : bytes := concat (map enc1 es).

(** A message: a string that is not empty, with its terminator. *)
Definition message (m : bytes) : Prop := exists c t, m = (c :: t) ++ [0] /\ c <> 0 /\ no_nul t.

(** The messages that stay when [s] bytes are needed: the oldest go, one by one,
    as long as less than one byte would be left. *)
Fixpoint drop_until (cap s : Z) (es : list entry) : list entry :=
  match es with
  | [] => []
  | e :: es' => if cap <=? zlen (enc es) + s then drop_until cap s es' else es
  end.

(** Fill behind the newest message. *)
Definition pad_last (n : nat) (es : list entry) : list entry :=
  match rev es with
  | [] => []
  | (m, p) :: r => rev ((m, (p + n)%nat) :: r)
  end.

(** The abstract queue: the entries and where the next message goes. *)
Record fifo := { entries : list entry; next : Z }.

Definition fifo_init : fifo := {| entries := []; next := 0 |}.

Definition fifo_push (cap : Z) (m : bytes) (f : fifo) : fifo :=
  let wraps := cap <=? next f + zlen m in
  let es := if wraps then pad_last (Z.to_nat (cap - next f)) (entries f) else entries f in
  let pos := if wraps then 0 else next f in
  {| entries := drop_until cap (zlen m) es ++ [(m, 0%nat)]; next := pos + zlen m |}.

(** The buffer holds the newest entries [lo] from its start and the older ones
    [hi] to its end. *)
Record holds (cap : Z) (q : msg_queue) (f : fifo) : Prop := {
  h_entries : Forall (fun e => message e.1) (entries f);
  h_dist : distance q = zlen (enc (entries f));
  h_room : distance q < cap;
  h_next : top q = next f;
  h_layout : exists hi lo mid, entries f = hi ++ lo /\ buffer q = enc lo ++ mid ++ enc hi /\
    top q = zlen (enc lo) /\ bottom q = (cap - zlen (enc hi)) mod cap /\ (lo = [] -> hi = []);
  h_size : zlen (buffer q) = cap
}.

(** *** Lemmas on entries *)

Lemma enc_cons e es : enc (e :: es) = e.1 ++ replicate e.2 0 ++ enc es.
Proof. unfold enc, enc1. simpl. by rewrite <- app_assoc. Qed.

Lemma enc_app es fs : enc (es ++ fs) = enc es ++ enc fs.
Proof. unfold enc. by rewrite map_app, concat_app. Qed.

Lemma enc_snoc es m : enc (es ++ [(m, 0%nat)]) = enc es ++ m.
Proof. rewrite enc_app, enc_cons. simpl. by rewrite !app_nil_r. Qed.

Lemma pad_last_snoc n es m p : pad_last n (es ++ [(m, p)]) = es ++ [(m, (p + n)%nat)].
Proof. unfold pad_last. rewrite rev_app_distr. simpl. by rewrite rev_involutive. Qed.

Lemma pad_last_enc n es : es <> [] -> enc (pad_last n es) = enc es ++ replicate n 0.
Proof.
  destruct es as [|[m p] es _] using rev_ind; [done|]. intros _.
  rewrite pad_last_snoc, !enc_app, !enc_cons. simpl. rewrite !app_nil_r, replicate_add.
  by rewrite <- !app_assoc.
Qed.

Lemma pad_last_app n hi lo : lo <> [] -> pad_last n (hi ++ lo) = hi ++ pad_last n lo.
Proof.
  destruct lo as [|[m p] lo _] using rev_ind; [done|]. intros _.
  by rewrite (app_assoc hi), !pad_last_snoc, <- app_assoc.
Qed.

Lemma pad_last_messages n es : map fst (pad_last n es) = map fst es.
Proof.
  destruct es as [|[m p] es _] using rev_ind; [done|]. by rewrite pad_last_snoc, !map_app.
Qed.

Lemma drop_until_suffix cap s es : exists d, es = d ++ drop_until cap s es.
Proof.
  induction es as [|e es [d IH]]; [by exists []|]. cbn [drop_until].
  destruct (_ <=? _); [|by exists []]. exists (e :: d). cbn [app]. by f_equal.
Qed.

Lemma drop_until_room cap s es : s < cap -> zlen (enc (drop_until cap s es)) + s < cap.
Proof.
  intros Hs. induction es as [|e es IH]; [done|]. cbn [drop_until].
  destruct (Z.leb_spec cap (zlen (enc (e :: es)) + s)); lia || done.
Qed.

Lemma drop_until_app cap s hi lo : zlen (enc lo) + s < cap ->
  drop_until cap s (hi ++ lo) = drop_until cap (zlen (enc lo) + s) hi ++ lo.
Proof.
  intros Hs. induction hi as [|e hi IH]; cbn [app drop_until].
  - destruct lo as [|e lo]; [done|]. cbn [drop_until].
    by replace (cap <=? zlen (enc (e :: lo)) + s) with false by lia.
  - rewrite app_comm_cons, enc_app, zlen_app, IH, <- Z.add_assoc. by destruct (_ <=? _).
Qed.

Lemma drop_until_over cap s hi lo : cap <= zlen (enc lo) + s -> drop_until cap s (hi ++ lo) = drop_until cap s lo.
Proof.
  intros Hs. induction hi as [|e hi IH]; [done|]. cbn [app drop_until].
  rewrite app_comm_cons, enc_app, zlen_app, IH. pose proof (zlen_nonneg (enc (e :: hi))).
  by replace (cap <=? zlen (enc (e :: hi)) + zlen (enc lo) + s) with true by lia.
Qed.

Lemma messages_app (es fs : list entry) :
  Forall (fun e => message e.1) (es ++ fs) <-> Forall (fun e => message e.1) es /\ Forall (fun e => message e.1) fs.
Proof. apply Forall_app. Qed.

Lemma message_length m : message m -> 2 <= zlen m.
Proof. intros (c & t & -> & _ & _). rewrite zlen_app, zlen_cons. pose proof (zlen_nonneg t). change (zlen [0]) with 1. lia. Qed.

(** *** The loops *)

Lemma char_at_app pre c post : char_at (pre ++ c :: post) (zlen pre) = Some c.
Proof.
  unfold char_at. pose proof (zlen_nonneg pre). replace (zlen pre <? 0) with false by lia.
  rewrite zlen_nat. by apply list_lookup_middle.
Qed.

Lemma strlen_message pre m post : message m -> strlen_at (pre ++ m ++ post) (zlen pre) = Some (zlen m - 1).
Proof.
  intros (c & t & -> & Hc & Ht). unfold strlen_at. rewrite zlen_nat, drop_app_length.
  replace (((c :: t) ++ [0]) ++ post) with ((c :: t) ++ 0 :: post) by (by rewrite <- app_assoc).
  rewrite (cstr_nul (c :: t)) by (by constructor).
  pose proof (zlen_nonneg pre). pose proof (zlen_nonneg post).
  rewrite !zlen_cons, !zlen_app, !zlen_cons. change (zlen (@nil Z)) with 0.
  replace ((zlen pre <? 0) || (1 + zlen t + (1 + zlen post) <=? 1 + zlen t)) with false by lia.
  f_equal. lia.
Qed.

Lemma strlen_zero pre post : strlen_at (pre ++ 0 :: post) (zlen pre) = Some 0.
Proof.
  unfold strlen_at. rewrite zlen_nat, drop_app_length. change (cstr (0 :: post)) with (@nil Z).
  pose proof (zlen_nonneg pre). pose proof (zlen_nonneg post). rewrite zlen_cons. change (zlen (@nil Z)) with 0.
  by replace ((zlen pre <? 0) || (1 + zlen post <=? 0)) with false by lia.
Qed.

Lemma zlen_replicate n (x : Z) : zlen (replicate n x) = Z.of_nat n.
Proof. unfold zlen. by rewrite length_replicate. Qed.

Section loops.
Variables (cap : Z) (fuel : nat).
Hypothesis Hcap : 2 <= cap < 2 ^ 30.
Hypothesis Hfuel : cap < Z.of_nat fuel.

(** The character at [i], modulo the size, starts a message. *)
Definition live (buffer : bytes) (i : Z) : Prop :=
  exists c, char_at buffer (i mod cap) = Some c /\ c <> 0.

Lemma next_mod i : 0 <= i < cap -> Z.rem (i mod cap + 1) cap = (i + 1) mod cap.
Proof. intros Hi. rewrite Z.rem_mod_nonneg, (Z.mod_small i) by (rewrite ?Z.mod_small; lia). done. Qed.

(** The inner loop passes over the zeros up to the next message. *)
Lemma skip_zeros k : forall n pre post travel, (k < n)%nat -> zlen (pre ++ replicate k 0 ++ post) = cap ->
  live (pre ++ replicate k 0 ++ post) (zlen pre + Z.of_nat k) ->
  skip_nul cap n (pre ++ replicate k 0 ++ post) (zlen pre mod cap) travel =
  Ok ((zlen pre + Z.of_nat k) mod cap, travel + Z.of_nat k).
Proof.
  induction k as [|k IH]; intros n pre post travel Hn Hl Hlive; destruct n as [|n]; try lia.
  - rewrite !Z.add_0_r in *. cbn [skip_nul]. destruct Hlive as (c & -> & Hc).
    by rewrite (proj2 (Z.eqb_neq _ _) Hc).
  - cbn [skip_nul replicate app] in *. rewrite !zlen_app, zlen_cons in Hl.
    pose proof (zlen_nonneg pre). pose proof (zlen_nonneg (replicate k 0 ++ post)). rewrite zlen_app in *.
    rewrite (Z.mod_small (zlen pre)), char_at_app by lia. change (0 =? 0) with true. cbv iota.
    rewrite <- (Z.mod_small (zlen pre) cap) at 1 by lia. rewrite next_mod by lia.
    specialize (IH n (pre ++ [0]) post (travel + 1) ltac:(lia)).
    rewrite <- app_assoc, (zlen_app pre [0]) in IH. cbn [app] in IH. change (zlen [0]) with 1 in IH.
    rewrite IH.
    + do 2 f_equal; [f_equal|]; lia.
    + rewrite !zlen_app, zlen_cons, zlen_app. lia.
    + replace (zlen pre + 1 + Z.of_nat k) with (zlen pre + Z.of_nat (S k)) by lia. done.
Qed.

Lemma enc_live pre es post : Forall (fun e => message e.1) es -> zlen (pre ++ enc es ++ post) = cap -> es <> [] ->
  live (pre ++ enc es ++ post) (zlen pre).
Proof.
  intros Hes Hl He. destruct es as [|[m p] es]; [done|]. apply Forall_cons_iff in Hes as [Hm _].
  pose proof (message_length m Hm). rewrite enc_cons in *. cbn [fst snd] in *.
  rewrite !zlen_app in Hl. pose proof (zlen_nonneg pre). pose proof (zlen_nonneg (replicate p (0 : Z))).
  pose proof (zlen_nonneg (enc es)). pose proof (zlen_nonneg post).
  destruct Hm as (c & t & -> & Hc & _). exists c. rewrite Z.mod_small by lia. split; [|done].
  rewrite <- !app_assoc. cbn [app]. apply char_at_app.
Qed.

(** Behind the entries [es] at the end of the buffer comes the start of it. *)
Lemma live_next pre es : Forall (fun e => message e.1) es -> zlen (pre ++ enc es) = cap ->
  live (pre ++ enc es) 0 -> live (pre ++ enc es) (zlen pre).
Proof.
  intros Hes Hl H0. destruct es as [|e es].
  - rewrite app_nil_r in *. rewrite Hl. unfold live in *. by rewrite Z.mod_same, <- (Z.mod_0_l cap) by lia.
  - pose proof (enc_live pre (e :: es) [] Hes) as E. rewrite app_nil_r in E. by apply E.
Qed.

(** The outer loop leaves the entries [drop_until] leaves; the entries are at the
    end of the buffer and [r] bytes of newer ones at its start. *)
Lemma evict_region s r : 0 <= s -> 0 <= r -> r + s < cap -> forall hi n pre,
  (List.length hi < n)%nat -> Forall (fun e => message e.1) hi -> zlen (pre ++ enc hi) = cap ->
  (hi <> [] -> live (pre ++ enc hi) 0) ->
  evict cap fuel n (pre ++ enc hi) s (zlen pre mod cap) (zlen (enc hi) + r) =
  Ok ((cap - zlen (enc (drop_until cap (r + s) hi))) mod cap, zlen (enc (drop_until cap (r + s) hi)) + r).
Proof.
  intros Hs Hr Hrs. induction hi as [|[m p] hi IH]; intros n pre Hn Hm Hl H0; destruct n as [|n]; cbn [length] in Hn; try lia.
  - cbn [evict drop_until]. change (zlen (enc [])) with 0. rewrite wrap_id by (unfold in_u; lia).
    replace (cap <=? 0 + r + s) with false by lia. rewrite app_nil_r in Hl. by rewrite Hl, Z.sub_0_r.
  - cbn [evict drop_until]. rewrite zlen_app in Hl. pose proof (zlen_nonneg pre).
    pose proof (zlen_nonneg (enc ((m, p) :: hi))). rewrite wrap_id by (unfold in_u; lia). rewrite Z.add_assoc.
    destruct (Z.leb_spec cap (zlen (enc ((m, p) :: hi)) + r + s)).
    2: { by replace (cap - zlen (enc ((m, p) :: hi))) with (zlen pre) by lia. }
    specialize (H0 ltac:(discriminate)). apply Forall_cons_iff in Hm as [Hm Hhi]. cbn [fst] in Hm. pose proof (message_length m Hm).
    rewrite enc_cons in *. cbn [fst snd] in *. rewrite !zlen_app, zlen_replicate in Hl.
    pose proof (zlen_nonneg (enc hi)).
    rewrite Z.mod_small, strlen_message by (done || lia).
    replace (zlen m - 1 + 1) with (zlen m) by lia. rewrite Z.rem_mod_nonneg by lia.
    rewrite (app_assoc pre m), <- zlen_app. rewrite (app_assoc pre m) in H0.
    pose proof (live_next ((pre ++ m) ++ replicate p 0) hi Hhi) as Hlive.
    rewrite <- app_assoc in Hlive. rewrite !zlen_app, zlen_replicate in Hlive.
    rewrite (skip_zeros p) by (rewrite ?zlen_app, ?zlen_replicate; lia || apply Hlive; lia || done).
    specialize (IH n ((pre ++ m) ++ replicate p 0) ltac:(lia) Hhi).
    rewrite <- (app_assoc (pre ++ m)), !zlen_app, zlen_replicate in IH.
    replace (zlen m + (zlen (replicate p 0) + zlen (enc hi)) + r - (zlen m + Z.of_nat p)) with (zlen (enc hi) + r)
      by (rewrite zlen_replicate; lia).
    replace (zlen (m ++ replicate p 0 ++ enc hi) + r - (zlen m + Z.of_nat p)) with (zlen (enc hi) + r)
      by (rewrite !zlen_app, zlen_replicate; lia).
    rewrite (zlen_app pre m). apply IH; [lia|done].
Qed.
(** Writing the message behind [lo], over bytes no entry uses. *)
Lemma commit lo gap hi m : Forall (fun e => message e.1) (hi ++ lo) -> message m ->
  zlen (enc lo ++ gap ++ enc hi) = cap -> zlen (enc (hi ++ lo)) + zlen m < cap ->
  holds cap {| buffer := splice (Z.to_nat (zlen (enc lo))) m (enc lo ++ gap ++ enc hi);
               top := (zlen (enc lo) + zlen m) mod cap; bottom := (cap - zlen (enc hi)) mod cap;
               distance := zlen (enc (hi ++ lo)) + zlen m |}
            {| entries := (hi ++ lo) ++ [(m, 0%nat)]; next := zlen (enc lo) + zlen m |}.
Proof.
  intros Hes Hm Hl Hr. rewrite !zlen_app in Hl. rewrite enc_app, zlen_app in Hr.
  pose proof (zlen_nonneg (enc lo)). pose proof (zlen_nonneg (enc hi)). pose proof (zlen_nonneg m).
  rewrite zlen_nat.
  assert (E : splice (List.length (enc lo)) m (enc lo ++ gap ++ enc hi) = enc lo ++ m ++ drop (List.length m) gap ++ enc hi).
  { rewrite <- (take_drop (List.length m) gap) at 1. rewrite <- !app_assoc.
    apply splice_app. rewrite length_take. unfold zlen in *. lia. }
  rewrite E. split; cbn [entries distance buffer top bottom next].
  - apply messages_app. split; [done|]. by constructor.
  - by rewrite enc_snoc, zlen_app.
  - rewrite enc_app, zlen_app. lia.
  - apply Z.mod_small. lia.
  - exists hi, (lo ++ [(m, 0%nat)]), (drop (List.length m) gap). rewrite enc_snoc, zlen_app. split_and!.
    + by rewrite app_assoc.
    + by rewrite <- !app_assoc.
    + apply Z.mod_small. lia.
    + done.
    + by destruct lo.
  - rewrite !zlen_app. unfold zlen in *. rewrite length_drop. lia.
Qed.

Lemma entries_bound es : Forall (fun e => message e.1) es -> 2 * Z.of_nat (List.length es) <= zlen (enc es).
Proof.
  induction 1 as [|[m p] es Hm _ IH]; [done|]. pose proof (message_length m Hm).
  rewrite enc_cons. cbn [fst snd] in *. rewrite !zlen_app, zlen_replicate. cbn [List.length]. lia.
Qed.

Lemma pad_last_Forall n es : Forall (fun e => message e.1) es -> Forall (fun e => message e.1) (pad_last n es).
Proof.
  destruct es as [|[m p] es _] using rev_ind; [done|].
  rewrite pad_last_snoc, !messages_app. intros [H1 H2]. split; [done|].
  apply Forall_cons_iff in H2 as [H2 _]. by constructor.
Qed.

Lemma pad_last_length n es : List.length (pad_last n es) = List.length es.
Proof. rewrite <- (length_map fst), pad_last_messages. apply length_map. Qed.

(** After the jump of [top] to the start, the first round of the loop passes over
    the entries the fill has destroyed. *)
Lemma evict_wrapped n pre k s : 0 <= s < cap -> zlen (pre ++ replicate (S k) 0) = cap ->
  live (pre ++ replicate (S k) 0) 0 ->
  evict cap fuel (S n) (pre ++ replicate (S k) 0) s (zlen pre) (Z.of_nat (S k) + cap) =
  evict cap fuel n (pre ++ replicate (S k) 0) s 0 cap.
Proof.
  intros Hs Hl H0. cbn [evict]. rewrite zlen_app, zlen_replicate in Hl. pose proof (zlen_nonneg pre).
  rewrite wrap_id by (unfold in_u; lia). rewrite (proj2 (Z.leb_le _ _)) by lia.
  cbn [replicate] in *. rewrite strlen_zero. change (0 + 1) with 1. rewrite Z.rem_mod_nonneg by lia.
  pose proof (skip_zeros k fuel (pre ++ [0]) [] 1 ltac:(lia)) as E.
  rewrite <- !app_assoc, app_nil_r in E. cbn [app] in E. rewrite (zlen_app pre [0]) in E. change (zlen [0]) with 1 in E.
  replace (zlen pre + 1 + Z.of_nat k) with cap in E by lia.
  assert (Hlc : live (pre ++ 0 :: replicate k 0) cap).
  { unfold live in *. by rewrite Z.mod_same, <- (Z.mod_0_l cap) by lia. }
  rewrite E, Z.mod_same; [f_equal; lia|lia|rewrite zlen_app, zlen_cons, zlen_replicate; lia|done].
Qed.

(** The loop in the two situations in which a message is written, in terms of
    the entries. *)
Lemma evict_direct hi lo mid s : Forall (fun e => message e.1) (hi ++ lo) -> 0 <= s ->
  zlen (enc lo ++ mid ++ enc hi) = cap -> zlen (enc lo) + s < cap -> (lo = [] -> hi = []) ->
  let hi' := drop_until cap (zlen (enc lo) + s) hi in
  evict cap fuel fuel (enc lo ++ mid ++ enc hi) s ((cap - zlen (enc hi)) mod cap) (zlen (enc (hi ++ lo))) =
  Ok ((cap - zlen (enc hi')) mod cap, zlen (enc (hi' ++ lo))).
Proof.
  intros Hm Hs Hl Ht Hlo hi'. apply messages_app in Hm as [Hhi Hmlo].
  pose proof (entries_bound hi Hhi). pose proof (zlen_nonneg (enc lo)). pose proof (zlen_nonneg mid).
  assert (E : zlen (enc lo ++ mid) = cap - zlen (enc hi)) by (rewrite !zlen_app in *; lia).
  pose proof (evict_region s (zlen (enc lo)) Hs ltac:(lia) Ht hi fuel (enc lo ++ mid)) as R.
  rewrite E, <- app_assoc in R. rewrite !enc_app, !zlen_app. apply R; [rewrite !zlen_app in *; lia|done|done|].
  intros Hne. apply (enc_live [] lo (mid ++ enc hi)); [done|done|]. intros ->. by apply Hne, Hlo.
Qed.

Lemma evict_jump hi lo mid s : Forall (fun e => message e.1) (hi ++ lo) -> 0 <= s < cap -> lo <> [] ->
  zlen (enc lo ++ mid ++ enc hi) = cap -> zlen (enc lo) < cap ->
  let lo' := pad_last (Z.to_nat (cap - zlen (enc lo))) lo in
  let hi' := drop_until cap s lo' in
  evict cap fuel fuel (enc lo') s ((cap - zlen (enc hi)) mod cap) (zlen (enc (hi ++ lo)) + (cap - zlen (enc lo))) =
  Ok ((cap - zlen (enc hi')) mod cap, zlen (enc hi')).
Proof.
  intros Hm Hs Hlo Hl Ht lo' hi'. apply messages_app in Hm as [Hhi Hmlo].
  pose proof (entries_bound hi Hhi). pose proof (entries_bound lo Hmlo).
  pose proof (zlen_nonneg (enc lo)). pose proof (zlen_nonneg mid). rewrite !zlen_app in Hl.
  assert (El : enc lo' = enc lo ++ replicate (Z.to_nat (cap - zlen (enc lo))) 0) by (by apply pad_last_enc).
  assert (Ez : zlen (enc lo') = cap) by (rewrite El, zlen_app, zlen_replicate; lia).
  assert (Hlive : live (enc lo') 0).
  { rewrite El. apply (enc_live [] lo); [done| |done]. cbn [app]. by rewrite <- El. }
  assert (R : forall n, (List.length lo' < n)%nat -> evict cap fuel n (enc lo') s 0 cap =
    Ok ((cap - zlen (enc hi')) mod cap, zlen (enc hi'))).
  { intros n Hn. pose proof (evict_region s 0 ltac:(lia) ltac:(lia) ltac:(lia) lo' n [] Hn
      ltac:(by apply pad_last_Forall) Ez ltac:(done)) as R.
    cbn [app] in R. change (zlen []) with 0 in R. rewrite Z.mod_0_l, !Z.add_0_r, Ez in R by lia. exact R. }
  rewrite enc_app, zlen_app.
  replace (zlen (enc hi) + zlen (enc lo) + (cap - zlen (enc lo))) with (zlen (enc hi) + cap) by lia.
  destruct hi as [|e hi].
  - change (zlen (enc [])) with 0. rewrite Z.sub_0_r, Z.mod_same, Z.add_0_l by lia. apply R.
    unfold lo'. rewrite pad_last_length. lia.
  - assert (Hpos : exists k, zlen (enc (e :: hi)) = Z.of_nat (S k)).
    { cbn [List.length] in *. exists (Z.to_nat (zlen (enc (e :: hi)) - 1)). lia. }
    destruct Hpos as [k Hk]. rewrite Hk in *. rewrite Z.mod_small by lia.
    assert (Hn : exists n, fuel = S n) by (exists (Nat.pred fuel); lia). destruct Hn as [n Ef].
    assert (Es : enc lo' = (enc lo ++ replicate (Z.to_nat (zlen mid)) 0) ++ replicate (S k) 0).
    { rewrite El, <- app_assoc, <- replicate_add. do 2 f_equal. lia. }
    rewrite <- (R n) by (unfold lo'; rewrite pad_last_length; lia). rewrite Es in *.
    pose proof (evict_wrapped n (enc lo ++ replicate (Z.to_nat (zlen mid)) 0) k s Hs Ez Hlive) as W.
    rewrite zlen_app, zlen_replicate in W.
    replace (zlen (enc lo) + Z.of_nat (Z.to_nat (zlen mid))) with (cap - Z.of_nat (S k)) in W by lia.
    by rewrite <- Ef in W.
Qed.
Lemma split_gap s hi lo (mid : bytes) : zlen (enc lo ++ mid ++ enc hi) = cap ->
  exists gap, mid ++ enc hi = gap ++ enc (drop_until cap s hi).
Proof.
  intros _. destruct (drop_until_suffix cap s hi) as [d Hd]. exists (mid ++ enc d).
  rewrite Hd at 1. by rewrite enc_app, app_assoc.
Qed.

Lemma drop_until_Forall s es :
  Forall (fun e => message e.1) es -> Forall (fun e => message e.1) (drop_until cap s es).
Proof.
  intros Hes. destruct (drop_until_suffix cap s es) as [d Hd]. rewrite Hd in Hes. by apply messages_app in Hes as [_ Hes].
Qed.

(** Pushing a message refines [fifo_push]. *)
Lemma push_holds q f m : holds cap q f -> message m -> zlen m < cap ->
  exists q', msgq_strpush cap fuel m (zlen m) q = Ok q' /\ holds cap q' (fifo_push cap m f).
Proof.
  intros [Hes Hd Hr Hn (hi & lo & mid & He & Hb & Ht & Hbot & Hlo) Hsz] Hm Hs.
  pose proof (message_length m Hm). pose proof (zlen_nonneg (enc hi)). pose proof (zlen_nonneg (enc lo)).
  rewrite He in *. rewrite Hb in Hsz. rewrite Hd, enc_app, zlen_app in Hr.
  assert (Hfirst : exists c m', m = c :: m' /\ c <> 0) by (destruct Hm as (c & t & -> & Hc & _); by exists c, (t ++ [0])).
  destruct Hfirst as (c & m' & Em' & Hc).
  unfold msgq_strpush. rewrite Em'. rewrite <- Em'.
  rewrite (proj2 (Z.eqb_neq _ _) Hc). replace (cap <? zlen m) with false by lia. cbn [orb].
  unfold fifo_push, wrap_top. rewrite <- Hn, He, Ht, wrap_id by (unfold in_u; lia).
  destruct (Z.leb_spec cap (zlen (enc lo) + zlen m)) as [Hw|Hw]; cbn [buffer top bottom distance].
  - (* the message goes to the start *)
    assert (Hne : lo <> []) by (intros ->; change (zlen (enc [])) with 0 in Hw; lia).
    set (lo' := pad_last (Z.to_nat (cap - zlen (enc lo))) lo).
    assert (El : splice (Z.to_nat (zlen (enc lo))) (replicate (Z.to_nat (cap - zlen (enc lo))) 0) (buffer q) = enc lo').
    { rewrite Hb, zlen_nat. unfold splice, lo'. rewrite pad_last_enc, take_app_length, drop_ge, app_nil_r; [done| |done].
      rewrite !zlen_app in Hsz. rewrite !length_app, length_replicate. unfold zlen in *. lia. }
    assert (Elo : zlen (enc lo') = cap).
    { unfold lo'. rewrite pad_last_enc, zlen_app, zlen_replicate by done. lia. }
    pose proof (evict_jump hi lo mid (zlen m) Hes ltac:(lia) Hne Hsz ltac:(lia)) as R. cbv zeta in R. fold lo' in R.
    rewrite El, Hbot, Hd, R.
    rewrite Elo. replace ((0 <? 0) || (cap <? 0 + zlen m) || (zlen m <? zlen m)) with false by lia.
    rewrite zlen_nat, take_ge, pad_last_app, drop_until_over by (fold lo'; done || lia). fold lo'.
    destruct (split_gap (zlen m) lo' [] []) as [gap Hgap]; [by rewrite app_nil_l|].
    cbn [app] in Hgap. eexists. split; [reflexivity|].
    pose proof (commit [] gap (drop_until cap (zlen m) lo') m) as C. change (enc []) with (@nil Z) in C.
    rewrite !app_nil_r in C. cbn [app] in C. rewrite <- Hgap in C. apply C; [|done|done|].
    + apply drop_until_Forall, pad_last_Forall. by apply messages_app in Hes as [_ Hes].
    + by apply drop_until_room.
  - (* the message fits behind the newest one *)
    rewrite Hbot, Hd, Hb, (evict_direct hi lo mid (zlen m) Hes ltac:(lia) Hsz ltac:(lia) Hlo), Ht, Hsz.
    replace ((zlen (enc lo) <? 0) || (cap <? zlen (enc lo) + zlen m) || (zlen m <? zlen m)) with false by lia.
    rewrite (zlen_nat m), (take_ge m), drop_until_app by lia.
    destruct (split_gap (zlen (enc lo) + zlen m) hi lo mid Hsz) as [gap Hgap].
    eexists. split; [reflexivity|]. rewrite Hgap in *. apply commit; [|done|done|].
    + apply messages_app in Hes as [Hhi Hl]. apply messages_app. split; [by apply drop_until_Forall|done].
    + rewrite enc_app, zlen_app. pose proof (drop_until_room cap (zlen (enc lo) + zlen m) hi). lia.
Qed.
End loops.

(** ** Reading the queue *)

(** The text of an entry, and what the reader sees of it on a terminal. *)
Definition visible (f : fifo) : list bytes := map (fun e => cstr e.1) (entries f).
Definition shown (out : bytes) : bytes := List.filter (fun c => negb (c =? 0)) out.

Lemma print_seg cap : 0 < cap -> forall seg n pre post, zlen (pre ++ seg ++ post) = cap ->
  print_from cap (List.length seg + n) (pre ++ seg ++ post) (zlen pre mod cap) =
  match print_from cap n (pre ++ seg ++ post) ((zlen pre + zlen seg) mod cap) with
  | Ok out => Ok (seg ++ out)
  | r => r
  end.
Proof.
  intros Hcap. induction seg as [|c seg IH]; intros n pre post Hl.
  - change (zlen []) with 0. rewrite Z.add_0_r. cbn [List.length Nat.add app]. by destruct (print_from _ _ _ _).
  - cbn [List.length Nat.add print_from]. change (pre ++ (c :: seg) ++ post) with (pre ++ c :: (seg ++ post)) in *.
    pose proof Hl as Hl'. rewrite zlen_app, zlen_cons in Hl'.
    pose proof (zlen_nonneg pre). pose proof (zlen_nonneg (seg ++ post)).
    rewrite (Z.mod_small (zlen pre)) by lia. rewrite char_at_app. rewrite Z.rem_mod_nonneg by lia.
    specialize (IH n (pre ++ [c]) post). rewrite <- app_assoc, (zlen_app pre [c]) in IH. cbn [app] in IH.
    change (zlen [c]) with 1 in IH. rewrite (IH Hl), zlen_cons.
    replace (zlen pre + (1 + zlen seg)) with (zlen pre + 1 + zlen seg) by lia.
    by destruct (print_from cap n _ _).
Qed.

Lemma print_holds cap q f : 0 < cap -> holds cap q f -> msgq_print cap q = Ok (enc (entries f)).
Proof.
  intros Hcap [_ Hd _ _ (hi & lo & mid & He & Hb & _ & Hbot & _) Hsz]. unfold msgq_print.
  rewrite Hd, Hbot, He, Hb, enc_app, zlen_app in *. rewrite !zlen_app in Hsz.
  pose proof (zlen_nonneg (enc hi)). pose proof (zlen_nonneg (enc lo)). pose proof (zlen_nonneg mid).
  pose proof (print_seg cap Hcap (enc hi) (List.length (enc lo)) (enc lo ++ mid) []) as P1.
  pose proof (print_seg cap Hcap (enc lo) 0 [] (mid ++ enc hi)) as P2.
  rewrite <- !app_assoc, !app_nil_r, !zlen_app in P1. cbn [app] in P2. rewrite !zlen_app in P2.
  change (zlen []) with 0 in P2. rewrite Z.mod_0_l, Nat.add_0_r in P2 by lia.
  replace (zlen (enc lo) + zlen mid) with (cap - zlen (enc hi)) in P1 by lia.
  replace (cap - zlen (enc hi) + zlen (enc hi)) with cap in P1 by lia. rewrite Z.mod_same in P1 by lia.
  replace (Z.to_nat (zlen (enc hi) + zlen (enc lo))) with (List.length (enc hi) + List.length (enc lo))%nat
    by (unfold zlen; lia).
  rewrite P1, P2 by lia. cbn [print_from]. by rewrite app_nil_r.
Qed.

Lemma cstr_message m : message m -> m = cstr m ++ [0] /\ cstr m <> [] /\ no_nul (cstr m).
Proof.
  intros (c & t & -> & Hc & Ht). assert (Hn : no_nul (c :: t)) by (by constructor).
  by rewrite (cstr_nul (c :: t) [] Hn).
Qed.

Lemma shown_app a b : shown (a ++ b) = shown a ++ shown b.
Proof. apply filter_app. Qed.

Lemma shown_no_nul t : no_nul t -> shown t = t.
Proof.
  induction 1 as [|c t Hc _ IH]; [done|]. unfold shown in *. cbn [List.filter].
  by rewrite (proj2 (Z.eqb_neq _ _) Hc), IH.
Qed.

Lemma shown_zeros n : shown (replicate n 0) = [].
Proof. induction n; done. Qed.

Lemma shown_enc es : Forall (fun e => message e.1) es -> shown (enc es) = concat (map (fun e => cstr e.1) es).
Proof.
  induction 1 as [|[m p] es Hm _ IH]; [done|]. cbn [fst] in Hm.
  destruct (cstr_message m Hm) as (Em & _ & Hn). rewrite enc_cons. cbn [fst snd map concat].
  rewrite !shown_app, shown_zeros, IH. rewrite Em at 1. by rewrite shown_app, shown_no_nul, app_nil_r.
Qed.

(** ** Runs of messages *)

(** The messages [msgq_strpush] does not ignore. *)
Definition fits (cap : Z) (t : bytes) : bool := negb (byte_eqb t []) && (zlen t + 1 <? cap).

Lemma push_ignored cap fuel t q : t = [] \/ cap < zlen t + 1 ->
  msgq_strpush cap fuel (t ++ [0]) (zlen t + 1) q = Ok q.
Proof.
  intros Ht. destruct t as [|c t]; [done|]. destruct Ht as [|Ht]; [done|]. unfold msgq_strpush. cbn [app].
  by rewrite (proj2 (Z.ltb_lt _ _) Ht), orb_true_r.
Qed.

Lemma message_text t : no_nul t -> t <> [] -> message (t ++ [0]).
Proof. intros Ht Hne. destruct t as [|c t]; [done|]. inversion_clear Ht. by exists c, t. Qed.

Lemma visible_push cap t f : no_nul t ->
  exists d, visible f = d ++ removelast (visible (fifo_push cap (t ++ [0]) f)) /\
    visible (fifo_push cap (t ++ [0]) f) = removelast (visible (fifo_push cap (t ++ [0]) f)) ++ [t].
Proof.
  intros Ht. unfold visible, fifo_push. cbn [entries]. rewrite map_app. cbn [map fst].
  rewrite cstr_nul, removelast_last by done.
  set (es := if _ <=? _ then pad_last _ _ else _).
  assert (E : map (fun e : entry => cstr e.1) es = map (fun e : entry => cstr e.1) (entries f)).
  { unfold es. destruct (_ <=? _); [|done]. by rewrite <- !(map_map fst cstr), pad_last_messages. }
  destruct (drop_until_suffix cap (zlen (t ++ [0])) es) as [d Hd].
  exists (map (fun e : entry => cstr e.1) d). split; [|done]. by rewrite <- E, <- map_app, <- Hd.
Qed.

Lemma init_holds_msgs cap : 0 < cap -> holds cap (msgq_init cap) fifo_init.
Proof.
  intros Hcap. assert (E : zlen (replicate (Z.to_nat cap) (0 : Z)) = cap) by (rewrite zlen_replicate; lia).
  split; cbn [entries buffer top bottom distance next msgq_init fifo_init]; try done.
  exists [], [], (replicate (Z.to_nat cap) 0). change (zlen (enc [])) with 0.
  rewrite Z.sub_0_r, Z.mod_same, !app_nil_r by lia. done.
Qed.

(** The bytes the messages take in the buffer. *)
Definition total (texts : list bytes) : Z := fold_right (fun t n => zlen t + 1 + n) 0 texts.

Lemma total_nonneg texts : 0 <= total texts.
Proof. induction texts as [|t texts IH]; simpl; [lia|]. pose proof (zlen_nonneg t). lia. Qed.

Lemma push_keeps_all cap m f : next f = zlen (enc (entries f)) -> next f + zlen m < cap ->
  fifo_push cap m f = {| entries := entries f ++ [(m, 0%nat)]; next := next f + zlen m |}.
Proof.
  intros Hn Hr. unfold fifo_push. rewrite (proj2 (Z.leb_gt _ _)) by lia. f_equal. f_equal.
  destruct (entries f) as [|e es]; [done|]. cbn [drop_until]. by rewrite (proj2 (Z.leb_gt _ _)) by lia.
Qed.

Lemma run_holds cap fuel : 2 <= cap < 2 ^ 30 -> cap < Z.of_nat fuel -> forall texts q f,
  holds cap q f -> Forall (fun t => no_nul t /\ zlen t + 1 <> cap) texts ->
  exists q' f' d, push_all cap fuel texts q = Ok q' /\ holds cap q' f' /\
    visible f ++ List.filter (fits cap) texts = d ++ visible f' /\
    (visible f <> [] \/ List.filter (fits cap) texts <> [] -> visible f' <> []) /\
    (next f = zlen (enc (entries f)) -> next f + total (List.filter (fits cap) texts) < cap -> d = []).
Proof.
  intros Hcap Hfuel. induction texts as [|t texts IH]; intros q f Hq Ht.
  - exists q, f, []. rewrite app_nil_r. split_and!; try done. by intros [|].
  - apply Forall_cons_iff in Ht as [[Ht Hne] Hts]. cbn [push_all List.filter].
    destruct (fits cap t) eqn:Hf.
    + unfold fits in Hf. apply andb_true_iff in Hf as [Hf1 Hf2]. apply negb_true_iff, byte_eqb_neq in Hf1.
      apply Z.ltb_lt in Hf2. assert (El : zlen (t ++ [0]) = zlen t + 1) by (by rewrite zlen_app).
      destruct (push_holds cap fuel Hcap Hfuel q f (t ++ [0]) Hq) as (q1 & E1 & H1); [by apply message_text|lia|].
      rewrite El in E1. rewrite E1. destruct (visible_push cap t f Ht) as (d1 & V1 & V2).
      set (f1 := fifo_push cap (t ++ [0]) f) in *.
      destruct (IH q1 f1 H1 Hts) as (q' & f' & d & E & H' & V & Vne & Vall). exists q', f', (d1 ++ d).
      rewrite E. split_and!; [done|done| | |].
      * by rewrite V1, <- !app_assoc, <- V, V2, removelast_last, <- !app_assoc.
      * intros _. apply Vne. left. rewrite V2. by destruct (removelast _).
      * cbn [total fold_right]. fold (total (List.filter (fits cap) texts)). intros Hn Hr.
        pose proof (total_nonneg (List.filter (fits cap) texts)).
        assert (Ef : f1 = {| entries := entries f ++ [(t ++ [0], 0%nat)]; next := next f + zlen (t ++ [0]) |})
          by (apply push_keeps_all; lia).
        rewrite Vall, app_nil_r; [|rewrite Ef; cbn [next entries]; rewrite enc_snoc, (zlen_app (enc _)); lia|rewrite Ef; cbn [next]; lia].
        rewrite Ef in V1. unfold visible in V1. cbn [entries] in V1. rewrite map_app in V1. cbn [map] in V1. rewrite removelast_last in V1.
        symmetry in V1. by apply (app_inv_tail (map (fun e : entry => cstr e.1) (entries f)) d1 []).
    + rewrite push_ignored.
      * destruct (IH q f Hq Hts) as (q' & f' & d & R). exists q', f', d. exact R.
      * unfold fits in Hf. apply andb_false_iff in Hf as [Hf|Hf].
        -- left. by apply negb_false_iff, byte_eqb_spec in Hf.
        -- right. apply Z.ltb_ge in Hf. lia.
Qed.

(** C10. The circular buffer of libpulp refines the list of its newest messages.
    After any run of messages none of which fills the buffer exactly, pushing
    neither hangs nor leaves the buffer, [distance] is below its size, and what
    the reader shows is the text of the newest messages, in order: of all of them
    when they fit together, and of the last one at least; empty and oversized
    messages are ignored. *)
Theorem messages_kept cap fuel texts (Hcap : 2 <= cap < 2 ^ 30) (Hfuel : cap < Z.of_nat fuel)
    (Htexts : Forall (fun t => no_nul t /\ zlen t + 1 <> cap) texts) :
  let kept := List.filter (fits cap) texts in
  exists q old new out, push_all cap fuel texts (msgq_init cap) = Ok q /\
    0 <= distance q < cap /\ kept = old ++ new /\ (kept <> [] -> new <> []) /\
    (total kept < cap -> new = kept) /\
    msgq_print cap q = Ok out /\ shown out = concat new.
Proof.
  intros kept. destruct (run_holds cap fuel Hcap Hfuel texts _ _ (init_holds_msgs cap ltac:(lia)) Htexts)
    as (q & f & d & E & Hq & V & Vne & Vall).
  exists q, d, (visible f), (enc (entries f)). change (visible fifo_init) with (@nil bytes) in *.
  split_and!; try done.
  - rewrite (h_dist _ _ _ Hq). apply zlen_nonneg.
  - by apply (h_room _ _ _ Hq).
  - intros Hk. apply Vne. by right.
  - intros Hr. cbn [app] in V. fold kept in V, Vall. by rewrite V, Vall.
  - apply print_holds; [lia|done].
  - apply shown_enc, (h_entries _ _ _ Hq).
Qed.

(** ** A message that fills the buffer *)

Lemma skip_nul_hangs cap n : forall travel i, 0 <= i < cap ->
  skip_nul cap n (replicate (Z.to_nat cap) 0) i travel = NoFuel.
Proof.
  induction n as [|n IH]; intros travel i Hi; [done|]. cbn [skip_nul].
  unfold char_at. rewrite (proj2 (Z.ltb_ge _ _)), lookup_replicate_2 by lia.
  apply IH. rewrite Z.rem_mod_nonneg by lia. apply Z.mod_pos_bound. lia.
Qed.

(** The guard of [msgq_strpush] lets a message pass that needs the whole
    buffer, terminator included; pushed first, such a message is never stored:
    the loops that make room do not end. *)
Theorem full_message_hangs cap fuel t (Hcap : 0 < cap < 2 ^ 30) (Ht : no_nul t) (Hne : t <> []) (Hl : zlen t + 1 = cap) :
  msgq_strpush cap fuel (t ++ [0]) (zlen t + 1) (msgq_init cap) = NoFuel.
Proof.
  destruct t as [|c t]; [done|]. inversion_clear Ht as [|? ? Hc _]. unfold msgq_strpush. cbn [app].
  rewrite (proj2 (Z.eqb_neq _ _) Hc), Hl, Z.ltb_irrefl. cbn [orb]. unfold wrap_top, msgq_init. cbn [top].
  rewrite wrap_id by (unfold in_u; lia). rewrite Z.add_0_l, Z.leb_refl. cbn [top bottom distance buffer].
  assert (E : splice (Z.to_nat 0) (replicate (Z.to_nat (cap - 0)) 0) (replicate (Z.to_nat cap) 0) =
    replicate (Z.to_nat cap) 0).
  { unfold splice. rewrite Z.sub_0_r. cbn [app]. change (Z.to_nat 0) with 0%nat. rewrite take_0, drop_ge, app_nil_r; [done|].
    by rewrite length_replicate. }
  rewrite E. destruct fuel as [|fuel]; cbn [evict]; rewrite wrap_id by (unfold in_u; lia).
  all: rewrite (proj2 (Z.leb_le _ _)) by lia.
  { done. }
  assert (Es : replicate (Z.to_nat cap) 0 = [] ++ 0 :: replicate (Z.to_nat (cap - 1)) 0).
  { replace (Z.to_nat cap) with (S (Z.to_nat (cap - 1))) by lia. done. }
  pose proof (strlen_zero [] (replicate (Z.to_nat (cap - 1)) 0)) as E0. change (zlen []) with 0 in E0.
  rewrite <- Es in E0. rewrite E0, skip_nul_hangs; [done|].
  rewrite Z.rem_mod_nonneg by lia. apply Z.mod_pos_bound. lia.
Qed.
