(* ===== verification/Messages.v ===== *)
(** * Printing the messages of a process (tools/messages.c)

    The tool attaches to the process, copies the message queue out of its memory
    and prints it. *)

From stdpp Require Import gmap.
From S2P Require Import Prelude Errors Memory Ptrace InsnQueue InsnQueueTool MsgQueue.

Open Scope ulp_scope.

Section tool_messages.
Context {K : Type} `{Kernel K}.
Variable fuel : nat.
(** [MSGQ_BUFFER_MAX]. *)
Variable cap : Z.

Abbreviation sys A := (st (tool K) Z A).

(** The field [msg_queue] of the first object of libpulp that has one. *)
Fixpoint get_msgq_address (dynobj_libpulp : list Z) : Z :=
  match dynobj_libpulp with
  | [] => 0
  | a :: l => if negb (a =? 0) then a else get_msgq_address l
  end.

(** [struct msg_queue] from its bytes. *)
Definition msgq_of (bs : bytes) : msg_queue :=
  {| buffer := take (Z.to_nat cap) bs; top := int_at (Z.to_nat cap) bs;
     bottom := int_at (Z.to_nat cap + 4) bs; distance := int_at (Z.to_nat cap + 8) bs |}.

Definition sizeof_msg_queue : Z := cap + 12.

(** [msgq_debug]: the buffer with dots for NUL, and the marks below it. *)
Definition msgq_debug (q : msg_queue) : bytes :=
  map (fun c => if c =? 0 then 46 else c) (buffer q) ++ [10] ++
  map (fun i => if bottom q =? Z.of_nat i then 66 else if top q =? Z.of_nat i then 84 else 32)
    (seq 0 (Z.to_nat cap)) ++ [10].

(** The code and what is put on the terminal. *)
Definition print_message_buffer (dynobj_libpulp : list Z) (pid : Z) (debug : bool) : sys (Z * bytes) :=
  let msgq_addr := get_msgq_address dynobj_libpulp in
  if msgq_addr =? 0 then
    t_log "could not find libpulp.so message queue in process %d.";;; ret (1, [])
  else
    let! e := attach fuel pid in
    if negb (e =? 0) then t_log "unable to attach to %d to read string.";;; ret (1, [])
    else
      let! r := read_memory fuel (replicate (Z.to_nat sizeof_msg_queue) 0) sizeof_msg_queue pid msgq_addr in
      let (rc, bs) := r in
      let! d := detach fuel pid in
      if negb (d =? 0) then t_log "unable to detach from %d.";;; ret (1, [])
      else if 0 <? rc then
        t_log "could not read libpulp.so message queue in process %d.";;; ret (1, [])
      else if debug then ret (rc, msgq_debug (msgq_of bs))
      else
        match msgq_print cap (msgq_of bs) with
        | Ok out => ret (rc, out)
        | Err e => throw e | Ub => undef | NoFuel => nofuel
        end.

(** [initialize_data_structures] gives its code and the queues of the objects. *)
Definition run_messages (isnumber : bool) (pid : Z) (initialize_data_structures : sys (Z * list Z)) : sys (Z * bytes) :=
  if negb isnumber then t_log "messages only accepts PID when passing -p.";;; ret (1, [])
  else
    let! r := initialize_data_structures in
    let (e, dynobj_libpulp) := r in
    if negb (e =? 0) then t_log "error gathering target process information.";;; ret (1, [])
    else
      let! r := print_message_buffer dynobj_libpulp pid false in
      let (rc, out) := r in
      if 0 <? rc then t_log "message queue reading failed.";;; ret (1, out) else ret (rc, out).
End tool_messages.

(** ** The queue in the memory of the process *)

Definition msgq_image (q : msg_queue) : bytes :=
  buffer q ++ le_bytes 4 (u32 (top q)) ++ le_bytes 4 (u32 (bottom q)) ++ le_bytes 4 (u32 (distance q)).

Lemma msgq_of_image cap q : zlen (buffer q) = cap -> in_s 32 (top q) -> in_s 32 (bottom q) -> in_s 32 (distance q) ->
  msgq_of cap (msgq_image q) = q.
Proof.
  intros Hl Ht Hb Hd. destruct q as [buf t b d]. cbn [buffer top bottom distance] in *.
  assert (E : Z.to_nat cap = List.length buf) by (unfold zlen in Hl; lia).
  unfold msgq_of, msgq_image, int_at. cbn [buffer top bottom distance]. rewrite E.
  set (x := le_bytes 4 (u32 t)). set (y := le_bytes 4 (u32 b)). set (z := le_bytes 4 (u32 d)).
  assert (S : forall k w, slice (List.length buf + k) 4 (buf ++ w) = slice k 4 w).
  { intros k w. unfold slice. by rewrite <- drop_drop, drop_app_length. }
  rewrite take_app_length, !S. rewrite <- (Nat.add_0_r (List.length buf)), S.
  change (slice 0 4 (x ++ y ++ z)) with x. change (slice 4 4 (x ++ y ++ z)) with y.
  change (slice 8 4 (x ++ y ++ z)) with z. unfold x, y, z. by rewrite !int_of_header.
Qed.

Section printing.
Context {K : Type} `{Cooperative K}.
Variables (fuel : nat) (cap : Z).

(** What the tool prints: once attached to a process whose memory holds a
    queue, it returns 0 and prints what [msgq_print] makes of that queue, and the
    memory of the process is as it was. *)
Theorem print_message_buffer_spec addrs pid q out s s1
    (Hatt : attach (S fuel) pid s = (Ok 0, s1))
    (Hdet : forall s, exists s', detach (S fuel) pid s = (Ok 0, s') /\ tmem pid s' = tmem pid s)
    (Haddr : get_msgq_address addrs <> 0)
    (Hcap : zlen (buffer q) = cap) (Hints : in_s 32 (top q) /\ in_s 32 (bottom q) /\ in_s 32 (distance q))
    (Hmem : mem_read (get_msgq_address addrs) (Z.to_nat (sizeof_msg_queue cap)) (tmem pid s1) = Some (msgq_image q))
    (Hprint : msgq_print cap q = Ok out) :
  exists s', print_message_buffer (S fuel) cap addrs pid false s = (Ok (0, out), s') /\
    tmem pid s' = tmem pid s1.
Proof.
  destruct Hints as (Ht & Hb & Hd). unfold print_message_buffer. set (a := get_msgq_address addrs) in *.
  rewrite (proj2 (Z.eqb_neq _ _) Haddr), (bind_ok _ _ _ _ _ Hatt). change (negb (0 =? 0)) with false. cbv iota.
  set (n := sizeof_msg_queue cap) in *. set (buf := replicate (Z.to_nat n) 0).
  assert (Hn : zlen buf = n).
  { unfold buf. rewrite zlen_replicate. unfold n, sizeof_msg_queue. pose proof (zlen_nonneg (buffer q)). lia. }
  destruct (read_memory_succeeds fuel buf pid a s1) as (bs & s2 & E & M & R).
  { exists (msgq_image q). unfold buf. by rewrite length_replicate. }
  rewrite Hn in E. unfold buf in R. rewrite length_replicate, Hmem in R. injection R as <-.
  rewrite (bind_ok _ _ _ _ _ E). destruct (Hdet s2) as (s3 & D & M3). rewrite (bind_ok _ _ _ _ _ D).
  change (negb (0 =? 0)) with false. change (0 <? 0) with false. cbv iota.
  rewrite msgq_of_image, Hprint by done. exists s3. split; [done|]. by rewrite M3.
Qed.
End printing.
