(* ===== verification/PcQueue.v ===== *)
(** * The producer-consumer queue (tools/pcqueue.c)

    The tool lists processes in one thread and examines them in another; the
    threads share a ring of pointers guarded by two semaphores. Each access to
    shared memory is a step, and the steps of the threads interleave
    arbitrarily, in the order in which memory sees them. *)

From stdpp Require Import list relations.
From S2P Require Import Prelude Errors.

Open Scope ulp_scope.

Section pcqueue.
(** What the pointers point to. *)
Context {A : Type}.

(** A [void *]: [None] is NULL. *)
Abbreviation ptr := (option A).

(** [struct producer_consumer]: a semaphore is its value, a slot that was never
    written is [None]. *)
Record producer_consumer_t := {
  n : Z; head : Z; tail : Z; empty : Z; full : Z; elem : list (option ptr) }.

(** [sem_init_errno] tells for each of the two calls of [sem_init] whether it
    fails, and with which code. *)
Definition producer_consumer_init (sem_init_errno : option Z * option Z) (elem : list (option ptr)) (n : Z) :
    Z * producer_consumer_t :=
  let queue := {| n := n; head := 0; tail := 0; empty := 0; full := 0; elem := elem |} in
  match sem_init_errno with
  | (Some e, _) => (e, queue)
  | (None, Some e) => (e, queue)
  | (None, None) => (0, {| n := n; head := 0; tail := 0; empty := 0; full := n; elem := elem |})
  end.

Definition producer_consumer_new (malloc : Z -> bool) (sem_init_errno : option Z * option Z) (size_t_struct n : Z) :
    option producer_consumer_t :=
  if negb (malloc (size_t_struct + n * 8)) then None
  else
    let (e, q) := producer_consumer_init sem_init_errno (replicate (Z.to_nat n) None) n in
    if negb (e =? 0) then None else Some q.

(** [sem_destroy_errno] tells how the two calls of [sem_destroy] end. *)
Definition producer_consumer_destroy (sem_destroy_errno : option Z * option Z) (queue : producer_consumer_t) :
    Z * producer_consumer_t :=
  match sem_destroy_errno with
  | (Some e, _) => (e, queue)
  | (None, Some e) => (e, queue)
  | (None, None) => (0, {| n := 0; head := 0; tail := 0; empty := 0; full := 0; elem := elem queue |})
  end.

(** The code; the queue is freed in any case. *)
Definition producer_consumer_delete (sem_destroy_errno : option Z * option Z) (queue : option producer_consumer_t) : Z :=
  match queue with
  | Some q => (producer_consumer_destroy sem_destroy_errno q).1
  | None => 0
  end.

(** ** The steps of the two functions *)

(** Where [producer_consumer_enqueue] is: at its [sem_wait], at the store and
    the increment of [head], at the wrap-around, at its [sem_post]. *)
Inductive enqueue_at := EWait | EStore (x : ptr) | EWrap (x : ptr) | EPost (x : ptr).
(** The same for [producer_consumer_dequeue]. *)
Inductive dequeue_at := DWait | DLoad | DWrap (x : ptr) | DPost (x : ptr).

(** The threads: what the producer still has to enqueue, what [dequeue] has
    returned; and, for the specification, everything ever stored and loaded. *)
Record threads := {
  queue : producer_consumer_t;
  producer : enqueue_at; todo : list ptr;
  consumer : dequeue_at; got : list ptr;
  stored : list ptr; loaded : list ptr }.

Definition with_q (q : producer_consumer_t) (s : threads) : threads :=
  {| queue := q; producer := producer s; todo := todo s; consumer := consumer s; got := got s;
     stored := stored s; loaded := loaded s |}.

Definition set_producer (p : enqueue_at) (todo : list ptr) (s : threads) : threads :=
  {| queue := queue s; producer := p; todo := todo; consumer := consumer s; got := got s;
     stored := stored s; loaded := loaded s |}.

Definition set_consumer (c : dequeue_at) (got : list ptr) (s : threads) : threads :=
  {| queue := queue s; producer := producer s; todo := todo s; consumer := c; got := got;
     stored := stored s; loaded := loaded s |}.

Definition sems (q : producer_consumer_t) (e f : Z) : producer_consumer_t :=
  {| n := n q; head := head q; tail := tail q; empty := e; full := f; elem := elem q |}.

Definition indices (q : producer_consumer_t) (h t : Z) : producer_consumer_t :=
  {| n := n q; head := h; tail := t; empty := empty q; full := full q; elem := elem q |}.

(** The index is inside [elem]. *)
Definition in_ring (q : producer_consumer_t) (i : Z) : bool := (0 <=? i) && (i <? zlen (elem q)).

(** The next step of the producer; [Err] when it has none: it waits, or it is
    done. *)
Definition enqueue_step (s : threads) : res unit threads :=
  let q := queue s in
  match producer s with
  | EWait =>
    match todo s with
    | [] => Err tt
    | x :: rest =>
      if 0 <? full q then Ok (set_producer (EStore x) rest (with_q (sems q (empty q) (full q - 1)) s)) else Err tt
    end
  | EStore x =>
    if negb (in_ring q (head q)) then Ub
    else
      let q := {| n := n q; head := head q + 1; tail := tail q; empty := empty q; full := full q;
                  elem := <[Z.to_nat (head q) := Some x]> (elem q) |} in
      Ok {| queue := q; producer := EWrap x; todo := todo s; consumer := consumer s; got := got s;
            stored := stored s ++ [x]; loaded := loaded s |}
  | EWrap x =>
    Ok (set_producer (EPost x) (todo s) (with_q (if n q <=? head q then indices q 0 (tail q) else q) s))
  | EPost x => Ok (set_producer EWait (todo s) (with_q (sems q (empty q + 1) (full q)) s))
  end.

Definition dequeue_step (s : threads) : res unit threads :=
  let q := queue s in
  match consumer s with
  | DWait => if 0 <? empty q then Ok (set_consumer DLoad (got s) (with_q (sems q (empty q - 1) (full q)) s)) else Err tt
  | DLoad =>
    if negb (in_ring q (tail q)) then Ub
    else
      match elem q !! Z.to_nat (tail q) with
      | Some (Some x) =>
        Ok {| queue := indices q (head q) (tail q + 1); producer := producer s; todo := todo s; consumer := DWrap x;
              got := got s; stored := stored s; loaded := loaded s ++ [x] |}
      | _ => Ub
      end
  | DWrap x =>
    Ok (set_consumer (DPost x) (got s) (with_q (if n q <=? tail q then indices q (head q) 0 else q) s))
  | DPost x => Ok (set_consumer DWait (got s ++ [x]) (with_q (sems q (empty q) (full q + 1)) s))
  end.

(** A step of the system. A [sem_wait] that a signal interrupts returns at once:
    the producer goes on without having enqueued its element, the consumer gets
    NULL. *)
Inductive pc_step : threads -> threads -> Prop :=
| step_enqueue s s' : enqueue_step s = Ok s' -> pc_step s s'
| step_dequeue s s' : dequeue_step s = Ok s' -> pc_step s s'
| step_enqueue_intr s x rest : producer s = EWait -> todo s = x :: rest -> pc_step s (set_producer EWait rest s)
| step_dequeue_intr s : consumer s = DWait -> pc_step s (set_consumer DWait (got s ++ [None]) s).

Definition start (q : producer_consumer_t) (xs : list ptr) : threads :=
  {| queue := q; producer := EWait; todo := xs; consumer := DWait; got := []; stored := []; loaded := [] |}.

(** ** The abstract queue: at most [n] elements, first in first out *)

Definition pending (s : threads) : list ptr := drop (length (loaded s)) (stored s).

Inductive fifo_step (cap : Z) : list ptr -> list ptr -> Prop :=
| fifo_enqueue l x : zlen l < cap -> fifo_step cap l (l ++ [x])
| fifo_dequeue l x : fifo_step cap (x :: l) l.

(** Slots the producer or the consumer holds between its wait and its post. *)
Definition storing (s : threads) : Z := match producer s with EStore _ => 1 | _ => 0 end.
Definition unposted (s : threads) : Z := match producer s with EWrap _ | EPost _ => 1 | _ => 0 end.
Definition loading (s : threads) : Z := match consumer s with DLoad => 1 | _ => 0 end.
Definition unreleased (s : threads) : Z := match consumer s with DWrap _ | DPost _ => 1 | _ => 0 end.

(** The invariant: what is in the ring and what the semaphores count. *)
Record ring_inv (cap : Z) (s : threads) : Prop := {
  r_n : n (queue s) = cap /\ zlen (elem (queue s)) = cap;
  r_prefix : stored s = loaded s ++ pending s;
  r_empty : empty (queue s) + loading s + unposted s = zlen (pending s);
  r_full : full (queue s) + storing s + unreleased s = cap - zlen (pending s);
  r_pos : 0 <= empty (queue s) /\ 0 <= full (queue s);
  r_head : match producer s with
           | EWrap _ => head (queue s) = (zlen (stored s) - 1) mod cap + 1
           | _ => head (queue s) = zlen (stored s) mod cap
           end;
  r_tail : match consumer s with
           | DWrap _ => 0 < zlen (loaded s) /\ tail (queue s) = (zlen (loaded s) - 1) mod cap + 1
           | _ => tail (queue s) = zlen (loaded s) mod cap
           end;
  r_slots : forall i x, pending s !! i = Some x ->
    elem (queue s) !! Z.to_nat ((zlen (loaded s) + Z.of_nat i) mod cap) = Some (Some x)
}.

Lemma storing_loading s : 0 <= storing s /\ 0 <= unposted s /\ 0 <= loading s /\ 0 <= unreleased s.
Proof. unfold storing, unposted, loading, unreleased. destruct (producer s), (consumer s); lia. Qed.

(** The index after an increment and the wrap-around. *)
Lemma wrap_index cap k : 0 < cap -> 0 <= k -> (if cap <=? k mod cap + 1 then 0 else k mod cap + 1) = (k + 1) mod cap.
Proof.
  intros Hc Hk. pose proof (Z.mod_pos_bound k cap Hc). destruct (Z.leb_spec cap (k mod cap + 1)).
  - rewrite <- (Zplus_mod_idemp_l k 1 cap). replace (k mod cap + 1) with cap by lia. rewrite Z.mod_same; lia.
  - rewrite <- (Zplus_mod_idemp_l k 1 cap), (Z.mod_small (k mod cap + 1)); lia.
Qed.

(** Positions of the ring closer than its size are distinct. *)
Lemma ring_distinct cap a i j : 0 <= i < cap -> 0 <= j < cap -> (a + i) mod cap = (a + j) mod cap -> i = j.
Proof.
  intros Hi Hj E. pose proof (Z.div_mod (a + i) cap ltac:(lia)). pose proof (Z.div_mod (a + j) cap ltac:(lia)).
  set (x := (a + i) / cap) in *. set (y := (a + j) / cap) in *. rewrite E in *.
  assert (x = y) by (destruct (Z.lt_trichotomy x y) as [|[|]]; [nia|done|nia]). nia.
Qed.

Lemma start_inv cap q xs : 0 < cap -> n q = cap -> zlen (elem q) = cap -> head q = 0 -> tail q = 0 ->
  empty q = 0 -> full q = cap -> ring_inv cap (start q xs).
Proof.
  destruct q as [qn qh qt qe qf el]. cbn [n elem head tail empty full]. intros Hc -> Hl -> -> -> ->.
  split; unfold start, pending, storing, unposted, loading, unreleased;
    cbn [queue producer consumer stored loaded n elem head tail empty full drop length app];
    change (zlen []) with 0; try done; lia.
Qed.

Ltac ring_fields :=
  cbn [queue producer consumer todo got stored loaded n head tail empty full elem
       set_producer set_consumer with_q sems indices] in *.

(** Steps that touch only the semaphores or an index. *)
Lemma pending_eq s s' : stored s' = stored s -> loaded s' = loaded s -> pending s' = pending s.
Proof. unfold pending. by intros -> ->. Qed.

Lemma stored_split s : stored s = loaded s ++ pending s -> zlen (stored s) = zlen (loaded s) + zlen (pending s).
Proof. intros ->. apply zlen_app. Qed.

(** The slots after the store at the position behind the pending elements. *)
Lemma slots_store cap ld pd (el : list (option ptr)) x : 0 < cap -> 0 <= ld -> zlen el = cap -> zlen pd < cap ->
  (forall i y, pd !! i = Some y -> el !! Z.to_nat ((ld + Z.of_nat i) mod cap) = Some (Some y)) ->
  forall i y, (pd ++ [x]) !! i = Some y ->
    <[Z.to_nat ((ld + zlen pd) mod cap) := Some x]> el !! Z.to_nat ((ld + Z.of_nat i) mod cap) = Some (Some y).
Proof.
  intros Hc Hld Hl Hp Hs i y Hi. pose proof (Z.mod_pos_bound (ld + zlen pd) cap Hc).
  pose proof (Z.mod_pos_bound (ld + Z.of_nat i) cap Hc).
  apply lookup_app_Some in Hi as [Hi|[Hi1 Hi2]].
  - pose proof (lookup_lt_Some _ _ _ Hi). rewrite list_lookup_insert_ne; [by apply Hs|].
    intros E. apply Z2Nat.inj in E; [|lia..]. apply ring_distinct in E; unfold zlen in *; lia.
  - apply list_lookup_singleton_Some in Hi2 as [Hi2 <-].
    replace (ld + Z.of_nat i) with (ld + zlen pd) by (unfold zlen; lia).
    apply list_lookup_insert_eq. unfold zlen in Hl. lia.
Qed.

Lemma in_ring_mod cap k (q : producer_consumer_t) : 0 < cap -> zlen (elem q) = cap -> in_ring q (k mod cap) = true.
Proof. intros Hc Hl. unfold in_ring. pose proof (Z.mod_pos_bound k cap Hc). lia. Qed.

(** A step of the producer keeps the invariant and enqueues at its store. *)
Lemma enqueue_inv cap s : 0 < cap -> ring_inv cap s ->
  match enqueue_step s with
  | Ok s' => ring_inv cap s' /\
      match producer s with
      | EStore x => fifo_step cap (pending s) (pending s') /\ pending s' = pending s ++ [x]
      | _ => pending s' = pending s
      end
  | Err _ => producer s = EWait /\ (todo s = [] \/ full (queue s) = 0)
  | _ => False
  end.
Proof.
  intros Hc [[Hn Hl] Hp He Hf [He0 Hf0] Hh Ht Hs]. unfold enqueue_step.
  pose proof (storing_loading s) as (B1 & B2 & B3 & B4). pose proof (stored_split s Hp) as Hsp.
  pose proof (zlen_nonneg (loaded s)). pose proof (zlen_nonneg (pending s)).
  destruct s as [[qn qh qt qe qf el] pr td co gt st ld]. ring_fields. subst qn.
  destruct pr as [|x|x|x].
  - destruct td as [|x td]; [by split; [|left]|].
    destruct (Z.ltb_spec 0 qf); [|split; [done|right; lia]].
    split; [|done]. unfold pending, storing, unposted, loading, unreleased in *. ring_fields.
    split; ring_fields; unfold pending, storing, unposted, loading, unreleased; ring_fields; done || lia.
  - assert (Ein := in_ring_mod cap (zlen st) {| n := cap; head := qh; tail := qt; empty := qe; full := qf; elem := el |} Hc Hl).
    rewrite <- Hh in Ein. rewrite Ein. cbn [negb]. unfold storing, unposted, loading, unreleased in *. ring_fields.
    assert (Hlt : zlen (pending {| queue := {| n := cap; head := qh; tail := qt; empty := qe; full := qf; elem := el |};
        producer := EStore x; todo := td; consumer := co; got := gt; stored := st; loaded := ld |}) < cap)
      by (destruct co; lia).
    unfold pending in *. ring_fields. set (pd := drop (length ld) st) in *.
    assert (Epd : drop (length ld) (st ++ [x]) = pd ++ [x]).
    { rewrite Hp, <- app_assoc, drop_app_length. done. }
    split; [|rewrite Epd; split; [by constructor|done]].
    split; ring_fields; unfold pending, storing, unposted, loading, unreleased; ring_fields; rewrite ?Epd; rewrite ?zlen_app;
      change (zlen [x]) with 1.
    + split; [done|]. unfold zlen in *. by rewrite length_insert.
    + by rewrite Hp, <- app_assoc.
    + lia.
    + lia.
    + lia.
    + rewrite Hh. do 2 f_equal. lia.
    + done.
    + rewrite Hh, Hsp. by apply slots_store.
  - unfold pending, storing, unposted, loading, unreleased in *. ring_fields. split; [|by destruct (cap <=? qh)].
    pose proof (wrap_index cap (zlen st - 1) Hc ltac:(destruct co; lia)) as W.
    rewrite <- Hh, Z.sub_add in W.
    split; destruct (cap <=? qh) eqn:Eq; ring_fields; unfold pending, storing, unposted, loading, unreleased; ring_fields;
      done || lia.
  - unfold pending, storing, unposted, loading, unreleased in *. ring_fields. split; [|done].
    split; ring_fields; unfold pending, storing, unposted, loading, unreleased; ring_fields; done || lia.
Qed.

(** A step of the consumer keeps it and dequeues at its load. *)
Lemma dequeue_inv cap s : 0 < cap -> ring_inv cap s ->
  match dequeue_step s with
  | Ok s' => ring_inv cap s' /\
      match consumer s with
      | DLoad => fifo_step cap (pending s) (pending s')
      | _ => pending s' = pending s
      end
  | Err _ => consumer s = DWait /\ empty (queue s) = 0
  | _ => False
  end.
Proof.
  intros Hc [[Hn Hl] Hp He Hf [He0 Hf0] Hh Ht Hs]. unfold dequeue_step.
  pose proof (storing_loading s) as (B1 & B2 & B3 & B4). pose proof (stored_split s Hp) as Hsp.
  pose proof (zlen_nonneg (loaded s)). pose proof (zlen_nonneg (pending s)).
  destruct s as [[qn qh qt qe qf el] pr td co gt st ld]. ring_fields. subst qn.
  destruct co as [| |x|x].
  - destruct (Z.ltb_spec 0 qe); [|split; [done|lia]].
    split; [|done]. unfold pending, storing, unposted, loading, unreleased in *. ring_fields.
    split; ring_fields; unfold pending, storing, unposted, loading, unreleased; ring_fields; done || lia.
  - assert (Ein := in_ring_mod cap (zlen ld) {| n := cap; head := qh; tail := qt; empty := qe; full := qf; elem := el |} Hc Hl).
    rewrite <- Ht in Ein. rewrite Ein. cbn [negb]. unfold storing, unposted, loading, unreleased, pending in *. ring_fields.
    set (pd := drop (length ld) st) in *.
    destruct pd as [|x pd'] eqn:Epd; [change (zlen []) with 0 in *; destruct pr; lia|].
    pose proof (Hs 0%nat x eq_refl) as Hx. rewrite Z.add_0_r, <- Ht in Hx. rewrite Hx. rewrite zlen_cons in *.
    assert (Ep : drop (length (ld ++ [x])) st = pd').
    { rewrite Hp, length_app, <- drop_drop, drop_app_length. done. }
    unfold pending. ring_fields. split; [|rewrite Ep; constructor].
    split; ring_fields; unfold pending, storing, unposted, loading, unreleased; ring_fields; rewrite ?Ep; rewrite ?zlen_app;
      change (zlen [x]) with 1.
    + done.
    + by rewrite Hp, <- app_assoc.
    + lia.
    + lia.
    + lia.
    + done.
    + split; [lia|]. rewrite Ht. do 2 f_equal. lia.
    + intros i y Hi. replace (zlen ld + 1 + Z.of_nat i) with (zlen ld + Z.of_nat (S i)) by lia. by apply Hs.
  - unfold pending, storing, unposted, loading, unreleased in *. ring_fields. split; [|by destruct (cap <=? qt)].
    destruct Ht as [Hld Ht]. pose proof (wrap_index cap (zlen ld - 1) Hc ltac:(lia)) as W.
    rewrite <- Ht, Z.sub_add in W.
    split; destruct (cap <=? qt) eqn:Eq; ring_fields; unfold pending, storing, unposted, loading, unreleased; ring_fields;
      done || lia.
  - unfold pending, storing, unposted, loading, unreleased in *. ring_fields. split; [|done].
    split; ring_fields; unfold pending, storing, unposted, loading, unreleased; ring_fields; done || lia.
Qed.

Lemma step_inv cap s s' : 0 < cap -> ring_inv cap s -> pc_step s s' ->
  ring_inv cap s' /\ (pending s' = pending s \/ fifo_step cap (pending s) (pending s')).
Proof.
  intros Hc Hi Hst. inversion Hst as [s0 s1 E|s0 s1 E|s0 x rest Ep Et|s0 Ed]; subst.
  - pose proof (enqueue_inv cap s Hc Hi) as H. rewrite E in H. destruct H as [H1 H2].
    split; [done|]. destruct (producer s); [by left|right; apply H2|by left|by left].
  - pose proof (dequeue_inv cap s Hc Hi) as H. rewrite E in H. destruct H as [H1 H2].
    split; [done|]. destruct (consumer s); [by left|by right|by left|by left].
  - split; [|by left]. destruct Hi as [H1 H2 H3 H4 H5 H6 H7 H8].
    unfold storing, unposted in *. rewrite Ep in *. by split.
  - split; [|by left]. destruct Hi as [H1 H2 H3 H4 H5 H6 H7 H8].
    unfold loading, unreleased in *. rewrite Ed in *. by split.
Qed.

Lemma new_inv malloc sz cap q xs : 0 < cap -> producer_consumer_new malloc (None, None) sz cap = Some q ->
  ring_inv cap (start q xs).
Proof.
  intros Hc E. unfold producer_consumer_new, producer_consumer_init in E. destruct (negb (malloc _)); [done|].
  injection E as <-. apply start_inv; try done. cbn [elem]. unfold zlen. rewrite length_replicate. lia.
Qed.

Lemma reach_inv cap s s' : 0 < cap -> ring_inv cap s -> rtc pc_step s s' -> ring_inv cap s'.
Proof. intros Hc Hi. induction 1 as [|s s1 s2 Hst _ IH]; [done|]. apply IH. by eapply step_inv. Qed.

(** ** Runs without interruptions *)

Inductive run_step : threads -> threads -> Prop :=
| run_enqueue s s' : enqueue_step s = Ok s' -> run_step s s'
| run_dequeue s s' : dequeue_step s = Ok s' -> run_step s s'.

(** The element the producer has taken and not stored, the one the consumer has
    loaded and not returned. *)
Definition in_hand (s : threads) : list ptr := match producer s with EStore x => [x] | _ => [] end.
Definition in_flight (s : threads) : list ptr := match consumer s with DWrap x | DPost x => [x] | _ => [] end.

Record handover (xs : list ptr) (s : threads) : Prop := {
  w_sent : stored s ++ in_hand s ++ todo s = xs;
  w_got : loaded s = got s ++ in_flight s
}.

(** The steps that are left, of 4 for each element in each thread. *)
Definition left (xs : list ptr) (s : threads) : Z :=
  4 * zlen (todo s) + match producer s with EWait => 0 | EStore _ => 3 | EWrap _ => 2 | EPost _ => 1 end +
  (4 * (zlen xs - zlen (got s)) - match consumer s with DWait => 0 | DLoad => 1 | DWrap _ => 2 | DPost _ => 3 end).

Lemma run_handover xs s s' : handover xs s -> run_step s s' -> handover xs s' /\ left xs s' = left xs s - 1.
Proof.
  intros [H1 H2] Hst. inversion Hst as [s0 s1 E|s0 s1 E]; subst; clear Hst;
    destruct s as [q pr td co gt st ld]; unfold in_hand, in_flight, left in *; ring_fields.
  - unfold enqueue_step in E. ring_fields. destruct pr as [|x|x|x].
    + destruct td as [|x td]; [done|]. destruct (0 <? full q); [|done]. injection E as <-. ring_fields.
      split; [by split|]. rewrite zlen_cons. lia.
    + destruct (negb _); [done|]. injection E as <-. ring_fields. split; [split; ring_fields|lia]; [|done].
      unfold in_hand. ring_fields. by rewrite <- app_assoc.
    + injection E as <-. ring_fields. split; [by split|lia].
    + injection E as <-. ring_fields. split; [by split|lia].
  - unfold dequeue_step in E. ring_fields. destruct co as [| |x|x].
    + destruct (0 <? empty q); [|done]. injection E as <-. ring_fields. split; [by split|lia].
    + destruct (negb _); [done|]. destruct (elem q !! _) as [[x|]|]; try done. injection E as <-. ring_fields.
      split; [split; ring_fields; [done|]|lia]. unfold in_flight. ring_fields. rewrite app_nil_r in H2. by rewrite H2.
    + injection E as <-. ring_fields. split; [by split|lia].
    + injection E as <-. ring_fields. split; [split; ring_fields; [done|]|rewrite (zlen_app gt [x]); change (zlen [x]) with 1; lia].
      unfold in_flight. ring_fields. by rewrite app_nil_r.
Qed.

Lemma runs_handover xs k s s' : handover xs s -> nsteps run_step k s s' ->
  handover xs s' /\ left xs s' = left xs s - Z.of_nat k.
Proof.
  intros Hh Hr. revert Hh. induction Hr as [s|k s s1 s2 Hst _ IH]; intros Hh; [split; [done|lia]|].
  destruct (run_handover xs s s1 Hh Hst) as [H1 H2]. destruct (IH H1) as [H3 H4]. split; [done|lia].
Qed.

Lemma run_is_step s s' : run_step s s' -> pc_step s s'.
Proof. destruct 1; [by apply step_enqueue|by apply step_dequeue]. Qed.

Lemma runs_reach k s s' : nsteps run_step k s s' -> rtc pc_step s s'.
Proof. induction 1; [done|]. eapply rtc_l; [by apply run_is_step|done]. Qed.

(** What the consumer has is a prefix of what was sent, and the steps left are not
    negative. *)
Lemma handover_prefix cap xs s : ring_inv cap s -> handover xs s -> exists rest, xs = got s ++ in_flight s ++ pending s ++ rest.
Proof. intros Hi [H1 H2]. rewrite <- H1, (r_prefix _ _ Hi), H2, <- !app_assoc. by eexists. Qed.

Lemma left_nonneg cap xs s : ring_inv cap s -> handover xs s -> 0 <= left xs s.
Proof.
  intros Hi Hh. destruct (handover_prefix _ _ _ Hi Hh) as [rest E]. apply (f_equal zlen) in E. rewrite !zlen_app in E.
  pose proof (r_empty _ _ Hi) as He. pose proof (r_pos _ _ Hi) as Hp. pose proof (zlen_nonneg rest). pose proof (zlen_nonneg (todo s)).
  pose proof (zlen_nonneg (pending s)). unfold left, in_flight, loading, unposted in *. change (zlen (@nil (option A))) with 0 in *.
  destruct (producer s), (consumer s); rewrite ?zlen_cons in *; change (zlen (@nil (option A))) with 0 in *; lia.
Qed.

(** No thread is blocked for good before everything is handed over. *)
Lemma stuck_done cap xs s : 0 < cap -> ring_inv cap s -> handover xs s -> ~ (exists s', run_step s s') -> got s = xs.
Proof.
  intros Hc Hi [H1 H2] Hstuck. pose proof (enqueue_inv cap s Hc Hi) as Hq. pose proof (dequeue_inv cap s Hc Hi) as Hd.
  destruct (enqueue_step s) as [s1|[]| |] eqn:E1; [by destruct Hstuck; exists s1; constructor| |done|done].
  destruct (dequeue_step s) as [s1|[]| |] eqn:E2; [by destruct Hstuck; exists s1; apply run_dequeue| |done|done].
  destruct Hi as [_ Hp He Hf _ _ _ _], Hq as [Ep Ht], Hd as [Ec Ee].
  unfold storing, unposted, loading, unreleased, in_hand, in_flight in *. rewrite Ep, Ec in *. cbn [app] in H1.
  pose proof (zlen_nonneg (pending s)). assert (Hz : zlen (pending s) = 0) by lia.
  destruct Ht as [Ht|Ht]; [|lia]. rewrite Ht, app_nil_r in H1. rewrite app_nil_r in H2.
  destruct (pending s) eqn:Epd; [|rewrite zlen_cons in Hz; pose proof (zlen_nonneg l); lia].
  rewrite app_nil_r in Hp. by rewrite <- H2, <- Hp.
Qed.
End pcqueue.

(** C11. The ring refines a queue of at most [n] elements, first in first out,
    under every interleaving of the two threads, interrupted waits included: a
    step either leaves the abstract queue alone, or is an enqueue of the element
    stored, or a dequeue of the oldest one; what is loaded is a prefix of what
    was stored; no access leaves the ring or reads a slot that was not written. *)
Theorem pc_refines {A} malloc sz cap (q : producer_consumer_t (A := A)) xs s (Hcap : 0 < cap)
    (Hnew : producer_consumer_new malloc (None, None) sz cap = Some q)
    (Hreach : rtc pc_step (start q xs) s) :
  (forall s', pc_step s s' -> pending s' = pending s \/ fifo_step cap (pending s) (pending s')) /\
  stored s = loaded s ++ pending s /\ zlen (pending s) <= cap /\
  enqueue_step s <> Ub /\ dequeue_step s <> Ub.
Proof.
  pose proof (reach_inv cap _ s Hcap (new_inv malloc sz cap q xs Hcap Hnew) Hreach) as Hi. split_and!.
  - intros s' Hst. by apply (step_inv cap s s' Hcap Hi Hst).
  - apply (r_prefix _ _ Hi).
  - pose proof (r_full _ _ Hi). pose proof (r_pos _ _ Hi). pose proof (storing_loading s). lia.
  - intros E. pose proof (enqueue_inv cap s Hcap Hi) as H. by rewrite E in H.
  - intros E. pose proof (dequeue_inv cap s Hcap Hi) as H. by rewrite E in H.
Qed.

(** C21. Hand-over: when no wait is interrupted, every run of the two threads over
    a list of [k] pointers ends after at most [8 k] steps, whatever the order in
    which they are scheduled; at any time the consumer has received a prefix of
    the list, and when neither thread can go on it has received all of it. *)
Theorem pc_handover {A} malloc sz cap (q : producer_consumer_t (A := A)) xs k s (Hcap : 0 < cap)
    (Hnew : producer_consumer_new malloc (None, None) sz cap = Some q)
    (Hrun : nsteps run_step k (start q xs) s) :
  Z.of_nat k <= 8 * zlen xs /\
  (exists rest, xs = got s ++ rest) /\
  (~ (exists s', run_step s s') -> got s = xs).
Proof.
  pose proof (reach_inv cap _ s Hcap (new_inv malloc sz cap q xs Hcap Hnew) (runs_reach _ _ _ Hrun)) as Hi.
  assert (Hs : handover xs (start q xs)) by (by split).
  destruct (runs_handover xs k _ s Hs Hrun) as [Hh Hleft].
  assert (Hpre : exists rest, xs = got s ++ rest).
  { destruct Hh as [H1 H2]. rewrite <- H1, (r_prefix _ _ Hi), H2, <- !app_assoc. by eexists. }
  split_and!; [|done|by apply (stuck_done cap)].
  pose proof (left_nonneg cap xs s Hi Hh) as H0.
  assert (El : left xs (start q xs) = 8 * zlen xs).
  { unfold left, start. cbn [todo producer got consumer]. change (zlen (@nil (option A))) with 0. lia. }
  lia.
Qed.
