(* ===== verification/ElfFile.v ===== *)
(** * ELF files (tools/elf-extra.c, and the lookups of tools/packer.c,
    tools/post.c and tools/livepatchable.c)

    libelf is a parameter: a class [Libelf] of its operations. [wf_elf e l] is
    what libelf promises for a valid file [e] whose sections are [l]. The state of
    the monad is the ELF object. *)

From stdpp Require Import list.
From S2P Require Import Prelude Errors Metadata PatchId.

Open Scope ulp_scope.

(** ** elf.h and libelf *)

Record Elf64_Shdr := { sh_name : Z; sh_type : Z; sh_addr : Z; sh_size : Z; sh_link : Z; sh_entsize : Z }.
Record Elf64_Sym := { st_name : Z; st_info : Z; st_other : Z; st_shndx : Z; st_value : Z; st_size : Z }.

Definition SHT_SYMTAB : Z := 2.
Definition SHT_DYNSYM : Z := 11.

Class Libelf := {
  elf : Type;
  scn : Type;
  elf_getshdrnum : elf -> option Z;
  elf_getscn : elf -> Z -> option scn;
  elf_nextscn : elf -> option scn -> option scn;
  (** [gelf_getshdr] and [elf64_getshdr]. *)
  elf_getshdr : elf -> scn -> option Elf64_Shdr;
  elf_getshdrstrndx : elf -> option Z;
  elf_strptr : elf -> Z -> Z -> option bytes;
  (** The bytes of [elf_getdata (s, NULL)->d_buf]. *)
  elf_getdata : elf -> scn -> option bytes;
  gelf_getsym : bytes -> Z -> option Elf64_Sym;
  gelf_getnote : bytes -> Z -> option note;
  (** A byte stored through [d_buf]. *)
  d_store : elf -> scn -> Z -> Z -> elf;
  (** [elf_flagdata] and [elf_flagscn] with [ELF_F_DIRTY]. *)
  elf_flag_dirty : elf -> scn -> elf;
  (** [elf_update]: the file it writes. *)
  elf_update : elf -> option bytes }.

Section lookups.
Context `{Libelf}.

Abbreviation elf_m A := (st elf Z A).

(** A result that the code uses without looking at it; null pointers and
    variables that were not set are undefined behaviour. *)
Definition need {A} (f : elf -> option A) : elf_m A := fun e =>
  match f e with
  | Some a => (Ok a, e)
  | None => (Ub, e)
  end.

Fixpoint scan_names (name : bytes) (n : nat) (i : Z) : elf_m (option scn) :=
  match n with
  | O => ret None
  | S n =>
    let! s := gets (fun e => elf_getscn e i) in
    match s with
    | None => ret None
    | Some s =>
      let! sh := need (fun e => elf_getshdr e s) in
      let! shstrndx := need elf_getshdrstrndx in
      let! sec_name := need (fun e => elf_strptr e shstrndx (sh_name sh)) in
      if byte_eqb sec_name name then ret (Some s) else scan_names name n (i + 1)
    end
  end.

Definition get_elfscn_by_name (name : bytes) : elf_m (option scn) :=
  let! nsecs := gets elf_getshdrnum in
  match nsecs with
  | None => ret None
  | Some nsecs => scan_names name (Z.to_nat nsecs) 0
  end.

Fixpoint scan_types (sht_type : Z) (n : nat) (i : Z) : elf_m (option scn) :=
  match n with
  | O => ret None
  | S n =>
    let! s := gets (fun e => elf_getscn e i) in
    match s with
    | None => ret None
    | Some s =>
      let! sh := need (fun e => elf_getshdr e s) in
      if sh_type sh =? sht_type then ret (Some s) else scan_types sht_type n (i + 1)
    end
  end.

Definition get_elf_section (sht_type : Z) : elf_m (option scn) :=
  let! nsecs := gets elf_getshdrnum in
  match nsecs with
  | None => ret None
  | Some nsecs => scan_types sht_type (Z.to_nat nsecs) 0
  end.

(** tools/packer.c *)
Definition get_dynsym : elf_m (option scn) := get_elf_section SHT_DYNSYM.
Definition get_symtab : elf_m (option scn) := get_elf_section SHT_SYMTAB.
Definition get_build_id_note : elf_m (option scn) := get_elfscn_by_name (str ".note.gnu.build-id").

(** The build id, [None] when the assertion on its length stops the program.
    [room] is the size of the buffer. *)
Definition get_elf_buildid (fuel : nat) (room : Z) : elf_m (option (bytes * Z)) :=
  let! s := get_build_id_note in
  match s with
  | None => throw ENOENT
  | Some s =>
    fun e =>
      (match get_build_id (elf_getdata e s) (fun o => d ← elf_getdata e s; gelf_getnote d o) fuel room with
       | Ok (id, len) => Ok (if len =? BUILDID_LEN then Some (id, len) else None)
       | Err _ => Err ENOENT
       | Ub => Ub | NoFuel => NoFuel
       end, e)
  end.

(** tools/post.c. An error is the status the program exits with. *)
Fixpoint next_named (name : bytes) (string_table : Z) (fuel : nat) (section : option scn) : elf_m (option scn) :=
  match fuel with
  | O => nofuel
  | S fuel =>
    let! s := gets (fun e => elf_nextscn e section) in
    match s with
    | None => ret None
    | Some s =>
      let! shdr := need (fun e => elf_getshdr e s) in
      let! str := need (fun e => elf_strptr e string_table (sh_name shdr)) in
      if byte_eqb name str then ret (Some s) else next_named name string_table fuel (Some s)
    end
  end.

Definition find_section_by_name (fuel : nat) (name : bytes) : elf_m (option scn) :=
  let! string_table := gets elf_getshdrstrndx in
  match string_table with
  | None => throw 1
  | Some string_table => next_named name string_table fuel None
  end.

Definition patchable_entries : bytes := str "__patchable_function_entries".

(** tools/livepatchable.c: [elf] is what [open] and [elf_begin] give. *)
Definition run_livepatchable (fuel : nat) (elf : option elf) : res Z Z :=
  match elf with
  | None => Err 1
  | Some e =>
    fst ((let! scn := find_section_by_name fuel patchable_entries in
          ret (if scn is Some _ then 0 else 1)) e)
  end.

(** ** Embedding a section *)

Definition objcopy_path : bytes := str "/usr/bin/objcopy".

(** The code, and the arguments [objcopy] is run with. [access] tells whether
    [objcopy] exists, [elf] is the result of [load_elf], and [status] what
    [objcopy] exits with. The code takes the exit status of [ret], which is 0, for
    that of the child. *)
Definition embed_patch_metadata_into_elf (access : bool) (elf : option elf)
    (elf_path metadata section_name : bytes) (status : Z) : res Z (Z * option (list bytes)) :=
  if negb access then Ok (ENOENT, None)
  else
    match elf with
    | None => Ok (EINVAL, None)
    | Some e =>
      match get_elfscn_by_name section_name e with
      | (Ok s, _) =>
        let ulp_eq_filename := section_name ++ [61] ++ metadata in
        if 120 <=? zlen ulp_eq_filename then Ok (EOVERFLOW, None)
        else
          let ret := 0 in
          let WEXITSTATUS x := x / 256 mod 256 in
          Ok (WEXITSTATUS ret,
              Some [objcopy_path; str (if s is Some _ then "--update-section" else "--add-section");
                    ulp_eq_filename; elf_path; elf_path])
      | (Err e, _) => Err e
      | (Ub, _) => Ub
      | (NoFuel, _) => NoFuel
      end
    end.

(** ** What libelf promises for a valid file *)

(** A section, its name and its header. *)
Record sect := { handle : scn; s_name : bytes; hdr : Elf64_Shdr }.

Record wf_elf (e : elf) (l : list sect) : Prop := {
  wf_num : elf_getshdrnum e = Some (zlen l);
  wf_scn : forall i, 0 <= i -> elf_getscn e i = handle <$> l !! Z.to_nat i;
  wf_first : elf_nextscn e None = handle <$> l !! 1%nat;
  wf_next : forall i x, l !! i = Some x -> elf_nextscn e (Some (handle x)) = handle <$> l !! S i;
  wf_hdr : forall x, x ∈ l -> elf_getshdr e (handle x) = Some (hdr x);
  wf_names : exists ndx, elf_getshdrstrndx e = Some ndx /\ 0 <= ndx /\
    forall x, x ∈ l -> elf_strptr e ndx (sh_name (hdr x)) = Some (s_name x) }.

Definition named (name : bytes) (x : sect) : bool := byte_eqb (s_name x) name.
Definition typed (t : Z) (x : sect) : bool := sh_type (hdr x) =? t.

Lemma need_ok {A} (f : elf -> option A) e a : f e = Some a -> need f e = (Ok a, e).
Proof. unfold need. by intros ->. Qed.

Section valid.
Variables (e : elf) (l : list sect).
Hypothesis Hwf : wf_elf e l.

Lemma in_drop_hd i x rest : drop i l = x :: rest -> x ∈ l /\ l !! i = Some x /\ drop (S i) l = rest.
Proof.
  intros E. assert (Hx : l !! i = Some x) by (by rewrite <- (Nat.add_0_r i), <- lookup_drop, E).
  split_and!; [by eapply list_elem_of_lookup_2|done|].
  by rewrite (drop_S _ _ _ Hx) in E; injection E.
Qed.

Lemma drop_next i x rest : 0 <= i -> drop (Z.to_nat i) l = x :: rest ->
  x ∈ l /\ elf_getscn e i = Some (handle x) /\ drop (Z.to_nat (i + 1)) l = rest.
Proof.
  intros Hi E. apply in_drop_hd in E as (Hin & Hx & E). split_and!; [done| |].
  - by rewrite (wf_scn _ _ Hwf), Hx by done.
  - by replace (Z.to_nat (i + 1)) with (S (Z.to_nat i)) by lia.
Qed.

Lemma scan_names_spec name k i : 0 <= i -> drop (Z.to_nat i) l = k ->
  scan_names name (length k) i e = (Ok (handle <$> find (named name) k), e).
Proof.
  destruct (wf_names _ _ Hwf) as (ndx & Hndx & _ & Hstr). revert i.
  induction k as [|x k IH]; intros i Hi E; [done|].
  destruct (drop_next _ _ _ Hi E) as (Hin & Hx & Hk). cbn [length scan_names find].
  unfold bind at 1, gets. rewrite Hx.
  step_bind (need_ok (fun e => elf_getshdr e (handle x)) _ _ (wf_hdr _ _ Hwf x Hin)). step_bind (need_ok _ _ _ Hndx).
  step_bind (need_ok (fun e => elf_strptr e ndx (sh_name (hdr x))) _ _ (Hstr x Hin)).
  unfold named at 1. destruct (byte_eqb (s_name x) name); [done|]. apply IH; [lia|done].
Qed.

Lemma scan_types_spec t k i : 0 <= i -> drop (Z.to_nat i) l = k ->
  scan_types t (length k) i e = (Ok (handle <$> find (typed t) k), e).
Proof.
  revert i. induction k as [|x k IH]; intros i Hi E; [done|].
  destruct (drop_next _ _ _ Hi E) as (Hin & Hx & Hk). cbn [length scan_types find].
  unfold bind at 1, gets. rewrite Hx.
  step_bind (need_ok (fun e => elf_getshdr e (handle x)) _ _ (wf_hdr _ _ Hwf x Hin)).
  unfold typed at 1. destruct (sh_type (hdr x) =? t); [done|]. apply IH; [lia|done].
Qed.

(** The first section of a name, and of a type. *)
Lemma get_elfscn_by_name_spec name : get_elfscn_by_name name e = (Ok (handle <$> find (named name) l), e).
Proof.
  unfold get_elfscn_by_name. unfold bind, gets. rewrite (wf_num _ _ Hwf), zlen_nat.
  by apply scan_names_spec.
Qed.

Lemma get_elf_section_spec t : get_elf_section t e = (Ok (handle <$> find (typed t) l), e).
Proof.
  unfold get_elf_section. unfold bind, gets. rewrite (wf_num _ _ Hwf), zlen_nat.
  by apply scan_types_spec.
Qed.

Lemma next_named_spec name ndx k i s fuel : elf_getshdrstrndx e = Some ndx ->
  (forall x, x ∈ l -> elf_strptr e ndx (sh_name (hdr x)) = Some (s_name x)) ->
  drop i l = k -> (length k < fuel)%nat -> elf_nextscn e s = handle <$> l !! i ->
  next_named name ndx fuel s e = (Ok (handle <$> find (named name) k), e).
Proof.
  intros Hndx Hstr. revert i s fuel. induction k as [|x k IH]; intros i s fuel E Hf Hs; (destruct fuel as [|fuel]; [simpl in Hf; lia|]);
    cbn [next_named find]; unfold bind at 1, gets; rewrite Hs.
  - by rewrite (lookup_ge_None_2 l i) by (pose proof (length_drop l i); rewrite E in *; simpl in *; lia).
  - destruct (in_drop_hd _ _ _ E) as (Hin & Hx & Hk). rewrite Hx. cbn [fmap option_fmap option_map].
    step_bind (need_ok (fun e => elf_getshdr e (handle x)) _ _ (wf_hdr _ _ Hwf x Hin)).
    step_bind (need_ok (fun e => elf_strptr e ndx (sh_name (hdr x))) _ _ (Hstr x Hin)).
    assert (En : named name x = byte_eqb name (s_name x)).
    { unfold named, byte_eqb. by apply bool_decide_ext; split. }
    rewrite <- En. destruct (named name x); [done|].
    apply (IH (S i)); [done|simpl in Hf; lia|by apply wf_next].
Qed.

(** The iteration with [elf_nextscn] starts behind the section of index 0. *)
Lemma find_section_by_name_spec name fuel : (length l <= fuel)%nat -> l <> [] ->
  find_section_by_name fuel name e = (Ok (handle <$> find (named name) (tail l)), e).
Proof.
  intros Hf Hne. destruct (wf_names _ _ Hwf) as (ndx & Hndx & _ & Hstr). unfold find_section_by_name.
  unfold bind, gets. rewrite Hndx.
  apply (next_named_spec name ndx _ 1); [done|done|by destruct l| |by apply wf_first].
  destruct l; [done|]. simpl in *. lia.
Qed.
End valid.

(** The exit status of [objcopy] is lost: the section counts as embedded also
    when [objcopy] failed. *)
Lemma embed_ignores_objcopy access elf elf_path metadata section_name status code argv :
  embed_patch_metadata_into_elf access elf elf_path metadata section_name status = Ok (code, Some argv) ->
  code = 0 /\ forall status',
  embed_patch_metadata_into_elf access elf elf_path metadata section_name status' = Ok (code, Some argv).
Proof.
  unfold embed_patch_metadata_into_elf. destruct (negb access); [done|]. destruct elf as [e|]; [|done].
  destruct (get_elfscn_by_name section_name e) as [[s| | |] e']; try done.
  destruct (120 <=? _); [done|]. by intros [= <- <-].
Qed.
End lookups.
