(* ===== verification/Extract.v ===== *)
(** * What is known about a library (tools/extract.c)

    [struct ulp_so_info] is collected from the ELF file of a library, or read
    from the JSON file that [ulp extract] made of it. json-c is a parameter, a
    class [Json] of its operations; [JsonLaws] is what it documents. *)

From stdpp Require Import list.
From S2P Require Import Prelude Errors Metadata PatchId ElfFile.

Open Scope ulp_scope.

Record symbol := { sym_name : bytes; sym_offset : Z; sym_size : Z; sym_info : Z; sym_other : Z }.
Record ulp_so_info := { so_name : option bytes; so_buildid : bytes; symbols : list symbol }.

Fixpoint get_symbol_in (symbols : list symbol) (sym : bytes) : option symbol :=
  match symbols with
  | [] => None
  | s :: rest => if byte_eqb (sym_name s) sym then Some s else get_symbol_in rest sym
  end.

Definition get_symbol_with_name (info : ulp_so_info) (sym : bytes) : option symbol :=
  get_symbol_in (symbols info) sym.

(** ** Build ids as strings *)

(** common/common.c *)
Definition buildid_to_string (build_id : bytes) : bytes := concat (map (hex_str 2) build_id).

(** The value [sscanf (s, "%02x", &val)] stores, if it stores one: spaces are
    skipped, and of the next two characters a sign, a prefix [0x] and digits are
    read. *)
Definition scan_hex2 (s : bytes) : option Z :=
  match skip_spaces s with
  | [] => None
  | c :: r =>
    if (c =? 43) || (c =? 45) then
      match r with
      | d :: _ => v ← hex_digit d; Some (if c =? 45 then u32 (- v) else v)
      | [] => None
      end
    else
      v ← hex_digit c;
      match r with
      | d :: _ =>
        if (c =? 48) && ((d =? 120) || (d =? 88)) then None
        else Some (match hex_digit d with Some w => 16 * v + w | None => v end)
      | [] => Some v
      end
  end.

(** The [n] bytes from index [i] on. [str[2 * i]] may lie behind the terminator of
    the string, and [val] may have no value. *)
Fixpoint scan_bytes (str : bytes) (n i : nat) : res Z bytes :=
  match n with
  | O => Ok []
  | S n =>
    if (length str <? 2 * i)%nat then Ub
    else
      try val := deref (scan_hex2 (drop (2 * i) str)) in
      try rest := scan_bytes str n (S i) in
      Ok (u8 val :: rest)
  end.

Definition str_to_buildid (str : bytes) : res Z bytes :=
  if zlen str <? BUILDID_LEN then Err EINVAL else scan_bytes str (Z.to_nat BUILDID_LEN) 0.

(** ** JSON *)

Class Json := {
  json : Type;
  json_object_new_object : json;
  json_object_object_add : json -> string -> json -> json;
  json_object_new_string : bytes -> json;
  json_object_new_int : Z -> json;
  json_object_new_array : json;
  json_object_array_add : json -> json -> json;
  json_object_object_get : json -> string -> option json;
  json_object_get_string : option json -> option bytes;
  json_object_get_int : option json -> Z;
  (** The elements of an array. *)
  json_object_get_array : option json -> option (list json);
  json_object_to_json_string : json -> bytes;
  json_tokener_parse : bytes -> option json }.

Section writer.
Context `{Json}.

(** The argument of [JINT] is an [int32_t]. *)
Definition JINT (x : Z) : json := json_object_new_int (s32 x).

Definition get_json_symbol (s : symbol) : json :=
  let js := json_object_new_object in
  let js := json_object_object_add js "name" (json_object_new_string (sym_name s)) in
  let js := json_object_object_add js "offset" (JINT (sym_offset s)) in
  let js := json_object_object_add js "size" (JINT (sym_size s)) in
  let js := json_object_object_add js "st_info" (JINT (sym_info s)) in
  json_object_object_add js "st_other" (JINT (sym_other s)).

Definition json_of_info (name : bytes) (info : ulp_so_info) : json :=
  let library := json_object_new_object in
  let library := json_object_object_add library "name" (json_object_new_string name) in
  let library := json_object_object_add library "buildid" (json_object_new_string (buildid_to_string (so_buildid info))) in
  let symbols := foldl (fun a s => json_object_array_add a (get_json_symbol s)) json_object_new_array (symbols info) in
  let library := json_object_object_add library "symbols" symbols in
  json_object_object_add json_object_new_object "library" library.

(** What is written to the stream. *)
Definition write_ulp_so_info_json (info : ulp_so_info) : res Z bytes :=
  try name := deref (so_name info) in
  Ok (json_object_to_json_string (json_of_info name info)).

(** ** Reading JSON *)

Definition parse_symbol_json (obj : json) : res Z symbol :=
  let jname := json_object_object_get obj "name" in
  let joffset := json_object_object_get obj "offset" in
  let jsize := json_object_object_get obj "size" in
  let jst_info := json_object_object_get obj "st_info" in
  let jst_other := json_object_object_get obj "st_other" in
  try name := deref (json_object_get_string jname) in
  Ok {| sym_name := name; sym_offset := u64 (json_object_get_int joffset);
        sym_size := u32 (u64 (json_object_get_int jsize));
        sym_info := u8 (json_object_get_int jst_info); sym_other := u8 (json_object_get_int jst_other) |}.

Fixpoint parse_symbol_list (l : list json) : res Z (list symbol) :=
  match l with
  | [] => Ok []
  | obj :: l =>
    try s := parse_symbol_json obj in
    try rest := parse_symbol_list l in
    Ok (s :: rest)
  end.

(** [json_object_array_length] asserts that its argument is an array. *)
Definition parse_symbols_json (symbol_array : option json) : res Z (list symbol) :=
  try array := deref (json_object_get_array symbol_array) in
  parse_symbol_list array.

(** [root] is what [json_object_from_file] gives; the result is [NULL] or the
    object. *)
Definition parse_so_json (root : option json) : res Z (option ulp_so_info) :=
  match root with
  | None => Ok None
  | Some root =>
    match json_object_object_get root "library" with
    | None => Ok None
    | Some library =>
      match json_object_object_get library "name" with
      | None => Ok None
      | Some name =>
        match json_object_object_get library "buildid" with
        | None => Ok None
        | Some buildid =>
          try so_name := deref (json_object_get_string (Some name)) in
          try s := deref (json_object_get_string (Some buildid)) in
          match str_to_buildid s with
          | Ok id =>
            try syms := parse_symbols_json (json_object_object_get library "symbols") in
            Ok (Some {| so_name := Some so_name; so_buildid := id; symbols := syms |})
          | Err _ => Ok None
          | Ub => Ub
          | NoFuel => NoFuel
          end
        end
      end
    end
  end.
End writer.

(** ** Comparing and merging *)

Definition symbol_eqb (a b : symbol) : bool :=
  byte_eqb (sym_name a) (sym_name b) && (sym_offset a =? sym_offset b) && (sym_size a =? sym_size b)
  && (sym_info a =? sym_info b) && (sym_other a =? sym_other b).

Fixpoint symbols_equal (a b : list symbol) : bool :=
  match a, b with
  | x :: a, y :: b => if symbol_eqb x y then symbols_equal a b else false
  | [], [] => true
  | _, _ => false
  end.

Definition so_info_equal (a b : ulp_so_info) : res Z bool :=
  try a_name := deref (so_name a) in
  try b_name := deref (so_name b) in
  if negb (byte_eqb a_name b_name) then Ok false
  else if negb (byte_eqb (so_buildid a) (so_buildid b)) then Ok false
  else Ok (symbols_equal (symbols a) (symbols b)).

(** [b] may be the null pointer that [parse_so_elf] gives. *)
Definition merge_ulp_so_infos (a : ulp_so_info) (b : option ulp_so_info) : res Z ulp_so_info :=
  try b := deref b in
  Ok {| so_name := so_name a; so_buildid := so_buildid a; symbols := symbols a ++ symbols b |}.

(** ** The symbols of an ELF file *)

Section elf_info.
Context `{Libelf}.

Abbreviation elf_m A := (st elf Z A).

(** The list is built from its end. *)
Fixpoint list_symbols (data : bytes) (sh_link : Z) (n : nat) (i : Z) (head : list symbol) : elf_m (list symbol) :=
  match n with
  | O => ret head
  | S n =>
    let! sym := need (fun _ => gelf_getsym data i) in
    let! sym_name := need (fun e => elf_strptr e sh_link (st_name sym)) in
    if bool_decide (sym_name = []) then list_symbols data sh_link n (i + 1) head
    else
      list_symbols data sh_link n (i + 1)
        ({| sym_name := sym_name; sym_offset := st_value sym; sym_size := u32 (st_size sym);
            sym_info := st_info sym; sym_other := st_other sym |} :: head)
  end.

Definition get_list_of_symbols_in_section (s : option scn) : elf_m (list symbol) :=
  match s with
  | None => ret []
  | Some s =>
    let! sh := need (fun e => elf_getshdr e s) in
    if sh_entsize sh =? 0 then undef
    else
      let nsyms := s32 (sh_size sh / sh_entsize sh) in
      let! data := gets (fun e => elf_getdata e s) in
      match data with
      | None => ret []
      | Some data => list_symbols data (sh_link sh) (Z.to_nat nsyms) 0 []
      end
  end.

Definition build_symbols_list : elf_m (list symbol) :=
  let! dynsym := get_dynsym in
  let! symtab := get_symtab in
  let! symbols_dynsym := get_list_of_symbols_in_section dynsym in
  let! symbols_symtab := get_list_of_symbols_in_section symtab in
  ret (symbols_dynsym ++ symbols_symtab).

(** [elf] is the result of [load_elf]; a null pointer has no sections. *)
Definition parse_so_elf (fuel : nat) (target_path : bytes) (elf : option elf) : res Z (option ulp_so_info) :=
  match elf with
  | None => Ok None
  | Some e =>
    match get_elf_buildid fuel BUILDID_LEN e with
    | (Err _, _) => Ok None
    | (Ub, _) => Ub
    | (NoFuel, _) => NoFuel
    | (Ok None, _) => Ub
    | (Ok (Some (id, buildid_len)), e) =>
      if negb (buildid_len =? BUILDID_LEN) then Ok None
      else
        try syms := fst (build_symbols_list e) in
        Ok (Some {| so_name := get_basename (Some target_path); so_buildid := id; symbols := syms |})
    end
  end.

Context `{Json}.

(** ** Files *)

(** The content of a file, and [load_elf] on a content. *)
Variable fopen : bytes -> option bytes.
Variable elf_begin : bytes -> option elf.
Variable fuel : nat.

Definition load_elf (path : bytes) : option elf := f ← fopen path; elf_begin f.
Definition json_object_from_file (path : bytes) : option json := f ← fopen path; json_tokener_parse f.

Definition elf_magic : bytes := [127; 69; 76; 70].

Definition ulp_so_info_open (path : bytes) : res Z (option ulp_so_info) :=
  match fopen path with
  | None => Ok None
  | Some f =>
    let elf_header := take 5 f in
    if negb (zlen elf_header =? 5) then Ok None
    else if byte_eqb elf_magic (take 4 elf_header) then parse_so_elf fuel path (load_elf path)
    else parse_so_json (json_object_from_file path)
  end.

(** The status, the name of the output and what is written there. [create] tells
    whether the output can be opened. *)
Definition run_extract (create : bool) (input_file : bytes) (debuginfo_file output_file : option bytes) :
    res Z (Z * option (bytes * bytes)) :=
  let output_file := default (str "out.json") output_file in
  try info := parse_so_elf fuel input_file (load_elf input_file) in
  match info with
  | None => Ok (1, None)
  | Some info =>
    try info :=
      match debuginfo_file with
      | None => Ok info
      | Some debuginfo_file =>
        try debuginfo := parse_so_elf fuel debuginfo_file (load_elf debuginfo_file) in
        merge_ulp_so_infos info debuginfo
      end in
    if negb (byte_eqb output_file (str "-")) && negb create then Ub
    else
      try text := write_ulp_so_info_json info in
      Ok (0, Some (output_file, text))
  end.
End elf_info.

(** ** Build ids *)

Lemma concat_drop (n : nat) (l : list bytes) i :
  Forall (fun x => length x = n) l -> drop (n * i) (concat l) = concat (drop i l).
Proof.
  intros Hl. revert i. induction Hl as [|x l Hx _ IH]; intros i; [cbn [concat]; by rewrite !drop_nil|].
  destruct i as [|i]; [by rewrite Nat.mul_0_r, !drop_0|].
  cbn [concat]. replace (n * S i)%nat with (length x + n * i)%nat by lia.
  by rewrite drop_app_add, IH.
Qed.

Lemma length_concat (n : nat) (l : list bytes) :
  Forall (fun x => length x = n) l -> length (concat l) = (n * length l)%nat.
Proof. induction 1 as [|x l Hx _ IH]; simpl; [lia|]. rewrite length_app. lia. Qed.

Lemma hex_str_2 b : hex_str 2 b = [hex_char (b / 16 mod 16); hex_char (b mod 16)].
Proof. done. Qed.

Lemma hex_strs_2 bs : Forall (fun x => length x = 2%nat) (map (hex_str 2) bs).
Proof. by induction bs; constructor. Qed.

(** A hexadecimal digit is not a space, a sign or an [x]. *)
Lemma hex_char_plain d : 0 <= d < 16 ->
  isspace (hex_char d) = false /\ (hex_char d =? 43) = false /\ (hex_char d =? 45) = false /\
  (hex_char d =? 120) = false /\ (hex_char d =? 88) = false.
Proof.
  intros Hd. assert (48 <= hex_char d <= 57 \/ 97 <= hex_char d <= 102) as Hr.
  { unfold hex_char. destruct (Z.ltb_spec d 10); lia. }
  unfold isspace. lia.
Qed.

Lemma scan_hex2_str b rest : is_byte b -> scan_hex2 (hex_str 2 b ++ rest) = Some b.
Proof.
  intros [Hb0 Hb1]. change (2 ^ 8) with 256 in Hb1. rewrite hex_str_2.
  assert (Hh : 0 <= b / 16 mod 16 < 16) by (apply Z.mod_pos_bound; lia).
  assert (Hl : 0 <= b mod 16 < 16) by (apply Z.mod_pos_bound; lia).
  destruct (hex_char_plain _ Hh) as (Hs & Hp & Hm & _). destruct (hex_char_plain _ Hl) as (_ & _ & _ & Hx & HX).
  unfold scan_hex2. cbn [app skip_spaces]. rewrite Hs, Hp, Hm, Hx, HX, andb_false_r. cbn [orb].
  rewrite !hex_digit_char by done. cbn. f_equal.
  rewrite (Z.mod_small (b / 16) 16) by (split; [apply Z.div_pos; lia|apply Z.div_lt_upper_bound; lia]).
  pose proof (Z.div_mod b 16). lia.
Qed.

Lemma scan_bytes_spec bs n i : Forall is_byte bs -> (i + n)%nat = length bs ->
  scan_bytes (buildid_to_string bs) n i = Ok (drop i bs).
Proof.
  intros Hb. revert i. induction n as [|n IH]; intros i Hn; cbn [scan_bytes].
  - by rewrite drop_ge by lia.
  - assert (Hs := hex_strs_2 bs).
    assert (El : length (buildid_to_string bs) = (2 * length bs)%nat).
    { unfold buildid_to_string. rewrite (length_concat 2) by apply Hs. by rewrite List.length_map. }
    rewrite (proj2 (Nat.ltb_ge _ _)) by lia.
    destruct (lookup_lt_is_Some_2 bs i ltac:(lia)) as [b Hi].
    unfold buildid_to_string at 1. rewrite concat_drop by done.
    rewrite <- fmap_drop, (drop_S _ _ _ Hi). cbn [fmap list_fmap concat].
    rewrite Forall_lookup in Hb. rewrite (scan_hex2_str b) by eauto. cbn [deref rbind].
    rewrite IH by lia. cbn [rbind]. by rewrite wrap_id by (eapply Hb; eauto).
Qed.

(** A build id is read back from its string. *)
Lemma buildid_roundtrip id : Forall is_byte id -> zlen id = BUILDID_LEN ->
  str_to_buildid (buildid_to_string id) = Ok id.
Proof.
  intros Hb Hl. unfold str_to_buildid, buildid_to_string at 1. unfold zlen in *.
  rewrite (length_concat 2) by apply hex_strs_2. rewrite length_map.
  unfold BUILDID_LEN in *. rewrite (proj2 (Z.ltb_ge _ _)) by lia.
  by rewrite scan_bytes_spec by (done || lia).
Qed.

(** The length that is asked for is half of what is read: a shorter string of
    digits passes and is read behind its end. *)
Lemma scan_bytes_short str n i : (0 < n)%nat -> (length str + 2 <= 2 * (i + n))%nat ->
  scan_bytes str n i = Ub.
Proof.
  revert i. induction n as [|n IH]; intros i Hn Hl; [lia|]. cbn [scan_bytes].
  destruct (Nat.ltb_spec (length str) (2 * i)); [done|].
  destruct (scan_hex2 (drop (2 * i) str)) as [v|] eqn:E; [|done]. cbn [deref rbind].
  destruct n as [|n]; [by rewrite drop_ge in E by lia|]. by rewrite IH by lia.
Qed.

Lemma short_buildid str : BUILDID_LEN <= zlen str <= 2 * BUILDID_LEN - 2 -> str_to_buildid str = Ub.
Proof.
  unfold str_to_buildid, zlen, BUILDID_LEN. intros Hl. rewrite (proj2 (Z.ltb_ge _ _)) by lia.
  apply scan_bytes_short; lia.
Qed.

(** ** What json-c documents *)

Class JsonLaws `{Json} := {
  object_get_law : forall o k v k', json_object_object_get (json_object_object_add o k v) k' =
    if String.eqb k k' then Some v else json_object_object_get o k';
  get_string_law : forall s, json_object_get_string (Some (json_object_new_string s)) = Some s;
  get_int_law : forall n, in_s 32 n -> json_object_get_int (Some (json_object_new_int n)) = n;
  new_array_law : json_object_get_array (Some json_object_new_array) = Some [];
  array_add_law : forall a l v, json_object_get_array (Some a) = Some l ->
    json_object_get_array (Some (json_object_array_add a v)) = Some (l ++ [v]);
  (** An object with a member is written with a brace, quotes, a colon and a brace. *)
  text_law : forall o k v, exists rest,
    json_object_to_json_string (json_object_object_add o k v) = 123 :: rest /\ 4 <= zlen rest;
  parse_law : forall o, json_tokener_parse (json_object_to_json_string o) = Some o }.

(** What an offset and a size become on the way through an [int]. *)
Definition through_int (s : symbol) : symbol :=
  {| sym_name := sym_name s; sym_offset := u64 (s32 (sym_offset s)); sym_size := u32 (s32 (sym_size s));
     sym_info := u8 (sym_info s); sym_other := u8 (sym_other s) |}.

Definition json_symbol_ok (s : symbol) : Prop :=
  0 <= sym_offset s < 2 ^ 31 /\ 0 <= sym_size s < 2 ^ 31 /\ is_byte (sym_info s) /\ is_byte (sym_other s).

Lemma s32_range z : in_s 32 (s32 z).
Proof. unfold in_s, s32. pose proof (Z.mod_pos_bound (z + 2 ^ (32 - 1)) (2 ^ 32)). lia. Qed.

Lemma u32_u64 z : u32 (u64 z) = u32 z.
Proof. unfold wrap. apply Z.mod_mod_divide. by exists (2 ^ 32). Qed.

Lemma u8_s32 z : is_byte z -> s32 z = z /\ u8 z = z.
Proof.
  intros [Hz0 Hz1]. change (2 ^ 8) with 256 in Hz1. split.
  - apply swrap_id; [lia|]. unfold in_s. lia.
  - apply wrap_id. done.
Qed.

Lemma through_int_id s : json_symbol_ok s -> through_int s = s.
Proof.
  intros ((Ho0 & Ho1) & (Hs0 & Hs1) & Hi & Hx). unfold through_int.
  rewrite !swrap_id by (lia || (unfold in_s; lia)).
  rewrite !wrap_id by (unfold in_u; first [done | lia]). by destruct s.
Qed.

Section json_laws.
Context `{JsonLaws}.

Lemma parse_json_symbol s : is_byte (sym_info s) -> is_byte (sym_other s) ->
  parse_symbol_json (get_json_symbol s) = Ok (through_int s).
Proof.
  intros Hi Ho. unfold parse_symbol_json, get_json_symbol, JINT. rewrite !object_get_law. cbn [String.eqb Ascii.eqb eqb].
  rewrite get_string_law, !get_int_law by apply s32_range. cbn [deref rbind].
  unfold through_int. rewrite u32_u64. by rewrite (proj1 (u8_s32 _ Hi)), (proj1 (u8_s32 _ Ho)).
Qed.

Lemma symbols_array ss a l : json_object_get_array (Some a) = Some l ->
  json_object_get_array (Some (foldl (fun a s => json_object_array_add a (get_json_symbol s)) a ss)) =
  Some (l ++ map get_json_symbol ss).
Proof.
  revert a l. induction ss as [|s ss IH]; intros a l Ha; cbn [foldl map]; [by rewrite app_nil_r|].
  rewrite (IH _ (l ++ [get_json_symbol s])) by (by apply array_add_law). by rewrite <- app_assoc.
Qed.

Lemma parse_symbol_list_spec ss : Forall (fun s => is_byte (sym_info s) /\ is_byte (sym_other s)) ss ->
  parse_symbol_list (map get_json_symbol ss) = Ok (map through_int ss).
Proof.
  induction 1 as [|s ss [Hi Ho] _ IH]; [done|]. cbn [map parse_symbol_list].
  rewrite parse_json_symbol by done. cbn [rbind]. by rewrite IH.
Qed.

(** What is read back from the JSON of an object: the offsets and sizes have gone
    through an [int]. *)
Lemma parse_so_json_spec name info : so_name info = Some name ->
  Forall is_byte (so_buildid info) -> zlen (so_buildid info) = BUILDID_LEN ->
  Forall (fun s => is_byte (sym_info s) /\ is_byte (sym_other s)) (symbols info) ->
  parse_so_json (Some (json_of_info name info)) =
  Ok (Some {| so_name := so_name info; so_buildid := so_buildid info; symbols := map through_int (symbols info) |}).
Proof.
  intros Hn Hb Hl Hs. unfold parse_so_json, json_of_info.
  repeat (rewrite object_get_law; cbn [String.eqb Ascii.eqb eqb]). rewrite !get_string_law. cbn [deref rbind].
  rewrite buildid_roundtrip by done.
  unfold parse_symbols_json. rewrite (symbols_array _ _ _ new_array_law). cbn [deref rbind app].
  rewrite parse_symbol_list_spec by done. cbn [rbind]. by rewrite Hn.
Qed.
End json_laws.

(** ** The symbols of a valid ELF file *)

Section elf_laws.
Context `{Libelf}.
Variables (e : elf) (l : list sect).
Hypothesis Hwf : wf_elf e l.

(** The section [x] holds the symbols [ss], each with its name. *)
Record holds_symbols (x : sect) (ss : list (bytes * Elf64_Sym)) : Prop := {
  hs_entsize : 0 < sh_entsize (hdr x);
  hs_count : sh_size (hdr x) / sh_entsize (hdr x) = zlen ss;
  hs_small : zlen ss < 2 ^ 31;
  hs_data : exists data, elf_getdata e (handle x) = Some data /\
    forall i nm y, ss !! i = Some (nm, y) ->
      gelf_getsym data (Z.of_nat i) = Some y /\ elf_strptr e (sh_link (hdr x)) (st_name y) = Some nm }.

Definition to_symbol (p : bytes * Elf64_Sym) : symbol :=
  {| sym_name := p.1; sym_offset := st_value p.2; sym_size := u32 (st_size p.2);
     sym_info := st_info p.2; sym_other := st_other p.2 |}.

(** The symbols with a name, the last one first. *)
Definition symbols_of (ss : list (bytes * Elf64_Sym)) : list symbol :=
  rev (map to_symbol (List.filter (fun p => negb (bool_decide (p.1 = []))) ss)).

Lemma list_symbols_spec data link k (ss : list (bytes * Elf64_Sym)) i head :
  (forall j nm y, ss !! j = Some (nm, y) ->
     gelf_getsym data (Z.of_nat j) = Some y /\ elf_strptr e link (st_name y) = Some nm) ->
  drop i ss = k -> list_symbols data link (length k) (Z.of_nat i) head e = (Ok (symbols_of k ++ head), e).
Proof.
  intros Hss. revert i head. induction k as [|[nm y] k IH]; intros i head E; [done|].
  assert (Hi : ss !! i = Some (nm, y)) by (by rewrite <- (Nat.add_0_r i), <- lookup_drop, E).
  destruct (Hss _ _ _ Hi) as [Hy Hnm]. cbn [length list_symbols].
  step_bind (need_ok (fun _ => gelf_getsym data (Z.of_nat i)) e _ Hy).
  step_bind (need_ok (fun e => elf_strptr e link (st_name y)) _ _ Hnm).
  replace (Z.of_nat i + 1) with (Z.of_nat (S i)) by lia.
  assert (Ek : drop (S i) ss = k) by (by rewrite (drop_S _ _ _ Hi) in E; injection E).
  unfold symbols_of. cbn [List.filter fst]. destruct (bool_decide_reflect (nm = [])); cbn [negb map rev]; [by apply IH|].
  rewrite <- app_assoc. by apply IH.
Qed.

Lemma section_symbols_spec x ss : x ∈ l -> holds_symbols x ss ->
  get_list_of_symbols_in_section (Some (handle x)) e = (Ok (symbols_of ss), e).
Proof.
  intros Hx [He Hc Hm (data & Hd & Hss)]. unfold get_list_of_symbols_in_section.
  step_bind (need_ok (fun e => elf_getshdr e (handle x)) _ _ (wf_hdr _ _ Hwf x Hx)).
  rewrite (proj2 (Z.eqb_neq _ _)) by lia. unfold bind, gets. rewrite Hd, Hc.
  rewrite swrap_id by (unfold in_s; pose proof (zlen_nonneg ss); lia). rewrite zlen_nat.
  etransitivity; [by apply (list_symbols_spec data _ ss ss 0)|]. by rewrite app_nil_r.
Qed.

(** The symbols of the first section of a type, if there is one. *)
Definition table (t : Z) (ss : list (bytes * Elf64_Sym)) : Prop :=
  match find (typed t) l with
  | Some x => holds_symbols x ss
  | None => ss = []
  end.

Lemma table_symbols t ss : table t ss ->
  get_list_of_symbols_in_section (handle <$> find (typed t) l) e = (Ok (symbols_of ss), e).
Proof.
  unfold table. destruct (find (typed t) l) as [x|] eqn:E; [|by intros ->].
  intros Ht. apply section_symbols_spec; [|done]. by apply find_some in E as [E%list_elem_of_In _].
Qed.

(** The symbols of both tables; each table is listed from its end. *)
Lemma build_symbols_list_spec dyn tab : table SHT_DYNSYM dyn -> table SHT_SYMTAB tab ->
  build_symbols_list e = (Ok (symbols_of dyn ++ symbols_of tab), e).
Proof.
  intros Hd Ht. unfold build_symbols_list, get_dynsym, get_symtab.
  step_bind (get_elf_section_spec e l Hwf SHT_DYNSYM). step_bind (get_elf_section_spec e l Hwf SHT_SYMTAB).
  step_bind (table_symbols _ _ Hd). by step_bind (table_symbols _ _ Ht).
Qed.

(** The first note of the build id's section is the build id. *)
Definition has_build_id (id : bytes) : Prop :=
  exists x data n, find (named (str ".note.gnu.build-id")) l = Some x /\
    elf_getdata e (handle x) = Some data /\ gelf_getnote data 0 = Some n /\
    n_type n = NT_GNU_BUILD_ID /\ n_descsz n = BUILDID_LEN /\ 0 <= n_descp n /\ n_descp n + BUILDID_LEN <= zlen data /\
    slice (Z.to_nat (n_descp n)) (Z.to_nat BUILDID_LEN) data = id.

Lemma get_elf_buildid_spec id fuel : has_build_id id -> (0 < fuel)%nat ->
  get_elf_buildid fuel BUILDID_LEN e = (Ok (Some (id, BUILDID_LEN)), e).
Proof.
  intros (x & data & n & Hx & Hd & Hn & Ht & Hs & Hp & Hfit & Hid) Hf. unfold get_elf_buildid, get_build_id_note.
  step_bind (get_elfscn_by_name_spec e l Hwf (str ".note.gnu.build-id")). rewrite Hx. cbn [fmap option_fmap option_map].
  unfold get_build_id. rewrite Hd. destruct fuel as [|fuel]; [lia|]. cbn [find_build_id_note mbind option_bind].
  rewrite Hn, Ht, Z.eqb_refl. unfold read_buf. rewrite Hs.
  rewrite (proj2 (Z.ltb_ge (n_descp n) 0)), (proj2 (Z.ltb_ge (zlen data) _)) by lia.
  cbn [orb]. rewrite Hid. done.
Qed.

Lemma parse_so_elf_spec id dyn tab fuel path : has_build_id id -> (0 < fuel)%nat ->
  table SHT_DYNSYM dyn -> table SHT_SYMTAB tab ->
  parse_so_elf fuel path (Some e) =
  Ok (Some {| so_name := get_basename (Some path); so_buildid := id; symbols := symbols_of dyn ++ symbols_of tab |}).
Proof.
  intros Hid Hf Hd Ht. unfold parse_so_elf. rewrite (get_elf_buildid_spec id) by done.
  rewrite Z.eqb_refl. cbn [negb]. by rewrite (build_symbols_list_spec dyn tab).
Qed.
End elf_laws.

(** ** From the library to the JSON file and back *)

Lemma has_build_id_length `{Libelf} e l id : has_build_id e l id -> zlen id = BUILDID_LEN.
Proof.
  intros (x & data & n & _ & _ & _ & _ & _ & Hp & Hfit & <-). unfold slice, zlen, BUILDID_LEN in *.
  rewrite length_take, length_drop. lia.
Qed.

Section files.
Context `{Libelf} `{JsonLaws}.
Variable elf_begin : bytes -> option elf.
Variable fuel : nat.

(** The file that is written is read as JSON, never as ELF. *)
Lemma open_json fopen out name info : fopen out = Some (json_object_to_json_string (json_of_info name info)) ->
  ulp_so_info_open fopen elf_begin fuel out = parse_so_json (Some (json_of_info name info)).
Proof.
  intros Hout. unfold ulp_so_info_open, json_object_from_file. rewrite Hout.
  destruct (text_law json_object_new_object "library"
    (let library := json_object_new_object in
     let library := json_object_object_add library "name" (json_object_new_string name) in
     let library := json_object_object_add library "buildid" (json_object_new_string (buildid_to_string (so_buildid info))) in
     let symbols := foldl (fun a s => json_object_array_add a (get_json_symbol s)) json_object_new_array (symbols info) in
     json_object_object_add library "symbols" symbols)) as (rest & Htext & Hrest).
  change (json_object_to_json_string (json_of_info name info) = 123 :: rest) in Htext.
  cbn [mbind option_bind]. rewrite parse_law, Htext.
  destruct rest as [|b0 [|b1 [|b2 [|b3 rest]]]]; try by cbn in Hrest.
Qed.

(** C19. [ulp extract] keeps what a live patch needs: when the offsets and sizes of
    a library's symbols fit an [int], the JSON file it writes is opened to the same
    name, build id and symbols as the library itself, followed by those of the file
    with the debug information. *)
Theorem extract_then_open fopen path out f e l id dyn tab debug extra :
  fopen path = Some f -> elf_begin f = Some e -> take 4 f = elf_magic -> 5 <= zlen f ->
  wf_elf e l -> has_build_id e l id -> Forall is_byte id -> (0 < fuel)%nat ->
  table e l SHT_DYNSYM dyn -> table e l SHT_SYMTAB tab ->
  match debug with
  | None => extra = []
  | Some p => exists d, parse_so_elf fuel p (load_elf fopen elf_begin p) = Ok (Some d) /\ extra = symbols d
  end ->
  Forall json_symbol_ok (symbols_of dyn ++ symbols_of tab ++ extra) ->
  exists name text,
    let info := {| so_name := Some name; so_buildid := id; symbols := symbols_of dyn ++ symbols_of tab |} in
    ulp_so_info_open fopen elf_begin fuel path = Ok (Some info) /\
    run_extract fopen elf_begin fuel true path debug (Some out) = Ok (0, Some (out, text)) /\
    forall fopen', fopen' out = Some text ->
      ulp_so_info_open fopen' elf_begin fuel out =
      Ok (Some {| so_name := Some name; so_buildid := id; symbols := symbols info ++ extra |}).
Proof.
  intros Hf He Hm Hl Hwf Hid Hb Hfuel Hdyn Htab Hdbg Hok.
  assert (Hload : load_elf fopen elf_begin path = Some e) by (unfold load_elf; rewrite Hf; cbn; done).
  pose proof (parse_so_elf_spec e l Hwf id dyn tab fuel path Hid Hfuel Hdyn Htab) as Hparse.
  assert (exists name, get_basename (Some path) = Some name) as [name Hname].
  { unfold get_basename. destruct (strrchr _ _); eauto. }
  rewrite Hname in Hparse.
  set (info := {| so_name := Some name; so_buildid := id; symbols := symbols_of dyn ++ symbols_of tab ++ extra |}).
  exists name, (json_object_to_json_string (json_of_info name info)). split_and!.
  - unfold ulp_so_info_open. cbv zeta. rewrite Hf, take_take, Hload.
    replace (zlen (take 5 f)) with 5 by (unfold zlen in *; rewrite length_take; lia).
    change (4 `min` 5)%nat with 4%nat. rewrite Hm, byte_eqb_refl. exact Hparse.
  - unfold run_extract. rewrite Hload, Hparse. cbn [rbind].
    assert (Hmerge : match debug with
      | None => Ok {| so_name := Some name; so_buildid := id; symbols := symbols_of dyn ++ symbols_of tab |}
      | Some p => try d := parse_so_elf fuel p (load_elf fopen elf_begin p) in
                  merge_ulp_so_infos {| so_name := Some name; so_buildid := id; symbols := symbols_of dyn ++ symbols_of tab |} d
      end = Ok (E := Z) info).
    { unfold info. destruct debug as [p|].
      - destruct Hdbg as (d & Hd & ->). rewrite Hd. cbn. by rewrite <- app_assoc.
      - rewrite Hdbg, app_nil_r. done. }
    rewrite Hmerge. cbn [rbind negb default]. rewrite andb_false_r. done.
  - intros fopen' Hout. rewrite (open_json _ _ _ _ Hout), parse_so_json_spec;
      [|done|done|by eapply has_build_id_length|by eapply Forall_impl; [|exact Hok]; cbn; intros s (_ & _ & Hx)].
    cbn [symbols so_name so_buildid]. rewrite <- app_assoc, (map_ext_in through_int (fun s => s)); [by rewrite map_id|].
    intros s Hs. apply through_int_id. rewrite List.Forall_forall in Hok. by apply Hok.
Qed.
End files.

(** An offset that does not fit is changed: the JSON file names another place than
    the library. *)
Lemma large_offset s : 2 ^ 31 <= sym_offset s < 2 ^ 64 - 2 ^ 31 -> sym_offset (through_int s) <> sym_offset s.
Proof.
  intros Ho. unfold through_int. cbn [sym_offset]. pose proof (s32_range (sym_offset s)) as Hr. unfold in_s in Hr.
  destruct (Z.ltb_spec (s32 (sym_offset s)) 0).
  - unfold wrap. rewrite <- (Z.mod_unique (s32 (sym_offset s)) (2 ^ 64) (-1) (s32 (sym_offset s) + 2 ^ 64)) by lia. lia.
  - rewrite wrap_id by (unfold in_u; lia). lia.
Qed.

(** Without a file of debug information that can be read, the null pointer is
    dereferenced. *)
Lemma missing_debuginfo `{Libelf} `{Json} fopen elf_begin fuel create path p out info :
  parse_so_elf fuel path (load_elf fopen elf_begin path) = Ok (Some info) ->
  load_elf fopen elf_begin p = None ->
  run_extract fopen elf_begin fuel create path (Some p) out = Ub.
Proof. intros Hp Hd. unfold run_extract. rewrite Hp, Hd. done. Qed.

(** Symbols that the library only imports are listed like those it defines. *)
Lemma undefined_symbol_listed `{Libelf} nm y (ss : list (bytes * Elf64_Sym)) :
  In (nm, y) ss -> nm <> [] -> In (to_symbol (nm, y)) (symbols_of ss).
Proof.
  intros Hi Hn. unfold symbols_of. rewrite <- in_rev. apply in_map, filter_In. split; [done|].
  by rewrite (bool_decide_eq_false_2 (nm = [])).
Qed.
