(* ===== verification/SoInfo.v ===== *)
(** * What the packer shows and stores of a library (tools/extract.c, tools/packer.c)

    The listing of a library whose symbol is missing, and the build id of an
    object. *)

From stdpp Require Import list.
From S2P Require Import Prelude Errors Metadata ElfFile Extract.

Open Scope ulp_scope.

(** ** The listing *)

Definition st_type_names : list (option string) :=
  [Some "STT_NOTYPE"; Some "STT_OBJECT"; Some "STT_FUNC"; Some "STT_SECTION"; Some "STT_FILE"; Some "STT_COMMON"; Some "STT_TLS";
   Some "STT_NUM"; None; None; Some "STT_GNU_IFUNC"; None; Some "STT_HIOS"; Some "STT_LOPROC"; None; Some "STT_HIPROC"]%string.
Definition st_bind_names : list (option string) :=
  [Some "STB_LOCAL"; Some "STB_GLOBAL"; Some "STB_WEAK"; Some "STB_NUM"; Some "STB_FILE"; None; None; None; None; None;
   Some "STB_GNU_UNIQUE"; None; Some "STB_HIOS"; Some "STB_LOPROC"; None; Some "STB_HIPROC"]%string.
Definition stv_visibility_names : list (option string) :=
  [Some "STV_DEFAULT"; Some "STV_INTERNAL"; Some "STV_HIDDEN"; Some "STV_PROTECTED"]%string.

(** [table[i]]; [printf] shows a null pointer as [(null)]. *)
Definition name_at (table : list (option string)) (i : Z) : res Z string :=
  match table !! Z.to_nat i with Some name => Ok (default "(null)"%string name) | None => Ub end.

(** The lines of a symbol. *)
Record symbol_lines := {
  sl_name : bytes; sl_offset : Z; sl_size : Z; sl_info : Z; sl_type : string; sl_bind : string; sl_other : Z; sl_visibility : string }.

Definition dump_one (s : symbol) : res Z symbol_lines :=
  try t := name_at st_type_names (Z.land (sym_info s) 15) in
  try b := name_at st_bind_names (Z.shiftr (sym_info s) 4) in
  try v := name_at stv_visibility_names (Z.land (sym_other s) 3) in
  Ok {| sl_name := cstr (sym_name s); sl_offset := sym_offset s; sl_size := sym_size s; sl_info := sym_info s;
        sl_type := t; sl_bind := b; sl_other := sym_other s; sl_visibility := v |}.

Fixpoint dump_symbol (symbols : list symbol) : res Z (list symbol_lines) :=
  match symbols with
  | [] => Ok []
  | s :: symbols => try l := dump_one s in try ls := dump_symbol symbols in Ok (l :: ls)
  end.

Record so_info_lines := { il_name : option bytes; il_buildid : bytes; il_symbols : list symbol_lines }.

Definition dump_ulp_so_info (info : ulp_so_info) : res Z so_info_lines :=
  try ls := dump_symbol (symbols info) in
  Ok {| il_name := cstr <$> so_name info; il_buildid := buildid_to_string (so_buildid info); il_symbols := ls |}.

(** A byte always has a name of each kind. *)
Lemma dump_one_ok s : is_byte (sym_info s) -> is_byte (sym_other s) ->
  exists l, dump_one s = Ok l /\ sl_name l = cstr (sym_name s) /\ sl_offset l = sym_offset s /\ sl_size l = sym_size s /\
    sl_info l = sym_info s /\ sl_other l = sym_other s.
Proof.
  unfold is_byte, in_u. intros Hi Ho.
  assert (Hname : forall table i, 0 <= i < zlen table -> exists n, name_at table i = Ok n).
  { intros table i Hr. unfold name_at, zlen in *. destruct (lookup_lt_is_Some_2 table (Z.to_nat i) ltac:(lia)) as [n ->]. by eexists. }
  unfold dump_one.
  destruct (Hname st_type_names (Z.land (sym_info s) 15)) as [t ->].
  { change (zlen st_type_names) with (2 ^ 4). change 15 with (Z.ones 4). rewrite Z.land_ones by lia. apply Z.mod_pos_bound. lia. }
  destruct (Hname st_bind_names (Z.shiftr (sym_info s) 4)) as [b ->].
  { rewrite Z.shiftr_div_pow2 by lia. change (zlen st_bind_names) with 16. split; [apply Z.div_pos|apply Z.div_lt_upper_bound]; lia. }
  destruct (Hname stv_visibility_names (Z.land (sym_other s) 3)) as [v ->].
  { change (zlen stv_visibility_names) with (2 ^ 2). change 3 with (Z.ones 2). rewrite Z.land_ones by lia. apply Z.mod_pos_bound. lia. }
  cbn [rbind]. eexists. by split_and!.
Qed.

(** The listing never leaves the tables of names, and shows every symbol, in order. *)
Theorem dump_ulp_so_info_spec info
    (Hbytes : Forall (fun s => is_byte (sym_info s) /\ is_byte (sym_other s)) (symbols info)) :
  exists d, dump_ulp_so_info info = Ok d /\
    map (fun l => (sl_name l, sl_offset l, sl_size l, sl_info l, sl_other l)) (il_symbols d) =
    map (fun s => (cstr (sym_name s), sym_offset s, sym_size s, sym_info s, sym_other s)) (symbols info).
Proof.
  assert (Hs : exists ls, dump_symbol (symbols info) = Ok ls /\
    map (fun l => (sl_name l, sl_offset l, sl_size l, sl_info l, sl_other l)) ls =
    map (fun s => (cstr (sym_name s), sym_offset s, sym_size s, sym_info s, sym_other s)) (symbols info)).
  { induction Hbytes as [|s ss [Hi Ho] _ (ls & E & Hls)]; [by exists []|]. cbn [dump_symbol].
    destruct (dump_one_ok s Hi Ho) as (l & El & Hn & Hoff & Hsz & Hinfo & Hother). rewrite El. cbn [rbind]. rewrite E. cbn [rbind].
    exists (l :: ls). split; [done|]. cbn [map]. by rewrite Hls, Hn, Hoff, Hsz, Hinfo, Hother. }
  destruct Hs as (ls & E & Hls). unfold dump_ulp_so_info. rewrite E. cbn [rbind]. by eexists.
Qed.

(** ** The build id of an object *)

Section objects.
Context `{Libelf}.

Definition set_build_id (o : ulp_object) (id : option bytes) (len : Z) : ulp_object :=
  {| build_id_len := len; build_id_check := build_id_check o; build_id := id; obj_name := obj_name o; nunits := nunits o; units := units o |}.

(** The code and the object. A build id of another length stops the program. *)
Definition get_object_metadata (fuel : nat) (calloc_ok : bool) (obj : ulp_object) : st elf Z (Z * ulp_object) := fun e =>
  if negb calloc_ok then (Ok (1, set_build_id obj None (build_id_len obj)), e)
  else
    match get_elf_buildid fuel BUILDID_LEN e with
    | (Ok (Some (id, len)), e) => (Ok (0, set_build_id obj (Some id) len), e)
    | (Ok None, e) => (Ub, e)
    | (Err _, e) => (Ok (1, set_build_id obj (Some (replicate (Z.to_nat BUILDID_LEN) 0)) (build_id_len obj)), e)
    | (Ub, e) => (Ub, e)
    | (NoFuel, e) => (NoFuel, e)
    end.

(** The object gets the build id of the file; nothing else of it changes. *)
Theorem get_object_metadata_spec e l fuel obj id
    (Hwf : wf_elf e l) (Hid : has_build_id e l id) (Hfuel : (0 < fuel)%nat) :
  get_object_metadata fuel true obj e = (Ok (0, set_build_id obj (Some id) BUILDID_LEN), e).
Proof. unfold get_object_metadata. cbn [negb]. by rewrite (get_elf_buildid_spec e l Hwf id fuel Hid Hfuel). Qed.
End objects.
