(* ===== verification/Description.v ===== *)
(** * The description of a patch (tools/packer.c)

    The parser of [.dsc] files: the container, the dependencies, the target
    library, the pairs of functions and the references to data. A description is
    checked against the symbols of the container and of the target. The file
    system, the reader of ELF and JSON files and the allocator are parameters;
    how an error is shown is in [ParseError]. *)

From stdpp Require Import list.
From S2P Require Import Prelude Errors Metadata Extract.

Open Scope ulp_scope.

(** ** What the parser works on *)

(** [location_t] and the message of [parse_error]. *)
Record parse_failure := { at_line : Z; at_col : Z; why : string }.

(** The locals and the statics of [parse_description]. A byte of the comments
    that was never written is [None]. *)
Record dstate := {
  file : bytes; line : Z; col : Z;
  ulp : ulp_metadata;
  d_comments : list (option Z); cur_comment_pos : Z; cur_comment_size : Z;
  container : option ulp_so_info; target : option ulp_so_info; target_path : bytes }.

Abbreviation dsc A := (st dstate parse_failure A).

Section setters.
Variable s : dstate.
Definition set_file f l c : dstate :=
  {| file := f; line := l; col := c; ulp := ulp s; d_comments := d_comments s;
     cur_comment_pos := cur_comment_pos s; cur_comment_size := cur_comment_size s;
     container := container s; target := target s; target_path := target_path s |}.
Definition set_ulp u : dstate :=
  {| file := file s; line := line s; col := col s; ulp := u; d_comments := d_comments s;
     cur_comment_pos := cur_comment_pos s; cur_comment_size := cur_comment_size s;
     container := container s; target := target s; target_path := target_path s |}.
Definition set_comments c pos size : dstate :=
  {| file := file s; line := line s; col := col s; ulp := ulp s; d_comments := c;
     cur_comment_pos := pos; cur_comment_size := size;
     container := container s; target := target s; target_path := target_path s |}.
Definition set_container c : dstate :=
  {| file := file s; line := line s; col := col s; ulp := ulp s; d_comments := d_comments s;
     cur_comment_pos := cur_comment_pos s; cur_comment_size := cur_comment_size s;
     container := c; target := target s; target_path := target_path s |}.
Definition set_target t path : dstate :=
  {| file := file s; line := line s; col := col s; ulp := ulp s; d_comments := d_comments s;
     cur_comment_pos := cur_comment_pos s; cur_comment_size := cur_comment_size s;
     container := container s; target := t; target_path := path |}.
End setters.

Definition parse_error {A} (fmt : string) : dsc A := fun s =>
  (Err {| at_line := line s; at_col := col s; why := fmt |}, s).

Definition set_col (c : Z) : dsc unit := modify (fun s => set_file s (file s) (line s) c).
Definition update_ulp (f : ulp_metadata -> ulp_metadata) : dsc unit := modify (fun s => set_ulp s (f (ulp s))).

(** ** Lines *)

(** The line and what follows it; the newline belongs to the line. *)
Fixpoint split_line (l : bytes) : bytes * bytes :=
  match l with
  | [] => ([], [])
  | c :: l => if c =? 10 then ([c], l) else let (a, b) := split_line l in (c :: a, b)
  end.

(** [getline]; [loc.line++; loc.col = 1]. The length [n] is that of the line, and
    -1 at the end of the file. *)
Definition getline : dsc bytes := fun s =>
  let (first, rest) := split_line (file s) in (Ok first, set_file s rest (line s + 1) 1).

(** [if (first[n - 1] == '\n') first[n - 1] = '\0'], as the C string it leaves. *)
Definition chomp (first : bytes) : bytes :=
  match rev first with
  | c :: r => if c =? 10 then cstr (rev r) else cstr first
  | [] => []
  end.

(** [first[0]]. *)
Definition first_char (first : bytes) : Z := nth 0 first 0.

(** [strncpy (dst, src, n)]: [n] bytes, filled with NUL behind the string. *)
Definition strncpy (src : bytes) (n : nat) : bytes :=
  let s := take n (cstr src) in s ++ replicate (n - length s) 0.

Definition COMMENT_BLOCK : Z := 128 * 1024.

(** [n] is the length of the line [first]. *)
Definition read_comment (realloc : bool) (first : bytes) : dsc unit := fun s =>
  let n := zlen first in
  let grows := cur_comment_size s <=? cur_comment_pos s + (n + 1) in
  let size := if grows then cur_comment_size s + COMMENT_BLOCK else cur_comment_size s in
  (* a failed realloc is reported and then written through *)
  if grows && negb realloc then (Ub, s)
  else
    let c := d_comments s ++ replicate (Z.to_nat size - length (d_comments s)) None in
    let pos := Z.to_nat (cur_comment_pos s) in
    if size <=? cur_comment_pos s + n then (Ub, s)
    else
      let c := splice pos (map Some (strncpy (drop 1 first) (length first - 1))) c in
      let c := splice (pos + length first) [Some 0] c in
      (Ok tt, set_comments s c (cur_comment_pos s + n) size).

(** ** Tokens *)

(** [strchr (s, ':')]: what is before the first colon and what is behind it. *)
Fixpoint strchr_colon (s : bytes) : option (bytes * bytes) :=
  match s with
  | [] => None
  | c :: s =>
    if c =? 58 then Some ([], s)
    else match strchr_colon s with Some (a, b) => Some (c :: a, b) | None => None end
  end.

(** The delimiters [strtok] passes over, and the token behind them. *)
Fixpoint skip_colons (s : bytes) : nat * bytes :=
  match s with
  | c :: s' => if c =? 58 then let (k, r) := skip_colons s' in (S k, r) else (O, s)
  | [] => (O, [])
  end.

(** [strtok (s, ":")]: the delimiters before the token, the token, the rest. *)
Definition strtok_colon (s : bytes) : nat * option bytes * bytes :=
  let (k, r) := skip_colons s in
  match r with
  | [] => (k, None, [])
  | _ =>
    match strchr_colon r with
    | Some (a, b) => (k, Some a, b)
    | None => (k, Some r, [])
    end
  end.

Fixpoint hex_digits (s : bytes) (acc : Z) : Z :=
  match s with
  | [] => acc
  | c :: s => match hex_digit c with Some d => hex_digits s (16 * acc + d) | None => acc end
  end.

(** The optional [0x]. *)
Definition skip_0x (s : bytes) : bytes :=
  match s with
  | z :: x :: d :: r =>
    if (z =? 48) && ((x =? 120) || (x =? 88)) && (if hex_digit d is Some _ then true else false) then d :: r else s
  | _ => s
  end.

(** [strtol (s, NULL, 16)] of the C library, which clamps to the range of a long. *)
Definition strtol16 (s : bytes) : Z :=
  match skip_spaces s with
  | [] => 0
  | c :: r =>
    if c =? 45 then Z.max (- 2 ^ 63) (- hex_digits (skip_0x r) 0)
    else if c =? 43 then Z.min (2 ^ 63 - 1) (hex_digits (skip_0x r) 0)
    else Z.min (2 ^ 63 - 1) (hex_digits (skip_0x (c :: r)) 0)
  end.

(** ** The parser *)

Section parser.
(** The contents of a file that opens. *)
Variable fopen : bytes -> option bytes.
Variable is_directory : bytes -> bool.
(** The reader of shared objects, from ELF or JSON. *)
Variable ulp_so_info_open : bytes -> option ulp_so_info.
(** Whether the allocators succeed. *)
Variables calloc realloc : bool.
Variables container_override target_override : option bytes.

(** The checks before a file is opened. *)
Definition check_file (path : bytes) (not_found not_file : string) : dsc unit :=
  (if fopen path is Some _ then ret tt else parse_error not_found);;;
  if is_directory path then parse_error not_file else ret tt.

(** [while (ulp->so_filename == NULL)] *)
Fixpoint find_container (fuel : nat) : dsc unit :=
  match fuel with
  | O => nofuel
  | S fuel =>
    let! first := getline in
    if zlen first =? 0 then parse_error "Unable to parse description file: is empty"
    else if first_char first =? 10 then find_container fuel
    else if first_char first =? 33 then read_comment realloc first;;; find_container fuel
    else
      let path := match container_override with Some p => p | None => chomp first end in
      (if container_override is None then
         if calloc then ret tt else parse_error "unable to allocate memory for patch so filename"
       else ret tt);;;
      update_ulp (fun u => set_so_filename u (Some path));;;
      check_file path "livepatch container file not found" "livepatch container path is not a file"
  end.

Definition open_container : dsc unit :=
  let! path := gets (fun s => default [] (so_filename (ulp s))) in
  match ulp_so_info_open path with
  | Some info => modify (fun s => set_container s (Some info))
  | None => parse_error "Unsupported container format. Check if it is a valid ELF or JSON."
  end.

Definition add_dependency (filename : bytes) : dsc Z :=
  match fopen filename with
  | None => ret 0
  | Some [] => ret 0
  | Some (patch_type :: r) =>
    if negb (patch_type =? 1) then ret 0
    else if zlen r <? 32 then ret 0
    else
      update_ulp (fun u =>
        {| patch_id := patch_id u; so_filename := so_filename u; so_handler := so_handler u; objs := objs u;
           ndeps := match deps u with [] => 1 | _ => u32 (ndeps u + 1) end;
           deps := {| dep_id := take 32 r; patch_id_check := 0 |} :: deps u;
           nrefs := nrefs u; refs := refs u; type := type u; comments := comments u |});;;
      ret 1
  end.

(** [while (n > 0 && first[0] == '*')]: the first line that is not one. *)
Fixpoint dep_lines (fuel : nat) (first : bytes) : dsc bytes :=
  match fuel with
  | O => nofuel
  | S fuel =>
    if (zlen first =? 0) || negb (first_char first =? 42) then ret first
    else
      (if calloc then ret tt else parse_error "unable to allocate memory for dependency.");;;
      let! ok := add_dependency (drop 1 (chomp first)) in
      (if ok =? 0 then parse_error "unable to add dependency to livepatch metadata." else ret tt);;;
      let! first := getline in
      dep_lines fuel first
  end.

(** A line that starts with [@]. *)
Definition object_line (first : bytes) : dsc unit :=
  let! s := gets (fun s => s) in
  (if objs (ulp s) is Some _ then
     parse_error "duplicated target object. Libpulp patches 1 shared object per patch\n"
   else ret tt);;;
  set_col (col s + 1);;;
  (if calloc then ret tt else parse_error "unable to allocate memory for parsing ulp object.");;;
  update_ulp (fun u => set_objs u (Some zero_object));;;
  let path := match target_override with Some p => p | None => drop 1 (chomp first) end in
  (if PATH_MAX <=? zlen path then undef else ret tt);;;
  modify (fun s => set_target s (target s) path);;;
  check_file path "unable to open target file" "target path is not a file";;;
  match ulp_so_info_open path with
  | None => parse_error "Unsupported target format. Check if it is a valid ELF or JSON."
  | Some info =>
    modify (fun s => set_target s (Some info) path);;;
    update_ulp (fun u => set_objs u (Some (set_obj_name zero_object (so_name info))))
  end.

Definition add_ref (r : ulp_reference) : dsc unit :=
  update_ulp (fun u => set_nrefs (set_refs u (r :: refs u)) (u32 (nrefs u + 1))).

(** A line that starts with [#], without its newline. [strchr] that finds
    nothing gives NULL, which is written through. *)
Definition reference_line (first : bytes) : dsc unit :=
  set_col 2;;;
  (if calloc then ret tt else parse_error "unable to allocate memory");;;
  let tls := nth 1 first 0 =? 37 in
  let third := if tls then drop 2 first else drop 1 first in
  (if tls then set_col 3 else ret tt);;;
  let! s := gets (fun s => s) in
  match strchr_colon third with
  | None => undef
  | Some (tname, rest) =>
    match strchr_colon rest with
    | None =>
      match target s with
      | None => undef
      | Some t =>
        match get_symbol_with_name t tname with
        | None => parse_error "symbol %s is not present in %s"
        | Some new_sym =>
          set_col ((if tls then 3 else 2) + zlen tname + 1);;;
          match container s with
          | None => undef
          | Some c =>
            match get_symbol_with_name c rest with
            | None => parse_error "symbol %s is not present in %s"
            | Some old_sym =>
              add_ref {| target_name := tname; reference_name := rest; target_offset := sym_offset new_sym;
                         patch_offset := sym_offset old_sym; tls := tls |}
            end
          end
        end
      end
    | Some (rname, rest) =>
      match strchr_colon rest with
      | None => undef
      | Some (toff, poff) =>
        add_ref {| target_name := tname; reference_name := rname; target_offset := u64 (strtol16 toff);
                   patch_offset := u64 (strtol16 poff); tls := tls |}
      end
    end
  end.

Definition add_unit (u : ulp_unit) (o : ulp_object) : ulp_object :=
  {| build_id_len := build_id_len o; build_id_check := build_id_check o; build_id := build_id o;
     obj_name := obj_name o; nunits := u32 (nunits o + 1); units := units o ++ [u] |}.

(** A line with the names of the replaced and of the replacing function, without
    its newline. When [strtok] passes over a colon, [first] points into the
    line, and is freed. *)
Definition function_line (first : bytes) : dsc unit :=
  match rev first with
  | [] => undef
  | last :: _ =>
    if last =? 58 then set_col (zlen first);;; parse_error "expected target variable or offset"
    else
      let '(skipped, old, rest) := strtok_colon first in
      let '(skipped2, new, _) := strtok_colon rest in
      let! s := gets (fun s => s) in
      match skipped, old with
      | O, Some old =>
        match target s, container s with
        | Some t, Some c =>
          if get_symbol_with_name t old is None then parse_error "symbol %s is not present in %s"
          else
            match new with
            | None => parse_error "expected ':' token and target variable or offset"
            | Some new =>
              set_col (zlen old + 1 + Z.of_nat skipped2 + 1);;;
              if get_symbol_with_name c new is None then parse_error "symbol %s is not present in %s"
              else if negb calloc then parse_error "unable to allocate memory for parsing ulp units."
              else
                update_ulp (fun u =>
                  set_objs u (option_map (add_unit {| old_fname := old; new_fname := new; old_faddr := 0 |}) (objs u)))
            end
        | _, _ => undef
        end
      | _, _ => undef
      end
  end.

(** The body of [while (n > 0)]. *)
Definition body_line (first : bytes) : dsc unit :=
  if first_char first =? 10 then ret tt
  else if first_char first =? 33 then read_comment realloc first
  else if first_char first =? 64 then object_line first
  else
    let! s := gets (fun s => s) in
    if objs (ulp s) is None then parse_error "patch description does not define shared object for patching."
    else if first_char first =? 35 then reference_line (chomp first)
    else function_line (chomp first).

Fixpoint body_lines (fuel : nat) (first : bytes) : dsc unit :=
  match fuel with
  | O => nofuel
  | S fuel =>
    if zlen first =? 0 then ret tt
    else body_line first;;; let! first := getline in body_lines fuel first
  end.

Definition parse_lines (fuel : nat) : dsc unit :=
  find_container fuel;;;
  open_container;;;
  let! first := getline in
  let! first := dep_lines fuel first in
  body_lines fuel first.

Definition dsc_init (content : bytes) : dstate :=
  {| file := content; line := 0; col := 0; ulp := zero_metadata; d_comments := []; cur_comment_pos := 0;
     cur_comment_size := 0; container := None; target := None; target_path := [] |}.

(** What the caller gets: the patch and [*info], or the message printed. *)
Definition parse_description (filename : bytes) : res parse_failure dstate :=
  match fopen filename with
  | None => Err {| at_line := 0; at_col := 0; why := "Unable to open description file" |}
  | Some content =>
    match parse_lines (S (S (length content))) (dsc_init content) with
    | (Ok _, s) => Ok s
    | (Err e, _) => Err e
    | (Ub, _) => Ub
    | (NoFuel, _) => NoFuel
    end
  end.
End parser.

(** ** Descriptions, abstractly *)

Inductive item :=
| IBlank
| IComment (text : bytes)
| IUnit (old new : bytes)
| IRef (tls : bool) (tname rname : bytes)
| IRefAt (tls : bool) (tname rname : bytes) (toff poff : Z).

Record description := {
  dsc_head : list item;   (** blank lines and comments *)
  dsc_container : bytes;
  dsc_target : bytes;
  dsc_items : list item }.

Definition tls_mark (tls : bool) : bytes := if tls then [37] else [].

(** A line without its newline. *)
Definition print_item (i : item) : bytes :=
  match i with
  | IBlank => []
  | IComment t => [33] ++ t
  | IUnit old new => old ++ [58] ++ new
  | IRef tls t r => [35] ++ tls_mark tls ++ t ++ [58] ++ r
  | IRefAt tls t r x y => [35] ++ tls_mark tls ++ t ++ [58] ++ r ++ [58] ++ hex_str 16 x ++ [58] ++ hex_str 16 y
  end.

Definition print_items (l : list item) : bytes := concat (map (fun i => print_item i ++ [10]) l).

Definition print_description (d : description) : bytes :=
  print_items (dsc_head d) ++ dsc_container d ++ [10] ++ [64] ++ dsc_target d ++ [10] ++ print_items (dsc_items d).

(** A name of a file or of a symbol. *)
Definition name_char (c : Z) : Prop := c <> 0 /\ c <> 10 /\ c <> 58.
Definition name (s : bytes) : Prop := s <> [] /\ Forall name_char s.
Definition plain_char (c : Z) : Prop := c <> 0 /\ c <> 10.

(** What an item does to the patch, given the symbols of the target and of the
    container; [None] when a symbol is missing. *)
Definition offset_of (info : ulp_so_info) (sym : bytes) : option Z :=
  option_map sym_offset (get_symbol_with_name info sym).

Definition apply_item (c t : ulp_so_info) (i : item) (u : ulp_metadata) : option ulp_metadata :=
  match i with
  | IBlank | IComment _ => Some u
  | IUnit old new =>
    match offset_of t old, offset_of c new, objs u with
    | Some _, Some _, Some o =>
      Some (set_objs u (Some (add_unit {| old_fname := old; new_fname := new; old_faddr := 0 |} o)))
    | _, _, _ => None
    end
  | IRef tls tname rname =>
    match offset_of t tname, offset_of c rname with
    | Some x, Some y =>
      Some (set_nrefs (set_refs u ({| target_name := tname; reference_name := rname; target_offset := x;
                                      patch_offset := y; tls := tls |} :: refs u)) (u32 (nrefs u + 1)))
    | _, _ => None
    end
  | IRefAt tls tname rname x y =>
    Some (set_nrefs (set_refs u ({| target_name := tname; reference_name := rname; target_offset := x;
                                    patch_offset := y; tls := tls |} :: refs u)) (u32 (nrefs u + 1)))
  end.

Fixpoint apply_items (c t : ulp_so_info) (l : list item) (u : ulp_metadata) : option ulp_metadata :=
  match l with
  | [] => Some u
  | i :: l => match apply_item c t i u with Some u => apply_items c t l u | None => None end
  end.

(** Items that print as the parser expects them. *)
Definition item_ok (i : item) : Prop :=
  match i with
  | IBlank => True
  | IComment t => Forall (fun c => c <> 10) t /\ zlen t + 4 < COMMENT_BLOCK
  | IUnit old new => name old /\ name new /\ ~ In (first_char old) [33; 64; 35]
  | IRef tls t r => name t /\ name r /\ (tls = false -> first_char t <> 37)
  | IRefAt tls t r x y =>
    name t /\ name r /\ (tls = false -> first_char t <> 37) /\ 0 <= x < 2 ^ 63 /\ 0 <= y < 2 ^ 63
  end.

(** ** Lemmas on lines and tokens *)

Lemma split_line_ok l rest : Forall (fun c => c <> 10) l -> split_line (l ++ 10 :: rest) = (l ++ [10], rest).
Proof.
  induction 1 as [|c l Hc _ IH]; [done|]. cbn [app split_line]. by rewrite (proj2 (Z.eqb_neq _ _) Hc), IH.
Qed.

Lemma chomp_ok l : no_nul l -> chomp (l ++ [10]) = l.
Proof. intros Hl. unfold chomp. rewrite rev_app_distr. cbn. rewrite rev_involutive. by apply cstr_id. Qed.

Lemma strchr_ok a b : Forall (fun c => c <> 58) a -> strchr_colon (a ++ 58 :: b) = Some (a, b).
Proof.
  induction 1 as [|c a Hc _ IH]; [done|]. cbn [app strchr_colon]. by rewrite (proj2 (Z.eqb_neq _ _) Hc), IH.
Qed.

Lemma strchr_none a : Forall (fun c => c <> 58) a -> strchr_colon a = None.
Proof. induction 1 as [|c a Hc _ IH]; [done|]. cbn [strchr_colon]. by rewrite (proj2 (Z.eqb_neq _ _) Hc), IH. Qed.

Lemma skip_none a : Forall (fun c => c <> 58) a -> forall b, a <> [] -> skip_colons (a ++ b) = (O, a ++ b).
Proof. intros Ha b Hne. destruct a as [|c a]; [done|]. inversion_clear Ha. cbn. by rewrite (proj2 (Z.eqb_neq _ _)). Qed.

Lemma strtok_first a b : Forall (fun c => c <> 58) a -> a <> [] -> strtok_colon (a ++ 58 :: b) = (O, Some a, b).
Proof.
  intros Ha Hne. unfold strtok_colon. rewrite skip_none, strchr_ok by done. by destruct a.
Qed.

Lemma strtok_last a : Forall (fun c => c <> 58) a -> a <> [] -> strtok_colon a = (O, Some a, []).
Proof.
  intros Ha Hne. unfold strtok_colon. pose proof (skip_none a Ha [] Hne) as E. rewrite app_nil_r in E.
  rewrite E, strchr_none by done. by destruct a.
Qed.

Lemma hex_str_char n v : Forall (fun c => exists d, 0 <= d < 16 /\ c = hex_char d) (hex_str n v).
Proof.
  revert v. induction n as [|n IH]; intros v; cbn [hex_str]; [constructor|].
  apply Forall_app. split; [done|]. constructor; [|done]. exists (v mod 16). split; [|done].
  apply Z.mod_pos_bound. lia.
Qed.

Lemma hex_digits_app a c acc : Forall (fun c => exists d, 0 <= d < 16 /\ c = hex_char d) a ->
  hex_digits (a ++ [c]) acc = match hex_digit c with Some d => 16 * hex_digits a acc + d | None => hex_digits a acc end.
Proof.
  intros Ha. revert acc. induction Ha as [|x a (d & Hd & ->) _ IH]; intros acc; cbn [app hex_digits]; [done|].
  by rewrite hex_digit_char, IH.
Qed.

Lemma hex_digits_str n v : 0 <= v < 16 ^ Z.of_nat n -> hex_digits (hex_str n v) 0 = v.
Proof.
  revert v. induction n as [|n IH]; intros v Hv.
  - change (16 ^ Z.of_nat 0) with 1 in Hv. simpl. lia.
  - rewrite Nat2Z.inj_succ, Z.pow_succ_r in Hv by lia. cbn [hex_str].
    rewrite hex_digits_app by apply hex_str_char.
    rewrite hex_digit_char by (apply Z.mod_pos_bound; lia).
    rewrite IH by (split; [apply Z.div_pos; lia|apply Z.div_lt_upper_bound; lia]).
    pose proof (Z.div_mod v 16). lia.
Qed.

Lemma hex_char_range d : 0 <= d < 16 -> 48 <= hex_char d <= 57 \/ 97 <= hex_char d <= 102.
Proof. intros Hd. unfold hex_char. destruct (Z.ltb_spec d 10); lia. Qed.

Lemma strtol_hex v : 0 <= v < 2 ^ 63 -> strtol16 (hex_str 16 v) = v.
Proof.
  intros Hv. pose proof (hex_digits_str 16 v) as E. pose proof (hex_str_char 16 v) as Hc.
  change (16 ^ Z.of_nat 16) with (2 ^ 64) in E. specialize (E ltac:(lia)).
  assert (Hl : (2 <= length (hex_str 16 v))%nat) by (cbn [hex_str]; rewrite !length_app; simpl; lia).
  destruct (hex_str 16 v) as [|c0 [|c1 r]] eqn:Es; [simpl in Hl; lia|simpl in Hl; lia|].
  inversion_clear Hc as [|? ? (d0 & Hd0 & H0) Hc']. inversion_clear Hc' as [|? ? (d1 & Hd1 & H1) _].
  pose proof (hex_char_range d0 Hd0) as R0. pose proof (hex_char_range d1 Hd1) as R1. rewrite <- H0 in R0. rewrite <- H1 in R1.
  unfold strtol16. cbn [skip_spaces]. replace (isspace c0) with false by (unfold isspace; lia).
  replace (c0 =? 45) with false by lia. replace (c0 =? 43) with false by lia.
  assert (Ex : skip_0x (c0 :: c1 :: r) = c0 :: c1 :: r).
  { destruct r as [|d r]; [done|]. cbn [skip_0x]. replace ((c1 =? 120) || (c1 =? 88)) with false by lia.
    by rewrite andb_false_r. }
  rewrite Ex, E. lia.
Qed.

(** ** A printed item is parsed to its effect *)

Lemma name_no_nul s : Forall name_char s -> no_nul s.
Proof. apply Forall_impl. unfold name_char. tauto. Qed.
Lemma name_no_newline s : Forall name_char s -> Forall (fun c => c <> 10) s.
Proof. apply Forall_impl. unfold name_char. tauto. Qed.
Lemma name_no_colon s : Forall name_char s -> Forall (fun c => c <> 58) s.
Proof. apply Forall_impl. unfold name_char. tauto. Qed.

Lemma hex_plain n v : Forall name_char (hex_str n v).
Proof.
  eapply Forall_impl; [|apply hex_str_char]. intros c (d & Hd & ->). pose proof (hex_char_range d Hd).
  unfold name_char. lia.
Qed.

Lemma colon_plain : plain_char 58.
Proof. by split. Qed.

Lemma name_plain s : Forall name_char s -> Forall plain_char s.
Proof. apply Forall_impl. unfold name_char, plain_char. tauto. Qed.

(** The characters of a printed item, comments apart. *)
Lemma print_item_plain i : item_ok i -> (forall t, i <> IComment t) -> Forall plain_char (print_item i).
Proof.
  assert (Ht : forall tls, Forall plain_char (tls_mark tls)) by (intros []; repeat constructor; done).
  intros Hi Hc. destruct i as [|t|old new|tls t r|tls t r x y]; cbn [print_item item_ok] in *.
  - constructor.
  - by destruct (Hc t).
  - destruct Hi as ([_ H1] & [_ H2] & _). rewrite !Forall_app. split_and!; auto using name_plain, colon_plain.
  - destruct Hi as ([_ H1] & [_ H2] & _). rewrite !Forall_app. split_and!; auto using name_plain, colon_plain.
    by repeat constructor.
  - destruct Hi as ([_ H1] & [_ H2] & _). rewrite !Forall_app.
    split_and!; auto using name_plain, colon_plain, hex_plain. by repeat constructor.
Qed.

Lemma plain_no_nul s : Forall plain_char s -> no_nul s.
Proof. apply Forall_impl. unfold plain_char. tauto. Qed.

Lemma print_item_no_newline i : item_ok i -> Forall (fun c => c <> 10) (print_item i).
Proof.
  intros Hi. destruct i as [|t| | |] eqn:E; [constructor| |..];
    try (rewrite <- E in *; eapply Forall_impl; [|apply print_item_plain; [done|by subst]]; unfold plain_char; tauto).
  cbn [print_item item_ok] in *. rewrite Forall_app. split; [by repeat constructor|tauto].
Qed.

Definition comments_ok (s : dstate) : Prop :=
  0 <= cur_comment_pos s /\ (cur_comment_pos s < cur_comment_size s \/ cur_comment_pos s = 0 /\ cur_comment_size s = 0).

(** The parts of the state a line of the body may change: the patch, the
    comments and the location. *)
Record same_but (s s' : dstate) : Prop := {
  sb_file : file s' = file s;
  sb_container : container s' = container s;
  sb_target : target s' = target s;
  sb_comments : comments_ok s -> comments_ok s' }.

Lemma read_comment_ok s t : comments_ok s -> zlen t + 4 < COMMENT_BLOCK ->
  exists s', read_comment true ([33] ++ t ++ [10]) s = (Ok tt, s') /\ ulp s' = ulp s /\ same_but s s'.
Proof.
  intros [H0 H1] Hl. pose proof (zlen_nonneg t). unfold read_comment. rewrite !zlen_app. change (zlen [33]) with 1. change (zlen [10]) with 1.
  rewrite andb_false_r.
  destruct (Z.leb_spec (cur_comment_size s) (cur_comment_pos s + (1 + (zlen t + 1) + 1))) as [Hg|Hg].
  - rewrite (proj2 (Z.leb_gt _ _)) by lia. eexists. split; [reflexivity|]. split; [done|].
    split; [done..|]. intros _. unfold comments_ok. cbn. lia.
  - rewrite (proj2 (Z.leb_gt _ _)) by lia. eexists. split; [reflexivity|]. split; [done|].
    split; [done..|]. intros _. unfold comments_ok. cbn. lia.
Qed.

Section items.
Variable fopen : bytes -> option bytes.
Variable is_directory : bytes -> bool.
Variable ulp_so_info_open : bytes -> option ulp_so_info.
Variable target_override : option bytes.
Variables c t : ulp_so_info.

Abbreviation body := (body_line fopen is_directory ulp_so_info_open true true target_override).

Lemma offset_some info sym x : offset_of info sym = Some x ->
  exists y, get_symbol_with_name info sym = Some y /\ sym_offset y = x.
Proof. unfold offset_of. destruct (get_symbol_with_name info sym) as [y|]; [|done]. intros [= <-]. by exists y. Qed.

Lemma function_line_ok old new s o : name old -> name new -> container s = Some c -> target s = Some t ->
  objs (ulp s) = Some o -> offset_of t old <> None -> offset_of c new <> None ->
  exists s', function_line true (old ++ [58] ++ new) s = (Ok tt, s') /\ same_but s s' /\
    ulp s' = set_objs (ulp s) (Some (add_unit {| old_fname := old; new_fname := new; old_faddr := 0 |} o)).
Proof.
  intros [Hne1 H1] [Hne2 H2] Hc Ht Ho Ho1 Ho2. unfold function_line.
  destruct (rev (old ++ [58] ++ new)) as [|z r] eqn:Er.
  { apply (f_equal (@length Z)) in Er. rewrite length_rev, !length_app in Er. simpl in Er. lia. }
  assert (Hz : z <> 58).
  { destruct new as [|z' n' _] using rev_ind; [done|]. rewrite !app_assoc, rev_app_distr in Er. injection Er as <- _.
    apply Forall_app in H2 as [_ H2]. inversion_clear H2 as [|? ? Hz _]. apply Hz. }
  rewrite (proj2 (Z.eqb_neq _ _) Hz). change ([58] ++ new) with (58 :: new).
  rewrite strtok_first, strtok_last by auto using name_no_colon.
  unfold bind at 1, gets at 1. rewrite Ht, Hc.
  destruct (offset_of t old) as [x|] eqn:E1; [|done]. destruct (offset_of c new) as [y|] eqn:E2; [|done].
  apply offset_some in E1 as (sx & E1 & _). apply offset_some in E2 as (sy & E2 & _). rewrite E1.
  unfold bind at 1, set_col, modify at 1. rewrite E2. cbn [negb]. unfold update_ulp, modify.
  eexists. split; [reflexivity|]. split; [by split|]. cbn. by rewrite Ho.
Qed.

Lemma reference_ok tls tname rname s x y : name tname -> name rname -> (tls = false -> first_char tname <> 37) ->
  container s = Some c -> target s = Some t -> offset_of t tname = Some x -> offset_of c rname = Some y ->
  exists s', reference_line true ([35] ++ tls_mark tls ++ tname ++ [58] ++ rname) s = (Ok tt, s') /\ same_but s s' /\
    ulp s' = set_nrefs (set_refs (ulp s) ({| target_name := tname; reference_name := rname; target_offset := x;
                                             patch_offset := y; tls := tls |} :: refs (ulp s))) (u32 (nrefs (ulp s) + 1)).
Proof.
  intros [Hne1 H1] [Hne2 H2] Htls Hc Ht Ho1 Ho2. apply offset_some in Ho1 as (sx & E1 & <-). apply offset_some in Ho2 as (sy & E2 & <-).
  assert (Hmark : (nth 1 ([35] ++ tls_mark tls ++ tname ++ [58] ++ rname) 0 =? 37) = tls).
  { destruct tls; [done|]. destruct tname as [|z tn]; [done|]. apply Z.eqb_neq. by apply Htls. }
  assert (Hthird : (if tls then drop 2 ([35] ++ tls_mark tls ++ tname ++ [58] ++ rname)
                    else drop 1 ([35] ++ tls_mark tls ++ tname ++ [58] ++ rname)) = tname ++ 58 :: rname) by (by destruct tls).
  unfold reference_line. rewrite Hmark, Hthird. rewrite strchr_ok, strchr_none by auto using name_no_colon.
  unfold bind, set_col, modify, gets, ret, add_ref, update_ulp. destruct tls; cbn [target container set_file ulp];
    rewrite Ht, E1; cbn [container set_file]; rewrite Hc, E2; eexists; (split; [reflexivity|]); by split.
Qed.

Lemma reference_at_ok tls tname rname s x y : name tname -> name rname -> (tls = false -> first_char tname <> 37) ->
  0 <= x < 2 ^ 63 -> 0 <= y < 2 ^ 63 ->
  exists s', reference_line true ([35] ++ tls_mark tls ++ tname ++ [58] ++ rname ++ [58] ++ hex_str 16 x ++ [58] ++ hex_str 16 y) s
      = (Ok tt, s') /\ same_but s s' /\
    ulp s' = set_nrefs (set_refs (ulp s) ({| target_name := tname; reference_name := rname; target_offset := x;
                                             patch_offset := y; tls := tls |} :: refs (ulp s))) (u32 (nrefs (ulp s) + 1)).
Proof.
  intros [Hne1 H1] [Hne2 H2] Htls Hx Hy. set (tail := hex_str 16 x ++ [58] ++ hex_str 16 y).
  assert (Hmark : (nth 1 ([35] ++ tls_mark tls ++ tname ++ [58] ++ rname ++ [58] ++ tail) 0 =? 37) = tls).
  { destruct tls; [done|]. destruct tname as [|z tn]; [done|]. apply Z.eqb_neq. by apply Htls. }
  assert (Hthird : (if tls then drop 2 ([35] ++ tls_mark tls ++ tname ++ [58] ++ rname ++ [58] ++ tail)
                    else drop 1 ([35] ++ tls_mark tls ++ tname ++ [58] ++ rname ++ [58] ++ tail)) =
                   tname ++ 58 :: (rname ++ 58 :: tail)) by (by destruct tls).
  unfold reference_line. rewrite Hmark, Hthird. rewrite !strchr_ok by auto using name_no_colon.
  unfold tail at 1. change ([58] ++ hex_str 16 y) with (58 :: hex_str 16 y).
  rewrite strchr_ok by (apply name_no_colon, hex_plain).
  rewrite !strtol_hex, !wrap_id by (unfold in_u; lia).
  unfold bind, set_col, modify, gets, ret, add_ref, update_ulp.
  destruct tls; eexists; (split; [reflexivity|]); by split.
Qed.

(** The line of an item does to the patch what the item says. *)
Lemma body_item i s o u' : item_ok i -> comments_ok s -> container s = Some c -> target s = Some t ->
  objs (ulp s) = Some o -> apply_item c t i (ulp s) = Some u' ->
  exists s', body (print_item i ++ [10]) s = (Ok tt, s') /\ same_but s s' /\ ulp s' = u' /\ (exists o', objs u' = Some o').
Proof.
  intros Hi Hcs Hc Ht Ho Hu.
  assert (Hch : (forall x, i <> IComment x) -> chomp (print_item i ++ [10]) = print_item i).
  { intros Hn. by apply chomp_ok, plain_no_nul, print_item_plain. }
  destruct i as [|x|old new|tls tn rn|tls tn rn x y]; cbn [apply_item item_ok] in *.
  - injection Hu as <-. exists s. split; [done|]. split; [by split|]. split; [done|by exists o].
  - injection Hu as <-. destruct Hi as [H1 H2]. destruct (read_comment_ok s x Hcs H2) as (s' & E & U & B).
    exists s'. split; [exact E|]. split; [done|]. split; [done|by exists o].
  - destruct Hi as (Hold & Hnew & Hfirst). destruct (offset_of t old) eqn:E1; [|done].
    destruct (offset_of c new) eqn:E2; [|done]. rewrite Ho in Hu. injection Hu as <-.
    destruct (function_line_ok old new s o Hold Hnew Hc Ht Ho) as (s' & E & B & U); [by rewrite E1|by rewrite E2|].
    exists s'. split; [|by split_and!; eauto]. unfold body_line. rewrite Hch by done.
    assert (Hf : first_char (print_item (IUnit old new) ++ [10]) = first_char old) by (destruct Hold as [? _]; by destruct old).
    rewrite Hf. assert (Hnl : first_char old <> 10).
    { destruct Hold as [Hne Hall]. destruct old; [done|]. inversion_clear Hall as [|? ? Hz _]. apply Hz. }
    assert (F : forall k, first_char old = k -> ~ In k [33; 64; 35]) by (intros k <-; done).
    rewrite !(proj2 (Z.eqb_neq _ _)); [|intros X; apply (F _ X); simpl; tauto..|done].
    unfold bind at 1, gets at 1. by rewrite Ho.
  - destruct Hi as (Htn & Hrn & Htls). destruct (offset_of t tn) eqn:E1; [|done]. destruct (offset_of c rn) eqn:E2; [|done].
    injection Hu as <-. destruct (reference_ok tls tn rn s _ _ Htn Hrn Htls Hc Ht E1 E2) as (s' & E & B & U).
    exists s'. split; [|by split_and!; eauto]. unfold body_line. rewrite Hch by done.
    cbn [print_item app first_char nth]. cbn. rewrite Ho. exact E.
  - destruct Hi as (Htn & Hrn & Htls & Hx & Hy). injection Hu as <-.
    destruct (reference_at_ok tls tn rn s x y Htn Hrn Htls Hx Hy) as (s' & E & B & U).
    exists s'. split; [|by split_and!; eauto]. unfold body_line. rewrite Hch by done.
    cbn [print_item app first_char nth]. cbn -[hex_str]. rewrite Ho. exact E.
Qed.
End items.

(** ** A printed description is parsed to what it describes *)

Definition is_space (i : item) : Prop := match i with IBlank | IComment _ => True | _ => False end.

Record description_ok (d : description) : Prop := {
  k_head : Forall (fun i => is_space i /\ item_ok i) (dsc_head d);
  k_container : dsc_container d <> [] /\ Forall plain_char (dsc_container d) /\ first_char (dsc_container d) <> 33;
  k_target : Forall plain_char (dsc_target d) /\ zlen (dsc_target d) < PATH_MAX;
  k_items : Forall item_ok (dsc_items d) }.

Lemma print_items_cons i l : print_items (i :: l) = print_item i ++ 10 :: print_items l.
Proof. unfold print_items. cbn [map concat]. by rewrite <- app_assoc. Qed.

Lemma getline_ok l rest s : Forall (fun c => c <> 10) l -> file s = l ++ 10 :: rest ->
  getline s = (Ok (l ++ [10]), set_file s rest (line s + 1) 1).
Proof. intros Hl Hf. unfold getline. by rewrite Hf, split_line_ok. Qed.

Lemma plain_no_newline s : Forall plain_char s -> Forall (fun c => c <> 10) s.
Proof. apply Forall_impl. unfold plain_char. tauto. Qed.

Lemma item_line_nonempty l : (zlen (l ++ [10]) =? 0) = false.
Proof. rewrite zlen_app. change (zlen [10]) with 1. pose proof (zlen_nonneg l). lia. Qed.

Section whole.
Variable fopen : bytes -> option bytes.
Variable is_directory : bytes -> bool.
Variable ulp_so_info_open : bytes -> option ulp_so_info.

Abbreviation lines := (body_lines fopen is_directory ulp_so_info_open true true None).

Lemma lines_S n first : lines (S n) first =
  if zlen first =? 0 then ret tt
  else bind (body_line fopen is_directory ulp_so_info_open true true None first)
         (fun _ => bind getline (fun first => lines n first)).
Proof. done. Qed.

Lemma body_lines_ok c t l : forall n s o u' first, (length l < n)%nat -> Forall item_ok l -> comments_ok s ->
  container s = Some c -> target s = Some t -> objs (ulp s) = Some o -> apply_items c t l (ulp s) = Some u' ->
  split_line (print_items l) = (first, file s) ->
  exists s', lines n first s = (Ok tt, s') /\ ulp s' = u' /\ target s' = Some t.
Proof.
  induction l as [|i l IH]; intros n s o u' first Hn Hl Hcs Hc Ht Ho Hu Hf; destruct n as [|n]; cbn [length] in Hn; try lia.
  - injection Hf as <- _. injection Hu as <-. exists s. by split_and!.
  - apply Forall_cons_iff in Hl as [Hi Hl]. rewrite print_items_cons in Hf.
    rewrite split_line_ok in Hf by by apply print_item_no_newline. injection Hf as <- Hf.
    cbn [apply_items] in Hu. destruct (apply_item c t i (ulp s)) as [u1|] eqn:Eu; [|done].
    destruct (body_item fopen is_directory ulp_so_info_open None c t i s o u1 Hi Hcs Hc Ht Ho Eu)
      as (s1 & E1 & [B1 B2 B3 B4] & U1 & o1 & Ho1).
    cbn [body_lines]. rewrite item_line_nonempty, (bind_ok _ _ _ _ _ E1). unfold bind at 1.
    destruct (split_line (print_items l)) as [first rest] eqn:Es.
    unfold getline. rewrite B1, <- Hf, Es. rewrite <- U1 in Hu. rewrite <- U1 in Ho1.
    eapply (IH n (set_file s1 rest (line s1 + 1) 1)); cbn [container target ulp file set_file]; try done;
      [lia|by apply B4|by rewrite B2|by rewrite B3].
Qed.

Abbreviation head_lines := (find_container fopen is_directory true true None).

(** Blank lines and comments before the container. *)
Lemma find_container_ok l path rest content : forall n s, (length l < n)%nat ->
  Forall (fun i => is_space i /\ item_ok i) l -> comments_ok s ->
  path <> [] -> Forall plain_char path -> first_char path <> 33 ->
  fopen path = Some content -> is_directory path = false ->
  file s = print_items l ++ path ++ 10 :: rest ->
  exists s', head_lines n s = (Ok tt, s') /\ file s' = rest /\ ulp s' = set_so_filename (ulp s) (Some path) /\
    comments_ok s' /\ container s' = container s /\ target s' = target s.
Proof.
  induction l as [|i l IH]; intros n s Hn Hl Hcs Hne Hp Hf Hopen Hdir Hfile; destruct n as [|n]; cbn [length] in Hn; try lia.
  - cbn [find_container]. rewrite (bind_ok _ _ _ _ _ (getline_ok path rest s (plain_no_newline _ Hp) Hfile)).
    rewrite item_line_nonempty. assert (Ef : first_char (path ++ [10]) = first_char path) by (by destruct path).
    rewrite Ef. assert (Hnl : first_char path <> 10).
    { destruct path; [done|]. inversion_clear Hp as [|? ? Hz _]. apply Hz. }
    rewrite !(proj2 (Z.eqb_neq _ _)) by done. rewrite chomp_ok by by apply plain_no_nul.
    unfold bind, update_ulp, modify, check_file, ret. rewrite Hopen, Hdir.
    eexists. split; [reflexivity|]. by split_and!.
  - apply Forall_cons_iff in Hl as [[Hs Hi] Hl]. rewrite print_items_cons, <- app_assoc in Hfile. cbn [app] in Hfile.
    cbn [find_container].
    rewrite (bind_ok _ _ _ _ _ (getline_ok _ _ s (print_item_no_newline i Hi) Hfile)), item_line_nonempty.
    destruct i as [|x| | |]; try done; cbn [print_item] in *.
    + change (first_char ([] ++ [10]) =? 10) with true. cbv iota.
      destruct (IH n (set_file s (print_items l ++ path ++ 10 :: rest) (line s + 1) 1)) as (s' & E & R); try done; [lia|].
      by exists s'.
    + change (first_char (([33] ++ x) ++ [10])) with 33. change (33 =? 10) with false. change (33 =? 33) with true. cbv iota.
      destruct (read_comment_ok (set_file s (print_items l ++ path ++ 10 :: rest) (line s + 1) 1) x) as (s1 & E1 & U1 & [B1 B2 B3 B4]);
        [done|apply Hi|]. rewrite <- app_assoc, (bind_ok _ _ _ _ _ E1).
      destruct (IH n s1) as (s' & E & R1 & R2 & R3 & R4 & R5); try done; [lia|by apply B4|].
      exists s'. split_and!; [done|done|by rewrite R2, U1|done|by rewrite R4, B2|by rewrite R5, B3].
Qed.

(** The patch before its functions and references. *)
Definition dsc_base (d : description) (t : ulp_so_info) : ulp_metadata :=
  set_objs (set_so_filename zero_metadata (Some (dsc_container d))) (Some (set_obj_name zero_object (so_name t))).

Lemma items_length l : (length l <= length (print_items l))%nat.
Proof.
  induction l as [|i l IH]; [done|]. rewrite print_items_cons, length_app. cbn [length]. lia.
Qed.

Lemma parse_printed d filename c t u cc tc : description_ok d ->
  fopen filename = Some (print_description d) ->
  fopen (dsc_container d) = Some cc -> is_directory (dsc_container d) = false -> ulp_so_info_open (dsc_container d) = Some c ->
  fopen (dsc_target d) = Some tc -> is_directory (dsc_target d) = false -> ulp_so_info_open (dsc_target d) = Some t ->
  apply_items c t (dsc_items d) (dsc_base d t) = Some u ->
  exists s, parse_description fopen is_directory ulp_so_info_open true true None None filename = Ok s /\
    ulp s = u /\ target s = Some t.
Proof.
  intros [Hh (Hcn & Hcp & Hcf) [Htp Htl] Hi] Hfile Hc1 Hc2 Hc3 Ht1 Ht2 Ht3 Hu.
  unfold parse_description. rewrite Hfile. set (content := print_description d). set (fuel := S (S (length content))).
  assert (Hlen : (length (dsc_head d) + length (dsc_items d) + 2 < fuel)%nat).
  { unfold fuel, content, print_description. rewrite !length_app. cbn [length].
    pose proof (items_length (dsc_head d)). pose proof (items_length (dsc_items d)). lia. }
  assert (E : exists s, parse_lines fopen is_directory ulp_so_info_open true true None None fuel (dsc_init content) = (Ok tt, s) /\
    ulp s = u /\ target s = Some t); [|by destruct E as (s & -> & Hs); exists s].
  unfold parse_lines.
  destruct (find_container_ok (dsc_head d) (dsc_container d) (([64] ++ dsc_target d) ++ 10 :: print_items (dsc_items d)) cc fuel (dsc_init content))
    as (s1 & E1 & F1 & U1 & C1 & _); try done; [lia|split; [done|by right]|].
  rewrite (bind_ok _ _ _ _ _ E1).
  assert (E2 : open_container ulp_so_info_open s1 = (Ok tt, set_container s1 (Some c))).
  { unfold open_container, bind, gets. rewrite U1. cbn. by rewrite Hc3. }
  rewrite (bind_ok _ _ _ _ _ E2). set (s2 := set_container s1 (Some c)).
  assert (Hline : Forall (fun c => c <> 10) ([64] ++ dsc_target d)) by (constructor; [done|by apply plain_no_newline]).
  rewrite (bind_ok _ _ _ _ _ (getline_ok _ _ s2 Hline F1)). set (s3 := set_file _ _ _ _).
  assert (E3 : forall n, dep_lines fopen true (S n) (([64] ++ dsc_target d) ++ [10]) s3 = (Ok (([64] ++ dsc_target d) ++ [10]), s3)).
  { intros n. cbn [dep_lines]. rewrite item_line_nonempty. done. }
  unfold fuel in *. rewrite (bind_ok _ _ _ _ _ (E3 _)), lines_S, item_line_nonempty.
  set (s4 := set_ulp (set_target (set_file s3 (file s3) (line s3) 2) (Some t) (dsc_target d)) (dsc_base d t)).
  assert (E4 : body_line fopen is_directory ulp_so_info_open true true None (([64] ++ dsc_target d) ++ [10]) s3 = (Ok tt, s4)).
  { unfold body_line. change (first_char (([64] ++ dsc_target d) ++ [10])) with 64. cbn -[object_line app].
    unfold object_line. rewrite chomp_ok by (constructor; [done|by apply plain_no_nul]).
    change (drop 1 ([64] ++ dsc_target d)) with (dsc_target d). rewrite (proj2 (Z.leb_gt _ _)) by done.
    unfold bind, gets, set_col, update_ulp, modify, ret, check_file.
    unfold s3, s2. cbn -[PATH_MAX]. rewrite U1. cbn. rewrite Ht1, Ht2, Ht3. cbn. unfold s4, s3, s2, dsc_base, set_ulp. cbn. by rewrite U1. }
  rewrite (bind_ok _ _ _ _ _ E4). unfold bind at 1.
  destruct (split_line (print_items (dsc_items d))) as [first rest] eqn:Es.
  unfold getline. change (file s4) with (print_items (dsc_items d)). rewrite Es.
  apply (body_lines_ok c t (dsc_items d) _ (set_file s4 rest (line s4 + 1) 1) (set_obj_name zero_object (so_name t)));
    done || lia.
Qed.
End whole.

(** ** Every description is parsed in a bounded number of lines *)

(** A step that does not run out of fuel and does not give back input. *)
Definition advances {A} (m : dsc A) : Prop := forall s,
  (m s).1 <> NoFuel /\ (length (file (m s).2) <= length (file s))%nat.

Lemma advances_ret {A} (a : A) : advances (ret a).
Proof. by intros s. Qed.
Lemma advances_undef {A} : advances (undef : dsc A).
Proof. by intros s. Qed.
Lemma advances_error {A} m : advances (parse_error m : dsc A).
Proof. by intros s. Qed.
Lemma advances_gets {A} (f : dstate -> A) : advances (gets f).
Proof. by intros s. Qed.
Lemma advances_modify f : (forall s, file (f s) = file s) -> advances (modify f).
Proof. intros Hf s. split; [done|]. cbn. by rewrite Hf. Qed.
Lemma advances_bind {A B} (m : dsc A) (k : A -> dsc B) : advances m -> (forall a, advances (k a)) -> advances (bind m k).
Proof.
  intros Hm Hk s. unfold bind. pose proof (Hm s) as [H1 H2]. destruct (m s) as [[a|e| |] s'] eqn:E; cbn [fst snd] in *; try done.
  pose proof (Hk a s') as [H3 H4]. split; [done|lia].
Qed.

Lemma split_line_length l : (length (split_line l).1 + length (split_line l).2 = length l)%nat.
Proof.
  induction l as [|c l IH]; [done|]. cbn [split_line]. destruct (c =? 10); [done|].
  destruct (split_line l) as [a b]. cbn [fst snd length] in *. lia.
Qed.

Lemma getline_length s first s' : getline s = (Ok first, s') ->
  (length first + length (file s') = length (file s))%nat.
Proof.
  unfold getline. pose proof (split_line_length (file s)) as Hl.
  destruct (split_line (file s)) as [a b]. intros [= <- <-]. exact Hl.
Qed.

Lemma advances_comment realloc first : advances (read_comment realloc first).
Proof. intros s. unfold read_comment. destruct (_ && _); [done|]. by destruct (_ <=? _). Qed.

Create HintDb dsc.
#[local] Hint Resolve advances_ret advances_undef advances_error advances_gets advances_bind advances_comment : dsc.

(** Decide every branch of a handler. *)
Ltac advance :=
  repeat first
    [ apply advances_ret | apply advances_undef | apply advances_error | apply advances_gets | apply advances_comment
    | apply advances_modify; intros; reflexivity
    | apply advances_bind; [|intros] | case_goal ].

Section termination.
Variables (fopen : bytes -> option bytes) (is_directory : bytes -> bool) (info : bytes -> option ulp_so_info).
Variables (calloc realloc : bool) (container_override target_override : option bytes).

Lemma advances_object first : advances (object_line fopen is_directory info calloc target_override first).
Proof. unfold object_line, set_col, update_ulp, check_file. advance. Qed.

Lemma advances_reference first : advances (reference_line calloc first).
Proof. unfold reference_line, set_col, add_ref, update_ulp. advance. Qed.

Lemma advances_function first : advances (function_line calloc first).
Proof. unfold function_line, set_col, update_ulp. advance. Qed.

Lemma advances_body first : advances (body_line fopen is_directory info calloc realloc target_override first).
Proof.
  unfold body_line. advance; auto using advances_object, advances_reference, advances_function.
Qed.

(** The loops have fuel for the input that is left. *)
Definition bounded {A} (m : dsc A) (s : dstate) : Prop :=
  (m s).1 <> NoFuel /\ (length (file (m s).2) <= length (file s))%nat.

Lemma bounded_bind {A B} (m : dsc A) (k : A -> dsc B) s : bounded m s ->
  (forall a s', m s = (Ok a, s') -> bounded (k a) s') -> bounded (bind m k) s.
Proof.
  unfold bounded, bind. intros [H1 H2] Hk. destruct (m s) as [[a|e| |] s'] eqn:E; cbn [fst snd] in *; try done.
  destruct (Hk a s' eq_refl) as [H3 H4]. split; [done|lia].
Qed.

Lemma advances_bounded {A} (m : dsc A) s : advances m -> bounded m s.
Proof. intros Hm. apply Hm. Qed.

Lemma getline_bounded s : bounded getline s.
Proof.
  unfold bounded. destruct (getline s) as [r s'] eqn:E. unfold getline in E. destruct (split_line (file s)) as [a b] eqn:Es.
  pose proof (split_line_length (file s)) as Hl. rewrite Es in Hl. cbn [fst snd] in Hl.
  injection E as <- <-. cbn. split; [done|lia].
Qed.

Lemma find_container_bounded n : forall s, (length (file s) < n)%nat ->
  bounded (find_container fopen is_directory calloc realloc container_override n) s.
Proof.
  induction n as [|n IH]; intros s Hn; [lia|]. cbn [find_container].
  apply bounded_bind; [apply getline_bounded|]. intros first s1 E1. apply getline_length in E1.
  destruct (zlen first =? 0) eqn:Ez; [by apply advances_bounded, advances_error|]. apply Z.eqb_neq in Ez.
  unfold zlen in Ez. destruct (first_char first =? 10); [apply IH; lia|].
  destruct (first_char first =? 33).
  - apply bounded_bind; [by apply advances_bounded, advances_comment|]. intros [] s2 E2. apply IH.
    pose proof (advances_comment realloc first s1) as [_ H]. rewrite E2 in H. cbn [snd] in H. lia.
  - apply advances_bounded. unfold update_ulp, check_file. advance.
Qed.

Lemma advances_dependency name : advances (add_dependency fopen name).
Proof. unfold add_dependency, update_ulp. advance. Qed.

(** A line that was read takes a turn. *)
Definition turn (first : bytes) : nat := if zlen first =? 0 then 0 else 1.

Lemma turn_length (first : bytes) a b : (length first + a = b)%nat -> (turn first + a <= b)%nat.
Proof. unfold turn, zlen. destruct (Z.eqb_spec (Z.of_nat (length first)) 0); lia. Qed.

Lemma dep_lines_bounded n : forall first s, (turn first + length (file s) < n)%nat -> bounded (dep_lines fopen calloc n first) s.
Proof.
  induction n as [|n IH]; intros first s Hn; [lia|]. cbn [dep_lines].
  unfold turn in Hn. destruct (zlen first =? 0) eqn:Ez; [by apply advances_bounded, advances_ret|]. cbn [orb].
  destruct (negb _); [by apply advances_bounded, advances_ret|].
  apply bounded_bind; [destruct calloc; apply advances_bounded; auto with dsc|]. intros [] s1 E1.
  assert (H1 : s1 = s) by (destruct calloc; injection E1; done). subst s1.
  apply bounded_bind; [apply advances_bounded, advances_dependency|]. intros ok s2 E2.
  pose proof (advances_dependency (drop 1 (chomp first)) s) as [_ H2]. rewrite E2 in H2. cbn [snd] in H2.
  apply bounded_bind; [destruct (ok =? 0); apply advances_bounded; auto with dsc|]. intros [] s3 E3.
  assert (H3 : s3 = s2) by (destruct (ok =? 0); injection E3; done). subst s3.
  apply bounded_bind; [apply getline_bounded|]. intros first' s4 E4. apply getline_length in E4.
  apply IH. pose proof (turn_length _ _ _ E4). lia.
Qed.

Lemma body_lines_bounded n : forall first s, (turn first + length (file s) < n)%nat ->
  bounded (body_lines fopen is_directory info calloc realloc target_override n first) s.
Proof.
  induction n as [|n IH]; intros first s Hn; [lia|]. cbn [body_lines].
  unfold turn in Hn. destruct (zlen first =? 0) eqn:Ez; [by apply advances_bounded, advances_ret|].
  apply bounded_bind; [by apply advances_bounded, advances_body|]. intros [] s1 E1.
  pose proof (advances_body first s) as [_ H1]. rewrite E1 in H1. cbn [snd] in H1.
  apply bounded_bind; [apply getline_bounded|]. intros first' s2 E2. apply getline_length in E2.
  apply IH. pose proof (turn_length _ _ _ E2). lia.
Qed.
End termination.

(** C35. The parser of descriptions ends on every file, whatever the file system,
    the allocators and the overrides: its loops take at most one turn for each
    line. *)
Theorem parse_description_terminates fopen is_directory info calloc realloc container_override target_override filename :
  parse_description fopen is_directory info calloc realloc container_override target_override filename <> NoFuel.
Proof.
  unfold parse_description. destruct (fopen filename) as [content|]; [|done].
  set (n := S (S (length content))).
  assert (B : bounded (parse_lines fopen is_directory info calloc realloc container_override target_override n) (dsc_init content)).
  { unfold parse_lines. assert (H0 : (length (file (dsc_init content)) < n)%nat) by (cbn; unfold n; lia).
    pose proof (find_container_bounded fopen is_directory calloc realloc container_override n _ H0) as B1.
    apply bounded_bind; [done|]. intros [] s1 E1. destruct B1 as [_ B1]. rewrite E1 in B1. cbn [snd] in B1.
    apply bounded_bind; [apply advances_bounded; unfold open_container; advance|]. intros [] s2 E2.
    assert (A2 : advances (open_container info)) by (unfold open_container; advance).
    pose proof (A2 s1) as [_ H2]. rewrite E2 in H2. cbn [snd] in H2.
    apply bounded_bind; [apply getline_bounded|]. intros first s3 E3. apply getline_length in E3.
    pose proof (turn_length _ _ _ E3) as T3.
    pose proof (dep_lines_bounded fopen calloc n first s3 ltac:(unfold n; lia)) as B4.
    apply bounded_bind; [done|]. intros first' s4 E4. destruct B4 as [_ B4]. rewrite E4 in B4. cbn [snd] in B4.
    change (file (dsc_init content)) with content in *. apply body_lines_bounded. unfold turn. destruct (_ =? _); unfold n; lia. }
  destruct B as [B _]. by destruct (parse_lines _ _ _ _ _ _ _ _ _) as [[] ?].
Qed.

(** C17. Round trip of descriptions: a description of comments, a container, a
    target and items whose symbols the container and the target define, printed
    line by line, is parsed to the patch it describes: the functions in their
    order, the references in reverse order with the offsets of the symbols or
    those written in the line, and the names of the container and the target. *)
Theorem dsc_roundtrip fopen is_directory info d filename c t u cc tc (Hok : description_ok d)
    (Hfile : fopen filename = Some (print_description d))
    (Hcontainer : fopen (dsc_container d) = Some cc /\ is_directory (dsc_container d) = false /\ info (dsc_container d) = Some c)
    (Htarget : fopen (dsc_target d) = Some tc /\ is_directory (dsc_target d) = false /\ info (dsc_target d) = Some t)
    (Hsyms : apply_items c t (dsc_items d) (dsc_base d t) = Some u) :
  exists s, parse_description fopen is_directory info true true None None filename = Ok s /\
    ulp s = u /\ target s = Some t.
Proof.
  destruct Hcontainer as (H1 & H2 & H3), Htarget as (H4 & H5 & H6). by eapply parse_printed.
Qed.

(** A line with functions the libraries do not define stops the parser with a
    message that points to the place: column 1 for a function missing from the
    target, the start of the second name for one missing from the container. *)
Theorem unknown_function fopen is_directory info calloc realloc target_override old new s c t o
    (Hnames : name old /\ name new) (Hfirst : ~ In (first_char old) [33; 64; 35])
    (Hstate : container s = Some c /\ target s = Some t /\ objs (ulp s) = Some o) :
  let line_of := body_line fopen is_directory info calloc realloc target_override (old ++ [58] ++ new ++ [10]) in
  (get_symbol_with_name t old = None ->
     (line_of s).1 = Err {| at_line := line s; at_col := col s; why := "symbol %s is not present in %s" |}) /\
  (get_symbol_with_name t old <> None -> get_symbol_with_name c new = None ->
     (line_of s).1 = Err {| at_line := line s; at_col := zlen old + 2; why := "symbol %s is not present in %s" |}).
Proof.
  destruct Hnames as [Hold Hnew], Hstate as (Hc & Ht & Ho).
  assert (Hi : item_ok (IUnit old new)) by done.
  pose proof (chomp_ok _ (plain_no_nul _ (print_item_plain _ Hi ltac:(done)))) as Hch.
  cbn [print_item] in Hch. rewrite <- !app_assoc in Hch.
  assert (Hf : first_char (old ++ [58] ++ new ++ [10]) = first_char old) by (destruct Hold as [? _]; by destruct old).
  assert (Hnl : first_char old <> 10).
  { destruct Hold as [Hne Hall]. destruct old; [done|]. inversion_clear Hall as [|? ? Hz _]. apply Hz. }
  assert (F : forall k, first_char old = k -> ~ In k [33; 64; 35]) by (intros k <-; done).
  assert (E : body_line fopen is_directory info calloc realloc target_override (old ++ [58] ++ new ++ [10]) s =
    function_line calloc (old ++ [58] ++ new) s).
  { unfold body_line. rewrite Hf, Hch. rewrite !(proj2 (Z.eqb_neq _ _)); [|intros X; apply (F _ X); simpl; tauto..|done].
    unfold bind, gets. by rewrite Ho. }
  cbv zeta. rewrite E. destruct Hold as [Hne1 H1], Hnew as [Hne2 H2]. unfold function_line.
  destruct (rev (old ++ [58] ++ new)) as [|z r] eqn:Er.
  { apply (f_equal (@length Z)) in Er. rewrite length_rev, !length_app in Er. simpl in Er. lia. }
  assert (Hz : z <> 58).
  { destruct new as [|z' n' _] using rev_ind; [done|]. rewrite !app_assoc, rev_app_distr in Er. injection Er as <- _.
    apply Forall_app in H2 as [_ H2]. inversion_clear H2 as [|? ? Hz _]. apply Hz. }
  rewrite (proj2 (Z.eqb_neq _ _) Hz). change ([58] ++ new) with (58 :: new).
  rewrite strtok_first, strtok_last by auto using name_no_colon.
  unfold bind, gets, set_col, modify, parse_error. rewrite Ht, Hc. split.
  - by intros ->.
  - intros Hs Hn. destruct (get_symbol_with_name t old); [|done]. rewrite Hn. cbn. do 2 f_equal. lia.
Qed.

Lemma strtok_skips s : (strtok_colon (58 :: s)).1.1 <> O.
Proof.
  unfold strtok_colon. cbn [skip_colons]. change (58 =? 58) with true. cbv iota.
  destruct (skip_colons s) as [k [|c r]]; [done|]. by destruct (strchr_colon (c :: r)) as [[? ?]|].
Qed.

(** Lines the parser cannot survive, in any state with a target: a reference
    without a colon (the NULL of [strchr] is written through), and a pair of
    functions that starts with a colon ([first] then points into the line and is
    freed). *)
Theorem malformed_lines_crash fopen is_directory info calloc realloc target_override l s o
    (Hplain : Forall plain_char l) (Hobj : objs (ulp s) = Some o) (Hcalloc : calloc = true) :
  (Forall (fun c => c <> 58) l ->
     (body_line fopen is_directory info calloc realloc target_override ([35] ++ l ++ [10]) s).1 = Ub) /\
  (last l 0 <> 58 -> l <> [] ->
     (body_line fopen is_directory info calloc realloc target_override ([58] ++ l ++ [10]) s).1 = Ub).
Proof.
  subst calloc. split.
  - intros Hl. unfold body_line. change (first_char ([35] ++ l ++ [10])) with 35.
    change (35 =? 10) with false. change (35 =? 33) with false. change (35 =? 64) with false. change (35 =? 35) with true. cbv iota.
    unfold bind at 1, gets at 1. rewrite Hobj.
    rewrite (app_assoc [35] l [10]), chomp_ok by (constructor; [done|by apply plain_no_nul]).
    unfold reference_line, bind, set_col, modify, ret, gets.
    assert (H1 : Forall (fun c => c <> 58) (drop 1 ([35] ++ l))) by done.
    assert (H2 : Forall (fun c => c <> 58) (drop 2 ([35] ++ l))) by (by apply (Forall_drop _ 1)).
    destruct (nth 1 ([35] ++ l) 0 =? 37); by rewrite strchr_none.
  - intros Hlast Hne. unfold body_line. change (first_char ([58] ++ l ++ [10])) with 58.
    change (58 =? 10) with false. change (58 =? 33) with false. change (58 =? 64) with false. change (58 =? 35) with false. cbv iota.
    unfold bind at 1, gets at 1. rewrite Hobj.
    rewrite (app_assoc [58] l [10]), chomp_ok by (constructor; [done|by apply plain_no_nul]).
    destruct l as [|z l' _] using rev_ind; [done|]. rewrite last_last in Hlast. unfold function_line.
    rewrite app_assoc, rev_app_distr. cbn [rev app]. rewrite (proj2 (Z.eqb_neq _ _) Hlast).
    pose proof (strtok_skips (l' ++ [z])) as Hk. destruct (strtok_colon (58 :: l' ++ [z])) as [[k old] rest].
    destruct (strtok_colon rest) as [[k2 new] rest2]. cbn [fst] in Hk. by destruct k.
Qed.

(** Of the first comment of a description, the byte before the terminator is
    never written: the line of [n] bytes leaves [n - 1] bytes of text, and the
    terminator at [n]. *)
Theorem comment_gap t s (Ht : Forall plain_char t) (Hl : zlen t + 4 < COMMENT_BLOCK)
    (Hfirst : d_comments s = [] /\ cur_comment_pos s = 0 /\ cur_comment_size s = 0) :
  exists s', read_comment true ([33] ++ t ++ [10]) s = (Ok tt, s') /\
    take (length t + 3) (d_comments s') = map Some (t ++ [10]) ++ [None; Some 0].
Proof.
  destruct Hfirst as (Hd & Hp & Hsz). pose proof (zlen_nonneg t). unfold read_comment. rewrite Hd, Hp, Hsz, !zlen_app.
  change (zlen [33]) with 1. change (zlen [10]) with 1. rewrite (proj2 (Z.leb_le _ _)) by lia. cbn [andb negb].
  rewrite (proj2 (Z.leb_gt _ _)) by lia. eexists. split; [reflexivity|]. cbn [d_comments set_comments].
  assert (HN : zlen t + 3 <= Z.of_nat (Z.to_nat (0 + COMMENT_BLOCK))) by (rewrite Z2Nat.id; lia).
  revert HN. generalize (Z.to_nat (0 + COMMENT_BLOCK)) as N. intros N HN. change (length (@nil (option Z))) with 0%nat.
  rewrite Nat.sub_0_r. unfold zlen in HN.
  assert (Es : strncpy (drop 1 ([33] ++ t ++ [10])) (length ([33] ++ t ++ [10]) - 1) = t ++ [10]).
  { change (drop 1 ([33] ++ t ++ [10])) with (t ++ [10]). unfold strncpy.
    rewrite cstr_id by (apply Forall_app; split; [by apply plain_no_nul|by repeat constructor]).
    rewrite !length_app. cbn [length]. rewrite take_ge by (rewrite length_app; simpl; lia).
    rewrite length_app. cbn [length]. replace (1 + (length t + 1) - 1 - (length t + 1))%nat with 0%nat by lia. apply app_nil_r. }
  rewrite Es. clear Es. change (Z.to_nat 0) with 0%nat. cbn [app Nat.add length].
  replace N with (length t + 1 + (1 + (1 + (N - (length t + 3)))))%nat by lia.
  rewrite !replicate_add. set (tail := replicate (N - (length t + 3)) None).
  assert (E1 : splice 0 (map Some (t ++ [10])) (replicate (length t) None ++ replicate 1 None ++ replicate 1 None ++ replicate 1 None ++ tail)
     = map Some (t ++ [10]) ++ [None] ++ [None] ++ tail).
  { rewrite (app_assoc (replicate (length t) None)). apply (splice_app [] _ (map Some (t ++ [10]))).
    rewrite length_map, !length_app, length_replicate. done. }
  rewrite <- !app_assoc in *. rewrite E1.
  assert (Hm : length (map Some (t ++ [10]) ++ [None]) = (S (length t + 1))%nat)
    by (rewrite length_app, length_map, length_app; simpl; lia).
  rewrite (app_assoc (map Some (t ++ [10]))). rewrite length_app. cbn [length]. rewrite <- Hm, splice_app by done.
  rewrite (app_assoc _ [Some 0] tail), take_app_length' by (rewrite length_app, Hm; simpl; lia).
  by rewrite <- app_assoc.
Qed.
