(* ===== verification/Packer.v ===== *)
(** * The packer (tools/packer.c)

    [run_packer] turns a description into the sections of a live patch: it parses
    the description, looks up the functions and variables in the target, makes
    the identifier, and embeds the metadata. *)

From stdpp Require Import list.
From S2P Require Import Prelude Errors Metadata Md4 PatchId Extract Description.

Open Scope ulp_scope.

(** ** Offsets in the target *)

(** The result, and the units with the addresses filled in so far. *)
Fixpoint get_target_addrs (info : ulp_so_info) (units : list ulp_unit) : Z * list ulp_unit :=
  match units with
  | [] => (1, [])
  | u :: rest =>
    match get_symbol_with_name info (old_fname u) with
    | None => (0, u :: rest)
    | Some s =>
      let (ret, rest) := get_target_addrs info rest in
      (ret, {| old_fname := old_fname u; new_fname := new_fname u; old_faddr := sym_offset s |} :: rest)
    end
  end.

Fixpoint get_target_ref_addrs (info : ulp_so_info) (refs : list ulp_reference) : Z * list ulp_reference :=
  match refs with
  | [] => (1, [])
  | r :: rest =>
    if negb (target_offset r =? 0) then let (ret, rest) := get_target_ref_addrs info rest in (ret, r :: rest)
    else
      match get_symbol_with_name info (target_name r) with
      | None => (0, r :: rest)
      | Some s =>
        let (ret, rest) := get_target_ref_addrs info rest in
        (ret, {| target_name := target_name r; reference_name := reference_name r; target_offset := sym_offset s;
                 patch_offset := patch_offset r; tls := tls r |} :: rest)
      end
  end.

(** [info] and [ulp->objs] are dereferenced without a test. *)
Definition get_ulp_elf_metadata (info : option ulp_so_info) (ulp : ulp_metadata) : res unit (Z * ulp_metadata) :=
  match info, objs ulp with
  | Some info, Some obj =>
    let obj := set_build_id_len (set_build_id obj (Some (so_buildid info))) BUILDID_LEN in
    let (ok, us) := get_target_addrs info (units obj) in
    let ulp := set_objs ulp (Some (set_units obj us)) in
    if ok =? 0 then Ok (0, ulp)
    else
      let (ok, rs) := get_target_ref_addrs info (refs ulp) in
      let ulp := set_refs ulp rs in
      if ok =? 0 then Ok (0, ulp) else Ok (1, ulp)
  | _, _ => Ub
  end.

(** ** The command *)

Section run.
Variable fopen : bytes -> option bytes.
Variable is_directory : bytes -> bool.
Variable ulp_so_info_open : bytes -> option ulp_so_info.
Variables calloc realloc : bool.
(** The files and allocations of the identifier, by the paths of the description
    and of the live patch. *)
Variable id_env : bytes -> bytes -> pack_env.
(** The bound on the notes of the live patch. *)
Variable fuel : nat.
(** Whether the temporary files of the three sections open. *)
Variables tmp_ulp tmp_comments tmp_rev : bool.
(** [embed_patch_metadata_into_elf] by section. *)
Variable embed : string -> bytes -> Z.
(** What the bytes [realloc] does not initialise hold. *)
Variable residue : Z -> Z.

(** [ulp->comments], up to its terminator. *)
Definition comments_text (c : list (option Z)) : bytes :=
  cstr (imap (fun i b => default (residue (Z.of_nat i)) b) c).

(** The status, and the sections embedded into the live patch. In the block that
    writes the comments a second [ret] hides that of the function, so a failure
    to embed them is forgotten. *)
Definition embed_sections (ulp : ulp_metadata) (comments : list (option Z)) : res unit (Z * list (string * bytes)) :=
  match create_patch_metadata_file tmp_ulp ulp with
  | Ok (ok, data) =>
    if ok =? 0 then Ok (1, [])
    else if negb (embed ".ulp" data =? 0) then Ok (1, [])
    else
      let done := [(".ulp"%string, data)] in
      let reverse done :=
        match write_reverse_patch tmp_rev (embed ".ulp.rev") ulp with
        | Ok (ok, rev) => if ok =? 0 then Ok (1, done) else Ok (0, done ++ [(".ulp.rev"%string, rev)])
        | Err e => Err e | Ub => Ub | NoFuel => NoFuel
        end in
      match comments with
      | [] => reverse done
      | _ =>
        if negb tmp_comments then Ok (1, done)
        else
          let text := comments_text comments ++ [0] in
          if negb (embed ".ulp.comments" text =? 0) then Ok (0, done)
          else reverse (done ++ [(".ulp.comments"%string, text)])
      end
  | Err e => Err e | Ub => Ub | NoFuel => NoFuel
  end.

(** [livepatch] and [library] are the options of the command. *)
Definition run_packer (livepatch library : option bytes) (description : bytes) : res unit (Z * list (string * bytes)) :=
  match parse_description fopen is_directory ulp_so_info_open calloc realloc livepatch library description with
  | Err _ => Ok (1, [])
  | Ub => Ub
  | NoFuel => NoFuel
  | Ok s =>
    match get_ulp_elf_metadata (target s) (ulp s) with
    | Ok (ok, u) =>
      if ok =? 0 then Ok (1, [])
      else
        let path := match livepatch with Some p => p | None => default [] (so_filename u) end in
        match write_patch_id fuel (id_env description path) with
        | Ok (code, id) =>
          let u := set_patch_id u id in
          if negb (code =? 0) then Ok (1, []) else embed_sections u (d_comments s)
        | Err _ => Ub | Ub => Ub | NoFuel => NoFuel
        end
    | Err e => Err e | Ub => Ub | NoFuel => NoFuel
    end
  end.
End run.

(** ** Lemmas on the offsets *)

Definition located_unit (info : ulp_so_info) (u : ulp_unit) : ulp_unit :=
  {| old_fname := old_fname u; new_fname := new_fname u;
     old_faddr := default 0 (offset_of info (old_fname u)) |}.

Definition located_ref (info : ulp_so_info) (r : ulp_reference) : ulp_reference :=
  if target_offset r =? 0 then
    {| target_name := target_name r; reference_name := reference_name r;
       target_offset := default 0 (offset_of info (target_name r)); patch_offset := patch_offset r; tls := tls r |}
  else r.

Lemma target_addrs_ok info us : Forall (fun u => offset_of info (old_fname u) <> None) us ->
  get_target_addrs info us = (1, map (located_unit info) us).
Proof.
  induction 1 as [|u us Hu _ IH]; [done|]. cbn [get_target_addrs map]. rewrite IH. unfold located_unit, offset_of in *.
  by destruct (get_symbol_with_name info (old_fname u)).
Qed.

Lemma target_refs_ok info rs : Forall (fun r => target_offset r = 0 -> offset_of info (target_name r) <> None) rs ->
  get_target_ref_addrs info rs = (1, map (located_ref info) rs).
Proof.
  induction 1 as [|r rs Hr _ IH]; [done|]. cbn [get_target_ref_addrs map]. rewrite IH. unfold located_ref, offset_of in *.
  destruct (Z.eqb_spec (target_offset r) 0); [|done]. cbn [negb].
  specialize (Hr ltac:(done)). by destruct (get_symbol_with_name info (target_name r)).
Qed.

(** ** Descriptions without a target *)

(** A description that names a container and nothing else passes the parser,
    and the packer then reads the target through a NULL pointer. *)
Theorem no_target_crashes fopen is_directory info id_env fuel t1 t2 t3 embed residue path dsc cc c
    (Hpath : path <> [] /\ Forall plain_char path /\ first_char path <> 33)
    (Hfile : fopen dsc = Some (path ++ [10]))
    (Hcontainer : fopen path = Some cc /\ is_directory path = false /\ info path = Some c) :
  run_packer fopen is_directory info true true id_env fuel t1 t2 t3 embed residue None None dsc = Ub.
Proof.
  destruct Hpath as (Hne & Hp & Hf), Hcontainer as (H1 & H2 & H3). unfold run_packer, parse_description. rewrite Hfile.
  destruct (find_container_ok fopen is_directory [] path [] cc (S (S (length (path ++ [10])))) (dsc_init (path ++ [10])))
    as (s & E & F & U & _ & _ & T); try done; [cbn [length]; lia|split; [done|by right]|].
  assert (Ep : exists s', parse_lines fopen is_directory info true true None None (S (S (length (path ++ [10])))) (dsc_init (path ++ [10]))
    = (Ok tt, s') /\ target s' = None).
  { unfold parse_lines. rewrite (bind_ok _ _ _ _ _ E).
    assert (E2 : open_container info s = (Ok tt, set_container s (Some c))).
    { unfold open_container, bind, gets. rewrite U. cbn. by rewrite H3. }
    rewrite (bind_ok _ _ _ _ _ E2). unfold bind at 1, getline. cbn [file set_container]. rewrite F. cbn [split_line].
    cbn [dep_lines body_lines]. eexists. split; [reflexivity|]. by cbn. }
  destruct Ep as (s' & -> & ->). done.
Qed.

(** ** From the description to the target *)

(** The bounds under which lengths and offsets fit the fields of the format. *)
Definition offsets_ok (info : ulp_so_info) : Prop := forall sym x, offset_of info sym = Some x -> in_u 64 x.

(** A reference with a zero offset is looked up by name. *)
Definition located (t : ulp_so_info) (i : item) : Prop :=
  match i with IRefAt _ tname _ 0 _ => offset_of t tname <> None | _ => True end.

(** What a parsed description is known to be. *)
Record parsed (t : ulp_so_info) (room : Z) (u : ulp_metadata) (o : ulp_object) : Prop := {
  p_objs : objs u = Some o;
  p_units : Forall (fun n => wf_unit n /\ offset_of t (old_fname n) <> None) (units o) /\
            nunits o = zlen (units o) /\ zlen (units o) <= room;
  p_refs : Forall (fun r => wf_ref r /\ (target_offset r = 0 -> offset_of t (target_name r) <> None)) (refs u) /\
           nrefs u = zlen (refs u) /\ zlen (refs u) <= room;
  p_deps : deps u = [] /\ ndeps u = 0 }.

Lemma small_length s : zlen s < 2 ^ 31 -> small s.
Proof.
  unfold small. intros Hs. assert (H : zlen (cstr s) <= zlen s); [|lia].
  clear. induction s as [|c s IH]; [done|]. cbn [cstr]. destruct (c =? 0); rewrite ?zlen_cons; change (zlen (@nil Z)) with 0; pose proof (zlen_nonneg s); lia.
Qed.

Lemma parsed_item c t room i u u' o : 0 <= room -> offsets_ok c -> offsets_ok t -> item_ok i -> located t i ->
  room + zlen (print_item i) + 1 < 2 ^ 31 -> parsed t room u o -> apply_item c t i u = Some u' ->
  exists o', parsed t (room + 1) u' o' /\ obj_name o' = obj_name o.
Proof.
  intros Hr Hc Ht Hi Hloc Hsz [Ho (Hu1 & Hu2 & Hu3) (Hr1 & Hr2 & Hr3) Hd] E.
  pose proof (zlen_nonneg (units o)). pose proof (zlen_nonneg (refs u)).
  destruct i as [|x|old new|tls tn rn|tls tn rn x y]; cbn [apply_item print_item item_ok located] in *; rewrite ?zlen_app in Hsz.
  - injection E as <-. exists o. split; [|done]. split; [done|split_and!; [done..|lia]|split_and!; [done..|lia]|done].
  - injection E as <-. exists o. split; [|done]. split; [done|split_and!; [done..|lia]|split_and!; [done..|lia]|done].
  - destruct (offset_of t old) as [a|] eqn:E1; [|done]. destruct (offset_of c new) as [b|] eqn:E2; [|done].
    rewrite Ho in E. injection E as <-. pose proof (zlen_nonneg old). pose proof (zlen_nonneg new). change (zlen [58]) with 1 in Hsz.
    eexists. split; [split; [reflexivity|..]|done].
    + cbn [units nunits add_unit]. rewrite zlen_app, Hu2, wrap_id by (unfold in_u; lia). change (zlen [_]) with 1.
      split_and!; [|done|lia]. apply Forall_app. split; [done|]. constructor; [|done]. split; [|cbn [old_fname]; by rewrite E1].
      split_and!; [apply small_length; cbn; lia|apply small_length; cbn; lia|by unfold in_u].
    + split_and!; [done..|]. cbn. lia.
    + done.
  - destruct (offset_of t tn) as [a|] eqn:E1; [|done]. destruct (offset_of c rn) as [b|] eqn:E2; [|done].
    injection E as <-. pose proof (zlen_nonneg tn). pose proof (zlen_nonneg rn). pose proof (zlen_nonneg (tls_mark tls)).
    change (zlen [58]) with 1 in Hsz. change (zlen [35]) with 1 in Hsz.
    exists o. split; [|done]. split; [done|split_and!; [done..|lia]| |done].
    cbn [refs nrefs set_refs set_nrefs]. rewrite zlen_cons, Hr2, wrap_id by (unfold in_u; lia).
    split_and!; [|lia|lia]. constructor; [|done]. split; [|by cbn; rewrite E1].
    split_and!; [apply small_length; cbn; lia|apply small_length; cbn; lia|by apply (Ht tn)|by apply (Hc rn)].
  - injection E as <-. pose proof (zlen_nonneg tn). pose proof (zlen_nonneg rn). pose proof (zlen_nonneg (tls_mark tls)).
    pose proof (zlen_nonneg (hex_str 16 x)). pose proof (zlen_nonneg (hex_str 16 y)).
    change (zlen [58]) with 1 in Hsz. change (zlen [35]) with 1 in Hsz. destruct Hi as (_ & _ & _ & Hx & Hy).
    exists o. split; [|done]. split; [done|split_and!; [done..|lia]| |done].
    cbn [refs nrefs set_refs set_nrefs]. rewrite zlen_cons, Hr2, wrap_id by (unfold in_u; lia).
    split_and!; [|lia|lia]. constructor; [|done]. split; [|cbn; by intros ->].
    split_and!; [apply small_length; cbn -[hex_str] in *; lia|apply small_length; cbn -[hex_str] in *; lia|unfold in_u; cbn; lia|unfold in_u; cbn; lia].
Qed.

Lemma parsed_items c t l : forall room u u' o, 0 <= room -> offsets_ok c -> offsets_ok t -> Forall item_ok l ->
  Forall (located t) l -> room + zlen (print_items l) < 2 ^ 31 -> parsed t room u o -> apply_items c t l u = Some u' ->
  exists room' o', parsed t room' u' o' /\ room' < 2 ^ 31 /\ obj_name o' = obj_name o.
Proof.
  induction l as [|i l IH]; intros room u u' o Hr Hc Ht Hi Hloc Hsz Hp E.
  - injection E as <-. exists room, o. split_and!; [done| |done]. change (zlen (print_items [])) with 0 in Hsz. lia.
  - apply Forall_cons_iff in Hi as [Hi Hl]. apply Forall_cons_iff in Hloc as [Hli Hll].
    rewrite print_items_cons, zlen_app, zlen_cons in Hsz. pose proof (zlen_nonneg (print_items l)). pose proof (zlen_nonneg (print_item i)).
    cbn [apply_items] in E. destruct (apply_item c t i u) as [u1|] eqn:E1; [|done].
    destruct (parsed_item c t room i u u1 o Hr Hc Ht Hi Hli ltac:(lia) Hp E1) as (o1 & Hp1 & N1).
    destruct (IH (room + 1) u1 u' o1 ltac:(lia) Hc Ht Hl Hll ltac:(lia) Hp1 E) as (room' & o' & Hp' & Hr' & N').
    exists room', o'. split_and!; [done|done|by rewrite N'].
Qed.

(** The patch the packer writes. *)
Definition packed (t : ulp_so_info) (id : bytes) (u : ulp_metadata) : ulp_metadata :=
  let o := default zero_object (objs u) in
  let o := set_build_id_len (set_build_id o (Some (so_buildid t))) BUILDID_LEN in
  set_patch_id
    (set_refs (set_objs u (Some (set_units o (map (located_unit t) (units o))))) (map (located_ref t) (refs u))) id.

Lemma packed_wf t id u o nm room : offsets_ok t -> parsed t room u o -> room < 2 ^ 31 -> obj_name o = Some nm -> small nm ->
  List.length (so_buildid t) = Z.to_nat BUILDID_LEN -> List.length id = 32%nat ->
  exists o', wf_metadata (packed t id u) o' (so_buildid t) nm /\
    get_ulp_elf_metadata (Some t) u = Ok (1, set_patch_id (packed t id u) (patch_id u)).
Proof.
  intros Ht [Ho (Hu1 & Hu2 & Hu3) (Hr1 & Hr2 & Hr3) (Hd1 & Hd2)] Hroom Hn Hs Hb Hid.
  eexists. split.
  - unfold packed. rewrite Ho. cbn [default]. split; cbn; try done.
    + unfold zlen. by rewrite Hb.
    + cbn [units nunits set_units set_build_id_len set_build_id].
      rewrite Forall_map. split_and!; [|by unfold zlen; rewrite length_map|unfold zlen in *; rewrite length_map; lia].
      eapply Forall_impl; [|exact Hu1]. intros n [(H1 & H2 & H3) H4]. split_and!; [done|done|]. cbn.
      destruct (offset_of t (old_fname n)) as [x|] eqn:E; [|done]. by apply (Ht (old_fname n)).
    + by rewrite Hd1, Hd2.
    + rewrite Forall_map. split_and!; [|by unfold zlen; rewrite length_map|unfold zlen in *; rewrite length_map; lia].
      eapply Forall_impl; [|exact Hr1]. intros r [(H1 & H2 & H3 & H4) H5]. unfold located_ref.
      destruct (Z.eqb_spec (target_offset r) 0); [|done]. split_and!; [done|done| |done]. cbn.
      specialize (H5 ltac:(done)). destruct (offset_of t (target_name r)) as [x|] eqn:E; [|done]. by apply (Ht (target_name r)).
  - unfold get_ulp_elf_metadata. rewrite Ho. cbn [units set_build_id_len set_build_id].
    rewrite target_addrs_ok by (eapply Forall_impl; [|exact Hu1]; by intros ? [_ ?]).
    change (1 =? 0) with false. cbv iota. cbn [refs set_objs].
    rewrite target_refs_ok by (eapply Forall_impl; [|exact Hr1]; by intros ? [_ ?]).
    change (1 =? 0) with false. cbv iota. unfold packed. rewrite Ho. done.
Qed.

Lemma embed_all comments u o id nm embed residue (Hembed : forall sec data, embed sec data = 0)
    (Hwf : wf_metadata u o id nm) :
  exists d1 d2 secs, embed_sections true true true embed residue u comments = Ok (0, secs) /\
    In (".ulp"%string, d1) secs /\ In (".ulp.rev"%string, d2) secs /\
    create_patch_metadata_file true u = Ok (1, d1) /\ write_reverse_patch true (embed ".ulp.rev"%string) u = Ok (1, d2).
Proof.
  pose proof (create_apply u o id nm Hwf) as E1. pose proof (create_revert u o id nm (embed ".ulp.rev"%string) Hwf (Hembed _)) as E2.
  unfold embed_sections. rewrite E1, E2, Hembed. set (d1 := _ ++ write_u32 (zlen id) ++ id ++ write_string nm ++ _).
  set (d2 := _ ++ write_u32 (zlen id) ++ id ++ write_u32 (zlen (cstr nm)) ++ _).
  exists d1, d2. change (1 =? 0) with false. change (negb (0 =? 0)) with false. cbv iota.
  destruct comments; [|rewrite Hembed; change (negb (0 =? 0)) with false; cbv iota; cbn [negb]].
  all: eexists; (split; [reflexivity|]); cbn [app In]; tauto.
Qed.

(** C8. From the description to the target: when the files open, the symbols
    exist, the identifier can be made and the sections can be embedded, the
    packer reports success, and the section [.ulp] it embeds, once the tool has
    inserted the path of the live patch, is parsed in the target, whatever follows it in
    the buffer, to the patch of the description, with the offsets of the functions and variables in the
    target, its build id and the identifier. *)
Theorem packer_end_to_end fopen is_directory info id_env fuel embed residue d dsc c t u cc tc nm id
    (Hok : description_ok d) (Hloc : Forall (located t) (dsc_items d)) (Hsize : zlen (print_items (dsc_items d)) < 2 ^ 31)
    (Hfile : fopen dsc = Some (print_description d))
    (Hcontainer : fopen (dsc_container d) = Some cc /\ is_directory (dsc_container d) = false /\ info (dsc_container d) = Some c)
    (Htarget : fopen (dsc_target d) = Some tc /\ is_directory (dsc_target d) = false /\ info (dsc_target d) = Some t)
    (Hinfo : offsets_ok c /\ offsets_ok t /\ so_name t = Some nm /\ small nm /\ List.length (so_buildid t) = Z.to_nat BUILDID_LEN)
    (Hsyms : apply_items c t (dsc_items d) (dsc_base d t) = Some u)
    (Hid : write_patch_id fuel (id_env dsc (dsc_container d)) = Ok (0, id))
    (Hembed : forall sec data, embed sec data = 0) :
  exists secs data rev,
    run_packer fopen is_directory info true true id_env fuel true true true embed residue None None dsc = Ok (0, secs) /\
    In (".ulp"%string, data) secs /\ In (".ulp.rev"%string, rev) secs /\
    (forall calloc_ok c0 path lp prefix size buf rest, (forall n sz, calloc_ok n sz = true) -> zlen data < 2 ^ 31 ->
       full_path prefix path <> [] -> extract_ulp_from_so_to_mem (Some (Some data)) (Some path) lp prefix = Ok (size, Buffer buf) ->
       exists s, parse_metadata_from_mem calloc_ok c0 zero_metadata (buf ++ rest) (zlen (buf ++ rest)) = (Ok 0, s) /\
         ps_ulp s = read_back (packed t id u) (so_buildid t) nm (full_path prefix path)).
Proof.
  destruct Hcontainer as (C1 & C2 & C3), Htarget as (T1 & T2 & T3), Hinfo as (Oc & Ot & Hn & Hs & Hb).
  destruct (parse_printed fopen is_directory info d dsc c t u cc tc Hok Hfile C1 C2 C3 T1 T2 T3 Hsyms) as (s & E & U & T).
  assert (Hp0 : parsed t 0 (dsc_base d t) (set_obj_name zero_object (so_name t))) by (by split).
  destruct (parsed_items c t (dsc_items d) 0 _ u _ ltac:(done) Oc Ot (k_items _ Hok) Hloc ltac:(lia) Hp0 Hsyms)
    as (room & o & Hp & Hroom & Hname).
  destruct (packed_wf t id u o nm room Ot Hp Hroom) as (o' & Hwf & G); [by rewrite Hname|done|done|by eapply write_patch_id_length|].
  destruct (embed_all (d_comments s) (packed t id u) o' (so_buildid t) nm embed residue Hembed Hwf)
    as (d1 & d2 & secs & Es & I1 & I2 & W1 & _).
  assert (Hso : so_filename (packed t id u) = Some (dsc_container d)).
  { unfold packed. cbn. assert (H : forall l v v', apply_items c t l v = Some v' -> so_filename v' = so_filename v).
    { clear. induction l as [|i l IH]; intros v v' E; [by injection E as <-|]. cbn [apply_items] in E.
      destruct (apply_item c t i v) as [v1|] eqn:E1; [|done]. rewrite (IH _ _ E).
      destruct i; cbn [apply_item] in E1; repeat (destruct (offset_of _ _); [|done]);
        try (destruct (objs v); [|done]); by injection E1 as <-. }
    by rewrite (H _ _ _ Hsyms). }
  exists secs, d1, d2. split_and!; [|done|done|].
  - unfold run_packer. rewrite E, U, T, G. change (1 =? 0) with false. cbv iota.
    change (so_filename (set_patch_id (packed t id u) (patch_id u))) with (so_filename (packed t id u)). rewrite Hso. change (default [] (Some (dsc_container d))) with (dsc_container d).
    rewrite Hid. exact Es.
  - intros calloc_ok c0 path lp prefix size buf rest Ha Hsm Hfp Hx.
    destruct (roundtrip_ok calloc_ok c0 (packed t id u) o' (so_buildid t) nm d1 path lp prefix size buf rest Ha Hwf Hsm W1 Hfp Hx)
      as (s' & P1 & P2 & _). by exists s'.
Qed.

(** The status of a failed embedding of the comments is lost: the packer
    reports success although the sections [.ulp.comments] and [.ulp.rev] are
    missing. *)
Theorem lost_failure embed residue u o id nm comments (Hwf : wf_metadata u o id nm) (Hne : comments <> [])
    (Hulp : forall data, embed ".ulp"%string data = 0) (Hcom : forall data, embed ".ulp.comments"%string data <> 0) :
  exists data, embed_sections true true true embed residue u comments = Ok (0, [(".ulp"%string, data)]).
Proof.
  pose proof (create_apply u o id nm Hwf) as E1. unfold embed_sections. rewrite E1, Hulp.
  set (d1 := _ ++ write_u32 (zlen id) ++ id ++ write_string nm ++ _). exists d1.
  change (1 =? 0) with false. change (negb (0 =? 0)) with false. cbv iota. destruct comments; [done|]. cbn [negb].
  by rewrite (proj2 (Z.eqb_neq _ _) (Hcom _)).
Qed.
