(* ===== verification/Critical.v ===== *)
(** * The critical section of the tool (tools/introspection.c)

    To patch a process the tool stops all its threads and saves their registers
    ([hijack_threads]), makes the main thread run a routine of libpulp
    ([apply_patch], [revert_patches_from_lib]), and lets the threads go with the
    registers they had ([restore_threads]). *)

From stdpp Require Import gmap.
From S2P Require Import Prelude Errors Memory Metadata InsnQueue Ptrace InsnQueueTool.

Open Scope ulp_scope.

Record ulp_thread := { tid : Z; context : registers_t }.

(** The addresses of the routines and buffers of libpulp in the process. *)
Record libpulp_symbols := {
  sym_trigger : Z; sym_check : Z; sym_revert_all : Z; sym_global : Z; sym_metadata_buffer : Z }.

Record ulp_process := {
  pid : Z;
  threads : list ulp_thread;
  main_thread : option ulp_thread;
  all_threads_hijacked : bool;
  symbols : libpulp_symbols;
  dynobj_libpulp : libpulp_dynobj;
  global_universe : Z }.

Section critical.
Context {K : Type} `{Kernel K}.

(** The process as the tool knows it, and the tool. *)
Record cstate := { proc : ulp_process; tl : tool K }.

Abbreviation crit A := (st cstate Z A).

Definition lift {A} (m : st (tool K) Z A) : crit A := fun s =>
  let (r, t) := m (tl s) in (r, {| proc := proc s; tl := t |}).

Definition log (fmt : string) : crit unit := lift (t_log fmt).

Definition update_proc (f : ulp_process -> ulp_process) : crit unit :=
  modify (fun s => {| proc := f (proc s); tl := tl s |}).

Definition set_threads (l : list ulp_thread) (m : option ulp_thread) (p : ulp_process) : ulp_process :=
  {| pid := pid p; threads := l; main_thread := m; all_threads_hijacked := all_threads_hijacked p;
     symbols := symbols p; dynobj_libpulp := dynobj_libpulp p; global_universe := global_universe p |}.

Definition set_hijacked (b : bool) (p : ulp_process) : ulp_process :=
  {| pid := pid p; threads := threads p; main_thread := main_thread p; all_threads_hijacked := b;
     symbols := symbols p; dynobj_libpulp := dynobj_libpulp p; global_universe := global_universe p |}.

Definition set_dynobj (d : libpulp_dynobj) (p : ulp_process) : ulp_process :=
  {| pid := pid p; threads := threads p; main_thread := main_thread p; all_threads_hijacked := all_threads_hijacked p;
     symbols := symbols p; dynobj_libpulp := d; global_universe := global_universe p |}.

Definition set_universe (n : Z) (p : ulp_process) : ulp_process :=
  {| pid := pid p; threads := threads p; main_thread := main_thread p; all_threads_hijacked := all_threads_hijacked p;
     symbols := symbols p; dynobj_libpulp := dynobj_libpulp p; global_universe := n |}.

Fixpoint search_thread (l : list ulp_thread) (t : Z) : option ulp_thread :=
  match l with
  | [] => None
  | x :: l => if tid x =? t then Some x else search_thread l t
  end.

(** The bound on the iterations of the loops that wait for the kernel. *)
Variable fuel : nat.

(** ** Stopping the threads *)

(** The body of the loop over the entries of [/proc/<pid>/task]; the result
    tells whether the thread is new. [Err] is [goto children_restore]. *)
Definition hijack_entry (calloc : bool) (t : Z) : crit bool :=
  let! p := gets proc in
  if t =? 0 then ret false
  else
    match search_thread (threads p) t with
    | Some _ => ret false
    | None =>
      if negb calloc then log "unable to allocate memory.";;; throw 0
      else
        let! e := lift (attach fuel t) in
        if negb (e =? 0) then log "unable to attach to %d.";;; throw 0
        else
          let! r := lift (get_regs fuel t {| rip := 0; rsp := 0; rax := 0; other_regs := [] |}) in
          let (e, regs) := r in
          if negb (e =? 0) then
            log "unable to get registers from %d.";;; (let! _ := lift (detach fuel t) in throw 0)
          else
            let x := {| tid := t; context := regs |} in
            update_proc (fun p => set_threads (x :: threads p) (if t =? pid p then Some x else main_thread p) p);;;
            ret true
    end.

Fixpoint hijack_pass (calloc : bool) (tids : list Z) : crit bool :=
  match tids with
  | [] => ret false
  | t :: tids =>
    let! new := hijack_entry calloc t in
    let! more := hijack_pass calloc tids in
    ret (new || more)
  end.

(** [listing i] is what the [i]-th reading of the directory gives: the numbers
    [atoi] makes of the names, and [errno] at the end. *)
Fixpoint hijack_loop (n : nat) (calloc : bool) (listing : nat -> list Z * Z) (i : nat) : crit unit :=
  match n with
  | O => nofuel
  | S n =>
    let (tids, errno) := listing i in
    let! loop := hijack_pass calloc tids in
    if negb (errno =? 0) then log "error reading from the task directory (%s): %s";;; throw 0
    else if loop then hijack_loop n calloc listing (S i)
    else ret tt
  end.

(** [children_restore]: detach from the threads; the result is [fatal]. The
    pointer to the main thread dangles when the list is freed: [None]. *)
Fixpoint release_all (l : list ulp_thread) : crit bool :=
  match l with
  | [] => ret false
  | x :: l =>
    let! e := lift (detach fuel (tid x)) in
    (if negb (e =? 0) then log "WARNING: detaching from thread %d failed." else ret tt);;;
    update_proc (set_threads l None);;;
    let! fatal := release_all l in
    ret (negb (e =? 0) || fatal)
  end.

(** [opendir] is 0, or the error of opening the directory. *)
Definition hijack_threads (opendir : Z) (calloc : bool) (listing : nat -> list Z * Z) : crit Z := fun s =>
  if all_threads_hijacked (proc s) then
    (log "trying to reenter critical section with all threads hijacked is unsupported.";;; ret EUNKNOWN) s
  else if negb (opendir =? 0) then
    if opendir =? ENOENT then (Ok ESRCH, s) else (log "error opening %s: %s.";;; ret opendir) s
  else
    match hijack_loop fuel calloc listing 0 s with
    | (Ok _, s) => (update_proc (set_hijacked true);;; ret 0) s
    | (Err _, s) =>
      (let! p := gets proc in
       let! fatal := release_all (threads p) in
       ret (if fatal then ETHRDDETTACH else ETHRDATTACH)) s
    | (Ub, s) => (Ub, s)
    | (NoFuel, s) => (NoFuel, s)
    end.

(** ** Letting them go *)

Fixpoint restore_loop (l : list ulp_thread) : crit bool :=
  match l with
  | [] => ret false
  | x :: l =>
    let! e1 := lift (set_regs fuel (tid x) (context x)) in
    (if negb (e1 =? 0) then log "Restoring thread failed (set_regs)." else ret tt);;;
    let! e2 := lift (detach fuel (tid x)) in
    (if negb (e2 =? 0) then log "WARNING: detaching from thread %d failed." else ret tt);;;
    update_proc (set_threads l None);;;
    let! errors := restore_loop l in
    ret (negb (e1 =? 0) || negb (e2 =? 0) || errors)
  end.

Definition restore_threads : crit Z :=
  update_proc (set_hijacked false);;;
  let! p := gets proc in
  let! errors := restore_loop (threads p) in
  ret (if errors then 1 else 0).

(** ** Running libpulp *)

(** The static [rr_timeout]. *)
Variable timeout : Z.

Definition set_metadata_buffer (metadata : bytes) : crit Z :=
  if ULP_METADATA_BUF_LEN <=? zlen metadata then log "Metadata content too large.";;; ret EOVERFLOW
  else
    let! p := gets proc in
    match main_thread p with
    | None => undef
    | Some t =>
      let! e := lift (write_bytes fuel metadata (tid t) (sym_metadata_buffer (symbols p))) in
      ret (if negb (e =? 0) then EUNKNOWN else ENONE)
    end.

Definition set_string_buffer (string : bytes) : crit Z := set_metadata_buffer (cstr string ++ [0]).

Definition set_id_buffer (patch_id : bytes) : crit Z :=
  let! p := gets proc in
  if negb (all_threads_hijacked p) then log "not all threads hijacked.";;; ret EUNKNOWN
  else
    match main_thread p with
    | None => undef
    | Some t =>
      let! e := lift (write_bytes fuel (take 32 patch_id) (tid t) (sym_metadata_buffer (symbols p))) in
      if negb (e =? 0) then log "Unable to write buildid at address %lx.";;; ret ETARGETHOOK else ret 0
    end.

(** [run_and_redirect] on the main thread, with its saved registers: the code and
    the registers after it. *)
Definition run_main (routine : Z) : crit (Z * registers_t) :=
  let! p := gets proc in
  match main_thread p with
  | None => undef
  | Some t => lift (run_and_redirect fuel timeout (tid t) (context t) routine)
  end.

(** The queue of libpulp is executed; an old libpulp has none. *)
Definition interpret_queue : crit Z :=
  let! p := gets proc in
  let! e := lift (insnq_interpret_from_process fuel (pid p) (dynobj_libpulp p)) in
  ret (if negb (e =? 0) && negb (e =? EOLDLIBPULP) then e else 0).

Definition patch_applied (id : bytes) : crit (Z * option Z) :=
  let! p := gets proc in
  if negb (all_threads_hijacked p) then log "not all threads hijacked.";;; ret (EUNKNOWN, None)
  else
    let! e := set_id_buffer id in
    if negb (e =? 0) then log "unable to write live patch ID into target process memory.";;; ret (ETARGETHOOK, None)
    else
      let! r := run_main (sym_check (symbols p)) in
      let (e, regs) := r in
      if negb (e =? 0) then log "error during live patch status check: %s";;; ret (e, None)
      else ret (0, Some (s32 (rax regs))).

Definition apply_patch (metadata : bytes) (disable_seccomp_p : bool) : crit Z :=
  let! p := gets proc in
  if negb (all_threads_hijacked p) then log "not all threads hijacked.";;; ret EUNKNOWN
  else
    let! e := set_metadata_buffer metadata in
    if negb (e =? 0) then log "unable to write live patch path into target process memory.";;; ret ETARGETHOOK
    else
      let! e := (if disable_seccomp_p then lift (disable_seccomp fuel (pid p)) else ret 0) in
      if negb (e =? 0) then log "unable to disable seccomp in target process: %s";;; ret e
      else
        let! r := run_main (sym_trigger (symbols p)) in
        let (e, regs) := r in
        if negb (e =? 0) then log "error during live patch application: %s";;; ret e
        else if negb (rax regs =? 0) && negb (rax regs =? EAGAIN) &&
                match main_thread p with Some t => rax regs =? rax (context t) | None => false end
        then ret EHOOKNOTRUN
        else
          let! e := interpret_queue in
          if negb (e =? 0) then ret e else ret (s32 (rax regs)).

(** [target] is the name of the library of the patch loaded last. *)
Definition revert_patches_from_lib (target : option bytes) (lib_name : bytes) : crit Z :=
  let lib_name :=
    if byte_eqb (cstr lib_name) (str "target") then default lib_name target else lib_name in
  let! p := gets proc in
  if negb (all_threads_hijacked p) then log "not all threads hijacked.";;; ret EUNKNOWN
  else
    let! e := set_string_buffer lib_name in
    if negb (e =? 0) then log "unable to write library name into target process memory.";;; ret ETARGETHOOK
    else
      let! r := run_main (sym_revert_all (symbols p)) in
      let (e, regs) := r in
      if negb (e =? 0) then log "error during live patch revert: %s";;; ret e
      else
        let! e := interpret_queue in
        if negb (e =? 0) then ret e else ret (s32 (rax regs)).

Definition read_global_universe : crit Z :=
  let! p := gets proc in
  if negb (all_threads_hijacked p) then log "not all threads hijacked.";;; ret EUNKNOWN
  else
    let! r := run_main (sym_global (symbols p)) in
    let (e, regs) := r in
    if negb (e =? 0) then log "error: unable to read global universe from thread %d.";;; ret (-1)
    else update_proc (set_universe (rax regs));;; ret 0.
End critical.
Arguments cstate K : clear implicits.

Lemma search_thread_none l t : search_thread l t = None <-> ~ In t (map tid l).
Proof.
  induction l as [|x l IH]; cbn [search_thread map In]; [naive_solver|].
  destruct (Z.eqb_spec (tid x) t) as [E|E]; [split; [done|intros Hn; by destruct Hn; left]|].
  rewrite IH. split; [by intros Hn [Hx|Hx]|by intros Hn Hx; apply Hn; right].
Qed.

Lemma search_thread_some l t x : search_thread l t = Some x -> In t (map tid l).
Proof.
  intros E. destruct (in_dec Z.eq_dec t (map tid l)) as [Hx|Hx]; [done|]. apply search_thread_none in Hx. congruence.
Qed.

(** ** Calls that always give a result

    The tool's functions return codes; none of those on the process leaves with
    an early return of its caller. *)
Section returns.
Context {S E : Type}.

Definition returns {A} (m : st S E A) : Prop := forall s, match (m s).1 with Err _ => False | _ => True end.

Lemma returns_ret {A} (a : A) : returns (ret a).
Proof. by intros s. Qed.
Lemma returns_undef {A} : returns (undef : st S E A).
Proof. by intros s. Qed.
Lemma returns_nofuel {A} : returns (nofuel : st S E A).
Proof. by intros s. Qed.
Lemma returns_gets {A} (f : S -> A) : returns (gets f).
Proof. by intros s. Qed.
Lemma returns_modify (f : S -> S) : returns (modify f).
Proof. by intros s. Qed.
Lemma returns_bind {A B} (m : st S E A) (k : A -> st S E B) : returns m -> (forall a, returns (k a)) -> returns (bind m k).
Proof.
  intros Hm Hk s. unfold bind. specialize (Hm s). destruct (m s) as [[a|e| |] s1]; try done. apply Hk.
Qed.
Lemma returns_no_err {A} (m : st S E A) s e s' : returns m -> m s = (Err e, s') -> False.
Proof. intros Hm E1. specialize (Hm s). by rewrite E1 in Hm. Qed.
End returns.

Lemma returns_code {S} (m : st S Z Z) : returns (code m).
Proof. intros s. unfold code. by destruct (m s) as [[] ?]. Qed.

Section tool_returns.
Context {K : Type} `{Kernel K}.
Variable fuel : nat.

Lemma returns_kernel {A} (f : K -> A * K) : returns (on_kernel f).
Proof. intros s. unfold on_kernel. by destruct (f (kernel s)). Qed.
Lemma returns_tlog m : returns (t_log m : st (tool K) Z unit).
Proof. by intros s. Qed.
Lemma returns_lift {A} (m : st (tool K) Z A) : returns m -> returns (lift m).
Proof. intros Hm s. unfold lift. specialize (Hm (tl s)). by destruct (m (tl s)). Qed.
Lemma returns_log m : returns (log m : st (cstate K) Z unit).
Proof. apply returns_lift, returns_tlog. Qed.

Ltac return_ :=
  repeat first
    [ assumption | simple apply returns_ret | simple apply returns_undef | simple apply returns_nofuel | simple apply returns_gets
    | simple apply returns_modify | simple apply returns_code | simple apply returns_kernel | simple apply returns_tlog
    | simple apply returns_log | simple apply returns_lift | simple apply returns_bind; [|intros] | progress cbv zeta | case_goal ].

Lemma returns_ptrace request p : returns (ulp_ptrace fuel request p).
Proof.
  unfold ulp_ptrace. return_. match goal with |- context [ulp_ptrace_retry _ _ _ ?t] => generalize t; intros t0 end.
  induction fuel as [|n IH]; cbn [ulp_ptrace_retry]; return_.
Qed.

Lemma returns_write buf p a : returns (write_bytes fuel buf p a).
Proof.
  unfold write_bytes. generalize 0 as acc. induction fuel as [|n IH]; intros acc; cbn [write_retry]; return_. apply IH.
Qed.

Lemma returns_read buf len p a : returns (read_memory fuel buf len p a).
Proof.
  unfold read_memory. generalize 0 as acc. revert buf.
  induction fuel as [|n IH]; intros b acc; cbn [read_retry]; return_. apply IH.
Qed.

Lemma returns_run t p regs routine : returns (run_and_redirect fuel t p regs routine).
Proof. intros s. unfold run_and_redirect. by destruct (bind _ _ s) as [[] ?]. Qed.

Lemma returns_interpret p q : returns (interpret fuel p q).
Proof.
  intros s. unfold interpret. pose proof (returns_code (S := istate (tool K))) as L. unfold insnq_interpret.
  match goal with |- context [code ?m ?i] => specialize (L m i); destruct (code m i) as [[] ?] end; done.
Qed.

Lemma returns_queue p d : returns (insnq_interpret_from_process fuel p d).
Proof.
  unfold insnq_interpret_from_process, insnq_interpret_from_process_, insnq_get_from_remote_process, insnq_update_remote.
  return_; apply returns_read || apply returns_write || apply returns_interpret.
Qed.

Lemma returns_compatible p d : returns (insnq_check_compatibility fuel p d).
Proof. unfold insnq_check_compatibility, insnq_get_version. return_; apply returns_read. Qed.

Lemma returns_metadata bs : returns (set_metadata_buffer fuel bs).
Proof. unfold set_metadata_buffer. return_. apply returns_write. Qed.

Lemma returns_apply t metadata seccomp : returns (apply_patch fuel t metadata seccomp).
Proof.
  unfold apply_patch, run_main, interpret_queue, disable_seccomp.
  return_; apply returns_metadata || apply returns_run || apply returns_queue || apply returns_ptrace.
Qed.

Lemma returns_revert t target lib : returns (revert_patches_from_lib fuel t target lib).
Proof.
  unfold revert_patches_from_lib, set_string_buffer, run_main, interpret_queue.
  return_; apply returns_metadata || apply returns_run || apply returns_queue.
Qed.

Lemma returns_detach p : returns (detach fuel p).
Proof. unfold detach. return_. apply returns_ptrace. Qed.

Lemma returns_attach p : returns (attach fuel p).
Proof.
  unfold attach. apply returns_bind; [apply returns_ptrace|intros r]. case_goal; [return_|].
  generalize fuel as n. induction n as [|n IH]; cbn [attach_loop]; return_.
Qed.

Lemma returns_get_regs p r : returns (get_regs fuel p r).
Proof. unfold get_regs. return_. apply returns_ptrace. Qed.

Lemma returns_restore : returns (restore_threads fuel).
Proof.
  assert (Hl : forall l, returns (restore_loop fuel l)).
  { induction l as [|x l IH]; cbn [restore_loop]; unfold update_proc, set_regs;
      return_; apply returns_ptrace || apply returns_detach || apply IH. }
  unfold restore_threads, update_proc. return_. apply Hl.
Qed.

Lemma returns_release l : returns (release_all fuel l).
Proof. induction l as [|x l IH]; cbn [release_all]; unfold update_proc; return_; apply returns_detach || apply IH. Qed.

Lemma returns_hijack opendir calloc listing : returns (hijack_threads fuel opendir calloc listing).
Proof.
  intros s. unfold hijack_threads. case_goal; [by apply (returns_bind _ _ (returns_log _) (fun _ => returns_ret _))|].
  case_goal; [case_goal; [done|by apply (returns_bind _ _ (returns_log _) (fun _ => returns_ret _))]|].
  destruct (hijack_loop _ _ _ _ _ s) as [[[]|e| |] s1]; try done.
  apply (returns_bind _ _ (returns_gets proc)). intros p. return_. apply returns_release.
Qed.
End tool_returns.

(** ** What the kernel promises about the threads

    [held t] are the registers of the thread [t] while it is stopped; [released]
    is the history of the threads that were let go, with the registers they went
    on with. *)
Class ThreadLaws (K : Type) `{Kernel K} := {
  held : Z -> K -> registers_t;
  released : K -> list (Z * registers_t);
  reply_law : forall r p k,
    match r with PTRACE_PEEKDATA _ => True | _ => r_errno (ptrace r p k).1 = 0 <-> r_ret (ptrace r p k).1 = 0 end;
  detach_law : forall p k r k', ptrace PTRACE_DETACH p k = (r, k') ->
    if r_ret r =? 0 then released k' = (p, held p k) :: released k
    else released k' = released k /\ held p k' = held p k;
  setregs_law : forall x p k r k', ptrace (PTRACE_SETREGS x) p k = (r, k') ->
    r_ret r = 0 -> held p k' = x;
  getregs_law : forall p k r k', ptrace PTRACE_GETREGS p k = (r, k') ->
    held p k' = held p k /\ (r_ret r = 0 -> r_regs r = Some (held p k));
  other_law : forall r p k t, t <> p -> held t (ptrace r p k).2 = held t k;
  waitpid_other : forall p b k t, t <> p -> held t (waitpid p b k).2 = held t k;
  request_law : forall r p k, r <> PTRACE_DETACH -> released (ptrace r p k).2 = released k;
  writev_released : forall p bs a k, released (process_vm_writev p bs a k).2 = released k;
  readv_released : forall p n a k, released (process_vm_readv p n a k).2 = released k;
  waitpid_released : forall p b k, released (waitpid p b k).2 = released k;
  time_threads : forall k, released (time k).2 = released k /\ forall p, held p (time k).2 = held p k;
  usleep_threads : forall n k, released (usleep n k) = released k /\ forall p, held p (usleep n k) = held p k }.

Section threads.
Context {K : Type} `{ThreadLaws K}.
Variable fuel : nat.

(** A property of the kernel that a call of the tool keeps. *)
Definition stable (P : K -> Prop) {A} (m : st (tool K) Z A) : Prop := forall s, P (kernel s) -> P (kernel (m s).2).

(** The clock does not touch it. *)
Definition quiet (P : K -> Prop) : Prop :=
  (forall k, P k -> P (time k).2) /\ (forall d k, P k -> P (usleep d k)).

Section stable.
Variable P : K -> Prop.

Lemma stable_ret {A} (a : A) : stable P (ret a).
Proof. by intros s. Qed.
Lemma stable_throw {A} e : stable P (throw e : st (tool K) Z A).
Proof. by intros s. Qed.
Lemma stable_undef {A} : stable P (undef : st (tool K) Z A).
Proof. by intros s. Qed.
Lemma stable_nofuel {A} : stable P (nofuel : st (tool K) Z A).
Proof. by intros s. Qed.
Lemma stable_log m : stable P (t_log m).
Proof. by intros s. Qed.
Lemma stable_bind {A B} (m : st (tool K) Z A) (k : A -> st (tool K) Z B) :
  stable P m -> (forall a, stable P (k a)) -> stable P (bind m k).
Proof.
  intros Hm Hk s Hs. unfold bind. pose proof (Hm s Hs) as E. destruct (m s) as [[a|e| |] s']; cbn [snd] in *; try done.
  by apply Hk.
Qed.
Lemma stable_code (m : st (tool K) Z Z) : stable P m -> stable P (code m).
Proof. intros Hm s Hs. unfold code. pose proof (Hm s Hs) as E. by destruct (m s) as [[] ?]. Qed.
Lemma stable_kernel {A} (f : K -> A * K) : (forall k, P k -> P (f k).2) -> stable P (on_kernel f).
Proof. intros Hf s Hs. unfold on_kernel. pose proof (Hf (kernel s) Hs) as E. by destruct (f (kernel s)). Qed.
Lemma stable_time : quiet P -> stable P (on_kernel time).
Proof. intros [Ht _]. by apply stable_kernel. Qed.
Lemma stable_usleep d : quiet P -> stable P (on_kernel (fun k => (tt, usleep d k))).
Proof. intros [_ Hu]. apply stable_kernel. intros k. apply Hu. Qed.
End stable.

(** Decide every branch. *)
Ltac stably :=
  repeat first
    [ assumption | simple apply stable_ret | simple apply stable_throw | simple apply stable_undef
    | simple apply stable_nofuel | simple apply stable_log | simple apply stable_time | simple apply stable_usleep
    | simple apply stable_code | simple apply stable_bind; [|intros] | progress cbv zeta | case_goal ].

Lemma stable_ptrace P request p : quiet P ->
  (forall k, P k -> P (ptrace request p k).2) -> stable P (ulp_ptrace fuel request p).
Proof.
  intros Hq Hp. assert (Hc : stable P (on_kernel (ptrace request p))) by (by apply stable_kernel).
  assert (Hretry : forall n t0, stable P (ulp_ptrace_retry n request p t0)).
  { induction n as [|n IH]; intros t0; cbn [ulp_ptrace_retry]; stably; apply IH. }
  unfold ulp_ptrace. stably; apply Hretry.
Qed.

(** The requests of the waiting loop of [attach]. *)
Lemma stable_attach P p : quiet P -> (forall k, P k -> P (ptrace PTRACE_ATTACH p k).2) ->
  (forall k, P k -> P (waitpid p false k).2) -> stable P (attach fuel p).
Proof.
  intros Hq Hp Hw. unfold attach. apply stable_bind; [by apply stable_ptrace|intros r]. case_goal; [stably|].
  generalize fuel as n. induction n as [|n IH]; cbn [attach_loop]; stably; try apply IH. by apply stable_kernel.
Qed.

(** A call of the tool that lets no thread go. *)
Definition keeps {A} (m : st (tool K) Z A) : Prop := forall R, stable (fun k => released k = R) m.

Lemma keeps_eq {A} (m : st (tool K) Z A) s : keeps m -> released (kernel (m s).2) = released (kernel s).
Proof. intros Hm. by apply (Hm (released (kernel s))). Qed.

Lemma quiet_released R : quiet (fun k => released k = R).
Proof. split; [intros k <-; apply time_threads|intros d k <-; apply usleep_threads]. Qed.

(** A call that leaves the thread [t] as it is. *)
Definition frozen (t : Z) {A} (m : st (tool K) Z A) : Prop := forall c, stable (fun k => held t k = c) m.

Lemma frozen_eq t {A} (m : st (tool K) Z A) s : frozen t m -> held t (kernel (m s).2) = held t (kernel s).
Proof. intros Hm. by apply (Hm (held t (kernel s))). Qed.

Lemma quiet_held t c : quiet (fun k => held t k = c).
Proof. split; [intros k <-; apply time_threads|intros d k <-; apply usleep_threads]. Qed.

Lemma keeps_ptrace request p : request <> PTRACE_DETACH -> keeps (ulp_ptrace fuel request p).
Proof. intros Hr R. apply stable_ptrace; [apply quiet_released|]. intros k <-. by apply request_law. Qed.

Lemma frozen_ptrace t request p : t <> p -> frozen t (ulp_ptrace fuel request p).
Proof. intros Hr c. apply stable_ptrace; [apply quiet_held|]. intros k <-. by apply other_law. Qed.

(** Branch by branch: the requests but [PTRACE_DETACH], and the clock. *)
Ltac keep := stably; try apply quiet_released; try (by apply keeps_ptrace).

Lemma keeps_poke_longs n : forall buf p a, keeps (poke_longs fuel n buf p a).
Proof. induction n as [|n IH]; intros buf p a R; cbn [poke_longs]; keep; apply IH. Qed.

Lemma keeps_write_ptrace buf p a : keeps (write_bytes_ptrace fuel buf p a).
Proof. intros R. unfold write_bytes_ptrace. keep. apply keeps_poke_longs. Qed.

Lemma keeps_write buf p a : keeps (write_bytes fuel buf p a).
Proof.
  intros R. unfold write_bytes. generalize 0 as acc. generalize fuel as n.
  induction n as [|n IH]; intros acc; cbn [write_retry]; keep; [|apply IH].
  apply stable_kernel. intros k <-. apply writev_released.
Qed.

Lemma keeps_read buf len p a : keeps (read_memory fuel buf len p a).
Proof.
  intros R. unfold read_memory. generalize 0 as acc. generalize buf as b. generalize fuel as n.
  induction n as [|n IH]; intros b acc; cbn [read_retry]; keep; [|apply IH].
  apply stable_kernel. intros k <-. apply readv_released.
Qed.

Lemma keeps_waitpid p b : keeps (on_kernel (waitpid p b)).
Proof. intros R. apply stable_kernel. intros k <-. apply waitpid_released. Qed.

Lemma keeps_poll n p t0 t : keeps (poll_loop n p t0 t).
Proof. intros R. induction n as [|n IH]; cbn [poll_loop]; keep; apply IH || apply keeps_waitpid. Qed.

Lemma keeps_run t p regs routine : keeps (run_and_redirect fuel t p regs routine).
Proof.
  intros R s Hs. unfold run_and_redirect.
  match goal with |- context [match ?m s with _ => _ end] => assert (E : stable (fun k => released k = R) m) end.
  { keep. apply keeps_poll. }
  specialize (E s Hs). destruct (bind _ _ s) as [[] ?]; exact E.
Qed.

Lemma keeps_seccomp p : keeps (disable_seccomp fuel p).
Proof. intros R. unfold disable_seccomp. keep. Qed.

Lemma keeps_get_regs p r : keeps (get_regs fuel p r).
Proof. intros R. unfold get_regs. keep. Qed.

Lemma keeps_attach p : keeps (attach fuel p).
Proof.
  intros R. apply stable_attach; [apply quiet_released| |]; intros k <-; [by apply request_law|apply waitpid_released].
Qed.

Lemma frozen_attach t p : t <> p -> frozen t (attach fuel p).
Proof.
  intros Hne c. apply stable_attach; [apply quiet_held| |]; intros k <-; [by apply other_law|by apply waitpid_other].
Qed.

Lemma frozen_get_regs t p r : t <> p -> frozen t (get_regs fuel p r).
Proof. intros Hne c. unfold get_regs. stably. by apply frozen_ptrace. Qed.

Lemma frozen_detach t p : t <> p -> frozen t (detach fuel p).
Proof. intros Hne c. unfold detach. stably. by apply frozen_ptrace. Qed.

(** What [detach] may add to the history. *)
Lemma detach_released p s :
  exists l, released (kernel (detach fuel p s).2) = l ++ released (kernel s) /\ forall t c, In (t, c) l -> t = p.
Proof.
  set (Q := fun k' : K => exists l, released k' = l ++ released (kernel s) /\ forall t c, In (t, c) l -> t = p).
  enough (Hq : stable Q (detach fuel p)) by (apply Hq; by exists []).
  unfold detach. stably. apply stable_ptrace.
  - split; [intros k (l & El & Hl)|intros d k (l & El & Hl)]; exists l; split; try done; rewrite <- El.
    + apply time_threads.
    + apply usleep_threads.
  - intros k (l & El & Hl). destruct (ptrace PTRACE_DETACH p k) as [r k'] eqn:Ep.
    pose proof (detach_law _ _ _ _ Ep) as L. destruct (_ =? 0); cbn [snd].
    + exists ((p, held p k) :: l). rewrite L, El. split; [done|]. intros t c [[= <- _]|Hx]; [done|by apply (Hl t c)].
    + exists l. by rewrite (proj1 L).
Qed.

Lemma code_snd {S} (m : st S Z Z) s : (code m s).2 = (m s).2.
Proof. unfold code. by destruct (m s) as [[] ?]. Qed.

(** What every write keeps of the world, the interpreter keeps. *)
Lemma interpret_world {W} `{WriteBackend W} (P : W -> Prop) q :
  (forall size a bs w, P w -> P (insn_interpret_write size a bs w).2) ->
  forall i, P (world i) -> P (world (insnq_interpret q i).2).
Proof.
  intros Hw. set (Q := fun i : istate W => P (world i)).
  assert (Hb : forall {A B} (m : st (istate W) Z A) (k : A -> st (istate W) Z B),
    (forall i, Q i -> Q (m i).2) -> (forall a i, Q i -> Q (k a i).2) -> forall i, Q i -> Q (bind m k i).2).
  { intros A B m k Hm Hk i Hi. unfold bind. pose proof (Hm i Hi) as E. destruct (m i) as [[a|e| |] i']; cbn [snd] in *; try done. by apply Hk. }
  assert (Hload : forall off n i, Q i -> Q (load (q_buffer q) off n i).2) by (intros; unfold load; by destruct (_ || _ || _)).
  assert (Hsize : forall pc i, Q i -> Q (insn_size (q_buffer q) pc i).2) by (intros; unfold insn_size; apply Hb; [apply Hload|done|done]).
  assert (Hloop : forall n pc i, Q i -> Q (interpret_loop (q_buffer q) n pc i).2).
  { induction n as [|n IH]; intros pc i Hi; cbn [interpret_loop]; [done|].
    apply Hb; [apply Hload| |done]. intros t i1 Hx1. cbv zeta. destruct (ulp_insn_valid _).
    - apply Hb; [|intros d; apply IH|done]. intros i2 Hx2. unfold insn_interpret. destruct (_ =? ULP_INSN_NOP); [done|].
      destruct (_ =? ULP_INSN_PRINT).
      + unfold insn_interpret_print. apply Hb; [apply Hload| |done]. intros x i3 Hx3. apply Hb; [|intros _; apply Hsize|done].
        intros i4 Hx4. by destruct (_ <? _).
      + destruct (_ =? ULP_INSN_WRITE); [|done]. unfold interpret_write.
        apply Hb; [apply Hsize| |done]. intros sz i3 Hx3. apply Hb; [apply Hload| |done]. intros x i4 Hx4.
        apply Hb; [apply Hload| |done]. intros y i5 Hx5. apply Hb; [apply Hload| |done]. intros z i6 Hx6.
        unfold Q in *. pose proof (Hw sz (le_val y) z (world i6) Hx6) as E. by destruct (insn_interpret_write _ _ _ _).
    - apply Hb; [done|done|done]. }
  intros i Hi. unfold insnq_interpret. rewrite code_snd. apply Hb; [apply Hloop| |done].
  intros pc i1 Hx1. destruct (negb _); [by apply Hb|]. destruct (negb _); [by apply Hb|done].
Qed.

(** Interpreting the queue only writes memory. *)
Lemma keeps_interpret p q : keeps (interpret fuel p q).
Proof.
  intros R s Hs. unfold interpret.
  pose proof (interpret_world (H1 := tool_backend fuel p) (fun w => released (kernel w) = R) q) as E.
  specialize (E ltac:(idtac; intros size a bs w Hw; pose proof (keeps_write_ptrace bs p a R w Hw) as E';
    unfold insn_interpret_write, tool_backend; destruct (write_bytes_ptrace fuel bs p a w) as [[] w']; exact E')).
  specialize (E {| world := s; output := []; warnings := [] |} Hs).
  by destruct (insnq_interpret _ _) as [r i].
Qed.

Lemma keeps_queue p d : keeps (insnq_interpret_from_process fuel p d).
Proof.
  intros R. unfold insnq_interpret_from_process, insnq_interpret_from_process_, insnq_get_from_remote_process, insnq_update_remote.
  keep; apply keeps_read || apply keeps_write || apply keeps_interpret.
Qed.

(** The last of the calls a request makes. *)
Lemma retry_last (I : K -> Prop) request p t0 n :
  (forall k r k', I k -> ptrace request p k = (r, k') -> r_errno r <> 0 -> I k') ->
  (forall k, I k -> I (time k).2) -> (forall d k, I k -> I (usleep d k)) ->
  forall s r s', I (kernel s) -> ulp_ptrace_retry n request p t0 s = (Ok r, s') ->
  exists k k', I k /\ ptrace request p k = (r, k') /\ (r_errno r = 0 -> kernel s' = k') /\ (r_errno r <> 0 -> I (kernel s')).
Proof.
  intros Hf Ht Hu. induction n as [|n IH]; intros s r s' Hi Hs; [done|]. cbn [ulp_ptrace_retry] in Hs.
  apply bind_ok_inv in Hs as (r1 & s1 & E1 & Hs). unfold on_kernel in E1.
  destruct (ptrace request p (kernel s)) as [r1' k1] eqn:Ep. injection E1 as -> <-. cbv zeta in Hs.
  destruct (_ || _ || _ || _ || _) eqn:Estop.
  { injection Hs as <- <-. exists (kernel s), k1. split_and!; try done. intros Hne. by apply (Hf _ _ _ Hi Ep). }
  apply orb_false_iff in Estop as [_ Eno]. zbool. pose proof (Hf _ _ _ Hi Ep Eno) as Hi1.
  apply bind_ok_inv in Hs as ([] & s2 & E2 & Hs).
  assert (Hi2 : I (kernel s2)) by (destruct (_ || _); injection E2 as <-; cbn; [by apply Hu|done]).
  apply bind_ok_inv in Hs as (t1 & s3 & E3 & Hs).
  assert (Hi3 : I (kernel s3)).
  { unfold on_kernel in E3. pose proof (Ht (kernel s2) Hi2) as Hx. destruct (time (kernel s2)). by injection E3 as <- <-. }
  destruct (t1 - t0 <? PTRACE_TIMEOUT); [by apply (IH s3)|].
  injection Hs as <- <-. exists (kernel s), k1. by split_and!.
Qed.

Lemma ptrace_last (I : K -> Prop) request p s r s' :
  (forall k r k', I k -> ptrace request p k = (r, k') -> r_errno r <> 0 -> I k') ->
  (forall k, I k -> I (time k).2) -> (forall d k, I k -> I (usleep d k)) ->
  I (kernel s) -> ulp_ptrace fuel request p s = (Ok r, s') ->
  exists k k', I k /\ ptrace request p k = (r, k') /\ (r_errno r = 0 -> kernel s' = k') /\ (r_errno r <> 0 -> I (kernel s')).
Proof.
  intros Hf Ht Hu Hi Hs. unfold ulp_ptrace in Hs.
  apply bind_ok_inv in Hs as (r1 & s1 & E1 & Hs). unfold on_kernel in E1.
  destruct (ptrace request p (kernel s)) as [r1' k1] eqn:Ep. injection E1 as -> <-.
  destruct (negb _) eqn:En.
  { injection Hs as <- <-. exists (kernel s), k1. split_and!; try done. intros Hne. by apply (Hf _ _ _ Hi Ep). }
  zbool. assert (Hne : r_errno r1 <> 0) by (intros E0; rewrite E0 in En; done).
  apply bind_ok_inv in Hs as (t0 & s2 & E2 & Hs). unfold on_kernel in E2. cbn [kernel] in E2.
  pose proof (Ht k1 (Hf _ _ _ Hi Ep Hne)) as Hx. destruct (time k1) as [t k2]. injection E2 as <- <-.
  by eapply retry_last in Hs.
Qed.

Lemma reply_ok request p k r k' : ptrace request p k = (r, k') -> (forall a, request <> PTRACE_PEEKDATA a) ->
  r_errno r = 0 <-> r_ret r = 0.
Proof. intros E Hn. pose proof (reply_law request p k) as L. rewrite E in L. destruct request; try done. by destruct (Hn addr). Qed.

(** The tool's primitives on one thread. *)
Lemma set_regs_ok x p s s' : set_regs fuel p x s = (Ok 0, s') ->
  held p (kernel s') = x /\ released (kernel s') = released (kernel s).
Proof.
  intros E. unfold set_regs in E. apply bind_ok_inv in E as (r & s1 & E1 & E).
  assert (Hr : r_ret r = 0 /\ s1 = s').
  { destruct (Z.eqb_spec (r_ret r) 0); cbn [negb] in E; [by injection E|].
    by apply bind_ok_inv in E as ([] & s2 & _ & [=]). }
  destruct Hr as [Hr <-].
  apply (ptrace_last (fun k => released k = released (kernel s))) in E1 as (k & k' & Hk & Ep & H0' & _); try done.
  - assert (He : r_errno r = 0) by (by apply (reply_ok _ _ _ _ _ Ep)). rewrite (H0' He). split; [by apply (setregs_law _ _ _ _ _ Ep)|].
    pose proof (request_law (PTRACE_SETREGS x) p k) as L. rewrite Ep in L. by rewrite <- Hk, <- L.
  - intros k0 r0 k0' Hk0 Ep0 _. pose proof (request_law (PTRACE_SETREGS x) p k0) as L. rewrite Ep0 in L. by rewrite <- Hk0, <- L.
  - intros k0 Hk0. by rewrite (proj1 (time_threads k0)).
  - intros d k0 Hk0. by rewrite (proj1 (usleep_threads d k0)).
Qed.

Lemma detach_ok p c s s' : held p (kernel s) = c -> detach fuel p s = (Ok 0, s') ->
  released (kernel s') = (p, c) :: released (kernel s).
Proof.
  intros Hc E. unfold detach in E. apply bind_ok_inv in E as (r & s1 & E1 & E).
  assert (Hr : r_ret r = 0 /\ s1 = s').
  { destruct (Z.eqb_spec (r_ret r) 0); cbn [negb] in E; [by injection E|].
    by apply bind_ok_inv in E as ([] & s2 & _ & [=]). }
  destruct Hr as [Hr <-].
  apply (ptrace_last (fun k => released k = released (kernel s) /\ held p k = c)) in E1 as (k & k' & [Hk Hh] & Ep & H0' & _); try done.
  - assert (He : r_errno r = 0) by (by apply (reply_ok _ _ _ _ _ Ep)). rewrite (H0' He).
    pose proof (detach_law _ _ _ _ Ep) as L. rewrite Hr in L. cbn in L. by rewrite L, Hk, Hh.
  - intros k0 r0 k0' [Hk0 Hh0] Ep0 Hne. pose proof (detach_law _ _ _ _ Ep0) as L.
    assert (Hn : r_ret r0 <> 0) by (intros X; apply Hne; by apply (reply_ok _ _ _ _ _ Ep0)).
    rewrite (proj2 (Z.eqb_neq _ _) Hn) in L. destruct L as [-> ->]. done.
  - intros k0 [Hk0 Hh0]. destruct (time_threads k0) as [-> L]. by rewrite L.
  - intros d k0 [Hk0 Hh0]. destruct (usleep_threads d k0) as [-> L]. by rewrite L.
Qed.

(** *** Calls on the process *)

(** A call that lets no thread go and does not touch what the tool knows of the process. *)
Definition ckeeps {A} (m : st (cstate K) Z A) : Prop := forall s,
  released (kernel (tl (m s).2)) = released (kernel (tl s)) /\ proc (m s).2 = proc s.

Lemma ckeeps_ret {A} (a : A) : ckeeps (ret a).
Proof. by intros s. Qed.
Lemma ckeeps_undef {A} : ckeeps (undef : st (cstate K) Z A).
Proof. by intros s. Qed.
Lemma ckeeps_gets {A} (f : cstate K -> A) : ckeeps (gets f).
Proof. by intros s. Qed.
Lemma ckeeps_lift {A} (m : st (tool K) Z A) : keeps m -> ckeeps (lift m).
Proof. intros Hm s. unfold lift. pose proof (keeps_eq m (tl s) Hm) as E. by destruct (m (tl s)) as [r t]. Qed.
Lemma ckeeps_log m : ckeeps (log m).
Proof. apply ckeeps_lift. intros R. apply stable_log. Qed.
Lemma ckeeps_bind {A B} (m : st (cstate K) Z A) (k : A -> st (cstate K) Z B) :
  ckeeps m -> (forall a, ckeeps (k a)) -> ckeeps (bind m k).
Proof.
  intros Hm Hk s. unfold bind. destruct (Hm s) as (E1 & E2). destruct (m s) as [[a|e| |] s']; cbn [snd] in *; try done.
  destruct (Hk a s') as (F1 & F2). by rewrite F1, F2.
Qed.

Ltac ckeep :=
  repeat first
    [ simple apply ckeeps_ret | simple apply ckeeps_undef | simple apply ckeeps_gets | simple apply ckeeps_log
    | simple apply ckeeps_bind; [|intros] | progress cbv zeta | case_goal ].

Lemma ckeeps_metadata bs : ckeeps (set_metadata_buffer fuel bs).
Proof. unfold set_metadata_buffer. ckeep; apply ckeeps_lift, keeps_write. Qed.

Lemma ckeeps_main t routine : ckeeps (run_main fuel t routine).
Proof. unfold run_main. ckeep; apply ckeeps_lift, keeps_run. Qed.

Lemma ckeeps_interpret : ckeeps (interpret_queue fuel).
Proof. unfold interpret_queue. ckeep; apply ckeeps_lift, keeps_queue. Qed.

Lemma ckeeps_apply t metadata seccomp : ckeeps (apply_patch fuel t metadata seccomp).
Proof.
  unfold apply_patch. ckeep; auto using ckeeps_metadata, ckeeps_main, ckeeps_interpret.
  apply ckeeps_lift, keeps_seccomp.
Qed.

Lemma ckeeps_revert t target lib : ckeeps (revert_patches_from_lib fuel t target lib).
Proof.
  unfold revert_patches_from_lib, set_string_buffer. ckeep; auto using ckeeps_metadata, ckeeps_main, ckeeps_interpret.
Qed.
(** *** Stopping and letting go *)

Lemma get_regs_ok p r0 s regs s' : get_regs fuel p r0 s = (Ok (0, regs), s') -> held p (kernel s') = regs.
Proof.
  intros E. unfold get_regs in E. apply bind_ok_inv in E as (r & s1 & E1 & E).
  assert (Hr : r_ret r = 0 /\ default r0 (r_regs r) = regs /\ s1 = s').
  { destruct (Z.eqb_spec (r_ret r) 0); cbn [negb] in E; [by injection E|].
    by apply bind_ok_inv in E as ([] & s2 & _ & [=]). }
  destruct Hr as (Hr & <- & <-).
  apply (ptrace_last (fun _ => True)) in E1 as (k & k' & _ & Ep & H0' & _); try done.
  assert (He : r_errno r = 0) by (by apply (reply_ok _ _ _ _ _ Ep)). rewrite (H0' He).
  destruct (getregs_law _ _ _ _ Ep) as [-> L]. by rewrite (L Hr).
Qed.

Lemma lift_ok {A} (m : st (tool K) Z A) s a s' :
  lift m s = (Ok a, s') <-> m (tl s) = (Ok a, tl s') /\ proc s' = proc s.
Proof.
  unfold lift. destruct (m (tl s)) as [r t]. split; [by intros [= -> <-]|].
  intros [[= -> ->] <-]. by destruct s'.
Qed.

(** The threads the tool knows are stopped, with the registers it has saved. *)
Definition stopped (s : cstate K) : Prop :=
  NoDup (map tid (threads (proc s))) /\
  Forall (fun x => held (tid x) (kernel (tl s)) = context x) (threads (proc s)) /\
  match main_thread (proc s) with
  | Some x => In x (threads (proc s)) /\ tid x = pid (proc s)
  | None => ~ In (pid (proc s)) (map tid (threads (proc s)))
  end.

(** [m] started where [P] holds ends where [Q] holds, or without a result where [E] holds. *)
Definition outcome {A} (P : cstate K -> Prop) (m : st (cstate K) Z A) (Q : A -> cstate K -> Prop) (E : cstate K -> Prop) : Prop :=
  forall s, P s -> match m s with (Ok a, s') => Q a s' | (_, s') => E s' end.

Lemma outcome_bind {A B} (m : st (cstate K) Z A) (k : A -> st (cstate K) Z B) P Q R E :
  outcome P m Q E -> (forall a, outcome (Q a) (k a) R E) -> outcome P (bind m k) R E.
Proof. intros Hm Hk s Hs. specialize (Hm s Hs). unfold bind. destruct (m s) as [[a|e| |] s1]; try done. by apply Hk. Qed.

Lemma outcome_throw {A} (P : cstate K -> Prop) e (Q : A -> cstate K -> Prop) (E : cstate K -> Prop) :
  (forall s, P s -> E s) -> outcome P (throw e) Q E.
Proof. intros Hp s Hs. by apply Hp. Qed.

(** What hijacking has done so far, the threads of [l] included. *)
Definition hijacking (s0 : cstate K) (l : list Z) (s : cstate K) : Prop :=
  stopped s /\ pid (proc s) = pid (proc s0) /\ all_threads_hijacked (proc s) = all_threads_hijacked (proc s0) /\
  released (kernel (tl s)) = released (kernel (tl s0)) /\
  forall t, In t l -> t <> 0 -> In t (map tid (threads (proc s))).

(** Where it stops on an error: at most the thread at hand was let go. *)
Definition interrupted (s0 s : cstate K) : Prop :=
  stopped s /\ pid (proc s) = pid (proc s0) /\ all_threads_hijacked (proc s) = all_threads_hijacked (proc s0) /\
  exists l, released (kernel (tl s)) = l ++ released (kernel (tl s0)) /\
    forall t c, In (t, c) l -> ~ In t (map tid (threads (proc s))).

Lemma hijacking_interrupted s0 l s : hijacking s0 l s -> interrupted s0 s.
Proof. intros (Hx1 & Hx2 & Hx3 & Hx4 & _). split_and!; try done. exists []. by rewrite Hx4. Qed.

Lemma lift_snd {A} (m : st (tool K) Z A) s : proc (lift m s).2 = proc s /\ tl (lift m s).2 = (m (tl s)).2.
Proof. unfold lift. by destruct (m (tl s)). Qed.

(** A call on a thread that is not yet known. *)
Lemma hijacking_lift {A} (m : st (tool K) Z A) s0 l t T : ~ In t (map tid T) ->
  keeps m -> (forall t', t' <> t -> frozen t' m) ->
  outcome (fun s => hijacking s0 l s /\ threads (proc s) = T) (lift m)
    (fun a s => (hijacking s0 l s /\ threads (proc s) = T) /\ exists w w', m w = (Ok a, w') /\ tl s = w') (interrupted s0).
Proof.
  intros Ht Hk Hf s [((Hnd & Hall & Hmain) & Hpid & Hh & Hrel & Hl) <-]. pose proof (lift_snd m s) as [P X].
  assert (Hs' : hijacking s0 l (lift m s).2 /\ threads (proc (lift m s).2) = threads (proc s)).
  { rewrite P. split; [|done]. unfold hijacking, stopped. rewrite P, X, (keeps_eq m _ Hk). split_and!; try done.
    apply Forall_forall. intros x Hx. rewrite <- (proj1 (Forall_forall _ _) Hall x Hx). apply frozen_eq, Hf.
    intros Et. apply Ht. rewrite <- Et. by apply in_map. }
  destruct (lift m s) as [[a|e| |] s'] eqn:E; try (by eapply hijacking_interrupted, Hs').
  split; [done|]. unfold lift in E. destruct (m (tl s)) as [r w'] eqn:Em. injection E as -> <-. eauto.
Qed.

Lemma hijacking_log m s0 l T :
  outcome (fun s => hijacking s0 l s /\ threads (proc s) = T) (log m)
    (fun _ s => hijacking s0 l s /\ threads (proc s) = T) (interrupted s0).
Proof. by intros s [Hs <-]. Qed.

Lemma hijacking_fail {A} m s0 l T (Q : A -> cstate K -> Prop) :
  outcome (fun s => hijacking s0 l s /\ threads (proc s) = T) (log m;;; throw 0) Q (interrupted s0).
Proof.
  eapply outcome_bind; [apply hijacking_log|]. intros []. apply outcome_throw. intros s [Hs _]. by eapply hijacking_interrupted.
Qed.

(** The thread whose registers cannot be read is let go. *)
Lemma interrupted_detach s0 l t T : ~ In t (map tid T) ->
  outcome (fun s => hijacking s0 l s /\ threads (proc s) = T) (let! _ := lift (detach fuel t) in throw 0)
    (fun _ : bool => hijacking s0 (t :: l)) (interrupted s0).
Proof.
  intros Ht s [((Hnd & Hall & Hmain) & Hpid & Hh & Hrel & Hl) <-].
  destruct (detach_released t (tl s)) as (l' & El & Hl'). pose proof (lift_snd (detach fuel t) s) as [P X].
  assert (Hs : interrupted s0 (lift (detach fuel t) s).2).
  { unfold interrupted, stopped. rewrite P, X. split_and!; try done.
    - apply Forall_forall. intros x Hx. rewrite <- (proj1 (Forall_forall _ _) Hall x Hx). apply frozen_eq, frozen_detach.
      intros Et. apply Ht. rewrite <- Et. by apply in_map.
    - exists l'. rewrite El, Hrel. split; [done|]. intros t' c Hx. by rewrite (Hl' t' c Hx). }
  unfold bind. by destruct (lift (detach fuel t) s) as [[] s'].
Qed.

(** One entry of the directory: the thread is among those stopped. *)
Lemma hijack_entry_ok s0 l calloc t :
  outcome (hijacking s0 l) (hijack_entry fuel calloc t) (fun _ => hijacking s0 (t :: l)) (interrupted s0).
Proof.
  intros s Hs. unfold hijack_entry. unfold bind at 1, gets at 1. cbv beta.
  destruct (Z.eqb_spec t 0) as [->|Ht].
  { destruct Hs as (Hx1 & Hx2 & Hx3 & Hx4 & Hx5). cbn. split_and!; try done. intros t [<-|Hx]; [done|by apply Hx5]. }
  destruct (search_thread _ t) eqn:Esearch.
  { destruct Hs as (Hx1 & Hx2 & Hx3 & Hx4 & Hx5). cbn. split_and!; try done.
    intros t' [<-|Hx]; [intros _; by eapply search_thread_some|by apply Hx5]. }
  apply search_thread_none in Esearch. destruct (negb calloc); [by apply (hijacking_fail _ s0 l (threads (proc s)))|].
  enough (Htr : outcome (fun s' => hijacking s0 l s' /\ threads (proc s') = threads (proc s))
    (let! e := lift (attach fuel t) in
     if negb (e =? 0) then log "unable to attach to %d.";;; throw 0
     else
       let! r := lift (get_regs fuel t {| rip := 0; rsp := 0; rax := 0; other_regs := [] |}) in
       let (e, regs) := r in
       if negb (e =? 0) then
         log "unable to get registers from %d.";;; (let! _ := lift (detach fuel t) in throw 0)
       else
         let x := {| tid := t; context := regs |} in
         update_proc (fun p => set_threads (x :: threads p) (if t =? pid p then Some x else main_thread p) p);;;
         ret true) (fun _ => hijacking s0 (t :: l)) (interrupted s0)) by (by apply Htr).
  eapply outcome_bind; [apply (hijacking_lift _ s0 l t); auto using keeps_attach, frozen_attach|intros e].
  intros s1 [Hs1 _]. destruct (negb (e =? 0)); [by apply (hijacking_fail _ s0 l (threads (proc s)))|].
  revert s1 Hs1. eapply outcome_bind; [apply (hijacking_lift _ s0 l t); auto using keeps_get_regs, frozen_get_regs|].
  intros [e1 regs] s2 [Hs2 (w & w' & Ew & E2)]. destruct (Z.eqb_spec e1 0) as [->|?]; cbn [negb].
  - apply get_regs_ok in Ew. destruct Hs2 as [((Hnd & Hall & Hmain) & Hpid & Hh & Hrel & Hl) Hth]. rewrite <- Hth in Esearch.
    cbn. split_and!; try done; cbn [proc set_threads threads pid main_thread map].
    + split_and!; cbn [proc tl set_threads threads pid main_thread map tid]; [by constructor| |].
      * constructor; [cbn; congruence|done].
      * destruct (Z.eqb_spec t (pid (proc s2))) as [Et|Hne]; [split; [by left|done]|]. revert Hmain.
        destruct (main_thread (proc s2)) as [x|]; [intros [Hx1 Hx2]; split; [by right|done]|].
        intros Hmain [Et|Hx]; [done|by apply Hmain].
    + intros t' [<-|Hx] Ht'; [by left|right; by apply Hl].
  - clear E2. revert s2 Hs2.
    eapply outcome_bind; [apply hijacking_log|intros []; by apply interrupted_detach].
Qed.

Lemma hijack_pass_ok s0 calloc tids : forall l,
  outcome (hijacking s0 l) (hijack_pass fuel calloc tids) (fun _ => hijacking s0 (rev tids ++ l)) (interrupted s0).
Proof.
  induction tids as [|t tids IH]; intros l; cbn [hijack_pass]; [by intros s|].
  eapply outcome_bind; [apply hijack_entry_ok|intros new]. cbn [rev]. rewrite <- app_assoc. cbn [app].
  eapply outcome_bind; [apply IH|intros more]. by intros s.
Qed.

(** The loop ends on a reading of the directory all of whose threads are stopped. *)
Lemma hijack_loop_ok s0 calloc listing n : forall i,
  outcome (hijacking s0 []) (hijack_loop fuel n calloc listing i)
    (fun _ s => exists j, (i <= j)%nat /\ (listing j).2 = 0 /\ hijacking s0 (listing j).1 s) (interrupted s0).
Proof.
  induction n as [|n IH]; intros i; cbn [hijack_loop]; [intros s; apply hijacking_interrupted|].
  destruct (listing i) as [tids errno] eqn:El. eapply outcome_bind; [apply hijack_pass_ok|]. intros loop s Hs.
  assert (Hs' : hijacking s0 tids s).
  { destruct Hs as (Hx1 & Hx2 & Hx3 & Hx4 & Hx5). split_and!; try done. intros t Hx.
    apply Hx5, in_or_app. left. by apply in_rev in Hx. }
  clear Hs. destruct (Z.eqb_spec errno 0) as [->|?]; cbn [negb].
  - destruct loop; [|exists i; by rewrite El]. specialize (IH (S i) s).
    destruct (hijack_loop _ _ _ _ _ s) as [[] s']; try (apply IH; destruct Hs' as (? & ? & ? & ? & ?); by split_and!).
    destruct IH as (j & Hj & Hx); [destruct Hs' as (? & ? & ? & ? & ?); by split_and!|]. exists j. split; [lia|done].
  - by apply (hijacking_fail _ s0 tids (threads (proc s))).
Qed.
(** The history after every thread of [l] is let go with its saved registers. *)
Definition let_go (l : list ulp_thread) : list (Z * registers_t) := rev (map (fun x => (tid x, context x)) l).

Lemma let_go_cons x l old : let_go l ++ (tid x, context x) :: old = let_go (x :: l) ++ old.
Proof. unfold let_go. cbn [map rev]. by rewrite <- app_assoc. Qed.

(** The threads known, and the mark, after a loop over the threads. *)
Definition forgot (s s' : cstate K) : Prop :=
  threads (proc s') = [] /\ (main_thread (proc s) = None -> main_thread (proc s') = None) /\
  (threads (proc s) <> [] -> main_thread (proc s') = None) /\
  all_threads_hijacked (proc s') = all_threads_hijacked (proc s) /\ pid (proc s') = pid (proc s).

Lemma lift_inv {A} (m : st (tool K) Z A) s r s' : lift m s = (r, s') -> m (tl s) = (r, tl s') /\ proc s' = proc s.
Proof. unfold lift. destruct (m (tl s)) as [r0 t]. by intros [= -> <-]. Qed.

Lemma warn_ok (b : bool) m (s s' : cstate K) : (if b then log m else ret tt : st (cstate K) Z unit) s = (Ok tt, s') ->
  kernel (tl s') = kernel (tl s) /\ proc s' = proc s.
Proof. destruct b; [|by intros [= <-]]. unfold log, lift, t_log. cbn. by intros [= <-]. Qed.

Lemma release_all_forgot l : forall s b s', threads (proc s) = l -> release_all fuel l s = (Ok b, s') -> forgot s s'.
Proof.
  induction l as [|x l IH]; intros s b s' Hl Hs; cbn [release_all] in Hs; [by injection Hs as _ <-; split_and!|].
  apply bind_ok_inv in Hs as (e & s1 & E1 & Hs). apply lift_inv in E1 as [_ P1].
  apply bind_ok_inv in Hs as ([] & s2 & E2 & Hs). apply warn_ok in E2 as [_ P2].
  apply bind_ok_inv in Hs as ([] & s3 & [= <-] & Hs). apply bind_ok_inv in Hs as (fatal & s4 & E4 & [= _ <-]).
  apply IH in E4 as (Hx1 & Hx2 & _ & Hx4 & Hx5); [|done]. cbn in *. rewrite P2, P1 in *. unfold forgot. rewrite Hl. by split_and!; auto.
Qed.

Lemma restore_loop_forgot l : forall s b s', threads (proc s) = l -> restore_loop fuel l s = (Ok b, s') -> forgot s s'.
Proof.
  induction l as [|x l IH]; intros s b s' Hl Hs; cbn [restore_loop] in Hs; [by injection Hs as _ <-; split_and!|].
  apply bind_ok_inv in Hs as (e & s1 & E1 & Hs). apply lift_inv in E1 as [_ P1].
  apply bind_ok_inv in Hs as ([] & s2 & E2 & Hs). apply warn_ok in E2 as [_ P2].
  apply bind_ok_inv in Hs as (e' & s1' & E1' & Hs). apply lift_inv in E1' as [_ P1'].
  apply bind_ok_inv in Hs as ([] & s2' & E2' & Hs). apply warn_ok in E2' as [_ P2'].
  apply bind_ok_inv in Hs as ([] & s3 & [= <-] & Hs). apply bind_ok_inv in Hs as (fatal & s4 & E4 & [= _ <-]).
  apply IH in E4 as (Hx1 & Hx2 & _ & Hx4 & Hx5); [|done]. cbn in *. rewrite P2', P1', P2, P1 in *. unfold forgot. rewrite Hl. by split_and!; auto.
Qed.

(** Detaching lets the threads go with the registers they have. *)
Lemma release_all_ok l : forall s s', NoDup (map tid l) ->
  Forall (fun x => held (tid x) (kernel (tl s)) = context x) l ->
  release_all fuel l s = (Ok false, s') -> released (kernel (tl s')) = let_go l ++ released (kernel (tl s)).
Proof.
  induction l as [|x l IH]; intros s s' Hnd Hall Hs; cbn [release_all] in Hs; [by injection Hs as <-|].
  apply bind_ok_inv in Hs as (e & s1 & E1 & Hs). apply lift_inv in E1 as [E1 _].
  apply bind_ok_inv in Hs as ([] & s2 & E2 & Hs). apply warn_ok in E2 as [K2 _].
  apply bind_ok_inv in Hs as ([] & s3 & [= <-] & Hs). apply bind_ok_inv in Hs as (fatal & s4 & E4 & [= Hb <-]).
  apply orb_false_iff in Hb as [He ->]. destruct (Z.eqb_spec e 0) as [->|]; [|done].
  inversion Hnd as [|? ? Hin Hnd']; subst. apply Forall_cons_iff in Hall as [Hx Hall].
  apply IH in E4; [|done|].
  - rewrite E4, <- let_go_cons. cbn [tl kernel]. by rewrite K2, (detach_ok _ _ _ _ Hx E1).
  - cbn [tl kernel]. rewrite K2. apply Forall_forall. intros y Hy. rewrite <- (proj1 (Forall_forall _ _) Hall y Hy).
    pose proof (frozen_eq (tid y) _ (tl s) (frozen_detach (tid y) (tid x) ltac:(intros Ey; apply Hin; rewrite <- Ey; by apply in_map))) as L.
    by rewrite E1 in L.
Qed.

(** Restoring lets the threads go with the registers that were saved. *)
Lemma restore_loop_ok l : forall s s',
  restore_loop fuel l s = (Ok false, s') -> released (kernel (tl s')) = let_go l ++ released (kernel (tl s)).
Proof.
  induction l as [|x l IH]; intros s s' Hs; cbn [restore_loop] in Hs; [by injection Hs as <-|].
  apply bind_ok_inv in Hs as (e1 & s1 & E1 & Hs). apply lift_inv in E1 as [E1 _].
  apply bind_ok_inv in Hs as ([] & s2 & E2 & Hs). apply warn_ok in E2 as [K2 _].
  apply bind_ok_inv in Hs as (e2 & s3 & E3 & Hs). apply lift_inv in E3 as [E3 _].
  apply bind_ok_inv in Hs as ([] & s4 & E4 & Hs). apply warn_ok in E4 as [K4 _].
  apply bind_ok_inv in Hs as ([] & s5 & [= <-] & Hs). apply bind_ok_inv in Hs as (errors & s6 & E6 & [= Hb <-]).
  apply orb_false_iff in Hb as [Hb ->]. apply orb_false_iff in Hb as [He1 He2].
  destruct (Z.eqb_spec e1 0) as [->|]; [|done]. destruct (Z.eqb_spec e2 0) as [->|]; [|done].
  apply set_regs_ok in E1 as [Hh Hr]. rewrite <- K2 in Hh, Hr. apply IH in E6.
  rewrite E6, <- let_go_cons. cbn [tl kernel]. by rewrite K4, (detach_ok _ _ _ _ Hh E3), Hr.
Qed.
(** A process the tool has not stopped. *)
Definition idle (s : cstate K) : Prop :=
  threads (proc s) = [] /\ main_thread (proc s) = None /\ all_threads_hijacked (proc s) = false.

Lemma idle_hijacking s : idle s -> hijacking s [] s.
Proof.
  intros (Ht & Hm & _). split_and!; try done. unfold stopped. rewrite Ht, Hm. split_and!; [constructor|done|by intros []].
Qed.

Lemma hijack_success opendir calloc listing s s' : idle s -> hijack_threads fuel opendir calloc listing s = (Ok 0, s') ->
  all_threads_hijacked (proc s') = true /\ stopped s' /\ released (kernel (tl s')) = released (kernel (tl s)) /\
  pid (proc s') = pid (proc s) /\
  exists j, (listing j).2 = 0 /\ forall t, In t (listing j).1 -> t <> 0 -> In t (map tid (threads (proc s'))).
Proof.
  intros Hi Hs. unfold hijack_threads in Hs. rewrite (proj2 (proj2 Hi)) in Hs.
  destruct (Z.eqb_spec opendir 0) as [->|?]; cbn [negb] in Hs.
  2:{ destruct (_ =? ENOENT); [done|]. by apply bind_ok_inv in Hs as ([] & ? & _ & [=]). }
  pose proof (hijack_loop_ok s calloc listing fuel 0%nat s (idle_hijacking s Hi)) as L.
  destruct (hijack_loop _ _ _ _ _ s) as [[[]|e| |] s1]; try done.
  - injection Hs as <-. destruct L as (j & _ & Ej & Hst & Hp & Hh & Hr & Hin). cbn. split_and!; try done. by exists j.
  - apply bind_ok_inv in Hs as (p & ? & [= <- <-] & Hs). apply bind_ok_inv in Hs as (f & s2 & _ & Hs).
    by destruct f.
Qed.

Lemma hijack_failed opendir calloc listing s e s' : idle s -> e <> 0 ->
  hijack_threads fuel opendir calloc listing s = (Ok e, s') ->
  idle s' /\ pid (proc s') = pid (proc s) /\
  (e = ETHRDDETTACH \/ exists s1, interrupted s s1 /\
     released (kernel (tl s')) = let_go (threads (proc s1)) ++ released (kernel (tl s1))).
Proof.
  intros Hi He Hs. unfold hijack_threads in Hs. rewrite (proj2 (proj2 Hi)) in Hs.
  assert (Hhere : interrupted s s) by (eapply hijacking_interrupted, idle_hijacking, Hi).
  destruct (Z.eqb_spec opendir 0) as [->|?]; cbn [negb] in Hs.
  2:{ assert (Hx : proc s' = proc s /\ kernel (tl s') = kernel (tl s)).
      { destruct (_ =? ENOENT); [by injection Hs as _ <-|]. apply bind_ok_inv in Hs as ([] & s1 & E1 & [= _ <-]).
        unfold log, lift, t_log in E1. cbn in E1. by injection E1 as <-. }
      destruct Hx as [Hx Hk]. unfold idle. rewrite Hx. split_and!; try done; try apply Hi. right. exists s. split; [done|].
      by rewrite Hk, (proj1 Hi). }
  pose proof (hijack_loop_ok s calloc listing fuel 0%nat s (idle_hijacking s Hi)) as L.
  destruct (hijack_loop _ _ _ _ _ s) as [[[]|e1| |] s1]; try done; [by injection Hs as <- _|].
  apply bind_ok_inv in Hs as (p & ? & [= <- <-] & Hs). apply bind_ok_inv in Hs as (fatal & s2 & E2 & [= <- <-]).
  pose proof L as ((Hnd & Hall & Hmain) & Hp & Hh & _).
  apply release_all_forgot in E2 as Hf; [|done]. destruct Hf as (Ht & Hm1 & Hm2 & Hh2 & Hp2).
  split_and!; [|congruence|].
  - split_and!; [done| |rewrite Hh2, Hh; apply Hi].
    destruct (threads (proc s1)) eqn:Et; [|by apply Hm2]. apply Hm1.
    destruct (main_thread (proc s1)); [by destruct Hmain as [[] _]|done].
  - destruct fatal; [by left|right]. exists s1. split; [done|]. by apply (release_all_ok (threads (proc s1))).
Qed.

(** The codes are positive: a task directory that does not open has an [errno]. *)
Lemma hijack_codes opendir calloc listing s e s' : idle s -> 0 <= opendir ->
  hijack_threads fuel opendir calloc listing s = (Ok e, s') -> 0 <= e.
Proof.
  intros Hi Ho Hs. unfold hijack_threads in Hs. rewrite (proj2 (proj2 Hi)) in Hs.
  destruct (Z.eqb_spec opendir 0) as [->|?]; cbn [negb] in Hs.
  - destruct (hijack_loop _ _ _ _ _ s) as [[[]|e1| |] s1]; try done; [by injection Hs as <- _|].
    apply bind_ok_inv in Hs as (p & ? & [= <- <-] & Hs). apply bind_ok_inv in Hs as (f & s2 & _ & [= <- _]).
    by destruct f.
  - destruct (_ =? ENOENT); [by injection Hs as <- _|]. by apply bind_ok_inv in Hs as ([] & ? & _ & [= <- _]).
Qed.

Lemma restore_success s s' : restore_threads fuel s = (Ok 0, s') ->
  released (kernel (tl s')) = let_go (threads (proc s)) ++ released (kernel (tl s)).
Proof.
  intros Hs. unfold restore_threads in Hs. apply bind_ok_inv in Hs as ([] & s1 & [= <-] & Hs).
  apply bind_ok_inv in Hs as (p & ? & [= <- <-] & Hs). apply bind_ok_inv in Hs as (errors & s2 & E2 & [= Hb <-]).
  destruct errors; [done|]. by apply (restore_loop_ok (threads (proc s))) in E2.
Qed.

(** Restoring, with errors or not, leaves nothing to restore. *)
Lemma restore_idle s e s' : (threads (proc s) = [] -> main_thread (proc s) = None) ->
  restore_threads fuel s = (Ok e, s') -> idle s' /\ pid (proc s') = pid (proc s) /\ (e = 0 \/ e = 1).
Proof.
  intros Hmain Hs. unfold restore_threads in Hs. apply bind_ok_inv in Hs as ([] & s1 & [= <-] & Hs).
  apply bind_ok_inv in Hs as (p & ? & [= <- <-] & Hs). apply bind_ok_inv in Hs as (errors & s2 & E2 & [= <- <-]).
  apply restore_loop_forgot in E2 as (Ht & Hm1 & Hm2 & Hh & Hp); [|done]. cbn in *.
  assert (main_thread (proc s2) = None) by (destruct (threads (proc s)) eqn:Et; [by apply Hm1, Hmain|by apply Hm2]).
  split_and!; [by split_and!|done|destruct errors; auto].
Qed.

(** C7. The critical section is transparent to the threads of the process: when
    [hijack_threads] succeeds, every thread of the last reading of the task
    directory is stopped, once, with its registers saved, and none was let go;
    and when then, whatever [apply_patch] or [revert_patches_from_lib] made the
    main thread run, [restore_threads] succeeds, each of these threads was let go
    exactly once, with the registers it was stopped with, and no other. *)
Theorem critical_section_transparent timeout opendir calloc listing s s1 r s2 s3 (op : st (cstate K) Z Z) :
  idle s ->
  hijack_threads fuel opendir calloc listing s = (Ok 0, s1) ->
  (exists metadata seccomp, op = apply_patch fuel timeout metadata seccomp) \/
  (exists target lib, op = revert_patches_from_lib fuel timeout target lib) ->
  op s1 = (r, s2) ->
  restore_threads fuel s2 = (Ok 0, s3) ->
  let stopped_tids := map tid (threads (proc s1)) in
  NoDup stopped_tids /\
  (exists j, (listing j).2 = 0 /\ forall t, In t (listing j).1 -> t <> 0 -> In t stopped_tids) /\
  released (kernel (tl s3)) =
    rev (map (fun t => (t, held t (kernel (tl s1)))) stopped_tids) ++ released (kernel (tl s)).
Proof.
  intros Hi Hh Hop Ho Hr tids.
  destruct (hijack_success _ _ _ _ _ Hi Hh) as (_ & (Hnd & Hall & _) & Hrel & _ & Hj).
  assert (Hk : ckeeps op) by (destruct Hop as [(m & b & ->)|(t & l & ->)]; [apply ckeeps_apply|apply ckeeps_revert]).
  destruct (Hk s1) as (Hrel2 & Hth). rewrite Ho in Hrel2, Hth. cbn [snd] in *.
  split_and!; [done|done|]. rewrite (restore_success _ _ Hr), Hth, Hrel2, Hrel. unfold let_go, tids. rewrite map_map.
  do 2 f_equal. apply map_ext_in. intros x Hx. by rewrite (proj1 (Forall_forall _ _) Hall x Hx).
Qed.

(** When [hijack_threads] fails the process is as it was for the tool: no
    thread is recorded and another attempt may be made; and unless the error is
    [ETHRDDETTACH], the threads stopped so far ([s1] is where it failed) were let
    go, each exactly once and with the registers it was stopped with. *)
Theorem hijack_error opendir calloc listing s e s' :
  idle s -> e <> 0 ->
  hijack_threads fuel opendir calloc listing s = (Ok e, s') ->
  idle s' /\ pid (proc s') = pid (proc s) /\
  (e <> ETHRDDETTACH -> exists s1,
     NoDup (map tid (threads (proc s1))) /\
     released (kernel (tl s')) =
       rev (map (fun t => (t, held t (kernel (tl s1)))) (map tid (threads (proc s1)))) ++ released (kernel (tl s1)) /\
     exists l, released (kernel (tl s1)) = l ++ released (kernel (tl s)) /\
       forall t c, In (t, c) l -> ~ In t (map tid (threads (proc s1)))).
Proof.
  intros Hi He Hs. destruct (hijack_failed _ _ _ _ _ _ Hi He Hs) as (Hi' & Hp & Hx). split_and!; try done.
  intros Hne. destruct Hx as [->|(s1 & ((Hnd & Hall & _) & _ & _ & Hl) & ->)]; [done|]. exists s1. split_and!; try done.
  unfold let_go. rewrite map_map. do 2 f_equal. apply map_ext_in. intros x Hx.
  by rewrite (proj1 (Forall_forall _ _) Hall x Hx).
Qed.
End threads.
