(* ===== verification/Tracees.v ===== *)
(** * The threads as the kernel sees them

    [Critical] follows what the tool records of the threads it stops. Here the
    kernel's own view is followed: which threads are attached, which are stopped,
    and with which registers each was caught. What the tool reports is compared
    with that view: after [hijack_threads] every recorded thread is stopped, and
    what was caught is let go again with the registers it had, or the tool says
    that it could not. *)

From stdpp Require Import gmap.
From S2P Require Import Prelude Errors Memory Metadata InsnQueue Ptrace InsnQueueTool Critical.

Open Scope ulp_scope.

(** A thread is not traced by the tool, attached but not yet stopped, stopped, or
    continued by the tool. *)
Inductive tracee := Free | Attached | Halted | Resumed.

#[export] Instance tracee_eq : EqDecision tracee.
Proof. solve_decision. Defined.

(** [ptrace(2)] and [waitpid(2)] on the threads. [caught] is the history of the
    stops that follow an attachment, with the registers of the thread then. *)
Class TraceeLaws (K : Type) `{ThreadLaws K} := {
  phase : Z -> K -> tracee;
  caught : K -> list (Z * registers_t);
  attach_phase : forall p k r k', ptrace PTRACE_ATTACH p k = (r, k') ->
    phase p k' = if r_ret r =? 0 then Attached else phase p k;
  detach_phase : forall p k r k', ptrace PTRACE_DETACH p k = (r, k') ->
    phase p k' = if r_ret r =? 0 then Free else phase p k;
  request_phase : forall r p k t,
    t <> p \/ match r with PTRACE_ATTACH | PTRACE_DETACH | PTRACE_CONT => False | _ => True end ->
    phase t (ptrace r p k).2 = phase t k;
  cont_phase : forall p k, phase p k <> Attached -> phase p (ptrace PTRACE_CONT p k).2 <> Attached;
  request_caught : forall r p k, caught (ptrace r p k).2 = caught k;
  wait_stop : forall p b k st k', waitpid p b k = (WaitPid p st, k') -> wifstopped st = true ->
    phase p k' = Halted /\
    caught k' = if bool_decide (phase p k = Attached) then (p, held p k') :: caught k else caught k;
  wait_same : forall p b k w k', waitpid p b k = (w, k') ->
    (forall st, w = WaitPid p st -> wifstopped st = false) ->
    caught k' = caught k /\
    (phase p k' = phase p k \/
     phase p k' = Free /\ exists st, w = WaitPid p st /\ (wifexited st = true \/ wifsignaled st = true));
  wait_error : forall p b k e k', waitpid p b k = (WaitError e, k') -> e <> 0;
  wait_phase : forall p b k t, t <> p -> phase t (waitpid p b k).2 = phase t k;
  writev_phase : forall p bs a k, caught (process_vm_writev p bs a k).2 = caught k /\
    forall t, phase t (process_vm_writev p bs a k).2 = phase t k;
  readv_phase : forall p n a k, caught (process_vm_readv p n a k).2 = caught k /\
    forall t, phase t (process_vm_readv p n a k).2 = phase t k;
  time_phase : forall k, caught (time k).2 = caught k /\ forall t, phase t (time k).2 = phase t k;
  usleep_phase : forall n k, caught (usleep n k) = caught k /\ forall t, phase t (usleep n k) = phase t k }.

(** ** Steps of the tool that stay within a relation

    A reflexive and transitive relation that every system call of a routine
    respects holds between the states before and after the routine. *)
Section within.
Context {K : Type} `{Kernel K}.
Variable fuel : nat.
Variable R : tool K -> tool K -> Prop.

Definition within {A} (m : st (tool K) Z A) : Prop := forall s, R s (m s).2.

(** The tool after a system call. *)
Definition at_kernel (k : K) (s : tool K) : tool K := {| kernel := k; tlog := tlog s |}.
Definition allows (request : ptrace_request) (p : Z) : Prop :=
  forall s, R s (at_kernel (ptrace request p (kernel s)).2 s).
Definition waits (p : Z) : Prop := forall b s, R s (at_kernel (waitpid p b (kernel s)).2 s).

(** What every routine may do. *)
Record harmless : Prop := {
  h_refl : forall s, R s s;
  h_trans : forall s1 s2 s3, R s1 s2 -> R s2 s3 -> R s1 s3;
  h_log : forall m s, R s {| kernel := kernel s; tlog := m :: tlog s |};
  h_time : forall s, R s (at_kernel (time (kernel s)).2 s);
  h_usleep : forall d s, R s (at_kernel (usleep d (kernel s)) s) }.

(** What the routines that access the memory and the registers do besides. *)
Record data_access : Prop := {
  d_harmless : harmless;
  d_peek : forall a p, allows (PTRACE_PEEKDATA a) p;
  d_poke : forall a w p, allows (PTRACE_POKEDATA a w) p;
  d_getregs : forall p, allows PTRACE_GETREGS p;
  d_setregs : forall x p, allows (PTRACE_SETREGS x) p;
  d_seccomp : forall p, allows PTRACE_SUSPEND_SECCOMP p;
  d_writev : forall p bs a s, R s (at_kernel (process_vm_writev p bs a (kernel s)).2 s);
  d_readv : forall p n a s, R s (at_kernel (process_vm_readv p n a (kernel s)).2 s) }.

Lemma within_kernel {A} (f : K -> A * K) : (forall s, R s (at_kernel (f (kernel s)).2 s)) -> within (on_kernel f).
Proof. intros Hf s. unfold on_kernel. specialize (Hf s). by destruct (f (kernel s)). Qed.

Section steps.
Hypothesis HR : harmless.

Lemma within_ret {A} (a : A) : within (ret a).
Proof. intros s. by apply h_refl. Qed.
Lemma within_throw {A} e : within (throw e : st (tool K) Z A).
Proof. intros s. by apply h_refl. Qed.
Lemma within_nofuel {A} : within (nofuel : st (tool K) Z A).
Proof. intros s. by apply h_refl. Qed.
Lemma within_undef {A} : within (undef : st (tool K) Z A).
Proof. intros s. by apply h_refl. Qed.
Lemma within_log m : within (t_log m).
Proof. intros s. by apply (h_log HR). Qed.
Lemma within_bind {A B} (m : st (tool K) Z A) (k : A -> st (tool K) Z B) :
  within m -> (forall a, within (k a)) -> within (bind m k).
Proof.
  intros Hm Hk s. unfold bind. specialize (Hm s). destruct (m s) as [[a|e| |] s1]; cbn [snd] in *; try done.
  by eapply (h_trans HR); [|apply Hk].
Qed.
Lemma within_code (m : st (tool K) Z Z) : within m -> within (code m).
Proof. intros Hm s. rewrite code_snd. apply Hm. Qed.
Lemma within_time : within (on_kernel time).
Proof. apply within_kernel, (h_time HR). Qed.
Lemma within_usleep d : within (on_kernel (fun k => (tt, usleep d k))).
Proof. apply within_kernel. intros s. apply (h_usleep HR). Qed.
End steps.

(** Branch by branch. *)
Ltac inside := repeat first
  [ assumption | simple apply within_ret; assumption | simple apply within_throw; assumption | simple apply within_undef; assumption
  | simple apply within_nofuel; assumption | simple apply within_log; assumption | simple apply within_time; assumption
  | simple apply within_usleep; assumption | simple apply within_code | simple apply within_bind; [assumption| |intros]
  | progress cbv zeta | case_goal ].

Lemma within_ptrace request p : harmless -> allows request p -> within (ulp_ptrace fuel request p).
Proof.
  intros HR Hr. assert (Hc : within (on_kernel (ptrace request p))) by (by apply within_kernel).
  assert (Hretry : forall n t0, within (ulp_ptrace_retry n request p t0)).
  { induction n as [|n IH]; intros t0; cbn [ulp_ptrace_retry]; inside. apply IH. }
  unfold ulp_ptrace. inside; apply Hretry.
Qed.

Lemma within_attach p : harmless -> allows PTRACE_ATTACH p -> waits p -> within (attach fuel p).
Proof.
  intros HR Ha Hw. unfold attach. apply within_bind; [done|by apply within_ptrace|intros r]. case_goal; [inside|].
  assert (Hc : within (on_kernel (waitpid p false))) by (apply within_kernel; intros s; apply Hw).
  generalize fuel as n. induction n as [|n IH]; cbn [attach_loop]; inside.
Qed.

Lemma within_detach p : harmless -> allows PTRACE_DETACH p -> within (detach fuel p).
Proof. intros HR Hd. unfold detach. apply within_bind; [done|by apply within_ptrace|intros r]. inside. Qed.

Section access.
Hypothesis HD : data_access.

Lemma access_harmless : harmless.
Proof. apply HD. Qed.

Ltac access := try pose proof access_harmless as HR0; inside;
  try (apply within_ptrace; [done|]; first [apply (d_peek HD)|apply (d_poke HD)|apply (d_getregs HD)|apply (d_setregs HD)|apply (d_seccomp HD)]).

Lemma within_get_regs p r : within (get_regs fuel p r).
Proof. unfold get_regs. access. Qed.

Lemma within_set_regs p r : within (set_regs fuel p r).
Proof. unfold set_regs. access. Qed.

Lemma within_seccomp p : within (disable_seccomp fuel p).
Proof. unfold disable_seccomp. access. Qed.

Lemma within_poke_longs n : forall buf p a, within (poke_longs fuel n buf p a).
Proof. induction n as [|n IH]; intros buf p a; cbn [poke_longs]; access. apply IH. Qed.

Lemma within_write_ptrace buf p a : within (write_bytes_ptrace fuel buf p a).
Proof. unfold write_bytes_ptrace. access. apply within_poke_longs. Qed.

Lemma within_write buf p a : within (write_bytes fuel buf p a).
Proof.
  unfold write_bytes. generalize 0 as acc. generalize fuel as n.
  induction n as [|n IH]; intros acc; cbn [write_retry]; access; [|apply IH].
  apply within_kernel. intros s. apply (d_writev HD).
Qed.

Lemma within_read buf len p a : within (read_memory fuel buf len p a).
Proof.
  unfold read_memory. generalize 0 as acc. generalize buf as b. generalize fuel as n.
  induction n as [|n IH]; intros b acc; cbn [read_retry]; access; [|apply IH].
  apply within_kernel. intros s. apply (d_readv HD).
Qed.

Lemma within_interpret p q : within (interpret fuel p q).
Proof.
  intros s. unfold interpret.
  pose proof (interpret_world (H1 := tool_backend fuel p) (R s) q) as E.
  specialize (E ltac:(idtac; intros size a bs w Hw; pose proof (h_trans access_harmless _ _ _ Hw (within_write_ptrace bs p a w)) as E';
    unfold insn_interpret_write, tool_backend; destruct (write_bytes_ptrace fuel bs p a w) as [[] w']; exact E')).
  specialize (E {| world := s; output := []; warnings := [] |} (h_refl access_harmless s)).
  by destruct (insnq_interpret _ _) as [r i].
Qed.

Lemma within_queue p d : within (insnq_interpret_from_process fuel p d).
Proof.
  unfold insnq_interpret_from_process, insnq_interpret_from_process_, insnq_get_from_remote_process, insnq_update_remote.
  access; apply within_read || apply within_write || apply within_interpret.
Qed.

Lemma within_compatible p d : within (insnq_check_compatibility fuel p d).
Proof. unfold insnq_check_compatibility, insnq_get_version. access; apply within_read. Qed.

(** A routine of libpulp is run: the thread is continued, and waited for. *)
Lemma within_run t p regs routine : allows PTRACE_CONT p -> waits p -> within (run_and_redirect fuel t p regs routine).
Proof.
  intros Hc Hw s. unfold run_and_redirect.
  match goal with |- context [match ?m s with _ => _ end] => assert (E : within m) end.
  { assert (Hw' : within (on_kernel (waitpid p true))) by (apply within_kernel; intros s1; apply Hw).
    assert (Hp : forall n t0 t1, within (poll_loop n p t0 t1)).
    { induction n as [|n IH]; intros t0 t1; cbn [poll_loop]; access; apply IH. }
    access; [apply within_ptrace; [apply access_harmless|done]|apply Hp]. }
  specialize (E s). destruct (bind _ _ s) as [[] ?]; exact E.
Qed.
End access.
End within.

(** ** What the tool says *)

(** The messages of the requests that let threads go, or wait for them to stop,
    when they fail; most are debug messages. *)
Definition letting_go_failed : list string :=
  [ "PTRACE_DETACH error: %s.\n"; "Restoring thread failed (set_regs).";
    "waitpid error (pid %d): %s.\n"; "Process %d exited while waiting for stop signal.";
    "Process %d terminated by a signal while waiting for stop signal." ]%string.

(** The log only grows; one of these messages is new. *)
Definition grows {K} (s s' : tool K) : Prop := exists new, tlog s' = (new ++ tlog s)%list.
Definition complains {K} (s s' : tool K) : Prop :=
  exists new m, tlog s' = (new ++ tlog s)%list /\ In m new /\ In m letting_go_failed.

Lemma grows_refl {K} (s : tool K) : grows s s.
Proof. by exists []. Qed.
Lemma grows_same {K} (s s' : tool K) : tlog s' = tlog s -> grows s s'.
Proof. intros E. by exists []. Qed.
Lemma grows_trans {K} (s1 s2 s3 : tool K) : grows s1 s2 -> grows s2 s3 -> grows s1 s3.
Proof. intros [l1 E1] [l2 E2]. exists (l2 ++ l1)%list. by rewrite E2, E1, app_assoc. Qed.
Lemma complains_before {K} (s1 s2 s3 : tool K) : complains s1 s2 -> grows s2 s3 -> complains s1 s3.
Proof.
  intros (l1 & m & E1 & Hm & Hl) [l2 E2]. exists (l2 ++ l1)%list, m. split_and!; [by rewrite E2, E1, app_assoc| |done].
  apply in_or_app. by right.
Qed.
Lemma complains_after {K} (s1 s2 s3 : tool K) : grows s1 s2 -> complains s2 s3 -> complains s1 s3.
Proof.
  intros [l1 E1] (l2 & m & E2 & Hm & Hl). exists (l2 ++ l1)%list, m. split_and!; [by rewrite E2, E1, app_assoc| |done].
  apply in_or_app. by left.
Qed.

Section tracees.
Context {K : Type} `{TraceeLaws K}.
Variable fuel : nat.

(** Every thread but [o] is as it was, and nothing was caught. *)
Definition calm (o : option Z) (s s' : tool K) : Prop :=
  grows s s' /\ (forall t, Some t <> o -> phase t (kernel s') = phase t (kernel s)) /\
  ((forall p, o = Some p -> phase p (kernel s) <> Attached) ->
   (forall p, o = Some p -> phase p (kernel s') <> Attached) /\ caught (kernel s') = caught (kernel s)).

Lemma calm_trans o s1 s2 s3 : calm o s1 s2 -> calm o s2 s3 -> calm o s1 s3.
Proof.
  intros (G1 & P1 & C1) (G2 & P2 & C2). split_and!; [by eapply grows_trans|by intros t Ht; rewrite P2, P1|].
  intros Ho. destruct (C1 Ho) as [Ho1 E1]. destruct (C2 Ho1) as [Ho2 E2]. split; [done|congruence].
Qed.

(** A system call that touches no thread and catches none. *)
Lemma calm_still o k s : (forall t, phase t k = phase t (kernel s)) -> caught k = caught (kernel s) -> calm o s (at_kernel k s).
Proof. intros Hp Hc. split_and!; [by apply grows_same|done|]. intros Ho. split; [intros p E; cbn; rewrite Hp; auto|done]. Qed.

Lemma calm_refl o s : calm o s s.
Proof. split_and!; [apply grows_refl|done|done]. Qed.

Lemma calm_weaken o s s' : calm None s s' -> calm o s s'.
Proof.
  intros (G & P & C). destruct (C ltac:(done)) as [_ E]. split_and!; [done|by intros t _; apply P|].
  intros Ho. split; [|done]. intros p Ep. rewrite P; [auto|done].
Qed.

Lemma calm_harmless o : harmless (calm o).
Proof.
  split; [apply calm_refl|apply calm_trans| | |].
  - intros m s. split_and!; [by exists [m]|done|done].
  - intros s. apply calm_still; apply time_phase.
  - intros d s. apply calm_still; apply usleep_phase.
Qed.

Lemma calm_request o r p : match r with PTRACE_ATTACH | PTRACE_DETACH | PTRACE_CONT => False | _ => True end ->
  allows (calm o) r p.
Proof. intros Hr s. apply calm_still; [|apply request_caught]. intros t. apply request_phase. by right. Qed.

Lemma calm_access o : data_access (calm o).
Proof.
  split; [apply calm_harmless|try (by intros; apply calm_request)..| |].
  - intros p bs a s. apply calm_still; apply writev_phase.
  - intros p n a s. apply calm_still; apply readv_phase.
Qed.

Lemma calm_cont p : allows (calm (Some p)) PTRACE_CONT p.
Proof.
  intros s. split_and!; [by apply grows_same| |].
  - intros t Ht. apply request_phase. left. congruence.
  - intros Ho. split; [|apply request_caught]. intros q [= <-]. apply cont_phase. by apply Ho.
Qed.

Lemma calm_waits p : waits (calm (Some p)) p.
Proof.
  intros b s. cbn. destruct (waitpid p b (kernel s)) as [w k'] eqn:Ew. cbn [snd].
  split_and!; [by apply grows_same| |].
  - intros t Ht. pose proof (wait_phase p b (kernel s) t ltac:(congruence)) as L. by rewrite Ew in L.
  - intros Ho. specialize (Ho p eq_refl).
    assert (Hcases : (exists st, w = WaitPid p st /\ wifstopped st = true) \/ (forall st, w = WaitPid p st -> wifstopped st = false)).
    { destruct w as [|e|q st]; [by right|by right|]. destruct (Z.eq_dec q p) as [->|Hq]; [|right; intros st' [= Eq _]; by destruct Hq].
      destruct (wifstopped st) eqn:Est; [left; eauto|right]. by intros st' [= <-]. }
    destruct Hcases as [(st & -> & Hst)|Hst].
    + destruct (wait_stop _ _ _ _ _ Ew Hst) as [L1 L2]. rewrite bool_decide_eq_false_2 in L2 by done.
      split; [|done]. intros q [= <-]. cbn. congruence.
    + destruct (wait_same _ _ _ _ _ Ew Hst) as [L1 [L2|[L2 _]]]; (split; [|done]); intros q [= <-]; cbn; congruence.
Qed.

Lemma calm_run t p regs routine : within (calm (Some p)) (run_and_redirect fuel t p regs routine).
Proof. apply within_run; [apply calm_access|apply calm_cont|apply calm_waits]. Qed.

(** The log of every call grows. *)
Lemma grows_harmless : harmless (@grows K).
Proof. split; [apply grows_refl|apply grows_trans|by intros m s; exists [m]|by intros; apply grows_same..]. Qed.

Lemma grows_allows r p : allows (@grows K) r p.
Proof. intros s. by apply grows_same. Qed.

Lemma grows_detach p : within (@grows K) (detach fuel p).
Proof. apply within_detach; [apply grows_harmless|apply grows_allows]. Qed.

Lemma grows_attach p : within (@grows K) (attach fuel p).
Proof. apply within_attach; [apply grows_harmless|apply grows_allows|]. intros b s. by apply grows_same. Qed.

(** *** Detaching *)

(** The other threads. *)
Definition others (p : Z) (s s' : tool K) : Prop := forall t, t <> p -> phase t (kernel s') = phase t (kernel s).

Lemma others_harmless p : harmless (others p).
Proof.
  split; try done.
  - intros s1 s2 s3 E1 E2 t Ht. by rewrite E2, E1.
  - intros s t _. apply time_phase.
  - intros d s t _. apply usleep_phase.
Qed.

Lemma others_allows r p : allows (others p) r p.
Proof. intros s t Ht. apply request_phase. by left. Qed.

Lemma others_detach p : within (others p) (detach fuel p).
Proof. apply within_detach; [apply others_harmless|apply others_allows]. Qed.

Lemma others_attach p : within (others p) (attach fuel p).
Proof. apply within_attach; [apply others_harmless|apply others_allows|]. intros b s t Ht. by apply wait_phase. Qed.

(** No request catches a thread. *)
Definition uncaught (s s' : tool K) : Prop := caught (kernel s') = caught (kernel s).

Lemma uncaught_harmless : harmless uncaught.
Proof.
  split; try done.
  - intros s1 s2 s3 E1 E2. unfold uncaught in *. congruence.
  - intros s. apply time_phase.
  - intros d s. apply usleep_phase.
Qed.

Lemma uncaught_detach p : within uncaught (detach fuel p).
Proof. apply within_detach; [apply uncaught_harmless|]. intros s. apply request_caught. Qed.

Lemma log_new m (s : tool K) s' : In m letting_go_failed -> t_log m s = (Ok tt, s') -> complains s s'.
Proof. intros Hm [= <-]. exists [m], m. split_and!; [done|by left|done]. Qed.

(** [detach] frees the thread, or says that it could not. *)
Lemma detach_free p s e s' : detach fuel p s = (Ok e, s') ->
  (e = 0 /\ phase p (kernel s') = Free) \/ complains s s'.
Proof.
  intros E. unfold detach in E. apply bind_ok_inv in E as (r & s1 & E1 & E).
  pose proof (within_ptrace fuel _ PTRACE_DETACH p grows_harmless (grows_allows _ _) s) as G. rewrite E1 in G.
  destruct (Z.eqb_spec (r_ret r) 0) as [Hr|Hr]; cbn [negb] in E.
  - injection E as <- <-. left. split; [done|].
    apply (ptrace_last fuel (fun _ => True)) in E1 as (k & k' & _ & Ep & H0' & _); try done.
    assert (He : r_errno r = 0) by (by apply (reply_ok _ _ _ _ _ Ep)). rewrite (H0' He).
    rewrite (detach_phase _ _ _ _ Ep). by rewrite Hr.
  - right. apply bind_ok_inv in E as ([] & s2 & E2 & [= _ <-]). eapply complains_after; [exact G|].
    eapply log_new; [|exact E2]. by left.
Qed.

(** *** Attaching *)

(** The loop that waits for the stop of a thread that is attached. *)
Lemma attach_loop_stops p n : forall s e s', phase p (kernel s) = Attached ->
  attach_loop n p s = (Ok e, s') ->
  (e = 0 /\ phase p (kernel s') = Halted /\ caught (kernel s') = (p, held p (kernel s')) :: caught (kernel s)) \/
  (e <> 0 /\ complains s s').
Proof.
  induction n as [|n IH]; intros s e s' Hp Hs; cbn [attach_loop] in Hs; [done|].
  apply bind_ok_inv in Hs as (w & s1 & E1 & Hs). unfold on_kernel in E1.
  destruct (waitpid p false (kernel s)) as [w' k1] eqn:Ew. injection E1 as -> <-.
  set (s1 := {| kernel := k1; tlog := tlog s |}) in *. assert (G1 : grows s s1) by (by apply grows_same).
  assert (Hfail : forall fmt c, c <> 0 -> In fmt letting_go_failed -> (t_log fmt;;; ret c) s1 = (Ok e, s') -> e <> 0 /\ complains s s').
  { intros fmt c Hc Hm E. apply bind_ok_inv in E as ([] & s2 & E2 & [= <- <-]). split; [done|].
    eapply complains_after; [exact G1|by eapply log_new]. }
  assert (Hsame : (forall st, w = WaitPid p st -> wifstopped st = false /\ wifexited st = false /\ wifsignaled st = false) ->
    phase p k1 = Attached /\ caught k1 = caught (kernel s)).
  { intros Hw. destruct (wait_same _ _ _ _ _ Ew ltac:(intros st Est; by apply Hw)) as [L1 [L2|(L2 & st & Est & Hst)]];
      [split; congruence|]. destruct (Hw st Est) as (_ & ? & ?). destruct Hst; congruence. }
  assert (Hagain : forall s2, grows s1 s2 -> kernel s2 = k1 ->
    (forall st, w = WaitPid p st -> wifstopped st = false /\ wifexited st = false /\ wifsignaled st = false) ->
    attach_loop n p s2 = (Ok e, s') ->
    (e = 0 /\ phase p (kernel s') = Halted /\ caught (kernel s') = (p, held p (kernel s')) :: caught (kernel s)) \/
    (e <> 0 /\ complains s s')).
  { intros s2 G2 K2 Hw E. destruct (Hsame Hw) as [L1 L2]. apply IH in E; [|by rewrite K2].
    rewrite K2, L2 in E. destruct E as [E|[He C]]; [by left|right]. split; [done|].
    eapply complains_after; [|exact C]. exact (grows_trans _ _ _ G1 G2). }
  destruct w as [|en|q st].
  - eapply (Hagain s1); [apply grows_refl|done|done|exact Hs].
  - right. eapply Hfail; [|..|exact Hs]; [by eapply wait_error|cbn; tauto].
  - destruct (Z.eqb_spec q p) as [->|Hq].
    + destruct (wifstopped st) eqn:Est; [|destruct (wifexited st || wcoredump st) eqn:Eex; [|destruct (wifsignaled st) eqn:Esi]].
      * injection Hs as <- <-. left. destruct (wait_stop _ _ _ _ _ Ew Est) as [L1 L2].
        rewrite bool_decide_eq_true_2 in L2 by done. done.
      * right. eapply Hfail; [..|exact Hs]; [done|cbn; tauto].
      * right. eapply Hfail; [..|exact Hs]; [done|cbn; tauto].
      * apply orb_false_iff in Eex as [Eex _]. eapply (Hagain s1); [apply grows_refl|done| |exact Hs]. by intros st' [= <-].
    + apply bind_ok_inv in Hs as ([] & s2 & E2 & Hs).
      assert (Hs2 : grows s1 s2 /\ kernel s2 = k1) by (destruct (0 <? q); injection E2 as <-; (split; [|done]); [by eexists [_]|apply grows_refl]).
      destruct Hs2. apply (Hagain s2); try done. by intros st' [= Eq _].
Qed.

(** [attach] stops the thread, or leaves it as it was, or says what went wrong. *)
Lemma attach_stops p s e s' : attach fuel p s = (Ok e, s') ->
  (e = 0 /\ phase p (kernel s') = Halted /\ caught (kernel s') = (p, held p (kernel s')) :: caught (kernel s)) \/
  (e <> 0 /\ (complains s s' \/ phase p (kernel s') = phase p (kernel s) /\ caught (kernel s') = caught (kernel s))).
Proof.
  intros E. unfold attach in E. apply bind_ok_inv in E as (r & s1 & E1 & E).
  pose proof (within_ptrace fuel _ PTRACE_ATTACH p grows_harmless (grows_allows _ _) s) as G. rewrite E1 in G.
  apply (ptrace_last fuel (fun k => phase p k = phase p (kernel s) /\ caught k = caught (kernel s))) in E1
    as (k & k' & [Hk Hc] & Ep & Hok & Hno); try done.
  - pose proof (attach_phase _ _ _ _ Ep) as L. pose proof (request_caught PTRACE_ATTACH p k) as Lc. rewrite Ep in Lc. cbn [snd] in Lc.
    pose proof (reply_ok _ _ _ _ _ Ep ltac:(done)) as Hre.
    destruct (Z.eqb_spec (r_ret r) 0) as [Hr|Hr]; cbn [negb] in E.
    + rewrite (Hok (proj2 Hre Hr)) in *. apply attach_loop_stops in E; [|by rewrite (Hok (proj2 Hre Hr))].
      rewrite (Hok (proj2 Hre Hr)), Lc, Hc in E. destruct E as [E|[He C]]; [by left|right].
      split; [done|left]. by eapply complains_after.
    + right. apply bind_ok_inv in E as ([] & s2 & [= <-] & [= <- <-]).
      assert (He : r_errno r <> 0) by (by rewrite Hre). split; [done|right]. cbn. by apply Hno.
  - intros k0 r0 k1 [Hk0 Hc0] Ep0 Hne. pose proof (attach_phase _ _ _ _ Ep0) as L.
    assert (Hn : r_ret r0 <> 0) by (intros X; apply Hne; by apply (reply_ok _ _ _ _ _ Ep0)).
    rewrite (proj2 (Z.eqb_neq _ _) Hn) in L. pose proof (request_caught PTRACE_ATTACH p k0) as Lc. rewrite Ep0 in Lc. cbn [snd] in Lc.
    split; congruence.
  - intros k0 [Hk0 Hc0]. destruct (time_phase k0) as [L1 L2]. rewrite L1, L2. done.
  - intros d k0 [Hk0 Hc0]. destruct (usleep_phase d k0) as [L1 L2]. rewrite L1, L2. done.
Qed.

(** *** Stopping the threads *)

Definition entry (x : ulp_thread) : Z * registers_t := (tid x, context x).

(** Every thread the tool has recorded since [s0] is stopped, was caught with the
    registers recorded, and no other thread has changed. *)
Definition holding (s0 s : cstate K) : Prop :=
  grows (tl s0) (tl s) /\
  (forall x, In x (threads (proc s)) -> phase (tid x) (kernel (tl s)) = Halted) /\
  (forall t, ~ In t (map tid (threads (proc s))) -> phase t (kernel (tl s)) = phase t (kernel (tl s0))) /\
  caught (kernel (tl s)) = (map entry (threads (proc s)) ++ caught (kernel (tl s0)))%list /\
  released (kernel (tl s)) = released (kernel (tl s0)).

(** Where stopping them failed: at most one more was caught and let go, or the
    tool says otherwise. *)
Definition broken_off (s0 s : cstate K) : Prop :=
  grows (tl s0) (tl s) /\
  (complains (tl s0) (tl s) \/
   exists l,
     (forall x, In x (threads (proc s)) -> phase (tid x) (kernel (tl s)) = Halted) /\
     (forall t, ~ In t (map tid (threads (proc s))) ->
        phase t (kernel (tl s)) = Free \/ phase t (kernel (tl s)) = phase t (kernel (tl s0))) /\
     caught (kernel (tl s)) = (l ++ map entry (threads (proc s)) ++ caught (kernel (tl s0)))%list /\
     released (kernel (tl s)) = (l ++ released (kernel (tl s0)))%list).

(** [m] started where [P] holds ends where [Q] holds, or leaves early where [E] holds. *)
Definition ends {A} (P : cstate K -> Prop) (m : st (cstate K) Z A) (Q : A -> cstate K -> Prop) (E : cstate K -> Prop) : Prop :=
  forall s, P s -> match m s with (Ok a, s') => Q a s' | (Err _, s') => E s' | _ => True end.

Lemma ends_bind {A B} (m : st (cstate K) Z A) (k : A -> st (cstate K) Z B) P Q R E :
  ends P m Q E -> (forall a, ends (Q a) (k a) R E) -> ends P (bind m k) R E.
Proof. intros Hm Hk s Hs. specialize (Hm s Hs). unfold bind. destruct (m s) as [[a|e| |] s1]; try done. by apply Hk. Qed.

Lemma holding_start s : threads (proc s) = [] -> holding s s.
Proof. intros Ht. unfold holding. rewrite Ht. split_and!; try done. apply grows_refl. Qed.

Lemma holding_broken s0 s : holding s0 s -> broken_off s0 s.
Proof. intros (G & Hh & Ho & Hc & Hr). split; [done|right]. exists []. split_and!; auto. Qed.

(** The state with other contents of the tool, the process being as it was. *)
Lemma holding_keep s0 s s' : proc s' = proc s -> grows (tl s) (tl s') ->
  (forall t, phase t (kernel (tl s')) = phase t (kernel (tl s))) -> caught (kernel (tl s')) = caught (kernel (tl s)) ->
  released (kernel (tl s')) = released (kernel (tl s)) -> holding s0 s -> holding s0 s'.
Proof.
  intros P G Hp Hc Hr (G0 & Hh & Ho & Hc0 & Hr0). unfold holding. rewrite P, Hc, Hr.
  split_and!; [by eapply grows_trans|by intros x Hx; rewrite Hp; apply Hh|by intros t Ht; rewrite Hp; apply Ho|done|done].
Qed.

Lemma holding_log m s0 s s' : log m s = (Ok tt, s') -> holding s0 s -> holding s0 s'.
Proof. intros [= <-]. by apply holding_keep; [|by exists [m]|..]. Qed.

Lemma broken_log m {A} s0 (Q : A -> cstate K -> Prop) : ends (broken_off s0) (log m;;; throw 0) Q (broken_off s0).
Proof.
  intros s (G & Hx). cbn. split; [eapply grows_trans; [exact G|by exists [m]]|].
  destruct Hx as [C|(l & Hx)]; [left|right; by exists l]. eapply complains_before; [exact C|by exists [m]].
Qed.

(** A thread that is caught: before its registers are read. *)
Definition caught_one (s0 : cstate K) (t : Z) (s : cstate K) : Prop :=
  grows (tl s0) (tl s) /\
  ~ In t (map tid (threads (proc s))) /\ phase t (kernel (tl s)) = Halted /\
  (forall x, In x (threads (proc s)) -> phase (tid x) (kernel (tl s)) = Halted) /\
  (forall t', ~ In t' (t :: map tid (threads (proc s))) -> phase t' (kernel (tl s)) = phase t' (kernel (tl s0))) /\
  caught (kernel (tl s)) = ((t, held t (kernel (tl s))) :: map entry (threads (proc s)) ++ caught (kernel (tl s0)))%list /\
  released (kernel (tl s)) = released (kernel (tl s0)).

Lemma attach_holding s0 t s e s' : ~ In t (map tid (threads (proc s))) -> holding s0 s ->
  lift (attach fuel t) s = (Ok e, s') ->
  if e =? 0 then caught_one s0 t s' else broken_off s0 s'.
Proof.
  intros Ht (G & Hh & Ho & Hc & Hr) E. apply lift_inv in E as [E P].
  pose proof (grows_attach t (tl s)) as G1. rewrite E in G1. cbn [snd] in G1.
  pose proof (others_attach t (tl s)) as O1. rewrite E in O1. cbn [snd] in O1.
  pose proof (keeps_eq _ (tl s) (keeps_attach fuel t)) as R1. rewrite E in R1. cbn [snd] in R1.
  assert (Hne : forall x, In x (threads (proc s)) -> tid x <> t) by (intros x Hx Et; apply Ht; rewrite <- Et; by apply in_map).
  apply attach_stops in E as [(-> & Hp & Hcc)|[He Hx]].
  - change (0 =? 0) with true. cbv iota. unfold caught_one. rewrite P, Hcc, R1, Hc.
    split_and!; try done; [by eapply grows_trans|by intros x Hx; rewrite O1; auto|].
    intros t' Hn. rewrite O1; [apply Ho; intros Hi; apply Hn; by right|intros ->; apply Hn; by left].
  - rewrite (proj2 (Z.eqb_neq _ _) He). split; [by eapply grows_trans|].
    destruct Hx as [C|[Hp Hcc]]; [left; by eapply complains_after|right]. exists []. rewrite P, Hcc, R1, Hc. cbn [app].
    split_and!; [by intros x Hx; rewrite O1; auto| |done|done].
    intros t' Hn. right. destruct (Z.eq_dec t' t) as [->|Hd]; [by rewrite Hp, Ho|by rewrite O1, Ho].
Qed.

(** Reading the registers of a stopped thread does not change them. *)
Lemma get_regs_held t r s a s' : get_regs fuel t r s = (Ok a, s') -> held t (kernel s') = held t (kernel s).
Proof.
  assert (Hs : stable (fun k => held t k = held t (kernel s)) (get_regs fuel t r)).
  { unfold get_regs. apply stable_bind; [|intros x; case_goal; [apply stable_bind; [apply stable_log|intros _]|]; apply stable_ret].
    apply stable_ptrace; [apply quiet_held|]. intros k <-. destruct (ptrace PTRACE_GETREGS t k) as [x k'] eqn:E.
    by destruct (getregs_law _ _ _ _ E). }
  intros E. specialize (Hs s eq_refl). by rewrite E in Hs.
Qed.

Lemma get_regs_caught s0 t r s a s' : caught_one s0 t s -> lift (get_regs fuel t r) s = (Ok a, s') -> caught_one s0 t s'.
Proof.
  intros (G & Hn & Hp & Hh & Ho & Hc & Hr) E. apply lift_inv in E as [E P].
  pose proof (within_get_regs fuel _ (calm_access None) t r (tl s)) as (G1 & P1 & C1). rewrite E in G1, P1, C1. cbn [snd] in *.
  destruct (C1 ltac:(done)) as [_ C2]. pose proof (keeps_eq _ (tl s) (keeps_get_regs fuel t r)) as R1. rewrite E in R1. cbn [snd] in R1.
  pose proof (get_regs_held _ _ _ _ _ E) as L.
  unfold caught_one. rewrite P, C2, R1, L. split_and!; try done; [by eapply grows_trans|by rewrite P1|..].
  - intros x Hx. rewrite P1 by done. by apply Hh.
  - intros t' Ht'. rewrite P1 by done. by apply Ho.
Qed.

(** The thread whose registers cannot be read is let go. *)
Lemma detach_caught s0 t s e s' : caught_one s0 t s -> lift (detach fuel t) s = (Ok e, s') -> broken_off s0 s'.
Proof.
  intros (G & Hn & Hp & Hh & Ho & Hc & Hr) E. apply lift_inv in E as [E P].
  pose proof (grows_detach t (tl s)) as G1. rewrite E in G1. cbn [snd] in G1.
  pose proof (others_detach t (tl s)) as O1. rewrite E in O1. cbn [snd] in O1.
  pose proof (uncaught_detach t (tl s)) as C1. unfold uncaught in C1. rewrite E in C1. cbn [snd] in C1.
  split; [by eapply grows_trans|]. destruct (detach_free _ _ _ _ E) as [[-> Hf]|C]; [right|left; by eapply complains_after].
  assert (Hne : forall x, In x (threads (proc s)) -> tid x <> t) by (intros x Hx Et; apply Hn; rewrite <- Et; by apply in_map).
  exists [(t, held t (kernel (tl s)))]. rewrite P, C1, Hc, (detach_ok _ _ _ _ _ eq_refl E), Hr.
  split_and!; try done; [by intros x Hx; rewrite O1; auto|]. intros t' Ht'.
  destruct (Z.eq_dec t' t) as [->|Hd]; [by left|right]. rewrite O1 by done. apply Ho. by intros [?|?].
Qed.

(** One entry of the task directory. *)
Lemma hijack_entry_holds s0 calloc t : ends (holding s0) (hijack_entry fuel calloc t) (fun _ => holding s0) (broken_off s0).
Proof.
  intros s Hs. unfold hijack_entry. unfold bind at 1, gets at 1. cbv beta.
  destruct (t =? 0); [done|]. destruct (search_thread _ t) eqn:Esearch; [done|]. apply search_thread_none in Esearch.
  assert (Hlog : forall m, match (log m;;; throw 0 : st (cstate K) Z bool) s with (Ok _, s') => holding s0 s' | (Err _, s') => broken_off s0 s' | _ => True end).
  { intros m. apply holding_broken. by eapply (holding_log m). }
  destruct (negb calloc); [apply Hlog|].
  unfold bind at 1. destruct (lift (attach fuel t) s) as [[e|e| |] s1] eqn:E1; try done.
  2:{ exfalso. eapply returns_no_err, E1. apply returns_lift, returns_attach. }
  pose proof (attach_holding _ _ _ _ _ Esearch Hs E1) as Ha. apply lift_inv in E1 as [_ P1].
  destruct (Z.eqb_spec e 0) as [->|He]; cbn [negb].
  2:{ by apply (broken_log _ s0 (fun _ => holding s0)). }
  unfold bind at 1. destruct (lift (get_regs fuel t _) s1) as [[[e1 regs]|e1| |] s2] eqn:E2; try done.
  2:{ exfalso. eapply returns_no_err, E2. apply returns_lift, returns_get_regs. }
  pose proof (get_regs_caught _ _ _ _ _ _ Ha E2) as Hb. apply lift_inv in E2 as [E2 P2].
  destruct (Z.eqb_spec e1 0) as [->|He1]; cbn [negb].
  - apply get_regs_ok in E2. destruct Hb as (G & Hn & Hp & Hh & Ho & Hc & Hr). cbn.
    split_and!; cbn [proc tl set_threads threads map]; [done|by intros x [<-|Hx]; [|apply Hh]|done|by rewrite Hc, E2|done].
  - unfold bind at 1, log, lift at 1, t_log. cbn.
    set (s3 := {| proc := proc s2; tl := _ |}).
    assert (Hd : caught_one s0 t s3).
    { destruct Hb as (G & Hx). split; [eapply grows_trans; [exact G|by eexists [_]]|exact Hx]. }
    unfold bind. destruct (lift (detach fuel t) s3) as [[e2|e2| |] s4] eqn:E4; try done; [by eapply detach_caught|].
    exfalso. eapply returns_no_err, E4. apply returns_lift, returns_detach.
Qed.

Lemma hijack_pass_holds s0 calloc tids : ends (holding s0) (hijack_pass fuel calloc tids) (fun _ => holding s0) (broken_off s0).
Proof.
  induction tids as [|t tids IH]; cbn [hijack_pass]; [by intros s|].
  eapply ends_bind; [apply hijack_entry_holds|intros new]. eapply ends_bind; [apply IH|intros more]. by intros s.
Qed.

Lemma hijack_loop_holds s0 calloc listing n : forall i,
  ends (holding s0) (hijack_loop fuel n calloc listing i) (fun _ => holding s0) (broken_off s0).
Proof.
  induction n as [|n IH]; intros i; cbn [hijack_loop]; [by intros s|].
  destruct (listing i) as [tids errno]. eapply ends_bind; [apply hijack_pass_holds|]. intros loop.
  destruct (negb (errno =? 0)).
  - intros s Hs. by apply (broken_log _ s0 (fun _ => holding s0)), holding_broken.
  - destruct loop; [apply IH|by intros s].
Qed.

(** [hijack_threads] stopped every thread it has recorded. *)
Lemma hijack_holds opendir calloc listing s s' : idle s -> hijack_threads fuel opendir calloc listing s = (Ok 0, s') -> holding s s'.
Proof.
  intros (Ht & _ & Hh) Hs. unfold hijack_threads in Hs. rewrite Hh in Hs.
  destruct (Z.eqb_spec opendir 0) as [->|?]; cbn [negb] in Hs.
  2:{ destruct (_ =? ENOENT); [done|]. by apply bind_ok_inv in Hs as ([] & ? & _ & [=]). }
  pose proof (hijack_loop_holds s calloc listing fuel 0%nat s (holding_start s Ht)) as L.
  destruct (hijack_loop _ _ _ _ _ s) as [[[]|e| |] s1]; try done; [by injection Hs as <-|].
  apply bind_ok_inv in Hs as (p & ? & [= <- <-] & Hs). apply bind_ok_inv in Hs as (f & s2 & _ & Hs). by destruct f.
Qed.

(** *** Letting them go *)

(** What was caught since [s] was let go since, with the same registers and as
    often; and no thread is traced that was not. *)
Definition balanced (s s' : tool K) : Prop :=
  (forall t, phase t (kernel s') = Free \/ phase t (kernel s') = phase t (kernel s)) /\
  exists l l', caught (kernel s') = (l ++ caught (kernel s))%list /\ released (kernel s') = (l' ++ released (kernel s))%list /\
    Permutation l l'.

(** Unless the tool says that a request to let go failed. *)
Definition settled (s s' : tool K) : Prop := grows s s' /\ (complains s s' \/ balanced s s').

Lemma settled_trans s1 s2 s3 : settled s1 s2 -> settled s2 s3 -> settled s1 s3.
Proof.
  intros (G1 & X1) (G2 & X2). split; [by eapply grows_trans|].
  destruct X1 as [C|(P1 & l1 & m1 & C1 & R1 & Q1)]; [left; by eapply complains_before|].
  destruct X2 as [C|(P2 & l2 & m2 & C2 & R2 & Q2)]; [left; by eapply complains_after|right].
  split.
  - intros t. destruct (P2 t) as [?|E]; [by left|]. rewrite E. apply P1.
  - exists (l2 ++ l1)%list, (m2 ++ m1)%list. rewrite C2, C1, R2, R1, !app_assoc. split_and!; try done. by apply Permutation_app.
Qed.

(** A step that catches and lets go nothing. *)
Lemma settled_calm s s' : calm None s s' -> released (kernel s') = released (kernel s) -> settled s s'.
Proof.
  intros (G & P & C) R. split; [done|right]. destruct (C ltac:(done)) as [_ E]. split; [intros t; right; by apply P|].
  exists [], []. by rewrite E, R.
Qed.

Lemma settled_same s s' : grows s s' -> kernel s' = kernel s -> settled s s'.
Proof. intros G E. apply settled_calm; [|by rewrite E]. split_and!; rewrite ?E; [done|done|done]. Qed.

(** Both loops over the threads: each is detached, or the tool complains. *)
Definition freed (l : list ulp_thread) (s s' : cstate K) (errors : bool) : Prop :=
  grows (tl s) (tl s') /\ caught (kernel (tl s')) = caught (kernel (tl s)) /\
  (forall t, ~ In t (map tid l) -> phase t (kernel (tl s')) = phase t (kernel (tl s))) /\
  (complains (tl s) (tl s') \/
   errors = false /\ forall t, In t (map tid l) -> phase t (kernel (tl s')) = Free).

Lemma detach_one t (s s' : cstate K) e : lift (detach fuel t) s = (Ok e, s') ->
  grows (tl s) (tl s') /\ caught (kernel (tl s')) = caught (kernel (tl s)) /\ others t (tl s) (tl s') /\
  (complains (tl s) (tl s') \/ e = 0 /\ phase t (kernel (tl s')) = Free).
Proof.
  intros E. apply lift_inv in E as [E _].
  pose proof (grows_detach t (tl s)) as G1. rewrite E in G1.
  pose proof (others_detach t (tl s)) as O1. rewrite E in O1.
  pose proof (uncaught_detach t (tl s)) as C1. rewrite E in C1.
  split_and!; try done. destruct (detach_free _ _ _ _ E); auto.
Qed.

Lemma warn_same (b : bool) m (s s' : cstate K) : (if b then log m else ret tt : st (cstate K) Z unit) s = (Ok tt, s') ->
  grows (tl s) (tl s') /\ kernel (tl s') = kernel (tl s).
Proof. destruct b; intros [= <-]; (split; [|done]); [by exists [m]|apply grows_refl]. Qed.

Lemma freed_cons x l s s1 s2 errors e : grows (tl s) (tl s1) -> caught (kernel (tl s1)) = caught (kernel (tl s)) ->
  others (tid x) (tl s) (tl s1) ->
  (complains (tl s) (tl s1) \/ e = false /\ phase (tid x) (kernel (tl s1)) = Free) ->
  ~ In (tid x) (map tid l) ->
  freed l s1 s2 errors -> freed (x :: l) s s2 (e || errors).
Proof.
  intros G C O X Hn (G2 & C2 & O2 & X2). split_and!; [by eapply grows_trans|congruence| |].
  - intros t Ht. cbn in Ht. rewrite O2, O; [done|intros ->; apply Ht; by left|intros Hi; apply Ht; by right].
  - destruct X as [X|[-> X]]; [left; by eapply complains_before|]. destruct X2 as [X2|[-> X2]]; [left; by eapply complains_after|right].
    split; [done|]. intros t [<-|Ht]; [by rewrite O2|by apply X2].
Qed.

Lemma release_all_frees l : forall s b s', NoDup (map tid l) -> release_all fuel l s = (Ok b, s') -> freed l s s' b.
Proof.
  induction l as [|x l IH]; intros s b s' Hnd Hs; cbn [release_all] in Hs.
  { injection Hs as <- <-. split_and!; try done; [apply grows_refl|by right]. }
  apply bind_ok_inv in Hs as (e & s1 & E1 & Hs). apply bind_ok_inv in Hs as ([] & s2 & E2 & Hs).
  apply bind_ok_inv in Hs as ([] & s3 & [= <-] & Hs). apply bind_ok_inv in Hs as (fatal & s4 & E4 & [= <- <-]).
  inversion Hnd as [|? ? Hin Hnd']; subst. apply IH in E4; [|done].
  apply detach_one in E1 as (G1 & C1 & O1 & X1). apply warn_same in E2 as [G2 K2].
  eapply freed_cons; [..|exact Hin|exact E4]; cbn [tl]; rewrite ?K2; try done.
  - by eapply grows_trans.
  - intros t Ht. rewrite K2. by apply O1.
  - destruct X1 as [C|[-> Hf]]; [left; by eapply complains_before|by right].
Qed.

Lemma restore_loop_frees l : forall s b s', NoDup (map tid l) -> restore_loop fuel l s = (Ok b, s') -> freed l s s' b.
Proof.
  induction l as [|x l IH]; intros s b s' Hnd Hs; cbn [restore_loop] in Hs.
  { injection Hs as <- <-. split_and!; try done; [apply grows_refl|by right]. }
  apply bind_ok_inv in Hs as (e1 & s1 & E1 & Hs). apply bind_ok_inv in Hs as ([] & s2 & E2 & Hs).
  apply bind_ok_inv in Hs as (e2 & s3 & E3 & Hs). apply bind_ok_inv in Hs as ([] & s4 & E4 & Hs).
  apply bind_ok_inv in Hs as ([] & s5 & [= <-] & Hs). apply bind_ok_inv in Hs as (errors & s6 & E6 & [= <- <-]).
  inversion Hnd as [|? ? Hin Hnd']; subst. apply IH in E6; [|done].
  apply lift_inv in E1 as [E1 _].
  pose proof (within_set_regs fuel _ (calm_access None) (tid x) (context x) (tl s)) as (G1 & P1 & C1). rewrite E1 in G1, P1, C1. cbn [snd] in *.
  destruct (C1 ltac:(done)) as [_ C1']. apply detach_one in E3 as (G3 & C3 & O3 & X3). apply warn_same in E4 as [G4 K4].
  assert (Hw : grows (tl s1) (tl s2) /\ kernel (tl s2) = kernel (tl s1) /\ (e1 = 0 \/ complains (tl s1) (tl s2))).
  { destruct (Z.eqb_spec e1 0) as [->|He1]; cbn [negb] in E2; [injection E2 as <-; split_and!; auto using grows_refl|].
    injection E2 as <-. split_and!; [by eexists [_]|done|right]. eexists [_], _. split_and!; [done|by left|cbn; tauto]. }
  destruct Hw as (G2 & K2 & X2).
  assert (G12 : grows (tl s) (tl s2)) by (by eapply grows_trans). assert (G34 : grows (tl s2) (tl s4)) by (by eapply grows_trans).
  eapply freed_cons; [..|exact Hin|exact E6]; cbn [tl]; rewrite ?K4.
  - by eapply grows_trans.
  - by rewrite C3, K2.
  - intros t Ht. rewrite K4, O3, K2 by done. by apply P1.
  - destruct X2 as [->|X2]; [|left; eapply complains_after; [exact G1|by eapply complains_before]].
    destruct X3 as [C|[-> Hf]]; [left; eapply complains_after; [exact G12|by eapply complains_before]|by right].
Qed.

Lemma let_go_entries l : let_go l = rev (map entry l).
Proof. done. Qed.

(** After a failure nothing is left stopped, or the tool says so. *)
Theorem hijack_settled opendir calloc listing s e s' : idle s -> e <> 0 ->
  hijack_threads fuel opendir calloc listing s = (Ok e, s') -> settled (tl s) (tl s').
Proof.
  intros Hi He Hs. pose proof Hi as (Ht & _ & Hh). unfold hijack_threads in Hs. rewrite Hh in Hs.
  destruct (Z.eqb_spec opendir 0) as [->|?]; cbn [negb] in Hs.
  2:{ destruct (_ =? ENOENT).
      - injection Hs as _ <-. by apply settled_same; [apply grows_refl|].
      - apply bind_ok_inv in Hs as ([] & s1 & E1 & [= _ <-]). injection E1 as <-. by apply settled_same; [eexists [_]|]. }
  pose proof (hijack_loop_holds s calloc listing fuel 0%nat s (holding_start s Ht)) as L.
  pose proof (hijack_loop_ok fuel s calloc listing fuel 0%nat s (idle_hijacking s Hi)) as L'.
  destruct (hijack_loop _ _ _ _ _ s) as [[[]|e1| |] s1]; try done; [by injection Hs as <- _|].
  apply bind_ok_inv in Hs as (p & ? & [= <- <-] & Hs). apply bind_ok_inv in Hs as (fatal & s2 & E2 & [= _ <-]).
  destruct L as (G & X). destruct L' as ((Hnd & Hall & _) & _).
  pose proof (release_all_frees _ _ _ _ Hnd E2) as (G2 & C2 & O2 & X2).
  split; [by eapply grows_trans|]. destruct X as [C|(l & Hhl & Hot & Hca & Hre)]; [left; by eapply complains_before|].
  destruct X2 as [C|[-> Hf]]; [left; by eapply complains_after|right].
  apply (release_all_ok fuel _ _ _ Hnd Hall) in E2 as Hr2. split.
  - intros t. destruct (in_dec Z.eq_dec t (map tid (threads (proc s1)))) as [Hin|Hin]; [left; by apply Hf|]. rewrite O2 by done. by apply Hot.
  - exists (l ++ map entry (threads (proc s1)))%list, (rev (map entry (threads (proc s1))) ++ l)%list.
    rewrite C2, Hca, Hr2, Hre, let_go_entries, !app_assoc. split_and!; try done.
    rewrite Permutation_app_comm. apply Permutation_app; [apply Permutation_rev|done].
Qed.

(** *** Running libpulp *)

Definition main_tid (s : cstate K) : option Z := option_map tid (main_thread (proc s)).

(** A call on the process that disturbs the main thread only. *)
Definition disturbs_main {A} (m : st (cstate K) Z A) : Prop := forall s,
  calm (main_tid s) (tl s) (tl (m s).2) /\ released (kernel (tl (m s).2)) = released (kernel (tl s)) /\ proc (m s).2 = proc s.

Lemma main_lift {A} (m : st (tool K) Z A) : (forall o, within (calm o) m) -> keeps m -> disturbs_main (lift m).
Proof. intros Hm Hk s. destruct (lift_snd m s) as [P X]. rewrite X, P. split_and!; [apply Hm|by apply keeps_eq|done]. Qed.
Lemma main_bind {A B} (m : st (cstate K) Z A) (k : A -> st (cstate K) Z B) :
  disturbs_main m -> (forall a, disturbs_main (k a)) -> disturbs_main (bind m k).
Proof.
  intros Hm Hk s. unfold bind. destruct (Hm s) as (C1 & R1 & P1). destruct (m s) as [[a|e| |] s1]; cbn [snd] in *; try done.
  destruct (Hk a s1) as (C2 & R2 & P2). unfold main_tid in *. rewrite P1 in C2. split_and!; [by eapply calm_trans|congruence|congruence].
Qed.
Lemma main_ret {A} (a : A) : disturbs_main (ret a).
Proof. intros s. split_and!; [apply calm_refl|done..]. Qed.
Lemma main_undef {A} : disturbs_main (undef : st (cstate K) Z A).
Proof. intros s. split_and!; [apply calm_refl|done..]. Qed.
Lemma main_log m : disturbs_main (log m).
Proof. apply main_lift; [intros o; by apply within_log, calm_harmless|intros R; apply stable_log]. Qed.
(** The process is read first. *)
Lemma main_gets {B} (k : ulp_process -> st (cstate K) Z B) :
  (forall p, forall s, proc s = p ->
     calm (main_tid s) (tl s) (tl (k p s).2) /\ released (kernel (tl (k p s).2)) = released (kernel (tl s)) /\ proc (k p s).2 = proc s) ->
  disturbs_main (bind (gets proc) k).
Proof. intros Hk s. by apply (Hk (proc s) s). Qed.

Ltac main_ := repeat first
  [ simple apply main_ret | simple apply main_undef | simple apply main_log
  | simple apply main_gets; let p := fresh "p" in let s := fresh "s" in let E := fresh "E" in
      intros p s E; match goal with |- context [(?m s).2] => revert s E; (enough (disturbs_main m) by auto) end
  | simple apply main_bind; [|intros] | progress cbv zeta | case_goal ].

Lemma main_write buf p a : disturbs_main (lift (write_bytes fuel buf p a)).
Proof. apply main_lift; [intros o; apply within_write, calm_access|apply keeps_write]. Qed.

Lemma main_metadata bs : disturbs_main (set_metadata_buffer fuel bs).
Proof. unfold set_metadata_buffer. main_. apply main_write. Qed.

Lemma main_set_id id : disturbs_main (set_id_buffer fuel id).
Proof. unfold set_id_buffer. main_. apply main_write. Qed.

Lemma main_run t routine : disturbs_main (run_main fuel t routine).
Proof.
  intros s. unfold run_main. unfold bind, gets. destruct (main_thread (proc s)) as [x|] eqn:Ex; [|apply main_undef].
  destruct (lift_snd (run_and_redirect fuel t (tid x) (context x) routine) s) as [P X]. rewrite X, P.
  unfold main_tid. rewrite Ex. split_and!; [apply calm_run|apply keeps_eq, keeps_run|done].
Qed.

Lemma main_interpret : disturbs_main (interpret_queue fuel).
Proof.
  unfold interpret_queue. main_. apply main_lift; [intros o; apply within_queue, calm_access|apply keeps_queue].
Qed.

Lemma main_seccomp p : disturbs_main (lift (disable_seccomp fuel p)).
Proof. apply main_lift; [intros o; apply within_seccomp, calm_access|apply keeps_seccomp]. Qed.

Lemma main_apply t metadata seccomp : disturbs_main (apply_patch fuel t metadata seccomp).
Proof. unfold apply_patch. main_; auto using main_metadata, main_run, main_interpret, main_seccomp. Qed.

Lemma main_revert t target lib : disturbs_main (revert_patches_from_lib fuel t target lib).
Proof. unfold revert_patches_from_lib, set_string_buffer. main_; auto using main_metadata, main_run, main_interpret. Qed.

Lemma main_check t id : disturbs_main (patch_applied fuel t id).
Proof. unfold patch_applied. main_; auto using main_set_id, main_run. Qed.

(** What was done between stopping the threads and letting them go. *)
Theorem section_settled opendir calloc listing s s1 s2 e s3 : idle s ->
  hijack_threads fuel opendir calloc listing s = (Ok 0, s1) ->
  calm (main_tid s1) (tl s1) (tl s2) -> released (kernel (tl s2)) = released (kernel (tl s1)) -> proc s2 = proc s1 ->
  restore_threads fuel s2 = (Ok e, s3) -> settled (tl s) (tl s3).
Proof.
  intros Hi E1 (G2 & P2 & C2) R2 Ep E3. destruct (hijack_holds _ _ _ _ _ Hi E1) as (G1 & Hh & Ho & Hc & Hr).
  destruct (hijack_success _ _ _ _ _ _ Hi E1) as (_ & (Hnd & _ & Hmain) & _).
  assert (Hm : forall p, main_tid s1 = Some p -> In p (map tid (threads (proc s1)))).
  { unfold main_tid. intros p Hp. destruct (main_thread (proc s1)) as [x|]; cbn in Hp; simplify_eq. apply in_map, Hmain. }
  destruct C2 as [_ C2].
  { intros p Hp. apply Hm, in_map_iff in Hp as (x & <- & Hx). by rewrite Hh. }
  unfold restore_threads in E3. apply bind_ok_inv in E3 as ([] & s4 & [= <-] & E3).
  apply bind_ok_inv in E3 as (p & ? & [= <- <-] & E3). apply bind_ok_inv in E3 as (errors & s5 & E5 & [= _ <-]).
  cbn [proc set_hijacked threads] in E5. rewrite Ep in E5.
  pose proof (restore_loop_frees _ _ _ _ Hnd E5) as (G3 & C3 & O3 & X3). cbn [tl] in *.
  split; [eapply grows_trans; [exact G1|by eapply grows_trans]|].
  destruct X3 as [C|[-> Hf]]; [left; eapply complains_after; [|exact C]; by eapply grows_trans|right].
  apply (restore_loop_ok fuel) in E5 as R3. cbn [tl] in R3. split.
  - intros t. destruct (in_dec Z.eq_dec t (map tid (threads (proc s1)))) as [Hin|Hin]; [left; by apply Hf|right].
    rewrite O3, P2 by (try done; intros Hp; by apply Hin, Hm). by apply Ho.
  - exists (map entry (threads (proc s1))), (rev (map entry (threads (proc s1)))).
    rewrite C3, C2, Hc, R3, R2, Hr, let_go_entries. split_and!; try done. apply Permutation_rev.
Qed.

(** *** The main thread after a routine *)

Lemma poll_stops p n : forall t0 t s s', poll_loop n p t0 t s = (Ok true, s') -> phase p (kernel s') = Halted.
Proof.
  induction n as [|n IH]; intros t0 t s s' Hs; cbn [poll_loop] in Hs; [done|].
  apply bind_ok_inv in Hs as (w & s1 & E1 & Hs). unfold on_kernel in E1.
  destruct (waitpid p true (kernel s)) as [w' k1] eqn:Ew. injection E1 as -> <-.
  assert (Hnext : forall s2, (on_kernel (fun k => (tt, usleep 100 k));;;
      (let! t1 := on_kernel time in if t1 - t0 <? t then poll_loop n p t0 t else ret false)) s2 = (Ok true, s') -> phase p (kernel s') = Halted).
  { intros s2 E. apply bind_ok_inv in E as ([] & s3 & _ & E). apply bind_ok_inv in E as (t1 & s4 & _ & E).
    destruct (_ <? _); [by eapply IH|done]. }
  cbv zeta in Hs. destruct w as [|e|q st]; [by eapply Hnext|by apply bind_ok_inv in Hs as ([] & ? & _ & [=])|].
  destruct (Z.eqb_spec q p) as [->|Hq].
  - destruct (_ || _); [by apply bind_ok_inv in Hs as ([] & ? & _ & [=])|].
    destruct (wifstopped st) eqn:Est; [|by eapply Hnext]. injection Hs as <-. by destruct (wait_stop _ _ _ _ _ Ew Est).
  - apply bind_ok_inv in Hs as ([] & s2 & _ & Hs). by eapply Hnext.
Qed.

(** The codes with which a routine can fail. *)
Definition run_code (e : Z) : Prop := In e [EUNKNOWN; ETARGETHOOK; ETIME; -1].
Definition codes {A} (m : st (tool K) Z A) : Prop := forall s, match (m s).1 with Err e => run_code e | _ => True end.

Lemma codes_returns {A} (m : st (tool K) Z A) : returns m -> codes m.
Proof. intros Hm s. specialize (Hm s). by destruct (m s).1. Qed.
Lemma codes_throw {A} e : run_code e -> codes (throw e : st (tool K) Z A).
Proof. by intros He s. Qed.
Lemma codes_bind {A B} (m : st (tool K) Z A) (k : A -> st (tool K) Z B) : codes m -> (forall a, codes (k a)) -> codes (bind m k).
Proof. intros Hm Hk s. unfold bind. specialize (Hm s). destruct (m s) as [[a|e| |] s1]; try done. apply Hk. Qed.
Lemma codes_log m : codes (t_log m).
Proof. by intros s. Qed.

Ltac coded := repeat first
  [ simple apply codes_log | simple apply codes_throw; unfold run_code; cbn; tauto | simple apply codes_returns; first
      [ apply returns_ret | apply returns_nofuel | apply returns_ptrace | apply returns_kernel ]
  | simple apply codes_bind; [|intros] | progress cbv zeta | case_goal ].

Lemma codes_poll n p t0 t : codes (poll_loop n p t0 t).
Proof. induction n as [|n IH]; cbn [poll_loop]; coded; apply IH. Qed.

(** The main thread is stopped again when the routine has run. *)
Lemma run_stops t p regs routine s e r s' : run_and_redirect fuel t p regs routine s = (Ok (e, r), s') ->
  (e = 0 /\ phase p (kernel s') = Halted) \/ run_code e.
Proof.
  unfold run_and_redirect. match goal with |- (match ?m s with _ => _ end) = _ -> _ =>
    assert (Hc : codes m) by (coded; apply codes_poll); specialize (Hc s); destruct (m s) as [[x|e1| |] s1] eqn:E end; try done.
  2: by intros [= -> _ _]; right.
  intros [= <- _ <-]. left. split; [done|].
  apply bind_ok_inv in E as (r1 & s2 & _ & E). apply bind_ok_inv in E as ([] & s3 & _ & E).
  apply bind_ok_inv in E as (r2 & s4 & _ & E). apply bind_ok_inv in E as ([] & s5 & _ & E).
  apply bind_ok_inv in E as (t0 & s6 & _ & E). apply bind_ok_inv in E as (b & s7 & E7 & E).
  destruct b; cbn [negb] in E; [|done]. apply poll_stops in E7. rewrite ret_bind in E.
  apply bind_ok_inv in E as (r3 & s8 & E8 & E).
  assert (s8 = s1) as -> by (destruct (negb _); [by apply bind_ok_inv in E as ([] & ? & _ & [=])|by injection E]).
  pose proof (within_ptrace fuel _ PTRACE_GETREGS p (calm_harmless None) (calm_request None PTRACE_GETREGS p I) s7) as (_ & P & _).
  rewrite E8 in P. cbn [snd] in P. by rewrite P.
Qed.

(** The threads that were stopped before still are. *)
Definition stay_halted (s s' : cstate K) : Prop :=
  forall t, phase t (kernel (tl s)) = Halted -> phase t (kernel (tl s')) = Halted.

Lemma stay_trans s1 s2 s3 : stay_halted s1 s2 -> stay_halted s2 s3 -> stay_halted s1 s3.
Proof. intros E1 E2 t Ht. by apply E2, E1. Qed.

(** A call that disturbs no thread. *)
Lemma stay_calm s s' : calm None (tl s) (tl s') -> stay_halted s s'.
Proof. intros (_ & P & _) t Ht. by rewrite P. Qed.

Lemma run_main_stay t routine s e r s' : run_main fuel t routine s = (Ok (e, r), s') -> stay_halted s s' \/ run_code e.
Proof.
  intros E. destruct (main_run t routine s) as ((_ & P & _) & _). rewrite E in P. cbn [snd] in P.
  unfold run_main in E. apply bind_ok_inv in E as (p & ? & [= <- <-] & E). unfold main_tid in P.
  destruct (main_thread (proc s)) as [x|]; [|done]. apply lift_inv in E as [E _].
  apply run_stops in E as [[-> Hx]|Hc]; [left|by right]. intros u Hu.
  destruct (Z.eq_dec u (tid x)) as [->|Hn]; [done|]. rewrite P; [done|]. cbn. congruence.
Qed.

Lemma metadata_stay bs s e s' : set_metadata_buffer fuel bs s = (Ok e, s') -> stay_halted s s'.
Proof.
  intros E. unfold set_metadata_buffer in E. destruct (_ <=? _).
  - injection E as _ <-. by intros t Ht.
  - apply bind_ok_inv in E as (p & ? & [= <- <-] & E). destruct (main_thread _) as [x|]; [|done].
    apply bind_ok_inv in E as (e1 & s1 & E & [= _ <-]). apply lift_inv in E as [E _]. apply stay_calm.
    pose proof (within_write fuel _ (calm_access None) bs (tid x) (sym_metadata_buffer (symbols (proc s))) (tl s)) as C. by rewrite E in C.
Qed.

Lemma interpret_stay s e s' : interpret_queue fuel s = (Ok e, s') -> stay_halted s s'.
Proof.
  intros E. unfold interpret_queue in E. apply bind_ok_inv in E as (p & ? & [= <- <-] & E).
  apply bind_ok_inv in E as (e1 & s1 & E & [= _ <-]). apply lift_inv in E as [E _]. apply stay_calm.
  pose proof (within_queue fuel _ (calm_access None) (pid (proc s)) (dynobj_libpulp (proc s)) (tl s)) as C. by rewrite E in C.
Qed.

(** Reverting that was done, or found nothing to revert. *)
Lemma revert_stay t target lib s r s' : revert_patches_from_lib fuel t target lib s = (Ok r, s') ->
  r = 0 \/ r = ENOTARGETLIB \/ r = ENOPATCH -> stay_halted s s'.
Proof.
  intros E Hr. unfold revert_patches_from_lib in E. cbv zeta in E. apply bind_ok_inv in E as (p & ? & [= <- <-] & E).
  assert (Hno : forall c, run_code c -> r = c -> False).
  { intros c Hc ->. unfold run_code in Hc. cbn in Hc. by repeat destruct Hc as [<-|Hc]; destruct Hr as [?|[?|?]]. }
  destruct (negb _). { apply bind_ok_inv in E as ([] & ? & _ & [= <- _]). exfalso. eapply Hno; [|done]. by left. }
  apply bind_ok_inv in E as (e & s1 & E1 & E). apply metadata_stay in E1.
  destruct (negb _). { apply bind_ok_inv in E as ([] & ? & _ & [= <- _]). exfalso. eapply Hno; [|done]. by right; left. }
  apply bind_ok_inv in E as ([e2 regs] & s2 & E2 & E). apply run_main_stay in E2.
  destruct (Z.eqb_spec e2 0) as [->|He2]; cbn [negb] in E.
  - destruct E2 as [E2|Hc]; [|by unfold run_code in Hc; cbn in Hc; repeat destruct Hc as [?|Hc]].
    apply bind_ok_inv in E as (e3 & s3 & E3 & E). apply interpret_stay in E3.
    assert (s3 = s') as <- by (destruct (negb _); by injection E). eapply stay_trans; [exact E1|by eapply stay_trans].
  - apply bind_ok_inv in E as ([] & s3 & E3 & [= <- <-]). destruct E2 as [E2|Hc]; [|by exfalso; eapply Hno].
    injection E3 as <-. by eapply stay_trans.
Qed.

(** Every thread of the last reading of the task directory is stopped. *)
Definition all_halted (listing : nat -> list Z * Z) (s : cstate K) : Prop :=
  exists j, (listing j).2 = 0 /\ forall x, In x (listing j).1 -> x <> 0 -> phase x (kernel (tl s)) = Halted.

Lemma hijack_all_halted opendir calloc listing s s' : idle s -> hijack_threads fuel opendir calloc listing s = (Ok 0, s') ->
  all_halted listing s'.
Proof.
  intros Hi E. destruct (hijack_success _ _ _ _ _ _ Hi E) as (_ & _ & _ & _ & j & Hj & Hin).
  destruct (hijack_holds _ _ _ _ _ Hi E) as (_ & Hh & _). exists j. split; [done|]. intros x Hx Hne.
  specialize (Hin x Hx Hne). apply in_map_iff in Hin as (y & <- & Hy). by apply Hh.
Qed.

Lemma settled_refl (s : tool K) : settled s s.
Proof. apply settled_same; [apply grows_refl|done]. Qed.

Lemma log_settled m (s s' : cstate K) : log m s = (Ok tt, s') -> settled (tl s) (tl s').
Proof. intros [= <-]. by apply settled_same; [exists [m]|]. Qed.
End tracees.
