(* ===== verification/Trigger.v ===== *)
(** * The trigger command of the tool (tools/trigger.c)

    A live patch is extracted from its container, parsed and checked against the
    process ([check_patch_sanity], tools/introspection.c); then, in the critical
    section, patches are reverted and the new one is applied, again while the
    process is busy. Batches run over the files of a directory and over the
    processes. What is printed is not modelled. *)

From stdpp Require Import gmap.
From S2P Require Import Prelude Errors Memory Metadata InsnQueue Ptrace InsnQueueTool PatchCore Extract Description Critical Tracees.

Open Scope ulp_scope.

(** ** The checks on a patch *)

(** [struct ulp_dynobj]: a library of the process. *)
Record ulp_dynobj := { filename : bytes; dyn_build_id : bytes }.

(** [memcmp (ulp.objs->build_id, d->build_id, BUILDID_LEN) == 0] *)
Definition same_build_id (a : option bytes) (b : bytes) : bool :=
  match a with Some a => byte_eqb (take 20 a) (take 20 b) | None => false end.

Section sanity.
Variable parse_so_elf : bytes -> option ulp_so_info.

(** The global [ulp] is [u], with its object [obj]. *)
Definition check_livepatch_functions_matches_metadata (u : ulp_metadata) (obj : ulp_object)
    (prefix : option bytes) : Z :=
  let so_filename := cstr (default [] (so_filename u)) in
  let check so_filename :=
    match parse_so_elf so_filename with
    | None => EINVAL
    | Some so_info =>
      if forallb (fun unit => match get_symbol_with_name so_info (cstr (new_fname unit)) with Some _ => true | None => false end)
           (units obj)
      then 0 else 1
    end in
  match prefix with
  | Some prefix =>
    let prefix_len := length (cstr prefix) in
    if negb (byte_eqb (take prefix_len so_filename) (cstr prefix)) then EINVAL
    else check (drop prefix_len so_filename)
  | None => check so_filename
  end.

(** The loop over the libraries: whether one matches, and whether one has the name. *)
Fixpoint find_target (target : bytes) (id : option bytes) (objs : list ulp_dynobj) (named : bool) : bool * bool :=
  match objs with
  | [] => (false, named)
  | d :: objs =>
    let name_match := byte_eqb (default [] (get_basename (Some (cstr (filename d))))) target in
    if name_match && same_build_id id (dyn_build_id d) then (true, true)
    else find_target target id objs (named || name_match)
  end.

Definition check_patch_sanity (u : ulp_metadata) (objs : list ulp_dynobj) (prefix : option bytes) : Z :=
  match Metadata.objs u with
  | None => EUNKNOWN
  | Some obj =>
    match obj_name obj with
    | None => EUNKNOWN
    | Some name =>
      if negb (check_livepatch_functions_matches_metadata u obj prefix =? 0) then EUNKNOWN
      else
        let target := default [] (get_basename (Some (cstr name))) in
        let (found, named) := find_target target (Metadata.build_id obj) objs false in
        if found then 0 else if named then EBUILDID else ENOTARGETLIB
    end
  end.
End sanity.

(** ** One process *)

Record trigger_results := { patch_name : bytes; err : Z }.

Definition skippable_error (err : Z) : bool :=
  (err =? EBUILDID) || (err =? ENOTARGETLIB) || (err =? EUSRBLOCKED) || (err =? EWILDNOMATCH) ||
  (err =? EAPPLIED) || (err =? ENOPATCH) || (err =? ESRCH).

(** What the tool finds in a file: the sections [.ulp] and [.ulp.rev], and the
    name the file has. *)
Record container_file := {
  c_path : bytes;
  c_section : bool -> option (option bytes);
  c_realpath : option bytes }.

(** [is_proc_chroot] is [chrooted]; [None] when the static buffer overflows. *)
Definition adjust_prefix_for_chroot (chrooted : bool) (user_prefix : option bytes) : option (option bytes) :=
  if chrooted then
    let path := (str "/1/root/" ++ take 4095 (cstr (default [] user_prefix)))%list in
    if PATH_MAX <=? zlen path then None else Some (Some path)
  else Some user_prefix.

Section trigger.
Context {K : Type} `{Kernel K}.

Abbreviation crit A := (st (cstate K) Z A).

Variable fuel : nat.
Variable timeout : Z.
(** The tool's memory: whether an allocation succeeds, and the indeterminate
    local of [parse_metadata_from_mem]. *)
Variable calloc_ok : nat -> Z -> bool.
Variable c0 : Z.
Variable calloc_thread : bool.
Variable parse_so_elf : bytes -> option ulp_so_info.
(** The options. *)
Variable prefix : option bytes.
Variable disable_seccomp_p : bool.

(** The process as the tool sees it besides [cstate]: its libraries, whether it
    is chrooted to [/proc], and its task directory at each attempt. *)
Record target := {
  libraries : list ulp_dynobj;
  chrooted : bool;
  tasks : nat -> Z * (nat -> list Z * Z) }.

(** The patch of the container, with the parsed metadata; an error is thrown.
    A failed assertion of the extraction ends the tool: it is [undef]. *)
Definition load_livepatch (t : target) (container : option container_file) (revert : bool) :
    crit (option (bytes * ulp_metadata)) :=
  match container with
  | None => ret None
  | Some c =>
    match adjust_prefix_for_chroot (chrooted t) prefix with
    | None => undef
    | Some final_prefix =>
      match extract_ulp_from_so_to_mem (c_section c revert) (c_realpath c) (c_path c) final_prefix with
      | Ok (livepatch_size, Buffer livepatch) =>
        if livepatch_size =? 0 then throw ENOMETA
        else
          match parse_metadata_from_mem calloc_ok c0 zero_metadata livepatch livepatch_size with
          | (Ok e, s) | (Err e, s) =>
            if negb (e =? 0) then log "error parsing the metadata file (%s).";;; throw e
            else
              let e := check_patch_sanity parse_so_elf (ps_ulp s) (libraries t) final_prefix in
              if negb (e =? 0) then throw e else ret (Some (livepatch, ps_ulp s))
          | (Ub, _) => undef
          | (NoFuel, _) => nofuel
          end
      | Ok _ => throw ENOMETA
      | _ => undef
      end
    end
  end.

(** The name [revert_patches_from_lib] puts for "target". *)
Definition target_name_of (livepatch : option (bytes * ulp_metadata)) : option bytes :=
  match livepatch with
  | Some (_, u) => match Metadata.objs u with Some obj => obj_name obj | None => None end
  | None => None
  end.

(** The patches of [revert_library] are reverted: [result], whether [retry] is
    set to 0, and [skip_patch_apply]. *)
Definition revert_step (livepatch : option (bytes * ulp_metadata)) (revert_library : option bytes) (result : Z) :
    crit (Z * bool * bool) :=
  match revert_library with
  | None => ret (result, false, false)
  | Some lib =>
    let! result := revert_patches_from_lib fuel timeout (target_name_of livepatch) lib in
    let fatal := result =? -1 in
    (if fatal then log "fatal error reverting livepatches (hijacked execution)." else ret tt);;;
    let ignored := match livepatch with Some _ => (result =? ENOTARGETLIB) || (result =? ENOPATCH) | None => false end in
    let result := if ignored then 0 else result in
    if negb (result =? 0) then ret (result, fatal, true) else ret (result, true, false)
  end.

(** The new patch is applied: [result], and whether [retry] is set to 0. *)
Definition apply_step (livepatch : option (bytes * ulp_metadata)) (result : Z) : crit (Z * bool) :=
  match livepatch with
  | None => ret (result, false)
  | Some (bs, _) =>
    let! result := apply_patch fuel timeout bs disable_seccomp_p in
    if result =? -1 then log "fatal error during live patch application (hijacked execution).";;; ret (result, true)
    else ret (result, result =? 0)
  end.

(** One turn of the loop, without [ENABLE_STACK_CHECK], whose check is in
    [StackCheck]: [result], and whether it was the last. *)
Definition attempt (t : target) (i : nat) (livepatch : option (bytes * ulp_metadata)) (revert_library : option bytes)
    (result : Z) : crit (Z * bool) :=
  let (opendir, listing) := tasks t i in
  let! e := hijack_threads fuel opendir calloc_thread listing in
  if e =? ETHRDDETTACH then log "fatal error during live patch application (hijacking).";;; throw e
  else if 0 <? e then log "unable to hijack process.";;; throw e
  else
    let! r := revert_step livepatch revert_library result in
    let '(result, stop, skip_patch_apply) := r in
    let! r := (if skip_patch_apply then ret (result, false) else apply_step livepatch result) in
    let (result, stop') := r in
    let! e := restore_threads fuel in
    (if negb (e =? 0) then log "fatal error during live patch application (restoring)." else ret tt);;;
    (if negb (result =? 0) then lift (on_kernel (fun k => (tt, usleep 1000 k))) else ret tt);;;
    ret (result, stop || stop' || negb (e =? 0)).

(** [while (retry)], [i] attempts being done. *)
Fixpoint retry_loop (retry : nat) (i : nat) (t : target) (livepatch : option (bytes * ulp_metadata))
    (revert_library : option bytes) (result : Z) : crit Z :=
  match retry with
  | O => ret result
  | S retry =>
    let! r := attempt t i livepatch revert_library result in
    let (result, stop) := r in
    if stop then ret result else retry_loop retry (S i) t livepatch revert_library result
  end.

(** What the function does up to [metadata_clean]. *)
Definition trigger_body (t : target) (retries : nat) (container : option container_file)
    (revert_library : option bytes) (revert : bool) : crit Z :=
  let! p := gets proc in
  let! r := lift (insnq_check_compatibility fuel (pid p) (dynobj_libpulp p)) in
  let (compatible, d) := r in
  update_proc (set_dynobj d);;;
  if negb compatible then throw EOLDULP
  else
    let! livepatch := load_livepatch t container revert in
    let! result := retry_loop retries 0 t livepatch revert_library (-1) in
    if negb (result =? 0) then throw result else ret 0.

(** [snprintf (buf, 128, "reverted all patches from '%s'", revert_library)]; the
    pointer is [NULL], printed as "(null)", when no library is given. *)
Definition result_name (container : option container_file) (revert_library : option bytes) : bytes :=
  match container with
  | Some c => cstr (c_path c)
  | None => take 127 (str "reverted all patches from '" ++ match revert_library with Some l => cstr l | None => str "(null)" end ++ str "'")
  end.

(** The code, annotated with the name of the patch. *)
Definition trigger_one_process (t : target) (retries : nat) (container : option container_file)
    (revert_library : option bytes) (revert : bool) : crit trigger_results :=
  let! ret_code := code (trigger_body t retries container revert_library revert) in
  ret {| patch_name := result_name container revert_library; err := ret_code |}.

(** ** The files of a directory *)

(** The entries of a directory in the order of [readdir]; a directory that does
    not open has none. *)
#[warnings="-register-all"]
Inductive dirent :=
| File (d_name : bytes) (container : container_file)
| Dir (d_name : bytes) (entries : option (list dirent)).

Definition PROCESS_PATCH_SUCCESS := 1.
Definition PROCESS_PATCH_SKIPPED := 2.
Definition PROCESS_PATCH_ERROR := 4.

Variable fnmatch : bytes -> bytes -> bool.
Variable recursive_mode : bool.
Variable t : target.
Variable retries : nat.
Variable revert_library : option bytes.
Variable revert : bool.

(** The file has the extension [.so] and the wildcard matches. *)
Definition selected (wildcard d_name : bytes) : bool :=
  match strrchr (cstr d_name) 46 with
  | Some extension => byte_eqb extension (str ".so") && fnmatch wildcard d_name
  | None => false
  end.

(** A result as a flag. *)
Definition flag_of (r : Z) : Z :=
  if r =? 0 then PROCESS_PATCH_SUCCESS
  else if skippable_error r then PROCESS_PATCH_SKIPPED else PROCESS_PATCH_ERROR.

(** The container at a path that is not a file. *)
Definition no_container (path : bytes) : container_file :=
  {| c_path := path; c_section := fun _ => None; c_realpath := None |}.

(** One entry that was selected, and then the rest of the directory. *)
Definition trigger_entry (wildcard d_name : bytes) (c : container_file) (rest : crit (Z * list trigger_results)) :
    crit (Z * list trigger_results) :=
  if selected wildcard d_name then
    let! r := trigger_one_process t retries (Some c) revert_library revert in
    let! rest := rest in
    ret (Z.lor (flag_of (err r)) (fst rest), r :: snd rest)
  else rest.

(** The flags, and the results in the order they are made. [ulp_folder_path] is
    [dirname] of the path and [wildcard] its base name. The path is copied to a
    buffer of [ULP_PATH_LEN] bytes. The flags of a subdirectory are dropped; and
    with its entry the code goes on as with a file, whose path is the buffer. *)
Fixpoint trigger_dir (ulp_folder_path wildcard : bytes) (d : dirent) (rest : crit (Z * list trigger_results)) {struct d} :
    crit (Z * list trigger_results) :=
  let trigger_entries := fix trigger_entries (ulp_folder_path : bytes) (l : list dirent) : crit (Z * list trigger_results) :=
    match l with
    | [] => ret (0, [])
    | d :: l => trigger_dir ulp_folder_path wildcard d (trigger_entries ulp_folder_path l)
    end in
  match d with
  | File d_name c =>
    if ULP_PATH_LEN <=? zlen ulp_folder_path + 1 + zlen d_name then rest
    else trigger_entry wildcard d_name c rest
  | Dir d_name entries =>
    let path := (ulp_folder_path ++ [47] ++ d_name)%list in
    if ULP_PATH_LEN <=? zlen path then rest
    else if byte_eqb d_name (str ".") || byte_eqb d_name (str "..") then rest
    else if negb recursive_mode then rest
    else if ULP_PATH_LEN <=? zlen path + zlen wildcard + 1 then rest
    else
      let! r := (match entries with
                | Some l => trigger_entries path l
                | None => log "Unable to open directory: %s";;; ret (0, [])
                end) in
      let! rest := trigger_entry wildcard d_name (no_container (path ++ [47] ++ wildcard)) rest in
      ret (fst rest, snd r ++ snd rest)%list
  end.

Definition trigger_many_ulps (ulp_folder_path wildcard : bytes) (directory : option (list dirent)) :
    crit (Z * list trigger_results) :=
  match directory with
  | None => log "Unable to open directory: %s";;; ret (0, [])
  | Some l =>
    if ULP_PATH_LEN <=? zlen ulp_folder_path + 1 then undef
    else foldr (trigger_dir ulp_folder_path wildcard) (ret (0, [])) l
  end.
End trigger.
Arguments target : clear implicits.

(** ** All processes *)

(** [atoi] and the files of the process are behind [process_list_begin]: each
    process comes with what the tool sees of it. *)
Section processes.
Context {K : Type} `{Kernel K}.
Variable fuel : nat.
Variable timeout : Z.
Variable calloc_ok : nat -> Z -> bool.
Variable c0 : Z.
Variable calloc_thread : bool.
Variable parse_so_elf : bytes -> option ulp_so_info.
Variable prefix : option bytes.
Variable disable_seccomp_p : bool.
Variable fnmatch : bytes -> bytes -> bool.
Variable recursive_mode : bool.
Variable retries : nat.
Variable revert_library : option bytes.
Variable revert : bool.

(** The argument of the command: nothing, a file, or a path with a star. *)
Inductive patch_arg :=
| NoPatch
| OneFile (c : container_file)
| Wildcard (ulp_folder_path wildcard : bytes) (directory : option (list dirent)).

(** [ret], [successes], [skippes] and [failures]. *)
Record counts := { cret : Z; successes : Z; skippes : Z; failures : Z }.

Definition bit (b : bool) : Z := if b then 1 else 0.

(** One process: the counts after it, and its results. *)
Definition trigger_process (arg : patch_arg) (t : target) (n : counts) : st (cstate K) Z (counts * list trigger_results) :=
  let one c :=
    let! r := trigger_one_process fuel timeout calloc_ok c0 calloc_thread parse_so_elf prefix disable_seccomp_p t retries c revert_library revert in
    let e := err r in
    ret ((if skippable_error e then
            {| cret := cret n; successes := successes n; skippes := skippes n + 1; failures := failures n |}
          else
            {| cret := Z.lor (cret n) e; successes := successes n + bit (e =? 0); skippes := skippes n;
               failures := failures n + bit (negb (e =? 0)) |}), [r]) in
  match arg with
  | Wildcard folder wildcard directory =>
    let! r := trigger_many_ulps fuel timeout calloc_ok c0 calloc_thread parse_so_elf prefix disable_seccomp_p fnmatch
      recursive_mode t retries revert_library revert folder wildcard directory in
    let (r, results) := r in
    let success := Z.testbit r 0 in
    ret ({| cret := cret n; successes := successes n + bit success;
            skippes := skippes n + bit (negb success && Z.testbit r 1);
            failures := failures n + bit (Z.testbit r 2) |}, results)
  | OneFile c => one (Some c)
  | NoPatch => one None
  end.

(** The processes one after the other, on the same machine. *)
Fixpoint trigger_processes (arg : patch_arg) (ps : list (ulp_process * target)) (n : counts) :
    st (tool K) Z (counts * list (ulp_process * list trigger_results)) :=
  match ps with
  | [] => ret (n, [])
  | (p, t) :: ps => fun w =>
    match trigger_process arg t n {| proc := p; tl := w |} with
    | (Ok (n, results), s) =>
      (let! r := trigger_processes arg ps n in ret (fst r, (proc s, results) :: snd r)) (tl s)
    | (Err e, s) => (Err e, tl s)
    | (Ub, s) => (Ub, tl s)
    | (NoFuel, s) => (NoFuel, tl s)
    end
  end.

Definition trigger_many_processes (arg : patch_arg) (ps : list (ulp_process * target)) :
    st (tool K) Z (counts * list (ulp_process * list trigger_results)) :=
  trigger_processes arg ps {| cret := 0; successes := 0; skippes := 0; failures := 0 |}.
End processes.

(** ** The summary of a process *)

(** The lines printed for a process: the name of the patch where it is printed,
    and the code whose message is. *)
Inductive outline :=
| SKIPPED (name : option bytes) (e : Z)
| FAILED (name : option bytes) (e : Z)
| SUCCESS (name : option bytes).

(** A minor result: the patch is for another library. *)
Definition minor (r : trigger_results) : bool := (err r =? EBUILDID) || (err r =? ENOTARGETLIB).

Fixpoint scan_err (results : list trigger_results) (e : Z) (hide : bool) : Z * bool :=
  match results with
  | [] => (e, hide)
  | r :: results =>
    if (err r =? 0) || (negb (err r =? EBUILDID) && negb (err r =? ENOTARGETLIB))
    then scan_err results (err r) true else scan_err results e hide
  end.

(** [summarized] and [summarized_result]. *)
Fixpoint summarize_results (results : list trigger_results) (e : Z) (hide : bool)
    (summarized : bool) (one : option trigger_results) : bool * option trigger_results :=
  match results with
  | [] => (summarized, one)
  | r :: results =>
    if hide && minor r then summarize_results results e hide summarized one
    else if negb (err r =? e) then summarize_results results e hide false one
    else if negb (minor r) then
      match one with
      | None => summarize_results results e hide summarized (Some r)
      | Some _ => summarize_results results e hide false one
      end
    else summarize_results results e hide summarized one
  end.

Fixpoint list_results (results : list trigger_results) (hide_skipped : bool) : list outline :=
  match results with
  | [] => []
  | r :: results =>
    (if minor r then if hide_skipped then [] else [SKIPPED (Some (patch_name r)) (err r)]
     else if negb (err r =? 0) then [FAILED (Some (patch_name r)) (err r)]
     else [SUCCESS (Some (patch_name r))]) ++ list_results results hide_skipped
  end%list.

(** [None]: nothing is printed. *)
Definition print_patched_unpatched (results : list trigger_results) (summarize : bool) : option (list outline) :=
  let e := match results with r :: _ => err r | [] => EUNKNOWN end in
  let (e, hide_skipped) := scan_err results e false in
  let (summarized, one) := summarize_results results e hide_skipped true None in
  if summarized && match one with None => true | Some _ => false end then None
  else
    let summarized := summarized && summarize in
    let hide_skipped := hide_skipped && summarize in
    if summarized then
      Some [ if skippable_error e then SKIPPED None e
             else if negb (e =? 0) then FAILED (option_map patch_name one) e
             else SUCCESS (option_map patch_name one) ]
    else Some (list_results results hide_skipped).

(** ** The privilege to disable seccomp *)

Definition is_sep (c : Z) : bool := (c =? 32) || (c =? 9) || (c =? 10).

(** The first token of [strtok (s, " \t\n")] and what follows its separator. *)
Fixpoint token (s acc : bytes) : bytes * bytes :=
  match s with
  | [] => (rev acc, [])
  | c :: s => if is_sep c then (rev acc, s) else token s (c :: acc)
  end.

Fixpoint skip_seps (s : bytes) : bytes :=
  match s with
  | [] => []
  | c :: r => if is_sep c then skip_seps r else s
  end.

Definition strtok_space (s : bytes) : option (bytes * bytes) :=
  match skip_seps s with
  | [] => None
  | s => Some (token s [])
  end.

(** The lines of [/proc/self/status]. [strtok] gives [NULL] on a line of
    separators, which is dereferenced: [None]. The value is read by [sscanf]. *)
Fixpoint check_sys_admin (sscanf_lx : bytes -> option Z) (lines : list bytes) : option bool :=
  match lines with
  | [] => Some false
  | line :: lines =>
    match strtok_space (cstr line) with
    | None => None
    | Some (t, rest) =>
      if byte_eqb t (str "CapPrm:") then
        match strtok_space rest with
        | None => None
        | Some (value_str, _) =>
          match sscanf_lx value_str with
          | None => Some false
          | Some value => Some (Z.testbit value 21)
          end
        end
      else check_sys_admin sscanf_lx lines
    end
  end.

(** ** The checks *)

Lemma find_target_ok target id libs : forall named b,
  find_target target id libs named = (true, b) ->
  exists d, In d libs /\ default [] (get_basename (Some (cstr (filename d)))) = target /\
    same_build_id id (dyn_build_id d) = true.
Proof.
  induction libs as [|d libs IH]; intros named b E; cbn [find_target] in E; [done|].
  destruct (byte_eqb _ _ && _) eqn:Eb.
  - apply andb_true_iff in Eb as [Hn Hid]. exists d. split_and!; [by left|by apply byte_eqb_spec|done].
  - apply IH in E as (d' & Hd & Hx). exists d'. split; [by right|done].
Qed.

(** A patch that passes the checks fits the process: a library of the process has
    the name and the build id of the target, and every new function is in the
    container the metadata names. *)
Definition suitable (parse_so_elf : bytes -> option ulp_so_info) (libs : list ulp_dynobj) (prefix : option bytes) (u : ulp_metadata) : Prop :=
  exists obj name d so_info,
    Metadata.objs u = Some obj /\ obj_name obj = Some name /\
    In d libs /\ get_basename (Some (cstr (filename d))) = get_basename (Some (cstr name)) /\
    (exists id, Metadata.build_id obj = Some id /\ take 20 id = take 20 (dyn_build_id d)) /\
    cstr (default [] (so_filename u)) =
      ((match prefix with Some p => cstr p | None => [] end) ++
       drop (length (match prefix with Some p => cstr p | None => [] end)) (cstr (default [] (so_filename u))))%list /\
    parse_so_elf (drop (length (match prefix with Some p => cstr p | None => [] end)) (cstr (default [] (so_filename u)))) = Some so_info /\
    forall unit, In unit (units obj) -> exists sym, get_symbol_with_name so_info (cstr (new_fname unit)) = Some sym.

Lemma get_basename_some s : exists b, get_basename (Some s) = Some b.
Proof. unfold get_basename. destruct (strrchr _ _); eauto. Qed.

Lemma functions_ok parse_so_elf u obj prefix : check_livepatch_functions_matches_metadata parse_so_elf u obj prefix = 0 ->
  let p := match prefix with Some p => cstr p | None => [] end in
  let name := cstr (default [] (so_filename u)) in
  exists so_info, name = (p ++ drop (length p) name)%list /\ parse_so_elf (drop (length p) name) = Some so_info /\
    forall unit, In unit (units obj) -> exists sym, get_symbol_with_name so_info (cstr (new_fname unit)) = Some sym.
Proof.
  intros E p name. unfold check_livepatch_functions_matches_metadata in E. fold name in E.
  assert (Hgo : forall f, match parse_so_elf f with
    | None => EINVAL
    | Some so_info => if forallb (fun unit => match get_symbol_with_name so_info (cstr (new_fname unit)) with Some _ => true | None => false end) (units obj) then 0 else 1
    end = 0 -> exists so_info, parse_so_elf f = Some so_info /\
      forall unit, In unit (units obj) -> exists sym, get_symbol_with_name so_info (cstr (new_fname unit)) = Some sym).
  { intros f Ef. destruct (parse_so_elf f) as [so_info|]; [|done]. exists so_info. split; [done|].
    destruct (forallb _ _) eqn:Ef'; [|done]. rewrite forallb_forall in Ef'. intros unit Hu. specialize (Ef' unit Hu).
    destruct (get_symbol_with_name _ _) eqn:Es; [eauto|done]. }
  destruct prefix as [pre|]; subst p; cbn [length app drop] in *.
  - destruct (byte_eqb _ _) eqn:Eb; cbn [negb] in E; [|done]. apply byte_eqb_spec in Eb.
    apply Hgo in E as (so_info & E1 & E2). exists so_info. split_and!; try done. rewrite <- Eb at 1. by rewrite take_drop.
  - apply Hgo in E as (so_info & E1 & E2). by exists so_info.
Qed.

Lemma check_patch_sanity_ok parse_so_elf u libs prefix :
  check_patch_sanity parse_so_elf u libs prefix = 0 -> suitable parse_so_elf libs prefix u.
Proof.
  unfold check_patch_sanity. destruct (Metadata.objs u) as [obj|] eqn:Eo; [|done]. destruct (obj_name obj) as [name|] eqn:En; [|done].
  destruct (Z.eqb_spec (check_livepatch_functions_matches_metadata parse_so_elf u obj prefix) 0) as [Ef|]; cbn [negb]; [|done].
  destruct (find_target _ _ _ _) as [found named] eqn:Et. destruct found; [|by destruct named]. intros _.
  apply find_target_ok in Et as (d & Hd & Hn & Hid). apply functions_ok in Ef as (so_info & E1 & E2 & E3).
  exists obj, name, d, so_info. split_and!; try done.
  - destruct (get_basename_some (cstr (filename d))) as [b1 Hb1], (get_basename_some (cstr name)) as [b2 Hb2].
    rewrite Hb1, Hb2 in *. cbn in Hn. congruence.
  - unfold same_build_id in Hid. destruct (Metadata.build_id obj) as [id|]; [|done]. exists id. split; [done|]. by apply byte_eqb_spec.
Qed.

(** ** One process *)

Section one_process.
Context {K : Type} `{ThreadLaws K}.
Variable fuel : nat.
Variable timeout : Z.
Variable calloc_ok : nat -> Z -> bool.
Variable c0 : Z.
Variable calloc_thread : bool.
Variable parse_so_elf : bytes -> option ulp_so_info.
Variable prefix : option bytes.
Variable disable_seccomp_p : bool.
Variable t : target.
(** An [errno] is positive. *)
Hypothesis errno_tasks : forall i, 0 <= fst (tasks t i).

Abbreviation load_livepatch' := (load_livepatch calloc_ok c0 parse_so_elf prefix t).
Abbreviation attempt' := (attempt fuel timeout calloc_thread disable_seccomp_p t).
Abbreviation retry_loop' := (fun retry i => retry_loop fuel timeout calloc_thread disable_seccomp_p retry i t).

(** The code of [m], early or not. *)
Definition result_of {A} (r : res Z A) : bool := match r with Ok _ | Err _ => true | _ => false end.

Lemma ckeeps_revert_step livepatch lib result : ckeeps (revert_step fuel timeout livepatch lib result).
Proof.
  unfold revert_step. destruct lib as [lib|]; [|apply ckeeps_ret].
  apply ckeeps_bind; [apply ckeeps_revert|intros r]. cbv zeta.
  apply ckeeps_bind; [case_goal; [apply ckeeps_log|apply ckeeps_ret]|intros _]. case_goal; apply ckeeps_ret.
Qed.

Lemma ckeeps_apply_step livepatch result : ckeeps (apply_step fuel timeout disable_seccomp_p livepatch result).
Proof.
  unfold apply_step. destruct livepatch as [[bs u]|]; [|apply ckeeps_ret].
  apply ckeeps_bind; [apply ckeeps_apply|intros r]. case_goal; [|apply ckeeps_ret].
  apply ckeeps_bind; [apply ckeeps_log|intros _; apply ckeeps_ret].
Qed.

Lemma returns_revert_step livepatch lib result : returns (revert_step fuel timeout livepatch lib result).
Proof.
  unfold revert_step. destruct lib as [lib|]; [|apply returns_ret].
  apply returns_bind; [apply returns_revert|intros r]. cbv zeta.
  apply returns_bind; [case_goal; [apply returns_log|apply returns_ret]|intros _]. case_goal; apply returns_ret.
Qed.

Lemma returns_apply_step livepatch result : returns (apply_step fuel timeout disable_seccomp_p livepatch result).
Proof.
  unfold apply_step. destruct livepatch as [[bs u]|]; [|apply returns_ret].
  apply returns_bind; [apply returns_apply|intros r]. case_goal; [|apply returns_ret].
  apply returns_bind; [apply returns_log|intros _; apply returns_ret].
Qed.

(** What an attempt does once the threads are stopped. *)
Lemma returns_body livepatch lib result : returns
  (let! r := revert_step fuel timeout livepatch lib result in
   let '(result, stop, skip_patch_apply) := r in
   let! r := (if skip_patch_apply then ret (result, false) else apply_step fuel timeout disable_seccomp_p livepatch result) in
   let (result, stop') := r in
   let! e := restore_threads fuel in
   (if negb (e =? 0) then log "fatal error during live patch application (restoring)." else ret tt);;;
   (if negb (result =? 0) then lift (on_kernel (fun k : K => (tt, usleep 1000 k))) else ret tt);;;
   ret (result, stop || stop' || negb (e =? 0))).
Proof.
  apply returns_bind; [apply returns_revert_step|intros [[r1 stop1] skip]].
  apply returns_bind; [case_goal; [apply returns_ret|apply returns_apply_step]|intros [r2 stop2]].
  apply returns_bind; [apply returns_restore|intros e1].
  apply returns_bind; [case_goal; [apply returns_log|apply returns_ret]|intros _].
  apply returns_bind; [case_goal; [apply returns_lift, returns_kernel|apply returns_ret]|intros _; apply returns_ret].
Qed.

(** A call that gives its result without touching the process. *)
Lemma ckeeps_ok {A} (m : st (cstate K) Z A) s r s' : ckeeps m -> m s = (r, s') -> proc s' = proc s.
Proof. intros Hm E. destruct (Hm s) as [_ P]. by rewrite E in P. Qed.

Lemma ckeeps_usleep : ckeeps (lift (on_kernel (fun k : K => (tt, usleep 1000 k)))).
Proof. apply ckeeps_lift. intros R. apply stable_usleep, quiet_released. Qed.

(** An attempt that ends has stopped the threads, run libpulp and let them go. *)
Lemma attempt_ok i livepatch lib result s result' stop s' : idle s ->
  attempt' i livepatch lib result s = (Ok (result', stop), s') ->
  exists s1 r1 stop1 skip s2 stop2 s3 e s4,
    hijack_threads fuel (fst (tasks t i)) calloc_thread (snd (tasks t i)) s = (Ok 0, s1) /\
    revert_step fuel timeout livepatch lib result s1 = (Ok (r1, stop1, skip), s2) /\
    (if skip then ret (r1, false) else apply_step fuel timeout disable_seccomp_p livepatch r1) s2 = (Ok (result', stop2), s3) /\
    restore_threads fuel s3 = (Ok e, s4) /\ proc s' = proc s4 /\
    stop = stop1 || stop2 || negb (e =? 0) /\
    grows (tl s4) (tl s') /\ kernel (tl s') = if result' =? 0 then kernel (tl s4) else usleep 1000 (kernel (tl s4)).
Proof.
  intros Hi Hs. unfold attempt in Hs. destruct (tasks t i) as [opendir listing] eqn:Et. cbn [fst snd].
  apply bind_ok_inv in Hs as (e & s1 & E1 & Hs).
  destruct (Z.eqb_spec e ETHRDDETTACH) as [->|Hn1]; [by apply bind_ok_inv in Hs as ([] & ? & _ & [=])|].
  destruct (Z.ltb_spec 0 e) as [Hn|Hn]; [by apply bind_ok_inv in Hs as ([] & ? & _ & [=])|].
  assert (He : e = 0).
  { pose proof (errno_tasks i) as Hx. rewrite Et in Hx. pose proof (hijack_codes _ _ _ _ _ _ _ Hi Hx E1). lia. }
  subst e. apply bind_ok_inv in Hs as ([[r1 stop1] skip] & s2 & E2 & Hs).
  apply bind_ok_inv in Hs as ([r2 stop2] & s3 & E3 & Hs). apply bind_ok_inv in Hs as (e & s4 & E4 & Hs).
  apply bind_ok_inv in Hs as ([] & s5 & E5 & Hs). apply bind_ok_inv in Hs as ([] & s6 & E6 & [= -> <- <-]).
  exists s1, r1, stop1, skip, s2, stop2, s3, e, s4. split_and!; try done.
  - apply warn_ok in E5 as [_ P5]. rewrite <- P5. destruct (negb (result' =? 0)); [|by injection E6 as <-].
    by apply ckeeps_ok in E6; [|apply ckeeps_usleep].
  - apply warn_same in E5 as [G5 _]. destruct (negb (result' =? 0)); [|by injection E6 as <-].
    eapply grows_trans; [exact G5|]. injection E6 as <-. by apply grows_same.
  - apply warn_same in E5 as [_ <-]. destruct (result' =? 0); cbn [negb] in E6; by injection E6 as <-.
Qed.
(** What it leaves, also when hijacking failed. *)
Lemma attempt_idle i livepatch lib result s r s' : idle s ->
  attempt' i livepatch lib result s = (r, s') -> result_of r = true -> idle s' /\ pid (proc s') = pid (proc s).
Proof.
  intros Hi Hs Hr. destruct r as [[result' stop]|e| |]; try done.
  - destruct (attempt_ok _ _ _ _ _ _ _ _ Hi Hs) as (s1 & r1 & stop1 & skip & s2 & stop2 & s3 & e & s4 & E1 & E2 & E3 & E4 & P & _).
    destruct (hijack_success _ _ _ _ _ _ Hi E1) as (_ & (_ & _ & Hmain) & _ & Hp & _).
    apply ckeeps_ok in E2; [|apply ckeeps_revert_step].
    apply ckeeps_ok in E3; [|destruct skip; [apply ckeeps_ret|apply ckeeps_apply_step]].
    destruct (restore_idle fuel s3 e s4) as (Hi4 & Hp4 & _); [|done|].
    + rewrite E3, E2. destruct (main_thread (proc s1)); [|done]. intros Hx. rewrite Hx in Hmain. by destruct Hmain as [[] _].
    + unfold idle. rewrite P. split; [done|congruence].
  - unfold attempt in Hs. destruct (tasks t i) as [opendir listing] eqn:Et.
    apply bind_err_inv in Hs as [Hs|(e0 & s1 & E1 & Hs)]; [by apply returns_no_err in Hs; [|apply returns_hijack]|].
    assert (Hlog : forall m A, (log m;;; throw e0 : st (cstate K) Z A) s1 = (Err e, s') -> proc s' = proc s1).
    { intros m A E. apply bind_err_inv in E as [E|([] & s2 & E & [= _ <-])]; [done|]. by apply ckeeps_ok in E; [|apply ckeeps_log]. }
    assert (Hthrow : e0 <> 0 -> proc s' = proc s1 -> idle s' /\ pid (proc s') = pid (proc s)).
    { intros Hne P. destruct (hijack_failed _ _ _ _ _ _ _ Hi Hne E1) as (Hi1 & Hp & _). unfold idle. rewrite P. by split. }
    destruct (Z.eqb_spec e0 ETHRDDETTACH) as [->|Hn1]; [apply Hthrow; [done|by eapply Hlog]|].
    destruct (Z.ltb_spec 0 e0) as [Hn|Hn]; [apply Hthrow; [lia|by eapply Hlog]|].
    exfalso. eapply returns_no_err, Hs. apply returns_body.
Qed.

Lemma retry_loop_idle livepatch lib n : forall i result s r s', idle s ->
  retry_loop' n i livepatch lib result s = (r, s') -> result_of r = true -> idle s' /\ pid (proc s') = pid (proc s).
Proof.
  induction n as [|n IH]; intros i result s r s' Hi Hs Hr; cbn [retry_loop] in Hs; [by injection Hs as <- <-|].
  unfold bind in Hs. destruct (attempt' i livepatch lib result s) as [a s1] eqn:Ea.
  destruct a as [[result' stop]|e| |]; cbn in Hs.
  - destruct (attempt_idle _ _ _ _ _ _ _ Hi Ea eq_refl) as [Hi1 Hp1]. destruct stop; [by injection Hs as <- <-|].
    destruct (IH _ _ _ _ _ Hi1 Hs Hr) as [Hi2 Hp2]. split; [done|congruence].
  - injection Hs as <- <-. by apply (attempt_idle _ _ _ _ _ _ _ Hi Ea).
  - by injection Hs as <- <-.
  - by injection Hs as <- <-.
Qed.

(** Loading the patch does not touch the process. *)
Lemma ckeeps_load container revert : ckeeps (load_livepatch' container revert).
Proof.
  assert (Hthrow : forall A e, ckeeps (throw e : st (cstate K) Z A)) by (intros A e; by intros s).
  unfold load_livepatch.
  repeat first [apply ckeeps_ret | apply ckeeps_undef | apply Hthrow | apply ckeeps_log | by intros s
               | apply ckeeps_bind; [|intros] | progress cbv zeta | case_goal].
Qed.
Lemma load_ok c revert bs u (s s' : cstate K) : load_livepatch' (Some c) revert s = (Ok (Some (bs, u)), s') ->
  exists final_prefix size st, adjust_prefix_for_chroot (chrooted t) prefix = Some final_prefix /\
    extract_ulp_from_so_to_mem (c_section c revert) (c_realpath c) (c_path c) final_prefix = Ok (size, Buffer bs) /\
    (parse_metadata_from_mem calloc_ok c0 zero_metadata bs size = (Ok 0, st) \/
     parse_metadata_from_mem calloc_ok c0 zero_metadata bs size = (Err 0, st)) /\
    u = ps_ulp st /\ suitable parse_so_elf (libraries t) final_prefix u.
Proof.
  intros Hs. unfold load_livepatch in Hs. destruct (adjust_prefix_for_chroot _ _) as [fp|]; [|done].
  destruct (extract_ulp_from_so_to_mem _ _ _ _) as [[size [| |b]]|e| |] eqn:Ee; try done.
  destruct (size =? 0); [done|]. exists fp, size.
  assert (Hgo : forall e st, (if negb (e =? 0) then log "error parsing the metadata file (%s).";;; throw e
      else let e := check_patch_sanity parse_so_elf (ps_ulp st) (libraries t) fp in
           if negb (e =? 0) then throw e else ret (Some (b, ps_ulp st))) s = (Ok (Some (bs, u)), s') ->
      e = 0 /\ bs = b /\ u = ps_ulp st /\ suitable parse_so_elf (libraries t) fp u).
  { intros e st E. destruct (Z.eqb_spec e 0) as [->|]; cbn [negb] in E; [|by apply bind_ok_inv in E as ([] & ? & _ & [=])].
    cbv zeta in E. destruct (Z.eqb_spec (check_patch_sanity parse_so_elf (ps_ulp st) (libraries t) fp) 0) as [Es|]; cbn [negb] in E; [|done].
    injection E as <- <- _. split_and!; try done. by apply check_patch_sanity_ok. }
  destruct (parse_metadata_from_mem _ _ _ _ _) as [[e|e| |] st] eqn:Ep; try done;
    apply Hgo in Hs as (-> & -> & -> & Hsuit); exists st; split_and!; auto.
Qed.

Lemma load_some c revert (s s' : cstate K) : load_livepatch' (Some c) revert s = (Ok None, s') -> False.
Proof.
  intros Hs. unfold load_livepatch in Hs. destruct (adjust_prefix_for_chroot _ _) as [fp|]; [|done].
  destruct (extract_ulp_from_so_to_mem _ _ _ _) as [[size [| |b]]|e0| |]; try done. destruct (size =? 0); [done|].
  destruct (parse_metadata_from_mem _ _ _ _ _) as [[e1|e1| |] st]; try done;
    (destruct (negb (e1 =? 0)); [by apply bind_ok_inv in Hs as ([] & ? & _ & [=])|]; cbv zeta in Hs; by destruct (negb _)).
Qed.

(** An error of the loop is a code of [hijack_threads]. *)
Lemma attempt_err i livepatch lib result s e s' : idle s ->
  attempt' i livepatch lib result s = (Err e, s') -> e <> 0.
Proof.
  intros Hi Hs. unfold attempt in Hs. destruct (tasks t i) as [opendir listing].
  apply bind_err_inv in Hs as [Hs|(e0 & s1 & E1 & Hs)]; [by apply returns_no_err in Hs; [|apply returns_hijack]|].
  destruct (Z.eqb_spec e0 ETHRDDETTACH) as [->|Hn1]; [by apply bind_err_inv in Hs as [[=]|([] & ? & _ & [= <- _])]|].
  destruct (Z.ltb_spec 0 e0) as [Hn|Hn]; [apply bind_err_inv in Hs as [[=]|([] & ? & _ & [= <- _])]; lia|].
  exfalso. eapply returns_no_err, Hs. apply returns_body.
Qed.

Lemma retry_loop_err livepatch lib n : forall i result s e s', idle s ->
  retry_loop' n i livepatch lib result s = (Err e, s') -> e <> 0.
Proof.
  induction n as [|n IH]; intros i result s e s' Hi Hs; cbn [retry_loop] in Hs; [done|].
  apply bind_err_inv in Hs as [Hs|([result' stop] & s1 & E1 & Hs)]; [by eapply attempt_err|].
  destruct (attempt_idle _ _ _ _ _ _ _ Hi E1 eq_refl) as [Hi1 _]. destruct stop; [done|]. by eapply IH.
Qed.

Lemma trigger_inv retries container lib revert s r s' : trigger_one_process fuel timeout calloc_ok c0 calloc_thread parse_so_elf prefix disable_seccomp_p t retries container lib revert s = (Ok r, s') ->
  exists a, trigger_body fuel timeout calloc_ok c0 calloc_thread parse_so_elf prefix disable_seccomp_p t retries container lib revert s = (a, s') /\
    result_of a = true /\ (err r = 0 -> a = Ok 0 \/ a = Err 0).
Proof.
  intros Hs. unfold trigger_one_process in Hs. apply bind_ok_inv in Hs as (x & s1 & E1 & [= <- <-]). unfold code in E1.
  destruct (trigger_body _ _ _ _ _ _ _ _ _ _ _ _ _ s) as [[v|v| |] s2]; try done; injection E1 as -> <-; eexists; split_and!; try done; cbn; intros ->; auto.
Qed.

(** No error of the function is 0. *)
Lemma trigger_body_err retries container lib revert s e s' : idle s ->
  trigger_body fuel timeout calloc_ok c0 calloc_thread parse_so_elf prefix disable_seccomp_p t retries container lib revert s = (Err e, s') -> e <> 0.
Proof.
  intros Hi Hs. unfold trigger_body in Hs. apply bind_err_inv in Hs as [[=]|(p & s0 & [= <- <-] & Hs)].
  apply bind_err_inv in Hs as [Hs|([compatible d] & s1 & E1 & Hs)].
  { exfalso. eapply returns_no_err, Hs. apply returns_lift, returns_compatible. }
  apply bind_err_inv in Hs as [[=]|([] & s2 & [= <-] & Hs)].
  destruct (negb compatible); [by injection Hs as <- _|].
  apply bind_err_inv in Hs as [Hs|(livepatch & s3 & E3 & Hs)].
  { clear -Hs. unfold load_livepatch in Hs. destruct container as [c|]; [|done].
    destruct (adjust_prefix_for_chroot _ _) as [fp|]; [|done].
    destruct (extract_ulp_from_so_to_mem _ _ _ _) as [[size [| |b]]|e0| |]; try done; try (by injection Hs as <- _).
    destruct (size =? 0); [by injection Hs as <- _|].
    destruct (parse_metadata_from_mem _ _ _ _ _) as [[e1|e1| |] st]; try done;
      (destruct (Z.eqb_spec e1 0) as [->|]; cbn [negb] in Hs;
       [cbv zeta in Hs; destruct (Z.eqb_spec (check_patch_sanity parse_so_elf (ps_ulp st) (libraries t) fp) 0); cbn [negb] in Hs; [done|by injection Hs as <- _]
       |apply bind_err_inv in Hs as [[=]|([] & ? & _ & [= <- _])]; done]). }
  apply bind_err_inv in Hs as [Hs|(result & s4 & E4 & Hs)].
  2:{ destruct (Z.eqb_spec result 0); cbn [negb] in Hs; [done|by injection Hs as <- _]. }
  apply (retry_loop_err livepatch lib retries 0%nat (-1)) in Hs; [done|].
  apply ckeeps_ok in E3; [|apply ckeeps_load]. pose proof (lift_snd (insnq_check_compatibility fuel (pid (proc s)) (dynobj_libpulp (proc s))) s) as [P1 _].
  rewrite E1 in P1. cbn in P1. unfold idle, set_dynobj in *. rewrite E3. cbn. by rewrite P1.
Qed.

(** After a pause of a millisecond. *)
Definition paused (s : cstate K) : cstate K :=
  {| proc := proc s; tl := {| kernel := usleep 1000 (kernel (tl s)); tlog := tlog (tl s) |} |}.

(** A busy process, the threads being let go without an error: the next attempt. *)
Lemma busy_retried i n opendir listing bs u result s s1 s2 s3 :
  tasks t i = (opendir, listing) ->
  hijack_threads fuel opendir calloc_thread listing s = (Ok 0, s1) ->
  apply_patch fuel timeout bs disable_seccomp_p s1 = (Ok EAGAIN, s2) ->
  restore_threads fuel s2 = (Ok 0, s3) ->
  retry_loop' (S n) i (Some (bs, u)) None result s = retry_loop' n (S i) (Some (bs, u)) None EAGAIN (paused s3).
Proof.
  intros Et Eh Ea Er. cbn [retry_loop]. unfold attempt. rewrite Et. rewrite bind_assoc. step_bind Eh.
  cbn [Z.eqb ETHRDDETTACH Z.ltb Z.compare]. change (0 =? ETHRDDETTACH) with false. change (0 <? 0) with false. cbv iota.
  unfold revert_step. rewrite bind_assoc, ret_bind. cbv beta iota. unfold apply_step. rewrite !bind_assoc. step_bind Ea.
  change (EAGAIN =? -1) with false. cbv iota. rewrite ret_bind. rewrite !bind_assoc. step_bind Er. done.
Qed.

(** The patches were reverted and then libpulp is busy: whatever number of
    retries is left, the loop ends with [EAGAIN]; the old patches are gone and the
    new one is not applied, although a busy process is retried otherwise
    ([busy_retried]). *)
Theorem busy_after_revert i n opendir listing bs u lib result s s1 s2 s3 e s4 :
  tasks t i = (opendir, listing) ->
  hijack_threads fuel opendir calloc_thread listing s = (Ok 0, s1) ->
  revert_patches_from_lib fuel timeout (target_name_of (Some (bs, u))) lib s1 = (Ok 0, s2) ->
  apply_patch fuel timeout bs disable_seccomp_p s2 = (Ok EAGAIN, s3) ->
  restore_threads fuel s3 = (Ok e, s4) ->
  exists s', retry_loop' (S n) i (Some (bs, u)) (Some lib) result s = (Ok EAGAIN, s').
Proof.
  intros Et Eh Ev Ea Er. cbn [retry_loop]. unfold attempt. rewrite Et. rewrite bind_assoc. step_bind Eh.
  change (0 =? ETHRDDETTACH) with false. change (0 <? 0) with false. cbv iota.
  assert (Ev' : revert_step fuel timeout (Some (bs, u)) (Some lib) result s1 = (Ok (0, true, false), s2)).
  { unfold revert_step. by step_bind Ev. }
  rewrite bind_assoc. step_bind Ev'. cbv beta iota.
  unfold apply_step. rewrite !bind_assoc. step_bind Ea. change (EAGAIN =? -1) with false. cbv iota.
  rewrite ret_bind. cbv beta iota. rewrite !bind_assoc. step_bind Er.
  destruct (e =? 0); cbn; by eexists.
Qed.
End one_process.

(** ** The batch *)

(** The code of a batch that is not a wildcard, over the results of the processes. *)
Definition batch_code (results : list trigger_results) : Z :=
  foldr Z.lor 0 (map err (filter (fun r => negb (skippable_error (err r))) results)).

Definition count {A} (f : A -> bool) (l : list A) : Z := zlen (filter f l).

Lemma batch_code_zero results :
  batch_code results = 0 <-> count (fun r => negb (err r =? 0) && negb (skippable_error (err r))) results = 0.
Proof.
  unfold batch_code, count. induction results as [|r results IH]; cbn [filter]; [by split|].
  destruct (skippable_error (err r)); cbn [negb map foldr]; [by rewrite andb_false_r|]. rewrite andb_true_r.
  destruct (Z.eqb_spec (err r) 0) as [->|Hn]; cbn [negb]; [by rewrite Z.lor_0_l|].
  rewrite Z.lor_eq_0_iff. unfold zlen. cbn [length]. split; [by intros [? _]|lia].
Qed.

(** The three kinds of results are disjoint. *)
Lemma count_total results :
  count (fun r => err r =? 0) results + count (fun r => skippable_error (err r)) results +
  count (fun r => negb (err r =? 0) && negb (skippable_error (err r))) results = zlen results.
Proof.
  unfold count, zlen. induction results as [|r results IH]; cbn [filter]; [done|].
  destruct (Z.eqb_spec (err r) 0) as [->|Hn]; cbn [skippable_error negb andb].
  - change (skippable_error 0) with false. cbn [length]. lia.
  - destruct (skippable_error (err r)); cbn [negb length]; lia.
Qed.

Section batch.
Context {K : Type} `{Kernel K}.
Variable fuel : nat.
Variable timeout : Z.
Variable calloc_ok : nat -> Z -> bool.
Variable c0 : Z.
Variable calloc_thread : bool.
Variable parse_so_elf : bytes -> option ulp_so_info.
Variable prefix : option bytes.
Variable disable_seccomp_p : bool.
Variable fnmatch : bytes -> bytes -> bool.
Variable recursive_mode : bool.
Variable retries : nat.
Variable revert_library : option bytes.
Variable revert : bool.

Abbreviation processes' := (trigger_processes fuel timeout calloc_ok c0 calloc_thread parse_so_elf prefix disable_seccomp_p
  fnmatch recursive_mode retries revert_library revert).
Lemma processes_one arg ps : (forall f w d, arg <> Wildcard f w d) -> forall n w n' rs w',
  processes' arg ps n w = (Ok (n', rs), w') ->
  let results := concat (map snd rs) in
  zlen results = zlen ps /\ map (fun r => zlen (snd r)) rs = map (fun _ => 1) ps /\
  cret n' = Z.lor (cret n) (batch_code results) /\
  successes n' = successes n + count (fun r => err r =? 0) results /\
  skippes n' = skippes n + count (fun r => skippable_error (err r)) results /\
  failures n' = failures n + count (fun r => negb (err r =? 0) && negb (skippable_error (err r))) results.
Proof.
  intros Harg. induction ps as [|[p t] ps IH]; intros n w n' rs w' Hs; cbn [trigger_processes] in Hs.
  { injection Hs as <- <- _. cbn. unfold batch_code, count, zlen. cbn. rewrite Z.lor_0_r, !Z.add_0_r. by split_and!. }
  destruct (trigger_process _ _ _ _ _ _ _ _ _ _ _ _ _ arg t n _) as [[[n1 results]|e| |] s1] eqn:E1; try done.
  apply bind_ok_inv in Hs as ([n2 rs2] & w2 & E2 & [= <- <- <-]). apply IH in E2 as (Hx1 & Hx2 & Hx3 & Hx4 & Hx5 & Hx6).
  assert (Hone : exists r, results = [r] /\ cret n1 = Z.lor (cret n) (if skippable_error (err r) then 0 else err r) /\
    successes n1 = successes n + bit (err r =? 0) /\ skippes n1 = skippes n + bit (skippable_error (err r)) /\
    failures n1 = failures n + bit (negb (err r =? 0) && negb (skippable_error (err r)))).
  { unfold trigger_process in E1. destruct arg as [|c|f wc d]; [| |by destruct (Harg f wc d)];
      apply bind_ok_inv in E1 as (r & ? & _ & [= <- <- _]); exists r; split; try done;
      destruct (skippable_error (err r)) eqn:Esk; cbn [cret successes skippes failures negb andb bit];
      rewrite ?andb_false_r, ?andb_true_r, ?Z.lor_0_r; split_and!; try done; try lia;
      (destruct (Z.eqb_spec (err r) 0) as [E0|]; [rewrite E0 in Esk; done|cbn; lia]). }
  destruct Hone as (r & -> & Hy1 & Hy2 & Hy3 & Hy4). cbn [map snd concat app fst].
  set (rest := concat (map snd rs2)) in *. unfold batch_code, count in *. cbn [filter].
  split_and!.
  - unfold zlen in *. cbn. lia.
  - by rewrite Hx2.
  - rewrite Hx3, Hy1. destruct (skippable_error (err r)); cbn [negb map foldr]; [by rewrite Z.lor_0_r|by rewrite Z.lor_assoc].
  - rewrite Hx4, Hy2. destruct (err r =? 0); cbn [bit]; unfold zlen; cbn; lia.
  - rewrite Hx5, Hy3. destruct (skippable_error (err r)); cbn [bit]; unfold zlen; cbn; lia.
  - rewrite Hx6, Hy4. destruct (negb (err r =? 0) && negb (skippable_error (err r))); cbn [bit]; unfold zlen; cbn; lia.
Qed.

(** A batch with one file (or none) over all processes: every process has one
    result, each is counted once, as a success, as skipped or as a failure, and
    the code of the command is 0 exactly when no process failed; skipping a
    process is not a failure. *)
Theorem batch_result arg ps w n rs w' :
  (forall folder wildcard directory, arg <> Wildcard folder wildcard directory) ->
  trigger_many_processes fuel timeout calloc_ok c0 calloc_thread parse_so_elf prefix disable_seccomp_p
    fnmatch recursive_mode retries revert_library revert arg ps w = (Ok (n, rs), w') ->
  let results := concat (map snd rs) in
  successes n + skippes n + failures n = zlen ps /\
  successes n = count (fun r => err r =? 0) results /\
  skippes n = count (fun r => skippable_error (err r)) results /\
  (cret n = 0 <-> failures n = 0).
Proof.
  intros Harg Hs. apply processes_one in Hs as (Hx1 & _ & Hx3 & Hx4 & Hx5 & Hx6); [|done].
  cbn [cret successes skippes failures] in *. rewrite Z.lor_0_l in Hx3. rewrite Hx4, Hx5, Hx6, Hx3, <- Hx1.
  split_and!; [rewrite <- count_total; lia|lia|lia|]. rewrite batch_code_zero. lia.
Qed.

Lemma processes_wildcard folder wildcard directory ps : forall n0 w n rs w',
  processes' (Wildcard folder wildcard directory) ps n0 w = (Ok (n, rs), w') -> cret n = cret n0.
Proof.
  induction ps as [|[p t] ps IH]; intros n0 w n rs w' Hs; cbn [trigger_processes] in Hs; [by injection Hs as <- _ _|].
  destruct (trigger_process _ _ _ _ _ _ _ _ _ _ _ _ _ _ t n0 _) as [[[n1 results]|e| |] s1] eqn:E1; try done.
  apply bind_ok_inv in Hs as ([n2 rs2] & w2 & E2 & [= <- _ _]). apply IH in E2 as ->.
  unfold trigger_process in E1. by apply bind_ok_inv in E1 as ([r l] & ? & _ & [= <- _ _]).
Qed.

(** With a wildcard the code of the command is 0, whatever the processes gave:
    the counter of failures is printed and forgotten. *)
Theorem wildcard_exit_code folder wildcard directory ps w n rs w' :
  trigger_many_processes fuel timeout calloc_ok c0 calloc_thread parse_so_elf prefix disable_seccomp_p
    fnmatch recursive_mode retries revert_library revert (Wildcard folder wildcard directory) ps w = (Ok (n, rs), w') -> cret n = 0.
Proof. apply processes_wildcard. Qed.
End batch.

(** ** The summary *)

Definition important (r : trigger_results) : bool := negb (minor r).

(** What the loops remember. *)
Lemma scan_err_hide results : forall e hide, existsb important results = true -> (scan_err results e hide).2 = true.
Proof.
  assert (Hstay : forall l e, (scan_err l e true).2 = true).
  { induction l as [|r l IH]; intros e; cbn [scan_err]; [done|]. by destruct (_ || _). }
  induction results as [|r results IH]; intros e hide Hx; cbn [scan_err existsb] in *; [done|].
  unfold important, minor in *. apply orb_true_iff in Hx as [Hx|Hx].
  - rewrite negb_orb in Hx. rewrite Hx, orb_true_r. apply Hstay.
  - destruct (_ || _); [apply Hstay|by apply IH].
Qed.

(** A summary is made of the one important result. *)
Lemma summarize_one results e : forall b one one',
  summarize_results results e true b one = (true, one') ->
  b = true /\ forall r, (one = Some r \/ In r results) -> important r = true ->
  (forall r', one = Some r' -> err r' = e) -> one' = Some r /\ err r = e.
Proof.
  assert (Hfalse : forall l one one', summarize_results l e true false one = (true, one') -> False).
  { induction l as [|r l IH]; intros one one' Hs; cbn [summarize_results] in Hs; [done|].
    destruct (true && minor r); [by eapply IH|]. destruct (negb (err r =? e)); [by eapply IH|].
    destruct (negb (minor r)); [destruct one|]; by eapply IH. }
  assert (Hkeep : forall l r one', summarize_results l e true true (Some r) = (true, one') -> one' = Some r /\ forall r', In r' l -> minor r' = true).
  { induction l as [|x l IH]; intros r one' Hs; cbn [summarize_results] in Hs; [by injection Hs as <-|].
    destruct (minor x) eqn:Em; cbn [andb negb] in Hs.
    - apply IH in Hs as [-> Hl]. split; [done|]. intros r' [<-|Hr]; [done|by apply Hl].
    - destruct (negb (err x =? e)); by apply Hfalse in Hs. }
  induction results as [|x results IH]; intros b one one' Hs; cbn [summarize_results] in Hs.
  { injection Hs as -> <-. split; [done|]. intros r [->|[]] _ He. split; [done|by apply He]. }
  destruct b; [split; [done|]|].
  2:{ exfalso. eapply (Hfalse (x :: results)). cbn [summarize_results]. exact Hs. }
  intros r Hr Hi He. unfold important in Hi. destruct (minor x) eqn:Em; cbn [andb negb] in Hs.
  - apply IH in Hs as [_ Hs]. apply Hs; [|done|done]. destruct Hr as [Hr|[->|Hr]]; [by left|by rewrite Em in Hi|by right].
  - destruct (Z.eqb_spec (err x) e) as [He'|]; cbn [negb] in Hs; [|by apply Hfalse in Hs].
    destruct one as [y|]; [by apply Hfalse in Hs|]. apply Hkeep in Hs as [-> Hl].
    destruct Hr as [Hr|[->|Hr]]; [done|done|]. rewrite (Hl r Hr) in Hi. done.
Qed.

Lemma list_results_failed r results hide : In r results -> important r = true -> err r <> 0 ->
  In (FAILED (Some (patch_name r)) (err r)) (list_results results hide).
Proof.
  intros Hr Hi He. induction results as [|x results IH]; [done|]. cbn [list_results]. apply in_or_app.
  destruct Hr as [->|Hr]; [left|right; by apply IH]. unfold important in Hi. destruct (minor r); [done|].
  rewrite (proj2 (Z.eqb_neq _ _) He). by left.
Qed.

(** No failure is hidden from the user: when a patch failed on the process
    (with a code that is not one of the skippable ones), its code is on a
    FAILED line with the name of the patch, summarized or not, among whatever
    other results. *)
Theorem failures_are_shown results summarize r :
  In r results -> err r <> 0 -> skippable_error (err r) = false ->
  exists out, print_patched_unpatched results summarize = Some out /\
    In (FAILED (Some (patch_name r)) (err r)) out.
Proof.
  intros Hr He Hs. assert (Hi : important r = true).
  { unfold important, minor. apply negb_true_iff. unfold skippable_error in Hs.
    repeat (apply orb_false_iff in Hs as [Hs ?]). by apply orb_false_iff. }
  unfold print_patched_unpatched. set (e0 := match results with [] => EUNKNOWN | r0 :: _ => err r0 end).
  destruct (scan_err results e0 false) as [e hide] eqn:Esc.
  assert (hide = true) as ->.
  { pose proof (scan_err_hide results e0 false) as L. rewrite Esc in L. apply L. apply existsb_exists. by exists r. }
  destruct (summarize_results results e true true None) as [summarized one] eqn:Esum.
  destruct summarized; cbn [andb].
  - apply summarize_one in Esum as [_ Hone]. destruct (Hone r (or_intror Hr) Hi ltac:(done)) as [-> <-]. cbn [andb].
    destruct summarize; [|eexists; split; [done|by apply list_results_failed]].
    rewrite Hs, (proj2 (Z.eqb_neq _ _) He). eexists. split; [done|]. by left.
  - eexists. split; [done|]. by apply list_results_failed.
Qed.
