(* ===== verification/TriggerRun.v ===== *)
(** * A run of the trigger command, seen from the kernel

    What [trigger_one_process] does to the threads of the process: when it
    reports success, and whatever it reports. The states named in the theorems
    are those the run goes through. *)

From stdpp Require Import gmap.
From S2P Require Import Prelude Errors Memory Metadata InsnQueue Ptrace InsnQueueTool PatchCore Extract Description Critical Tracees Trigger.

Open Scope ulp_scope.

Section run.
Context {K : Type} `{TraceeLaws K}.
Variable fuel : nat.
Variable timeout : Z.
Variable calloc_ok : nat -> Z -> bool.
Variable c0 : Z.
Variable calloc_thread : bool.
Variable parse_so_elf : bytes -> option ulp_so_info.
Variable prefix : option bytes.
Variable disable_seccomp_p : bool.
Variable t : target.
(** An [errno] is positive. *)
Hypothesis errno_tasks : forall i, 0 <= fst (tasks t i).

Abbreviation load_livepatch' := (load_livepatch calloc_ok c0 parse_so_elf prefix t).
Abbreviation attempt' := (attempt fuel timeout calloc_thread disable_seccomp_p t).
Abbreviation retry_loop' := (fun retry i => retry_loop fuel timeout calloc_thread disable_seccomp_p retry i t).
Abbreviation trigger_body' := (trigger_body fuel timeout calloc_ok c0 calloc_thread parse_so_elf prefix disable_seccomp_p t).
Abbreviation trigger' := (trigger_one_process fuel timeout calloc_ok c0 calloc_thread parse_so_elf prefix disable_seccomp_p t).

(** ** The steps of a run *)

(** What precedes the first attempt: libpulp is old enough or not, and the patch
    is loaded. *)
Definition preparation (container : option container_file) (revert : bool) : st (cstate K) Z (option (bytes * ulp_metadata)) :=
  let! p := gets proc in
  let! r := lift (insnq_check_compatibility fuel (pid p) (dynobj_libpulp p)) in
  let (compatible, d) := r in
  update_proc (set_dynobj d);;;
  if negb compatible then throw EOLDULP else load_livepatch' container revert.

Lemma trigger_body_preparation retries container lib revert s :
  trigger_body' retries container lib revert s =
  (let! livepatch := preparation container revert in
   let! result := retry_loop' retries 0%nat livepatch lib (-1) in
   if negb (result =? 0) then throw result else ret 0) s.
Proof.
  unfold trigger_body, preparation. unfold bind, gets. cbn. destruct (lift _ s) as [[[compatible d]|e| |] s1]; try done.
  cbn. by destruct (negb compatible).
Qed.



Lemma main_log_or m (b : bool) : disturbs_main (if b then log m else ret tt).
Proof. destruct b; [apply main_log|apply main_ret]. Qed.

Lemma main_revert_step livepatch lib result : disturbs_main (revert_step fuel timeout livepatch lib result).
Proof.
  unfold revert_step. destruct lib as [lib|]; [|apply main_ret]. apply main_bind; [apply main_revert|intros r].
  cbv zeta. apply main_bind; [apply main_log_or|intros _]. case_goal; apply main_ret.
Qed.

Lemma main_apply_step livepatch result : disturbs_main (apply_step fuel timeout disable_seccomp_p livepatch result).
Proof.
  unfold apply_step. destruct livepatch as [[bs u]|]; [|apply main_ret]. apply main_bind; [apply main_apply|intros r].
  case_goal; [|apply main_ret]. apply main_bind; [apply main_log|intros _; apply main_ret].
Qed.




(** ** What every run leaves *)

(** An attempt, however it ends, lets go what it caught. *)
Lemma attempt_settled i livepatch lib result s r s' : idle s ->
  attempt' i livepatch lib result s = (r, s') -> result_of r = true -> settled (tl s) (tl s').
Proof.
  intros Hi Hs Hr. destruct r as [[result' stop]|e| |]; try done.
  - destruct (attempt_ok _ _ _ _ _ errno_tasks _ _ _ _ _ _ _ _ Hi Hs)
      as (s1 & r1 & stop1 & skip & s2 & stop2 & s3 & e & s4 & Eh & Er & Ea & E4 & _ & _ & G & Hk).
    destruct (main_revert_step livepatch lib result s1) as (C2 & R2 & P2). rewrite Er in C2, R2, P2. cbn [snd] in *.
    assert (Hm : disturbs_main (if skip then ret (r1, false) else apply_step fuel timeout disable_seccomp_p livepatch r1))
      by (destruct skip; [apply main_ret|apply main_apply_step]).
    destruct (Hm s2) as (C3 & R3 & P3). rewrite Ea in C3, R3, P3. cbn [snd] in *.
    assert (C3' : calm (main_tid s1) (tl s2) (tl s3)) by (unfold main_tid in *; by rewrite P2 in C3).
    eapply settled_trans; [eapply (section_settled fuel _ _ _ s s1 s3 e s4); try done|].
    + eapply calm_trans; [exact C2|exact C3'].
    + by rewrite R3, R2.
    + by rewrite P3, P2.
    + destruct (result' =? 0); [by apply settled_same|]. apply settled_calm.
      * split_and!; [done|intros x _; rewrite Hk; apply usleep_phase|]. intros _. split; [done|]. rewrite Hk. apply usleep_phase.
      * rewrite Hk. apply usleep_threads.
  - unfold attempt in Hs. destruct (tasks t i) as [opendir listing] eqn:Et.
    apply bind_err_inv in Hs as [Hs|(e0 & s1 & E1 & Hs)]; [by apply returns_no_err in Hs; [|apply returns_hijack]|].
    assert (Hthrow : forall m A, e0 <> 0 -> (log m;;; throw e0 : st (cstate K) Z A) s1 = (Err e, s') -> settled (tl s) (tl s')).
    { intros m A Hne E. eapply settled_trans; [by eapply hijack_settled|]. injection E as _ <-. by apply settled_same; [exists [m]|]. }
    destruct (Z.eqb_spec e0 ETHRDDETTACH) as [->|Hn1]; [by eapply Hthrow|].
    destruct (Z.ltb_spec 0 e0) as [Hn|Hn]; [eapply Hthrow; [lia|exact Hs]|].
    exfalso. eapply returns_no_err, Hs. apply returns_body.
Qed.

Lemma retry_loop_settled livepatch lib n : forall i result s r s', idle s ->
  retry_loop' n i livepatch lib result s = (r, s') -> result_of r = true -> settled (tl s) (tl s').
Proof.
  induction n as [|n IH]; intros i result s r s' Hi Hs Hr; cbn [retry_loop] in Hs; [injection Hs as <- <-; apply settled_refl|].
  unfold bind in Hs. destruct (attempt' i livepatch lib result s) as [a s1] eqn:Ea.
  destruct a as [[result' stop]|e| |]; try (by injection Hs as <- <-).
  - destruct (attempt_idle _ _ _ _ _ errno_tasks _ _ _ _ _ _ _ Hi Ea eq_refl) as [Hi1 _].
    pose proof (attempt_settled _ _ _ _ _ _ _ Hi Ea eq_refl) as S1.
    destruct stop; [by injection Hs as <- <-|]. eapply settled_trans; [exact S1|by eapply IH].
  - injection Hs as <- <-. by eapply attempt_settled.
Qed.

(** The preparation does not touch the threads. *)
Lemma main_throw {A} e : disturbs_main (throw e : st (cstate K) Z A).
Proof. intros s. split_and!; [apply calm_refl|done..]. Qed.

Lemma main_load container revert : disturbs_main (load_livepatch' container revert).
Proof.
  assert (Hnf : forall A, disturbs_main (nofuel : st (cstate K) Z A)) by (intros A s; split_and!; [apply calm_refl|done..]).
  unfold load_livepatch.
  repeat first [apply main_ret | apply main_undef | apply main_throw | apply main_log | apply Hnf
               | apply main_bind; [|intros] | progress cbv zeta | case_goal].
Qed.

Lemma keeps_compatible p d : keeps (insnq_check_compatibility fuel p d).
Proof.
  intros R. unfold insnq_check_compatibility, insnq_get_version.
  repeat first [apply stable_ret | apply stable_log | apply stable_bind; [|intros] | case_goal]; apply keeps_read.
Qed.

Lemma preparation_settled container revert s r s' : idle s -> preparation container revert s = (r, s') ->
  settled (tl s) (tl s') /\ idle s' /\ pid (proc s') = pid (proc s).
Proof.
  intros Hi E. pose proof Hi as (_ & Hm & _). unfold preparation in E. unfold bind at 1, gets at 1 in E. cbv beta in E.
  unfold bind at 1 in E. pose proof (main_lift (insnq_check_compatibility fuel (pid (proc s)) (dynobj_libpulp (proc s)))
    (fun o => within_compatible fuel _ (calm_access o) _ _) (keeps_compatible _ _) s) as (C1 & R1 & P1).
  unfold main_tid in C1. rewrite Hm in C1.
  destruct (lift (insnq_check_compatibility fuel _ _) s) as [[[compatible d]|e| |] s1]; cbn [snd] in C1, R1, P1;
    try (injection E as <- <-; unfold idle; rewrite P1; split; [by apply settled_calm|done]).
  unfold bind at 1, update_proc at 1, modify at 1 in E. cbv beta in E.
  set (s2 := {| proc := set_dynobj d (proc s1); tl := tl s1 |}) in *.
  assert (S2 : settled (tl s) (tl s2)) by (by apply settled_calm). assert (Hi2 : idle s2) by (unfold idle, s2; cbn; by rewrite P1).
  destruct compatible; cbn [negb] in E; [|injection E as <- <-; cbn; split_and!; [done|done|by rewrite P1]].
  destruct (main_load container revert s2) as (C3 & R3 & P3). rewrite E in C3, R3, P3. cbn [snd] in *.
  unfold main_tid in C3. rewrite (proj1 (proj2 Hi2)) in C3. unfold idle. rewrite P3. split_and!; try apply Hi2.
  - eapply settled_trans; [exact S2|by apply settled_calm].
  - unfold s2. cbn. by rewrite P1.
Qed.

(** C13. Whatever [trigger_one_process] reports (success, libpulp busy on every
    attempt, a failure to stop the threads, to revert, to apply or to restore),
    the kernel holds no thread of the process attached that was not before, and
    every thread that was caught on the way was let go, once for each time it was
    caught and with the registers it had then; only when a request to let a
    thread go, or to wait for one to stop, fails can it be otherwise, and then
    the tool has logged that. The tool is out of its critical section, with no
    thread recorded. *)
Theorem trigger_leaves_nothing_stopped retries container lib revert s r s' :
  idle s ->
  trigger' retries container lib revert s = (Ok r, s') ->
  settled (tl s) (tl s') /\ idle s' /\ pid (proc s') = pid (proc s).
Proof.
  intros Hi Hs. apply trigger_inv in Hs as (a & Ha & Hr & _). rewrite trigger_body_preparation in Ha.
  unfold bind at 1 in Ha. destruct (preparation container revert s) as [[livepatch|e| |] s1] eqn:E1.
  2: injection Ha as <- <-; by apply (preparation_settled _ _ _ _ _ Hi E1).
  2,3: by injection Ha as <- _.
  destruct (preparation_settled _ _ _ _ _ Hi E1) as (S1 & Hi1 & Hp1). unfold bind in Ha.
  destruct (retry_loop _ _ _ _ retries 0 t livepatch lib (-1) s1) as [r2 s2] eqn:E2.
  assert (Hr2 : result_of r2 = true) by (destruct r2; try done; by injection Ha as <- _).
  assert (s' = s2) as -> by (destruct r2 as [x|e| |]; try done; [destruct (negb _)|]; by injection Ha as _ <-).
  destruct (retry_loop_idle _ _ _ _ _ errno_tasks _ _ _ _ _ _ _ _ Hi1 E2 Hr2) as [Hi2 Hp2].
  split_and!; try done; [|congruence]. eapply settled_trans; [exact S1|by eapply retry_loop_settled].
Qed.

End run.
