(* ===== verification/Post.v ===== *)
(** * Multi-byte nops (tools/post.c, tools/arch/x86_64/post-arch.c)

    [ulp post] turns the two nops at the start of every patchable function of an
    x86_64 library into one nop of two bytes. The state is the ELF object; the
    data of its sections is changed in place and written back when it is flagged
    as dirty. *)

From stdpp Require Import gmap.
From S2P Require Import Prelude Errors Memory Metadata PatchId ElfFile InsnQueue Arch ArchX86.

Open Scope ulp_scope.

Section post.
Context `{Libelf}.

Abbreviation elf_m A := (st elf Z A).

(** The bound on the number of sections. *)
Variable fuel : nat.

Definition read_data {A} (r : res Z A) : elf_m A := fun e => (r, e).

(** The loop over the symbols, from the one at [i]: [st_shndx] of the first symbol
    of value [addr]. *)
Fixpoint find_symbol_at (data : bytes) (sh_size addr : Z) (n : nat) (i : Z) : res Z (option Z) :=
  match n with
  | O => NoFuel
  | S n =>
    if i <? sh_size then
      try value := read_buf data (i + 8) 8 in
      if le_val value =? addr then
        try shndx := read_buf data (i + 6) 2 in
        Ok (Some (le_val shndx))
      else find_symbol_at data sh_size addr n (i + 24)
    else Ok None
  end.

(** Merge two nops into one of two bytes. *)
Definition merge_two_nops (scn : scn) (addr : Z) : elf_m unit :=
  let! data := need (fun e => elf_getdata e scn) in
  let! shdr := need (fun e => elf_getshdr e scn) in
  let offset := u64 (addr - sh_addr shdr) in
  let! insn := read_data (read_buf data offset 4) in
  let func_addr := if byte_eqb insn insn_endbr64 then offset + 4 else offset in
  let! nops := read_data (read_buf data func_addr 2) in
  match nops with
  | [b0; b1] =>
    if (b1 =? 0x90) && ((b0 =? 0x90) || (b0 =? 0x66)) then
      modify (fun e => d_store e scn func_addr 0x66);;;
      modify (fun e => elf_flag_dirty e scn)
    else undef
  | _ => undef
  end.

Definition merge_nops_at_addr (addr amount : Z) : elf_m unit :=
  if amount <? 2 then ret tt
  else if 2 <? amount then ret tt
  else
    let! scn := find_section_by_name fuel (str ".symtab") in
    let! scn := match scn with None => find_section_by_name fuel (str ".dynsym") | Some _ => ret scn end in
    match scn with
    | None => ret tt
    | Some scn =>
      let! data := need (fun e => elf_getdata e scn) in
      let! shdr := need (fun e => elf_getshdr e scn) in
      let! sym := read_data (find_symbol_at data (sh_size shdr) addr (S (Z.to_nat (sh_size shdr / 24 + 1))) 0) in
      match sym with
      | None => ret tt
      | Some st_shndx =>
        let! scn := need (fun e => elf_getscn e st_shndx) in
        merge_two_nops scn addr
      end
    end.

(** The entries from the one at [i]. *)
Fixpoint fixup_entries (scn : scn) (sh_size : Z) (n : nat) (i : Z) : elf_m unit :=
  match n with
  | O => nofuel
  | S n =>
    if i <? sh_size then
      let! data := need (fun e => elf_getdata e scn) in
      let! addr := read_data (read_buf data i 8) in
      let addr := u64 (le_val addr + PRE_NOPS_LEN) in
      merge_nops_at_addr addr (ULP_NOPS_LEN - PRE_NOPS_LEN);;;
      fixup_entries scn sh_size n (i + 8)
    else ret tt
  end.

Definition nops_fixup : elf_m unit :=
  let! scn := find_section_by_name fuel patchable_entries in
  match scn with
  | None => ret tt
  | Some scn =>
    let! data := need (fun e => elf_getdata e scn) in
    let! shdr := need (fun e => elf_getshdr e scn) in
    fixup_entries scn (sh_size shdr) (S (Z.to_nat (sh_size shdr / 8 + 1))) 0
  end.

(** [elf_begin] gives the initial state if [open] succeeds; an error is the status
    the program exits with. *)
Definition run_post (opened : bool) : elf_m Z :=
  if negb opened then throw 1
  else
    let! scn := find_section_by_name fuel patchable_entries in
    match scn with
    | None => throw 1
    | Some _ =>
      nops_fixup;;;
      let! written := gets elf_update in
      match written with
      | None => throw 1
      | Some _ => ret 0
      end
    end.
End post.

(** ** What libelf promises about changes *)

(** [on_disk e s] is what [elf_update] writes for the section [s]: changes of
    data that was not flagged are lost. *)
Class LibelfStore `{Libelf} := {
  on_disk : elf -> scn -> option bytes;
  store_wf : forall e l s off b, wf_elf e l ->
    (forall ndx, elf_getshdrstrndx e = Some ndx -> elf_getscn e ndx <> Some s) -> wf_elf (d_store e s off b) l;
  store_strndx : forall e s off b, elf_getshdrstrndx (d_store e s off b) = elf_getshdrstrndx e;
  store_same : forall e s off b d, elf_getdata e s = Some d -> 0 <= off < zlen d ->
    elf_getdata (d_store e s off b) s = Some (<[Z.to_nat off := b]> d);
  store_other : forall e s off b s', s <> s' -> elf_getdata (d_store e s off b) s' = elf_getdata e s';
  store_disk : forall e s off b s', on_disk (d_store e s off b) s' = on_disk e s';
  flag_wf : forall e l s, wf_elf e l -> wf_elf (elf_flag_dirty e s) l;
  flag_strndx : forall e s, elf_getshdrstrndx (elf_flag_dirty e s) = elf_getshdrstrndx e;
  flag_data : forall e s s', elf_getdata (elf_flag_dirty e s) s' = elf_getdata e s';
  flag_same : forall e s, on_disk (elf_flag_dirty e s) s = elf_getdata e s;
  flag_other : forall e s s', s <> s' -> on_disk (elf_flag_dirty e s) s' = on_disk e s';
  update_law : forall e l, wf_elf e l -> is_Some (elf_update e) }.

(** ** The tables *)

(** A symbol table: the values and the sections of its symbols. *)
Definition holds_table (data : bytes) (syms : list (Z * Z)) : Prop :=
  zlen data = 24 * zlen syms /\
  forall i v x, syms !! i = Some (v, x) ->
    le_val (slice (24 * i + 8) 8 data) = v /\ le_val (slice (24 * i + 6) 2 data) = x.

(** The table of entries: the functions behind their padding. *)
Definition holds_entries (data : bytes) (funs : list Z) : Prop :=
  zlen data = 8 * zlen funs /\
  forall i f, funs !! i = Some f -> u64 (le_val (slice (8 * i) 8 data) + PRE_NOPS_LEN) = f.

Definition symbol_section (syms : list (Z * Z)) (f : Z) : option Z :=
  snd <$> find (fun s => s.1 =? f) syms.

Lemma read_buf_ok buf off n : 0 <= off -> 0 <= n -> off + n <= zlen buf ->
  read_buf buf off n = Ok (slice (Z.to_nat off) (Z.to_nat n) buf).
Proof.
  intros H0 Hn Hl. unfold read_buf.
  by rewrite (proj2 (Z.ltb_ge off 0)), (proj2 (Z.ltb_ge n 0)), (proj2 (Z.ltb_ge (zlen buf) _)) by lia.
Qed.

Lemma find_symbol_spec data syms f k i n : holds_table data syms -> drop i syms = k -> (length k < n)%nat ->
  find_symbol_at data (zlen data) f n (24 * Z.of_nat i) = Ok (symbol_section k f).
Proof.
  intros [Hl Ht] E. revert i n E. induction k as [|[v x] k IH]; intros i n E Hn; (destruct n as [|n]; [simpl in Hn; lia|]); cbn [find_symbol_at].
  - rewrite (proj2 (Z.ltb_ge _ _)); [done|]. pose proof (length_drop syms i). rewrite E in *. unfold zlen in *. simpl in *. lia.
  - assert (Hi : syms !! i = Some (v, x)) by (by rewrite <- (Nat.add_0_r i), <- lookup_drop, E).
    pose proof (lookup_lt_Some _ _ _ Hi) as Hlt. destruct (Ht _ _ _ Hi) as [Hv Hx].
    rewrite (proj2 (Z.ltb_lt _ _)) by (unfold zlen in *; lia).
    rewrite !read_buf_ok by (unfold zlen in *; lia). cbn [rbind].
    replace (Z.to_nat (24 * Z.of_nat i + 8)) with (24 * i + 8)%nat by lia.
    replace (Z.to_nat (24 * Z.of_nat i + 6)) with (24 * i + 6)%nat by lia.
    change (Z.to_nat 8) with 8%nat. change (Z.to_nat 2) with 2%nat.
    rewrite Hv, Hx. unfold symbol_section. cbn [find fst]. destruct (v =? f); [done|].
    replace (24 * Z.of_nat i + 24) with (24 * Z.of_nat (S i)) by lia.
    apply IH; [by rewrite (drop_S _ _ _ Hi) in E; injection E|simpl in Hn; lia].
Qed.

(** ** The nops *)

Definition slot_of (data : bytes) (off : Z) : Z :=
  if byte_eqb (slice (Z.to_nat off) 4 data) insn_endbr64 then off + 4 else off.

(** A function at [off]: two nops of one byte, or one that was merged. *)
Definition has_nops (data : bytes) (off : Z) : Prop :=
  0 <= off /\ off + 6 <= zlen data /\
  (slice (Z.to_nat (slot_of data off)) 2 data = [0x90; 0x90] \/ slice (Z.to_nat (slot_of data off)) 2 data = [0x66; 0x90]).

Lemma slot_range data off : off <= slot_of data off <= off + 4.
Proof. unfold slot_of. destruct (byte_eqb _ _); lia. Qed.

Lemma slice_2 (data : bytes) i a b : slice i 2 data = [a; b] <-> data !! i = Some a /\ data !! S i = Some b.
Proof.
  unfold slice. split.
  - intros E. split.
    + by rewrite <- (Nat.add_0_r i), <- lookup_drop, <- (lookup_take_lt _ 2), E by lia.
    + by rewrite <- (Nat.add_1_r i), <- lookup_drop, <- (lookup_take_lt _ 2), E by lia.
  - intros [Ha Hb]. by rewrite (drop_S _ _ _ Ha), (drop_S _ _ _ Hb).
Qed.

Section spec.
Context `{LibelfStore} {scn_dec : EqDecision scn}.

(** The data of the section [s] with the first byte of each slot replaced. *)
Definition set_slots (s : scn) (P : list (scn * nat)) (d : bytes) : bytes :=
  imap (fun i b => if bool_decide ((s, i) ∈ P) then 0x66 else b) d.

Lemma set_slots_lookup s P d i :
  set_slots s P d !! i = (fun b => if bool_decide ((s, i) ∈ P) then 0x66 else b) <$> d !! i.
Proof. apply list_lookup_imap. Qed.

Lemma set_slots_length s P d : length (set_slots s P d) = length d.
Proof. apply length_imap. Qed.

Lemma set_slots_nil s d : set_slots s [] d = d.
Proof. apply list_eq. intros i. rewrite set_slots_lookup. by destruct (d !! i). Qed.

Lemma set_slots_same s P d i : (i < length d)%nat ->
  <[i := 0x66]> (set_slots s P d) = set_slots s (P ++ [(s, i)]) d.
Proof.
  intros Hi. apply list_eq. intros j. rewrite set_slots_lookup. destruct (decide (i = j)) as [->|Hne].
  - rewrite list_lookup_insert_eq by (rewrite set_slots_length; lia).
    destruct (lookup_lt_is_Some_2 d j Hi) as [b ->]. cbn. rewrite bool_decide_eq_true_2; [done|].
    apply elem_of_app. right. by apply list_elem_of_singleton.
  - rewrite list_lookup_insert_ne, set_slots_lookup by done. destruct (d !! j); [|done]. cbn. f_equal.
    assert (E : (s, j) ∈ P ++ [(s, i)] <-> (s, j) ∈ P).
    { rewrite elem_of_app, list_elem_of_singleton. split; [intros [?|E]; [done|congruence]|by left]. }
    by rewrite (bool_decide_ext _ _ E).
Qed.

Lemma set_slots_other s s' i P d : s <> s' -> set_slots s (P ++ [(s', i)]) d = set_slots s P d.
Proof.
  intros Hne. apply list_eq. intros j. rewrite !set_slots_lookup. destruct (d !! j); [|done]. cbn. f_equal.
  assert (E : (s, j) ∈ P ++ [(s', i)] <-> (s, j) ∈ P).
  { rewrite elem_of_app, list_elem_of_singleton. split; [intros [?|E]; [done|congruence]|by left]. }
  by rewrite (bool_decide_ext _ _ E).
Qed.

(** The slots lie on nops, so that an [endbr64] neither appears nor goes. *)
Definition on_nops (s : scn) (P : list (scn * nat)) (d : bytes) : Prop :=
  forall i, (s, i) ∈ P -> d !! i = Some 0x90 \/ d !! i = Some 0x66.

Lemma slice_eq (d k : bytes) n len : length k = len ->
  slice n len d = k <-> forall i b, k !! i = Some b -> d !! (n + i)%nat = Some b.
Proof.
  intros Hk. unfold slice. split.
  - intros <- i b Hi. rewrite lookup_take_Some, lookup_drop in Hi. tauto.
  - intros Hd. apply list_eq_same_length with len; [done| |].
    + destruct len; [done|]. destruct (lookup_lt_is_Some_2 k len ltac:(lia)) as [b Hb].
      apply Hd, lookup_lt_Some in Hb. rewrite length_take, length_drop. lia.
    + intros i x y Hi Hx Hy. apply Hd in Hy. rewrite lookup_take_lt, lookup_drop in Hx by done. congruence.
Qed.

Lemma set_slots_endbr64 s P d n : on_nops s P d ->
  slice n 4 (set_slots s P d) = insn_endbr64 <-> slice n 4 d = insn_endbr64.
Proof.
  intros HP. rewrite !slice_eq by done. apply forall_proper. intros i. apply forall_proper. intros b.
  assert (Hb : insn_endbr64 !! i = Some b -> b <> 0x66 /\ b <> 0x90).
  { destruct i as [|[|[|[|i]]]]; intros [= <-]; done. }
  split; intros E Hi; specialize (E Hi); destruct (Hb Hi) as [H66 H90].
  - rewrite set_slots_lookup in E. destruct (d !! (n + i)%nat); [|done]. cbn in E.
    destruct (bool_decide _); [|done]. congruence.
  - rewrite set_slots_lookup, E. cbn. rewrite bool_decide_eq_false_2; [done|].
    intros Hin. destruct (HP _ Hin) as [E'|E']; congruence.
Qed.

Lemma set_slots_slot s P d off : on_nops s P d -> slot_of (set_slots s P d) off = slot_of d off.
Proof.
  intros HP. unfold slot_of, byte_eqb. by rewrite (bool_decide_ext _ _ (set_slots_endbr64 s P d _ HP)).
Qed.

(** No slot starts at the second byte of another. *)
Lemma set_slots_nops s P d off : on_nops s P d -> has_nops d off ->
  (s, S (Z.to_nat (slot_of d off))) ∉ P -> has_nops (set_slots s P d) off.
Proof.
  intros HP (Hoff & Hl & Hn) Hout. split; [done|]. unfold zlen in *. rewrite set_slots_length. split; [done|].
  rewrite set_slots_slot by done. rewrite !slice_2, !set_slots_lookup in *.
  rewrite (bool_decide_eq_false_2 ((s, S _) ∈ P)) by done.
  destruct Hn as [[Ha Hb]|[Ha Hb]]; rewrite Ha, Hb; cbn; destruct (bool_decide _); auto.
Qed.

(** ** One function *)

Variables (fuel : nat) (l : list sect).

(** Whether [s] holds the names of the sections. *)
Definition holds_names (e : elf) (s : scn) : Prop :=
  exists ndx, elf_getshdrstrndx e = Some ndx /\ elf_getscn e ndx = Some s.

Lemma merge_two_nops_spec e x d f : wf_elf e l -> x ∈ l -> ~ holds_names e (handle x) ->
  let off := u64 (f - sh_addr (hdr x)) in
  elf_getdata e (handle x) = Some d -> has_nops d off ->
  exists e', merge_two_nops (handle x) f e = (Ok tt, e') /\ wf_elf e' l /\
    elf_getshdrstrndx e' = elf_getshdrstrndx e /\
    elf_getdata e' (handle x) = Some (<[Z.to_nat (slot_of d off) := 0x66]> d) /\
    (forall s, s <> handle x -> elf_getdata e' s = elf_getdata e s) /\
    ((forall s, on_disk e s = elf_getdata e s) -> forall s, on_disk e' s = elf_getdata e' s).
Proof.
  intros Hwf Hx Hstr off Hd (Hoff & Hl & Hn). pose proof (slot_range d off) as Hs.
  set (e1 := d_store e (handle x) (slot_of d off) 0x66). exists (elf_flag_dirty e1 (handle x)).
  assert (Hwf1 : wf_elf e1 l).
  { apply store_wf; [done|]. intros ndx Hndx Hscn. apply Hstr. by exists ndx. }
  split_and!.
  - unfold merge_two_nops. step_bind (need_ok (fun e => elf_getdata e (handle x)) _ _ Hd).
    step_bind (need_ok (fun e => elf_getshdr e (handle x)) _ _ (wf_hdr _ _ Hwf x Hx)).
    fold off. unfold read_data. rewrite (read_buf_ok d off 4) by lia.
    step_bind (eq_refl ((Ok (slice (Z.to_nat off) (Z.to_nat 4) d), e) : res Z bytes * elf)).
    change (Z.to_nat 4) with 4%nat. fold (slot_of d off).
    rewrite (read_buf_ok d (slot_of d off) 2) by lia. change (Z.to_nat 2) with 2%nat.
    by destruct Hn as [-> | ->].
  - by apply flag_wf.
  - unfold e1. by rewrite flag_strndx, store_strndx.
  - unfold e1. rewrite flag_data. apply store_same; [done|lia].
  - intros s Hne. unfold e1. by rewrite flag_data, store_other.
  - intros Hc s. rewrite flag_data. destruct (decide (s = handle x)) as [->|Hne].
    + apply flag_same.
    + unfold e1. rewrite flag_other, store_disk, Hc by done. by rewrite store_other.
Qed.

(** ** The tables of the file *)

Variables (xe xs : sect) (de ds : bytes) (funs : list Z) (syms : list (Z * Z)).

Definition symtab_section : option sect :=
  match find (named (str ".symtab")) (tail l) with
  | Some x => Some x
  | None => find (named (str ".dynsym")) (tail l)
  end.

(** The entries [funs] are in the section [xe], and the symbols [syms] in [xs]. *)
Record tables (e : elf) : Prop := {
  tb_wf : wf_elf e l;
  tb_bound : (length l <= fuel)%nat;
  tb_entries : find (named patchable_entries) (tail l) = Some xe /\
    elf_getdata e (handle xe) = Some de /\ sh_size (hdr xe) = zlen de /\ holds_entries de funs;
  tb_symbols : symtab_section = Some xs /\
    elf_getdata e (handle xs) = Some ds /\ sh_size (hdr xs) = zlen ds /\ holds_table ds syms }.

(** A section whose changes do not change the tables. *)
Definition code_section (e : elf) (x : sect) : Prop :=
  handle x <> handle xe /\ handle x <> handle xs /\ ~ holds_names e (handle x).

(** The section and the offset of a function. *)
Definition place (f : Z) : option (sect * Z) :=
  match symbol_section syms f with
  | Some i => x ← l !! Z.to_nat i; Some (x, u64 (f - sh_addr (hdr x)))
  | None => None
  end.

Definition slot (e : elf) (f : Z) : option (scn * nat) :=
  match place f with
  | Some (x, off) => d ← elf_getdata e (handle x); Some (handle x, Z.to_nat (slot_of d off))
  | None => None
  end.

(** A function without a symbol, or with two nops in a section of code. *)
Definition function_ok (e : elf) (f : Z) : Prop :=
  forall i, symbol_section syms f = Some i ->
  0 <= i /\ exists x d, l !! Z.to_nat i = Some x /\ code_section e x /\
  elf_getdata e (handle x) = Some d /\ has_nops d (u64 (f - sh_addr (hdr x))).

(** The slots [P] of [e0] have been replaced. *)
Record replaced (e0 : elf) (P : list (scn * nat)) (e : elf) : Prop := {
  rp_wf : wf_elf e l;
  rp_strndx : elf_getshdrstrndx e = elf_getshdrstrndx e0;
  rp_data : forall s, elf_getdata e s = set_slots s P <$> elf_getdata e0 s;
  rp_disk : (forall s, on_disk e0 s = elf_getdata e0 s) -> forall s, on_disk e s = elf_getdata e s }.

Lemma replaced_nil e : wf_elf e l -> replaced e [] e.
Proof.
  intros Hwf. split; [done|done| |done]. intros s. destruct (elf_getdata e s); [|done]. cbn. by rewrite set_slots_nil.
Qed.

Lemma holds_names_replaced e0 P e s : wf_elf e0 l -> replaced e0 P e -> holds_names e s -> holds_names e0 s.
Proof.
  intros Hwf0 [Hwf Hndx _ _] (ndx & E & Hs). rewrite Hndx in E. exists ndx. split; [done|].
  destruct (wf_names _ _ Hwf0) as (n & En & Hn & _). rewrite E in En. injection En as <-.
  by rewrite (wf_scn _ _ Hwf0), <- (wf_scn _ _ Hwf).
Qed.

(** ** Every function *)

Lemma symtab_found e : tables e ->
  (let! scn := find_section_by_name fuel (str ".symtab") in
   match scn with None => find_section_by_name fuel (str ".dynsym") | Some _ => ret scn end) e =
  (Ok (Some (handle xs)), e) /\ xs ∈ l.
Proof.
  intros [Hwf Hb (He & _) (Hs & _)]. split.
  - assert (Hne : l <> []) by (by destruct l).
    step_bind (find_section_by_name_spec e l Hwf (str ".symtab") fuel Hb Hne).
    unfold symtab_section in Hs. destruct (find (named (str ".symtab")) _) as [x|]; cbn [fmap option_fmap option_map].
    + by injection Hs as ->.
    + rewrite (find_section_by_name_spec e l Hwf (str ".dynsym") fuel Hb Hne), Hs. done.
  - unfold symtab_section in Hs. assert (Hi : In xs (tail l)).
    { destruct (find (named (str ".symtab")) _) eqn:E; [injection Hs as ->; apply find_some in E; tauto|].
      apply find_some in Hs. tauto. }
    apply list_elem_of_In. destruct l; [done|by right].
Qed.

(** The tables stay what they were while the slots are replaced. *)
Lemma replaced_tables e0 P e : tables e0 -> replaced e0 P e ->
  (forall s i, (s, i) ∈ P -> s <> handle xe /\ s <> handle xs) -> tables e.
Proof.
  intros [Hwf Hb (He & Hde & Hre) (Hs & Hds & Hrs)] [Hwf' _ Hd _] HP.
  assert (Hkeep : forall s d, (forall i, (s, i) ∉ P) -> elf_getdata e0 s = Some d -> elf_getdata e s = Some d).
  { intros s d Hout E. rewrite Hd, E. cbn. f_equal. apply list_eq. intros i. rewrite set_slots_lookup.
    destruct (d !! i); [|done]. cbn. by rewrite bool_decide_eq_false_2 by apply Hout. }
  split; [done|done| |].
  - split_and!; [done| |tauto|tauto]. apply Hkeep; [|done]. intros i Hi. by destruct (HP _ _ Hi).
  - split_and!; [done| |tauto|tauto]. apply Hkeep; [|done]. intros i Hi. by destruct (HP _ _ Hi).
Qed.

(** What the slots that were replaced have to satisfy. *)
Definition slots_ok (e0 : elf) (P : list (scn * nat)) : Prop :=
  forall s i, (s, i) ∈ P -> s <> handle xe /\ s <> handle xs /\
  forall d, elf_getdata e0 s = Some d -> d !! i = Some 0x90 \/ d !! i = Some 0x66.

(** The section of the function is that of the first symbol of its address. *)
Lemma merge_by_symbol e f : tables e ->
  merge_nops_at_addr fuel f 2 e =
    match symbol_section syms f with
    | None => (Ok tt, e)
    | Some i => (let! scn := need (fun e => elf_getscn e i) in merge_two_nops scn f) e
    end.
Proof.
  intros Ht. destruct (symtab_found e Ht) as [Hsym Hxs]. pose proof (tb_symbols _ Ht) as (_ & Hds & Hsz & Htab).
  unfold merge_nops_at_addr. cbn [Z.ltb Z.compare Pos.compare Pos.compare_cont].
  rewrite <- bind_assoc. step_bind Hsym. step_bind (need_ok (fun e => elf_getdata e (handle xs)) _ _ Hds).
  step_bind (need_ok (fun e => elf_getshdr e (handle xs)) _ _ (wf_hdr _ _ (tb_wf _ Ht) xs Hxs)).
  rewrite Hsz. unfold bind at 1, read_data. destruct Htab as [Hlen Htab].
  change 0 with (24 * Z.of_nat 0). rewrite (find_symbol_spec ds syms f syms 0); [|done|done|].
  - by destruct (symbol_section syms f).
  - rewrite Hlen, Z.mul_comm. replace (zlen syms * 24 / 24) with (zlen syms) by (by rewrite Z.div_mul). unfold zlen. lia.
Qed.

(** A function of the table that no symbol names is passed over, without a message. *)
Lemma unnamed_function_skipped e f : tables e -> symbol_section syms f = None -> merge_nops_at_addr fuel f 2 e = (Ok tt, e).
Proof. intros Ht Hf. by rewrite (merge_by_symbol e f Ht), Hf. Qed.

Lemma merge_function e0 P e f : tables e0 -> replaced e0 P e -> slots_ok e0 P -> function_ok e0 f ->
  (forall s i, slot e0 f = Some (s, i) -> (s, S i) ∉ P) ->
  exists e', merge_nops_at_addr fuel f 2 e = (Ok tt, e') /\ replaced e0 (P ++ option_list (slot e0 f)) e'.
Proof.
  intros Ht Hr HP Hf Hsep.
  assert (Ht' : tables e) by (eapply replaced_tables; [done..|]; intros s i Hi; by destruct (HP _ _ Hi) as (? & ? & _)).
  pose proof (merge_by_symbol e f Ht') as Hgo.
  rewrite Hgo. unfold slot, place in *. destruct (symbol_section syms f) as [i|] eqn:Ei.
  2: { exists e. split; [done|]. by rewrite app_nil_r. }
  destruct (Hf i Ei) as (Hi & x & d & Hx & (Hne1 & Hne2 & Hnn) & Hd & Hnops). rewrite Hx in *. cbn [mbind option_bind] in *.
  rewrite Hd in *. cbn [mbind option_bind option_list] in *. set (off := u64 (f - sh_addr (hdr x))) in *.
  assert (HPd : on_nops (handle x) P d) by (intros k Hk; by eapply HP).
  assert (Hscn : elf_getscn e i = Some (handle x)) by (by rewrite (wf_scn _ _ (rp_wf _ _ _ Hr)), Hx).
  step_bind (need_ok (fun e => elf_getscn e i) _ _ Hscn).
  assert (Hd' : elf_getdata e (handle x) = Some (set_slots (handle x) P d)) by (by rewrite (rp_data _ _ _ Hr), Hd).
  pose proof (set_slots_nops _ _ _ _ HPd Hnops (Hsep _ _ eq_refl)) as Hnops'.
  assert (Hin : x ∈ l) by (by eapply list_elem_of_lookup_2).
  destruct (merge_two_nops_spec e x _ f (rp_wf _ _ _ Hr) Hin
    ltac:(intros Hh; apply Hnn; by eapply holds_names_replaced; [apply Ht| |]) Hd' Hnops')
    as (e' & E & Hwf' & Hndx & Hsame & Hother & Hdisk).
  fold off in Hsame. rewrite set_slots_slot in Hsame by done.
  assert (Hlt : (Z.to_nat (slot_of d off) < length d)%nat).
  { destruct Hnops as (Hoff & Hl & _). pose proof (slot_range d off). unfold zlen in Hl. lia. }
  exists e'. split; [done|]. split; [done|by rewrite Hndx, (rp_strndx _ _ _ Hr)| |].
  - intros s. destruct (decide (s = handle x)) as [->|Hne].
    + rewrite Hsame, Hd. cbn. by rewrite set_slots_same.
    + rewrite (Hother _ Hne), (rp_data _ _ _ Hr). destruct (elf_getdata e0 s); [|done]. cbn. by rewrite set_slots_other.
  - intros Hc. apply Hdisk. by apply (rp_disk _ _ _ Hr).
Qed.

(** ** The loop *)

(** The functions have nops, and no two overlap. *)
Definition functions_ok (e : elf) : Prop :=
  (forall f, f ∈ funs -> function_ok e f) /\
  (forall f f' s i, f ∈ funs -> f' ∈ funs -> slot e f = Some (s, i) -> slot e f' <> Some (s, S i)).

Definition slots (e : elf) (k : list Z) : list (scn * nat) := concat (map (fun f => option_list (slot e f)) k).

Lemma elem_of_slots e k p : p ∈ slots e k <-> exists f, f ∈ k /\ slot e f = Some p.
Proof.
  induction k as [|f k IH]; cbn [slots map concat].
  - split; [by intros ?%not_elem_of_nil|]. intros (f & ?%not_elem_of_nil & _). done.
  - fold (slots e k). rewrite elem_of_app, IH. split.
    + intros [Hp|(g & Hg & Ep)]; [|exists g; split; [by right|done]].
      exists f. destruct (slot e f) as [q|]; cbn in Hp; [|by apply not_elem_of_nil in Hp].
      apply list_elem_of_singleton in Hp as ->. split; [by left|done].
    + intros (g & [->|Hg]%elem_of_cons & Ep); [left; rewrite Ep; by left|right; by exists g].
Qed.

Lemma slot_inv e f s i : function_ok e f -> slot e f = Some (s, i) ->
  s <> handle xe /\ s <> handle xs /\ ~ holds_names e s /\
  forall d, elf_getdata e s = Some d -> (d !! i = Some 0x90 \/ d !! i = Some 0x66) /\ d !! S i = Some 0x90.
Proof.
  intros Hf. unfold slot, place. destruct (symbol_section syms f) as [k|] eqn:Ek; [|done].
  destruct (Hf k Ek) as (Hk & x & d & Hx & (Hn1 & Hn2 & Hn3) & Hd & (_ & _ & Hn)). rewrite Hx. cbn [mbind option_bind].
  rewrite Hd. cbn [mbind option_bind]. intros [= <- <-]. split_and!; [done..|]. intros d' E.
  rewrite Hd in E. injection E as <-. rewrite !slice_2 in Hn. tauto.
Qed.

Lemma slots_slots_ok e k : functions_ok e -> (forall f, f ∈ k -> f ∈ funs) -> slots_ok e (slots e k).
Proof.
  intros [Hf _] Hk s i (f & Hin & E)%elem_of_slots.
  destruct (slot_inv e f s i (Hf f (Hk f Hin)) E) as (Hx1 & Hx2 & _ & Hd). split_and!; [done..|].
  intros d Ed. by apply (Hd d).
Qed.

Lemma fixup_spec e0 k i n e : tables e0 -> functions_ok e0 -> drop i funs = k -> (length k < n)%nat ->
  replaced e0 (slots e0 (take i funs)) e ->
  exists e', fixup_entries fuel (handle xe) (zlen de) n (8 * Z.of_nat i) e = (Ok tt, e') /\ replaced e0 (slots e0 funs) e'.
Proof.
  intros Ht Hf. pose proof (tb_entries _ Ht) as (_ & _ & _ & Hlen & Hent).
  revert i n e. induction k as [|f k IH]; intros i n e E Hn Hr; (destruct n as [|n]; [simpl in Hn; lia|]); cbn [fixup_entries].
  - pose proof (length_drop funs i) as Hl. rewrite E in Hl. rewrite (proj2 (Z.ltb_ge _ _)) by (unfold zlen in *; simpl in Hl; lia).
    exists e. split; [done|]. by rewrite take_ge in Hr by (simpl in Hl; lia).
  - assert (Hi : funs !! i = Some f) by (by rewrite <- (Nat.add_0_r i), <- lookup_drop, E).
    pose proof (lookup_lt_Some _ _ _ Hi) as Hlt. assert (Hin : f ∈ funs) by (by eapply list_elem_of_lookup_2).
    assert (Hsub : forall g, g ∈ take i funs -> g ∈ funs) by (intros g (j & Hj & _)%elem_of_take; by eapply list_elem_of_lookup_2).
    pose proof (slots_slots_ok e0 _ Hf Hsub) as HP.
    assert (Ht' : tables e) by (eapply replaced_tables; [done..|]; intros s j Hj; by destruct (HP _ _ Hj) as (? & ? & _)).
    pose proof (tb_entries _ Ht') as (_ & Hde & _).
    rewrite (proj2 (Z.ltb_lt _ _)) by (unfold zlen in *; lia).
    step_bind (need_ok (fun e => elf_getdata e (handle xe)) _ _ Hde). unfold bind at 1, read_data.
    rewrite read_buf_ok by (unfold zlen in *; lia).
    replace (Z.to_nat (8 * Z.of_nat i)) with (8 * i)%nat by lia. change (Z.to_nat 8) with 8%nat. rewrite (Hent _ _ Hi).
    change (ULP_NOPS_LEN - PRE_NOPS_LEN) with 2.
    destruct (merge_function e0 (slots e0 (take i funs)) e f Ht Hr HP (proj1 Hf f Hin)) as (e1 & E1 & Hr1).
    { intros s j Es (g & Hg & Eg)%elem_of_slots. exact (proj2 Hf f g s j Hin (Hsub g Hg) Es Eg). }
    step_bind E1. replace (8 * Z.of_nat i + 8) with (8 * Z.of_nat (S i)) by lia.
    apply IH; [by rewrite (drop_S _ _ _ Hi) in E; injection E|simpl in Hn; lia|].
    rewrite (take_S_r _ _ _ Hi). unfold slots in *. rewrite map_app, concat_app. cbn [map concat]. by rewrite app_nil_r.
Qed.

Lemma run_post_spec e0 : tables e0 -> functions_ok e0 ->
  exists e', run_post fuel true e0 = (Ok 0, e') /\ replaced e0 (slots e0 funs) e'.
Proof.
  intros Ht Hf. pose proof (tb_entries _ Ht) as (Hxe & Hde & Hsz & Hlen & _).
  assert (Hne : l <> []) by (by destruct l).
  assert (Hin : xe ∈ l).
  { apply find_some in Hxe as [Hxe _]. apply list_elem_of_In. destruct l; [done|by right]. }
  pose proof (find_section_by_name_spec e0 l (tb_wf _ Ht) patchable_entries fuel (tb_bound _ Ht) Hne) as Efind.
  rewrite Hxe in Efind. cbn [fmap option_fmap option_map] in Efind.
  destruct (fixup_spec e0 funs 0 (S (Z.to_nat (zlen de / 8 + 1))) e0 Ht Hf eq_refl) as (e1 & E1 & Hr).
  { rewrite Hlen, Z.mul_comm, Z.div_mul by done. unfold zlen. lia. }
  { apply replaced_nil, Ht. }
  assert (Enops : nops_fixup fuel e0 = (Ok tt, e1)).
  { unfold nops_fixup. step_bind Efind. step_bind (need_ok (fun e => elf_getdata e (handle xe)) _ _ Hde).
    step_bind (need_ok (fun e => elf_getshdr e (handle xe)) _ _ (wf_hdr _ _ (tb_wf _ Ht) xe Hin)). by rewrite Hsz. }
  exists e1. split; [|done]. unfold run_post. cbn [negb]. step_bind Efind. step_bind Enops.
  destruct (update_law e1 l (rp_wf _ _ _ Hr)) as [w Hw]. unfold bind, gets. by rewrite Hw.
Qed.

(** ** Running it again *)

Lemma slot_replaced e0 P e f : slots_ok e0 P -> replaced e0 P e -> slot e f = slot e0 f.
Proof.
  intros HP Hr. unfold slot. destruct (place f) as [[x off]|]; [|done]. rewrite (rp_data _ _ _ Hr).
  destruct (elf_getdata e0 (handle x)) as [d|] eqn:Ed; [|done]. cbn. rewrite set_slots_slot; [done|].
  intros k Hk. by eapply HP.
Qed.

Lemma functions_ok_replaced e0 e : tables e0 -> functions_ok e0 -> replaced e0 (slots e0 funs) e -> functions_ok e.
Proof.
  intros Ht Hf Hr. pose proof (slots_slots_ok e0 funs Hf (fun f Hin => Hin)) as HP. split.
  - intros f Hin i Ei. destruct (proj1 Hf f Hin i Ei) as (Hi & x & d & Hx & (Hn1 & Hn2 & Hn3) & Hd & Hnops).
    split; [done|]. exists x, (set_slots (handle x) (slots e0 funs) d). split_and!; [done| | |].
    + split_and!; [done..|]. intros Hh. apply Hn3. by eapply holds_names_replaced; [apply Ht| |].
    + by rewrite (rp_data _ _ _ Hr), Hd.
    + apply set_slots_nops; [by intros k Hk; eapply HP|done|]. intros (g & Hg & Eg)%elem_of_slots.
      apply (proj2 Hf f g (handle x) (Z.to_nat (slot_of d (u64 (f - sh_addr (hdr x))))) Hin Hg); [|done].
      unfold slot, place. rewrite Ei, Hx. cbn [mbind option_bind]. by rewrite Hd.
  - intros f f' s i. rewrite !(slot_replaced _ _ _ _ HP Hr). apply Hf.
Qed.

Lemma set_slots_again s P d : set_slots s P (set_slots s P d) = set_slots s P d.
Proof.
  apply list_eq. intros i. rewrite !set_slots_lookup. destruct (d !! i); [|done]. cbn. by destruct (bool_decide _).
Qed.

(** A function that a symbol names has a slot, and no other. *)
Lemma named_slot e f : function_ok e f -> is_Some (slot e f) <-> is_Some (symbol_section syms f).
Proof.
  intros Hf. unfold slot, place. destruct (symbol_section syms f) as [i|] eqn:Ei; [|by split; intros []].
  destruct (Hf i Ei) as (_ & x & d & Hx & _ & Hd & _). rewrite Hx. cbn [mbind option_bind]. rewrite Hd. by split; intros _; eexists.
Qed.

(** C20. [ulp post] on a library that has a symbol table: the two nops of a function
    of the table become one nop of two bytes, in the file as it is written back,
    when a symbol has the address of the function, whether the function starts with
    an [endbr64] or not; a function without a symbol is passed over without a
    message. No other byte of any section changes, and running it again changes
    nothing. *)
Theorem post_merges_nops e0
    (Htables : tables e0) (Hfuns : functions_ok e0) (Hopened : forall s, on_disk e0 s = elf_getdata e0 s) :
  exists e', run_post fuel true e0 = (Ok 0, e') /\
    (forall f, f ∈ funs ->
       match symbol_section syms f with
       | Some _ => exists s i d', slot e0 f = Some (s, i) /\ on_disk e' s = Some d' /\ slice i 2 d' = [0x66; 0x90]
       | None => slot e0 f = None
       end) /\
    (forall s d, elf_getdata e0 s = Some d -> exists d', on_disk e' s = Some d' /\ length d' = length d /\
       forall j, (forall f, f ∈ funs -> slot e0 f <> Some (s, j)) -> d' !! j = d !! j) /\
    exists e'', run_post fuel true e' = (Ok 0, e'') /\ forall s, on_disk e'' s = on_disk e' s.
Proof.
  destruct (run_post_spec e0 Htables Hfuns) as (e1 & E1 & Hr). pose proof (rp_disk _ _ _ Hr Hopened) as Hdisk.
  pose proof (slots_slots_ok e0 funs Hfuns (fun f Hin => Hin)) as HP.
  exists e1. split; [done|]. split_and!.
  - intros f Hin. pose proof (named_slot e0 f (proj1 Hfuns f Hin)) as Hnamed. destruct (symbol_section syms f) as [n|].
    2: { apply eq_None_not_Some. intros Hs. by destruct (proj1 Hnamed Hs). }
    destruct (proj2 Hnamed ltac:(by eexists)) as [[s i] Es]. exists s, i.
    destruct (slot_inv e0 f s i (proj1 Hfuns f Hin) Es) as (_ & _ & _ & Hd).
    assert (exists d, elf_getdata e0 s = Some d) as [d Ed].
    { unfold slot in Es. destruct (place f) as [[x off]|]; [|done].
      destruct (elf_getdata e0 (handle x)) as [d|] eqn:Ed; [|done]. cbn in Es. injection Es as <- _. by exists d. }
    exists (set_slots s (slots e0 funs) d). split; [done|]. split; [by rewrite Hdisk, (rp_data _ _ _ Hr), Ed|].
    destruct (Hd d Ed) as [Ha Hb]. apply slice_2. rewrite !set_slots_lookup, Hb.
    rewrite bool_decide_eq_true_2 by (apply elem_of_slots; by exists f).
    rewrite bool_decide_eq_false_2; [by destruct Ha as [-> | ->]|].
    intros (g & Hg & Eg)%elem_of_slots. by apply (proj2 Hfuns f g s i).
  - intros s d Ed. exists (set_slots s (slots e0 funs) d). rewrite Hdisk, (rp_data _ _ _ Hr), Ed.
    split; [done|]. split; [apply set_slots_length|]. intros j Hj. rewrite set_slots_lookup.
    destruct (d !! j); [|done]. cbn. rewrite bool_decide_eq_false_2; [done|].
    intros (f & Hin & Ef)%elem_of_slots. by apply (Hj f).
  - assert (Ht1 : tables e1) by (eapply replaced_tables; [done..|]; intros s i Hi; by destruct (HP _ _ Hi) as (? & ? & _)).
    destruct (run_post_spec e1 Ht1 (functions_ok_replaced _ _ Htables Hfuns Hr)) as (e2 & E2 & Hr2).
    exists e2. split; [done|]. intros s. rewrite (rp_disk _ _ _ Hr2 Hdisk), Hdisk, (rp_data _ _ _ Hr2), (rp_data _ _ _ Hr).
    assert (slots e1 funs = slots e0 funs) as ->.
    { unfold slots. f_equal. apply map_ext. intros f. by rewrite (slot_replaced _ _ _ _ HP Hr). }
    destruct (elf_getdata e0 s); [|done]. cbn. by rewrite set_slots_again.
Qed.
End spec.

(** In a process the function is patchable, and its calls go to its own body. *)
Lemma posted_function_patchable m base addr off d :
  mem_read (base + addr) (length d) m = Some d -> 14 <= off -> off + 6 <= zlen d ->
  slice (Z.to_nat (slot_of d off)) 2 d = [0x66; 0x90] ->
  14 < base + addr + off -> base + addr + off + 8 < 2 ^ 64 ->
  x86_livepatchable m (base + addr + off) /\ x86_target m (base + addr + off) = None.
Proof.
  intros Hm Ho Hl Hs Hlo Hhi. set (f := base + addr + off).
  assert (Hsub : forall a n, 0 <= a -> a + Z.of_nat n <= zlen d -> mem_read (base + addr + a) n m = Some (slice (Z.to_nat a) n d)).
  { intros a n Ha Hn. rewrite (mem_read_sub _ _ (base + addr + a) n m d Hm) by (unfold zlen in *; lia).
    f_equal. f_equal. lia. }
  pose proof (slot_range d off) as Hr.
  assert (Ej : jump_slot m f = base + addr + slot_of d off).
  { unfold jump_slot, slot_of, byte_eqb, f. rewrite (Hsub off 4%nat) by (unfold zlen in *; lia).
    assert (Some (slice (Z.to_nat off) 4 d) = Some insn_endbr64 <-> slice (Z.to_nat off) 4 d = insn_endbr64) as E
      by (split; [by intros [= ->]|by intros ->]).
    rewrite (bool_decide_ext _ _ E). destruct (bool_decide _); lia. }
  assert (H2 : mem_read (jump_slot m f) 2 m = Some [0x66; 0x90]).
  { rewrite Ej, Hsub by (unfold zlen in *; lia). by rewrite Hs. }
  split.
  - split; [unfold f; lia| |].
    + replace (f - 14) with (base + addr + (off - 14)) by (unfold f; lia). rewrite Hsub by (unfold zlen in *; lia). by eexists.
    + exists 0x66, 0x90. split; [done|]. auto.
  - apply (decode_slot_nop m f 0x66 H2). by left.
Qed.
