(* ===== verification/RemoteState.v ===== *)
(** * The state of libpulp in a process (tools/introspection.c, common/common.c)

    The tool reads the list of applied patches and the error state out of the
    memory of a process, and the version of its libpulp out of a string. *)

From stdpp Require Import gmap.
From S2P Require Import Prelude Errors Memory Interpose InsnQueue Ptrace InsnQueueTool.

Open Scope ulp_scope.

(** ** Versions *)

Definition ULP_VERSION_TRIPLET (a b c : Z) : Z := u64 (c + Z.shiftl b 16 + Z.shiftl a 32).

(** [strtok (s, ".")]: the token and the rest. *)
Fixpoint skip_dots (s : bytes) : bytes :=
  match s with
  | c :: s' => if c =? 46 then skip_dots s' else s
  | [] => []
  end.

Fixpoint until_dot (s : bytes) : bytes * bytes :=
  match s with
  | [] => ([], [])
  | c :: s => if c =? 46 then ([], s) else let (t, r) := until_dot s in (c :: t, r)
  end.

Definition strtok_dot (s : bytes) : option bytes * bytes :=
  match skip_dots s with
  | [] => (None, [])
  | s => let (t, r) := until_dot s in (Some t, r)
  end.

(** [atoi] of a string of digits; a value that is not an [int] has no meaning. *)
Definition dec_value (s : bytes) : Z := foldl (fun acc c => 10 * acc + (c - 48)) 0 s.

Definition atoi (s : bytes) : res Z Z :=
  if dec_value s <? 2 ^ 31 then Ok (dec_value s) else Ub.

(** The three numbers; [Err 0] is the early [return 0]. *)
Definition version_number (s : bytes) : res Z (Z * bytes) :=
  let (number, rest) := strtok_dot s in
  if negb (isnumber number) then Err 0
  else
    try v := atoi (default [] number) in
    if 0xFFFF <? v then Err 0 else Ok (v, rest).

Definition ulp_version_from_string (s : bytes) : res Z Z :=
  match
    try a := version_number (cstr s) in
    try b := version_number (snd a) in
    try c := version_number (snd b) in
    Ok (ULP_VERSION_TRIPLET (fst a) (fst b) (fst c))
  with
  | Err e => Ok e
  | r => r
  end.

(** ["%hu"]: at most five digits. *)
Fixpoint dec_digits (n : nat) (v : Z) : bytes :=
  match n with
  | O => []
  | S n => if v <? 10 then [v + 48] else dec_digits n (v / 10) ++ [v mod 10 + 48]
  end.

Definition ulp_version_as_string (ver : Z) : bytes :=
  let a := Z.shiftr (Z.land ver 0x0000FFFF00000000) 32 in
  let b := Z.shiftr (Z.land ver 0x00000000FFFF0000) 16 in
  let c := Z.land ver 0x000000000000FFFF in
  dec_digits 5 (u16 a) ++ [46] ++ dec_digits 5 (u16 b) ++ [46] ++ dec_digits 5 (u16 c).

(** ** The list of applied patches *)

(** A string of the process: a null pointer, the buffer that was read, or, when
    reading failed, still the pointer of the process. *)
Inductive remote_string := RNull | RBuffer (s : bytes) | RPointer (a : Z).

(** [struct ulp_applied_patch] as it is read; [units] and [deps] are not. *)
Record ulp_applied_patch := {
  ap_id : bytes; ap_lib_name : remote_string; ap_container_name : remote_string; ap_timestamp : Z }.

(** The layout of [struct ulp_applied_patch] and [struct ulp_patching_state]. *)
Definition PATCH_SIZE : Z := 80.
Definition TIMESTAMP_SIZE : Z := 8.
Definition STATE_SIZE : Z := 16.

(** What the tool knows of libpulp in the process. *)
Record libpulp_state := {
  state_addr : Z; error_state_addr : Z; trigger_addr : Z; enable_disable_patching : Z; libpulp_version : Z }.

Section remote.
Context {K : Type} `{Kernel K}.
Variable fuel : nat.

Abbreviation sys A := (st (tool K) Z A).

Definition read_name (pid a : Z) : sys remote_string :=
  if a =? 0 then ret RNull
  else
    let! r := read_string fuel pid a in
    ret (match snd r with Some s => RBuffer s | None => RPointer a end).

(** [calloc] tells whether the allocations succeed. [n] bounds the length of the
    list. *)
Fixpoint read_ulp_applied_patch (calloc : bool) (n : nat) (addr pid version : Z) : sys (list ulp_applied_patch) :=
  match n with
  | O => nofuel
  | S n =>
    if addr =? 0 then ret []
    else if negb calloc then t_log "error allocating memory.";;; ret []
    else
      let a_state := replicate (Z.to_nat PATCH_SIZE) 0 in
      let a_patch_size :=
        if version <? ULP_VERSION_TRIPLET 0 3 1 then PATCH_SIZE - TIMESTAMP_SIZE else PATCH_SIZE in
      let! r := read_memory fuel (take (Z.to_nat a_patch_size) a_state) a_patch_size pid addr in
      let (e, bs) := r in
      if negb (e =? 0) then t_log "error reading patch state.";;; ret []
      else
        let a_state := splice 0 bs a_state in
        let field off := le_val (slice off 8 a_state) in
        let! lib_name := read_name pid (field 32%nat) in
        let! container_name := read_name pid (field 40%nat) in
        let! next := read_ulp_applied_patch calloc n (field 56%nat) pid version in
        ret ({| ap_id := take 32 a_state; ap_lib_name := lib_name; ap_container_name := container_name;
                ap_timestamp := field 72%nat |} :: next)
  end.

Definition ulp_read_state (calloc : bool) (n : nat) (pid : Z) (libpulp : option libpulp_state) : sys (list ulp_applied_patch) :=
  match libpulp with
  | None => t_log "patching state address is NULL.";;; ret []
  | Some d =>
    if state_addr d =? 0 then t_log "patching state address is NULL.";;; ret []
    else
      let! e := attach fuel pid in
      let! patches :=
        (if negb (e =? 0) then t_log "Unable to attach to %d to read data.\n";;; ret []
         else
           let! r := read_memory fuel (replicate (Z.to_nat STATE_SIZE) 0) STATE_SIZE pid (state_addr d) in
           let (e, state) := r in
           if negb (e =? 0) then t_log "Error reading patches state.";;; ret []
           else read_ulp_applied_patch calloc n (le_val (slice 8 8 state)) pid (libpulp_version d)) in
      let! e := detach fuel pid in
      (if negb (e =? 0) then t_log "Unable to detach %d.\n" else ret tt);;;
      ret patches
  end.

(** [p] is the process, with its libpulp if it has one. *)
Definition get_libpulp_error_state_remote (p : option (Z * option libpulp_state)) : sys Z :=
  match p with
  | None => ret EINVAL
  | Some (_, None) => ret ENOLIBPULP
  | Some (pid, Some d) =>
    let err_state_addr := error_state_addr d in
    if negb (err_state_addr =? 0) then
      let! r := read_memory fuel (le_bytes 4 (u32 EUNKNOWN)) 4 pid err_state_addr in
      let (e, state) := r in
      if negb (e =? 0) then t_log "Error reading libpulp error state.";;; ret EUNKNOWN
      else ret (s32 (le_val state))
    else if negb (trigger_addr d =? 0) then ret EOLDLIBPULP
    else ret EUNKNOWN
  end.

(** [check_preamble] of the two architectures. *)
Definition check_preamble_x86 (sym_address pid : Z) : sys bool :=
  let! r := read_memory fuel [0; 0] 2 pid sym_address in
  match r with
  | (e, [b0; b1]) =>
    if negb (e =? 0) then t_log "Unable to read symbol preamble at address %lx in process %d";;; ret false
    else ret (((b0 =? 0x90) || (b0 =? 0x66)) && (b1 =? 0x90))
  | _ => undef
  end.

Definition check_preamble_ppc (sym_address pid : Z) : sys bool :=
  let! r := read_memory fuel (replicate 12 0) 12 pid sym_address in
  let (e, bs) := r in
  if negb (e =? 0) then t_log "Unable to read symbol preamble at address %lx in process %d";;; ret false
  else
    let nop := [0; 0; 0; 0x60] in
    ret (byte_eqb (slice 0 4 bs) nop || byte_eqb (slice 8 4 bs) nop).
End remote.

(** ** Versions are read back *)

Lemma dec_digits_spec n v : 0 <= v < 10 ^ Z.of_nat n -> (0 < n)%nat ->
  dec_value (dec_digits n v) = v /\ Forall (fun c => 48 <= c <= 57) (dec_digits n v) /\ dec_digits n v <> [].
Proof.
  revert v. induction n as [|n IH]; intros v Hv Hn; [lia|]. cbn [dec_digits].
  destruct (Z.ltb_spec v 10) as [Hlt|Hge].
  - split_and!; [unfold dec_value; cbn [foldl]; lia|repeat constructor; lia|done].
  - assert (Hq : 0 <= v / 10 < 10 ^ Z.of_nat n).
    { split; [apply Z.div_pos; lia|]. apply Z.div_lt_upper_bound; [lia|].
      rewrite Nat2Z.inj_succ, Z.pow_succ_r in Hv by lia. lia. }
    destruct n as [|n]; [change (10 ^ Z.of_nat 0) with 1 in Hq; pose proof (Z.div_le_lower_bound v 10 1); lia|].
    destruct (IH _ Hq ltac:(lia)) as (Hval & Hall & Hne). pose proof (Z.mod_pos_bound v 10 ltac:(lia)) as Hm.
    split_and!.
    + unfold dec_value in *. rewrite foldl_app, Hval. cbn [foldl]. pose proof (Z.div_mod v 10). lia.
    + apply Forall_app. split; [done|]. repeat constructor; lia.
    + by destruct (dec_digits (S n) (v / 10)).
Qed.

Lemma strtok_token t rest : Forall (fun c => c <> 46) t -> t <> [] ->
  strtok_dot (t ++ 46 :: rest) = (Some t, rest) /\ strtok_dot t = (Some t, []).
Proof.
  intros Ht Hne. unfold strtok_dot.
  assert (Hu : until_dot (t ++ 46 :: rest) = (t, rest) /\ until_dot t = (t, [])).
  { clear Hne. induction Ht as [|c t Hc _ [IH1 IH2]]; [done|]. cbn [app until_dot].
    by rewrite (proj2 (Z.eqb_neq _ _) Hc), IH1, IH2. }
  destruct t as [|c t]; [done|]. apply Forall_inv in Ht. cbn [app skip_dots] in *.
  rewrite (proj2 (Z.eqb_neq _ _) Ht). by destruct Hu as [-> ->].
Qed.

Lemma version_number_spec v rest : 0 <= v < 65536 ->
  version_number (dec_digits 5 v ++ 46 :: rest) = Ok (v, rest) /\ version_number (dec_digits 5 v) = Ok (v, []).
Proof.
  intros Hv. destruct (dec_digits_spec 5 v ltac:(lia) ltac:(lia)) as (Hval & Hall & Hne). set (t := dec_digits 5 v) in *.
  assert (Hd : Forall (fun c => c <> 46) t) by (eapply Forall_impl; [|exact Hall]; cbn; intros; lia).
  assert (Hn : no_nul t) by (eapply Forall_impl; [|exact Hall]; cbn; intros; lia).
  assert (Hnum : isnumber (Some t) = true).
  { unfold isnumber. rewrite (cstr_id _ Hn). destruct t as [|c t]; [done|]. apply forallb_forall. intros x Hx.
    rewrite List.Forall_forall in Hall. specialize (Hall x Hx). unfold isdigit. lia. }
  destruct (strtok_token t rest Hd Hne) as [E1 E2]. unfold version_number. rewrite E1, E2, Hnum.
  change (default [] (Some t)) with t. unfold atoi. rewrite Hval, (proj2 (Z.ltb_lt v (2 ^ 31))) by lia. cbn [rbind].
  by rewrite (proj2 (Z.ltb_ge 0xFFFF v)) by lia.
Qed.

Lemma triplet_parts a b c : 0 <= a < 65536 -> 0 <= b < 65536 -> 0 <= c < 65536 ->
  let v := ULP_VERSION_TRIPLET a b c in
  Z.shiftr (Z.land v 0x0000FFFF00000000) 32 = a /\ Z.shiftr (Z.land v 0x00000000FFFF0000) 16 = b /\
  Z.land v 0x000000000000FFFF = c.
Proof.
  intros Ha Hb Hc v. unfold v, ULP_VERSION_TRIPLET. rewrite !Z.shiftl_mul_pow2 by lia.
  rewrite wrap_id by (unfold in_u; lia).
  change 0x0000FFFF00000000 with (Z.shiftl (Z.ones 16) 32). change 0x00000000FFFF0000 with (Z.shiftl (Z.ones 16) 16).
  change 0x000000000000FFFF with (Z.ones 16).
  rewrite !Z.shiftr_land, !Z.shiftr_shiftl_l, !Z.shiftl_0_r, !Z.land_ones, !Z.shiftr_div_pow2 by lia.
  change (2 ^ 32) with 4294967296. change (2 ^ 16) with 65536.
  replace (c + b * 65536 + a * 4294967296) with (a * 4294967296 + (b * 65536 + c)) by lia.
  split_and!.
  - rewrite Z.div_add_l, (Z.div_small (b * 65536 + c)), Z.add_0_r by lia. by apply Z.mod_small.
  - replace (a * 4294967296 + (b * 65536 + c)) with ((a * 65536 + b) * 65536 + c) by lia.
    rewrite Z.div_add_l, (Z.div_small c), Z.add_0_r by lia. rewrite Z.add_comm, Z.mod_add by lia. by apply Z.mod_small.
  - replace (a * 4294967296 + (b * 65536 + c)) with (c + (a * 65536 + b) * 65536) by lia.
    rewrite Z.mod_add by lia. by apply Z.mod_small.
Qed.

(** A version is read back from the string it is shown as. *)
Lemma version_roundtrip a b c : 0 <= a < 65536 -> 0 <= b < 65536 -> 0 <= c < 65536 ->
  ulp_version_from_string (ulp_version_as_string (ULP_VERSION_TRIPLET a b c)) = Ok (ULP_VERSION_TRIPLET a b c).
Proof.
  intros Ha Hb Hc. destruct (triplet_parts a b c Ha Hb Hc) as (Ea & Eb & Ec).
  unfold ulp_version_as_string. rewrite Ea, Eb, Ec, !(wrap_id 16) by (unfold in_u; lia).
  unfold ulp_version_from_string. rewrite cstr_id.
  - cbn [app]. rewrite (proj1 (version_number_spec a _ Ha)). cbn [rbind snd].
    rewrite (proj1 (version_number_spec b _ Hb)). cbn [rbind snd]. by rewrite (proj2 (version_number_spec c [] Hc)).
  - unfold no_nul. rewrite !Forall_app.
    split_and!; try (by repeat constructor);
      (eapply Forall_impl; [|apply (dec_digits_spec 5); lia]); cbn; intros; lia.
Qed.

(** Older versions compare as smaller. *)
Lemma version_order a b c a' b' c' : 0 <= a < 65536 -> 0 <= b < 65536 -> 0 <= c < 65536 ->
  0 <= a' < 65536 -> 0 <= b' < 65536 -> 0 <= c' < 65536 ->
  ULP_VERSION_TRIPLET a b c < ULP_VERSION_TRIPLET a' b' c' <->
  a < a' \/ (a = a' /\ (b < b' \/ (b = b' /\ c < c'))).
Proof.
  intros. unfold ULP_VERSION_TRIPLET. rewrite !Z.shiftl_mul_pow2, !wrap_id by (unfold in_u; lia). lia.
Qed.

(** ** Strings *)

Section strings.
Context {K : Type} `{Cooperative K}.
Variable fuel : nat.

(** [s] at [a], with the rest of the last word that is read. *)
Definition string_at (m : mem) (words : nat) (a : Z) (s : bytes) : Prop :=
  no_nul s /\ exists pad, (length pad < 8)%nat /\ length (s ++ 0 :: pad) = (8 * words)%nat /\
  mem_read a (8 * words) m = Some (s ++ 0 :: pad) /\ 0 < a /\ a + 8 * Z.of_nat words < 2 ^ 64.

Lemma read_long_succeeds pid a s : mapped a 8 (tmem pid s) ->
  exists bs s', read_long (S fuel) (replicate 8 0) pid a s = (Ok (0, bs), s') /\
    tmem pid s' = tmem pid s /\ mem_read a 8 (tmem pid s) = Some bs.
Proof. exact (read_memory_succeeds fuel (replicate 8 0) pid a s). Qed.

(** The first word of a string: the last one, or eight characters and a string. *)
Lemma string_step m words a t : (forall x b, m !! x = Some b -> is_byte b) -> string_at m (S words) a t ->
  exists w, mem_read a 8 m = Some w /\
    ((words = O /\ hasbytezero (le_val w) = true /\ exists pad, w = t ++ 0 :: pad) \/
     (hasbytezero (le_val w) = false /\ w = take 8 t /\ u64 (a + 8) = a + 8 /\
      string_at m words (a + 8) (drop 8 t))).
Proof.
  intros Hb (Ht & pad & Hpad & Hl & Hr & Ha & Hlim).
  replace (8 * S words)%nat with (8 + 8 * words)%nat in * by lia. rewrite mem_read_app in Hr.
  destruct (mem_read a 8 m) as [w|] eqn:Ew; [|done].
  destruct (mem_read _ (8 * words) _) as [r|] eqn:Er; [|done]. injection Hr as Hr. exists w. split; [done|].
  pose proof (mem_read_length _ _ _ _ Ew) as Hw. pose proof (hasbytezero_spec w ltac:(by eapply mem_read_bytes) Hw) as Hz.
  destruct words as [|words].
  - left. assert (r = []) as -> by (apply mem_read_length in Er; by destruct r). rewrite app_nil_r in Hr. subst w.
    split_and!; [done| |by exists pad]. apply Hz, Exists_app. right. by left.
  - right. assert (Hlt : (8 <= length t)%nat) by (rewrite length_app in Hl; simpl in Hl; lia).
    assert (w = take 8 t) as ->.
    { rewrite <- (take_app_length w r), Hr, Hw. by rewrite take_app_le by lia. }
    assert (r = drop 8 t ++ 0 :: pad) as ->.
    { rewrite <- (drop_app_length (take 8 t) r), Hr, Hw. by rewrite drop_app_le by lia. }
    split_and!; [|done|apply wrap_id; unfold in_u; lia|].
    + apply not_true_iff_false. rewrite Hz, Exists_exists. intros (x & Hx & ->). unfold no_nul in Ht.
      rewrite Forall_forall in Ht. apply (Ht 0); [|done]. rewrite <- (take_drop 8 t). apply in_or_app. by left.
    + split; [by apply Forall_drop|]. exists pad.
      rewrite length_app, length_drop in *. cbn [length] in *. split_and!; [done|lia|done|lia|lia].
Qed.

Lemma no_string_at m a t : ~ string_at m 0 a t.
Proof. intros (_ & pad & _ & Hl & _). rewrite length_app in Hl. simpl in Hl. lia. Qed.

Lemma read_string_loop_total words : forall n acc pid a t s,
  (forall x b, tmem pid s !! x = Some b -> is_byte b) ->
  string_at (tmem pid s) words a t -> (words <= n)%nat ->
  exists pad s', read_string_loop (S fuel) n acc pid a s = (Ok (acc ++ t ++ 0 :: pad), s') /\ tmem pid s' = tmem pid s.
Proof.
  induction words as [|words IH]; intros n acc pid a t s Hb Hs Hn; [by apply no_string_at in Hs|].
  destruct n as [|n]; [lia|]. cbn [read_string_loop].
  destruct (string_step _ _ _ _ Hb Hs) as (w & Ew & Hc).
  destruct (read_long_succeeds pid a s) as (w' & s1 & E1 & M1 & R1); [by eexists|].
  rewrite Ew in R1. injection R1 as <-. step_bind E1. change (negb (0 =? 0)) with false. cbv iota.
  destruct Hc as [(-> & -> & pad & ->)|(-> & -> & -> & Hs')]; [by exists pad, s1|].
  destruct (IH n (acc ++ take 8 t) pid (a + 8) (drop 8 t) s1) as (pad & s2 & E2 & M2);
    [by rewrite M1|by rewrite M1|lia|].
  exists pad, s2. by rewrite E2, M2, M1, <- app_assoc, (app_assoc (take 8 t)), take_drop.
Qed.

Lemma read_string_total words pid a t s :
  (forall x b, tmem pid s !! x = Some b -> is_byte b) ->
  string_at (tmem pid s) words a t -> (words <= S fuel)%nat ->
  exists pad s', read_string (S fuel) pid a s = (Ok (0, Some (t ++ 0 :: pad)), s') /\ tmem pid s' = tmem pid s.
Proof.
  intros Hb Ht Hw. unfold read_string.
  destruct (read_string_loop_total words (S fuel) [] pid a t s Hb Ht Hw) as (pad & s' & E & M).
  exists pad, s'. by rewrite E.
Qed.

(** ** The list *)

(** A patch as libpulp recorded it. *)
Record recorded := { rc_id : bytes; rc_lib : option bytes; rc_container : option bytes; rc_timestamp : Z }.

Definition name_at (m : mem) (a : Z) (name : option bytes) : Prop :=
  match name with
  | None => a = 0
  | Some t => exists words, (words <= S fuel)%nat /\ string_at m words a t
  end.

(** The bytes of a patch that a version of libpulp has. *)
Definition patch_size (version : Z) : nat :=
  if version <? ULP_VERSION_TRIPLET 0 3 1 then 72 else 80.

(** The list at [a] of a process whose memory is [m]. *)
Inductive chain (m : mem) (version : Z) : Z -> list recorded -> Prop :=
| chain_nil : chain m version 0 []
| chain_cons a bs p ps : a <> 0 -> mem_read a (patch_size version) m = Some bs ->
    rc_id p = take 32 bs ->
    name_at m (le_val (slice 32 8 bs)) (rc_lib p) -> name_at m (le_val (slice 40 8 bs)) (rc_container p) ->
    rc_timestamp p = (if version <? ULP_VERSION_TRIPLET 0 3 1 then 0 else le_val (slice 72 8 bs)) ->
    chain m version (le_val (slice 56 8 bs)) ps -> chain m version a (p :: ps).

Definition name_read (n : option bytes) (r : remote_string) : Prop :=
  match n, r with
  | None, RNull => True
  | Some t, RBuffer s => cstr s = t
  | _, _ => False
  end.

Definition patch_read (p : recorded) (a : ulp_applied_patch) : Prop :=
  ap_id a = rc_id p /\ name_read (rc_lib p) (ap_lib_name a) /\
  name_read (rc_container p) (ap_container_name a) /\ ap_timestamp a = rc_timestamp p.

Lemma read_name_spec pid a name s :
  (forall x b, tmem pid s !! x = Some b -> is_byte b) -> name_at (tmem pid s) a name ->
  exists r s', read_name (S fuel) pid a s = (Ok r, s') /\ tmem pid s' = tmem pid s /\ name_read name r.
Proof.
  intros Hb Hn. unfold read_name. destruct name as [t|]; cbn [name_at] in Hn.
  - destruct Hn as (words & Hw & Hs). pose proof Hs as (Ht & pad0 & _ & _ & _ & Ha & _).
    rewrite (proj2 (Z.eqb_neq a 0)) by lia. destruct (read_string_total words pid a t s Hb Hs Hw) as (pad & s' & E & M).
    exists (RBuffer (t ++ 0 :: pad)), s'. step_bind E. split_and!; [done|done|]. by apply cstr_nul.
  - subst a. by exists RNull, s.
Qed.

Lemma splice_slice off n (bs z : bytes) : (off + n <= length bs)%nat ->
  slice off n (splice 0 bs z) = slice off n bs.
Proof.
  intros Hl. unfold slice, splice. cbn [take app Nat.add]. rewrite take_0, app_nil_l.
  rewrite drop_app_le by lia. apply take_app_le. rewrite length_drop. lia.
Qed.

Lemma read_patches_spec m version pid n : forall a ps s, chain m version a ps -> tmem pid s = m ->
  (forall x b, m !! x = Some b -> is_byte b) -> (length ps < n)%nat ->
  exists qs s', read_ulp_applied_patch (S fuel) true n a pid version s = (Ok qs, s') /\
    tmem pid s' = m /\ Forall2 patch_read ps qs.
Proof.
  induction n as [|n IH]; intros a ps s Hc Hm Hb Hn; [lia|]. cbn [read_ulp_applied_patch].
  destruct Hc as [|a bs p ps Ha Hr Hid Hlib Hcont Htime Hc].
  - exists [], s. split_and!; [done|done|constructor].
  - rewrite (proj2 (Z.eqb_neq a 0) Ha). cbn [negb].
    set (size := if version <? ULP_VERSION_TRIPLET 0 3 1 then PATCH_SIZE - TIMESTAMP_SIZE else PATCH_SIZE).
    set (buf := take (Z.to_nat size) (replicate (Z.to_nat PATCH_SIZE) 0)).
    assert (Hsize : length buf = patch_size version /\ size = zlen buf /\ (72 <= patch_size version <= 80)%nat).
    { unfold buf, size, patch_size. destruct (version <? _); split_and!; done || lia. }
    destruct Hsize as (Hl & Hz & Hps).
    destruct (read_memory_succeeds fuel buf pid a s) as (bs' & s1 & E1 & M1 & R1); [rewrite Hl, Hm; by eexists|].
    rewrite Hl, Hm, Hr in R1. injection R1 as <-. rewrite <- Hz in E1. step_bind E1.
    change (negb (0 =? 0)) with false. cbv iota. pose proof (mem_read_length _ _ _ _ Hr) as Hlen.
    rewrite !splice_slice by lia. rewrite Hm in M1.
    destruct (read_name_spec pid _ _ s1 ltac:(by rewrite M1) ltac:(by rewrite M1; exact Hlib)) as (lib & s2 & E2 & M2 & N2).
    step_bind E2.
    assert (Hcont2 : name_at (tmem pid s2) (le_val (slice 40 8 bs)) (rc_container p)) by (by rewrite M2, M1).
    destruct (read_name_spec pid _ _ s2 ltac:(by rewrite M2, M1) Hcont2) as (cont & s3 & E3 & M3 & N3). step_bind E3.
    simpl in Hn. destruct (IH _ _ s3 Hc ltac:(by rewrite M3, M2) Hb ltac:(lia)) as (qs & s4 & E4 & M4 & F). step_bind E4.
    eexists _, s4. split_and!; [reflexivity|done|]. constructor; [|done].
    assert (Hid32 : take 32 (splice 0 bs (replicate (Z.to_nat PATCH_SIZE) 0)) = take 32 bs)
      by (apply (splice_slice 0 32); lia).
    split_and!; cbn [ap_id ap_lib_name ap_container_name ap_timestamp]; [by rewrite Hid32|done|done|].
    rewrite Htime. unfold patch_size in *. destruct (version <? _).
    + unfold slice, splice. cbn [take app Nat.add]. rewrite take_0, app_nil_l, drop_app_length' by done.
      rewrite Hlen. done.
    + by rewrite splice_slice by lia.
Qed.

(** C24. The tool reads the list of patches that libpulp recorded: once attached to
    a process whose memory holds the list, with its strings, [ulp_read_state] returns
    every patch with its identifier, its names and its time, in order, and the
    memory of the process is as it was. A libpulp before 0.3.1 has no times. *)
Theorem ulp_read_state_spec n pid d st ps s s1
    (Hatt : attach (S fuel) pid s = (Ok 0, s1))
    (Hdet : forall s, exists s', detach (S fuel) pid s = (Ok 0, s') /\ tmem pid s' = tmem pid s)
    (Hbytes : forall x b, tmem pid s1 !! x = Some b -> is_byte b)
    (Haddr : state_addr d <> 0)
    (Hst : mem_read (state_addr d) 16 (tmem pid s1) = Some st)
    (Hchain : chain (tmem pid s1) (libpulp_version d) (le_val (slice 8 8 st)) ps)
    (Hn : (length ps < n)%nat) :
  exists qs s', ulp_read_state (S fuel) true n pid (Some d) s = (Ok qs, s') /\
    Forall2 patch_read ps qs /\ tmem pid s' = tmem pid s1.
Proof.
  unfold ulp_read_state. rewrite (proj2 (Z.eqb_neq _ _) Haddr). step_bind Hatt.
  change (negb (0 =? 0)) with false. cbv iota. rewrite !bind_assoc.
  destruct (read_memory_succeeds fuel (replicate 16 0) pid (state_addr d) s1) as (bs & s2 & E2 & M2 & R2); [by eexists|].
  change (length (replicate 16 0)) with 16%nat in R2. rewrite Hst in R2. injection R2 as <-.
  change (zlen (replicate 16 0)) with STATE_SIZE in E2. change (Z.to_nat STATE_SIZE) with 16%nat. step_bind E2.
  change (negb (0 =? 0)) with false. cbv iota.
  destruct (read_patches_spec _ _ pid n _ _ s2 Hchain M2 Hbytes Hn) as (qs & s3 & E3 & M3 & F). step_bind E3.
  destruct (Hdet s3) as (s4 & E4 & M4). step_bind E4. exists qs, s4. split_and!; [done|done|]. by rewrite M4.
Qed.
End strings.

(** When the name of a library cannot be read, the field keeps the address it has
    in the process. *)
Lemma unreadable_name {K} `{Kernel K} fuel pid a s e s' : a <> 0 ->
  read_string fuel pid a s = (Ok (e, None), s') -> read_name fuel pid a s = (Ok (RPointer a), s').
Proof. intros Ha E. unfold read_name. rewrite (proj2 (Z.eqb_neq _ _) Ha). by step_bind E. Qed.

(** A list that cannot be read to its end looks like a shorter one. *)
Lemma unreadable_patch {K} `{Kernel K} fuel n a pid version buf size s e bs s' :
  a <> 0 -> e <> 0 -> size = (if version <? ULP_VERSION_TRIPLET 0 3 1 then PATCH_SIZE - TIMESTAMP_SIZE else PATCH_SIZE) ->
  buf = take (Z.to_nat size) (replicate (Z.to_nat PATCH_SIZE) 0) ->
  read_memory fuel buf size pid a s = (Ok (e, bs), s') ->
  exists s'', read_ulp_applied_patch fuel true (S n) a pid version s = (Ok [], s'').
Proof.
  intros Ha He -> -> E. cbn [read_ulp_applied_patch]. rewrite (proj2 (Z.eqb_neq _ _) Ha). cbn [negb].
  step_bind E. rewrite (proj2 (Z.eqb_neq _ _) He). cbn [negb]. by eexists.
Qed.
