(* ===== verification/TempFile.v ===== *)
(** * Temporary files (common/common.c, tools/introspection.c)

    A path that no file has is drawn at random and the file is created; the metadata of
    a container, completed with its path, can be written into such a file. *)

From stdpp Require Import gmap.
From S2P Require Import Interpose Prelude Errors Metadata RemoteState.

Open Scope ulp_scope.

(** The files that can be read; how many numbers [getrandom] was asked for; what was
    logged. *)
Record disk := { files : gmap bytes bytes; draws : nat; disk_log : list string }.

Abbreviation fs A := (st disk unit A).

Definition dwarn (fmt : string) : fs unit :=
  modify (fun s => {| files := files s; draws := draws s; disk_log := fmt :: disk_log s |}).

Definition put_file (path content : bytes) : fs unit :=
  modify (fun s => {| files := <[path := content]> (files s); draws := draws s; disk_log := disk_log s |}).

Definition remove_file (path : bytes) : fs unit :=
  modify (fun s => {| files := delete path (files s); draws := draws s; disk_log := disk_log s |}).

(** [snprintf (buffer, 24, "%s%u", "/tmp/ulp-", token)]: at most ten digits. *)
Definition tmp_path (token : Z) : bytes := str "/tmp/ulp-" ++ dec_digits 10 token.

Section temporary.
(** What [getrandom] gives each time, and whether [fopen] of the path for writing
    succeeds. *)
Variable getrandom : nat -> option Z.
Variable can_create : bytes -> bool.

(** The loop; [conflict] is never cleared. *)
Fixpoint unused_path (fuel : nat) (conflict : bool) : fs bytes :=
  match fuel with
  | O => fun s => (NoFuel, s)
  | S fuel =>
    let! n := gets draws in
    modify (fun s => {| files := files s; draws := S (draws s); disk_log := disk_log s |});;;
    match getrandom n with
    | None => dwarn "Failure in getrandom()";;; throw tt
    | Some token =>
      let buffer := tmp_path (u32 token) in
      let! fs := gets files in
      let conflict := conflict || bool_decide (is_Some (fs !! buffer)) in
      if conflict then unused_path fuel conflict else ret buffer
    end
  end.

(** [None] is [NULL]; a file that cannot be created is written through a null
    pointer. *)
Definition create_path_to_tmp_file (fuel : nat) : fs (option bytes) := fun s =>
  match unused_path fuel false s with
  | (Ok buffer, s) => if can_create buffer then (put_file buffer [];;; ret (Some buffer)) s else (Ub, s)
  | (Err _, s) => (Ok None, s)
  | (Ub, s) => (Ub, s)
  | (NoFuel, s) => (NoFuel, s)
  end.

(** [extracted] is what [extract_ulp_from_so_to_mem] gives, [short] how many bytes
    [fwrite] writes of a file on a full disk. *)
Variable short : bytes -> option nat.

Definition extract_ulp_from_so_to_disk (fuel : nat) (extracted : res unit (Z * out_ptr)) : fs (option bytes) :=
  match extracted with
  | Ok (meta_size, buf) =>
    if meta_size =? 0 then ret None
    else
      match buf with
      | Untouched => undef
      | Null => ret None
      | Buffer buf =>
        let! tmp := create_path_to_tmp_file fuel in
        match tmp with
        | None => undef
        | Some tmp =>
          if negb (can_create tmp) then dwarn "Unable to open temporary file %s: %s";;; ret None
          else
            match short tmp with
            | Some n => put_file tmp (take n buf);;; remove_file tmp;;; dwarn "Error writing to %s: %s";;; ret None
            | None => put_file tmp (take (Z.to_nat meta_size) buf);;; ret (Some tmp)
            end
        end
      end
  | Err _ => throw tt
  | Ub => undef
  | NoFuel => fun s => (NoFuel, s)
  end.

(** ** What is created *)

(** A path that is free is created at the first attempt, empty, and nothing else
    changes. *)
Lemma create_path_ok fuel s token :
  getrandom (draws s) = Some token -> files s !! tmp_path (u32 token) = None -> can_create (tmp_path (u32 token)) = true ->
  (0 < fuel)%nat ->
  create_path_to_tmp_file fuel s = (Ok (Some (tmp_path (u32 token))),
    {| files := <[tmp_path (u32 token) := []]> (files s); draws := S (draws s); disk_log := disk_log s |}).
Proof.
  intros Hr Hf Hc Hfuel. destruct fuel as [|fuel]; [lia|]. unfold create_path_to_tmp_file. cbn [unused_path].
  unfold bind at 1, gets at 1. unfold bind at 1, modify at 1. rewrite Hr. unfold bind at 1, gets at 1. cbn [files].
  rewrite Hf, bool_decide_eq_false_2 by by intros []. cbn [orb]. unfold ret at 1. by rewrite Hc.
Qed.

(** After one path that is taken the loop does not end, whatever paths follow: the flag
    is not cleared. *)
Lemma conflict_for_ever fuel s : (forall n, is_Some (getrandom n)) -> exists s', unused_path fuel true s = (NoFuel, s').
Proof.
  intros Hr. revert s. induction fuel as [|fuel IH]; intros s; [by eexists|]. cbn [unused_path].
  unfold bind at 1, gets at 1. unfold bind at 1, modify at 1. destruct (Hr (draws s)) as [token ->].
  unfold bind at 1, gets at 1. cbn [orb]. apply IH.
Qed.

(** A first path that is taken: the function never returns. *)
Theorem tmp_conflict_never_ends fuel s token content
    (Hrandom : forall n, is_Some (getrandom n))
    (Hfirst : getrandom (draws s) = Some token)
    (Htaken : files s !! tmp_path (u32 token) = Some content) :
  exists s', create_path_to_tmp_file fuel s = (NoFuel, s').
Proof.
  unfold create_path_to_tmp_file. destruct fuel as [|fuel]; [by eexists|]. cbn [unused_path].
  unfold bind at 1, gets at 1. unfold bind at 1, modify at 1. rewrite Hfirst. unfold bind at 1, gets at 1. cbn [files orb].
  rewrite Htaken, bool_decide_eq_true_2 by by eexists.
  destruct (conflict_for_ever fuel {| files := files s; draws := S (draws s); disk_log := disk_log s |} Hrandom) as (s' & ->).
  by eexists.
Qed.

(** What is extracted to the disk is what is extracted to memory: a new file has the
    metadata, and no other file changes. *)
Theorem extract_to_disk_ok fuel s token size buf
    (Hrandom : getrandom (draws s) = Some token /\ files s !! tmp_path (u32 token) = None)
    (Hdisk : can_create (tmp_path (u32 token)) = true /\ short (tmp_path (u32 token)) = None)
    (Hsize : size = zlen buf /\ buf <> [])
    (Hfuel : (0 < fuel)%nat) :
  exists s', extract_ulp_from_so_to_disk fuel (Ok (size, Buffer buf)) s = (Ok (Some (tmp_path (u32 token))), s') /\
    files s' = <[tmp_path (u32 token) := buf]> (files s).
Proof.
  destruct Hrandom as [Hr Hf], Hdisk as [Hc Hs], Hsize as [-> Hne]. unfold extract_ulp_from_so_to_disk.
  rewrite (proj2 (Z.eqb_neq _ 0)) by (destruct buf; [done|unfold zlen; cbn; lia]).
  rewrite (bind_ok _ _ _ _ _ (create_path_ok fuel s token Hr Hf Hc Hfuel)), Hc. cbn [negb]. rewrite Hs.
  eexists. split; [reflexivity|]. cbn [files]. rewrite zlen_nat, firstn_all. apply insert_insert_eq.
Qed.
End temporary.
