(* ===== verification/Release.v ===== *)
(** * Releasing memory (tools/introspection.c, tools/extract.c, common/common.c)

    The data of both programs are chains of blocks from malloc with strings of their
    own. The heap is a map from the address of a block to the pointers in it, so that a
    block freed twice, or read after it was freed, is undefined behaviour of the
    model. *)

From stdpp Require Import gmap.
From S2P Require Import Prelude Errors.

Open Scope ulp_scope.

(** ** The heap *)

(** The fields of a block that are pointers; of a node of a chain the first is
    [next], and its strings follow. *)
Abbreviation heap := (gmap Z (list Z)).

Abbreviation hp A := (st heap unit A).

Definition free (p : Z) : hp unit := fun h =>
  if p =? 0 then (Ok tt, h) else if bool_decide (is_Some (h !! p)) then (Ok tt, delete p h) else (Ub, h).

Definition field (p : Z) (i : nat) : hp Z := fun h =>
  match h !! p ≫= (fun fs => fs !! i) with Some v => (Ok v, h) | None => (Ub, h) end.

Definition set_field (p : Z) (i : nat) (v : Z) : hp unit := fun h =>
  match h !! p with Some fs => (Ok tt, <[p := <[i := v]> fs]> h) | None => (Ub, h) end.

(** [free (p->f)] and [FREE_AND_NULLIFY (p->f)]. *)
Definition free_field (p : Z) (i : nat) : hp unit := let! v := field p i in free v.

Definition FREE_AND_NULLIFY (p : Z) (i : nat) : hp unit :=
  let! v := field p i in
  if negb (v =? 0) then free v;;; set_field p i 0 else ret tt.

(** The strings of a node, which are the fields from [i]. *)
Fixpoint each_string (f : Z -> nat -> hp unit) (p : Z) (i k : nat) : hp unit :=
  match k with O => ret tt | S k => f p i;;; each_string f p (S i) k end.

(** ** Chains

    The code has four shapes: loops that read [next] before or after the strings are
    freed, and recursive functions that go on before or after. [k] is the number of
    strings of a node. *)

(** A block with strings that holds a chain, which [inner] releases. *)
Definition release_holder (f : Z -> nat -> hp unit) (k : nat) (inner : Z -> hp unit) (p : Z) : hp unit :=
  if p =? 0 then ret tt
  else each_string f p 1 k;;; let! head := field p 0 in inner head;;; free p.

Section shapes.
Variable f : Z -> nat -> hp unit.
Variable k : nat.

Fixpoint loop_next_first (fuel : nat) (p : Z) : hp unit :=
  match fuel with
  | O => fun h => (NoFuel, h)
  | S fuel =>
    if p =? 0 then ret tt
    else let! next := field p 0 in each_string f p 1 k;;; free p;;; loop_next_first fuel next
  end.

Fixpoint loop_strings_first (fuel : nat) (p : Z) : hp unit :=
  match fuel with
  | O => fun h => (NoFuel, h)
  | S fuel =>
    if p =? 0 then ret tt
    else each_string f p 1 k;;; let! next := field p 0 in free p;;; loop_strings_first fuel next
  end.

Fixpoint recurse_strings_first (fuel : nat) (p : Z) : hp unit :=
  match fuel with
  | O => fun h => (NoFuel, h)
  | S fuel => release_holder f k (recurse_strings_first fuel) p
  end.

Fixpoint recurse_next_first (fuel : nat) (p : Z) : hp unit :=
  match fuel with
  | O => fun h => (NoFuel, h)
  | S fuel =>
    if p =? 0 then ret tt
    else let! next := field p 0 in recurse_next_first fuel next;;; each_string f p 1 k;;; free p
  end.
End shapes.

(** ** The functions of the code *)

Section functions.
Variable fuel : nat.

Definition release_ulp_thread : Z -> hp unit := loop_next_first FREE_AND_NULLIFY 0 fuel.
(** [filename] and [thread_states]. *)
Definition release_ulp_dynobj : Z -> hp unit := loop_next_first FREE_AND_NULLIFY 2 fuel.
(** [patch_name]. *)
Definition release_trigger_results : Z -> hp unit := recurse_next_first free_field 1 fuel.
(** [old_fname] and [new_fname]. *)
Definition release_ulp_unit : Z -> hp unit := recurse_strings_first FREE_AND_NULLIFY 2 fuel.
Definition release_ulp_dependency : Z -> hp unit := recurse_next_first FREE_AND_NULLIFY 0 fuel.
(** [target_name] and [reference_name]. *)
Definition release_ulp_reference : Z -> hp unit := recurse_next_first FREE_AND_NULLIFY 2 fuel.
(** [lib_name] and [container_name]. *)
Definition release_ulp_applied_patch : Z -> hp unit := recurse_next_first free_field 2 fuel.
(** [name]. *)
Definition release_symbol : Z -> hp unit := loop_strings_first FREE_AND_NULLIFY 1 fuel.

(** The fields of an object: [units], [build_id] and [name]. *)
Definition release_ulp_object : Z -> hp unit := release_holder FREE_AND_NULLIFY 2 release_ulp_unit.

(** The fields of a library: [symbols] and [name]. *)
Definition release_so_info : Z -> hp unit := release_holder FREE_AND_NULLIFY 1 release_symbol.

(** The fields of a process: [next], [threads], [dynobj_main], [dynobj_targets],
    [dynobj_patches] and [results]. *)
Fixpoint release_ulp_process_loop (n : nat) (p : Z) : hp unit :=
  match n with
  | O => fun h => (NoFuel, h)
  | S n =>
    if p =? 0 then ret tt
    else
      let! nextp := field p 0 in
      let! threads := field p 1 in release_ulp_thread threads;;;
      let! main := field p 2 in release_ulp_dynobj main;;;
      let! targets := field p 3 in release_ulp_dynobj targets;;;
      let! patches := field p 4 in release_ulp_dynobj patches;;;
      let! results := field p 5 in release_trigger_results results;;;
      free p;;;
      release_ulp_process_loop n nextp
  end.
Definition release_ulp_process : Z -> hp unit := release_ulp_process_loop fuel.

(** [struct ulp_metadata]: the pointers in it. *)
Record metadata_ptrs := { m_so_filename : Z; m_comments : Z; m_objs : Z; m_deps : Z; m_refs : Z }.

(** The global [ulp] of the tool; afterwards it is cleared. *)
Definition release_ulp_global_metadata (meta : metadata_ptrs) : hp metadata_ptrs :=
  free (m_so_filename meta);;;
  release_ulp_object (m_objs meta);;;
  release_ulp_dependency (m_deps meta);;;
  release_ulp_reference (m_refs meta);;;
  ret {| m_so_filename := 0; m_comments := 0; m_objs := 0; m_deps := 0; m_refs := 0 |}.

(** [free_metadata], with the structure afterwards. *)
Definition free_metadata (ulp : metadata_ptrs) : hp metadata_ptrs :=
  free (m_so_filename ulp);;;
  free (m_comments ulp);;;
  loop_strings_first free_field 2 fuel (m_refs ulp);;;
  (if m_objs ulp =? 0 then ret tt
   else
     let! units := field (m_objs ulp) 0 in
     loop_next_first free_field 2 fuel units;;;
     free_field (m_objs ulp) 2;;;
     free_field (m_objs ulp) 1;;;
     free (m_objs ulp));;;
  ret {| m_so_filename := m_so_filename ulp; m_comments := 0; m_objs := m_objs ulp; m_deps := m_deps ulp; m_refs := 0 |}.
End functions.

(** ** What is left of a heap *)

Definition remove (bs : list Z) (h : heap) : heap := foldr delete h bs.

Lemma lookup_remove bs h x : remove bs h !! x = if bool_decide (x ∈ bs) then None else h !! x.
Proof.
  unfold remove. induction bs as [|b bs IH]; cbn [foldr]; [by rewrite bool_decide_eq_false_2 by apply not_elem_of_nil|].
  destruct (decide (x = b)) as [->|Hx]; [by rewrite lookup_delete_eq, bool_decide_eq_true_2 by left|].
  rewrite lookup_delete_ne, IH by done. rewrite (bool_decide_ext (x ∈ b :: bs) (x ∈ bs)); [done|]. rewrite elem_of_cons. tauto.
Qed.

Lemma remove_app a b h : remove (a ++ b) h = remove b (remove a h).
Proof.
  apply map_eq. intros x. rewrite !lookup_remove. repeat case_bool_decide; try done; rewrite elem_of_app in *; tauto.
Qed.

Lemma remove_nil h : remove [] h = h.
Proof. apply map_eq. intros x. rewrite lookup_remove. case_bool_decide; [set_solver|done]. Qed.

Lemma remove_insert p v bs h : p ∈ bs -> remove bs (<[p := v]> h) = remove bs h.
Proof.
  intros Hp. apply map_eq. intros x. rewrite !lookup_remove. case_bool_decide; [done|]. rewrite lookup_insert_ne; [done|]. by intros ->.
Qed.

Lemma delete_remove p h : delete p h = remove [p] h.
Proof.
  apply map_eq. intros x. rewrite lookup_remove. case_bool_decide as Hx.
  - apply list_elem_of_singleton in Hx as ->. apply lookup_delete_eq.
  - apply lookup_delete_ne. set_solver.
Qed.

Lemma remove_perm a b h : a ≡ₚ b -> remove a h = remove b h.
Proof. intros E. apply map_eq. intros x. rewrite !lookup_remove. repeat case_bool_decide; try done; by rewrite E in *. Qed.

(** ** Who owns what *)

(** The blocks of strings, of which some may be null. *)
Definition blocks (ss : list Z) : list Z := List.filter (fun p => negb (p =? 0)) ss.

Definition live (h : heap) (p : Z) : Prop := is_Some (h !! p).

Inductive chain (h : heap) (k : nat) : Z -> list Z -> Prop :=
| chain_end : chain h k 0 []
| chain_node p next ss bs : p <> 0 -> h !! p = Some (next :: ss) -> length ss = k -> Forall (live h) (blocks ss) ->
    chain h k next bs -> chain h k p (p :: blocks ss ++ bs).

(** Only the blocks of a chain matter. *)
Definition same_at (bs : list Z) (h h' : heap) : Prop := forall x, x ∈ bs -> h' !! x = h !! x.

Lemma live_frame bs h h' : Forall (live h) bs -> same_at bs h h' -> Forall (live h') bs.
Proof. rewrite !Forall_forall. intros Hl Hs x Hx. unfold live. rewrite Hs by by apply list_elem_of_In. by apply Hl. Qed.

Lemma chain_frame h h' k p bs : chain h k p bs -> same_at bs h h' -> chain h' k p bs.
Proof.
  induction 1 as [|p next ss bs Hp Hh Hk Hl _ IH]; intros Hs; [constructor|]. econstructor; [done| |done| |].
  - rewrite Hs; [exact Hh|left].
  - apply (live_frame _ h); [done|]. intros x Hx. apply Hs. set_solver.
  - apply IH. intros x Hx. apply Hs. set_solver.
Qed.

Lemma same_at_remove bs cs h : (forall x, x ∈ bs -> x ∉ cs) -> same_at bs h (remove cs h).
Proof. intros Hd x Hx. rewrite lookup_remove, bool_decide_eq_false_2; [done|by apply Hd]. Qed.

Lemma blocks_elem ss x : x ∈ blocks ss <-> x ∈ ss /\ x <> 0.
Proof. unfold blocks. rewrite !list_elem_of_In, filter_In, negb_true_iff, Z.eqb_neq. done. Qed.

(** ** Freeing the strings of a node *)

(** Both ways to free a string: the node may keep the pointer or not. *)
Definition frees (f : Z -> nat -> hp unit) : Prop := forall p i fs v h,
  h !! p = Some fs -> fs !! i = Some v -> v <> p -> (v <> 0 -> live h v) ->
  exists fs', length fs' = length fs /\ (forall j, j <> i -> fs' !! j = fs !! j) /\
    f p i h = (Ok tt, <[p := fs']> (remove (blocks [v]) h)).

Lemma free_ok p h : p <> 0 -> live h p -> free p h = (Ok tt, remove [p] h).
Proof.
  intros Hp Hl. unfold free. rewrite (proj2 (Z.eqb_neq _ _)) by done. rewrite bool_decide_eq_true_2 by done. by rewrite delete_remove.
Qed.

Lemma free_null h : free 0 h = (Ok tt, h).
Proof. done. Qed.

Lemma free_any p h : (p <> 0 -> live h p) -> free p h = (Ok tt, remove (blocks [p]) h).
Proof.
  intros Hl. unfold blocks. cbn [List.filter]. destruct (Z.eqb_spec p 0) as [->|Hp]; cbn [negb]; [by rewrite remove_nil|].
  by apply free_ok; auto.
Qed.

Lemma field_ok p i fs v h : h !! p = Some fs -> fs !! i = Some v -> field p i h = (Ok v, h).
Proof. intros E Ev. unfold field. rewrite E. cbn. by rewrite Ev. Qed.

Lemma kept_block p v h fs : h !! p = Some fs -> v <> p -> remove (blocks [v]) h !! p = Some fs.
Proof.
  intros E Hne. rewrite lookup_remove, bool_decide_eq_false_2; [done|]. rewrite blocks_elem, list_elem_of_singleton. by intros [-> _].
Qed.

Lemma free_field_ok p i fs v h : h !! p = Some fs -> fs !! i = Some v -> (v <> 0 -> live h v) ->
  free_field p i h = (Ok tt, remove (blocks [v]) h).
Proof. intros E Ev Hl. unfold free_field. by rewrite (bind_ok _ _ _ _ _ (field_ok p i fs v h E Ev)), free_any. Qed.

Lemma free_field_frees : frees free_field.
Proof.
  intros p i fs v h E Ev Hne Hl. exists fs. split_and!; [done..|].
  rewrite (free_field_ok p i fs v h E Ev Hl).
  by rewrite insert_id by by apply kept_block.
Qed.

Lemma nullify_frees : frees FREE_AND_NULLIFY.
Proof.
  intros p i fs v h E Ev Hne Hl. unfold FREE_AND_NULLIFY. rewrite (bind_ok _ _ _ _ _ (field_ok p i fs v h E Ev)).
  destruct (Z.eqb_spec v 0) as [->|Hv]; cbn [negb].
  - exists fs. split_and!; [done..|]. change (blocks [0]) with (@nil Z). by rewrite remove_nil, insert_id.
  - exists (<[i := 0]> fs). split_and!; [apply length_insert|intros j Hj; by rewrite list_lookup_insert_ne|].
    rewrite (bind_ok _ _ _ _ _ (free_any v h Hl)). unfold set_field. by rewrite (kept_block p v h fs E Hne).
Qed.

Lemma blocks_cons v ss : blocks (v :: ss) = blocks [v] ++ blocks ss.
Proof. unfold blocks. cbn [List.filter]. by destruct (negb _). Qed.

(** All strings from field [i]: they are gone, the other fields of the node are
    the same. *)
Lemma each_string_ok f p i k fs h : frees f -> p <> 0 -> h !! p = Some fs -> length fs = (i + k)%nat ->
  base.NoDup (p :: blocks (drop i fs)) -> Forall (live h) (blocks (drop i fs)) ->
  exists fs', (forall j, (j < i)%nat -> fs' !! j = fs !! j) /\
    each_string f p i k h = (Ok tt, <[p := fs']> (remove (blocks (drop i fs)) h)).
Proof.
  intros Hf Hp. revert i fs h. induction k as [|k IH]; intros i fs h E Hlen Hnd Hl; cbn [each_string].
  { exists fs. split; [done|]. rewrite drop_ge by lia. change (blocks []) with (@nil Z). by rewrite remove_nil, insert_id. }
  destruct (lookup_lt_is_Some_2 fs i ltac:(lia)) as [v Ev].
  rewrite (drop_S _ v i Ev), blocks_cons in *. apply Forall_app in Hl as [Hlv Hl].
  apply list.NoDup_cons in Hnd as [Hnp Hnd]. apply list.NoDup_app in Hnd as (_ & Hdis & Hnd).
  assert (Hin : v <> 0 -> v ∈ blocks [v]) by (intros; apply blocks_elem; set_solver).
  destruct (Hf p i fs v h E Ev) as (fs1 & Hlen1 & Hkeep & Hrun).
  { intros ->. apply Hnp, elem_of_app. auto. }
  { intros Hv. rewrite Forall_forall in Hlv. by apply Hlv, list_elem_of_In, Hin. }
  assert (Hdrop : drop (S i) fs1 = drop (S i) fs) by (apply list_eq; intros j; rewrite !lookup_drop; apply Hkeep; lia).
  rewrite (bind_ok _ _ _ _ _ Hrun).
  destruct (IH (S i) fs1 (<[p := fs1]> (remove (blocks [v]) h))) as (fs2 & Hkeep2 & Hrun2).
  - apply lookup_insert_eq.
  - lia.
  - rewrite Hdrop. apply list.NoDup_cons. split; [set_solver|done].
  - rewrite Hdrop. apply (live_frame _ h); [done|]. intros x Hx. rewrite lookup_insert_ne by set_solver.
    apply same_at_remove with (blocks (drop (S i) fs)); [set_solver|done].
  - exists fs2. split; [intros j Hj; rewrite Hkeep2, Hkeep by lia; done|]. rewrite Hrun2, Hdrop, remove_app. f_equal.
    apply map_eq. intros x. destruct (decide (x = p)) as [->|Hx]; [by rewrite !lookup_insert_eq|].
    rewrite !lookup_insert_ne, !lookup_remove, lookup_insert_ne, lookup_remove by done. done.
Qed.

(** ** Freeing a chain *)

(** Two heaps of the same blocks, without those that were freed. *)
Ltac same_heap p :=
  let x := fresh "x" in
  apply map_eq; intros x; destruct (decide (x = p)) as [->|?];
  repeat first [rewrite lookup_remove | rewrite lookup_insert_eq | rewrite lookup_insert_ne by done];
  repeat case_bool_decide; try done; exfalso;
  rewrite ?elem_of_nil, ?elem_of_cons, ?elem_of_app, ?elem_of_nil in *; intuition congruence.

(** A chain without repetitions, from its first node. *)
Lemma nodup_node p (ss bs : list Z) : base.NoDup (p :: blocks ss ++ bs) ->
  base.NoDup (p :: blocks ss) /\ base.NoDup bs /\ (p ∉ bs) /\ (forall x, x ∈ bs -> x ∉ (p :: blocks ss)).
Proof.
  intros [Hp Hnd]%list.NoDup_cons. apply list.NoDup_app in Hnd as (Hss & Hdis & Hbs). rewrite elem_of_app in Hp.
  split_and!; [apply list.NoDup_cons; tauto|done|tauto|]. intros x Hx Hin. apply elem_of_cons in Hin as [->|Hs]; [tauto|]. by apply (Hdis x Hs).
Qed.

(** The first node of a chain, when its strings and the node itself are freed. *)
Lemma free_node p fs bs h : p <> 0 -> live h p -> free p (<[p := fs]> (remove bs h)) = (Ok tt, remove (p :: bs) h).
Proof.
  intros Hp Hl. rewrite free_ok; [f_equal; same_heap p|done|]. unfold live. rewrite lookup_insert_eq. by eexists.
Qed.

Lemma chain_rest k p ss bs q h : chain h k q bs -> (forall x, x ∈ bs -> x ∉ (p :: blocks ss)) -> chain (remove (p :: blocks ss) h) k q bs.
Proof. intros Hc Hd. apply (chain_frame h); [done|]. by apply same_at_remove. Qed.

Lemma remove_node p ss bs h : remove bs (remove (p :: blocks ss) h) = remove (p :: blocks ss ++ bs) h.
Proof. by rewrite <- remove_app. Qed.

Section chains.
Variable f : Z -> nat -> hp unit.
Hypothesis f_frees : frees f.
Variable k : nat.

Lemma strings_of p next ss h : p <> 0 -> h !! p = Some (next :: ss) -> length ss = k -> Forall (live h) (blocks ss) ->
  base.NoDup (p :: blocks ss) ->
  exists fs', each_string f p 1 k h = (Ok tt, <[p := fs']> (remove (blocks ss) h)) /\ fs' !! 0%nat = Some next.
Proof using f_frees.
  intros Hp E Hk Hl Hnd. destruct (each_string_ok f p 1 k (next :: ss) h) as (fs' & Hkeep & Hrun); try done.
  { cbn [length]. lia. }
  exists fs'. split; [exact Hrun|]. by rewrite Hkeep by lia.
Qed.

Lemma loop_next_first_ok fuel p bs h : chain h k p bs -> base.NoDup bs -> (length bs < fuel)%nat ->
  loop_next_first f k fuel p h = (Ok tt, remove bs h).
Proof using f_frees.
  revert p bs h. induction fuel as [|fuel IH]; intros p bs h Hc Hnd Hf; [lia|]. cbn [loop_next_first].
  destruct Hc as [|p next ss bs Hp E Hk Hl Hc]; [done|]. rewrite (proj2 (Z.eqb_neq p 0)) by done.
  apply nodup_node in Hnd as (Hns & Hnb & Hpb & Hd). rewrite (bind_ok _ _ _ _ _ (field_ok p 0 _ next h E eq_refl)).
  destruct (strings_of p next ss h) as (fs' & Hrun & _); try done. rewrite (bind_ok _ _ _ _ _ Hrun).
  rewrite (bind_ok _ _ _ _ _ (free_node p fs' (blocks ss) h Hp ltac:(by eexists))).
  rewrite (IH next bs); [by rewrite remove_node|by apply chain_rest|done|].
  cbn [length] in Hf. rewrite length_app in Hf. lia.
Qed.

Lemma loop_strings_first_ok fuel p bs h : chain h k p bs -> base.NoDup bs -> (length bs < fuel)%nat ->
  loop_strings_first f k fuel p h = (Ok tt, remove bs h).
Proof using f_frees.
  revert p bs h. induction fuel as [|fuel IH]; intros p bs h Hc Hnd Hf; [lia|]. cbn [loop_strings_first].
  destruct Hc as [|p next ss bs Hp E Hk Hl Hc]; [done|]. rewrite (proj2 (Z.eqb_neq p 0)) by done.
  apply nodup_node in Hnd as (Hns & Hnb & Hpb & Hd).
  destruct (strings_of p next ss h) as (fs' & Hrun & Hnext); try done. rewrite (bind_ok _ _ _ _ _ Hrun).
  rewrite (bind_ok _ _ _ _ _ (field_ok p 0 fs' next _ (lookup_insert_eq _ _ _) Hnext)).
  rewrite (bind_ok _ _ _ _ _ (free_node p fs' (blocks ss) h Hp ltac:(by eexists))).
  rewrite (IH next bs); [by rewrite remove_node|by apply chain_rest|done|].
  cbn [length] in Hf. rewrite length_app in Hf. lia.
Qed.

(** What a block with strings and a chain owns. *)
Definition holder (h : heap) (kc : nat) (p : Z) (bs : list Z) : Prop :=
  (p = 0 /\ bs = []) \/
  exists head ss cs, p <> 0 /\ h !! p = Some (head :: ss) /\ length ss = k /\ Forall (live h) (blocks ss) /\
    chain h kc head cs /\ bs = p :: blocks ss ++ cs.

Lemma holder_ok inner kc p bs h : holder h kc p bs -> base.NoDup bs ->
  (forall q cs h', (length cs < length bs)%nat -> chain h' kc q cs -> base.NoDup cs -> inner q h' = (Ok tt, remove cs h')) ->
  release_holder f k inner p h = (Ok tt, remove bs h).
Proof using f_frees.
  intros [[-> ->]|(head & ss & cs & Hp & E & Hk & Hl & Hc & ->)] Hnd Hinner; [done|].
  unfold release_holder. rewrite (proj2 (Z.eqb_neq p 0)) by done.
  apply nodup_node in Hnd as (Hns & Hnb & Hpb & Hd).
  destruct (strings_of p head ss h) as (fs' & Hrun & Hhead); try done. rewrite (bind_ok _ _ _ _ _ Hrun).
  rewrite (bind_ok _ _ _ _ _ (field_ok p 0 fs' head _ (lookup_insert_eq _ _ _) Hhead)).
  assert (Hrest : chain (<[p := fs']> (remove (blocks ss) h)) kc head cs).
  { apply (chain_frame h); [done|]. intros x Hx. rewrite lookup_insert_ne by by intros ->.
    apply (same_at_remove cs); [|done]. intros y Hy Hs. apply (Hd y Hy). by right. }
  rewrite (bind_ok _ _ _ _ _ (Hinner head cs _ ltac:(cbn [length]; rewrite length_app; lia) Hrest Hnb)).
  rewrite free_ok; [|done|].
  - f_equal. same_heap p.
  - unfold live. rewrite lookup_remove, bool_decide_eq_false_2, lookup_insert_eq by done. by eexists.
Qed.

Lemma recurse_strings_first_ok fuel p bs h : chain h k p bs -> base.NoDup bs -> (length bs < fuel)%nat ->
  recurse_strings_first f k fuel p h = (Ok tt, remove bs h).
Proof using f_frees.
  revert p bs h. induction fuel as [|fuel IH]; intros p bs h Hc Hnd Hf; [lia|]. cbn [recurse_strings_first].
  apply (holder_ok _ k); [|done|].
  - destruct Hc as [|p next ss bs]; [by left|right]. by exists next, ss, bs.
  - intros q cs h' Hlt Hq Hndq. apply IH; [done..|lia].
Qed.

Lemma recurse_next_first_ok fuel p bs h : chain h k p bs -> base.NoDup bs -> (length bs < fuel)%nat ->
  recurse_next_first f k fuel p h = (Ok tt, remove bs h).
Proof using f_frees.
  revert p bs h. induction fuel as [|fuel IH]; intros p bs h Hc Hnd Hf; [lia|]. cbn [recurse_next_first].
  destruct Hc as [|p next ss bs Hp E Hk Hl Hc]; [done|]. rewrite (proj2 (Z.eqb_neq p 0)) by done.
  apply nodup_node in Hnd as (Hns & Hnb & Hpb & Hd). rewrite (bind_ok _ _ _ _ _ (field_ok p 0 _ next h E eq_refl)).
  rewrite (bind_ok _ _ _ _ _ (IH next bs _ Hc Hnb ltac:(cbn [length] in Hf; rewrite length_app in Hf; lia))).
  assert (Hsame : same_at (p :: blocks ss) h (remove bs h)).
  { apply same_at_remove. intros x Hx Hb. by apply (Hd x Hb). }
  destruct (strings_of p next ss (remove bs h)) as (fs' & Hrun & _); try done.
  { rewrite Hsame; [done|left]. }
  { apply (live_frame _ h); [done|]. intros x Hx. apply Hsame. by right. }
  rewrite (bind_ok _ _ _ _ _ Hrun), free_node; [|done|].
  - f_equal. rewrite <- remove_app. apply remove_perm. rewrite Permutation_app_comm. done.
  - unfold live. rewrite Hsame by left. by eexists.
Qed.
End chains.

(** ** The data of the tool and of the library *)

(** [F] releases the chains with [k] strings of a node that have less than [n] blocks. *)
Definition releases (n k : nat) (F : Z -> hp unit) : Prop := forall p bs h,
  chain h k p bs -> base.NoDup bs -> (length bs < n)%nat -> F p h = (Ok tt, remove bs h).

Section data.
Variable fuel : nat.

Lemma threads_released : releases fuel 0 (release_ulp_thread fuel).
Proof. intros p bs h. apply loop_next_first_ok, nullify_frees. Qed.
Lemma dynobjs_released : releases fuel 2 (release_ulp_dynobj fuel).
Proof. intros p bs h. apply loop_next_first_ok, nullify_frees. Qed.
Lemma results_released : releases fuel 1 (release_trigger_results fuel).
Proof. intros p bs h. apply recurse_next_first_ok, free_field_frees. Qed.
Lemma units_released : releases fuel 2 (release_ulp_unit fuel).
Proof. intros p bs h. apply recurse_strings_first_ok, nullify_frees. Qed.
Lemma dependencies_released : releases fuel 0 (release_ulp_dependency fuel).
Proof. intros p bs h. apply recurse_next_first_ok, nullify_frees. Qed.
Lemma references_released : releases fuel 2 (release_ulp_reference fuel).
Proof. intros p bs h. apply recurse_next_first_ok, nullify_frees. Qed.
Lemma applied_patches_released : releases fuel 2 (release_ulp_applied_patch fuel).
Proof. intros p bs h. apply recurse_next_first_ok, free_field_frees. Qed.
Lemma symbols_released : releases fuel 1 (release_symbol fuel).
Proof. intros p bs h. apply loop_strings_first_ok, nullify_frees. Qed.

(** What a list of processes owns. *)
Inductive processes (h : heap) : Z -> list Z -> Prop :=
| no_process : processes h 0 []
| a_process p next threads main targets patches results b1 b2 b3 b4 b5 bs :
    p <> 0 -> h !! p = Some [next; threads; main; targets; patches; results] ->
    chain h 0 threads b1 -> chain h 2 main b2 -> chain h 2 targets b3 -> chain h 2 patches b4 -> chain h 1 results b5 ->
    processes h next bs ->
    processes h p (p :: b1 ++ b2 ++ b3 ++ b4 ++ b5 ++ bs).

Lemma processes_frame h h' p bs : processes h p bs -> same_at bs h h' -> processes h' p bs.
Proof.
  induction 1 as [|p next threads main targets patches results b1 b2 b3 b4 b5 bs Hp E H1 H2 H3 H4 H5 _ IH]; intros Hs; [constructor|].
  assert (Hsub : forall cs, (forall x, x ∈ cs -> x ∈ b1 ++ b2 ++ b3 ++ b4 ++ b5 ++ bs) -> same_at cs h h').
  { intros cs Hc x Hx. apply Hs. right. by apply Hc. }
  apply (a_process _ _ next threads main targets patches results); [done|rewrite Hs; [exact E|left]| | | | | |];
    [eapply chain_frame; [eassumption|]; apply Hsub; intros x Hx; rewrite !elem_of_app; tauto..|].
  apply IH, Hsub. intros x Hx. rewrite !elem_of_app. tauto.
Qed.

(** A field that holds a chain, after [a] was freed. *)
Lemma field_released {A} k F p i fs q a bs h (rest : hp A) : releases fuel k F ->
  h !! p = Some fs -> fs !! i = Some q -> chain h k q bs -> (p ∉ a) -> (forall x, x ∈ bs -> (x ∉ a)) -> base.NoDup bs ->
  (length bs < fuel)%nat ->
  (let! q := field p i in F q;;; rest) (remove a h) = rest (remove (a ++ bs) h).
Proof.
  intros HF E Eq Hc Hp Hd Hnd Hf.
  assert (E' : remove a h !! p = Some fs) by by rewrite lookup_remove, bool_decide_eq_false_2.
  rewrite (bind_ok _ _ _ _ _ (field_ok p i fs q _ E' Eq)).
  rewrite (bind_ok _ _ _ _ _ (HF q bs (remove a h) (chain_frame h _ k q bs Hc (same_at_remove bs a h Hd)) Hnd Hf)).
  by rewrite remove_app.
Qed.
End data.

(** Lists without a common element. *)
Ltac distinct :=
  first [lia | assumption | intros ?x ?Hx ?Hin | intros ?Hin];
  repeat match goal with
  | H : _ ∈ _ ++ _ |- _ => apply elem_of_app in H as [H|H]
  | H : _ ∈ [] |- _ => by apply elem_of_nil in H
  | H : _ ∈ [_] |- _ => apply list_elem_of_singleton in H as ->
  end;
  first [tauto | match goal with
  | Hx : ?x ∈ ?a, Hd : forall x, x ∈ ?a -> (x ∉ _), Hy : ?x ∈ _ |- _ => apply (Hd x Hx); rewrite !elem_of_app; tauto
  | Hx : ?x ∈ ?a, Hd : forall x, x ∈ ?a -> (x ∉ _), Hy : ?x ∈ _ |- _ => by apply (Hd x Hx)
  end].

(** The list of processes: every block of it is freed, once, and no other block is
    touched; nothing is read after it was freed. *)
Theorem release_ulp_process_spec fuel p bs h
    (Howned : processes h p bs /\ base.NoDup bs)
    (Hfuel : (length bs < fuel)%nat) :
  release_ulp_process fuel p h = (Ok tt, remove bs h).
Proof.
  destruct Howned as [Hp Hnd]. unfold release_ulp_process.
  enough (Hn : forall n p bs h, processes h p bs -> base.NoDup bs -> (length bs < n)%nat -> (length bs < fuel)%nat ->
    release_ulp_process_loop fuel n p h = (Ok tt, remove bs h)) by auto. clear.
  induction n as [|n IH]; intros p bs h Hp Hnd Hn Hf; [lia|]. cbn [release_ulp_process_loop].
  destruct Hp as [|p next threads main targets patches results b1 b2 b3 b4 b5 bs Hp E H1 H2 H3 H4 H5 Hrest]; [done|].
  rewrite (proj2 (Z.eqb_neq p 0)) by done. rewrite (bind_ok _ _ _ _ _ (field_ok p 0 _ next h E eq_refl)).
  cbn [length] in Hn, Hf. rewrite !length_app in Hn, Hf.
  apply list.NoDup_cons in Hnd as [Hnp Hnd]. rewrite !elem_of_app in Hnp.
  apply list.NoDup_app in Hnd as (N1 & D1 & Hnd). apply list.NoDup_app in Hnd as (N2 & D2 & Hnd).
  apply list.NoDup_app in Hnd as (N3 & D3 & Hnd). apply list.NoDup_app in Hnd as (N4 & D4 & Hnd).
  apply list.NoDup_app in Hnd as (N5 & D5 & Hnd).
  rewrite <- (remove_nil h) at 1.
  rewrite (field_released fuel _ _ p 1 _ _ _ _ h _ (threads_released fuel) E eq_refl H1) by distinct.
  rewrite (field_released fuel _ _ p 2 _ _ _ _ h _ (dynobjs_released fuel) E eq_refl H2) by distinct.
  rewrite (field_released fuel _ _ p 3 _ _ _ _ h _ (dynobjs_released fuel) E eq_refl H3) by distinct.
  rewrite (field_released fuel _ _ p 4 _ _ _ _ h _ (dynobjs_released fuel) E eq_refl H4) by distinct.
  rewrite (field_released fuel _ _ p 5 _ _ _ _ h _ (results_released fuel) E eq_refl H5) by distinct.
  set (a := (((([] ++ b1) ++ b2) ++ b3) ++ b4) ++ b5).
  assert (Hpa : p ∉ a) by (unfold a; distinct).
  assert (Hla : live (remove a h) p) by (unfold live; rewrite lookup_remove, bool_decide_eq_false_2 by done; by eexists).
  rewrite (bind_ok _ _ _ _ _ (free_ok p (remove a h) Hp Hla)), <- remove_app.
  rewrite (IH next bs); [| |done|lia..].
  - f_equal. rewrite <- remove_app. apply remove_perm. unfold a. rewrite !app_nil_l, <- !app_assoc.
    change ([p] ++ bs) with (p :: bs). by rewrite <- !Permutation_middle.
  - apply (processes_frame h); [done|]. apply same_at_remove. unfold a. distinct.
Qed.

(** ** Metadata and libraries *)

Lemma step {B} (m : hp unit) (rest : hp B) a h : m h = (Ok tt, remove a h) -> (m;;; rest) h = rest (remove a h).
Proof. intros E. by rewrite (bind_ok _ _ _ _ _ E). Qed.

Lemma holder_frame k kc h h' p bs : holder k h kc p bs -> same_at bs h h' -> holder k h' kc p bs.
Proof.
  intros [[-> ->]|(head & ss & cs & Hp & E & Hk & Hl & Hc & ->)] Hs; [by left|right]. exists head, ss, cs.
  split_and!; [done|rewrite Hs; [done|left]|done| | |done].
  - apply (live_frame _ h); [done|]. intros x Hx. apply Hs. right. apply elem_of_app. by left.
  - apply (chain_frame h); [done|]. intros x Hx. apply Hs. right. apply elem_of_app. by right.
Qed.

Lemma object_released fuel p bs h : holder 2 h 2 p bs -> base.NoDup bs -> (length bs <= fuel)%nat ->
  release_ulp_object fuel p h = (Ok tt, remove bs h).
Proof.
  intros Hh Hnd Hf. apply (holder_ok _ nullify_frees 2 _ 2); [done..|]. intros q cs h' Hlt Hc Hn. apply units_released; [done..|lia].
Qed.

(** A library of the packer: [release_so_info] frees it with all its symbols. *)
Theorem release_so_info_spec fuel p bs h
    (Howned : holder 1 h 1 p bs /\ base.NoDup bs)
    (Hfuel : (length bs <= fuel)%nat) :
  release_so_info fuel p h = (Ok tt, remove bs h).
Proof.
  destruct Howned as [Hh Hnd]. apply (holder_ok _ nullify_frees 1 _ 1); [done..|].
  intros q cs h' Hlt Hc Hn. apply symbols_released; [done..|lia].
Qed.

(** What metadata owns: the two strings, the object with its units, the dependencies and the
    references. *)
Record owns (h : heap) (meta : metadata_ptrs) (bo bd br : list Z) : Prop := {
  own_so : Forall (live h) (blocks [m_so_filename meta]);
  own_comments : Forall (live h) (blocks [m_comments meta]);
  own_object : holder 2 h 2 (m_objs meta) bo;
  own_deps : chain h 0 (m_deps meta) bd;
  own_refs : chain h 2 (m_refs meta) br;
  own_distinct : base.NoDup (blocks [m_so_filename meta] ++ blocks [m_comments meta] ++ bo ++ bd ++ br) }.

Lemma live_block p h : Forall (live h) (blocks [p]) -> p <> 0 -> live h p.
Proof. rewrite Forall_forall. intros Hl Hp. apply Hl, list_elem_of_In, blocks_elem. split; [left|done]. Qed.

(** The tool frees everything the metadata owns but the comments, which it never has,
    and clears the structure. *)
Theorem release_ulp_global_metadata_spec fuel meta bo bd br h
    (Howned : owns h meta bo bd br)
    (Hfuel : (length bo < fuel)%nat /\ (length bd < fuel)%nat /\ (length br < fuel)%nat) :
  release_ulp_global_metadata fuel meta h =
    (Ok {| m_so_filename := 0; m_comments := 0; m_objs := 0; m_deps := 0; m_refs := 0 |},
     remove (blocks [m_so_filename meta] ++ bo ++ bd ++ br) h).
Proof.
  destruct Howned as [Hso Hcom Ho Hd Hr Hnd], Hfuel as (F1 & F2 & F3).
  apply list.NoDup_app in Hnd as (_ & D1 & Hnd). apply list.NoDup_app in Hnd as (_ & _ & Hnd).
  apply list.NoDup_app in Hnd as (N3 & D3 & Hnd). apply list.NoDup_app in Hnd as (N4 & D4 & N5).
  unfold release_ulp_global_metadata. rewrite (step _ _ _ _ (free_any (m_so_filename meta) h (live_block _ _ Hso))).
  rewrite (step _ _ bo) by (apply object_released; [|done|lia]; apply (holder_frame _ _ h); [done|]; apply same_at_remove; distinct).
  rewrite <- remove_app.
  rewrite (step _ _ bd) by (apply dependencies_released; [|done|done]; apply (chain_frame h); [done|]; apply same_at_remove; distinct).
  rewrite <- remove_app.
  rewrite (step _ _ br) by (apply references_released; [|done|done]; apply (chain_frame h); [done|]; apply same_at_remove; distinct).
  by rewrite <- remove_app, <- !app_assoc.
Qed.

(** The object, as [free_metadata] frees it. *)
Lemma freed_object fuel p bs h : holder 2 h 2 p bs -> base.NoDup bs -> (length bs <= fuel)%nat ->
  (if p =? 0 then ret tt
   else
     let! units := field p 0 in
     loop_next_first free_field 2 fuel units;;; free_field p 2;;; free_field p 1;;; free p) h = (Ok tt, remove bs h).
Proof.
  intros [[-> ->]|(units & ss & cs & Hp & E & Hk & Hl & Hc & ->)] Hnd Hf; [done|].
  rewrite (proj2 (Z.eqb_neq p 0)) by done. destruct ss as [|bid [|name [|]]]; try done.
  cbn [length] in Hf. rewrite length_app in Hf.
  rewrite (bind_ok _ _ _ _ _ (field_ok p 0 _ units h E eq_refl)). rewrite (blocks_cons bid [name]) in *.
  rewrite <- app_assoc in Hnd. apply list.NoDup_cons in Hnd as [Hnp Hnd]. rewrite !elem_of_app in Hnp.
  apply list.NoDup_app in Hnd as (_ & D1 & Hnd). apply list.NoDup_app in Hnd as (_ & D2 & N3).
  apply Forall_app in Hl as [Hl1 Hl2].
  rewrite (step _ _ cs) by (apply loop_next_first_ok with (1 := free_field_frees) (2 := Hc); [done|lia]).
  assert (Hsame : forall a, (p ∉ a) -> remove a h !! p = Some [units; bid; name]) by (intros a Ha; by rewrite lookup_remove, bool_decide_eq_false_2).
  assert (Hlive : forall a v, (forall x, x ∈ blocks [v] -> (x ∉ a)) -> Forall (live h) (blocks [v]) -> v <> 0 -> live (remove a h) v).
  { intros a v Hd Hv Hne. apply live_block; [|done]. apply (live_frame _ h); [done|]. by apply same_at_remove. }
  rewrite (step _ _ (blocks [name]))
    by (apply (free_field_ok p 2 [units; bid; name]); [apply Hsame; tauto|done|apply Hlive; [distinct|done]]).
  rewrite <- remove_app.
  rewrite (step _ _ (blocks [bid])) by (apply (free_field_ok p 1 [units; bid; name]); [apply Hsame; distinct|done|apply Hlive; [distinct|done]]).
  rewrite <- remove_app, free_ok, <- remove_app; [|done|eexists; apply Hsame; distinct].
  f_equal. apply remove_perm. change ([p]) with (p :: []). rewrite <- Permutation_middle, app_nil_r. constructor.
  rewrite (Permutation_app_comm (cs ++ _)), (Permutation_app_comm cs), app_assoc. done.
Qed.

(** The library, and the packer: everything is freed but the dependencies of the patch,
    and the structure keeps the addresses of the container's name and of the object. *)
Theorem free_metadata_spec fuel meta bo bd br h
    (Howned : owns h meta bo bd br)
    (Hfuel : (length bo <= fuel)%nat /\ (length br < fuel)%nat) :
  free_metadata fuel meta h =
    (Ok {| m_so_filename := m_so_filename meta; m_comments := 0; m_objs := m_objs meta; m_deps := m_deps meta; m_refs := 0 |},
     remove (blocks [m_so_filename meta] ++ blocks [m_comments meta] ++ br ++ bo) h) /\
  chain (remove (blocks [m_so_filename meta] ++ blocks [m_comments meta] ++ br ++ bo) h) 0 (m_deps meta) bd.
Proof.
  destruct Howned as [Hso Hcom Ho Hd Hr Hnd], Hfuel as (F1 & F2).
  apply list.NoDup_app in Hnd as (_ & D1 & Hnd). apply list.NoDup_app in Hnd as (_ & D2 & Hnd).
  apply list.NoDup_app in Hnd as (N3 & D3 & Hnd). apply list.NoDup_app in Hnd as (N4 & D4 & N5). split.
  - unfold free_metadata. rewrite (step _ _ _ _ (free_any (m_so_filename meta) h (live_block _ _ Hso))).
    rewrite (step _ _ (blocks [m_comments meta])).
    2:{ apply free_any. intros Hne. apply live_block; [|done]. apply (live_frame _ h); [done|]. apply same_at_remove. distinct. }
    rewrite <- remove_app.
    rewrite (step _ _ br).
    2:{ apply loop_strings_first_ok; [apply free_field_frees| |done|done]. apply (chain_frame h); [done|]. apply same_at_remove. distinct. }
    rewrite <- remove_app.
    rewrite (step _ _ bo).
    2:{ apply freed_object; [|done|done]. apply (holder_frame _ _ h); [done|]. apply same_at_remove. distinct. }
    by rewrite <- remove_app, <- !app_assoc.
  - apply (chain_frame h); [done|]. apply same_at_remove. distinct.
Qed.

(** A second call frees the name of the container twice. *)
Theorem free_metadata_twice fuel meta bo bd br h
    (Howned : owns h meta bo bd br)
    (Hfuel : (length bo <= fuel)%nat /\ (length br < fuel)%nat)
    (Hname : m_so_filename meta <> 0) :
  fst ((let! meta := free_metadata fuel meta in free_metadata fuel meta) h) = Ub.
Proof.
  rewrite (bind_ok _ _ _ _ _ (proj1 (free_metadata_spec fuel meta bo bd br h Howned Hfuel))).
  unfold free_metadata, bind at 1, free at 1. cbn [m_so_filename]. rewrite (proj2 (Z.eqb_neq _ _)) by done.
  rewrite bool_decide_eq_false_2; [done|]. rewrite lookup_remove, bool_decide_eq_true_2; [by intros []|].
  apply elem_of_app. left. apply blocks_elem. split; [left|done].
Qed.

(** ** Examples *)

(** A patch with a unit, a dependency and a reference. *)
Definition small_heap : heap :=
  list_to_map [(1, []); (2, [3; 4; 5]); (3, [0; 6; 7]); (4, []); (5, []); (6, []); (7, []); (8, [0]); (9, [0; 10; 11]); (10, []); (11, [])].
Definition small_meta : metadata_ptrs := {| m_so_filename := 1; m_comments := 0; m_objs := 2; m_deps := 8; m_refs := 9 |}.

Lemma small_owns : owns small_heap small_meta [2; 4; 5; 3; 6; 7] [8] [9; 10; 11].
Proof.
  split; [repeat constructor; by eexists|constructor| | | |].
  - right. exists 3, [4; 5], [3; 6; 7]. split_and!; [done..|repeat constructor; by eexists| |done].
    by apply (chain_node _ _ 3 0 [6; 7] []); [..|repeat constructor; by eexists|constructor].
  - by apply (chain_node _ _ 8 0 [] []); [..|constructor|constructor].
  - by apply (chain_node _ _ 9 0 [10; 11] []); [..|repeat constructor; by eexists|constructor].
  - apply (bool_decide_unpack _). by vm_compute.
Qed.

Lemma free_metadata_spec_witness : snd (free_metadata 8 small_meta small_heap) = {[8 := [0]]}.
Proof.
  rewrite (proj1 (free_metadata_spec 8 small_meta _ _ _ small_heap small_owns ltac:(cbn; lia))). by vm_compute.
Defined.

Lemma free_metadata_twice_witness :
  fst ((let! meta := free_metadata 8 small_meta in free_metadata 8 meta) small_heap) = Ub.
Proof. apply (free_metadata_twice 8 small_meta _ _ _ small_heap small_owns); [cbn; lia|done]. Defined.

Lemma release_ulp_global_metadata_spec_witness : snd (release_ulp_global_metadata 8 small_meta small_heap) = ∅.
Proof.
  rewrite (release_ulp_global_metadata_spec 8 small_meta _ _ _ small_heap small_owns ltac:(cbn; lia)). by vm_compute.
Defined.

(** Two processes; libpulp is among the targets and is freed once. *)
Definition two_processes : heap :=
  list_to_map [(1, [2; 3; 0; 4; 0; 5]); (3, [0]); (4, [0; 6; 7]); (6, []); (7, []); (5, [0; 8]); (8, []); (2, [0; 0; 0; 0; 0; 0]); (99, [])].

Lemma release_ulp_process_spec_witness : snd (release_ulp_process 10 1 two_processes) = {[99 := []]}.
Proof.
  rewrite (release_ulp_process_spec 10 1 [1; 3; 4; 6; 7; 5; 8; 2]); [by vm_compute| |cbn; lia].
  split; [|apply (bool_decide_unpack _); by vm_compute].
  apply (a_process _ 1 2 3 0 4 0 5 [3] [] [4; 6; 7] [] [5; 8] [2]); [done|done| |constructor| |constructor| |].
  - by apply (chain_node _ _ 3 0 [] []); [..|constructor|constructor].
  - by apply (chain_node _ _ 4 0 [6; 7] []); [..|repeat constructor; by eexists|constructor].
  - by apply (chain_node _ _ 5 0 [8] []); [..|repeat constructor; by eexists|constructor].
  - apply (a_process _ 2 0 0 0 0 0 0 [] [] [] [] [] []); [done|done|constructor..].
Defined.
