(* ===== verification/Commands.v ===== *)
(** * The commands [check] and [set_patchable] (tools/check.c,
    tools/set_patchable.c)

    Both stop the threads of a process, make its main thread run a routine of
    libpulp, and let the threads go. *)

From stdpp Require Import gmap.
From S2P Require Import Prelude Errors Memory Metadata Interpose InsnQueue Ptrace InsnQueueTool PatchCore Extract Description Critical Tracees Trigger RemoteState.

Open Scope ulp_scope.

Section commands.
Context {K : Type} `{Kernel K}.

Abbreviation crit A := (st (cstate K) Z A).

Variable fuel : nat.
Variable timeout : Z.
Variable calloc_ok : nat -> Z -> bool.
Variable c0 : Z.
Variable calloc_thread : bool.
Variable parse_so_elf : bytes -> option ulp_so_info.

(** ** check *)

(** The patch of the container. An error is the value of [ret] at
    [ulp_process_clean]; there the pointer to the patch is freed, which has no
    value when the extraction did not set it. *)
Definition load_check (container : container_file) : crit ulp_metadata :=
  match extract_ulp_from_so_to_mem (c_section container false) (c_realpath container) (c_path container) None with
  | Ok (livepatch_size, Buffer livepatch) =>
    match parse_metadata_from_mem calloc_ok c0 zero_metadata livepatch livepatch_size with
    | (Ok e, s) | (Err e, s) =>
      if negb (e =? 0) then log "error parsing the metadata file (%s).";;; throw 1
      else ret (ps_ulp s)
    | (Ub, _) => undef
    | (NoFuel, _) => nofuel
    end
  | Ok (_, Null) => log "error extracting .ulp section from %s";;; throw 1
  | Ok (_, Untouched) => undef
  | Err _ => undef
  | Ub => undef
  | NoFuel => nofuel
  end.

(** The threads are stopped, [__ulp_check_applied_patch] is run, and they are let
    go. *)
Definition check_hijacked (opendir : Z) (listing : nat -> list Z * Z) (patch_id : bytes) : crit Z :=
  let! e := hijack_threads fuel opendir calloc_thread listing in
  if e =? ETHRDDETTACH then log "fatal error during live patch application (hijacking).";;; ret (-1)
  else if 0 <? e then log "unable to hijack process.";;; ret (-1)
  else
    let! r := patch_applied fuel timeout patch_id in
    let (check, result) := r in
    (if check =? -1 then log "fatal error during live patch status check (hijacked execution)."
     else if negb (check =? 0) then log "error during live patch status check (hijacked execution)."
     else ret tt);;;
    let! e := restore_threads fuel in
    if negb (e =? 0) then log "fatal error during live patch application (restoring).";;; ret (-1)
    else if negb (check =? 0) then ret (-1)
    else
      match result with
      | None => undef
      | Some result =>
        log (if result =? 0 then "patch not yet applied" else "patch already applied");;; ret result
      end.

(** [init] is [initialize_data_structures], which finds the libraries [libs]. *)
Definition run_check (container : container_file) (process_wildcard : option bytes) (init : crit Z)
    (t : target) : crit Z := code (
  let! u := load_check container in
  (if negb (isnumber process_wildcard) then log "check does not support process wildcard";;; throw (-1) else ret tt);;;
  let! e := init in
  (if negb (e =? 0) then log "error gathering target process information.";;; throw (-1) else ret tt);;;
  let e := check_patch_sanity parse_so_elf u (libraries t) None in
  (if negb (e =? 0) then log "error checking live patch sanity.";;; throw (-1) else ret tt);;;
  let (opendir, listing) := tasks t 0%nat in
  check_hijacked opendir listing (patch_id u)).

(** ** set_patchable *)

Definition run_enable_disable_patching (routine : Z) : crit Z :=
  let! r := run_main fuel timeout routine in
  let (e, context) := r in
  if negb (e =? 0) then ret e else ret (s32 (rax context)).

(** [ret] has no value until the routine was run once. *)
Fixpoint set_patchable_loop (n i : nat) (routine : Z) (t : target) (r : option Z) : crit (option Z) :=
  match n with
  | O => ret r
  | S n =>
    let (opendir, listing) := tasks t i in
    let! e := hijack_threads fuel opendir calloc_thread listing in
    if negb (e =? 0) then log "unable to hijack process with pid: %d.";;; ret r
    else
      let! r := run_enable_disable_patching routine in
      let! e := restore_threads fuel in
      if negb (e =? 0) then log "unable to restore thread in process with pid: %d.";;; ret (Some r)
      else if negb (r =? EAGAIN) then ret (Some r)
      else
        log "enabling/disabling libpulp failed: locks were busy.";;;
        lift (on_kernel (fun k => (tt, usleep 1000 k)));;;
        set_patchable_loop n (S i) routine t (Some r)
  end.

Definition enable_or_disable_patching (libpulp : option libpulp_state) (t : target) (enable : bool) (retries : nat) : crit Z :=
  let! p := gets proc in
  let! state := lift (get_libpulp_error_state_remote fuel (Some (pid p, libpulp))) in
  if ((state =? ENONE) && negb enable) || ((state =? EUSRBLOCKED) && enable) then
    let routine := match libpulp with Some d => enable_disable_patching d | None => 0 end in
    let! r := set_patchable_loop retries 0 routine t None in
    match r with
    | None => undef
    | Some r =>
      log (if ((r =? ENONE) && enable) || ((r =? EUSRBLOCKED) && negb enable)
           then "Process %s (pid: %d): livepatching is now %s."
           else "Unable to change status of process %d: %s (libpulp in error state).");;;
      ret ENONE
    end
  else ret state.

(** [strcasecmp (s, "enable") == 0] *)
Definition tolower (c : Z) : Z := if (65 <=? c) && (c <=? 90) then c + 32 else c.

(** What the argument asks for. *)
Definition set_patchable_arg (arg : bytes) : option bool :=
  if byte_eqb (map tolower (cstr arg)) (str "enable") then Some true
  else if byte_eqb (cstr arg) (str "disable") then Some false
  else None.

(** The processes one after the other, on the same machine. *)
Fixpoint set_patchable_processes (ps : list (ulp_process * option libpulp_state * target)) (enable : bool) (retries : nat) :
    st (tool K) Z unit :=
  match ps with
  | [] => ret tt
  | (p, d, t) :: ps => fun w =>
    match enable_or_disable_patching d t enable retries {| proc := p; tl := w |} with
    | (Ok _, s) => set_patchable_processes ps enable retries (tl s)
    | (Err e, s) => (Err e, tl s)
    | (Ub, s) => (Ub, tl s)
    | (NoFuel, s) => (NoFuel, tl s)
    end
  end.

Definition run_set_patchable (arg : bytes) (ps : list (ulp_process * option libpulp_state * target)) (retries : nat) :
    st (tool K) Z Z :=
  match set_patchable_arg arg with
  | None => t_log "Empty argument. Expected: 'enable' or 'disable'";;; ret 1
  | Some enable => set_patchable_processes ps enable retries;;; ret 0
  end.
End commands.

(** ** What the commands leave *)

Ltac ckeep :=
  repeat first
    [ simple apply ckeeps_ret | simple apply ckeeps_undef | simple apply ckeeps_gets | simple apply ckeeps_log
    | simple apply ckeeps_bind; [|intros] | progress cbv zeta | case_goal ].

Section laws.
Context {K : Type} `{TraceeLaws K}.
Variable fuel : nat.
Variable timeout : Z.
Variable calloc_ok : nat -> Z -> bool.
Variable c0 : Z.
Variable calloc_thread : bool.
Variable parse_so_elf : bytes -> option ulp_so_info.

Lemma ckeeps_set_id id : ckeeps (set_id_buffer fuel id : st (cstate K) Z Z).
Proof. unfold set_id_buffer. ckeep. apply ckeeps_lift, keeps_write. Qed.

Lemma ckeeps_check id : ckeeps (patch_applied fuel timeout id : st (cstate K) Z (Z * option Z)).
Proof. unfold patch_applied. ckeep; auto using ckeeps_set_id, ckeeps_main. Qed.

Lemma ckeeps_routine routine : ckeeps (run_enable_disable_patching fuel timeout routine : st (cstate K) Z Z).
Proof. unfold run_enable_disable_patching. ckeep. apply ckeeps_main. Qed.

(** A routine run between stopping and letting go. *)
Lemma section_idle opendir listing s s1 s2 e s3 : idle s ->
  hijack_threads fuel opendir calloc_thread listing s = (Ok 0, s1) -> proc s2 = proc s1 ->
  restore_threads fuel s2 = (Ok e, s3) -> idle s3 /\ pid (proc s3) = pid (proc s).
Proof.
  intros Hi E1 E2 E3. destruct (hijack_success _ _ _ _ _ _ Hi E1) as (_ & (_ & _ & Hmain) & _ & Hp & _).
  destruct (restore_idle fuel s2 e s3) as (Hi3 & Hp3 & _); [|done|].
  - rewrite E2. destruct (main_thread (proc s1)); [|done]. intros Hx. rewrite Hx in Hmain. by destruct Hmain as [[] _].
  - split; [done|]. by rewrite Hp3, E2.
Qed.

Lemma log_idle fmt (s s' : cstate K) : idle s -> log fmt s = (Ok tt, s') -> idle s' /\ pid (proc s') = pid (proc s).
Proof. intros Hi E. apply ckeeps_ok in E; [|apply ckeeps_log]. unfold idle. by rewrite E. Qed.







(** ** set_patchable *)

Lemma usleep_idle (s s' : cstate K) : idle s ->
  lift (on_kernel (fun k => (tt, usleep 1000 k))) s = (Ok tt, s') -> idle s' /\ pid (proc s') = pid (proc s).
Proof. intros Hi E. apply ckeeps_ok in E; [|apply ckeeps_usleep]. unfold idle. by rewrite E. Qed.

(** Every turn of the loop leaves the process as it was. *)
Lemma set_patchable_loop_idle n : forall i routine t r0 s r s', idle s ->
  (forall j, 0 <= fst (tasks t j)) ->
  set_patchable_loop fuel timeout calloc_thread n i routine t r0 s = (Ok r, s') ->
  idle s' /\ pid (proc s') = pid (proc s).
Proof.
  induction n as [|n IH]; intros i routine t r0 s r s' Hi Ht Hs; cbn [set_patchable_loop] in Hs;
    [by injection Hs as _ <-|].
  destruct (tasks t i) as [opendir listing] eqn:Et. apply bind_ok_inv in Hs as (e & s1 & E1 & Hs).
  destruct (Z.eqb_spec e 0) as [->|Hne]; cbn [negb] in Hs.
  - apply bind_ok_inv in Hs as (a & s2 & E2 & Hs). apply bind_ok_inv in Hs as (e & s3 & E3 & Hs).
    apply ckeeps_ok in E2 as P2; [|apply ckeeps_routine].
    destruct (section_idle _ _ _ _ _ _ _ Hi E1 P2 E3) as [Hi3 Hp3].
    destruct (e =? 0); cbn [negb] in Hs.
    + destruct (a =? EAGAIN); cbn [negb] in Hs; [|by injection Hs as _ <-].
      apply bind_ok_inv in Hs as ([] & s4 & E4 & Hs). apply bind_ok_inv in Hs as ([] & s5 & E5 & Hs).
      destruct (log_idle _ _ _ Hi3 E4) as [Hi4 Hp4]. destruct (usleep_idle _ _ Hi4 E5) as [Hi5 Hp5].
      destruct (IH _ _ _ _ _ _ _ Hi5 Ht Hs) as [Hi6 Hp6]. split; [done|congruence].
    + apply bind_ok_inv in Hs as ([] & s4 & E4 & [= _ <-]). destruct (log_idle _ _ _ Hi3 E4) as [Hi4 Hp4].
      split; [done|congruence].
  - destruct (hijack_failed _ _ _ _ _ _ _ Hi Hne E1) as (Hi1 & Hp1 & _).
    apply bind_ok_inv in Hs as ([] & s2 & E2 & [= _ <-]). destruct (log_idle _ _ _ Hi1 E2) as [Hi2 Hp2].
    split; [done|congruence].
Qed.

Lemma remote_error_keeps p : keeps (get_libpulp_error_state_remote fuel p : st (tool K) Z Z).
Proof.
  unfold get_libpulp_error_state_remote. destruct p as [[p [d|]]|]; [|intros R; apply stable_ret..].
  intros R. repeat first [simple apply stable_ret|simple apply stable_log|simple apply keeps_read
    |simple apply stable_bind; [|intros]|case_goal].
Qed.

(** [ulp set_patchable] runs the routine of libpulp only in a process that is
    enabled and shall be disabled, or blocked by the user and shall be enabled;
    otherwise the process is not stopped and its error state is the result. In
    every case no thread is left stopped. *)
Theorem enable_or_disable_safe libpulp t enable retries s r s'
    (Hidle : idle s) (Htasks : forall i, 0 <= fst (tasks t i))
    (Hrun : enable_or_disable_patching fuel timeout calloc_thread libpulp t enable retries s = (Ok r, s')) :
  idle s' /\ pid (proc s') = pid (proc s) /\
  exists state s1, lift (get_libpulp_error_state_remote fuel (Some (pid (proc s), libpulp))) s = (Ok state, s1) /\
    if bool_decide (state = if enable then EUSRBLOCKED else ENONE) then r = ENONE
    else r = state /\ s' = s1.
Proof.
  unfold enable_or_disable_patching in Hrun. apply bind_ok_inv in Hrun as (p & ? & [= <- <-] & Hs).
  apply bind_ok_inv in Hs as (state & s1 & E1 & Hs).
  assert (P1 : proc s1 = proc s) by (by apply ckeeps_ok in E1; [|apply ckeeps_lift, remote_error_keeps]).
  assert (Hi1 : idle s1) by (unfold idle; by rewrite P1).
  assert (Hc : ((state =? ENONE) && negb enable) || ((state =? EUSRBLOCKED) && enable) =
               bool_decide (state = if enable then EUSRBLOCKED else ENONE)).
  { destruct enable; cbn [negb]; rewrite ?andb_false_r, ?andb_true_r, ?orb_false_r; cbn [orb];
      (case_bool_decide as Hb; [by apply Z.eqb_eq|by apply Z.eqb_neq]). }
  rewrite Hc in Hs. clear Hc. case_bool_decide as Hb.
  - apply bind_ok_inv in Hs as (r1 & s2 & E2 & Hs).
    destruct (set_patchable_loop_idle _ _ _ _ _ _ _ _ Hi1 Htasks E2) as [Hi2 Hp2].
    destruct r1 as [r1|]; [|done]. apply bind_ok_inv in Hs as ([] & s3 & E3 & [= <- <-]).
    destruct (log_idle _ _ _ Hi2 E3) as [Hi3 Hp3]. split_and!; [done|congruence|]. exists state, s1. split; [done|].
    by rewrite bool_decide_eq_true_2.
  - injection Hs as <- <-. split_and!; [done|by rewrite P1|]. exists state, s1. split; [done|].
    by rewrite bool_decide_eq_false_2.
Qed.

(** When the threads cannot be stopped, or no attempt is made, a result that was
    never set is looked at. *)
Lemma enable_uninitialised libpulp t (enable : bool) retries s state s1 e s2 :
  lift (get_libpulp_error_state_remote fuel (Some (pid (proc s), libpulp))) s = (Ok state, s1) ->
  state = (if enable then EUSRBLOCKED else ENONE) ->
  retries = O \/ (e <> 0 /\ hijack_threads fuel (fst (tasks t 0)) calloc_thread (snd (tasks t 0)) s1 = (Ok e, s2)) ->
  fst (enable_or_disable_patching fuel timeout calloc_thread libpulp t enable retries s) = Ub.
Proof.
  intros E1 Hst Hr. unfold enable_or_disable_patching.
  assert (Hc : ((state =? ENONE) && negb enable) || ((state =? EUSRBLOCKED) && enable) = true) by (subst state; by destruct enable).
  unfold bind at 1, gets at 1. step_bind E1. rewrite Hc.
  destruct Hr as [->|[He E2]]; [done|]. destruct retries as [|n]; [done|].
  unfold bind at 1. cbn [set_patchable_loop]. destruct (tasks t 0) as [opendir listing]. cbn [fst snd] in E2.
  step_bind E2. by rewrite (proj2 (Z.eqb_neq _ _) He).
Qed.
End laws.

(** The exit codes of [check] do not tell an error from an answer: 1 is both a
    patch that is applied and one that could not be read. *)
Lemma unreadable_patch_exit_code {K} `{Kernel K} fuel timeout calloc_ok c0 calloc_thread parse_so_elf container wildcard init t s s1 :
  load_check calloc_ok c0 container s = (Err 1, s1) ->
  run_check (K := K) fuel timeout calloc_ok c0 calloc_thread parse_so_elf container wildcard init t s = (Ok 1, s1).
Proof. intros E. unfold run_check, code. unfold bind at 1. by rewrite E. Qed.

(** Only [enable] is compared without regard to case. *)
Lemma set_patchable_case : set_patchable_arg (str "ENABLE") = Some true /\ set_patchable_arg (str "DISABLE") = None.
Proof. by split. Qed.
