(* ===== verification/Introspect.v ===== *)
(** * Finding libpulp in a process (tools/introspection.c)

    The tool reads the auxiliary vector, the program headers and the dynamic
    section of the main program, follows the link map to the libraries, and looks
    up the symbols of libpulp in the memory of the process. Files of [/proc] are
    parameters; structures are read with their layout on 64-bit machines. Of the
    messages only warnings are recorded. *)

From stdpp Require Import gmap.
From S2P Require Import Prelude Errors Memory SymbolLoader InsnQueue Ptrace InsnQueueTool PatchId ElfFile Extract Description RemoteState.

Open Scope ulp_scope.

(** ** Structures *)

Definition DT_NULL : Z := 0.
Definition DT_HASH : Z := 4.
Definition DT_STRTAB : Z := 5.
Definition DT_SYMTAB : Z := 6.
Definition DT_DEBUG : Z := 21.
Definition PT_DYNAMIC : Z := 2.
Definition PT_NOTE : Z := 4.
Definition PT_PHDR : Z := 6.
Definition AT_NULL : Z := 0.
Definition AT_PHDR : Z := 3.
Definition AT_PHENT : Z := 4.
Definition AT_PHNUM : Z := 5.
Definition AT_ENTRY : Z := 9.

Definition u32_at (off : nat) (bs : bytes) : Z := le_val (slice off 4 bs).
Definition u64_at (off : nat) (bs : bytes) : Z := le_val (slice off 8 bs).

Record link_map := { l_addr : Z; l_name : Z; l_next : Z }.
Definition LINK_MAP_SIZE : Z := 40.
Definition link_map_of (bs : bytes) : link_map :=
  {| l_addr := u64_at 0 bs; l_name := u64_at 8 bs; l_next := u64_at 24 bs |}.

(** The symbols of libpulp that the tool looks for, without the prefix [__ulp];
    the index is the bit in [bitfield]. *)
Definition export_names : list bytes :=
  [str "_trigger"; str "_check_patched"; str "_state"; str "_get_global_universe"; str "_msg_queue";
   str "_revert_all"; str "_metadata_buffer"; str "_error_state"; str "_enable_or_disable_patching";
   str "_insn_queue"; str "_version"].
Definition VERSION : nat := 10.

(** [struct ulp_dynobj]: [o_exports] are the addresses of the symbols, by their
    index, and the version for the last. *)
Record dynobj := {
  o_filename : bytes; o_link_map : link_map; o_dynstr_addr : Z; o_dynsym_addr : Z;
  o_num_symbols : Z; o_build_id : bytes; o_exports : list Z }.

Definition new_dynobj (filename : bytes) (l : link_map) : dynobj :=
  {| o_filename := filename; o_link_map := l; o_dynstr_addr := 0; o_dynsym_addr := 0;
     o_num_symbols := 0; o_build_id := replicate 20 0; o_exports := replicate 11 0 |}.

Definition set_build_id (id : bytes) (o : dynobj) : dynobj :=
  {| o_filename := o_filename o; o_link_map := o_link_map o; o_dynstr_addr := o_dynstr_addr o;
     o_dynsym_addr := o_dynsym_addr o; o_num_symbols := o_num_symbols o; o_build_id := id; o_exports := o_exports o |}.
Definition set_tables (dynstr dynsym num : Z) (o : dynobj) : dynobj :=
  {| o_filename := o_filename o; o_link_map := o_link_map o; o_dynstr_addr := dynstr;
     o_dynsym_addr := dynsym; o_num_symbols := num; o_build_id := o_build_id o; o_exports := o_exports o |}.
Definition set_exports (l : list Z) (o : dynobj) : dynobj :=
  {| o_filename := o_filename o; o_link_map := o_link_map o; o_dynstr_addr := o_dynstr_addr o;
     o_dynsym_addr := o_dynsym_addr o; o_num_symbols := o_num_symbols o; o_build_id := o_build_id o; o_exports := l |}.

Definition export (i : nat) (o : dynobj) : Z := nth i (o_exports o) 0.

(** [struct ulp_process]. The libraries are in the order of the list, the last one
    read first; [dynobj_libpulp] points to one of them, designated by the number of
    libraries behind it. *)
Record process := {
  load_bias : Z; dyn_addr : Z; dynobj_main : option dynobj;
  dynobj_targets : list dynobj; dynobj_libpulp : option nat }.

Definition zero_process : process :=
  {| load_bias := 0; dyn_addr := 0; dynobj_main := None; dynobj_targets := []; dynobj_libpulp := None |}.
Definition set_main (o : dynobj) (p : process) : process :=
  {| load_bias := load_bias p; dyn_addr := dyn_addr p; dynobj_main := Some o;
     dynobj_targets := dynobj_targets p; dynobj_libpulp := dynobj_libpulp p |}.
Definition set_bias (bias dyn : Z) (p : process) : process :=
  {| load_bias := bias; dyn_addr := dyn; dynobj_main := dynobj_main p;
     dynobj_targets := dynobj_targets p; dynobj_libpulp := dynobj_libpulp p |}.
Definition set_targets (l : list dynobj) (lp : option nat) (p : process) : process :=
  {| load_bias := load_bias p; dyn_addr := dyn_addr p; dynobj_main := dynobj_main p;
     dynobj_targets := l; dynobj_libpulp := lp |}.

(** ** The name of the program *)

Fixpoint before_newline (s : bytes) : bytes :=
  match s with
  | [] => []
  | c :: s => if c =? 10 then [] else c :: before_newline s
  end.

(** common/common.c; [comm] is the content of [/proc/<pid>/comm], and [binary_name]
    that of the static buffer, which stays when nothing can be read. *)
Definition get_target_binary_name (binary_name : bytes) (comm : option bytes) : bytes :=
  match comm with
  | None => str "(null)"
  | Some [] => binary_name
  | Some comm =>
    let cmdline := take 4095 (fst (split_line comm)) in
    before_newline (take 4095 (default [] (get_basename (Some (cstr cmdline)))))
  end.

(** ** The mapping of a program *)

(** [strtok (s, d)] for one delimiter: the token and the rest. *)
Fixpoint skip_delim (d : Z) (s : bytes) : bytes :=
  match s with
  | c :: s' => if c =? d then skip_delim d s' else s
  | [] => []
  end.

Fixpoint until_delim (d : Z) (s : bytes) : bytes * bytes :=
  match s with
  | [] => ([], [])
  | c :: s => if c =? d then ([], s) else let (t, r) := until_delim d s in (c :: t, r)
  end.

Definition strtok (d : Z) (s : bytes) : option bytes * bytes :=
  match skip_delim d s with
  | [] => (None, [])
  | s => let (t, r) := until_delim d s in (Some t, r)
  end.

(** [strtoul (s, NULL, 16)] of a string without a minus. *)
Definition strtoul16 (s : bytes) : Z :=
  match skip_spaces s with
  | c :: r => Z.min (2 ^ 64 - 1) (hex_digits (skip_0x (if c =? 43 then r else c :: r)) 0)
  | [] => 0
  end.

(** The address and the name of the file of a line of [/proc/<pid>/maps]. *)
Definition parse_map_line (line : bytes) : option bytes * option bytes :=
  let (str_addr1, line) := strtok 45 (cstr line) in
  let skip l := snd (strtok 32 l) in
  let line := skip (skip (skip (skip (skip line)))) in
  (str_addr1, fst (strtok 32 line)).

Fixpoint scan_maps (n : nat) (maps filename : bytes) : res Z Z :=
  match n with
  | O => NoFuel
  | S n =>
    match split_line maps with
    | ([], _) => Ok 0
    | (line, rest) =>
      let (str_addr1, str_path) := parse_map_line line in
      try bin_name := deref (get_basename str_path) in
      if bool_decide (bin_name = []) then Ub
      else
        let bin_name := chomp bin_name in
        if byte_eqb bin_name filename then
          try a := deref str_addr1 in Ok (strtoul16 a)
        else scan_maps n rest filename
    end
  end.

(** What [/proc] says about the process. [auxv] is what can be read from the
    descriptor [auxv_fd]. *)
Record proc_files := {
  f_comm : option bytes; f_maps : option bytes; f_auxv_fd : Z; f_auxv : bytes; f_errno : Z }.

Definition get_ehdr_addr (files : proc_files) (main_filename : bytes) (obj : dynobj) : res Z Z :=
  if negb (l_addr (o_link_map obj) =? 0) then Ok (l_addr (o_link_map obj))
  else
    match f_maps files with
    | None => Ok 0
    | Some maps => scan_maps (S (length maps)) maps main_filename
    end.

Section introspection.
Context {K : Type} `{Kernel K}.
(** The bound on the loops over lists in the process. *)
Variable fuel : nat.
Variable files : proc_files.
Variable pid : Z.

Abbreviation sys A := (st (tool K) Z A).

(** [read_memory] into a structure of [n] bytes: the code and the bytes. *)
Definition read_struct (n addr : Z) : sys (Z * bytes) :=
  read_memory fuel (replicate (Z.to_nat n) 0) n pid addr.

(** The same where an error is returned at once. *)
Definition read_or (e n addr : Z) : sys bytes :=
  let! r := read_struct n addr in
  let (ret_code, bs) := r in
  if negb (ret_code =? 0) then throw e else ret bs.

Definition run_res {A} (r : res Z A) : sys A := fun s => (r, s).

(** The message of a caller that returns the code of [m]. *)
Definition or_warn {A} (fmt : string) (m : sys A) : sys A := fun s =>
  match m s with
  | (Err e, s) => (t_log fmt;;; throw e) s
  | r => r
  end.

(** ** The main program *)

(** The loop over the auxiliary vector: entry, program headers, their size and
    their number. *)
Fixpoint scan_auxv (n : nat) (auxv : bytes) (a : Z * Z * Z * Z) : sys (Z * Z * Z * Z) :=
  match n with
  | O => nofuel
  | S n =>
    if zlen auxv <? 16 then throw (f_errno files)
    else
      let a_type := u64_at 0 auxv in
      let a_val := u64_at 8 auxv in
      let '(entry, phdr, phent, phnum) := a in
      let a :=
        if a_type =? AT_ENTRY then (a_val, phdr, phent, phnum)
        else if a_type =? AT_PHDR then (entry, a_val, phent, phnum)
        else if a_type =? AT_PHNUM then (entry, phdr, phent, s32 a_val)
        else if a_type =? AT_PHENT then (entry, phdr, s32 a_val, phnum)
        else a in
      if a_type =? AT_NULL then ret a else scan_auxv n (drop 16 auxv) a
  end.

Definition PHDR_SIZE : Z := 56.

(** The addresses of the program headers and of the dynamic section in the file. *)
Fixpoint scan_main_phdrs (n : nat) (addr : Z) (pt_phdr adyn : Z) : sys (Z * Z) :=
  match n with
  | O => ret (pt_phdr, adyn)
  | S n =>
    let! phdr := read_or ETARGETHOOK PHDR_SIZE addr in
    let p_type := u32_at 0 phdr in
    let p_vaddr := u64_at 16 phdr in
    let pt_phdr := if p_type =? PT_PHDR then p_vaddr else pt_phdr in
    let adyn := if p_type =? PT_DYNAMIC then p_vaddr else adyn in
    scan_main_phdrs n (u64 (addr + PHDR_SIZE)) pt_phdr adyn
  end.

(** The code is thrown; the process with its load bias. [open] fails with -1,
    which is not 0. *)
Definition dig_load_bias (p : process) : sys process :=
  if f_auxv_fd files =? 0 then throw ENOENT
  else
    let! a := scan_auxv (S (length (f_auxv files))) (f_auxv files) (0, 0, 0, 0) in
    let '(addrof_entry, at_phdr, phent, phnum) := a in
    if addrof_entry =? 0 then throw ENOPENTRY
    else if at_phdr =? 0 then throw ENOPHDR
    else if negb (phent =? PHDR_SIZE) then throw ENOPHDR
    else
      let! r := scan_main_phdrs (Z.to_nat phnum) at_phdr 0 0 in
      let (pt_phdr, adyn) := r in
      if negb (pt_phdr =? 0) then
        ret (set_bias (u64 (at_phdr - pt_phdr)) (u64 (adyn + (at_phdr - pt_phdr))) p)
      else ret (set_bias 0 adyn p).

(** The entry [DT_DEBUG] of the dynamic section at [addr]. *)
Fixpoint find_debug (n : nat) (addr : Z) : sys Z :=
  match n with
  | O => nofuel
  | S n =>
    let! dyn := read_or ETARGETHOOK 16 addr in
    let d_tag := u64_at 0 dyn in
    if d_tag =? DT_NULL then throw ENODEBUGTAG
    else if d_tag =? DT_DEBUG then ret (u64_at 8 dyn)
    else find_debug n (u64 (addr + 16))
  end.

(** The link map of the main program. *)
Definition dig_main_link_map (p : process) : sys link_map :=
  let! r_debug := find_debug fuel (dyn_addr p) in
  let! link_map := read_or ETARGETHOOK 8 (u64 (r_debug + 8)) in
  let! bs := read_or ETARGETHOOK LINK_MAP_SIZE (u64_at 0 link_map) in
  ret (link_map_of bs).

(** ** ELF headers in memory *)

(** The locals of [parse_dynobj_elf_headers]. *)
Record scan := {
  s_dynsym : Z; s_dynstr : Z; s_hash : Z; s_dynamic_ran : bool;
  s_buildid_addr : Z; s_buildid_len : Z; s_note_ran : bool }.

Definition set_dynamic (dynsym dynstr hash : Z) (ran : bool) (c : scan) : scan :=
  {| s_dynsym := dynsym; s_dynstr := dynstr; s_hash := hash; s_dynamic_ran := ran;
     s_buildid_addr := s_buildid_addr c; s_buildid_len := s_buildid_len c; s_note_ran := s_note_ran c |}.
Definition set_note (addr len : Z) (ran : bool) (c : scan) : scan :=
  {| s_dynsym := s_dynsym c; s_dynstr := s_dynstr c; s_hash := s_hash c; s_dynamic_ran := s_dynamic_ran c;
     s_buildid_addr := addr; s_buildid_len := len; s_note_ran := ran |}.

(** The loop over a dynamic section. *)
Fixpoint scan_dynamic (n : nat) (dyn_addr : Z) (c : scan) : sys scan :=
  match n with
  | O => nofuel
  | S n =>
    let! dyn := read_or ETARGETHOOK 16 dyn_addr in
    let d_tag := u64_at 0 dyn in
    let d_ptr := u64_at 8 dyn in
    let dynsym := if d_tag =? DT_SYMTAB then d_ptr else s_dynsym c in
    let dynstr := if d_tag =? DT_STRTAB then d_ptr else s_dynstr c in
    let hash := if d_tag =? DT_HASH then d_ptr else s_hash c in
    if negb (dynsym =? 0) && negb (dynstr =? 0) && negb (hash =? 0) then ret (set_dynamic dynsym dynstr hash true c)
    else
      let c := set_dynamic dynsym dynstr hash (s_dynamic_ran c) c in
      if negb (d_tag =? DT_NULL) then scan_dynamic n (u64 (dyn_addr + 16)) c else ret c
  end.

(** The loop over the notes of a segment. The lengths are aligned by adding their
    remainder. *)
Fixpoint scan_notes (n : nat) (note_addr note_addr_end : Z) (c : scan) : sys scan :=
  match n with
  | O => nofuel
  | S n =>
    if s_note_ran c then ret c
    else
      let! note := read_or ETARGETHOOK 12 note_addr in
      let name_len := u32_at 0 note in
      let buildid_len := u32_at 4 note in
      let buildid_len := u32 (buildid_len + buildid_len mod 4) in
      let name_len := u32 (name_len + name_len mod 4) in
      if u32_at 8 note =? NT_GNU_BUILD_ID then
        ret (set_note (u64 (note_addr + 12 + name_len)) buildid_len true c)
      else
        let c := set_note (s_buildid_addr c) buildid_len (s_note_ran c) c in
        let note_addr := u64 (note_addr + u32 (buildid_len + name_len + 12)) in
        if note_addr <? note_addr_end then scan_notes n note_addr note_addr_end c else ret c
  end.

Fixpoint scan_phdrs (n : nat) (l_addr addr : Z) (c : scan) : sys scan :=
  match n with
  | O => ret c
  | S n =>
    let! phdr := read_or ETARGETHOOK PHDR_SIZE addr in
    let p_type := u32_at 0 phdr in
    let seg := u64 (l_addr + u64_at 16 phdr) in
    let! c :=
      (if (p_type =? PT_DYNAMIC) && negb (s_dynamic_ran c) then scan_dynamic fuel seg c
       else if p_type =? PT_NOTE then scan_notes fuel seg (u64 (seg + u32 (u64_at 40 phdr))) c
       else ret c) in
    if s_dynamic_ran c && s_note_ran c then ret c
    else scan_phdrs n l_addr (u64 (addr + PHDR_SIZE)) c
  end.

(** The code and the object. *)
Definition parse_dynobj_elf_headers (main_filename : bytes) (obj : dynobj) : sys (Z * dynobj) := fun s =>
  let m :=
    if l_name (o_link_map obj) =? 0 then throw ENOLINKMAP
    else
      let! ehdr_addr := run_res (get_ehdr_addr files main_filename obj) in
      let! ehdr := read_or ETARGETHOOK 64 ehdr_addr in
      if negb (le_val (slice 54 2 ehdr) =? PHDR_SIZE) then throw ENOPHDR
      else
        scan_phdrs (Z.to_nat (le_val (slice 56 2 ehdr))) (l_addr (o_link_map obj))
          (u64 (ehdr_addr + u64_at 32 ehdr))
          {| s_dynsym := 0; s_dynstr := 0; s_hash := 0; s_dynamic_ran := false;
             s_buildid_addr := 0; s_buildid_len := 0; s_note_ran := false |} in
  match m s with
  | (Ok c, s) =>
    (let! obj :=
       (if negb (s_buildid_addr c =? 0) && (s_buildid_len c =? 20) then
          let! r := read_memory fuel (o_build_id obj) 20 pid (s_buildid_addr c) in
          ret (set_build_id (snd r) obj)
        else ret obj) in
     if negb (s_hash c =? 0) then
       let! r := read_struct 4 (u64 (s_hash c + 4)) in
       let (e, bs) := r in
       if negb (e =? 0) then ret (ETARGETHOOK, obj)
       else ret (0, set_tables (s_dynstr c) (s_dynsym c) (s32 (le_val bs)) obj)
     else ret (0, set_tables (s_dynstr c) (s_dynsym c) 0 obj)) s
  | (Err e, s) => (Ok (e, obj), s)
  | (Ub, s) => (Ub, s)
  | (NoFuel, s) => (NoFuel, s)
  end.

(** ** Symbols in memory *)

Definition SYM_SIZE : Z := 24.

Fixpoint get_symbol_by_name (len : nat) (dynsym_addr dynstr_addr : Z) (name : bytes) : sys Z :=
  match len with
  | O => ret 0
  | S len =>
    let! r := read_struct SYM_SIZE dynsym_addr in
    let (e, sym) := r in
    if negb (e =? 0) then t_log "Unable to read dynamic symbol";;; ret 0
    else
      let! r := read_string fuel pid (u64 (dynstr_addr + u32_at 0 sym)) in
      match r with
      | (_, None) => t_log "Unable to read dynamic symbol name";;; ret 0
      | (_, Some remote_name) =>
        if byte_eqb (cstr remote_name) name then ret (u64_at 8 sym)
        else get_symbol_by_name len (u64 (dynsym_addr + SYM_SIZE)) dynstr_addr name
      end
  end.

Definition get_loaded_symbol_addr (obj : dynobj) (sym_name : bytes) : sys Z :=
  if (o_dynsym_addr obj =? 0) || (o_dynstr_addr obj =? 0) || (o_num_symbols obj <=? 0) then ret 0
  else
    let! sym_addr := get_symbol_by_name (Z.to_nat (o_num_symbols obj)) (o_dynsym_addr obj) (o_dynstr_addr obj) sym_name in
    ret (if negb (sym_addr =? 0) then u64 (l_addr (o_link_map obj) + sym_addr) else 0).

(** The index of a name of [export_names]. *)
Fixpoint index_of (name : bytes) (l : list bytes) : option nat :=
  match l with
  | [] => None
  | x :: l => if byte_eqb x name then Some O else S <$> index_of name l
  end.

(** The body of the loop behind the prefix: the exports and [bitfield]. *)
Definition store_export (remote_name : bytes) (addr : Z) (exports : list Z) (bitfield : Z) : sys (list Z * Z) :=
  match index_of (cstr remote_name) export_names with
  | None => ret (exports, bitfield)
  | Some i =>
    let bitfield := Z.lor bitfield (Z.shiftl 1 (Z.of_nat i)) in
    if decide (i = VERSION) then
      let! r := read_string_allocated fuel (replicate 32 0) pid addr in
      let (e, s) := r in
      if negb (e =? 0) then undef
      else let! v := run_res (ulp_version_from_string s) in ret (<[i := v]> exports, bitfield)
    else ret (<[i := addr]> exports, bitfield)
  end.

(** The code, and what was found so far. *)
Fixpoint scan_exports (n : nat) (ehdr_addr dynsym_addr dynstr_addr : Z) (exports : list Z) (bitfield : Z) :
    sys (Z * list Z) :=
  match n with
  | O => ret (0, exports)
  | S n =>
    let! r := read_struct 4 dynsym_addr in
    let (e, st_name) := r in
    if negb (e =? 0) then t_log "Unable to read dynamic symbol";;; ret (1, exports)
    else
      let name := u64 (dynstr_addr + le_val st_name) in
      let! r := read_memory fuel (replicate 5 0) 5 pid name in
      let (e, prefix) := r in
      if negb (e =? 0) then t_log "Unable to read dynamic symbol name";;; ret (1, exports)
      else
        let next (r : list Z * Z) :=
          let (exports, bitfield) := r in
          if bitfield =? 0x7FF then ret (0, exports)
          else scan_exports n ehdr_addr (u64 (dynsym_addr + SYM_SIZE)) dynstr_addr exports bitfield in
        if byte_eqb prefix (str "__ulp") then
          let! r := read_string_allocated fuel (prefix ++ replicate 59 0) pid (u64 (name + 5)) in
          let (e, remote_name) := r in
          if negb (e =? 0) then t_log "Unable to read dynamic symbol name";;; ret (1, exports)
          else
            let! r := read_struct SYM_SIZE dynsym_addr in
            let (e, sym) := r in
            if negb (e =? 0) then t_log "Unable to read dynamic symbol";;; ret (1, exports)
            else
              let! r := store_export remote_name (u64 (ehdr_addr + u64_at 8 sym)) exports bitfield in
              next r
        else next (exports, bitfield)
  end.

Definition get_libpulp_extern_symbols (obj : dynobj) : sys (Z * dynobj) :=
  if (o_dynsym_addr obj =? 0) || (o_dynstr_addr obj =? 0) || (o_num_symbols obj <=? 0) then ret (0, obj)
  else
    let! r := scan_exports (Z.to_nat (o_num_symbols obj)) (l_addr (o_link_map obj)) (o_dynsym_addr obj)
      (o_dynstr_addr obj) (o_exports obj) 0 in
    let (e, exports) := r in
    ret (e, set_exports exports obj).

(** ** The objects of a process *)

(** The code is thrown. *)
Definition parse_main_dynobj (binary_name : bytes) (p : process) : sys process :=
  let target_binary_name := get_target_binary_name binary_name (f_comm files) in
  let obj := new_dynobj target_binary_name {| l_addr := 0; l_name := 0; l_next := 0 |} in
  let p := set_main obj p in
  let! p := or_warn "unable to calculate the load bias for the executable: %s" (dig_load_bias p) in
  let! l := or_warn "unable to parse the mappings of objects in memory: %s" (dig_main_link_map p) in
  let! r := parse_dynobj_elf_headers target_binary_name (new_dynobj target_binary_name l) in
  ret (set_main (snd r) p).

(** The symbols libpulp must have. *)
Definition required : list nat := [0%nat; 1%nat; 2%nat; 3%nat; 5%nat; 6%nat].

(** The code, the object, and whether it becomes [dynobj_libpulp]. *)
Definition parse_lib_dynobj (main_filename : bytes) (obj : dynobj) : sys (Z * dynobj * bool) :=
  if (0 <? o_num_symbols obj) && (0 <? o_dynstr_addr obj) && (0 <? o_dynsym_addr obj) then ret (0, obj, false)
  else
    let! obj :=
      (if negb (byte_eqb (o_filename obj) (str "linux-vdso.so.1")) && negb (byte_eqb (o_filename obj) (str "linux-vdso64.so.1"))
       then let! r := parse_dynobj_elf_headers main_filename obj in ret (snd r)
       else ret obj) in
    if strstr (o_filename obj) (str "libpulp.so") then
      let! r := get_libpulp_extern_symbols obj in
      let obj := snd r in
      if forallb (fun i => negb (export i obj =? 0)) required then ret (0, obj, true)
      else if existsb (fun i => negb (export i obj =? 0)) required then
        t_log "unexpected subset of libpulp symbols exposed by %s.";;; ret (0, obj, false)
      else ret (0, obj, false)
    else ret (0, obj, false).

(** The new object and its link map, [None] on an error. *)
Definition get_libname_dynobj (link_map_addr : Z) : sys (option dynobj) :=
  let! r := read_struct LINK_MAP_SIZE link_map_addr in
  let (e, bs) := r in
  if negb (e =? 0) then t_log "error reading link_map address.";;; ret None
  else
    let l := link_map_of bs in
    let! r := read_string fuel pid (l_name l) in
    match snd r with
    | None => t_log "error reading link_map string.";;; ret None
    | Some libname => ret (Some (new_dynobj (cstr libname) l))
    end.

(** The loop over the link map: the libraries, and the one named after libpulp. *)
Fixpoint scan_link_map (n : nat) (addr : Z) (targets : list dynobj) (libpulp : option nat) : sys (list dynobj * option nat) :=
  match n with
  | O => nofuel
  | S n =>
    if addr =? 0 then ret (targets, libpulp)
    else
      let! o := get_libname_dynobj addr in
      match o with
      | None => ret (targets, libpulp)
      | Some obj =>
        let libpulp := if strstr (o_filename obj) (str "libpulp.so") then Some (length targets) else libpulp in
        scan_link_map n (l_next (o_link_map obj)) (obj :: targets) libpulp
      end
  end.

(** The other libraries, from the head of the list. *)
Fixpoint parse_targets (main_filename : bytes) (l : list dynobj) (libpulp : option nat) : sys (list dynobj * option nat) :=
  match l with
  | [] => ret ([], libpulp)
  | obj :: l =>
    if bool_decide (libpulp = Some (length l)) then
      let! r := parse_targets main_filename l libpulp in
      ret (obj :: fst r, snd r)
    else
      let! r := parse_lib_dynobj main_filename obj in
      let '(e, obj, claims) := r in
      let libpulp := if claims : bool then Some (length l) else libpulp in
      if negb (e =? 0) then ret (obj :: l, libpulp)
      else
        let! r := parse_targets main_filename l libpulp in
        ret (obj :: fst r, snd r)
  end.

(** The code is thrown. *)
Definition parse_libs_dynobj (p : process) : sys process :=
  match dynobj_main p with
  | None => undef
  | Some main =>
    let! r := scan_link_map fuel (l_next (o_link_map main)) (dynobj_targets p) (dynobj_libpulp p) in
    let (targets, libpulp) := r in
    match libpulp with
    | None => throw ENOLIBPULP
    | Some i =>
      let at_ := (length targets - 1 - i)%nat in
      let! obj := run_res (deref (targets !! at_)) in
      let! r := parse_lib_dynobj (o_filename main) obj in
      let '(e, obj, _) := r in
      if negb (e =? 0) then throw ENOLIBPULP
      else
        let! r := parse_targets (o_filename main) (<[at_ := obj]> targets) libpulp in
        ret (set_targets (fst r) (snd r) p)
    end
  end.

Definition libpulp_of (p : process) : option dynobj :=
  match dynobj_libpulp p with
  | None => None
  | Some i => dynobj_targets p !! (length (dynobj_targets p) - 1 - i)%nat
  end.

(** The code and the process, which the callers only use when the code is 0 or
    [EAGAIN]. *)
Definition initialize_data_structures (binary_name : bytes) : sys (Z * process) :=
  let! e := attach fuel pid in
  let! r :=
    (if negb (e =? 0) then ret (ETARGETHOOK, zero_process)
     else fun s =>
       match (let! p := parse_main_dynobj binary_name zero_process in parse_libs_dynobj p) s with
       | (Ok p, s) =>
         (let! obj := run_res (deref (libpulp_of p)) in
          let! r := read_struct STATE_SIZE (export 2 obj) in
          let (e, ulp_state) := r in
          if negb (e =? 0) || (le_val (slice 0 1 ulp_state) =? 0) then ret (EAGAIN, p) else ret (0, p)) s
       | (Err e, s) => (Ok (e, zero_process), s)
       | (Ub, s) => (Ub, s)
       | (NoFuel, s) => (NoFuel, s)
       end) in
  let! _ := detach fuel pid in
  ret r.
End introspection.

(** ** The symbols of the file of a library *)

Section disk.
Context `{Libelf}.

(** The loop over the symbols of [.symtab]. *)
Fixpoint disk_symbol (e : elf) (data : option bytes) (sh_link : Z) (n : nat) (i : Z) (sym : bytes) : res Z Z :=
  match n with
  | O => Ok 0
  | S n =>
    try data' := deref data in
    try name := read_buf data' (i * 24) 4 in
    try value := read_buf data' (i * 24 + 8) 8 in
    try s := deref (elf_strptr e sh_link (le_val name)) in
    if byte_eqb sym s then Ok (le_val value) else disk_symbol e data sh_link n (i + 1) sym
  end.

(** [elf] is what [open] and [elf_begin] give. *)
Fixpoint find_symtab (e : elf) (shstrndx : Z) (n : nat) (s : option scn) : res Z (option (scn * Elf64_Shdr)) :=
  match n with
  | O => NoFuel
  | S n =>
    match elf_nextscn e s with
    | None => Ok None
    | Some s =>
      match elf_getshdr e s with
      | None => Err 0
      | Some shdr =>
        try name := deref (elf_strptr e shstrndx (sh_name shdr)) in
        if byte_eqb name (str ".symtab") then Ok (Some (s, shdr)) else find_symtab e shstrndx n (Some s)
      end
    end
  end.

Definition get_loaded_symbol_addr_from_disk (n : nat) (elf : option elf) (obj : dynobj) (sym : bytes) : res Z Z :=
  match elf with
  | None => Ok 0
  | Some e =>
    match elf_getshdrstrndx e with
    | None => Ok 0
    | Some shstrndx =>
      match find_symtab e shstrndx n None with
      | Ok None => Ok 0
      | Ok (Some (scn, shdr)) =>
        let len := s32 (sh_size shdr / 24) in
        try ptr := disk_symbol e (elf_getdata e scn) (sh_link shdr) (Z.to_nat len) 0 sym in
        Ok (if ptr =? 0 then 0 else u64 (ptr + l_addr (o_link_map obj)))
      | Err _ => Ok 0
      | Ub => Ub
      | NoFuel => NoFuel
      end
    end
  end.
End disk.
