(* ===== verification/IntrospectSpec.v ===== *)
(** * What the tool finds in a process

    The memory of a process that has loaded libraries, as the dynamic loader lays it
    out, and what the functions of Introspect.v answer about it. *)

From stdpp Require Import gmap.
From S2P Require Import Prelude Errors Memory SymbolLoader Ptrace InsnQueueTool PatchId ElfFile RemoteState Introspect.

Open Scope ulp_scope.

(** ** Strings *)

(** [t] at [a], and the eight bytes behind it, which reading by words may touch. *)
Definition text_at (m : mem) (a : Z) (t : bytes) : Prop :=
  no_nul t /\ 0 < a /\ a + zlen t + 9 < 2 ^ 64 /\
  exists pad, length pad = 8%nat /\ mem_read a (length t + 9) m = Some (t ++ 0 :: pad).

Definition text_words (t : bytes) : nat := S (length t / 8).

Lemma text_string m a t : text_at m a t -> string_at m (text_words t) a t.
Proof.
  intros (Ht & Ha & Hlim & pad & Hp & Hr). split; [done|].
  pose proof (Nat.div_mod_eq (length t) 8) as Hd. pose proof (Nat.mod_upper_bound (length t) 8 ltac:(lia)) as Hm.
  unfold text_words. set (q := (length t / 8)%nat) in *. set (k := (7 - length t mod 8)%nat).
  exists (take k pad). rewrite length_app. cbn [length]. rewrite length_take, Hp.
  split_and!; [unfold k; lia|unfold k; lia| |done|unfold zlen in Hlim; lia].
  rewrite (mem_read_sub a (length t + 9) a _ m _ Hr) by lia. rewrite Z.sub_diag. f_equal. unfold slice.
  change (Z.to_nat 0) with 0%nat. rewrite drop_0, take_app_ge by lia. f_equal.
  replace (8 * S q - length t)%nat with (S k) by (unfold k; lia). done.
Qed.

(** A suffix of a string. *)
Lemma text_drop m a t k : (k <= length t)%nat -> text_at m a t -> text_at m (a + Z.of_nat k) (drop k t).
Proof.
  intros Hk (Ht & Ha & Hlim & pad & Hp & Hr). unfold text_at, zlen in *. rewrite length_drop.
  split_and!; [by apply Forall_drop|lia|lia|]. exists pad. split; [done|].
  rewrite (mem_read_sub a (length t + 9) _ _ m _ Hr) by lia. f_equal. unfold slice.
  replace (Z.to_nat (a + Z.of_nat k - a)) with k by lia. rewrite drop_app_le by lia. apply take_ge.
  rewrite length_app, length_drop. simpl. lia.
Qed.

(** The first bytes of a string. *)
Lemma text_take m a t k : (k <= length t + 9)%nat -> text_at m a t ->
  exists pad, mem_read a k m = Some (take k (t ++ 0 :: pad)).
Proof.
  intros Hk (_ & _ & _ & pad & _ & Hr). exists pad.
  rewrite (mem_read_sub a (length t + 9) a k m _ Hr) by lia. by rewrite Z.sub_diag.
Qed.

Section reading.
Context {K : Type} `{Cooperative K}.
Variable fuel : nat.
Variable pid : Z.

(** The process has memory [m], made of bytes. *)
Definition has_mem (m : mem) (s : tool K) : Prop :=
  tmem pid s = m /\ forall x b, m !! x = Some b -> is_byte b.

Lemma read_struct_ok m n a bs (s : tool K) : has_mem m s -> 0 <= n ->
  mem_read a (Z.to_nat n) m = Some bs ->
  exists s', read_struct (S fuel) pid n a s = (Ok (0, bs), s') /\ has_mem m s'.
Proof.
  intros [Hm Hb] Hn Hr. unfold read_struct.
  destruct (read_memory_succeeds fuel (replicate (Z.to_nat n) 0) pid a s) as (bs' & s' & E & M & R);
    [rewrite length_replicate, Hm; by eexists|].
  rewrite length_replicate, Hm, Hr in R. injection R as <-.
  unfold zlen in E. rewrite length_replicate, Z2Nat.id in E by done.
  exists s'. split; [done|]. by split; [rewrite M|].
Qed.

Lemma read_or_ok m e n a bs (s : tool K) : has_mem m s -> 0 <= n ->
  mem_read a (Z.to_nat n) m = Some bs ->
  exists s', read_or (S fuel) pid e n a s = (Ok bs, s') /\ has_mem m s'.
Proof.
  intros Hm Hn Hr. destruct (read_struct_ok m n a bs s Hm Hn Hr) as (s' & E & Hm').
  exists s'. split; [|done]. unfold read_or. by step_bind E.
Qed.

Lemma read_text m a t (s : tool K) : has_mem m s -> text_at m a t -> (length t / 8 <= fuel)%nat ->
  exists pad s', read_string (S fuel) pid a s = (Ok (0, Some (t ++ 0 :: pad)), s') /\ has_mem m s'.
Proof.
  intros [Hm Hb] Ht Hf. subst m. apply text_string in Ht.
  destruct (read_string_total fuel (text_words t) pid a t s Hb Ht) as (pad & s' & E & M); [unfold text_words; lia|].
  exists pad, s'. split; [done|]. by split.
Qed.

Lemma read_words_total words : forall k done left a t (s : tool K),
  (forall x b, tmem pid s !! x = Some b -> is_byte b) -> string_at (tmem pid s) words a t ->
  (words <= k)%nat -> length left = (8 * k)%nat ->
  exists junk s', read_words (S fuel) k done left pid a s = (Ok (0, done ++ t ++ 0 :: junk), s') /\ tmem pid s' = tmem pid s.
Proof.
  induction words as [|words IH]; intros k done left a t s Hb Hs Hk Hleft; [by apply no_string_at in Hs|].
  destruct k as [|k]; [lia|]. cbn [read_words]. destruct (string_step _ _ _ _ Hb Hs) as (w & Ew & Hc).
  assert (Hl8 : length (take 8 left) = 8%nat) by (rewrite length_take; lia).
  destruct (read_memory_succeeds fuel (take 8 left) pid a s) as (w' & s1 & E1 & M1 & R1);
    [unfold mapped; rewrite Hl8, Ew; by eexists|].
  rewrite Hl8, Ew in R1. injection R1 as <-. unfold zlen in E1. rewrite Hl8 in E1.
  unfold read_long. unfold read_memory in E1. change (Z.of_nat 8) with 8 in E1. step_bind E1.
  change (negb (0 =? 0)) with false. cbv iota.
  destruct Hc as [(-> & -> & pad & ->)|(-> & -> & -> & Hs')].
  - exists (pad ++ drop 8 left), s1. by rewrite <- !app_assoc.
  - destruct (IH k (done ++ take 8 t) (drop 8 left) (a + 8) (drop 8 t) s1) as (junk & s2 & E2 & M2);
      [by rewrite M1|by rewrite M1|lia|rewrite length_drop; lia|].
    exists junk, s2. by rewrite E2, M2, M1, <- app_assoc, (app_assoc (take 8 t)), take_drop.
Qed.

Lemma read_text_allocated m buffer k a t (s : tool K) : has_mem m s -> text_at m a t ->
  length buffer = (8 * k)%nat -> (length t / 8 < k)%nat ->
  exists junk s', read_string_allocated (S fuel) buffer pid a s = (Ok (0, t ++ 0 :: junk), s') /\ has_mem m s'.
Proof.
  intros [Hm Hb] Ht Hl Hk. subst m. apply text_string in Ht. unfold read_string_allocated.
  rewrite Hl, Nat.mul_comm, Nat.div_mul by done.
  destruct (read_words_total (text_words t) k [] buffer a t s Hb Ht) as (junk & s' & E & M);
    [unfold text_words; lia|done|].
  exists junk, s'. split; [done|]. by split.
Qed.

(** ** Symbols *)

(** A dynamic symbol table: names and values. *)
Inductive symtab_at (m : mem) (dynstr : Z) : Z -> list (bytes * Z) -> Prop :=
| symtab_nil a : symtab_at m dynstr a []
| symtab_cons a bs name l : mem_read a 24 m = Some bs -> 0 <= a -> a + 24 < 2 ^ 64 ->
    0 <= dynstr -> dynstr + u32_at 0 bs < 2 ^ 64 ->
    text_at m (dynstr + u32_at 0 bs) name -> (length name / 8 <= fuel)%nat -> symtab_at m dynstr (a + 24) l ->
    symtab_at m dynstr a ((name, u64_at 8 bs) :: l).

(** The first symbol of a name. *)
Fixpoint first_symbol (name : bytes) (l : list (bytes * Z)) : option Z :=
  match l with
  | [] => None
  | (n, v) :: l => if byte_eqb n name then Some v else first_symbol name l
  end.

Lemma first_symbol_None name l : name ∉ l.*1 -> first_symbol name l = None.
Proof.
  induction l as [|[n v] l IH]; [done|]. cbn [first_symbol fmap list_fmap fst]. rewrite not_elem_of_cons. intros [Hn Hl].
  rewrite (proj2 (byte_eqb_neq n name)) by done. auto.
Qed.

Lemma u32_at_range m a n (bs : bytes) off : (forall x b, m !! x = Some b -> is_byte b) ->
  mem_read a n m = Some bs -> 0 <= u32_at off bs.
Proof.
  intros Hb Hr. apply le_val_range. unfold slice. apply Forall_take, Forall_drop. by eapply mem_read_bytes.
Qed.

Lemma get_symbol_ok m dynstr name a l : symtab_at m dynstr a l -> forall s : tool K, has_mem m s ->
  exists s', get_symbol_by_name (S fuel) pid (length l) a dynstr name s = (Ok (default 0 (first_symbol name l)), s') /\
    has_mem m s'.
Proof.
  induction 1 as [a|a bs n l Hr Ha Halim Hd Hdlim Ht Hf Hl IH]; intros s Hs; [by exists s|].
  cbn [length get_symbol_by_name first_symbol].
  destruct (read_struct_ok m SYM_SIZE a bs s Hs ltac:(done) Hr) as (s1 & E1 & Hs1). step_bind E1.
  change (negb (0 =? 0)) with false. cbv iota.
  pose proof (u32_at_range m a 24 bs 0 (proj2 Hs) Hr) as Hu.
  rewrite (wrap_id 64 (dynstr + u32_at 0 bs)) by (unfold in_u; lia).
  destruct (read_text m _ n s1 Hs1 Ht Hf) as (pad & s2 & E2 & Hs2). step_bind E2.
  rewrite cstr_nul by apply Ht. destruct (byte_eqb n name); [by exists s2|].
  rewrite wrap_id by (unfold in_u, SYM_SIZE; lia). exact (IH s2 Hs2).
Qed.

(** ** The exports of libpulp *)

Definition PREFIX : bytes := str "__ulp".

(** What is recorded for the export [i] of a library at [base] whose version is
    [ver]. *)
Definition exported (base ver : Z) (i : nat) (v : Z) : Z :=
  if decide (i = VERSION) then ver else u64 (base + v).

Definition expected (base ver : Z) (old : list Z) (l : list (bytes * Z)) : list Z :=
  imap (fun i name => match first_symbol (PREFIX ++ name) l with
                      | Some v => exported base ver i v
                      | None => nth i old 0
                      end) export_names.

Lemma index_of_Some name l i : index_of name l = Some i -> l !! i = Some name.
Proof.
  revert i. induction l as [|x l IH]; intros i; [done|]. cbn [index_of].
  destruct (byte_eqb x name) eqn:E; [apply byte_eqb_spec in E as ->; by intros [= <-]|].
  destruct (index_of name l) as [j|]; [|done]. intros [= <-]. by apply IH.
Qed.

Lemma index_of_None name l : index_of name l = None -> name ∉ l.
Proof.
  induction l as [|x l IH]; intros Hi; [by apply not_elem_of_nil|]. cbn [index_of] in Hi.
  destruct (byte_eqb x name) eqn:E; [done|]. apply byte_eqb_neq in E.
  destruct (index_of name l); [done|]. apply not_elem_of_cons. split; [done|auto].
Qed.

Lemma export_names_inj i j name : export_names !! i = Some name -> export_names !! j = Some name -> i = j.
Proof. apply NoDup_lookup. apply (bool_decide_unpack _). by vm_compute. Qed.

(** No name of [l] remains to be found. *)
Lemma expected_none base ver old l : length old = 11%nat ->
  (forall name, name ∈ export_names -> PREFIX ++ name ∉ l.*1) -> expected base ver old l = old.
Proof.
  intros Hl Hn. apply list_eq. intros i. unfold expected. rewrite list_lookup_imap.
  destruct (export_names !! i) as [name|] eqn:E; cbn [fmap option_fmap option_map].
  - rewrite first_symbol_None by (apply Hn; by eapply list_elem_of_lookup_2).
    assert (Hi : (i < length old)%nat) by (rewrite Hl; exact (lookup_lt_Some _ _ _ E)).
    destruct (lookup_lt_is_Some_2 old i Hi) as [x Hx]. rewrite Hx. f_equal. by apply nth_lookup_Some.
  - symmetry. apply lookup_ge_None_2. rewrite Hl. exact (lookup_ge_None_1 _ _ E).
Qed.

(** A name that is no export. *)
Lemma expected_skip base ver old n v l : (forall name, name ∈ export_names -> n <> PREFIX ++ name) ->
  expected base ver old ((n, v) :: l) = expected base ver old l.
Proof.
  intros Hn. apply list_eq. intros i. unfold expected. rewrite !list_lookup_imap.
  destruct (export_names !! i) as [name|] eqn:E; [|done]. cbn [fmap option_fmap option_map first_symbol].
  by rewrite (proj2 (byte_eqb_neq n (PREFIX ++ name))) by (apply Hn; by eapply list_elem_of_lookup_2).
Qed.

(** An export. *)
Lemma expected_found base ver old i name v l : length old = 11%nat -> export_names !! i = Some name ->
  PREFIX ++ name ∉ l.*1 ->
  expected base ver old ((PREFIX ++ name, v) :: l) = expected base ver (<[i := exported base ver i v]> old) l.
Proof.
  intros Hl Hi Hn. apply list_eq. intros j. unfold expected. rewrite !list_lookup_imap.
  destruct (export_names !! j) as [name'|] eqn:E; [|done]. cbn [fmap option_fmap option_map first_symbol].
  destruct (decide (j = i)) as [->|Hne].
  - rewrite Hi in E. injection E as <-. rewrite byte_eqb_refl, (first_symbol_None _ _ Hn). f_equal.
    symmetry. apply nth_lookup_Some, list_lookup_insert_eq. rewrite Hl. exact (lookup_lt_Some _ _ _ Hi).
  - rewrite (proj2 (byte_eqb_neq (PREFIX ++ name) (PREFIX ++ name'))).
    + f_equal. destruct (first_symbol _ l); [done|]. by rewrite !nth_lookup, list_lookup_insert_ne.
    + intros Heq. apply app_inv_head in Heq as <-. by destruct (Hne (export_names_inj _ _ _ E Hi)).
Qed.

Section exports.
Variables (m : mem) (base ver : Z) (text : bytes).
Hypothesis Htext : ulp_version_from_string text = Ok ver.

(** Where the version symbol is, its text is. *)
Definition version_at (l : list (bytes * Z)) : Prop :=
  forall v, (PREFIX ++ str "_version", v) ∈ l -> text_at m (u64 (base + v)) text /\ (length text < 32)%nat.

Lemma version_cstr t junk : no_nul t -> ulp_version_from_string (t ++ 0 :: junk) = ulp_version_from_string t.
Proof. intros Ht. unfold ulp_version_from_string. by rewrite cstr_nul, (cstr_id t). Qed.

Lemma store_export_ok rest junk i v old bits (s : tool K) : has_mem m s -> no_nul rest ->
  index_of rest export_names = Some i ->
  (rest = str "_version" -> text_at m (u64 (base + v)) text /\ (length text < 32)%nat) ->
  exists s', store_export (S fuel) pid (rest ++ 0 :: junk) (u64 (base + v)) old bits s =
      (Ok (<[i := exported base ver i v]> old, Z.lor bits (Z.shiftl 1 (Z.of_nat i))), s') /\ has_mem m s'.
Proof.
  intros Hs Hn Hi Hv. unfold store_export, exported. rewrite cstr_nul, Hi by done.
  destruct (decide (i = VERSION)) as [->|Hne]; [|by exists s].
  apply index_of_Some in Hi. injection Hi as Hi.
  destruct (Hv (eq_sym Hi)) as [Ht Hl].
  destruct (read_text_allocated m (replicate 32 0) 4 _ text s Hs Ht eq_refl) as (j & s' & E & Hs');
    [apply Nat.Div0.div_lt_upper_bound; lia|].
  exists s'. split; [|done]. step_bind E. change (negb (0 =? 0)) with false. cbv iota.
  unfold bind, run_res. rewrite version_cstr, Htext by apply Ht. done.
Qed.

(** The bits of the exports that have been found: their names do not come again. *)
Definition seen (bits : Z) (l : list (bytes * Z)) : Prop :=
  forall i name, export_names !! i = Some name -> Z.testbit bits (Z.of_nat i) = true -> PREFIX ++ name ∉ l.*1.

Lemma seen_tail bits x l : seen bits (x :: l) -> seen bits l.
Proof. intros Hs i name Hi Hb. specialize (Hs i name Hi Hb). by apply not_elem_of_cons in Hs as [_ ?]. Qed.

Lemma seen_all l : seen 0x7FF l -> forall name, name ∈ export_names -> PREFIX ++ name ∉ l.*1.
Proof.
  intros Hs name Hin. apply list_elem_of_lookup_1 in Hin as [i Hi]. apply (Hs i name Hi).
  pose proof (lookup_lt_Some _ _ _ Hi) as Hlt. change (length export_names) with 11%nat in Hlt.
  do 11 (destruct i as [|i]; [done|]). lia.
Qed.

Lemma seen_add bits i name v l : base.NoDup (((PREFIX ++ name, v) :: l).*1) -> export_names !! i = Some name ->
  seen bits ((PREFIX ++ name, v) :: l) -> seen (Z.lor bits (Z.shiftl 1 (Z.of_nat i))) l.
Proof.
  intros Hd Hi Hs j name' Hj Hb. rewrite fmap_cons in Hd. apply list.NoDup_cons in Hd as [Hd _].
  rewrite Z.lor_spec, Z.shiftl_1_l, Z.pow2_bits_eqb in Hb by lia. apply orb_true_iff in Hb as [Hb|Hb].
  - exact (seen_tail bits _ l Hs j name' Hj Hb).
  - apply Z.eqb_eq, Nat2Z.inj in Hb as ->. rewrite Hi in Hj. by injection Hj as <-.
Qed.

Lemma prefix_split name pad : no_nul name ->
  if byte_eqb (take 5 (name ++ 0 :: pad)) PREFIX then name = PREFIX ++ drop 5 name /\ (5 <= length name)%nat
  else forall rest, name <> PREFIX ++ rest.
Proof.
  intros Hn. destruct (byte_eqb _ _) eqn:E.
  - apply byte_eqb_spec in E. destruct (decide (5 <= length name)%nat) as [Hl|Hl].
    + rewrite take_app_le in E by done. split; [by rewrite <- E, take_drop|done].
    + exfalso. destruct name as [|a [|b [|c [|d [|e name]]]]]; simpl in E, Hl; try discriminate; lia.
  - apply byte_eqb_neq in E. intros rest ->. apply E. done.
Qed.

(** The names fit in the buffer of the tool. *)
Definition short_names (l : list (bytes * Z)) : Prop := Forall (fun x => (length x.1 < 69)%nat) l.

Lemma scan_exports_ok dynstr a l : symtab_at m dynstr a l -> forall old bits (s : tool K), has_mem m s ->
  length old = 11%nat -> base.NoDup l.*1 -> short_names l -> version_at l -> seen bits l ->
  exists s', scan_exports (S fuel) pid (length l) base a dynstr old bits s = (Ok (0, expected base ver old l), s') /\
    has_mem m s'.
Proof.
  induction 1 as [a|a bs n l Hr Ha Halim Hd Hdlim Ht Hf Hl IH]; intros old bits s Hs Hold Hnd Hshort Hver Hseen.
  { exists s. by rewrite expected_none by (done || intros; apply not_elem_of_nil). }
  cbn [length scan_exports].
  assert (Hr4 : mem_read a (Z.to_nat 4) m = Some (take 4 bs))
    by (pose proof (mem_read_sub a 24 a 4 m bs Hr ltac:(lia) ltac:(lia)) as Hr4; by rewrite Z.sub_diag in Hr4).
  destruct (read_struct_ok m 4 a _ s Hs ltac:(done) Hr4) as (s1 & E1 & Hs1). step_bind E1. clear E1.
  change (negb (0 =? 0)) with false. cbv iota zeta.
  pose proof (u32_at_range m a 24 bs 0 (proj2 Hs) Hr) as Hu. change (le_val (take 4 bs)) with (u32_at 0 bs).
  rewrite (wrap_id 64 (dynstr + u32_at 0 bs)) by (unfold in_u; lia). set (p := dynstr + u32_at 0 bs) in *.
  destruct (text_take m p n 5 ltac:(lia) Ht) as [pad Hr5].
  destruct (read_struct_ok m 5 p _ s1 Hs1 ltac:(done) Hr5) as (s2 & E2 & Hs2). unfold read_struct in E2.
  change (Z.to_nat 5) with 5%nat in E2. step_bind E2. clear E2. change (negb (0 =? 0)) with false. cbv iota.
  pose proof (prefix_split n pad (proj1 Ht)) as Hpre. change (str "__ulp") with PREFIX.
  pose proof (Forall_inv Hshort) as Hlen. apply Forall_inv_tail in Hshort. cbn [fst] in Hlen.
  assert (Hver' : version_at l) by (intros v Hv; apply Hver; by right).
  assert (Hnd' : base.NoDup l.*1) by (by rewrite fmap_cons in Hnd; apply list.NoDup_cons in Hnd as [_ ?]).
  assert (Hnext : u64 (a + SYM_SIZE) = a + 24) by (apply wrap_id; unfold in_u, SYM_SIZE; lia).
  assert (Hskip : (forall name, name ∈ export_names -> n <> PREFIX ++ name) -> forall s3 : tool K, has_mem m s3 ->
    exists s', (if bits =? 0x7FF then ret (0, old)
      else scan_exports (S fuel) pid (length l) base (u64 (a + SYM_SIZE)) dynstr old bits) s3 =
      (Ok (0, expected base ver old ((n, u64_at 8 bs) :: l)), s') /\ has_mem m s').
  { intros Hno s3 Hs3. rewrite expected_skip by done. destruct (bits =? 0x7FF) eqn:Eb.
    - apply Z.eqb_eq in Eb as ->. exists s3. rewrite expected_none; [done|done|].
      apply seen_all. by eapply seen_tail.
    - rewrite Hnext. apply IH; try done. by eapply seen_tail. }
  destruct (byte_eqb _ PREFIX) eqn:Ep; [|by apply Hskip].
  destruct Hpre as [Hn Hn5]. pose proof (text_drop m p n 5 Hn5 Ht) as Htd. set (rest := drop 5 n) in *.
  assert (Hp5 : u64 (p + 5) = p + Z.of_nat 5).
  { destruct Ht as (_ & ? & ? & _). pose proof (zlen_nonneg n). apply wrap_id. unfold in_u. lia. }
  assert (Hrest : (length rest / 8 < 8)%nat)
    by (unfold rest; rewrite length_drop; apply Nat.Div0.div_lt_upper_bound; lia).
  rewrite Hp5. apply byte_eqb_spec in Ep as Ep'. rewrite Ep'.
  destruct (read_text_allocated m (PREFIX ++ replicate 59 0) 8 _ rest s2 Hs2 Htd eq_refl Hrest)
    as (junk & s3 & E3 & Hs3). step_bind E3. clear E3. change (negb (0 =? 0)) with false. cbv iota.
  destruct (read_struct_ok m SYM_SIZE a bs s3 Hs3 ltac:(done) Hr) as (s4 & E4 & Hs4). step_bind E4. clear E4.
  change (negb (0 =? 0)) with false. cbv iota.
  destruct (index_of rest export_names) as [i|] eqn:Ei.
  - destruct (store_export_ok rest junk i (u64_at 8 bs) old bits s4 Hs4 (proj1 Htd) Ei) as (s5 & E5 & Hs5).
    { intros Hr'. apply Hver. rewrite Hn, Hr'. left. }
    step_bind E5. clear E5. apply index_of_Some in Ei. rewrite Hn in Hnd, Hseen |- *.
    assert (Hnin : PREFIX ++ rest ∉ l.*1) by (by rewrite fmap_cons in Hnd; apply list.NoDup_cons in Hnd as [? _]).
    rewrite (expected_found base ver old i rest _ l Hold Ei Hnin).
    pose proof (seen_add bits i rest _ l Hnd Ei Hseen) as Hseen'. clear Hskip. destruct (Z.lor _ _ =? 0x7FF) eqn:Eb.
    + apply Z.eqb_eq in Eb. rewrite Eb in Hseen'. exists s5. rewrite expected_none; [done| |by apply seen_all].
      by rewrite length_insert.
    + rewrite Hnext. apply IH; try done. by rewrite length_insert.
  - unfold bind at 1. unfold store_export at 1. rewrite cstr_nul, Ei by apply Htd.
    apply Hskip; [|done]. intros name Hin Heq. rewrite Hn in Heq. apply app_inv_head in Heq as <-.
    by apply index_of_None in Ei.
Qed.
End exports.

(** ** Dynamic sections *)

(** The entries of a dynamic section, before the last one. *)
Inductive dynamic_at (m : mem) : Z -> list (Z * Z) -> Prop :=
| dynamic_end a bs : mem_read a 16 m = Some bs -> u64_at 0 bs = DT_NULL -> dynamic_at m a []
| dynamic_cons a bs l : mem_read a 16 m = Some bs -> u64_at 0 bs <> DT_NULL -> 0 <= a -> a + 16 < 2 ^ 64 ->
    dynamic_at m (a + 16) l -> dynamic_at m a ((u64_at 0 bs, u64_at 8 bs) :: l).

(** A tag that occurs once, with its value, given what was stored before. *)
Inductive gives (t v : Z) : Z -> list (Z * Z) -> Prop :=
| gives_done l : t ∉ l.*1 -> gives t v v l
| gives_here l : t ∉ l.*1 -> gives t v 0 ((t, v) :: l)
| gives_later x l : x.1 <> t -> gives t v 0 l -> gives t v 0 (x :: l).

Lemma gives_step t v cur tag val l : gives t v cur ((tag, val) :: l) ->
  gives t v (if tag =? t then val else cur) l.
Proof.
  intros Hg. inversion Hg as [? Hn|? Hn|? ? Hne Hl]; subst; cbn [fst] in *.
  - rewrite fmap_cons, not_elem_of_cons in Hn. destruct Hn as [Hn Hl]. cbn [fst] in Hn.
    rewrite (proj2 (Z.eqb_neq tag t)) by done. by constructor.
  - rewrite Z.eqb_refl. by constructor.
  - by rewrite (proj2 (Z.eqb_neq tag t)).
Qed.

Lemma gives_nonzero t v cur l : gives t v cur l -> cur <> 0 -> cur = v.
Proof. by destruct 1. Qed.

Lemma gives_nil t v cur : gives t v cur [] -> cur = v.
Proof. by inversion 1. Qed.

(** The address of the debugging structure of the dynamic loader. *)
Lemma find_debug_ok m a l : dynamic_at m a l -> forall n v (s : tool K), has_mem m s -> (length l < n)%nat ->
  (exists l1 l2, l = l1 ++ (DT_DEBUG, v) :: l2 /\ DT_DEBUG ∉ l1.*1) ->
  exists s', find_debug (S fuel) pid n a s = (Ok v, s') /\ has_mem m s'.
Proof.
  induction 1 as [a bs Hr Ht|a bs l Hr Ht Ha Halim Hl IH]; intros n v s Hs Hn (l1 & l2 & E & Hn1);
    [by destruct l1|]. destruct n as [|n]; [simpl in Hn; lia|]. cbn [find_debug].
  destruct (read_or_ok m ETARGETHOOK 16 a bs s Hs ltac:(done) Hr) as (s1 & E1 & Hs1). step_bind E1. cbv zeta.
  rewrite (proj2 (Z.eqb_neq _ _) Ht). destruct l1 as [|x l1].
  - injection E as -> -> _. rewrite Z.eqb_refl. by exists s1.
  - injection E as <- El. rewrite fmap_cons, not_elem_of_cons in Hn1. destruct Hn1 as [Hne Hn1]. cbn [fst] in Hne.
    rewrite (proj2 (Z.eqb_neq _ _)) by (by apply not_eq_sym). rewrite wrap_id by (unfold in_u; lia).
    apply IH; [done|simpl in Hn; lia|by exists l1, l2].
Qed.

Section tables.
Variables (sym strt hash : Z).

(** The three tables and no others, given the locals. *)
Definition tables_given (c : scan) (l : list (Z * Z)) : Prop :=
  gives DT_SYMTAB sym (s_dynsym c) l /\ gives DT_STRTAB strt (s_dynstr c) l /\ gives DT_HASH hash (s_hash c) l.

Hypothesis Hnz : sym <> 0 /\ strt <> 0 /\ hash <> 0.

Lemma all_found (x y z : Z) : negb (x =? 0) && negb (y =? 0) && negb (z =? 0) = true <-> x <> 0 /\ y <> 0 /\ z <> 0.
Proof. lia. Qed.

Lemma scan_dynamic_ok m a l : dynamic_at m a l -> forall n c (s : tool K), has_mem m s -> (length l < n)%nat ->
  tables_given c l ->
  exists s', scan_dynamic (S fuel) pid n a c s = (Ok (set_dynamic sym strt hash true c), s') /\ has_mem m s'.
Proof.
  induction 1 as [a bs Hr Ht|a bs l Hr Ht Ha Halim Hl IH]; intros n c s Hs Hn (G1 & G2 & G3);
    (destruct n as [|n]; [simpl in Hn; lia|]); cbn [scan_dynamic];
    destruct (read_or_ok m ETARGETHOOK 16 a bs s Hs ltac:(done) Hr) as (s1 & E1 & Hs1); step_bind E1; cbv zeta.
  - rewrite Ht. change (DT_NULL =? DT_SYMTAB) with false. change (DT_NULL =? DT_STRTAB) with false.
    change (DT_NULL =? DT_HASH) with false. cbv iota.
    apply gives_nil in G1, G2, G3. rewrite G1, G2, G3, (proj2 (all_found sym strt hash) Hnz). by exists s1.
  - apply gives_step in G1, G2, G3. destruct (negb _ && _ && _) eqn:Eall.
    + apply all_found in Eall as (N1 & N2 & N3).
      apply gives_nonzero in G1, G2, G3; [|done..]. rewrite G1, G2, G3. by exists s1.
    + rewrite (proj2 (Z.eqb_neq _ _) Ht). cbn [negb]. rewrite wrap_id by (unfold in_u; lia).
      destruct (IH n (set_dynamic _ _ _ (s_dynamic_ran c) c) s1 Hs1 ltac:(simpl in Hn; lia) (conj G1 (conj G2 G3)))
        as (s2 & E2 & Hs2). exists s2. by rewrite E2.
Qed.
End tables.

(** ** Notes *)

Definition note_size (bs : bytes) : Z := u32_at 4 bs + u32_at 0 bs + 12.

(** A note that is no identifier. *)
Definition other_note (bs : bytes) : Prop :=
  u32_at 8 bs <> NT_GNU_BUILD_ID /\ u32_at 0 bs mod 4 = 0 /\ u32_at 4 bs mod 4 = 0 /\ note_size bs < 2 ^ 32.

(** The notes of a segment up to [e]; the address of the identifier, if there is
    one. The lengths are multiples of four, as compilers make them. *)
Inductive notes_at (m : mem) (e : Z) : nat -> Z -> option Z -> Prop :=
| notes_id k a bs : mem_read a 12 m = Some bs -> u32_at 8 bs = NT_GNU_BUILD_ID -> u32_at 4 bs = 20 ->
    u32_at 0 bs mod 4 = 0 -> u32_at 0 bs < 2 ^ 32 -> 0 <= a -> a + 12 + u32_at 0 bs < 2 ^ 64 ->
    notes_at m e (S k) a (Some (a + 12 + u32_at 0 bs))
| notes_more k a bs r : mem_read a 12 m = Some bs -> other_note bs -> 0 <= a -> a + note_size bs < 2 ^ 64 ->
    a + note_size bs < e -> notes_at m e k (a + note_size bs) r -> notes_at m e (S k) a r
| notes_last k a bs : mem_read a 12 m = Some bs -> other_note bs -> 0 <= a -> a + note_size bs < 2 ^ 64 ->
    e <= a + note_size bs -> notes_at m e (S k) a None.

Lemma align_id x : 0 <= x < 2 ^ 32 -> x mod 4 = 0 -> u32 (x + x mod 4) = x.
Proof. intros Hx ->. rewrite Z.add_0_r. by apply wrap_id. Qed.

Lemma scan_notes_ok m e k : forall a r c (s : tool K), notes_at m e k a r -> has_mem m s -> s_note_ran c = false ->
  exists len s', scan_notes (S fuel) pid k a e c s =
    (Ok (match r with Some id => set_note id 20 true c | None => set_note (s_buildid_addr c) len false c end), s') /\
    has_mem m s'.
Proof.
  induction k as [|k IH]; intros a r c s Hn Hs Hc; [by inversion Hn|]. cbn [scan_notes]. rewrite Hc.
  inversion Hn as [? ? bs Hr Ht Hd Hm Hl Ha Hlim|? ? bs ? Hr (Ht & Hm0 & Hm4 & Hl) Ha Hlim He Hnext|
    ? ? bs Hr (Ht & Hm0 & Hm4 & Hl) Ha Hlim He]; subst; unfold note_size in *;
    destruct (read_or_ok m ETARGETHOOK 12 a bs s Hs ltac:(done) Hr) as (s1 & E1 & Hs1); step_bind E1; cbv zeta;
    pose proof (u32_at_range m a 12 bs 0 (proj2 Hs) Hr) as R0; pose proof (u32_at_range m a 12 bs 4 (proj2 Hs) Hr) as R4.
  1: { rewrite Ht, Hd, Z.eqb_refl. change (u32 (20 + 20 mod 4)) with 20. rewrite align_id by (done || lia).
    rewrite wrap_id by (unfold in_u; lia). exists 0, s1. split; [done|done]. }
  all: rewrite (proj2 (Z.eqb_neq _ _) Ht), !align_id by (done || lia).
  all: rewrite (wrap_id 32) by (unfold in_u; lia); rewrite (wrap_id 64) by (unfold in_u; lia).
  - rewrite (proj2 (Z.ltb_lt _ e) He).
    destruct (IH _ r (set_note (s_buildid_addr c) (u32_at 4 bs) (s_note_ran c) c) s1 Hnext Hs1 Hc) as (len & s2 & E2 & Hs2).
    exists len, s2. rewrite Hc in E2. rewrite E2. split; [|done]. by destruct r.
  - rewrite (proj2 (Z.ltb_ge _ e) He). by exists (u32_at 4 bs), s1.
Qed.

(** ** Program headers *)

(** An array of structures. *)
Inductive array_at (m : mem) (size : Z) : Z -> list bytes -> Prop :=
| array_nil a : array_at m size a []
| array_cons a bs l : mem_read a (Z.to_nat size) m = Some bs -> 0 <= a -> a + size < 2 ^ 64 ->
    array_at m size (a + size) l -> array_at m size a (bs :: l).

(** What a segment is to the tool. *)
Inductive segment := SDynamic (tags : list (Z * Z)) | SNotes (k : nat) (id : option Z) | SOther.

(** What the headers of a library say. *)
Record lib_tables := { lt_dynsym : Z; lt_dynstr : Z; lt_hash : Z; lt_id : Z }.

Definition zero_scan : scan :=
  {| s_dynsym := 0; s_dynstr := 0; s_hash := 0; s_dynamic_ran := false;
     s_buildid_addr := 0; s_buildid_len := 0; s_note_ran := false |}.

Section headers.
Variables (m : mem) (base : Z) (t : lib_tables).

Definition p_type (phdr : bytes) : Z := u32_at 0 phdr.
Definition p_start (phdr : bytes) : Z := u64 (base + u64_at 16 phdr).
Definition p_end (phdr : bytes) : Z := u64 (p_start phdr + u32 (u64_at 40 phdr)).

Definition segment_at (phdr : bytes) (g : segment) : Prop :=
  match g with
  | SDynamic tags => p_type phdr = PT_DYNAMIC /\ dynamic_at m (p_start phdr) tags /\ (length tags < S fuel)%nat /\
      tables_given (lt_dynsym t) (lt_dynstr t) (lt_hash t) zero_scan tags
  | SNotes k id => p_type phdr = PT_NOTE /\ notes_at m (p_end phdr) k (p_start phdr) id /\ k = S fuel /\
      (id = None \/ id = Some (lt_id t))
  | SOther => p_type phdr <> PT_DYNAMIC /\ p_type phdr <> PT_NOTE
  end.

Hypothesis Hnz : lt_dynsym t <> 0 /\ lt_dynstr t <> 0 /\ lt_hash t <> 0.

(** The locals are as the segments before gave them. *)
Definition dynamic_inv (c : scan) : Prop :=
  if s_dynamic_ran c then s_dynsym c = lt_dynsym t /\ s_dynstr c = lt_dynstr t /\ s_hash c = lt_hash t
  else s_dynsym c = 0 /\ s_dynstr c = 0 /\ s_hash c = 0.
Definition notes_inv (c : scan) : Prop :=
  if s_note_ran c then s_buildid_addr c = lt_id t /\ s_buildid_len c = 20 else s_buildid_addr c = 0.

(** What one header does. *)
Lemma segment_ok phdr g c (s : tool K) : segment_at phdr g -> has_mem m s -> dynamic_inv c -> notes_inv c ->
  exists c' s', (if (p_type phdr =? PT_DYNAMIC) && negb (s_dynamic_ran c) then scan_dynamic (S fuel) pid (S fuel) (p_start phdr) c
       else if p_type phdr =? PT_NOTE then scan_notes (S fuel) pid (S fuel) (p_start phdr) (p_end phdr) c
       else ret c) s = (Ok c', s') /\ has_mem m s' /\ dynamic_inv c' /\ notes_inv c' /\
    s_dynamic_ran c' = s_dynamic_ran c || (if g is SDynamic _ then true else false) /\
    s_note_ran c' = s_note_ran c || (if g is SNotes _ (Some _) then true else false).
Proof.
  intros Hg Hs Hd Hn. destruct g as [tags|k id|]; cbn [segment_at] in Hg.
  - destruct Hg as (-> & Hdyn & Hl & Hgiven). change (PT_DYNAMIC =? PT_DYNAMIC) with true. cbn [andb].
    destruct (s_dynamic_ran c) eqn:Er; cbn [negb].
    + change (PT_DYNAMIC =? PT_NOTE) with false. exists c, s. rewrite Er, !orb_false_r. by split_and!.
    + unfold dynamic_inv in Hd. rewrite Er in Hd. destruct Hd as (E1 & E2 & E3).
      destruct (scan_dynamic_ok _ _ _ Hnz m _ _ Hdyn (S fuel) c s Hs Hl) as (s' & E & Hs').
      { unfold tables_given in *. by rewrite E1, E2, E3. }
      eexists _, s'. rewrite E. split_and!; [done|done|done|exact Hn|done|symmetry; apply orb_false_r].
  - destruct Hg as (-> & Hnotes & -> & Hid). change (PT_NOTE =? PT_DYNAMIC) with false.
    change (PT_NOTE =? PT_NOTE) with true. cbn [andb]. destruct (s_note_ran c) eqn:Er.
    + exists c, s. cbn [scan_notes]. rewrite Er, orb_false_r. by split_and!.
    + destruct (scan_notes_ok m _ _ _ _ c s Hnotes Hs Er) as (len & s' & E & Hs'). rewrite E.
      unfold notes_inv in Hn. rewrite Er in Hn. destruct Hid as [->| ->]; eexists _, s'.
      * split_and!; [done|done|exact Hd|exact Hn|symmetry; apply orb_false_r|done].
      * split_and!; [done|done|exact Hd|by split|symmetry; apply orb_false_r|done].
  - destruct Hg as [Hnd Hnn]. rewrite (proj2 (Z.eqb_neq _ _) Hnd), (proj2 (Z.eqb_neq _ _) Hnn). cbn [andb].
    exists c, s. rewrite !orb_false_r. by split_and!.
Qed.

Definition has_dynamic (l : list segment) : bool := existsb (fun g => if g is SDynamic _ then true else false) l.
Definition has_id (l : list segment) : bool := existsb (fun g => if g is SNotes _ (Some _) then true else false) l.

Lemma scan_phdrs_ok a phdrs segs : array_at m PHDR_SIZE a phdrs -> Forall2 segment_at phdrs segs ->
  forall c (s : tool K), has_mem m s -> dynamic_inv c -> notes_inv c ->
  exists c' s', scan_phdrs (S fuel) pid (length phdrs) base a c s = (Ok c', s') /\ has_mem m s' /\
    dynamic_inv c' /\ notes_inv c' /\
    s_dynamic_ran c' = s_dynamic_ran c || has_dynamic segs /\ s_note_ran c' = s_note_ran c || has_id segs.
Proof.
  intros Ha. revert segs. induction Ha as [a|a phdr phdrs Hr H0a Halim Ha IH]; intros segs Hsegs c s Hs Hd Hn.
  { inversion Hsegs; subst. exists c, s. cbn [has_dynamic has_id existsb]. rewrite !orb_false_r. by split_and!. }
  inversion Hsegs as [|? g ? segs' Hg Hsegs']; subst. cbn [length scan_phdrs].
  destruct (read_or_ok m ETARGETHOOK PHDR_SIZE a phdr s Hs ltac:(done) Hr) as (s1 & E1 & Hs1). step_bind E1. cbv zeta.
  destruct (segment_ok phdr g c s1 Hg Hs1 Hd Hn) as (c1 & s2 & E2 & Hs2 & Hd1 & Hn1 & R1 & R2).
  step_bind E2. unfold has_dynamic, has_id. cbn [existsb]. rewrite !orb_assoc, <- R1, <- R2.
  destruct (s_dynamic_ran c1 && s_note_ran c1) eqn:Eb.
  - apply andb_true_iff in Eb as [B1 B2]. exists c1, s2. rewrite B1, B2. by split_and!.
  - rewrite wrap_id by (unfold in_u, PHDR_SIZE in *; lia). exact (IH segs' Hsegs' c1 s2 Hs2 Hd1 Hn1).
Qed.
End headers.

(** ** A library *)

(** A library in the memory of a process, as its headers describe it. *)
Record lib_image := {
  li_link : link_map; li_segs : list segment; li_tables : lib_tables; li_count : Z; li_id : bytes }.

Definition headers_at (m : mem) (img : lib_image) : Prop :=
  let base := l_addr (li_link img) in
  let t := li_tables img in
  base <> 0 /\ l_name (li_link img) <> 0 /\
  (exists ehdr phdrs, mem_read base 64 m = Some ehdr /\ le_val (slice 54 2 ehdr) = PHDR_SIZE /\
     le_val (slice 56 2 ehdr) = zlen phdrs /\ array_at m PHDR_SIZE (u64 (base + u64_at 32 ehdr)) phdrs /\
     Forall2 (segment_at m base t) phdrs (li_segs img)) /\
  (lt_dynsym t <> 0 /\ lt_dynstr t <> 0 /\ lt_hash t <> 0) /\ has_dynamic (li_segs img) = true /\
  (exists nchains, mem_read (u64 (lt_hash t + 4)) 4 m = Some nchains /\ s32 (le_val nchains) = li_count img) /\
  (has_id (li_segs img) = true -> lt_id t <> 0 /\ mem_read (lt_id t) 20 m = Some (li_id img)).

(** What the tool then knows about it. *)
Definition described (img : lib_image) (o : dynobj) : dynobj :=
  let t := li_tables img in
  set_tables (lt_dynstr t) (lt_dynsym t) (li_count img)
    (if has_id (li_segs img) then set_build_id (li_id img) o else o).

Lemma splice_whole {A} (bs l : list A) : length bs = length l -> splice 0 bs l = bs.
Proof. intros Hl. unfold splice. rewrite take_0. cbn [app Nat.add]. rewrite drop_ge, app_nil_r by lia. done. Qed.

Lemma run_res_bind {A B} (a : A) (k : A -> st (tool K) Z B) s : bind (run_res (Ok a)) k s = k a s.
Proof. done. Qed.

Lemma parse_headers_ok files main m img o (s : tool K) : has_mem m s -> headers_at m img ->
  o_link_map o = li_link img -> length (o_build_id o) = 20%nat ->
  exists s', parse_dynobj_elf_headers (S fuel) files pid main o s = (Ok (0, described img o), s') /\ has_mem m s'.
Proof.
  intros Hs (Hbase & Hname & (ehdr & phdrs & Hr & Hps & Hpn & Ha & Hsegs) & Hnz & Hdyn & (nch & Hrn & Hcount) & Hid) Hl Hlen.
  unfold parse_dynobj_elf_headers. rewrite Hl, (proj2 (Z.eqb_neq _ _) Hname). unfold get_ehdr_addr.
  rewrite Hl, (proj2 (Z.eqb_neq _ _) Hbase). cbn [negb].
  destruct (read_or_ok m ETARGETHOOK 64 _ ehdr s Hs ltac:(done) Hr) as (s1 & E1 & Hs1).
  destruct (scan_phdrs_ok m _ _ Hnz _ phdrs _ Ha Hsegs zero_scan s1 Hs1) as (c & s2 & E2 & Hs2 & Hd & Hn & R1 & R2); [done|done|].
  rewrite run_res_bind. step_bind E1. rewrite Hps, Hpn, zlen_nat. change (negb (PHDR_SIZE =? PHDR_SIZE)) with false.
  cbv iota. unfold zero_scan in E2. rewrite E2. clear E1 E2. cbn [s_dynamic_ran s_note_ran zero_scan orb] in R1, R2.
  rewrite Hdyn in R1. unfold dynamic_inv in Hd. rewrite R1 in Hd. destruct Hd as (D1 & D2 & D3).
  assert (Hbuild : exists s3, (if negb (s_buildid_addr c =? 0) && (s_buildid_len c =? 20) then
      let! r := read_memory (S fuel) (o_build_id o) 20 pid (s_buildid_addr c) in ret (set_build_id (snd r) o)
      else ret o) s2 = (Ok (if has_id (li_segs img) then set_build_id (li_id img) o else o), s3) /\ has_mem m s3).
  { unfold notes_inv in Hn. rewrite R2 in Hn. destruct (has_id (li_segs img)).
    - destruct Hn as [-> ->]. destruct (Hid eq_refl) as [Hi Hri]. rewrite (proj2 (Z.eqb_neq _ _) Hi).
      change (20 =? 20) with true. cbn [negb andb]. destruct Hs2 as [M2 B2]. subst m.
      destruct (read_memory_succeeds fuel (o_build_id o) pid (lt_id (li_tables img)) s2) as (bs & s3 & E3 & M3 & R3);
        [unfold mapped; rewrite Hlen, Hri; by eexists|].
      rewrite Hlen, Hri in R3. injection R3 as <-. unfold zlen in E3. rewrite Hlen in E3. change (Z.of_nat 20) with 20 in E3.
      exists s3. step_bind E3. by split.
    - rewrite Hn. by exists s2. }
  destruct Hbuild as (s3 & E3 & Hs3). step_bind E3. rewrite D1, D2, D3. destruct Hnz as (_ & _ & Hh).
  rewrite (proj2 (Z.eqb_neq _ _) Hh). cbn [negb].
  destruct (read_struct_ok m 4 _ nch s3 Hs3 ltac:(done) Hrn) as (s4 & E4 & Hs4). step_bind E4.
  change (negb (0 =? 0)) with false. cbv iota. exists s4. by rewrite Hcount.
Qed.

(** The tables of an object are [syms]. *)
Definition tables_at (m : mem) (o : dynobj) (syms : list (bytes * Z)) : Prop :=
  o_dynsym_addr o <> 0 /\ o_dynstr_addr o <> 0 /\ 0 < o_num_symbols o /\ o_num_symbols o = zlen syms /\
  symtab_at m (o_dynstr_addr o) (o_dynsym_addr o) syms.

(** Looking up a symbol of a loaded library gives its address: the load address
    plus the value of the first symbol of the name in the dynamic symbol table of the
    library, as the process has it in memory, and 0 when there is none or its value
    is 0; the process is as it was. *)
Theorem get_loaded_symbol_addr_spec m o syms name (s : tool K)
    (Hs : has_mem m s) (Ht : tables_at m o syms) :
  exists s', get_loaded_symbol_addr (S fuel) pid o name s =
      (Ok (match first_symbol name syms with
           | None | Some 0 => 0
           | Some v => u64 (l_addr (o_link_map o) + v)
           end), s') /\ has_mem m s'.
Proof.
  destruct Ht as (Hd1 & Hd2 & Hd3 & Hn & Hsyms). unfold get_loaded_symbol_addr.
  rewrite (proj2 (Z.eqb_neq _ _) Hd1), (proj2 (Z.eqb_neq _ _) Hd2), (proj2 (Z.leb_gt _ _) Hd3). cbn [orb].
  destruct (get_symbol_ok m _ name _ _ Hsyms s Hs) as (s' & E & Hs'). rewrite Hn, zlen_nat. step_bind E.
  exists s'. split; [|done]. destruct (first_symbol name syms) as [[|v|v]|]; done.
Qed.

(** The exports of libpulp are read from its symbol table. *)
Lemma extern_symbols_ok m o syms ver text (s : tool K) : has_mem m s -> tables_at m o syms ->
  base.NoDup syms.*1 -> short_names syms -> ulp_version_from_string text = Ok ver ->
  version_at m (l_addr (o_link_map o)) text syms -> length (o_exports o) = 11%nat ->
  exists s', get_libpulp_extern_symbols (S fuel) pid o s =
    (Ok (0, set_exports (expected (l_addr (o_link_map o)) ver (o_exports o) syms) o), s') /\ has_mem m s'.
Proof.
  intros Hs (Hd1 & Hd2 & Hd3 & Hn & Hsyms) Hnd Hshort Htext Hver Hlen. unfold get_libpulp_extern_symbols.
  rewrite (proj2 (Z.eqb_neq _ _) Hd1), (proj2 (Z.eqb_neq _ _) Hd2), (proj2 (Z.leb_gt _ _) Hd3). cbn [orb].
  destruct (scan_exports_ok m (l_addr (o_link_map o)) ver text Htext _ _ _ Hsyms (o_exports o) 0 s Hs Hlen Hnd Hshort Hver)
    as (s' & E & Hs'); [intros i name _; by rewrite Z.bits_0|].
  rewrite Hn, zlen_nat. step_bind E. by exists s'.
Qed.

(** A name whose length is 1 modulo 4 is taken to end two bytes too early: the
    identifier is then read from the wrong place. *)
Lemma note_misaligned m e k a bs c (s : tool K) : has_mem m s -> s_note_ran c = false ->
  mem_read a 12 m = Some bs -> u32_at 8 bs = NT_GNU_BUILD_ID -> u32_at 0 bs mod 4 = 1 ->
  u32_at 0 bs + 1 < 2 ^ 32 -> 0 <= a -> a + 16 + u32_at 0 bs < 2 ^ 64 ->
  exists len s', scan_notes (S fuel) pid (S k) a e c s = (Ok (set_note (a + 12 + (u32_at 0 bs + 1)) len true c), s').
Proof.
  intros Hs Hc Hr Ht Hm Hl Ha Hlim. cbn [scan_notes]. rewrite Hc.
  destruct (read_or_ok m ETARGETHOOK 12 a bs s Hs ltac:(done) Hr) as (s1 & E1 & _). step_bind E1. cbv zeta.
  pose proof (u32_at_range m a 12 bs 0 (proj2 Hs) Hr). rewrite Ht, Hm, Z.eqb_refl.
  rewrite (wrap_id 32 (u32_at 0 bs + 1)), wrap_id by (unfold in_u; lia). by eexists _, s1.
Qed.

(** When the auxiliary vector cannot be opened, reading from the descriptor -1 fails
    instead. *)
Lemma auxv_open_failure files p (s : tool K) : f_auxv_fd files = -1 -> f_auxv files = [] ->
  dig_load_bias fuel files pid p s = (Err (f_errno files), s).
Proof. intros Hfd Ha. unfold dig_load_bias. by rewrite Hfd, Ha. Qed.
End reading.
