(* ===== verification/IntrospectProcess.v ===== *)
(** * A process that has loaded libpulp

    From the auxiliary vector to the exports of libpulp: what the tool knows about a
    process once [initialize_data_structures] has run. *)

From stdpp Require Import gmap.
From S2P Require Import Prelude Errors Memory SymbolLoader Ptrace InsnQueueTool PatchId ElfFile RemoteState Introspect IntrospectSpec.

Open Scope ulp_scope.

Section process.
Context {K : Type} `{Cooperative K}.
Variable fuel : nat.
Variable files : proc_files.
Variable pid : Z.
Variable m : mem.

Local Abbreviation ok_mem := (has_mem (K := K) pid m).

(** ** The libraries *)

Definition is_libpulp (name : bytes) : bool := strstr name (str "libpulp.so").

(** The link map from [a]: its structures and the names of the files. *)
Inductive link_chain : Z -> list (link_map * bytes) -> Prop :=
| link_nil : link_chain 0 []
| link_cons a bs name l : a <> 0 -> mem_read a 40 m = Some bs -> text_at m (l_name (link_map_of bs)) name ->
    (length name / 8 <= fuel)%nat -> link_chain (l_next (link_map_of bs)) l ->
    link_chain a ((link_map_of bs, name) :: l).

Definition fresh (x : link_map * bytes) : dynobj := new_dynobj x.2 x.1.

(** The library named after libpulp that is read last, by the libraries before it. *)
Fixpoint named (l : list (link_map * bytes)) (k : nat) (libpulp : option nat) : option nat :=
  match l with
  | [] => libpulp
  | x :: l => named l (S k) (if is_libpulp x.2 then Some k else libpulp)
  end.

Lemma scan_link_map_ok a l : link_chain a l -> forall n targets lp (s : tool K), ok_mem s -> (length l < n)%nat ->
  exists s', scan_link_map (S fuel) pid n a targets lp s =
    (Ok (rev (map fresh l) ++ targets, named l (length targets) lp), s') /\ ok_mem s'.
Proof.
  induction 1 as [|a bs name l Ha Hr Ht Hf Hl IH]; intros n targets lp s Hs Hn;
    (destruct n as [|n]; [simpl in Hn; lia|]); cbn [scan_link_map]; [by exists s|].
  rewrite (proj2 (Z.eqb_neq a 0) Ha). unfold get_libname_dynobj.
  destruct (read_struct_ok fuel pid m LINK_MAP_SIZE a bs s Hs ltac:(done) Hr) as (s1 & E1 & Hs1).
  destruct (read_text fuel pid m _ name s1 Hs1 Ht Hf) as (pad & s2 & E2 & Hs2).
  destruct (IH n (fresh (link_map_of bs, name) :: targets) (if is_libpulp name then Some (length targets) else lp) s2 Hs2
    ltac:(simpl in Hn; lia)) as (s3 & E3 & Hs3).
  exists s3. split; [|done]. rewrite bind_assoc. step_bind E1. change (negb (0 =? 0)) with false. cbv iota zeta.
  rewrite bind_assoc. step_bind E2. cbn [snd]. rewrite ret_bind, cstr_nul by apply Ht. cbn [o_filename new_dynobj o_link_map].
  unfold fresh, is_libpulp in E3 |- *. cbn [fst snd length] in E3. rewrite E3. cbn [map rev named fst snd].
  by rewrite <- app_assoc.
Qed.

Lemma named_none l k lp : Forall (fun x => is_libpulp x.2 = false) l -> named l k lp = lp.
Proof. intros Hl. revert k. induction Hl as [|x l Hx _ IH]; intros k; [done|]. cbn [named]. by rewrite Hx. Qed.

Lemma named_one l1 x l2 k lp : Forall (fun x => is_libpulp x.2 = false) l1 -> is_libpulp x.2 = true ->
  Forall (fun x => is_libpulp x.2 = false) l2 -> named (l1 ++ x :: l2) k lp = Some (k + length l1)%nat.
Proof.
  intros Hl1 Hx Hl2. revert k lp. induction Hl1 as [|y l1 Hy _ IH]; intros k lp; cbn [app named length].
  - rewrite Hx, named_none by done. f_equal. lia.
  - rewrite Hy, IH. f_equal. lia.
Qed.

(** A library other than libpulp, and what the tool knows about it. The object that
    the kernel maps has no headers that are read. *)
Inductive plain_lib (x : link_map * bytes) : dynobj -> Prop :=
| plain_vdso : x.2 = str "linux-vdso.so.1" \/ x.2 = str "linux-vdso64.so.1" -> plain_lib x (fresh x)
| plain_image img : x.2 <> str "linux-vdso.so.1" -> x.2 <> str "linux-vdso64.so.1" -> is_libpulp x.2 = false ->
    li_link img = x.1 -> headers_at fuel m img -> plain_lib x (described img (fresh x)).

Lemma plain_name x o : plain_lib x o -> is_libpulp x.2 = false.
Proof. by destruct 1 as [[-> | ->]|]. Qed.

Lemma described_filename img o : o_filename (described img o) = o_filename o.
Proof. unfold described. by destruct (has_id _). Qed.

Lemma described_link img o : o_link_map (described img o) = o_link_map o.
Proof. unfold described. by destruct (has_id _). Qed.

Lemma described_exports img o : o_exports (described img o) = o_exports o.
Proof. unfold described. by destruct (has_id _). Qed.

Lemma parse_plain main x o (s : tool K) : plain_lib x o -> ok_mem s ->
  exists s', parse_lib_dynobj (S fuel) files pid main (fresh x) s = (Ok (0, o, false), s') /\ ok_mem s'.
Proof.
  intros Hx Hs. unfold parse_lib_dynobj. cbn [fresh new_dynobj o_num_symbols]. change (0 <? 0) with false. cbn [andb].
  pose proof (plain_name _ _ Hx) as Hn. destruct Hx as [Hv|img Hn1 Hn2 Hn' Hl Hh].
  - exists s. split; [|done]. destruct x as [l name]. cbn [snd] in *. by destruct Hv as [-> | ->].
  - destruct (parse_headers_ok fuel pid files main m img (fresh x) s Hs Hh (eq_sym Hl) eq_refl) as (s' & E & Hs').
    exists s'. split; [|done]. change (o_filename (fresh x)) with (x.2). rewrite (proj2 (byte_eqb_neq _ _) Hn1), (proj2 (byte_eqb_neq _ _) Hn2).
    cbn [negb andb]. rewrite !bind_assoc. step_bind E. rewrite ret_bind. cbn [snd].
    rewrite described_filename. change (o_filename (fresh x)) with (x.2). unfold is_libpulp in Hn. by rewrite Hn.
Qed.

(** libpulp: its image, its symbols and its version. *)
Record libpulp_image := { lp_image : lib_image; lp_name : bytes; lp_syms : list (bytes * Z); lp_version : Z }.

Definition libpulp_at (lp : libpulp_image) : Prop :=
  is_libpulp (lp_name lp) = true /\ headers_at fuel m (lp_image lp) /\
  li_count (lp_image lp) = zlen (lp_syms lp) /\ 0 < li_count (lp_image lp) /\
  symtab_at fuel m (lt_dynstr (li_tables (lp_image lp))) (lt_dynsym (li_tables (lp_image lp))) (lp_syms lp) /\
  base.NoDup (lp_syms lp).*1 /\ short_names (lp_syms lp) /\
  exists text, ulp_version_from_string text = Ok (lp_version lp) /\
    version_at m (l_addr (li_link (lp_image lp))) text (lp_syms lp).

(** The addresses that the tool uses, by their index in [export_names]. *)
Definition libpulp_exports (lp : libpulp_image) : list Z :=
  expected (l_addr (li_link (lp_image lp))) (lp_version lp) (replicate 11 0) (lp_syms lp).

Definition libpulp_object (lp : libpulp_image) : dynobj :=
  set_exports (libpulp_exports lp) (described (lp_image lp) (new_dynobj (lp_name lp) (li_link (lp_image lp)))).

Lemma parse_libpulp main lp (s : tool K) : libpulp_at lp -> ok_mem s ->
  exists b s', parse_lib_dynobj (S fuel) files pid main (new_dynobj (lp_name lp) (li_link (lp_image lp))) s =
    (Ok (0, libpulp_object lp, b), s') /\ ok_mem s'.
Proof.
  intros (Hn & Hh & Hc & Hpos & Hsyms & Hnd & Hshort & text & Htext & Hver) Hs. unfold parse_lib_dynobj.
  set (o := new_dynobj _ _). change (0 <? o_num_symbols o) with false. cbn [andb].
  destruct (parse_headers_ok fuel pid files main m (lp_image lp) o s Hs Hh eq_refl eq_refl) as (s1 & E1 & Hs1).
  assert (Hv : negb (byte_eqb (o_filename o) (str "linux-vdso.so.1")) && negb (byte_eqb (o_filename o) (str "linux-vdso64.so.1")) = true).
  { apply andb_true_iff. split; apply negb_true_iff, byte_eqb_neq; intros Heq; unfold o in Heq; cbn in Heq; by rewrite Heq in Hn. }
  rewrite Hv, !bind_assoc. step_bind E1. rewrite ret_bind. cbn [snd]. rewrite described_filename.
  unfold is_libpulp in Hn. change (o_filename o) with (lp_name lp). rewrite Hn.
  pose proof Hh as (_ & _ & _ & (Hnz1 & Hnz2 & _) & _).
  assert (Ht : tables_at fuel m (described (lp_image lp) o) (lp_syms lp)).
  { unfold described, tables_at. cbn [o_dynsym_addr o_dynstr_addr o_num_symbols set_tables]. auto. }
  destruct (extern_symbols_ok fuel pid m _ (lp_syms lp) (lp_version lp) text s1 Hs1 Ht Hnd Hshort Htext) as (s2 & E2 & Hs2);
    [by rewrite described_link|by rewrite described_exports|].
  step_bind E2. cbn [snd]. rewrite described_link, described_exports.
  change (set_exports _ _) with (libpulp_object lp).
  destruct (forallb _ required); [by exists true, s2|]. exists false.
  destruct (existsb _ required); [|by exists s2]. by eexists.
Qed.

(** The others are parsed and libpulp is left alone. *)
Lemma parse_targets_plain main l os k (s : tool K) : Forall2 plain_lib l os -> ok_mem s -> (length l <= k)%nat ->
  exists s', parse_targets (S fuel) files pid main (map fresh l) (Some k) s = (Ok (os, Some k), s') /\ ok_mem s'.
Proof.
  intros Hl. revert s. induction Hl as [|x o l os Hx Hl IH]; intros s Hs Hk; [by exists s|].
  cbn [map parse_targets]. rewrite length_map. cbn [length] in Hk.
  rewrite bool_decide_eq_false_2 by (intros [= ->]; lia).
  destruct (parse_plain main x o s Hx Hs) as (s1 & E1 & Hs1). step_bind E1. cbv iota beta.
  change (negb (0 =? 0)) with false. cbv iota. destruct (IH s1 Hs1 ltac:(lia)) as (s2 & E2 & Hs2). step_bind E2.
  by exists s2.
Qed.

Lemma parse_targets_ok main l1 os1 lpo l2 os2 (s : tool K) : Forall2 plain_lib l1 os1 -> Forall2 plain_lib l2 os2 ->
  ok_mem s ->
  exists s', parse_targets (S fuel) files pid main (map fresh l1 ++ lpo :: map fresh l2) (Some (length l2)) s =
    (Ok (os1 ++ lpo :: os2, Some (length l2)), s') /\ ok_mem s'.
Proof.
  intros Hl1 Hl2. revert s. induction Hl1 as [|x o l1 os1 Hx Hl1 IH]; intros s Hs; cbn [map app parse_targets].
  - rewrite length_map, bool_decide_eq_true_2 by done.
    destruct (parse_targets_plain main l2 os2 (length l2) s Hl2 Hs ltac:(lia)) as (s1 & E1 & Hs1). step_bind E1. by exists s1.
  - rewrite length_app, length_map. cbn [length]. rewrite length_map, bool_decide_eq_false_2 by (intros [=]; lia).
    destruct (parse_plain main x o s Hx Hs) as (s1 & E1 & Hs1). step_bind E1. cbv iota beta.
    change (negb (0 =? 0)) with false. cbv iota. destruct (IH s1 Hs1) as (s2 & E2 & Hs2). step_bind E2. by exists s2.
Qed.

(** The link map behind the program: libpulp once, and other libraries. *)
Record loaded := {
  before : list (link_map * bytes); before_objects : list dynobj; libpulp : libpulp_image;
  after : list (link_map * bytes); after_objects : list dynobj }.

Definition lp_entry (lp : libpulp_image) : link_map * bytes := (li_link (lp_image lp), lp_name lp).

Definition loaded_at (a : Z) (d : loaded) : Prop :=
  link_chain a (before d ++ lp_entry (libpulp d) :: after d) /\
  Forall2 plain_lib (before d) (before_objects d) /\ Forall2 plain_lib (after d) (after_objects d) /\
  libpulp_at (libpulp d) /\ (length (before d) + length (after d) < fuel)%nat.

(** The libraries that the tool lists, the last first. *)
Definition objects (d : loaded) : list dynobj :=
  rev (after_objects d) ++ libpulp_object (libpulp d) :: rev (before_objects d).

Lemma Forall2_plain_rev l os : Forall2 plain_lib l os -> Forall2 plain_lib (rev l) (rev os).
Proof. induction 1; [done|]. cbn [rev]. apply Forall2_app; [done|by constructor]. Qed.

Lemma plain_names l os : Forall2 plain_lib l os -> Forall (fun x => is_libpulp x.2 = false) l.
Proof. induction 1; constructor; [by eapply plain_name|done]. Qed.

Lemma parse_libs_ok main d p (s : tool K) : dynobj_main p = Some main -> dynobj_targets p = [] ->
  loaded_at (l_next (o_link_map main)) d -> ok_mem s ->
  exists s', parse_libs_dynobj (S fuel) files pid p s =
    (Ok (set_targets (objects d) (Some (length (before d))) p), s') /\ ok_mem s'.
Proof.
  intros Hmain Htg (Hchain & Hb & Ha & Hlp & Hfuel) Hs. unfold parse_libs_dynobj. rewrite Hmain, Htg.
  destruct (scan_link_map_ok _ _ Hchain (S fuel) [] (dynobj_libpulp p) s Hs) as (s1 & E1 & Hs1);
    [rewrite length_app; cbn [length]; lia|].
  step_bind E1. cbv iota beta. cbn [length]. rewrite app_nil_r, named_one; try by eapply plain_names.
  2: apply Hlp. rewrite Nat.add_0_l. rewrite map_app, rev_app_distr. cbn [map rev]. rewrite <- app_assoc. cbn [app].
  set (o := fresh (lp_entry (libpulp d))). rewrite <- !map_rev.
  assert (Hat : (length (map fresh (rev (after d)) ++ o :: map fresh (rev (before d))) - 1 - length (before d))%nat =
    length (map fresh (rev (after d)))).
  { rewrite length_app. cbn [length]. rewrite !length_map, !length_rev. lia. }
  rewrite Hat, list_lookup_middle by done. cbn [deref]. rewrite run_res_bind.
  destruct (parse_libpulp (o_filename main) (libpulp d) s1 Hlp Hs1) as (b & s2 & E2 & Hs2).
  change o with (new_dynobj (lp_name (libpulp d)) (li_link (lp_image (libpulp d)))). step_bind E2. cbv iota beta.
  change (negb (0 =? 0)) with false. cbv iota. rewrite insert_app_r_alt by lia. rewrite Nat.sub_diag. cbn [insert list_insert].
  destruct (parse_targets_ok (o_filename main) (rev (after d)) (rev (after_objects d)) (libpulp_object (libpulp d))
    (rev (before d)) (rev (before_objects d)) s2) as (s3 & E3 & Hs3); [by apply Forall2_plain_rev..|done|].
  rewrite length_rev in E3. step_bind E3. by exists s3.
Qed.

(** A library is taken for libpulp by its name, without any of the symbols. *)
Lemma impostor main d p (s : tool K) : dynobj_main p = Some main -> dynobj_targets p = [] ->
  loaded_at (l_next (o_link_map main)) d -> ok_mem s ->
  (forall name, name ∈ export_names -> PREFIX ++ name ∉ (lp_syms (libpulp d)).*1) ->
  exists p' o s', parse_libs_dynobj (S fuel) files pid p s = (Ok p', s') /\ libpulp_of p' = Some o /\
    o_exports o = replicate 11 0.
Proof.
  intros Hmain Htg Hd Hs Hno. destruct (parse_libs_ok main d p s Hmain Htg Hd Hs) as (s' & E & _).
  eexists _, _, s'. split; [exact E|]. split.
  - destruct Hd as (_ & Hb & _). apply Forall2_length in Hb. unfold libpulp_of, objects. cbn.
    rewrite length_app. cbn [length]. rewrite !length_rev. apply list_lookup_middle. rewrite length_rev, Hb. lia.
  - exact (expected_none _ _ (replicate 11 0) _ eq_refl Hno).
Qed.

(** ** The main program *)

(** The auxiliary vector, before its end. *)
Fixpoint auxv_of (l : list (Z * Z)) : bytes :=
  match l with
  | [] => le_bytes 8 AT_NULL ++ le_bytes 8 0
  | (t, v) :: l => le_bytes 8 t ++ le_bytes 8 v ++ auxv_of l
  end.

(** The last value of a type, [v] when there is none. *)
Definition last_of (t : Z) (l : list (Z * Z)) (v : Z) : Z :=
  foldl (fun v x => if x.1 =? t then x.2 else v) v l.

Definition auxv_ok (l : list (Z * Z)) : Prop :=
  Forall (fun x => in_u 64 x.1 /\ in_u 64 x.2 /\ x.1 <> AT_NULL) l.

Lemma u64_at_head v rest : in_u 64 v -> u64_at 0 (le_bytes 8 v ++ rest) = v.
Proof.
  intros Hv. unfold u64_at, slice. rewrite drop_0, take_app_length' by by rewrite length_le_bytes.
  apply le_val_bytes. exact Hv.
Qed.

Lemma auxv_entry t v rest : in_u 64 t -> in_u 64 v ->
  let bs := le_bytes 8 t ++ le_bytes 8 v ++ rest in
  (zlen bs <? 16) = false /\ u64_at 0 bs = t /\ u64_at 8 bs = v /\ drop 16 bs = rest.
Proof.
  intros Ht Hv. cbv zeta. rewrite (app_assoc (le_bytes 8 t)).
  assert (Hl : length (le_bytes 8 t ++ le_bytes 8 v) = 16%nat) by by rewrite length_app, !length_le_bytes.
  split_and!.
  - apply Z.ltb_ge. unfold zlen. rewrite length_app, Hl. lia.
  - rewrite <- app_assoc. by apply u64_at_head.
  - rewrite <- app_assoc. unfold u64_at, slice. rewrite drop_app_length' by by rewrite length_le_bytes.
    exact (u64_at_head v rest Hv).
  - by rewrite drop_app_length' by done.
Qed.

(** The types that the loop knows are different. *)
Lemma scan_auxv_ok l : auxv_ok l -> forall n e p h c (s : tool K), (length l < n)%nat ->
  scan_auxv files n (auxv_of l) (e, p, h, c) s =
    (Ok (last_of AT_ENTRY l e, last_of AT_PHDR l p,
         foldl (fun v x => if x.1 =? AT_PHENT then s32 x.2 else v) h l,
         foldl (fun v x => if x.1 =? AT_PHNUM then s32 x.2 else v) c l), s).
Proof.
  induction 1 as [|[t v] l (Ht & Hv & Hn) _ IH]; intros n e p h c s Hlen;
    (destruct n as [|n]; [simpl in Hlen; lia|]); cbn [auxv_of scan_auxv fst snd] in *; [done|].
  destruct (auxv_entry t v (auxv_of l) Ht Hv) as (E1 & E2 & E3 & E4). rewrite E1, E2, E3, E4.
  rewrite (proj2 (Z.eqb_neq t AT_NULL) Hn). unfold last_of. cbn [foldl fst snd].
  assert (Hlen' : (length l < n)%nat) by (simpl in Hlen; lia).
  destruct (t =? AT_ENTRY) eqn:B1; [apply Z.eqb_eq in B1 as ->; exact (IH n v p h c s Hlen')|].
  destruct (t =? AT_PHDR) eqn:B2; [apply Z.eqb_eq in B2 as ->; exact (IH n e v h c s Hlen')|].
  destruct (t =? AT_PHNUM) eqn:B3; [apply Z.eqb_eq in B3 as ->; exact (IH n e p h (s32 v) s Hlen')|].
  destruct (t =? AT_PHENT) eqn:B4; [apply Z.eqb_eq in B4 as ->; exact (IH n e p (s32 v) c s Hlen')|].
  exact (IH n e p h c s Hlen').
Qed.

(** The last header of a type. *)
Definition last_vaddr (t : Z) (phdrs : list bytes) (v : Z) : Z :=
  foldl (fun v phdr => if u32_at 0 phdr =? t then u64_at 16 phdr else v) v phdrs.

Lemma scan_main_phdrs_ok a phdrs : array_at m PHDR_SIZE a phdrs -> forall x y (s : tool K), ok_mem s ->
  exists s', scan_main_phdrs (S fuel) pid (length phdrs) a x y s =
    (Ok (last_vaddr PT_PHDR phdrs x, last_vaddr PT_DYNAMIC phdrs y), s') /\ ok_mem s'.
Proof.
  induction 1 as [a|a phdr phdrs Hr H0a Halim Ha IH]; intros x y s Hs; [by exists s|].
  cbn [length scan_main_phdrs].
  destruct (read_or_ok fuel pid m ETARGETHOOK PHDR_SIZE a phdr s Hs ltac:(done) Hr) as (s1 & E1 & Hs1). step_bind E1.
  cbv zeta. rewrite wrap_id by (unfold in_u, PHDR_SIZE in *; lia). exact (IH _ _ s1 Hs1).
Qed.

(** A program of which the kernel says where its headers are. *)
Record program := {
  pr_auxv : list (Z * Z); pr_phdr : Z; pr_phdrs : list bytes; pr_tags : list (Z * Z);
  pr_debug : Z; pr_link : Z; pr_image : lib_image }.

Definition pr_bias (g : program) : Z :=
  if last_vaddr PT_PHDR (pr_phdrs g) 0 =? 0 then 0 else u64 (pr_phdr g - last_vaddr PT_PHDR (pr_phdrs g) 0).
Definition pr_dynamic (g : program) : Z :=
  if last_vaddr PT_PHDR (pr_phdrs g) 0 =? 0 then last_vaddr PT_DYNAMIC (pr_phdrs g) 0
  else u64 (last_vaddr PT_DYNAMIC (pr_phdrs g) 0 + (pr_phdr g - last_vaddr PT_PHDR (pr_phdrs g) 0)).

(** What [/proc] and the headers say of the program. *)
Definition program_files (g : program) : Prop :=
  let l := pr_auxv g in
  f_auxv_fd files <> 0 /\ f_auxv files = auxv_of l /\ auxv_ok l /\
  last_of AT_ENTRY l 0 <> 0 /\ last_of AT_PHDR l 0 = pr_phdr g /\ pr_phdr g <> 0 /\
  foldl (fun v x => if x.1 =? AT_PHENT then s32 x.2 else v) 0 l = PHDR_SIZE /\
  foldl (fun v x => if x.1 =? AT_PHNUM then s32 x.2 else v) 0 l = zlen (pr_phdrs g) /\
  array_at m PHDR_SIZE (pr_phdr g) (pr_phdrs g).

(** What its memory says: the dynamic section, the debugging structure of the
    loader, the first link map, and the headers of a position-independent program. *)
Definition program_memory (g : program) : Prop :=
  dynamic_at m (pr_dynamic g) (pr_tags g) /\ (length (pr_tags g) < S fuel)%nat /\
  (exists l1 l2, pr_tags g = l1 ++ (DT_DEBUG, pr_debug g) :: l2 /\ DT_DEBUG ∉ l1.*1) /\
  (exists p, mem_read (u64 (pr_debug g + 8)) 8 m = Some p /\ u64_at 0 p = pr_link g) /\
  (exists bs, mem_read (pr_link g) 40 m = Some bs /\ link_map_of bs = li_link (pr_image g)) /\
  headers_at fuel m (pr_image g).

Lemma length_auxv_of l : length (auxv_of l) = (16 * S (length l))%nat.
Proof. induction l as [|[t v] l IH]; [done|]. cbn [auxv_of length]. rewrite !length_app, !length_le_bytes, IH. lia. Qed.

Lemma dig_load_bias_ok g p (s : tool K) : program_files g -> ok_mem s ->
  exists s', dig_load_bias (S fuel) files pid p s = (Ok (set_bias (pr_bias g) (pr_dynamic g) p), s') /\ ok_mem s'.
Proof.
  intros (Hfd & Hauxv & Hok & He & Hp & Hp0 & Hent & Hnum & Ha) Hs. unfold dig_load_bias.
  rewrite (proj2 (Z.eqb_neq _ _) Hfd), Hauxv.
  assert (Hn : (length (pr_auxv g) < S (length (auxv_of (pr_auxv g))))%nat) by (rewrite length_auxv_of; lia).
  rewrite (bind_ok _ _ _ _ _ (scan_auxv_ok _ Hok _ 0 0 0 0 s Hn)).
  cbv iota beta. rewrite (proj2 (Z.eqb_neq _ _) He), Hp, (proj2 (Z.eqb_neq _ _) Hp0), Hent, Hnum, zlen_nat.
  change (negb (PHDR_SIZE =? PHDR_SIZE)) with false. cbv iota.
  destruct (scan_main_phdrs_ok _ _ Ha 0 0 s Hs) as (s1 & E1 & Hs1). step_bind E1. cbv iota beta.
  exists s1. split; [|done]. unfold pr_bias, pr_dynamic. by destruct (_ =? 0).
Qed.

Lemma dig_link_map_ok g p (s : tool K) : program_memory g -> dyn_addr p = pr_dynamic g -> ok_mem s ->
  exists s', dig_main_link_map (S fuel) pid p s = (Ok (li_link (pr_image g)), s') /\ ok_mem s'.
Proof.
  intros (Hd & Hlen & Hdebug & (b & Hrb & Hb) & (bs & Hr & Hl) & _) Hp Hs. unfold dig_main_link_map. rewrite Hp.
  destruct (find_debug_ok fuel pid m _ _ Hd (S fuel) _ s Hs Hlen Hdebug) as (s1 & E1 & Hs1). step_bind E1.
  destruct (read_or_ok fuel pid m ETARGETHOOK 8 _ b s1 Hs1 ltac:(done) Hrb) as (s2 & E2 & Hs2). step_bind E2. rewrite Hb.
  destruct (read_or_ok fuel pid m ETARGETHOOK LINK_MAP_SIZE _ bs s2 Hs2 ltac:(done) Hr) as (s3 & E3 & Hs3). step_bind E3.
  exists s3. by rewrite Hl.
Qed.

(** The object of the main program. *)
Definition main_object (binary_name : bytes) (g : program) : dynobj :=
  described (pr_image g) (new_dynobj (get_target_binary_name binary_name (f_comm files)) (li_link (pr_image g))).

Lemma or_warn_ok {A} fmt (f : st (tool K) Z A) a s s' : f s = (Ok a, s') -> or_warn fmt f s = (Ok a, s').
Proof. intros E. unfold or_warn. by rewrite E. Qed.

Lemma parse_main_ok binary_name g (s : tool K) : program_files g -> program_memory g -> ok_mem s ->
  exists p s', parse_main_dynobj (S fuel) files pid binary_name zero_process s = (Ok p, s') /\ ok_mem s' /\
    load_bias p = pr_bias g /\ dyn_addr p = pr_dynamic g /\ dynobj_main p = Some (main_object binary_name g) /\
    dynobj_targets p = [] /\ dynobj_libpulp p = None.
Proof.
  intros Hf Hm Hs. unfold parse_main_dynobj. set (name := get_target_binary_name binary_name (f_comm files)).
  set (p0 := set_main _ zero_process). destruct (dig_load_bias_ok g p0 s Hf Hs) as (s1 & E1 & Hs1).
  apply (or_warn_ok "unable to calculate the load bias for the executable: %s") in E1. step_bind E1.
  set (p1 := set_bias _ _ p0). destruct (dig_link_map_ok g p1 s1 Hm eq_refl Hs1) as (s2 & E2 & Hs2).
  apply (or_warn_ok "unable to parse the mappings of objects in memory: %s") in E2. step_bind E2.
  destruct Hm as (_ & _ & _ & _ & _ & Hh). set (o := new_dynobj name _).
  destruct (parse_headers_ok fuel pid files name m (pr_image g) o s2 Hs2 Hh eq_refl eq_refl) as (s3 & E3 & Hs3).
  step_bind E3. by eexists _, s3.
Qed.

(** [initialize_data_structures] on such a process. *)
Lemma initialize_ok binary_name g d st (s s1 : tool K)
    (Hatt : attach (S fuel) pid s = (Ok 0, s1))
    (Hdet : forall s : tool K, exists e s', detach (S fuel) pid s = (Ok e, s') /\ tmem pid s' = tmem pid s)
    (Hs : ok_mem s1) (Hfiles : program_files g) (Hmem : program_memory g)
    (Hlibs : loaded_at (l_next (li_link (pr_image g))) d)
    (Hst : mem_read (nth 2 (libpulp_exports (libpulp d)) 0) 16 m = Some st) :
  exists p s', initialize_data_structures (S fuel) files pid binary_name s =
      (Ok (if le_val (slice 0 1 st) =? 0 then EAGAIN else 0, p), s') /\
    tmem pid s' = tmem pid s1 /\
    load_bias p = pr_bias g /\ dynobj_main p = Some (main_object binary_name g) /\
    dynobj_targets p = objects d /\ libpulp_of p = Some (libpulp_object (libpulp d)).
Proof.
  unfold initialize_data_structures. step_bind Hatt. change (negb (0 =? 0)) with false. cbv iota.
  destruct (parse_main_ok binary_name g s1 Hfiles Hmem Hs) as (p & s2 & E2 & Hs2 & B1 & B2 & B3 & B4 & B5).
  assert (Hlink : o_link_map (main_object binary_name g) = li_link (pr_image g)) by apply described_link.
  destruct (parse_libs_ok _ d p s2 B3 B4 ltac:(by rewrite Hlink) Hs2) as (s3 & E3 & Hs3).
  set (q := set_targets (objects d) (Some (length (before d))) p) in *.
  assert (Hlp : libpulp_of q = Some (libpulp_object (libpulp d))).
  { destruct Hlibs as (_ & Hb & _). apply Forall2_length in Hb. unfold libpulp_of, q, objects. cbn.
    rewrite length_app. cbn [length]. rewrite !length_rev.
    apply list_lookup_middle. rewrite length_rev, Hb. lia. }
  destruct (read_struct_ok fuel pid m STATE_SIZE _ st s3 Hs3 ltac:(done) Hst) as (s4 & E4 & Hs4).
  destruct (Hdet s4) as (e & s5 & E5 & M5).
  exists q, s5. split; [|split_and!; try done; rewrite M5; by rewrite (proj1 Hs4), (proj1 Hs)].
  unfold bind at 1. rewrite (bind_ok _ _ _ _ _ E2), E3, Hlp. cbn [deref]. rewrite run_res_bind.
  change (export 2 (libpulp_object (libpulp d))) with (nth 2 (libpulp_exports (libpulp d)) 0). rewrite (bind_ok _ _ _ _ _ E4).
  cbv iota beta. change (negb (0 =? 0)) with false. cbn [orb]. destruct (_ =? 0); cbv iota; cbn [ret]; by step_bind E5.
Qed.

(** C9. Attaching to a process that has loaded libpulp, the tool finds it: when the
    auxiliary vector, the program headers, the dynamic section and the link map lie
    in the process as the kernel and the dynamic loader put them, for a
    position-independent program, [initialize_data_structures] lists every library
    in its order with its tables and build id, libpulp has the addresses of its
    exports, and the code is 0 once the constructor of libpulp has run and [EAGAIN]
    before. *)
Theorem libpulp_found binary_name g d st (s s1 : tool K)
    (Hatt : attach (S fuel) pid s = (Ok 0, s1))
    (Hdet : forall s : tool K, exists e s', detach (S fuel) pid s = (Ok e, s') /\ tmem pid s' = tmem pid s)
    (Hs : ok_mem s1) (Hfiles : program_files g) (Hmem : program_memory g)
    (Hlibs : loaded_at (l_next (li_link (pr_image g))) d)
    (Hst : mem_read (nth 2 (libpulp_exports (libpulp d)) 0) 16 m = Some st) :
  exists p s', initialize_data_structures (S fuel) files pid binary_name s =
      (Ok (if le_val (slice 0 1 st) =? 0 then EAGAIN else 0, p), s') /\
    tmem pid s' = tmem pid s1 /\
    load_bias p = pr_bias g /\ dynobj_main p = Some (main_object binary_name g) /\
    dynobj_targets p = objects d /\ libpulp_of p = Some (libpulp_object (libpulp d)) /\
    o_exports (libpulp_object (libpulp d)) = libpulp_exports (libpulp d).
Proof.
  destruct (initialize_ok binary_name g d st s s1 Hatt Hdet Hs Hfiles Hmem Hlibs Hst) as (p & s' & E & M & Hb & Ho & Ht & Hl).
  by exists p, s'.
Qed.
End process.
