(* ===== verification/Patches.v ===== *)
(** * The processes and their patches (tools/patches.c)

    The iterator over the processes that have loaded libpulp, without its thread
    ([PatchesThreads] has it with one), the libraries that can be patched, and the
    labels in the comments of a patch. What is printed is returned as data. *)

From stdpp Require Import gmap.
From S2P Require Import Interpose Prelude Errors Memory Metadata SymbolLoader Ptrace InsnQueueTool PatchId ElfFile Extract Description RemoteState Commands Introspect.

Open Scope ulp_scope.

(** ** Labels *)

(** [strncasecmp (s, p, strlen (p)) == 0] for a [p] in lower case. *)
Fixpoint strncasecmp (s p : bytes) : res Z bool :=
  match p, s with
  | [], _ => Ok true
  | _, [] => Ub
  | c :: p, d :: s => if tolower d =? c then strncasecmp s p else Ok false
  end.

Definition isalpha (c : Z) : bool := ((65 <=? c) && (c <=? 90)) || ((97 <=? c) && (c <=? 122)).

(** [while ( *head != '\0' && f ( *head)) head++;]: the characters, and [head]. *)
Fixpoint span (f : Z -> bool) (head : bytes) : res Z (bytes * bytes) :=
  match head with
  | [] => Ub
  | c :: head' =>
    if negb (c =? 0) && f c then try r := span f head' in Ok (c :: fst r, snd r)
    else Ok ([], head)
  end.

(** [if ( *head == '-') head++] and digits. *)
Definition dash_number (head : bytes) : res Z (bytes * bytes) :=
  match head with
  | [] => Ub
  | c :: head' =>
    if c =? 45 then try r := span isdigit head' in Ok (c :: fst r, snd r) else Ok ([], head)
  end.

(** A label at [head]: its text, and what follows. *)
Definition label_at (head : bytes) : res Z (option (bytes * bytes)) :=
  try bsc := strncasecmp head (str "bsc#") in
  if bsc : bool then
    try n := span isdigit (drop 4 head) in
    Ok (Some (take 4 head ++ fst n, snd n))
  else
    try jsc := strncasecmp head (str "jsc#") in
    if jsc : bool then
      try a := span isalpha (drop 4 head) in
      try n := dash_number (snd a) in
      Ok (Some (take 4 head ++ fst a ++ fst n, snd n))
    else
      try cve := strncasecmp head (str "cve-") in
      if cve : bool then
        try a := span isdigit (drop 4 head) in
        try n := dash_number (snd a) in
        Ok (Some (take 4 head ++ fst a ++ fst n, snd n))
      else Ok None.

(** The loop over the comment. The character behind a label is made its end and
    skipped, also when it is the end of the comment. *)
Fixpoint scan_labels (n : nat) (head : bytes) : res Z (list bytes) :=
  match n with
  | O => NoFuel
  | S n =>
    match head with
    | [] => Ub
    | c :: head' =>
      if c =? 0 then Ok []
      else
        try l := label_at head in
        match l with
        | None => scan_labels n head'
        | Some (str, rest) => try ls := scan_labels n (drop 1 rest) in Ok (str :: ls)
        end
    end
  end.

Definition print_relevant_labels (comment : option bytes) : res Z (list bytes) :=
  match comment with
  | None => Ok []
  | Some buf => scan_labels (S (length buf)) buf
  end.

(** [elf] is the result of [load_elf]. *)
Definition extract_ulp_comment_to_mem `{Libelf} (elf : option elf) : res Z (option bytes) :=
  match elf with
  | None => Ok None
  | Some e =>
    match get_elfscn_by_name (str ".ulp.comments") e with
    | (Ok None, _) => Ok None
    | (Ok (Some s), _) =>
      match elf_getdata e s with
      | None => Ub
      | Some [] => Ok None
      | Some data => Ok (Some data)
      end
    | (Err x, _) => Err x
    | (Ub, _) => Ub
    | (NoFuel, _) => NoFuel
    end
  end.

(** ** Patches of a library *)

(** A name that is read as a string: one that could not be copied is a pointer of
    the other process. *)
Definition local_string (r : remote_string) : res Z bytes :=
  match r with RBuffer s => Ok (cstr s) | RNull => Ub | RPointer _ => Ub end.

Fixpoint any_patch_of (patch : list ulp_applied_patch) (libname : bytes) : res Z bool :=
  match patch with
  | [] => Ok false
  | p :: patch =>
    try lib := local_string (ap_lib_name p) in
    if byte_eqb libname lib then Ok true else any_patch_of patch libname
  end.

Definition has_livepatch_loaded (patch : list ulp_applied_patch) (libname : option bytes) : res Z bool :=
  match libname with
  | None => Ok false
  | Some _ => try libname := deref (get_basename libname) in any_patch_of patch (cstr libname)
  end.

(** A line of [print_lib_patches]: the container, the time when it is known, and
    the labels. *)
Record patch_line := { pl_container : bytes; pl_timestamp : option Z; pl_labels : list bytes }.

(** [comment path] is the comment of the file [path]. *)
Fixpoint lib_patches (comment : bytes -> res Z (option bytes)) (patch : list ulp_applied_patch) (libname : bytes) :
    res Z (list patch_line) :=
  match patch with
  | [] => Ok []
  | p :: patch =>
    try lib := local_string (ap_lib_name p) in
    if byte_eqb libname lib then
      try container := local_string (ap_container_name p) in
      try name := deref (get_basename (Some container)) in
      try buf := comment container in
      try labels := print_relevant_labels buf in
      try ls := lib_patches comment patch libname in
      Ok ({| pl_container := name; pl_timestamp := if ap_timestamp p =? 0 then None else Some (ap_timestamp p);
             pl_labels := labels |} :: ls)
    else lib_patches comment patch libname
  end.

Definition print_lib_patches (comment : bytes -> res Z (option bytes)) (patch : list ulp_applied_patch) (libname : bytes) :
    res Z (list patch_line) :=
  try libname := deref (get_basename (Some libname)) in lib_patches comment patch (cstr libname).

(** What is shown of the error state. *)
Inductive status := Enabled | DisabledByUser | InternalError (state : Z).

Definition status_of (state : Z) : status :=
  if (state =? ENONE) || (state =? EOLDLIBPULP) then Enabled
  else if state =? EUSRBLOCKED then DisabledByUser
  else InternalError state.

(** [dynobj_first] and [dynobj_next]. *)
Definition dynobjs (p : process) : list dynobj :=
  match dynobj_main p with None => [] | Some o => o :: dynobj_targets p end.

Definition state_of_libpulp (o : dynobj) : libpulp_state :=
  {| state_addr := export 2 o; error_state_addr := export 7 o; trigger_addr := export 0 o;
     enable_disable_patching := export 8 o; libpulp_version := export VERSION o |}.

(** ** Which processes have loaded libpulp *)

(** The lines that [getline] gives. *)
Fixpoint getlines (s : bytes) : list bytes :=
  match s with
  | [] => []
  | c :: s =>
    if c =? 10 then [c] :: getlines s
    else match getlines s with [] => [[c]] | l :: ls => (c :: l) :: ls end
  end.

Definition libpulp_loaded (map : bytes) : bool :=
  existsb (fun line => strstr (cstr line) (str "libpulp.so")) (getlines map).

(** [struct ulp_process_iterator]: the rest of the directory is in [slashproc], the
    processes found so far are in [last], the newest first. *)
Record ulp_process_iterator := {
  now : option (Z * process); last : list (Z * process); wildcard : option bytes; user_wildcard : option bytes;
  target_uid : Z; slashproc : option (list bytes) }.

Definition set_now (l : list (Z * process)) (dir : option (list bytes)) (n : option (Z * process)) (it : ulp_process_iterator) :
    ulp_process_iterator :=
  {| now := n; last := l; wildcard := wildcard it; user_wildcard := user_wildcard it; target_uid := target_uid it;
     slashproc := dir |}.

Section patches.
Context {K : Type} `{Kernel K}.
Variable fuel : nat.
(** What [/proc] says of a process, and the owner of its [loginuid] if it has one. *)
Variable files : Z -> proc_files.
Variable loginuid : Z -> option Z.
Variable getpwuid : Z -> option bytes.
Variable fnmatch : bytes -> bytes -> bool.
Variable getpid : Z.
(** What is left in the buffer of [get_target_binary_name]. *)
Variable binary_name : bytes.
(** [check_preamble] of the architecture. *)
Variable check_preamble : Z -> Z -> st (tool K) Z bool.

Abbreviation sys A := (st (tool K) Z A).

Definition has_libpulp_loaded (pid : Z) : bool :=
  match f_maps (files pid) with
  | None => false
  | Some map => libpulp_loaded map
  end.

Definition get_process_owner (pid : Z) : Z := default 0 (loginuid pid).

(** The tests of [generate_ulp_list_thread] on the owner and on the name. *)
Definition user_selected (it : ulp_process_iterator) (pid : Z) : bool :=
  match user_wildcard it with
  | None => true
  | Some usr_wildcard =>
    let uid := get_process_owner pid in
    if 0 <? target_uid it then uid =? target_uid it
    else if 0 <? uid then
      match getpwuid uid with
      | Some usr_name => fnmatch usr_wildcard usr_name
      | None => true
      end
    else true
  end.

Definition name_selected (it : ulp_process_iterator) (pid : Z) : bool :=
  match wildcard it with
  | None => true
  | Some wildcard => fnmatch wildcard (get_target_binary_name binary_name (f_comm (files pid)))
  end.

(** The process of a directory entry, if it is to be listed. *)
Definition selected_entry (it : ulp_process_iterator) (d_name : bytes) : res Z (option Z) :=
  if negb (isnumber (Some d_name)) then Ok None
  else
    try pid := atoi (cstr d_name) in
    Ok (if name_selected it pid && user_selected it pid && negb (pid =? getpid) && has_libpulp_loaded pid
        then Some pid else None).

Definition insert_target_process (pid : Z) (list : list (Z * process)) : sys (Z * List.list (Z * process)) :=
  let! r := initialize_data_structures fuel (files pid) pid binary_name in
  let (e, new) := r in
  if negb (e =? 0) then t_log "error gathering target process information: %s";;; ret (e, list)
  else ret (0, (pid, new) :: list).

(** [generate_ulp_list_thread] without threads: what is left of the directory, the
    processes, and the value returned. *)
Fixpoint generate_ulp_list (it : ulp_process_iterator) (dir : list bytes) (last : list (Z * process)) :
    sys (list bytes * list (Z * process) * option (Z * process)) :=
  match dir with
  | [] => ret ([], last, None)
  | d :: dir =>
    let! p := run_res (selected_entry it d) in
    match p with
    | None => generate_ulp_list it dir last
    | Some pid =>
      let! r := insert_target_process pid last in
      ret (dir, snd r, head (snd r))
    end
  end.

(** [enable_threading] is off here and in [process_list_begin]; with a thread the
    iterator is in [PatchesThreads]. *)
Definition process_list_next (it : ulp_process_iterator) : sys ulp_process_iterator :=
  match slashproc it with
  | None => ret (set_now (last it) None None it)
  | Some dir =>
    let! r := generate_ulp_list it dir (last it) in
    let '(dir, last, n) := r in
    ret (set_now last (Some dir) n it)
  end.

(** [slashproc] is what [opendir] gives; the code is [any_error]. *)
Definition process_list_begin (slashproc : option (list bytes)) (procname_wildcard user_wildcard : option bytes) :
    sys (Z * ulp_process_iterator) :=
  let it := {| now := None; last := []; wildcard := procname_wildcard; user_wildcard := user_wildcard; target_uid := 0;
               slashproc := None |} in
  if isnumber procname_wildcard then
    let! pid := run_res (atoi (cstr (default [] procname_wildcard))) in
    let! r := insert_target_process pid [] in
    ret (fst r, set_now (snd r) None (head (snd r)) it)
  else
    let uid := if isnumber user_wildcard then u32 (Z.min (2 ^ 63 - 1) (dec_value (cstr (default [] user_wildcard)))) else 0 in
    let it := {| now := None; last := []; wildcard := procname_wildcard; user_wildcard := user_wildcard;
                 target_uid := uid; slashproc := slashproc |} in
    match slashproc with
    | None => ret (ENONE, it)
    | Some _ => let! it := process_list_next it in ret (ENONE, it)
    end.

(** The rounds of [FOR_EACH_ULP_PROCESS_FROM_USER_WILDCARD]. *)
Fixpoint for_each_rounds (n : nat) (body : Z * process -> sys unit) (it : ulp_process_iterator) : sys unit :=
  match n with
  | O => nofuel
  | S n =>
    match now it with
    | None => ret tt
    | Some p => body p;;; let! it := process_list_next it in for_each_rounds n body it
    end
  end.

Definition for_each_process (dir : option (list bytes)) (procname_wildcard user_wildcard : option bytes)
    (body : Z * process -> sys unit) : sys Z :=
  let! r := process_list_begin dir procname_wildcard user_wildcard in
  for_each_rounds (S (S (length (default [] dir)))) body (snd r);;;
  ret (fst r).

(** ** One process *)

(** The loop over the symbols; [ret] is the value of the variable. *)
Fixpoint preamble_loop (n : nat) (pid ehdr_addr dynsym_addr : Z) (r : option Z) : sys (option Z) :=
  match n with
  | O => ret r
  | S n =>
    let! r := read_struct fuel pid SYM_SIZE dynsym_addr in
    let (e, sym) := r in
    if negb (e =? 0) then t_log "Unable to read dynamic symbol";;; ret (Some 0)
    else
      let! b := check_preamble (u64 (ehdr_addr + u64_at 8 sym)) pid in
      if b : bool then ret (Some 1)
      else preamble_loop n pid ehdr_addr (u64 (dynsym_addr + SYM_SIZE)) (Some e)
  end.

Definition is_library_livepatchable (patch : list ulp_applied_patch) (main_filename : bytes) (obj : dynobj) (pid : Z) : sys bool :=
  let! loaded := run_res (has_livepatch_loaded patch (Some (o_filename obj))) in
  if loaded : bool then ret true
  else
    let! e := attach fuel pid in
    let! r :=
      (if negb (e =? 0) then ret (Some 0)
       else
         let! ehdr_addr := run_res (get_ehdr_addr (files pid) main_filename obj) in
         preamble_loop (Z.to_nat (Z.min (o_num_symbols obj) 8000)) pid ehdr_addr (o_dynsym_addr obj) None) in
    let! e := detach fuel pid in
    if negb (e =? 0) then ret false
    else match r with None => undef | Some r => ret (negb (r =? 0)) end.

(** What is printed about a library. *)
Record library_entry := {
  le_filename : bytes; le_build_id : option bytes; le_version : option bytes; le_patches : list patch_line }.

Record report := { rp_pid : Z; rp_name : bytes; rp_status : status; rp_libraries : list library_entry }.

Fixpoint print_libraries (comment : bytes -> res Z (option bytes)) (patch : list ulp_applied_patch) (main_filename : bytes)
    (pid : Z) (print_buildid : bool) (l : list dynobj) : sys (list library_entry) :=
  match l with
  | [] => ret []
  | o :: l =>
    let! b := is_library_livepatchable patch main_filename o pid in
    if b : bool then
      let! ps := run_res (print_lib_patches comment patch (o_filename o)) in
      let! rest := print_libraries comment patch main_filename pid print_buildid l in
      ret ({| le_filename := o_filename o;
              le_build_id := if print_buildid then Some (buildid_to_string (o_build_id o)) else None;
              le_version := if export VERSION o =? 0 then None else Some (ulp_version_as_string (export VERSION o));
              le_patches := ps |} :: rest)
    else print_libraries comment patch main_filename pid print_buildid l
  end.

(** [None] when the process is passed over. *)
Definition print_process (comment : bytes -> res Z (option bytes)) (calloc : bool) (p : Z * process)
    (print_buildid only_livepatched : bool) : sys (option report) :=
  let (pid, process) := p in
  let libpulp := state_of_libpulp <$> libpulp_of process in
  let! patch := ulp_read_state fuel calloc fuel pid libpulp in
  if only_livepatched && bool_decide (patch = []) then ret None
  else
    let! main := run_res (deref (dynobj_main process)) in
    let! name := run_res (deref (get_basename (Some (o_filename main)))) in
    let! state := get_libpulp_error_state_remote fuel (Some (pid, libpulp)) in
    let! libs := print_libraries comment patch (o_filename main) pid print_buildid (dynobjs process) in
    ret (Some {| rp_pid := pid; rp_name := name; rp_status := status_of state; rp_libraries := libs |}).

(** The code and the reports. *)
Fixpoint print_rounds (comment : bytes -> res Z (option bytes)) (calloc buildid only_livepatched : bool) (n : nat)
    (it : ulp_process_iterator) : sys (list report) :=
  match n with
  | O => nofuel
  | S n =>
    match now it with
    | None => ret []
    | Some p =>
      let! r := print_process comment calloc p buildid only_livepatched in
      let! it := process_list_next it in
      let! rs := print_rounds comment calloc buildid only_livepatched n it in
      ret (option_list r ++ rs)
    end
  end.

Definition run_patches (comment : bytes -> res Z (option bytes)) (calloc buildid only_livepatched : bool)
    (dir : option (list bytes)) (process_wildcard user_wildcard : option bytes) : sys (Z * list report) :=
  let! r := process_list_begin dir process_wildcard user_wildcard in
  let! rs := print_rounds comment calloc buildid only_livepatched (S (S (length (default [] dir)))) (snd r) in
  ret (if fst r =? 0 then 0 else 1, rs).
End patches.
