(* ===== verification/ParseError.v ===== *)
(** * The messages about a description (tools/packer.c)

    An error of the parser is shown as a compiler does: the place and the reason, the
    line with the part the column points to in red, and a caret below it. *)

From stdpp Require Import list.
From S2P Require Import Prelude Errors Metadata Extract Patches Description.

Open Scope ulp_scope.

(** ** What is printed *)

Inductive term_color := TERM_COLOR_RESET | TERM_COLOR_BOLD | TERM_COLOR_RED.

(** A character, a change of the colour, and the parts that [printf] writes. *)
Inductive output :=
| Putchar (c : Z)
| Change_color (c : term_color)
| Place (line col : Z)          (** [parse_filename:line:col: ] *)
| Message (text : string).

(** [for (j = 0; j < (loc.col - 1) && j < len; j++)] *)
Definition before (col : Z) (text : bytes) : bytes := take (Z.to_nat (col - 1)) text.

(** The part in red, and the rest of the line: up to the first colon, which belongs to it
    only when it is the place of the error. *)
Fixpoint red_part (colon : bool) (text : bytes) : bytes * bytes :=
  match text with
  | [] => ([], [])
  | c :: text' =>
    if c =? 58 then if colon then ([c], text') else ([], text)
    else let (red, rest) := red_part colon text' in ((if c =? 10 then [] else [c]) ++ red, rest)
  end.

Definition no_newline (text : bytes) : bytes := List.filter (fun c => negb (c =? 10)) text.

(** The three parts of the line and the caret. *)
Definition show_line (text : bytes) (col : Z) : list output :=
  let colon := nth (Z.to_nat (col - 1)) text 0 =? 58 in
  let (red, rest) := red_part colon (drop (Z.to_nat (col - 1)) text) in
  map Putchar (before col text) ++ [Change_color TERM_COLOR_RED] ++ map Putchar red ++ [Change_color TERM_COLOR_RESET] ++
  map Putchar (no_newline rest) ++ [Putchar 10] ++ map (fun _ => Putchar 32) (before col text) ++
  [Change_color TERM_COLOR_RED; Putchar 94] ++ replicate (length red - 1) (Putchar 126) ++ [Change_color TERM_COLOR_RESET].

(** [parse_error] on the file [contents]; an assertion that does not hold is [Err]. *)
Definition print_parse_error (contents : option bytes) (e : parse_failure) : res unit (list output) :=
  let header := [Change_color TERM_COLOR_BOLD; Place (at_line e) (at_col e); Change_color TERM_COLOR_RED; Message "error: ";
                 Change_color TERM_COLOR_RESET; Message (why e); Putchar 10] in
  match contents with
  | None => Ok (header ++ [Message "Error opening %s: %s\n"])
  | Some contents =>
    if negb ((0 <? at_line e) && (0 <? at_col e)) then Err tt
    else
      match getlines contents !! Z.to_nat (at_line e - 1) with
      | None => Ok (header ++ [Message "File is empty or is a directory\n"])
      | Some text => Ok (header ++ show_line text (at_col e) ++ [Putchar 10])
      end
  end.

(** ** How it looks *)

Definition is_char (o : output) : option Z := match o with Putchar c => Some c | _ => None end.

(** What is read, whatever the colours. *)
Definition plain (l : list output) : bytes := omap is_char l.

(** What is red. *)
Fixpoint in_red (now : bool) (l : list output) : bytes :=
  match l with
  | [] => []
  | Change_color c :: l => in_red (match c with TERM_COLOR_RED => true | _ => false end) l
  | Putchar c :: l => (if now then [c] else []) ++ in_red now l
  | _ :: l => in_red now l
  end.

(** The part of a line that is at fault: a colon alone, or what is up to the next
    colon or the end. *)
Fixpoint up_to_colon (text : bytes) : bytes :=
  match text with c :: text => if c =? 58 then [] else c :: up_to_colon text | [] => [] end.
Definition at_fault (text : bytes) : bytes :=
  match text with 58 :: _ => [58] | _ => up_to_colon text end.

Lemma plain_app a b : plain (a ++ b) = plain a ++ plain b.
Proof. apply omap_app. Qed.

Lemma plain_chars s : plain (map Putchar s) = s.
Proof. induction s as [|c s IH]; [done|]. cbn. by f_equal. Qed.

Lemma in_red_chars now s l : in_red now (map Putchar s ++ l) = (if now then s else []) ++ in_red now l.
Proof. induction s as [|c s IH]; [by destruct now|]. cbn [map app in_red]. rewrite IH. by destruct now. Qed.

Lemma no_newline_app a b : no_newline (a ++ b) = no_newline a ++ no_newline b.
Proof. apply List.filter_app. Qed.

(** Without the newline, the two parts are the text. *)
Lemma red_part_ok colon text : (colon = true <-> exists r, text = 58 :: r) ->
  (red_part colon text).1 = no_newline (at_fault text) /\
  (red_part colon text).1 ++ no_newline (red_part colon text).2 = no_newline text.
Proof.
  intros Hc. destruct colon.
  - destruct (proj1 Hc eq_refl) as [r ->]. done.
  - assert (Hf : at_fault text = up_to_colon text).
    { destruct text as [|c r]; [done|]. unfold at_fault. destruct (Z.eq_dec c 58) as [->|Hne]; [|by repeat case_match].
      discriminate (proj2 Hc (ex_intro _ r eq_refl)). }
    rewrite Hf. clear. induction text as [|c text [IH1 IH2]]; [done|]. cbn [red_part up_to_colon].
    destruct (Z.eqb_spec c 58) as [->|Hne]; [done|]. destruct (red_part false text) as [red rest]. cbn [fst snd] in *.
    unfold no_newline in *. cbn [List.filter]. rewrite IH1 in *. destruct (Z.eqb_spec c 10) as [->|]; cbn [negb app]; [done|].
    split; [done|]. cbn [app]. by f_equal.
Qed.

(** A line is its text and perhaps a newline. *)
Lemma getlines_shape s i text : getlines s !! i = Some text ->
  Forall (fun c => c <> 10) (no_newline text) /\ (text = no_newline text \/ text = no_newline text ++ [10]).
Proof.
  revert i text. induction s as [|c s IH]; intros i text E; [done|]. cbn [getlines] in E.
  destruct (Z.eqb_spec c 10) as [->|Hc].
  - destruct i as [|i]; [injection E as <-; split; [constructor|by right]|by apply (IH i)].
  - assert (Hcons : forall l, no_newline (c :: l) = c :: no_newline l) by (intros l; unfold no_newline; cbn [List.filter]; by rewrite (proj2 (Z.eqb_neq c 10))).
    destruct (getlines s) as [|l ls].
    + destruct i; [|done]. injection E as <-. rewrite Hcons. split; [by repeat constructor|by left].
    + destruct i as [|i]; [|by apply (IH (S i))]. injection E as <-. destruct (IH 0%nat l eq_refl) as [Hl Hs]. rewrite Hcons.
      split; [by constructor|]. destruct Hs as [Hs|Hs]; [left|right]; rewrite Hs at 1; [by f_equal|done].
Qed.

Lemma no_newline_id text : Forall (fun c => c <> 10) text -> no_newline text = text.
Proof. induction 1 as [|c text Hc _ IH]; [done|]. unfold no_newline in *. cbn [List.filter]. rewrite (proj2 (Z.eqb_neq c 10)) by done. cbn. by f_equal. Qed.

Lemma at_fault_newline text nl : Forall (fun c => c <> 10) text -> nl = [] \/ nl = [10] ->
  no_newline (at_fault (text ++ nl)) = at_fault text.
Proof.
  intros Ht Hnl.
  assert (Hu : no_newline (up_to_colon (text ++ nl)) = up_to_colon text).
  { induction Ht as [|c text Hc _ IH]; [by destruct Hnl as [->| ->]|]. cbn [app up_to_colon]. destruct (c =? 58); [done|].
    unfold no_newline in *. cbn [List.filter]. rewrite (proj2 (Z.eqb_neq c 10)) by done. cbn. by f_equal. }
  destruct text as [|c text]; [by destruct Hnl as [->| ->]|]. destruct (Z.eq_dec c 58) as [->|Hne]; [done|].
  assert (Hf : forall r, at_fault (c :: r) = up_to_colon (c :: r)) by (intros r; unfold at_fault; by repeat case_match).
  cbn [app]. rewrite !Hf. exact Hu.
Qed.

Lemma spaces (l : bytes) c : map (fun _ => Putchar c) l = map Putchar (replicate (length l) c).
Proof. induction l as [|x l IH]; [done|]. cbn. by f_equal. Qed.

Lemma chars_replicate n c : replicate n (Putchar c) = map Putchar (replicate n c).
Proof. induction n as [|n IH]; [done|]. cbn. by f_equal. Qed.

(** An error whose place is within the file: below the place and the reason the line is
    shown as it is, without its newline; the caret is under the column and the tildes under
    the rest of the part that is at fault, which is also what is red. *)
Theorem print_parse_error_spec contents e text
    (Hplace : 0 < at_line e /\ getlines contents !! Z.to_nat (at_line e - 1) = Some text)
    (Hcol : 0 < at_col e <= zlen (no_newline text) + 1) :
  let start := Z.to_nat (at_col e - 1) in
  let fault := at_fault (drop start (no_newline text)) in
  let marks := [94] ++ replicate (length fault - 1) 126 in
  exists out, print_parse_error (Some contents) e = Ok out /\
    take 6 out = [Change_color TERM_COLOR_BOLD; Place (at_line e) (at_col e); Change_color TERM_COLOR_RED; Message "error: ";
                  Change_color TERM_COLOR_RESET; Message (why e)] /\
    plain out = [10] ++ no_newline text ++ [10] ++ replicate start 32 ++ marks ++ [10] /\
    in_red false out = fault ++ marks.
Proof.
  intros start fault marks. destruct Hplace as [Hl E]. destruct (getlines_shape _ _ _ E) as [Hno Hshape].
  unfold print_parse_error. rewrite (proj2 (Z.ltb_lt 0 _)), (proj2 (Z.ltb_lt 0 (at_col e))) by lia. cbn [andb negb]. rewrite E.
  set (body := no_newline text) in *. assert (Hnl : exists nl, (nl = [] \/ nl = [10]) /\ text = body ++ nl).
  { destruct Hshape as [Hs|Hs]; [exists []; rewrite app_nil_r|exists [10]]; auto. }
  destruct Hnl as (nl & Hnl & Htext). unfold show_line. fold start.
  assert (Hstart : (start <= length body)%nat) by (unfold zlen in Hcol; lia).
  assert (Hb : before (at_col e) text = take start body) by (unfold before; fold start; rewrite Htext; by rewrite take_app_le).
  assert (Hd : drop start text = drop start body ++ nl) by (rewrite Htext; by rewrite drop_app_le).
  rewrite Hb, Hd. destruct (red_part_ok (nth start text 0 =? 58) (drop start body ++ nl)) as [H1 H2].
  { rewrite Z.eqb_eq, <- Hd, nth_lookup. split.
    - destruct (text !! start) as [c|] eqn:Ec; [|done]. cbn. intros ->. eexists. by apply drop_S.
    - intros [r Er]. replace (text !! start) with (drop start text !! 0%nat) by (rewrite lookup_drop; f_equal; lia). by rewrite Er. }
  rewrite (at_fault_newline _ nl) in H1 by (done || by apply Forall_drop). fold fault in H1.
  destruct (red_part _ _) as [red rest]. cbn [fst snd] in *. subst red.
  eexists. split; [reflexivity|]. split; [reflexivity|].
  assert (Hnn : no_newline (drop start body ++ nl) = drop start body).
  { rewrite no_newline_app, (no_newline_id (drop start body)) by by apply Forall_drop. destruct Hnl as [->| ->]; apply app_nil_r. }
  rewrite Hnn in H2.
  rewrite spaces, chars_replicate, length_take_le by done. split.
  - rewrite !plain_app, !plain_chars. cbn [plain omap list_omap is_char app].
    rewrite <- !app_assoc. cbn [app]. f_equal. rewrite app_assoc, app_assoc, <- (app_assoc (take start body)), H2, take_drop.
    unfold marks. rewrite app_nil_r, <- !app_assoc. done.
  - rewrite <- !app_assoc. cbn [app in_red]. repeat first [rewrite in_red_chars | progress cbn [app in_red]].
    unfold marks. by rewrite app_nil_r.
Qed.

(** ** Every error of the parser has a place *)

Definition somewhere (s : dstate) : Prop := 0 < line s /\ 0 < col s.

(** A step keeps the place within the file, and reports its errors there. *)
Definition placed {A} (m : dsc A) : Prop := forall s, somewhere s ->
  match m s with
  | (Ok _, s') => somewhere s'
  | (Err e, _) => 0 < at_line e /\ 0 < at_col e
  | _ => True
  end.

Lemma placed_ret {A} (a : A) : placed (ret a).
Proof. by intros s. Qed.
Lemma placed_undef {A} : placed (undef : dsc A).
Proof. by intros s. Qed.
Lemma placed_nofuel {A} : placed (nofuel : dsc A).
Proof. by intros s. Qed.
Lemma placed_error {A} m : placed (parse_error m : dsc A).
Proof. intros s Hs. exact Hs. Qed.
Lemma placed_gets {A} (f : dstate -> A) : placed (gets f).
Proof. by intros s. Qed.
Lemma placed_modify f : (forall s, line (f s) = line s /\ col (f s) = col s) -> placed (modify f).
Proof. intros Hf s [H1 H2]. destruct (Hf s) as [E1 E2]. split; cbn; by rewrite ?E1, ?E2. Qed.
Lemma placed_col c : 0 < c -> placed (set_col c).
Proof. intros Hc s [H1 _]. by split. Qed.
Lemma placed_bind {A B} (m : dsc A) (k : A -> dsc B) : placed m -> (forall a, placed (k a)) -> placed (bind m k).
Proof. intros Hm Hk s Hs. unfold bind. specialize (Hm s Hs). destruct (m s) as [[a|e| |] s']; try done. by apply Hk. Qed.

Lemma placed_read {B} (k : dstate -> dsc B) : (forall s, somewhere s -> placed (k s)) -> placed (let! s := gets (fun s => s) in k s).
Proof. intros Hk s Hs. exact (Hk s Hs s Hs). Qed.

(** The place after [getline]. *)
Lemma getline_place s : 0 <= line s -> exists first s', getline s = (Ok first, s') /\ somewhere s'.
Proof. intros Hl. unfold getline. destruct (split_line (file s)) as [a b]. do 2 eexists. split; [reflexivity|]. split; cbn; lia. Qed.

Lemma placed_getline : placed getline.
Proof. intros s [Hl _]. destruct (getline_place s ltac:(lia)) as (first & s' & -> & Hs). exact Hs. Qed.

Lemma placed_comment realloc first : placed (read_comment realloc first).
Proof. intros s Hs. unfold read_comment. destruct (_ && _); [done|]. by destruct (_ <=? _). Qed.

Create HintDb place discriminated.

Ltac place :=
  repeat first
    [ solve [auto 2 with place] | apply placed_ret | apply placed_undef | apply placed_nofuel | apply placed_error | apply placed_gets | apply placed_comment
    | apply placed_getline | apply placed_modify; intros; split; reflexivity
    | apply placed_col; lia
    | apply placed_bind; [|intros] | case_goal ].

Section places.
Variables (fopen : bytes -> option bytes) (is_directory : bytes -> bool) (info : bytes -> option ulp_so_info).
Variables (calloc realloc : bool) (container_override target_override : option bytes).

Lemma placed_object first : placed (object_line fopen is_directory info calloc target_override first).
Proof. unfold object_line, update_ulp, check_file. apply placed_read. intros s [_ Hc]. place. Qed.
#[local] Hint Resolve placed_object : place.

Lemma placed_reference first : placed (reference_line calloc first).
Proof.
  unfold reference_line, add_ref, update_ulp. place.
  all: apply placed_col; match goal with |- context [zlen ?x] => pose proof (zlen_nonneg x) end; lia.
Qed.
#[local] Hint Resolve placed_reference : place.

Lemma placed_function first : placed (function_line calloc first).
Proof.
  unfold function_line, update_ulp. destruct (rev first) as [|last r] eqn:E; [apply placed_undef|].
  assert (Hl : 0 < zlen first) by (apply (f_equal (@length Z)) in E; rewrite length_rev in E; unfold zlen; rewrite E; cbn; lia).
  place. all: apply placed_col; match goal with |- context [zlen ?x] => pose proof (zlen_nonneg x) | _ => idtac end; lia.
Qed.
#[local] Hint Resolve placed_function : place.

Lemma placed_body first : placed (body_line fopen is_directory info calloc realloc target_override first).
Proof. unfold body_line. place. Qed.
#[local] Hint Resolve placed_body : place.

Lemma placed_body_lines n first : placed (body_lines fopen is_directory info calloc realloc target_override n first).
Proof. revert first. induction n as [|n IH]; intros first; cbn [body_lines]; place. Qed.
#[local] Hint Resolve placed_body_lines : place.

Lemma placed_dep_lines n first : placed (dep_lines fopen calloc n first).
Proof. revert first. induction n as [|n IH]; intros first; cbn [dep_lines]; unfold add_dependency, update_ulp; place. Qed.
#[local] Hint Resolve placed_dep_lines : place.

Lemma placed_find_container n : placed (find_container fopen is_directory calloc realloc container_override n).
Proof. induction n as [|n IH]; cbn [find_container]; unfold update_ulp, check_file; place. Qed.

(** The first line that is read. *)
Lemma find_container_start n s : 0 <= line s ->
  match find_container fopen is_directory calloc realloc container_override (S n) s with
  | (Ok _, s') => somewhere s'
  | (Err e, _) => 0 < at_line e /\ 0 < at_col e
  | _ => True
  end.
Proof.
  intros Hl. cbn [find_container]. destruct (getline_place s Hl) as (first & s1 & E & Hs1). rewrite (bind_ok _ _ _ _ _ E).
  match goal with |- match ?m s1 with _ => _ end => assert (Hm : placed m) end.
  { pose proof (placed_find_container n). unfold update_ulp, check_file. place; assumption. }
  exact (Hm s1 Hs1).
Qed.

(** An error of a description that opens has a place. *)
Lemma parse_description_place filename content e : fopen filename = Some content ->
  parse_description fopen is_directory info calloc realloc container_override target_override filename = Err e ->
  0 < at_line e /\ 0 < at_col e.
Proof.
  intros E. unfold parse_description. rewrite E. unfold parse_lines. set (n := S (length content)).
  pose proof (find_container_start n (dsc_init content) ltac:(done)) as H1. unfold bind at 1.
  destruct (find_container _ _ _ _ _ (S n) (dsc_init content)) as [[u|e1| |] s1]; try done; [|by intros [= ->]].
  assert (Hrest : placed (open_container info;;; let! first := getline in
    let! first := dep_lines fopen calloc (S n) first in body_lines fopen is_directory info calloc realloc target_override (S n) first)).
  { unfold open_container. place. }
  specialize (Hrest s1 H1). intros Hp. destruct ((open_container info;;; _) s1) as [[v|e2| |] s2]; try done. by injection Hp as ->.
Qed.

(** Reporting never fails: no assertion of [parse_error] is violated by an error of the
    parser; a description that does not open is reported as such. *)
Theorem every_error_is_shown filename e
    (Herr : parse_description fopen is_directory info calloc realloc container_override target_override filename = Err e) :
  exists out, print_parse_error (fopen filename) e = Ok out.
Proof.
  destruct (fopen filename) as [content|] eqn:E; [|by eexists].
  destruct (parse_description_place filename content e E Herr) as [H1 H2]. unfold print_parse_error.
  rewrite (proj2 (Z.ltb_lt 0 _) H1), (proj2 (Z.ltb_lt 0 _) H2). cbn [andb negb]. by destruct (_ !! _); eexists.
Qed.
End places.

(** ** An example *)

(** The symbol of a unit is not there: the line is shown and the name is marked. *)
Example unit_shown :
  let e := {| at_line := 3; at_col := 5; why := "symbol %s is not present in %s" |} in
  match print_parse_error (Some (str "lp.so" ++ [10] ++ str "@lib.so" ++ [10] ++ str "old:newer" ++ [10])) e with
  | Ok out => plain out = [10] ++ str "old:newer" ++ [10] ++ str "    ^~~~~" ++ [10] /\ in_red false out = str "newer^~~~~"
  | _ => False
  end.
Proof. vm_compute. split; reflexivity. Qed.

Lemma print_parse_error_spec_witness :
  exists out, print_parse_error (Some (str "lp.so" ++ [10])) {| at_line := 1; at_col := 1; why := "livepatch container file not found" |} = Ok out /\
    in_red false out = str "lp.so^~~~~".
Proof.
  destruct (print_parse_error_spec (str "lp.so" ++ [10]) {| at_line := 1; at_col := 1; why := "livepatch container file not found" |}
    (str "lp.so" ++ [10]) (conj eq_refl eq_refl) ltac:(vm_compute; split; done)) as (out & E & _ & _ & Hred).
  exists out. split; [exact E|exact Hred].
Defined.

Lemma every_error_is_shown_witness :
  exists out, print_parse_error (Some []) {| at_line := 1; at_col := 1; why := "Unable to parse description file: is empty" |} = Ok out.
Proof.
  exact (every_error_is_shown (fun _ => Some []) (fun _ => false) (fun _ => None) true true None None (str "empty.dsc")
    {| at_line := 1; at_col := 1; why := "Unable to parse description file: is empty" |} eq_refl).
Defined.
