(* ===== verification/StackCheck.v ===== *)
(** * The check of the stacks (tools/introspection.c)

    Built with [ENABLE_STACK_CHECK], trigger can refuse to patch a library while a
    thread is in it: the stacks of the threads are unwound and every program counter is
    compared with the addresses where the library is mapped. libunwind is not source
    code: its functions are the class [Unwind]. *)

From stdpp Require Import list.
From S2P Require Import Prelude Errors SymbolLoader InsnQueueLib Interpose Metadata Patches.

Open Scope ulp_scope.

(** ** Where a library is mapped *)

Definition UINTPTR_MAX : Z := 2 ^ 64 - 1.

(** The loop over the lines of /proc/PID/maps. *)
Fixpoint range_loop (lines : list bytes) (library : bytes) (range_start range_end : Z) : Z * Z :=
  match lines with
  | [] => (range_start, range_end)
  | line :: lines =>
    if negb (strstr (cstr line) library) then range_loop lines library range_start range_end
    else
      let (addr1, end_) := strtoul16 line 0 in
      let (addr2, _) := strtoul16 (drop 1 end_) 0 in
      range_loop lines library (if addr1 <? range_start then addr1 else range_start)
        (if range_end <? addr2 then addr2 else range_end)
  end.

Section detect.
(** The file /proc/PID/maps, and [errno] after its last line. *)
Variable procmaps : Z -> option bytes.
Variable getline_errno : Z.

(** The code, [*range_start] and [*range_end]. *)
Definition library_range_detect (pid : Z) (library : bytes) : Z * (Z * Z) :=
  match procmaps pid with
  | None => (ENOENT, (UINTPTR_MAX, 0))
  | Some fp => (getline_errno, range_loop (getlines fp) library UINTPTR_MAX 0)
  end.
End detect.

(** ** Unwinding *)

(** What is used of libunwind: [_UPT_create] and [unw_create_addr_space], which may give
    no object, [unw_init_remote], [unw_get_reg] of the program counter and [unw_step], which
    return a code. [C] is a cursor. *)
Class Unwind (C : Type) := {
  UPT_create : Z -> bool;
  unw_create_addr_space : Z -> bool;
  unw_init_remote : Z -> Z * C;
  unw_get_ip : C -> Z * Z;
  unw_step : C -> Z * C }.

(** The objects of libunwind that are alive. *)
Record live := { contexts : Z; spaces : Z }.

Section check.
Context {C : Type} `{Unwind C}.

Abbreviation chk A := (st live Z A).

Definition new_context : chk unit := modify (fun l => {| contexts := contexts l + 1; spaces := spaces l |}).
Definition new_space : chk unit := modify (fun l => {| contexts := contexts l; spaces := spaces l + 1 |}).
Definition UPT_destroy : chk unit := modify (fun l => {| contexts := contexts l - 1; spaces := spaces l |}).
Definition unw_destroy_addr_space : chk unit := modify (fun l => {| contexts := contexts l; spaces := spaces l - 1 |}).

Definition in_range (range_start range_end pc : Z) : bool := (range_start <? pc) && (pc <? range_end).

(** The loop over the frames: whether one is within the range, [Err] when
    libunwind fails. *)
Fixpoint scan_frames (fuel : nat) (range_start range_end : Z) (cursor : C) : res unit bool :=
  match fuel with
  | O => NoFuel
  | S fuel =>
    let (retcode, pc) := unw_get_ip cursor in
    if negb (retcode =? 0) then Err tt
    else if in_range range_start range_end pc then Ok true
    else
      let (retcode, cursor) := unw_step cursor in
      if retcode =? 0 then Ok false else if retcode <? 0 then Err tt else scan_frames fuel range_start range_end cursor
  end.

Definition error_path_context {A} : chk A := UPT_destroy;;; throw (-1).
Definition error_path_address_space {A} : chk A := unw_destroy_addr_space;;; error_path_context.

(** One thread: whether a frame is found. *)
Definition check_thread (fuel : nat) (range_start range_end tid : Z) : chk bool :=
  if negb (UPT_create tid) then throw (-1)
  else
    new_context;;;
    if negb (unw_create_addr_space tid) then error_path_context
    else
      new_space;;;
      let (retcode, cursor) := unw_init_remote tid in
      if negb (retcode =? 0) then error_path_address_space
      else
        match scan_frames fuel range_start range_end cursor with
        | Ok found => unw_destroy_addr_space;;; UPT_destroy;;; ret found
        | Err _ => error_path_address_space
        | Ub => undef
        | NoFuel => fun l => (NoFuel, l)
        end.

Fixpoint check_threads (fuel : nat) (range_start range_end : Z) (threads : list Z) : chk Z :=
  match threads with
  | [] => ret 0
  | tid :: threads =>
    let! found := check_thread fuel range_start range_end tid in
    if found : bool then ret 1 else check_threads fuel range_start range_end threads
  end.

(** [threads] are those of the process; [object] is [ulp.objs->name]. *)
Definition coarse_library_range_check (procmaps : Z -> option bytes) (getline_errno : Z) (fuel : nat) (pid : Z)
    (threads : list Z) (object : option bytes) (library : option bytes) : chk Z := code (
  match (match library with Some l => Some l | None => object end) with
  | None => undef
  | Some library =>
    let (retcode, range) := library_range_detect procmaps getline_errno pid (cstr library) in
    if negb (retcode =? 0) then throw (-1) else check_threads fuel (fst range) (snd range) threads
  end).
End check.

(** ** The addresses of a library *)

Definition maps_file (ms : list mapping) : bytes := flat_map (fun m => map_line m ++ [10]) ms.

(** The line names the library. *)
Definition names (library : bytes) (m : mapping) : bool := strstr (cstr (map_line m ++ [10])) library.

Definition lowest (library : bytes) (ms : list mapping) : Z :=
  fold_right Z.min UINTPTR_MAX (map lo (List.filter (names library) ms)).
Definition highest (library : bytes) (ms : list mapping) : Z :=
  fold_right Z.max 0 (map hi (List.filter (names library) ms)).

Lemma getlines_line l rest : Forall (fun c => c <> 10) l -> getlines (l ++ 10 :: rest) = (l ++ [10]) :: getlines rest.
Proof.
  induction 1 as [|c l Hc _ IH]; [done|]. cbn [app getlines]. by rewrite (proj2 (Z.eqb_neq _ _) Hc), IH.
Qed.

Lemma getlines_file ms : Forall mapping_ok ms -> getlines (maps_file ms) = map (fun m => map_line m ++ [10]) ms.
Proof.
  induction 1 as [|m ms Hm _ IH]; [done|]. cbn [maps_file flat_map map]. fold (maps_file ms).
  rewrite <- app_assoc. change ([10] ++ maps_file ms) with (10 :: maps_file ms).
  by rewrite getlines_line, IH by by apply map_line_no_newline.
Qed.

(** The bounds at the beginning of a line. *)
Lemma parse_bounds m : mapping_ok m -> exists r1 r2,
  strtoul16 (map_line m ++ [10]) 0 = (lo m, 45 :: r1) /\ strtoul16 r1 0 = (hi m, r2).
Proof.
  intros (Hw & Hlo & Hhi & _). assert (Hpow : 16 ^ Z.of_nat (width m) <= 2 ^ 64).
  { change 16 with (2 ^ 4). rewrite <- Z.pow_mul_r by lia. apply Z.pow_le_mono_r; lia. }
  unfold map_line. do 2 eexists. rewrite <- !app_assoc, !strtoul16_digits by (unfold ULONG_MAX; lia).
  rewrite !Z.mul_0_l, !Z.add_0_l. split; [reflexivity|]. rewrite strtoul16_digits by (unfold ULONG_MAX; lia).
  rewrite Z.mul_0_l, Z.add_0_l. reflexivity.
Qed.

Lemma range_loop_ok library ms : Forall mapping_ok ms -> forall a b,
  range_loop (map (fun m => map_line m ++ [10]) ms) library a b =
  (fold_left Z.min (map lo (List.filter (names library) ms)) a, fold_left Z.max (map hi (List.filter (names library) ms)) b).
Proof.
  induction 1 as [|m ms Hm _ IH]; intros a b; [done|]. cbn [map range_loop List.filter]. fold (names library m).
  destruct (names library m); cbn [negb]; [|apply IH].
  destruct (parse_bounds m Hm) as (r1 & r2 & E1 & E2). rewrite E1. change (drop 1 (45 :: r1)) with r1. rewrite E2, IH. cbn [map fold_left].
  f_equal; f_equal; [destruct (Z.ltb_spec (lo m) a)|destruct (Z.ltb_spec b (hi m))]; lia.
Qed.

Lemma fold_min l a : fold_left Z.min l a = fold_right Z.min a l.
Proof. revert a. induction l as [|x l IH]; intros a; [done|]. cbn [fold_left fold_right]. rewrite IH. clear IH.
  induction l as [|y l IH]; cbn [fold_right]; lia. Qed.

Lemma fold_max l a : fold_left Z.max l a = fold_right Z.max a l.
Proof. revert a. induction l as [|x l IH]; intros a; [done|]. cbn [fold_left fold_right]. rewrite IH. clear IH.
  induction l as [|y l IH]; cbn [fold_right]; lia. Qed.

(** The range of a library: the lowest and the highest address of the mappings whose
    line contains its name. *)
Lemma library_range_ok procmaps pid ms library :
  procmaps pid = Some (maps_file ms) -> Forall mapping_ok ms ->
  library_range_detect procmaps 0 pid library = (0, (lowest library ms, highest library ms)).
Proof.
  intros E Hms. unfold library_range_detect. rewrite E, getlines_file, range_loop_ok, fold_min, fold_max by done. done.
Qed.

Section unwinding.
Context {C : Type} `{Unwind C}.

(** The program counters on a stack, from the innermost. *)
Inductive backtrace : C -> list Z -> Prop :=
| bt_last c pc : unw_get_ip c = (0, pc) -> fst (unw_step c) = 0 -> backtrace c [pc]
| bt_frame c c' r pc pcs : unw_get_ip c = (0, pc) -> unw_step c = (r, c') -> 0 < r -> backtrace c' pcs -> backtrace c (pc :: pcs).

Lemma scan_frames_ok fuel a b c pcs : backtrace c pcs -> (length pcs <= fuel)%nat ->
  scan_frames fuel a b c = Ok (existsb (in_range a b) pcs).
Proof.
  intros Hb. revert fuel. induction Hb as [c pc Hip Hst|c c' r pc pcs Hip Hst Hr Hb IH]; intros [|fuel] Hf;
    try (cbn [length] in Hf; lia); cbn [scan_frames existsb]; rewrite Hip; cbn [negb Z.eqb].
  - destruct (unw_step c) as [r c']. cbn [fst] in Hst. subst r. rewrite orb_false_r. by destruct (in_range a b pc).
  - rewrite Hst, (proj2 (Z.eqb_neq r 0)), (proj2 (Z.ltb_ge r 0)) by lia.
    destruct (in_range a b pc); [done|]. apply IH. cbn [length] in Hf. lia.
Qed.

(** Every object of libunwind is released, however the check ends. *)
Definition releases {A} (m : st live Z A) : Prop := forall l, match m l with ((Ok _ | Err _), l') => l' = l | _ => True end.

Lemma check_thread_releases fuel a b tid : releases (check_thread fuel a b tid).
Proof.
  intros [x y]. unfold check_thread, error_path_address_space, error_path_context, new_context, new_space, UPT_destroy,
    unw_destroy_addr_space, bind, modify, throw, ret. cbn [contexts spaces].
  destruct (UPT_create tid); cbn [negb]; [|done].
  destruct (unw_create_addr_space tid); cbn [negb]; [|cbn; f_equal; lia].
  destruct (unw_init_remote tid) as [retcode c]. destruct (negb (retcode =? 0)); [cbn; f_equal; lia|].
  destruct (scan_frames fuel a b c) as [found|[]| |]; cbn; try done; f_equal; lia.
Qed.

Lemma check_threads_releases fuel a b threads : releases (check_threads fuel a b threads).
Proof.
  induction threads as [|tid threads IH]; intros l; [done|]. cbn [check_threads]. unfold bind.
  pose proof (check_thread_releases fuel a b tid l) as Ht. destruct (check_thread fuel a b tid l) as [[[]|e| |] l']; try done.
  subst l'. apply IH.
Qed.

(** A thread that can be unwound. *)
Definition unwinds (tid : Z) (pcs : list Z) : Prop :=
  UPT_create tid = true /\ unw_create_addr_space tid = true /\
  exists c, unw_init_remote tid = (0, c) /\ backtrace c pcs.

Lemma check_thread_ok fuel a b tid pcs l : unwinds tid pcs -> (length pcs <= fuel)%nat ->
  check_thread fuel a b tid l = (Ok (existsb (in_range a b) pcs), l).
Proof.
  intros (Hc & Hs & c & Hi & Hb) Hf. pose proof (check_thread_releases fuel a b tid l) as Hr.
  assert (E : fst (check_thread fuel a b tid l) = Ok (existsb (in_range a b) pcs)).
  { unfold check_thread, new_context, new_space, UPT_destroy, unw_destroy_addr_space, bind, modify, ret. rewrite Hc, Hs, Hi.
    cbn [negb Z.eqb]. by rewrite (scan_frames_ok fuel a b c pcs Hb Hf). }
  destruct (check_thread fuel a b tid l) as [r l']. cbn [fst] in E. subst r. by rewrite Hr.
Qed.

Lemma check_threads_ok fuel a b threads stacks l :
  Forall2 unwinds threads stacks -> Forall (fun pcs => (length pcs <= fuel)%nat) stacks ->
  check_threads fuel a b threads l = (Ok (if existsb (existsb (in_range a b)) stacks then 1 else 0), l).
Proof.
  intros H2 Hf. induction H2 as [|tid pcs threads stacks Hu _ IH]; [done|].
  pose proof (Forall_inv Hf) as Hp. cbn beta in Hp. cbn [check_threads existsb].
  rewrite (bind_ok _ _ _ _ _ (check_thread_ok fuel a b tid pcs l Hu Hp)).
  destruct (existsb (in_range a b) pcs); [done|]. apply IH. by apply Forall_inv_tail in Hf.
Qed.

(** C36. The coarse check: with the mappings of the process and threads that can be unwound,
    the answer is 1 exactly when a frame of a thread is inside the library, between
    the lowest and the highest address of its mappings, and 0 otherwise; every object of
    libunwind is released. *)
Theorem coarse_library_range_check_spec procmaps fuel pid threads object library ms stacks l
    (Hmaps : procmaps pid = Some (maps_file ms) /\ Forall mapping_ok ms)
    (Hname : match library with Some x => Some x | None => object end = Some l)
    (Hthreads : Forall2 unwinds threads stacks)
    (Hfuel : Forall (fun pcs => (length pcs <= fuel)%nat) stacks) :
  forall s, coarse_library_range_check procmaps 0 fuel pid threads object library s =
    (Ok (if existsb (existsb (in_range (lowest (cstr l) ms) (highest (cstr l) ms))) stacks then 1 else 0), s).
Proof.
  intros s. unfold coarse_library_range_check, code. rewrite Hname.
  rewrite (library_range_ok procmaps pid ms (cstr l)) by tauto. cbn [negb Z.eqb fst snd].
  by rewrite (check_threads_ok fuel _ _ threads stacks s Hthreads Hfuel).
Qed.

(** However the check ends, nothing of libunwind is left. *)
Theorem coarse_library_range_check_releases procmaps e fuel pid threads object library s r s'
    (Hrun : coarse_library_range_check procmaps e fuel pid threads object library s = (Ok r, s')) : s' = s.
Proof.
  unfold coarse_library_range_check, code in Hrun.
  destruct (match library with Some x => Some x | None => object end) as [x|]; [|done].
  destruct (library_range_detect procmaps e pid (cstr x)) as [rc range]. destruct (negb (rc =? 0)); [by injection Hrun|].
  pose proof (check_threads_releases fuel (fst range) (snd range) threads s) as Hr.
  destruct (check_threads fuel (fst range) (snd range) threads s) as [[z|z| |] s1]; try done; injection Hrun as _ <-; exact Hr.
Qed.
End unwinding.
