(* ===== verification/PatchesSpec.v ===== *)
(** * What [ulp patches] lists

    The processes that the iterator visits without a thread; which
    libraries count as patchable; the labels of a comment. *)

From stdpp Require Import gmap.
From S2P Require Import Interpose Prelude Errors Memory Ptrace InsnQueueTool Extract Description RemoteState Commands Introspect IntrospectSpec Patches.

Open Scope ulp_scope.

(** ** Labels *)

Definition alnum (c : Z) : bool := isalpha c || isdigit c.

(** A character between words. *)
Definition separator (c : Z) : bool := negb (c =? 0) && negb (alnum c) && negb (c =? 35) && negb (c =? 45).

(** Digits, a dash and digits: what may follow the prefix of a label. *)
Definition number_tail (s : bytes) : bool :=
  match s with
  | [] => true
  | c :: s => (c =? 45) && forallb isdigit s
  end.

Definition prefixed (p s : bytes) : bool := byte_eqb (map tolower (take 4 s)) p.

(** The part of [s] behind the longest prefix that satisfies [f]. *)
Fixpoint skip_while (f : Z -> bool) (s : bytes) : bytes :=
  match s with
  | c :: s' => if f c then skip_while f s' else s
  | [] => []
  end.

Definition is_label (w : bytes) : bool :=
  (prefixed (str "bsc#") w && forallb isdigit (drop 4 w)) ||
  (prefixed (str "jsc#") w && number_tail (skip_while isalpha (drop 4 w))) ||
  (prefixed (str "cve-") w && number_tail (skip_while isdigit (drop 4 w))).

(** A word in which no label starts, at no position. *)
Definition starts_label (w : bytes) : bool :=
  prefixed (str "bsc#") w || prefixed (str "jsc#") w || prefixed (str "cve-") w.

Fixpoint plain (w : bytes) : bool :=
  match w with
  | [] => true
  | c :: w' => negb (c =? 0) && negb (starts_label w) && plain w'
  end.

Lemma strncasecmp_long s p : (length p <= length s)%nat -> strncasecmp s p = Ok (byte_eqb (map tolower (take (length p) s)) p).
Proof.
  revert s. induction p as [|c p IH]; intros [|d s] Hl; try (cbn in Hl; lia); [done|done|]. cbn [strncasecmp length take map].
  simpl in Hl. destruct (tolower d =? c) eqn:E.
  - apply Z.eqb_eq in E as <-. rewrite IH by lia. f_equal. unfold byte_eqb. apply bool_decide_ext. split; [by intros ->|by intros [=]].
  - apply Z.eqb_neq in E. f_equal. symmetry. apply byte_eqb_neq. congruence.
Qed.

(** A separator ends every comparison. *)
Lemma strncasecmp_sep w c rest p : separator c = true -> forallb (fun d => alnum d || (d =? 35) || (d =? 45)) p = true ->
  (length w < length p)%nat -> Forall (fun d => d <> 0) p -> strncasecmp (w ++ c :: rest) p = Ok false.
Proof.
  intros Hc Hp. revert w. induction p as [|d p IH]; intros w Hl Hz; [simpl in Hl; lia|].
  cbn [forallb] in Hp. apply andb_true_iff in Hp as [Hd Hp]. apply Forall_inv_tail in Hz as Hz'.
  destruct w as [|x w]; cbn [app strncasecmp].
  - assert (tolower c <> d) as Hne; [|by rewrite (proj2 (Z.eqb_neq _ _) Hne)].
    unfold separator, alnum, isalpha, isdigit, tolower in *. destruct ((65 <=? c) && (c <=? 90)) eqn:E; lia.
  - destruct (tolower x =? d); [|done]. apply IH; [done|simpl in Hl; lia|done].
Qed.

Lemma span_all f w c rest : forallb (fun x => negb (x =? 0) && f x) w = true -> negb (c =? 0) && f c = false ->
  span f (w ++ c :: rest) = Ok (w, c :: rest).
Proof.
  intros Hw Hc. induction w as [|x w IH]; cbn [app span]; [by rewrite Hc|].
  cbn [forallb] in Hw. apply andb_true_iff in Hw as [-> Hw]. by rewrite IH.
Qed.

Lemma forallb_digits w : forallb isdigit w = true -> forallb (fun x => negb (x =? 0) && isdigit x) w = true.
Proof.
  rewrite !forallb_forall. intros Hw x Hx. specialize (Hw x Hx). rewrite Hw. unfold isdigit in Hw. lia.
Qed.

Lemma sep_no_digit c : separator c = true -> negb (c =? 0) && isdigit c = false /\ negb (c =? 0) && isalpha c = false /\ (c =? 45) = false.
Proof. unfold separator, alnum, isdigit, isalpha. lia. Qed.

Lemma dash_number_tail w c rest : number_tail w = true -> separator c = true ->
  dash_number (w ++ c :: rest) = Ok (w, c :: rest).
Proof.
  intros Hw Hc. destruct (sep_no_digit c Hc) as (Hd & _ & Hm). destruct w as [|x w]; cbn [app dash_number]; [by rewrite Hm|].
  cbn [number_tail] in Hw. apply andb_true_iff in Hw as [-> Hw]. rewrite span_all; [done|by apply forallb_digits|done].
Qed.

(** The longest prefix, its rest, and how [span] stops. *)
Lemma span_skip f w c rest : (forall x, f x = true -> x <> 0) -> number_tail (skip_while f w) = true ->
  f 45 = false -> negb (c =? 0) && f c = false ->
  exists v, span f (w ++ c :: rest) = Ok (v, skip_while f w ++ c :: rest) /\ w = v ++ skip_while f w.
Proof.
  intros Hf Ht H45 Hc. induction w as [|x w IH]; cbn [app span skip_while] in *; [exists []; by rewrite Hc|].
  destruct (f x) eqn:E.
  - destruct (IH Ht) as (v & -> & Hw). exists (x :: v). rewrite (proj2 (Z.eqb_neq x 0)) by by apply Hf.
    cbn. split; [done|]. by rewrite <- Hw.
  - exists []. by rewrite andb_false_r.
Qed.

Lemma prefixed_length p w : length p = 4%nat -> prefixed p w = true -> (4 <= length w)%nat.
Proof.
  intros Hp Hw. unfold prefixed in Hw. apply byte_eqb_spec in Hw. apply (f_equal length) in Hw.
  rewrite length_map, length_take, Hp in Hw. lia.
Qed.

Lemma prefixed_app p w k : (4 <= length w)%nat -> length p = 4%nat -> strncasecmp (w ++ k) p = Ok (prefixed p w).
Proof.
  intros Hw Hp. rewrite strncasecmp_long by (rewrite length_app; lia). unfold prefixed. by rewrite Hp, take_app_le.
Qed.

(** A label is found whole. *)
Lemma label_found w c rest : is_label w = true -> separator c = true ->
  label_at (w ++ c :: rest) = Ok (Some (w, c :: rest)).
Proof.
  intros Hw Hc. destruct (sep_no_digit c Hc) as (Hd & Ha & Hm). unfold is_label in Hw. unfold label_at.
  assert (Hl : (4 <= length w)%nat).
  { rewrite !orb_true_iff, !andb_true_iff in Hw.
    by destruct Hw as [[[Hp _]|[Hp _]]|[Hp _]]; apply (prefixed_length _ w) in Hp. }
  rewrite !(prefixed_app _ w) by done. cbn [rbind].
  assert (Hsplit : w = take 4 w ++ drop 4 w) by by rewrite take_drop.
  assert (Hdrop : drop 4 (w ++ c :: rest) = drop 4 w ++ c :: rest) by by rewrite drop_app_le.
  assert (Htake : take 4 (w ++ c :: rest) = take 4 w) by by rewrite take_app_le.
  rewrite Hdrop, Htake.
  assert (Hex : forall p q, p <> q -> prefixed p w = true -> prefixed q w = false).
  { intros p q Hne Hp. apply not_true_iff_false. intros Hq. unfold prefixed in *. apply byte_eqb_spec in Hp, Hq. congruence. }
  destruct (prefixed (str "bsc#") w) eqn:Eb.
  - rewrite (Hex (str "bsc#") (str "jsc#") ltac:(done) Eb), (Hex (str "bsc#") (str "cve-") ltac:(done) Eb), !orb_false_r in Hw.
    rewrite span_all by (done || by apply forallb_digits). cbn [rbind fst snd]. by rewrite <- Hsplit.
  - cbn [andb orb] in Hw. destruct (prefixed (str "jsc#") w) eqn:Ej.
    + rewrite (Hex (str "jsc#") (str "cve-") ltac:(done) Ej), orb_false_r in Hw. cbn [andb] in Hw.
      destruct (span_skip isalpha (drop 4 w) c rest) as (v & -> & Hv); [unfold isalpha; lia|done|done|done|].
      cbn [rbind fst snd]. rewrite dash_number_tail by done. cbn [rbind fst snd]. by rewrite <- Hv, <- Hsplit.
    + cbn [andb orb] in Hw. apply andb_true_iff in Hw as [-> Hw].
      destruct (span_skip isdigit (drop 4 w) c rest) as (v & -> & Hv); [unfold isdigit; lia|done|done|done|].
      cbn [rbind fst snd]. rewrite dash_number_tail by done. cbn [rbind fst snd]. by rewrite <- Hv, <- Hsplit.
Qed.

(** No label starts in a plain word or at a separator. *)
Lemma no_label w c rest : starts_label w = false -> separator c = true ->
  label_at (w ++ c :: rest) = Ok None.
Proof.
  intros Hw Hc. unfold label_at. unfold starts_label in Hw. rewrite !orb_false_iff in Hw. destruct Hw as [[Hb Hj] Hv].
  assert (Hno : forall p, length p = 4%nat -> prefixed p w = false ->
    forallb (fun d => alnum d || (d =? 35) || (d =? 45)) p = true -> Forall (fun d => d <> 0) p ->
    strncasecmp (w ++ c :: rest) p = Ok false).
  { intros p Hl Hpre Hp Hz. destruct (Nat.lt_ge_cases (length w) 4) as [Hs|Hs]; [apply strncasecmp_sep; [done..|lia|done]|].
    by rewrite prefixed_app, Hpre. }
  by rewrite (Hno (str "bsc#")), (Hno (str "jsc#")), (Hno (str "cve-")) by (done || by repeat constructor).
Qed.

Lemma plain_start w : plain w = true -> starts_label w = false.
Proof. destruct w as [|c w]; [done|]. cbn [plain]. rewrite !andb_true_iff, !negb_true_iff. tauto. Qed.

(** *** The comment *)

(** The words of a comment, each with the character behind it, and its end. *)
Definition comment_of (ws : list (bytes * Z)) : bytes := concat (map (fun w => w.1 ++ [w.2]) ws) ++ [0].

Definition word_ok (w : bytes * Z) : bool := separator w.2 && (is_label w.1 || plain w.1).

Lemma comment_of_cons w c ws : comment_of ((w, c) :: ws) = w ++ c :: comment_of ws.
Proof. unfold comment_of. cbn. by rewrite <- !app_assoc. Qed.

(** The characters of a plain word are passed over. *)
Lemma scan_plain w c rest n : plain w = true -> separator c = true ->
  scan_labels (S (length w) + n) (w ++ c :: rest) = scan_labels n rest.
Proof.
  intros Hw Hc. induction w as [|x w IH]; cbn [length Nat.add app scan_labels].
  - pose proof (no_label [] c rest eq_refl Hc) as Hl. cbn [app] in Hl. rewrite Hl.
    replace (c =? 0) with false; [done|]. unfold separator in Hc. lia.
  - pose proof (no_label (x :: w) c rest (plain_start _ Hw) Hc) as Hl. cbn [app] in Hl. rewrite Hl.
    cbn [plain] in Hw. rewrite !andb_true_iff in Hw. destruct Hw as [[Hx _] Hw].
    replace (x =? 0) with false by lia. by apply IH.
Qed.

(** A label is shown and passed over with its separator. *)
Lemma scan_label w c rest n : is_label w = true -> separator c = true ->
  scan_labels (S n) (w ++ c :: rest) = try ls := scan_labels n rest in Ok (w :: ls).
Proof.
  intros Hw Hc. pose proof (label_found w c rest Hw Hc) as Hl. destruct w as [|x w]; [by vm_compute in Hw|].
  cbn [app scan_labels] in *. rewrite Hl. assert (x <> 0) as Hx; [|by rewrite (proj2 (Z.eqb_neq _ _) Hx)].
  intros ->. unfold is_label, prefixed in Hw. rewrite !orb_true_iff, !andb_true_iff in Hw.
  destruct Hw as [[[Hp _]|[Hp _]]|[Hp _]]; apply byte_eqb_spec in Hp; by injection Hp.
Qed.

(** C30. A comment made of words, each followed by a separator (a character that is
    neither a letter, a digit, [#] nor [-]), where every word is a whole label,
    [bsc#<number>], [jsc#<letters>-<number>] or [cve-<number>-<number>] in either
    case, or has none of the three prefixes at any position, as [use-after-free] has
    none: [print_relevant_labels] shows exactly the labels, whole and in order;
    nothing else is shown, and the scan ends. What is shown of the other words is in
    [label_cut] and [label_inside]. *)
Theorem labels_found ws (Hws : Forall (fun w => word_ok w = true) ws) :
  print_relevant_labels (Some (comment_of ws)) = Ok (List.filter is_label (map fst ws)).
Proof.
  cbn [print_relevant_labels].
  assert (Hn : forall n, (length (comment_of ws) <= n)%nat ->
    scan_labels n (comment_of ws) = Ok (List.filter is_label (map fst ws))); [|by apply Hn; lia].
  induction ws as [|[w c] ws IH]; intros n Hn.
  - destruct n as [|n]; [cbn in Hn; lia|done].
  - rewrite comment_of_cons in *. apply Forall_inv in Hws as Hw. apply Forall_inv_tail in Hws as Hws'.
    unfold word_ok in Hw. cbn [fst snd] in Hw. apply andb_true_iff in Hw as [Hc Hw]. rewrite length_app in Hn. cbn [length] in Hn.
    cbn [map fst List.filter]. destruct (is_label w) eqn:El.
    + destruct n as [|n]; [lia|]. rewrite scan_label by done. by rewrite (IH Hws' n) by lia.
    + replace n with (S (length w) + (n - S (length w)))%nat by lia. rewrite scan_plain by done. apply IH; [done|lia].
Qed.

(** A word that begins as a label is cut where the number ends, and a label is seen
    inside a word. *)
Lemma label_cut : print_relevant_labels (Some (str "bsc#12x34 " ++ [0])) = Ok [str "bsc#12"].
Proof. vm_compute. reflexivity. Qed.

Lemma label_inside : print_relevant_labels (Some (str "xbsc#1 " ++ [0])) = Ok [str "bsc#1"].
Proof. vm_compute. reflexivity. Qed.

(** ** The processes that are listed *)

Section listing.
Context {K : Type} `{Kernel K}.
Variable fuel : nat.
Variable files : Z -> proc_files.
Variable loginuid : Z -> option Z.
Variable getpwuid : Z -> option bytes.
Variable fnmatch : bytes -> bytes -> bool.
Variable getpid : Z.
Variable binary_name : bytes.

(** The number that a user is given as, or 0. *)
Definition uid_of (user_wildcard : option bytes) : Z :=
  if isnumber user_wildcard then u32 (Z.min (2 ^ 63 - 1) (dec_value (cstr (default [] user_wildcard)))) else 0.

Definition user_wanted (user_wildcard : option bytes) (uid : Z) : bool :=
  match user_wildcard with
  | None => true
  | Some w =>
    if 0 <? uid_of user_wildcard then uid =? uid_of user_wildcard
    else if 0 <? uid then match getpwuid uid with Some name => fnmatch w name | None => true end
    else true
  end.

Definition wanted (procname_wildcard user_wildcard : option bytes) (pid : Z) : bool :=
  match procname_wildcard with
  | None => true
  | Some w => fnmatch w (get_target_binary_name binary_name (f_comm (files pid)))
  end &&
  user_wanted user_wildcard (get_process_owner loginuid pid) && negb (pid =? getpid) && has_libpulp_loaded files pid.

(** The processes of [/proc] that are wanted, in its order. *)
Fixpoint candidates (procname_wildcard user_wildcard : option bytes) (dir : list bytes) : list Z :=
  match dir with
  | [] => []
  | d :: dir =>
    match (if isnumber (Some d) then atoi (cstr d) else Ub) with
    | Ok pid =>
      if wanted procname_wildcard user_wildcard pid then pid :: candidates procname_wildcard user_wildcard dir
      else candidates procname_wildcard user_wildcard dir
    | _ => candidates procname_wildcard user_wildcard dir
    end
  end.

(** The visits of an iteration over [l], when the newest process of the list is
    [last]: a process that cannot be examined is not put on the list, and what is
    visited in its place is the newest one again, or nothing at all. *)
Fixpoint visits (succeeds : Z -> bool) (last : option Z) (l : list Z) : list Z :=
  match l with
  | [] => []
  | pid :: l =>
    if succeeds pid then pid :: visits succeeds (Some pid) l
    else match last with None => [] | Some q => q :: visits succeeds last l end
  end.

Lemma visits_all succeeds last l : Forall (fun pid => succeeds pid = true) l -> visits succeeds last l = l.
Proof. intros Hl. revert last. induction Hl as [|pid l Hp Hl IH]; intros last; cbn; [done|]. by rewrite Hp, IH. Qed.

Abbreviation init pid := (initialize_data_structures fuel (files pid) pid binary_name).

(** Names in [/proc] that are numbers fit a process identifier. *)
Definition proc_names (dir : list bytes) : Prop :=
  Forall (fun d => isnumber (Some d) = true -> exists pid, atoi (cstr d) = Ok pid) dir.

Section iteration.
Variables procname_wildcard user_wildcard : option bytes.
Variable succeeds : Z -> bool.
(** What holds when the processes [vs] have been visited. *)
Variable J : list Z -> tool K -> Prop.
Hypothesis J_log : forall vs fmt s, J vs s -> J vs {| kernel := kernel s; tlog := fmt :: tlog s |}.
Hypothesis J_init : forall vs pid s, J vs s -> exists e p s', init pid s = (Ok (e, p), s') /\ J vs s' /\ (e =? 0) = succeeds pid.

Definition same_wildcards (it : ulp_process_iterator) : Prop :=
  wildcard it = procname_wildcard /\ Patches.user_wildcard it = user_wildcard /\ target_uid it = uid_of user_wildcard.

Lemma user_selected_wanted it pid : same_wildcards it ->
  user_selected loginuid getpwuid fnmatch it pid = user_wanted user_wildcard (get_process_owner loginuid pid).
Proof. intros (_ & Hu & Ht). unfold user_selected, user_wanted. by rewrite Hu, Ht. Qed.

Lemma selected_entry_ok it d : same_wildcards it -> isnumber (Some d) = true -> forall pid, atoi (cstr d) = Ok pid ->
  selected_entry files loginuid getpwuid fnmatch getpid binary_name it d =
  Ok (if wanted procname_wildcard user_wildcard pid then Some pid else None).
Proof.
  intros Hit Hd pid Hp. unfold selected_entry. rewrite Hd, Hp. cbn [negb rbind].
  unfold name_selected, wanted. by rewrite user_selected_wanted, (proj1 Hit).
Qed.

(** A process is put on the list, or the list stays. *)
Lemma insert_ok vs pid last s : J vs s -> exists e last' s',
  insert_target_process fuel files binary_name pid last s = (Ok (e, last'), s') /\ J vs s' /\
  fst <$> head last' = if succeeds pid then Some pid else fst <$> head last.
Proof.
  intros Hs. unfold insert_target_process. destruct (J_init vs pid s Hs) as (e & p & s' & E & Hs' & Hb). step_bind E.
  rewrite Hb. destruct (succeeds pid); cbn [negb]; [by eexists _, _, _|].
  eexists _, _, _. split; [reflexivity|]. by split; [apply J_log|].
Qed.

Abbreviation gen := (generate_ulp_list fuel files loginuid getpwuid fnmatch getpid binary_name).
Abbreviation next := (process_list_next fuel files loginuid getpwuid fnmatch getpid binary_name).
Abbreviation cands := (candidates procname_wildcard user_wildcard).

(** An entry that is not listed is passed over, another one is inserted. *)
Lemma entry_cases it d dir : same_wildcards it -> proc_names (d :: dir) ->
  exists o, selected_entry files loginuid getpwuid fnmatch getpid binary_name it d = Ok o /\
    cands (d :: dir) = match o with None => cands dir | Some pid => pid :: cands dir end.
Proof.
  intros Hit Hd. apply Forall_inv in Hd. cbn [candidates]. destruct (isnumber (Some d)) eqn:En.
  - destruct (Hd eq_refl) as (pid & Hp). eexists. split; [by apply selected_entry_ok|]. rewrite Hp. by destruct (wanted _ _ pid).
  - exists None. unfold selected_entry. by rewrite En.
Qed.

(** The next process of the iteration: the first of the visits, with the others to
    follow. *)
Lemma generate_ok it vs dir last s : same_wildcards it -> proc_names dir -> J vs s ->
  exists dir' last' n s', gen it dir last s = (Ok (dir', last', n), s') /\ J vs s' /\ proc_names dir' /\
    visits succeeds (fst <$> head last) (cands dir) =
      match n with None => [] | Some p => p.1 :: visits succeeds (fst <$> head last') (cands dir') end /\
    (length dir' + length (option_list n) <= length dir)%nat.
Proof.
  intros Hit. revert s. induction dir as [|d dir IH]; intros s Hd Hs.
  { eexists _, _, None, _. split; [reflexivity|]. by split_and!. }
  cbn [generate_ulp_list]. destruct (entry_cases it d dir Hit Hd) as (o & Eo & ->). apply Forall_inv_tail in Hd as Hd'.
  rewrite Eo, run_res_bind. destruct o as [pid|].
  - destruct (insert_ok vs pid last s Hs) as (e & last' & s1 & E1 & Hs1 & Hh). step_bind E1.
    eexists _, _, _, _. split; [reflexivity|]. split_and!; [done|done| |cbn [snd]; destruct (head last'); simpl; lia].
    cbn [snd visits]. destruct (head last') as [[q p]|]; cbn in *; destruct (succeeds pid); [by injection Hh as ->|by rewrite <- Hh|done|by rewrite <- Hh].
  - destruct (IH s Hd' Hs) as (dir' & last' & n & s' & E & Hs' & Hp & Hv & Hl).
    exists dir', last', n, s'. split_and!; [done..|]. simpl. lia.
Qed.

(** The step of the iterator. *)
Lemma next_ok it vs dir s : same_wildcards it -> slashproc it = Some dir -> proc_names dir -> J vs s ->
  exists it' dir' s', next it s = (Ok it', s') /\ J vs s' /\ same_wildcards it' /\ slashproc it' = Some dir' /\ proc_names dir' /\
    visits succeeds (fst <$> head (last it)) (cands dir) =
      match now it' with None => [] | Some p => p.1 :: visits succeeds (fst <$> head (last it')) (cands dir') end /\
    (length dir' + length (option_list (now it')) <= length dir)%nat.
Proof.
  intros Hit Hdir Hd Hs. unfold process_list_next. rewrite Hdir.
  destruct (generate_ok it vs dir (last it) s Hit Hd Hs) as (dir' & last' & n & s' & E & Hs' & Hp & Hv & Hl). step_bind E.
  by exists (set_now last' (Some dir') n it), dir', s'.
Qed.

Abbreviation rounds := (for_each_rounds fuel files loginuid getpwuid fnmatch getpid binary_name).

Lemma rounds_ok body (Hbody : forall vs p s, J vs s -> exists s', body p s = (Ok tt, s') /\ J (vs ++ [p.1]) s') n it vs dir s :
  same_wildcards it -> slashproc it = Some dir -> proc_names dir -> (S (length dir) < n)%nat -> J vs s ->
  exists s', rounds n body it s = (Ok tt, s') /\
    J (vs ++ match now it with None => [] | Some p => p.1 :: visits succeeds (fst <$> head (last it)) (cands dir) end) s'.
Proof.
  revert it vs dir s. induction n as [|n IH]; intros it vs dir s Hit Hdir Hd Hn Hs; [lia|]. cbn [for_each_rounds].
  destruct (now it) as [p|]; [|eexists; split; [done|by rewrite app_nil_r]].
  destruct (Hbody vs p s Hs) as (s1 & E1 & Hs1). step_bind E1.
  destruct (next_ok it _ dir s1 Hit Hdir Hd Hs1) as (it' & dir' & s2 & E2 & Hs2 & Hit' & Hdir' & Hd' & Hv & Hl). step_bind E2. rewrite Hv.
  destruct (now it') as [q|] eqn:Eq.
  - destruct (IH it' (vs ++ [p.1]) dir' s2 Hit' Hdir' Hd') as (s3 & E3 & Hs3); [simpl in Hl; lia|done|].
    exists s3. split; [done|]. by rewrite Eq, <- app_assoc in Hs3.
  - destruct n as [|n]; [lia|]. exists s2. cbn [for_each_rounds]. by rewrite Eq.
Qed.

End iteration.

(** The iterator that [process_list_begin] starts with. *)
Definition start (procname_wildcard user_wildcard : option bytes) (dir : list bytes) : ulp_process_iterator :=
  {| now := None; last := []; wildcard := procname_wildcard; Patches.user_wildcard := user_wildcard;
     target_uid := uid_of user_wildcard; slashproc := Some dir |}.

(** C27. [FOR_EACH_ULP_PROCESS_FROM_USER_WILDCARD] without threads visits, in the order
    of [/proc], the processes whose name and owner the wildcards accept, which are not
    the tool itself and which have mapped libpulp; the loop ends. One that cannot be
    examined is replaced by the newest one that could, which is visited again, and
    ends the list when there is none yet. *)
Theorem for_each_visits procname_wildcard user_wildcard succeeds (J : list Z -> tool K -> Prop) body dir (s : tool K)
    (Hname : isnumber procname_wildcard = false) (Hdir : proc_names dir)
    (J_log : forall vs fmt s, J vs s -> J vs {| kernel := kernel s; tlog := fmt :: tlog s |})
    (J_init : forall vs pid s, J vs s -> exists e p s', init pid s = (Ok (e, p), s') /\ J vs s' /\ (e =? 0) = succeeds pid)
    (J_body : forall vs p s, J vs s -> exists s', body p s = (Ok tt, s') /\ J (vs ++ [p.1]) s')
    (Hs : J [] s) :
  exists s', for_each_process fuel files loginuid getpwuid fnmatch getpid binary_name (Some dir) procname_wildcard user_wildcard
      body s = (Ok ENONE, s') /\
    J (visits succeeds None (candidates procname_wildcard user_wildcard dir)) s'.
Proof.
  unfold for_each_process, process_list_begin. rewrite Hname.
  set (it0 := start procname_wildcard user_wildcard dir).
  destruct (next_ok procname_wildcard user_wildcard succeeds J J_log J_init it0 [] dir s)
    as (it & dir' & s1 & E1 & Hs1 & Hit & Hdir' & Hd' & Hv & Hl); [done..|].
  assert (Hn : (S (length dir') < S (S (length dir)))%nat) by lia.
  destruct (rounds_ok procname_wildcard user_wildcard succeeds J J_log J_init body J_body
    (S (S (length dir))) it [] dir' s1 Hit Hdir' Hd' Hn Hs1) as (s2 & E2 & Hs2).
  exists s2. split; [|by rewrite <- Hv in Hs2]. step_bind (bind_ok _ (fun it => ret (ENONE, it)) _ _ _ E1). by step_bind E2.
Qed.

End listing.

(** ** The libraries that can be patched *)

(** The bytes of a function that can be patched: two no-operations, or one of two
    bytes. *)
Definition nops (m : mem) (a : Z) : bool :=
  match mem_read a 2 m with
  | Some [b0; b1] => ((b0 =? 0x90) || (b0 =? 0x66)) && (b1 =? 0x90)
  | _ => false
  end.

(** A patch of the list is for [libname]. *)
Definition patched (patch : list ulp_applied_patch) (libname : bytes) : bool :=
  existsb (fun p => match ap_lib_name p with RBuffer t => byte_eqb libname (cstr t) | _ => false end) patch.

Definition named (p : ulp_applied_patch) : Prop := exists t, ap_lib_name p = RBuffer t.

Lemma any_patch_ok patch libname : Forall named patch -> any_patch_of patch libname = Ok (patched patch libname).
Proof.
  induction 1 as [|p patch (t & Ht) _ IH]; [done|]. cbn [any_patch_of patched existsb]. rewrite Ht. cbn [local_string rbind].
  by destruct (byte_eqb libname (cstr t)).
Qed.

Section library.
Context {K : Type} `{Cooperative K}.
Variable fuel : nat.
Variable files : Z -> proc_files.
Variable pid : Z.
Variable m : mem.

Abbreviation ok_mem := (has_mem pid m).
Abbreviation preamble_x86 := (check_preamble_x86 (S fuel)).

Lemma check_preamble_x86_ok a (s : tool K) : is_Some (mem_read a 2 m) -> ok_mem s ->
  exists s', preamble_x86 a pid s = (Ok (nops m a), s') /\ ok_mem s'.
Proof.
  intros [bs Hr] [Hm Hb]. unfold check_preamble_x86.
  destruct (read_memory_succeeds fuel [0; 0] pid a s) as (bs' & s' & E & M & R); [rewrite Hm; by eexists|].
  rewrite Hm in R. cbn [length] in R. apply mem_read_length in R as L. change (zlen [0; 0]) with 2 in E. step_bind E.
  unfold nops. rewrite R. destruct bs' as [|b0 [|b1 [|]]]; try done. exists s'. split; [done|]. by split; [rewrite M|].
Qed.

(** The loop stops at the first function that can be patched. *)
Lemma preamble_loop_ok ehdr_addr syms : forall dynsym_addr r (s : tool K),
  array_at m SYM_SIZE dynsym_addr syms -> Forall (fun sym => is_Some (mem_read (u64 (ehdr_addr + u64_at 8 sym)) 2 m)) syms ->
  ok_mem s ->
  exists s', preamble_loop (S fuel) preamble_x86 (length syms) pid ehdr_addr dynsym_addr r s =
    (Ok (if existsb (fun sym => nops m (u64 (ehdr_addr + u64_at 8 sym))) syms then Some 1
         else match syms with [] => r | _ => Some 0 end), s') /\ ok_mem s'.
Proof.
  induction syms as [|sym syms IH]; intros a r s Ha Hf Hs; [by exists s|]. inversion Ha as [|? ? ? Hr Hlo Hhi Hrest]; subst.
  cbn [length preamble_loop existsb].
  destruct (read_struct_ok fuel pid m SYM_SIZE a sym s Hs ltac:(done) Hr) as (s1 & E1 & Hs1). step_bind E1.
  change (negb (0 =? 0)) with false. cbv iota.
  destruct (check_preamble_x86_ok _ s1 (Forall_inv Hf) Hs1) as (s2 & E2 & Hs2). step_bind E2.
  destruct (nops m _); [by exists s2|]. rewrite wrap_id by (unfold in_u; unfold SYM_SIZE in *; lia).
  destruct (IH (a + SYM_SIZE) (Some 0) s2 Hrest (Forall_inv_tail Hf) Hs2) as (s3 & E3 & Hs3). exists s3. split; [|done].
  rewrite E3. cbn [orb]. by destruct syms.
Qed.

(** The process can be left, and that changes nothing. *)
Definition detaches : Prop := forall s, ok_mem s -> exists s', detach (K := K) (S fuel) pid s = (Ok 0, s').

(** C29. [is_library_livepatchable] on x86_64: a library can be patched exactly when it
    has been, or when one of its symbols, up to the 8000th, is at a function that
    starts with the no-operations; for a library with symbols, in a process that can
    be entered and left. *)
Theorem is_library_livepatchable_spec patch main_filename obj base ehdr_addr syms (s s1 : tool K)
    (Hbase : get_basename (Some (o_filename obj)) = Some base) (Hnamed : Forall named patch)
    (Hatt : attach (S fuel) pid s = (Ok 0, s1)) (Hs : ok_mem s1) (Hdet : detaches)
    (Hehdr : get_ehdr_addr (files pid) main_filename obj = Ok ehdr_addr)
    (Hsyms : array_at m SYM_SIZE (o_dynsym_addr obj) syms) (Hlen : zlen syms = Z.min (o_num_symbols obj) 8000)
    (Hnum : 0 < o_num_symbols obj)
    (Hfun : Forall (fun sym => is_Some (mem_read (u64 (ehdr_addr + u64_at 8 sym)) 2 m)) syms) :
  exists s', is_library_livepatchable (S fuel) files preamble_x86 patch main_filename obj pid s =
    (Ok (patched patch (cstr base) || existsb (fun sym => nops m (u64 (ehdr_addr + u64_at 8 sym))) syms), s').
Proof.
  unfold is_library_livepatchable, has_livepatch_loaded. rewrite Hbase. cbn [deref rbind]. rewrite any_patch_ok by done.
  rewrite run_res_bind. destruct (patched patch (cstr base)); [by exists s|]. cbn [orb]. step_bind Hatt.
  change (negb (0 =? 0)) with false. cbv iota. rewrite <- Hlen, Hehdr. unfold zlen. rewrite Nat2Z.id.
  destruct (preamble_loop_ok ehdr_addr syms (o_dynsym_addr obj) None s1 Hsyms Hfun Hs) as (s2 & E2 & Hs2).
  destruct (Hdet s2 Hs2) as (s3 & E3). exists s3.
  match goal with |- context [bind (bind (run_res (Ok ehdr_addr)) ?k)] =>
    assert (E2' : bind (run_res (Ok ehdr_addr)) k s1 = _) by (rewrite run_res_bind; exact E2) end.
  step_bind E2'. step_bind E3. change (negb (0 =? 0)) with false. cbv iota.
  destruct syms as [|sym syms]; [by unfold zlen in Hlen; cbn in Hlen; lia|]. by destruct (existsb _ _).
Qed.

(** Without symbols, as in a library that has no [DT_HASH], what is returned is the
    variable [ret], which nothing has set. *)
Lemma no_symbols_undefined patch main_filename obj base ehdr_addr (s s1 : tool K) :
  get_basename (Some (o_filename obj)) = Some base -> Forall named patch -> patched patch (cstr base) = false ->
  attach (S fuel) pid s = (Ok 0, s1) -> ok_mem s1 -> detaches -> get_ehdr_addr (files pid) main_filename obj = Ok ehdr_addr ->
  o_num_symbols obj = 0 ->
  fst (is_library_livepatchable (S fuel) files preamble_x86 patch main_filename obj pid s) = Ub.
Proof.
  intros Hbase Hnamed Hp Hatt Hs Hdet Hehdr Hnum. unfold is_library_livepatchable, has_livepatch_loaded. rewrite Hbase.
  cbn [deref rbind]. rewrite any_patch_ok by done. rewrite Hp, run_res_bind. step_bind Hatt.
  change (negb (0 =? 0)) with false. cbv iota. rewrite Hehdr, Hnum. destruct (Hdet s1 Hs) as (s2 & E2).
  match goal with |- context [bind (bind (run_res (Ok ehdr_addr)) ?k)] =>
    assert (E1 : bind (run_res (Ok ehdr_addr)) k s1 = (Ok None, s1)) by by rewrite run_res_bind end.
  step_bind E1. by step_bind E2.
Qed.
End library.

(** ** What goes wrong *)

(** A label at the end of a comment is read past its end; the character behind a
    label is lost. *)
Lemma label_at_end : print_relevant_labels (Some (str "bsc#1" ++ [0])) = Ub.
Proof. vm_compute. reflexivity. Qed.

Lemma adjacent_label : print_relevant_labels (Some (str "bsc#1jsc#PED-2 " ++ [0])) = Ok [str "bsc#1"].
Proof. vm_compute. reflexivity. Qed.

(** A process that cannot be examined ends the list before the others, or shows the
    one before it again. *)
Lemma failure_ends_list l : visits (fun pid => negb (pid =? 1)) None (1 :: l) = [].
Proof. done. Qed.

Lemma failure_repeats : visits (fun pid => negb (pid =? 3)) None [2; 3; 4] = [2; 2; 4].
Proof. done. Qed.

(** The processes of root are listed for every user, and so are all processes for the
    user 0 unless its number is the pattern of a name. *)
Lemma root_always_wanted getpwuid fnmatch user : uid_of (Some user) = 0 -> user_wanted getpwuid fnmatch (Some user) 0 = true.
Proof. intros Hu. unfold user_wanted. by rewrite Hu. Qed.
