(* ===== verification/PatchesThreads.v ===== *)
(** * The iterator over the processes, with a thread (tools/patches.c)

    With [enable_threading] one thread looks for the processes and puts them into
    the queue of [PcQueue]; [process_list_next] takes them out, until it gets
    [NULL]. A step is an access to the queue (as in [PcQueue]), the examination of
    an entry of [/proc], the body of the loop for one process, or the join: the
    steps of the two threads interleave in any order. The waits are not
    interrupted by signals. *)

From stdpp Require Import gmap relations.
From S2P Require Import Interpose Prelude Errors Memory Ptrace InsnQueueTool Extract Description RemoteState Commands Introspect IntrospectSpec.
From S2P Require Import PcQueue Patches PatchesSpec.

Open Scope ulp_scope.

(** A [struct ulp_process *] that is not [NULL]. *)
Abbreviation proc := (Z * Introspect.process)%type.

(** Where the thread with the loop is: in [process_list_next], in the body, in
    [process_list_end] with [it->now] null, behind the loop. *)
Inductive consumer_at := CNext | CBody (p : proc) | CEnd | CDone.

Section threads.
Context {K : Type} `{Kernel K}.
Variable fuel : nat.
Variable files : Z -> proc_files.
Variable loginuid : Z -> option Z.
Variable getpwuid : Z -> option bytes.
Variable fnmatch : bytes -> bytes -> bool.
Variable getpid : Z.
Variable binary_name : bytes.

Abbreviation sys A := (st (tool K) Z A).

(** The queue with the places of the two threads in it; the rest of the directory
    and the list [it->last] of [generate_ulp_list_thread], until it returns; the
    thread with the loop; and what both threads share, the tool and the kernel. *)
Record system := {
  ring : PcQueue.threads (A := proc);
  gen : option (list bytes * list proc);
  cons : consumer_at;
  shared : tool K }.

Variable it : ulp_process_iterator.

(** One turn of the loop of [generate_ulp_list_thread]: what is enqueued, if
    anything, and [it->last]. *)
Definition generate_entry (d : bytes) (last : list proc) : sys (option (option proc) * list proc) :=
  let! p := run_res (selected_entry files loginuid getpwuid fnmatch getpid binary_name it d) in
  match p with
  | None => ret (None, last)
  | Some pid =>
    let! r := insert_target_process fuel files binary_name pid last in
    ret (Some (hd_error (snd r)), snd r)
  end.

Definition give (x : option (option proc)) (r : PcQueue.threads (A := proc)) : PcQueue.threads :=
  set_producer EWait (option_list x) r.

(** The thread that looks for processes, outside of [producer_consumer_enqueue];
    [Err] when it has no step there. *)
Definition generate_step (s : system) : res unit system :=
  match producer (ring s), todo (ring s), gen s with
  | EWait, [], Some ([], _) =>
    Ok {| ring := give (Some None) (ring s); gen := None; cons := cons s; shared := shared s |}
  | EWait, [], Some (d :: dir, last) =>
    match generate_entry d last (shared s) with
    | (Ok (x, last), w) => Ok {| ring := give x (ring s); gen := Some (dir, last); cons := cons s; shared := w |}
    | (NoFuel, _) => NoFuel
    | _ => Ub
    end
  | _, _, _ => Err tt
  end.

Definition put_step (s : system) : res unit system :=
  match enqueue_step (ring s) with
  | Ok r => Ok {| ring := r; gen := gen s; cons := cons s; shared := shared s |}
  | Err e => Err e
  | Ub => Ub
  | NoFuel => NoFuel
  end.

Variable body : proc -> sys unit.

(** The thread with the loop: [process_list_next] is inside
    [producer_consumer_dequeue] until it returns; at [NULL] the loop ends, the
    other thread is joined and the queue deleted. *)
Definition consume_step (s : system) : res unit system :=
  match cons s with
  | CNext =>
    match dequeue_step (ring s) with
    | Ok r =>
      Ok {| ring := r; gen := gen s; shared := shared s;
            cons := match consumer (ring s) with
                    | DPost (Some p) => CBody p
                    | DPost None => CEnd
                    | _ => CNext
                    end |}
    | Err e => Err e
    | Ub => Ub
    | NoFuel => NoFuel
    end
  | CBody p =>
    match body p (shared s) with
    | (Ok _, w) => Ok {| ring := ring s; gen := gen s; cons := CNext; shared := w |}
    | (NoFuel, _) => NoFuel
    | _ => Ub
    end
  | CEnd =>
    match producer (ring s), todo (ring s), gen s with
    | EWait, [], None => Ok {| ring := ring s; gen := gen s; cons := CDone; shared := shared s |}
    | _, _, _ => Err tt
    end
  | CDone => Err tt
  end.

Inductive thread_step (s s' : system) : Prop :=
| step_generate : generate_step s = Ok s' -> thread_step s s'
| step_put : put_step s = Ok s' -> thread_step s s'
| step_consume : consume_step s = Ok s' -> thread_step s s'.

(** Neither thread does what has no meaning, nor runs out of fuel. *)
Definition sound (s : system) : Prop :=
  forall r, In r [generate_step s; put_step s; consume_step s] -> r <> Ub /\ r <> NoFuel.
End threads.
Arguments system K : clear implicits.

(** [process_list_begin] with a thread, for a wildcard that is not a PID: the
    iterator, and the system when both threads run. The queue is used without a
    look at whether it was created. *)
Definition process_list_begin_thread {K} (malloc : Z -> bool) (sem_init_errno : option Z * option Z) (sizeof_queue : Z)
    (slashproc : option (list bytes)) (procname_wildcard user_wildcard : option bytes) (w : tool K) :
    res Z (ulp_process_iterator * option (system K)) :=
  let uid := if isnumber user_wildcard then u32 (Z.min (2 ^ 63 - 1) (dec_value (cstr (default [] user_wildcard)))) else 0 in
  let it := {| now := None; last := []; wildcard := procname_wildcard; user_wildcard := user_wildcard;
               target_uid := uid; slashproc := slashproc |} in
  match slashproc with
  | None => Ok (it, None)
  | Some dir =>
    match producer_consumer_new malloc sem_init_errno sizeof_queue 512 with
    | None => Ub
    | Some q => Ok (it, Some {| ring := PcQueue.start q []; gen := Some (dir, []); cons := CNext; shared := w |})
    end
  end.

(** ** What is sent *)

(** The pointers that are put into the queue for the processes [l], by their
    numbers. *)
Fixpoint sends (succeeds : Z -> bool) (last : option Z) (l : list Z) : list (option Z) :=
  match l with
  | [] => [None]
  | pid :: l => if succeeds pid then Some pid :: sends succeeds (Some pid) l else last :: sends succeeds last l
  end.

Lemma length_sends succeeds l : forall last, length (sends succeeds last l) = S (length l).
Proof. induction l as [|pid l IH]; intros last; cbn [sends]; [done|]. destruct (succeeds pid); cbn; by rewrite IH. Qed.

Lemma null_sent succeeds l : forall last, In None (sends succeeds last l).
Proof. induction l as [|pid l IH]; intros last; cbn [sends]; [by left|]. destruct (succeeds pid); right; apply IH. Qed.

(** Up to the first [NULL] they are the visits. *)
Lemma visits_prefix succeeds l : forall last vs rest,
  sends succeeds last l = (map Some vs ++ rest)%list -> exists more, visits succeeds last l = (vs ++ more)%list.
Proof.
  induction l as [|pid l IH]; intros last vs rest E; (destruct vs as [|v vs]; [eexists; reflexivity|]); [done|].
  cbn [sends visits map app] in *. destruct (succeeds pid).
  - injection E as <- E. apply IH in E as (more & ->). by exists more.
  - destruct last as [q|]; [|done]. injection E as <- E. apply IH in E as (more & ->). by exists more.
Qed.

Lemma visits_end succeeds l : forall last vs rest,
  sends succeeds last l = (map Some vs ++ None :: rest)%list -> visits succeeds last l = vs.
Proof.
  induction l as [|pid l IH]; intros last vs rest E; cbn [sends visits] in *.
  - destruct vs as [|v vs]; [done|]. by destruct vs.
  - destruct (succeeds pid).
    + destruct vs as [|v vs]; [done|]. injection E as <- E. f_equal. by eapply IH.
    + destruct last as [q|]; destruct vs as [|v vs]; try done. injection E as <- E. f_equal. by eapply IH.
Qed.

(** ** The runs *)

Section runs.
Context {K : Type} `{Kernel K}.
Variable fuel : nat.
Variable files : Z -> proc_files.
Variable loginuid : Z -> option Z.
Variable getpwuid : Z -> option bytes.
Variable fnmatch : bytes -> bytes -> bool.
Variable getpid : Z.
Variable binary_name : bytes.
Variables procname_wildcard user_wildcard : option bytes.
Variable succeeds : Z -> bool.
Variable body : proc -> st (tool K) Z unit.
(** What holds when the processes [vs] have been visited. *)
Variable J : list Z -> tool K -> Prop.
Hypothesis J_log : forall vs fmt s, J vs s -> J vs {| kernel := kernel s; tlog := fmt :: tlog s |}.
Hypothesis J_init : forall vs pid s, J vs s ->
  exists e p s', initialize_data_structures fuel (files pid) pid binary_name s = (Ok (e, p), s') /\ J vs s' /\ (e =? 0) = succeeds pid.
Hypothesis J_body : forall vs p s, J vs s -> exists s', body p s = (Ok tt, s') /\ J (vs ++ [p.1]) s'.

Variable it : ulp_process_iterator.
Hypothesis Hit : same_wildcards procname_wildcard user_wildcard it.

Abbreviation cands := (candidates files loginuid getpwuid fnmatch getpid binary_name procname_wildcard user_wildcard).
Abbreviation gstep := (generate_step fuel files loginuid getpwuid fnmatch getpid binary_name it).
Abbreviation tstep := (thread_step fuel files loginuid getpwuid fnmatch getpid binary_name it body).

(** What has been sent, and what will be. *)
Definition sent (r : PcQueue.threads (A := proc)) : list (option proc) := (stored r ++ in_hand r ++ todo r)%list.
Definition unsent (g : option (list bytes * list proc)) : list (option Z) :=
  match g with Some (dir, last) => sends succeeds (fst <$> hd_error last) (cands dir) | None => [] end.
Definition ids (l : list (option proc)) : list (option Z) := map (fmap fst) l.

Variable plan : list (option Z).

(** Where the loop is, having visited [vs]. *)
Definition visited (s : system K) (vs : list proc) : Prop :=
  match cons s with
  | CNext => got (ring s) = map Some vs
  | CBody p => got (ring s) = (map Some vs ++ [Some p])%list /\ consumer (ring s) = DWait
  | CEnd => got (ring s) = (map Some vs ++ [None])%list /\ consumer (ring s) = DWait
  | CDone => got (ring s) = (map Some vs ++ [None])%list /\ consumer (ring s) = DWait /\
             producer (ring s) = EWait /\ todo (ring s) = [] /\ gen s = None
  end.

Record sys_inv (s : system K) : Prop := {
  i_ring : ring_inv 512 (ring s);
  i_hand : handover (sent (ring s)) (ring s);
  i_sent : (ids (sent (ring s)) ++ unsent (gen s))%list = plan;
  i_names : match gen s with Some (dir, _) => proc_names dir | None => True end;
  i_visited : exists vs, J (map fst vs) (shared s) /\ visited s vs }.

(** The steps that are left. *)
Definition weight (c : consumer_at) : Z := match c with CBody _ | CEnd => 1 | _ => 0 end.
Definition sys_left (s : system K) : Z :=
  9 * match gen s with Some (dir, _) => 1 + zlen dir | None => 0 end +
  PcQueue.left (sent (ring s)) (ring s) + 2 * (zlen plan - zlen (got (ring s))) + weight (cons s).

(** Steps inside the queue. *)
Lemma put_frame (r r' : PcQueue.threads (A := proc)) : enqueue_step r = Ok r' -> got r' = got r /\ consumer r' = consumer r.
Proof.
  unfold enqueue_step. destruct (producer r), (todo r); try done;
    repeat (case_goal; try done); intros [= <-]; done.
Qed.

Lemma take_frame (r r' : PcQueue.threads (A := proc)) : dequeue_step r = Ok r' ->
  producer r' = producer r /\ todo r' = todo r /\
  match consumer r with
  | DPost x => got r' = (got r ++ [x])%list /\ consumer r' = DWait
  | _ => got r' = got r
  end.
Proof.
  unfold dequeue_step. destruct (consumer r); repeat (case_goal; try done); intros [= <-]; done.
Qed.

Lemma sent_run (r r' : PcQueue.threads (A := proc)) : handover (sent r) r -> run_step r r' -> sent r' = sent r /\ handover (sent r') r' /\
  PcQueue.left (sent r') r' = PcQueue.left (sent r) r - 1.
Proof.
  intros Hh Hr. destruct (run_handover _ _ _ Hh Hr) as [Hh' Hl]. pose proof (w_sent _ _ Hh') as E.
  assert (Es : sent r' = sent r) by done. by rewrite Es.
Qed.

Lemma give_frame x (r : PcQueue.threads (A := proc)) : producer r = EWait -> todo r = [] -> ring_inv 512 r -> handover (sent r) r ->
  sent (give x r) = (sent r ++ option_list x)%list /\ ring_inv 512 (give x r) /\ handover (sent (give x r)) (give x r) /\
  PcQueue.left (sent (give x r)) (give x r) = PcQueue.left (sent r) r + 8 * zlen (option_list x).
Proof.
  intros Hp Ht Hi [Hs Hg].
  assert (Es : sent (give x r) = (sent r ++ option_list x)%list).
  { unfold sent, give, in_hand. cbn. rewrite Hp, Ht. cbn. by rewrite app_nil_r. }
  split_and!; [done| | |].
  - destruct Hi as [H1 H2 H3 H4 H5 H6 H7 H8]. unfold storing, unposted in *. rewrite Hp in *. by split.
  - split; [done|exact Hg].
  - rewrite Es. unfold PcQueue.left, give. cbn. rewrite Hp, Ht, zlen_app. change (zlen []) with 0. destruct (consumer r); lia.
Qed.

(** What a turn of the loop of [generate_ulp_list_thread] gives. *)
Lemma generate_entry_ok vs d dir last w : proc_names (d :: dir) -> J vs w ->
  exists x last' w', generate_entry fuel files loginuid getpwuid fnmatch getpid binary_name it d last w = (Ok (x, last'), w') /\ J vs w' /\
    unsent (Some (d :: dir, last)) = (ids (option_list x) ++ unsent (Some (dir, last')))%list /\ zlen (option_list x) <= 1.
Proof.
  intros Hd Hw. unfold generate_entry.
  destruct (entry_cases files loginuid getpwuid fnmatch getpid binary_name procname_wildcard user_wildcard it d dir Hit Hd) as (o & Eo & Ec).
  rewrite Eo, run_res_bind. cbn [unsent]. rewrite Ec. destruct o as [pid|]; [|by eexists _, _, _; split_and!].
  destruct (insert_ok fuel files binary_name succeeds J J_log J_init vs pid last w Hw) as (e & last' & w' & E & Hw' & Hh). step_bind E.
  eexists _, _, _. split; [reflexivity|]. split_and!; [done| |done]. cbn [snd option_list ids map app sends]. unfold ids.
  unfold option_list, option_rect. cbn [map app]. rewrite !Hh. by destruct (succeeds pid).
Qed.

(** The place of the loop after a step of the other thread. *)
Lemma visited_frame s r' g w vs : visited s vs -> cons s <> CDone ->
  got r' = got (ring s) -> consumer r' = consumer (ring s) ->
  visited {| ring := r'; gen := g; cons := cons s; shared := w |} vs.
Proof. unfold visited. cbn. intros Hv Hn -> ->. by destruct (cons s). Qed.

(** A step keeps the invariant, and fewer are left. *)
Lemma generate_inv s s' : sys_inv s -> gstep s = Ok s' -> sys_inv s' /\ sys_left s' <= sys_left s - 1.
Proof.
  intros [Hr Hh Hs Hn (vs & HJ & Hv)] E. unfold generate_step in E.
  destruct (producer (ring s)) eqn:Ep; try done. destruct (todo (ring s)) eqn:Et; [|done].
  assert (Hcd : cons s <> CDone \/ gen s = None).
  { destruct (cons s) eqn:Ec; try (by left). right. unfold visited in Hv. rewrite Ec in Hv. apply Hv. }
  destruct (gen s) as [[[|d dir] last]|] eqn:Eg; [| |done]; (destruct Hcd as [Hcd|]; [|done]).
  - injection E as <-. destruct (give_frame (Some None) (ring s) Ep Et Hr Hh) as (E1 & E2 & E3 & E4).
    split; [split; cbn [ring gen cons shared]; try done|].
    + rewrite E1. unfold ids. rewrite map_app, <- app_assoc. exact Hs.
    + exists vs. split; [done|]. by apply visited_frame.
    + unfold sys_left. cbn [ring gen cons shared]. rewrite E4, Eg. change (zlen (option_list (Some (@None proc)))) with 1. change (zlen (@nil bytes)) with 0.
      cbn. lia.
  - destruct (generate_entry_ok (map fst vs) d dir last (shared s) Hn HJ) as (x & last' & w' & E1 & HJ' & Hu & Hx). rewrite E1 in E.
    injection E as <-. destruct (give_frame x (ring s) Ep Et Hr Hh) as (E2 & E3 & E4 & E5).
    split; [split; cbn [ring gen cons shared]; try done|].
    + rewrite E2. unfold ids. rewrite map_app, <- app_assoc. unfold ids in Hu. by rewrite <- Hu.
    + by apply Forall_inv_tail in Hn.
    + exists vs. split; [done|]. by apply visited_frame.
    + unfold sys_left. cbn [ring gen cons shared]. rewrite E5, Eg, zlen_cons. change (got (give x (ring s))) with (got (ring s)). lia.
Qed.

Lemma put_inv s s' : sys_inv s -> put_step s = Ok s' -> sys_inv s' /\ sys_left s' <= sys_left s - 1.
Proof.
  intros [Hr Hh Hs Hn (vs & HJ & Hv)] E. unfold put_step in E. destruct (enqueue_step (ring s)) as [r'| | |] eqn:Er; try done.
  injection E as <-. pose proof (enqueue_inv 512 (ring s) ltac:(lia) Hr) as Hi. rewrite Er in Hi. destruct Hi as [Hi _].
  destruct (sent_run _ _ Hh (run_enqueue _ _ Er)) as (E1 & E2 & E3). destruct (put_frame _ _ Er) as [Eg Ec].
  assert (Hcd : cons s <> CDone).
  { intros Hc. unfold visited in Hv. rewrite Hc in Hv. destruct Hv as (_ & _ & Hp & Ht & _).
    unfold enqueue_step in Er. by rewrite Hp, Ht in Er. }
  split; [split; cbn [ring gen cons shared]; try done; [by rewrite E1|]|].
  - exists vs. split; [done|]. by apply visited_frame.
  - unfold sys_left. cbn [ring gen cons shared]. rewrite E3, Eg. lia.
Qed.

Lemma consume_inv s s' : sys_inv s -> consume_step body s = Ok s' -> sys_inv s' /\ sys_left s' <= sys_left s - 1.
Proof.
  intros [Hr Hh Hs Hn (vs & HJ & Hv)] E. unfold consume_step in E. unfold visited in Hv. destruct (cons s) eqn:Ec; [| | |done].
  - destruct (dequeue_step (ring s)) as [r'| | |] eqn:Er; try done. injection E as <-.
    pose proof (dequeue_inv 512 (ring s) ltac:(lia) Hr) as Hi. rewrite Er in Hi. destruct Hi as [Hi _].
    destruct (sent_run _ _ Hh (run_dequeue _ _ Er)) as (E1 & E2 & E3). destruct (take_frame _ _ Er) as (_ & _ & Eg).
    split; [split; cbn [ring gen cons shared]; try done; [by rewrite E1|]|].
    + exists vs. split; [done|]. unfold visited. cbn [cons ring]. destruct (consumer (ring s)) as [| |x|[p|]]; try congruence;
        destruct Eg as [Eg Ew]; by rewrite Eg, Hv.
    + unfold sys_left. cbn [ring gen cons shared]. rewrite E3, Ec.
      destruct (consumer (ring s)) as [| |x|[p|]]; cbn [weight]; try (rewrite Eg; lia);
        destruct Eg as [Eg _]; rewrite Eg, zlen_app; change (zlen [_]) with 1; lia.
  - destruct Hv as [Hv Hc]. destruct (J_body _ p _ HJ) as (w & Eb & HJ'). rewrite Eb in E. injection E as <-.
    split; [split; cbn [ring gen cons shared]; try done|].
    + exists (vs ++ [p])%list. cbn [shared]. rewrite map_app. split; [done|]. unfold visited. cbn. by rewrite Hv, map_app.
    + unfold sys_left. cbn [ring gen cons shared]. rewrite Ec. cbn [weight]. lia.
  - destruct Hv as [Hv Hc]. destruct (producer (ring s)) eqn:Ep; try done. destruct (todo (ring s)) eqn:Et; [|done].
    destruct (gen s) eqn:Eg; [done|]. injection E as <-.
    split; [split; cbn [ring gen cons shared]; try done|].
    + exists vs. split; [done|]. by unfold visited; cbn.
    + unfold sys_left. cbn [ring gen cons shared]. rewrite Ec, Eg. cbn [weight]. lia.
Qed.

Lemma thread_step_inv s s' : sys_inv s -> tstep s s' -> sys_inv s' /\ sys_left s' <= sys_left s - 1.
Proof. intros Hi [E|E|E]; [by apply generate_inv|by apply put_inv|by apply consume_inv]. Qed.

Lemma thread_steps_inv k s s' : sys_inv s -> nsteps tstep k s s' -> sys_inv s' /\ sys_left s' <= sys_left s - Z.of_nat k.
Proof.
  intros Hi Hr. revert Hi. induction Hr as [s|k s s1 s2 Hst _ IH]; intros Hi; [split; [done|lia]|].
  destruct (thread_step_inv _ _ Hi Hst) as [H1 H2]. destruct (IH H1) as [H3 H4]. split; [done|lia].
Qed.

(** What the loop was given is a prefix of the plan, and more is pending. *)
Lemma plan_split s : sys_inv s -> exists rest,
  plan = (ids (got (ring s)) ++ ids (in_flight (ring s)) ++ ids (pending (ring s)) ++ rest)%list.
Proof.
  intros [Hr Hh Hs _ _]. destruct (handover_prefix _ _ _ Hr Hh) as [rest E].
  exists (ids rest ++ unsent (gen s))%list. rewrite <- Hs, E. unfold ids. by rewrite !map_app, <- !app_assoc.
Qed.

Lemma ids_some (vs : list proc) : ids (map Some vs) = map Some (map fst vs).
Proof. unfold ids. by rewrite !map_map. Qed.

Lemma zlen_ids l : zlen (ids l) = zlen l.
Proof. unfold zlen, ids. by rewrite length_map. Qed.

Lemma sys_left_nonneg s : sys_inv s -> 0 <= sys_left s.
Proof.
  intros Hi. destruct (plan_split s Hi) as [rest E]. destruct Hi as [Hr Hh _ _ _]. pose proof (left_nonneg _ _ _ Hr Hh) as H1.
  apply (f_equal zlen) in E. rewrite !zlen_app in E. rewrite (zlen_ids (got (ring s))) in E.
  pose proof (zlen_nonneg rest). pose proof (zlen_nonneg (ids (in_flight (ring s)))). pose proof (zlen_nonneg (ids (pending (ring s)))).
  unfold sys_left. assert (0 <= weight (cons s)) by (unfold weight; destruct (cons s); lia).
  assert (0 <= match gen s with Some (dir, _) => 1 + zlen dir | None => 0 end)
    by (destruct (gen s) as [[dir ?]|]; [pose proof (zlen_nonneg dir)|]; lia). lia.
Qed.

(** No step is meaningless. *)
Lemma sys_sound s : sys_inv s -> sound fuel files loginuid getpwuid fnmatch getpid binary_name it body s.
Proof.
  intros [Hr Hh Hs Hn (vs & HJ & Hv)] r [<-|[<-|[<-|[]]]].
  - unfold generate_step. destruct (producer (ring s)); try done. destruct (todo (ring s)); [|done].
    destruct (gen s) as [[[|d dir] last]|]; try done.
    by destruct (generate_entry_ok (map fst vs) d dir last (shared s) Hn HJ) as (x & last' & w' & -> & _).
  - unfold put_step. pose proof (enqueue_inv 512 (ring s) ltac:(lia) Hr) as Hi. by destruct (enqueue_step (ring s)).
  - unfold consume_step. destruct (cons s) as [|p| |]; [| | |done].
    + pose proof (dequeue_inv 512 (ring s) ltac:(lia) Hr) as Hi. by destruct (dequeue_step (ring s)).
    + destruct (J_body _ p _ HJ) as (w & -> & _). done.
    + destruct (producer (ring s)); try done. destruct (todo (ring s)); [|done]. by destruct (gen s).
Qed.

(** The loop has visited the processes up to the first [NULL]; when it was given
    it, all of them. *)
Lemma visited_prefix l s vs : plan = sends succeeds None l -> sys_inv s -> visited s vs ->
  (exists more, visits succeeds None l = (map fst vs ++ more)%list) /\
  (cons s = CEnd \/ cons s = CDone -> visits succeeds None l = map fst vs /\ zlen (got (ring s)) = 1 + zlen vs).
Proof.
  intros Hpl Hi Hv. destruct (plan_split s Hi) as [rest E]. rewrite Hpl in E. unfold visited in Hv. split.
  - destruct (cons s).
    + rewrite Hv, ids_some in E. exact (visits_prefix _ _ _ _ _ E).
    + destruct Hv as [Hv _]. rewrite Hv in E. unfold ids in E. rewrite map_app in E. fold (ids (map Some vs)) in E.
      rewrite ids_some, <- app_assoc in E. exact (visits_prefix _ _ _ _ _ E).
    + destruct Hv as [Hv _]. rewrite Hv in E. unfold ids in E. rewrite map_app in E. fold (ids (map Some vs)) in E.
      rewrite ids_some, <- app_assoc in E. exact (visits_prefix _ _ _ _ _ E).
    + destruct Hv as [Hv _]. rewrite Hv in E. unfold ids in E. rewrite map_app in E. fold (ids (map Some vs)) in E.
      rewrite ids_some, <- app_assoc in E. exact (visits_prefix _ _ _ _ _ E).
  - intros Hc. assert (Hg : got (ring s) = (map Some vs ++ [None])%list) by (destruct Hc as [Hc|Hc]; rewrite Hc in Hv; apply Hv).
    rewrite Hg in E |- *. unfold ids in E. rewrite map_app in E. fold (ids (map Some vs)) in E.
    rewrite ids_some, <- app_assoc in E. split; [exact (visits_end _ _ _ _ _ E)|].
    rewrite zlen_app. change (zlen [None]) with 1. unfold zlen. rewrite length_map. lia.
Qed.

(** When neither thread has a step, the loop has ended and the other thread was
    joined; unless more than the queue can hold is still to be sent. *)
Lemma stuck_joined l s : plan = sends succeeds None l -> sys_inv s ->
  zlen l - zlen (visits succeeds None l) <= 512 -> ~ (exists s', tstep s s') -> cons s = CDone.
Proof.
  intros Hpl Hi Hjoin Hstuck. pose proof (plan_split s Hi) as [rest E]. pose proof (sys_sound s Hi) as Hsound.
  pose proof Hi as [Hr Hh Hs Hn (vs & HJ & Hv)].
  destruct (visited_prefix l s vs Hpl Hi Hv) as [_ Hend].
  assert (Hg : forall s', generate_step fuel files loginuid getpwuid fnmatch getpid binary_name it s <> Ok s')
    by (intros s' Es; by apply Hstuck; exists s'; apply step_generate).
  assert (Hp : forall s', put_step s <> Ok s') by (intros s' Es; by apply Hstuck; exists s'; apply step_put).
  assert (Hc : forall s', consume_step body s <> Ok s') by (intros s' Es; by apply Hstuck; exists s'; apply step_consume).
  assert (Hput : producer (ring s) = EWait /\ (todo (ring s) = [] \/ full (queue (ring s)) = 0)).
  { pose proof (enqueue_inv 512 (ring s) ltac:(lia) Hr) as Hx. unfold put_step in Hp.
    destruct (enqueue_step (ring s)); [by edestruct Hp|done..]. }
  destruct Hput as [Hprod Htodo].
  assert (Hgen : todo (ring s) = [] -> gen s = None).
  { intros Ht. destruct (gen s) as [[[|d dir] last]|] eqn:Eg; [| |done]; exfalso; unfold generate_step in Hg; rewrite Hprod, Ht, Eg in Hg.
    - by edestruct Hg.
    - destruct (generate_entry_ok (map fst vs) d dir last (shared s) Hn HJ) as (x & last' & w' & Ex & _). rewrite Ex in Hg. by edestruct Hg. }
  pose proof (r_full _ _ Hr) as Hf. pose proof (r_empty _ _ Hr) as He. unfold storing, unposted in Hf, He. rewrite Hprod in Hf, He.
  unfold consume_step in Hc. unfold visited in Hv. destruct (cons s) as [|p| |] eqn:Ec; [exfalso|exfalso|exfalso|done].
  - pose proof (dequeue_inv 512 (ring s) ltac:(lia) Hr) as Hx.
    destruct (dequeue_step (ring s)) as [r'|[]| |]; [by edestruct Hc| |done|done]. destruct Hx as [Hw Hem].
    unfold loading, unreleased in *. rewrite Hw in Hf, He. destruct Htodo as [Ht|Ht]; [|lia].
    rewrite (Hgen Ht) in Hs. cbn [unsent] in Hs. rewrite app_nil_r in Hs.
    assert (Hpn : pending (ring s) = []) by (destruct (pending (ring s)) eqn:Epd; [done|rewrite zlen_cons in He; pose proof (zlen_nonneg l0); lia]).
    destruct Hh as [_ H2]. unfold sent, in_hand, in_flight in *. rewrite Hw in H2. rewrite Hprod, Ht, (r_prefix _ _ Hr), Hpn, H2, Hv in Hs.
    cbn [app] in Hs. rewrite !app_nil_r, ids_some in Hs. pose proof (null_sent succeeds l None) as Hnull.
    rewrite <- Hpl, <- Hs in Hnull. by apply in_map_iff in Hnull as (x & [=] & _).
  - destruct Hv as [_ Hw]. destruct (J_body _ p _ HJ) as (w & Eb & _). rewrite Eb in Hc. by edestruct Hc.
  - destruct Hv as [Hv Hw]. unfold loading, unreleased in *. rewrite Hw in Hf, He.
    destruct Htodo as [Ht|Ht]; [rewrite Hprod, Ht, (Hgen Ht) in Hc; by edestruct Hc|].
    destruct (Hend (or_introl eq_refl)) as [Hvis Hlen]. destruct (todo (ring s)) as [|x td] eqn:Etd.
    { rewrite Hprod, (Hgen eq_refl) in Hc. by edestruct Hc. }
    assert (El : zlen plan = zlen (got (ring s)) + zlen (pending (ring s)) + zlen (x :: td) + zlen (unsent (gen s))).
    { rewrite <- Hs, zlen_app, zlen_ids. destruct Hh as [_ H2]. unfold sent, in_hand, in_flight in *.
      rewrite Hprod, Etd, (r_prefix _ _ Hr), H2, Hw, !zlen_app. change (zlen (@nil (option proc))) with 0. lia. }
    assert (Epl : zlen plan = 1 + zlen l) by (rewrite Hpl; unfold zlen; rewrite length_sends; lia).
    rewrite zlen_cons in El. pose proof (zlen_nonneg td). pose proof (zlen_nonneg (unsent (gen s))).
    assert (Ev : zlen (visits succeeds None l) = zlen vs) by (rewrite Hvis; unfold zlen; by rewrite length_map). lia.
Qed.
(** A run can be continued until neither thread has a step. *)
Lemma run_ends s : sys_inv s -> exists k s', nsteps tstep k s s' /\ ~ exists s'', tstep s' s''.
Proof.
  remember (Z.to_nat (sys_left s)) as m eqn:Em. revert s Em. induction m as [m IH] using lt_wf_ind. intros s -> Hi.
  assert (Hnext : forall s1, tstep s s1 -> exists k s', nsteps tstep k s s' /\ ~ exists s'', tstep s' s'').
  { intros s1 Hst. destruct (thread_step_inv _ _ Hi Hst) as [Hi1 Hl]. pose proof (sys_left_nonneg _ Hi1).
    destruct (IH (Z.to_nat (sys_left s1)) ltac:(lia) s1 eq_refl Hi1) as (k & s' & Hr & Hs).
    exists (S k), s'. split; [by econstructor|done]. }
  destruct (gstep s) as [s1| | |] eqn:E1; [by apply (Hnext s1), step_generate|..];
    (destruct (put_step s) as [s1| | |] eqn:E2; [by apply (Hnext s1), step_put|..]);
    (destruct (consume_step body s) as [s1| | |] eqn:E3; [by apply (Hnext s1), step_consume|..]);
    (exists 0%nat, s; split; [constructor|]; intros [s1 [E|E|E]]; congruence).
Qed.
End runs.

(** ** Properties *)

Section properties.
Context {K : Type} `{Kernel K}.
Variable fuel : nat.
Variable files : Z -> proc_files.
Variable loginuid : Z -> option Z.
Variable getpwuid : Z -> option bytes.
Variable fnmatch : bytes -> bytes -> bool.
Variable getpid : Z.
Variable binary_name : bytes.

Abbreviation cands := (candidates files loginuid getpwuid fnmatch getpid binary_name).

Lemma length_candidates pw uw dir : (length (cands pw uw dir) <= length dir)%nat.
Proof.
  induction dir as [|d dir IH]; cbn [candidates length]; [lia|].
  destruct (if isnumber (Some d) then atoi (cstr d) else Ub) as [pid|e| |]; try lia.
  destruct (wanted _ _ _ _ _ _ _ _ _); cbn [length]; lia.
Qed.

(** The state in which [process_list_begin] leaves the two threads. *)
Lemma begin_inv malloc sz procname_wildcard user_wildcard dir succeeds (J : list Z -> tool K -> Prop) w it s
    (Hdir : proc_names dir) (Hw : J [] w)
    (Hbegin : process_list_begin_thread malloc (None, None) sz (Some dir) procname_wildcard user_wildcard w = Ok (it, Some s)) :
  same_wildcards procname_wildcard user_wildcard it /\
  sys_inv files loginuid getpwuid fnmatch getpid binary_name procname_wildcard user_wildcard succeeds J
    (sends succeeds None (cands procname_wildcard user_wildcard dir)) s /\
  sys_left (sends succeeds None (cands procname_wildcard user_wildcard dir)) s <= 11 * (1 + zlen dir).
Proof.
  unfold process_list_begin_thread in Hbegin. destruct (producer_consumer_new _ _ _ _) as [q|] eqn:Eq; [|done].
  injection Hbegin as <- <-. split_and!; try done.
  - split; cbn [ring gen shared]; try done.
    + by apply (new_inv malloc sz).
    + exists []. by split.
  - unfold sys_left, PcQueue.left, sent, in_hand. cbn. change (zlen (@nil (option proc))) with 0. unfold zlen at 2.
    rewrite length_sends. pose proof (length_candidates procname_wildcard user_wildcard dir). unfold zlen. lia.
Qed.

(** C28. With a thread the same processes are visited in the same order as without
    ([for_each_visits]), whatever the order in which the two threads take their
    steps: every run ends after a number of steps linear in the entries of [/proc];
    at any time the loop has visited a prefix of the list, with the same
    replacement of processes that cannot be examined; no step reads a slot that was
    not written; and when neither thread can go on the loop has visited the whole list
    and the thread was joined. The last requires that no more than 512 processes
    come after the [NULL] that ends the list early, which is put there for a
    process that cannot be examined while there is none yet ([never_joined] is
    the other case). *)
Theorem threaded_visits malloc sz procname_wildcard user_wildcard succeeds (J : list Z -> tool K -> Prop) body dir w it s0 k s
    (Hdir : proc_names dir)
    (J_log : forall vs fmt s, J vs s -> J vs {| kernel := kernel s; tlog := fmt :: tlog s |})
    (J_init : forall vs pid s, J vs s ->
       exists e p s', initialize_data_structures fuel (files pid) pid binary_name s = (Ok (e, p), s') /\ J vs s' /\ (e =? 0) = succeeds pid)
    (J_body : forall vs p s, J vs s -> exists s', body p s = (Ok tt, s') /\ J (vs ++ [p.1]) s')
    (Hw : J [] w)
    (Hbegin : process_list_begin_thread malloc (None, None) sz (Some dir) procname_wildcard user_wildcard w = Ok (it, Some s0))
    (Hrun : nsteps (thread_step fuel files loginuid getpwuid fnmatch getpid binary_name it body) k s0 s) :
  let list := cands procname_wildcard user_wildcard dir in
  let visited := visits succeeds None list in
  Z.of_nat k <= 11 * (1 + zlen dir) /\
  sound fuel files loginuid getpwuid fnmatch getpid binary_name it body s /\
  (exists vs more, visited = vs ++ more /\ J vs (shared s)) /\
  (zlen list - zlen visited <= 512 ->
   ~ (exists s', thread_step fuel files loginuid getpwuid fnmatch getpid binary_name it body s s') ->
   cons s = CDone /\ J visited (shared s)).
Proof.
  destruct (begin_inv malloc sz procname_wildcard user_wildcard dir succeeds J w it s0 Hdir Hw Hbegin) as (Hit & Hi0 & Hl0).
  destruct (thread_steps_inv fuel files loginuid getpwuid fnmatch getpid binary_name procname_wildcard user_wildcard succeeds body J
    J_log J_init J_body it Hit _ k s0 s Hi0 Hrun) as [Hi Hl]. cbv zeta.
  pose proof (sys_left_nonneg _ _ _ _ _ _ _ _ _ _ _ _ Hi) as H1.
  pose proof Hi as [_ _ _ _ (vs & HJ & Hv)].
  destruct (visited_prefix _ _ _ _ _ _ _ _ _ _ _ _ s vs eq_refl Hi Hv) as [(more & Hmore) Hend].
  split_and!; [lia|by eapply sys_sound|by exists (map fst vs), more|].
  intros Hjoin Hstuck. assert (Hc : cons s = CDone) by (by eapply stuck_joined).
  split; [done|]. by rewrite (proj1 (Hend (or_intror Hc))).
Qed.

(** When more processes than the queue can hold come after the [NULL] that ends the
    list early, the thread that looks for them is never joined: the tool hangs. *)
Theorem never_joined malloc sz procname_wildcard user_wildcard succeeds (J : list Z -> tool K -> Prop) body dir w it s0 k s
    (Hdir : proc_names dir)
    (J_log : forall vs fmt s, J vs s -> J vs {| kernel := kernel s; tlog := fmt :: tlog s |})
    (J_init : forall vs pid s, J vs s ->
       exists e p s', initialize_data_structures fuel (files pid) pid binary_name s = (Ok (e, p), s') /\ J vs s' /\ (e =? 0) = succeeds pid)
    (J_body : forall vs p s, J vs s -> exists s', body p s = (Ok tt, s') /\ J (vs ++ [p.1]) s')
    (Hw : J [] w)
    (Hbegin : process_list_begin_thread malloc (None, None) sz (Some dir) procname_wildcard user_wildcard w = Ok (it, Some s0))
    (Hmany : zlen (cands procname_wildcard user_wildcard dir) -
             zlen (visits succeeds None (cands procname_wildcard user_wildcard dir)) > 512)
    (Hrun : nsteps (thread_step fuel files loginuid getpwuid fnmatch getpid binary_name it body) k s0 s) :
  cons s <> CDone.
Proof.
  destruct (begin_inv malloc sz procname_wildcard user_wildcard dir succeeds J w it s0 Hdir Hw Hbegin) as (Hit & Hi0 & _).
  destruct (thread_steps_inv fuel files loginuid getpwuid fnmatch getpid binary_name procname_wildcard user_wildcard succeeds body J
    J_log J_init J_body it Hit _ k s0 s Hi0 Hrun) as [Hi _].
  intros Hc. pose proof Hi as [Hr Hh Hs _ (vs & HJ & Hv)].
  destruct (visited_prefix _ _ _ _ _ _ _ _ _ _ _ _ s vs eq_refl Hi Hv) as [_ Hend]. destruct (Hend (or_intror Hc)) as [Hvis Hlen].
  unfold visited in Hv. rewrite Hc in Hv. destruct Hv as (_ & Hw' & Hp & Ht & Hg). rewrite Hg, app_nil_r in Hs.
  apply (f_equal zlen) in Hs. rewrite zlen_ids in Hs. unfold sent, in_hand in Hs. rewrite Hp, Ht, (r_prefix _ _ Hr) in Hs.
  destruct Hh as [_ H2]. unfold in_flight in H2. rewrite Hw' in H2. rewrite H2, !app_nil_r, !zlen_app in Hs.
  pose proof (r_full _ _ Hr) as Hf. pose proof (r_pos _ _ Hr). pose proof (storing_loading (ring s)).
  change (zlen (@nil (option proc))) with 0 in Hs. change (zlen (sends _ _ _)) with (Z.of_nat (length (sends succeeds None (cands procname_wildcard user_wildcard dir)))) in Hs.
  rewrite length_sends in Hs. rewrite Hvis in Hmany. unfold zlen in *. rewrite length_map in Hmany. lia.
Qed.
End properties.
