(* ===== verification/Dump.v ===== *)
(** * The dump command (tools/dump.c)

    What is printed of the metadata of a container, as data, and that it is what the
    packer was given. *)

From stdpp Require Import list.
From S2P Require Import Prelude Errors Metadata DiskMetadata Extract ElfFile Patches.

Open Scope ulp_scope.

(** [buildid_to_string] reads [BUILDID_LEN] bytes. *)
Definition id_string (id : option bytes) : res Z bytes :=
  try id := deref id in
  if zlen id <? BUILDID_LEN then Ub else Ok (buildid_to_string (take (Z.to_nat BUILDID_LEN) id)).

(** What is printed, with [printf]'s [%s]; a null [so_filename] is [None]. *)
Record unit_line := { ul_old_fname : bytes; ul_new_fname : bytes; ul_old_faddr : Z }.
Record ref_line := { rl_ref_name : bytes; rl_target_offset : Z; rl_patch_offset : Z; rl_tls : bool }.
Record header_line := { hl_patch_id : bytes; hl_so_filename : option bytes }.
Record object_lines := {
  ol_build_id : bytes; ol_name : option bytes; ol_nunits : option Z; ol_units : list unit_line; ol_nrefs : Z;
  ol_refs : list ref_line }.
Record dump := { d_header : option header_line; d_object : option object_lines }.

Definition dump_unit (u : ulp_unit) : unit_line :=
  {| ul_old_fname := cstr (old_fname u); ul_new_fname := cstr (new_fname u); ul_old_faddr := old_faddr u |}.

Definition dump_reference (ref : ulp_reference) : ref_line :=
  {| rl_ref_name := cstr (reference_name ref); rl_target_offset := target_offset ref; rl_patch_offset := target_offset ref;
     rl_tls := tls ref |}.

Definition dump_metadata (ulp : ulp_metadata) (buildid_only : bool) : res Z dump :=
  try pid := id_string (Some (patch_id ulp)) in
  let header := if buildid_only then None
                else Some {| hl_patch_id := pid; hl_so_filename := cstr <$> so_filename ulp |} in
  match objs ulp with
  | None => Ok {| d_header := header; d_object := None |}
  | Some obj =>
    try bid := id_string (build_id obj) in
    Ok {| d_header := header;
          d_object := Some {|
            ol_build_id := bid;
            ol_name := if buildid_only then None else Some (cstr (default [] (obj_name obj)));
            ol_nunits := if buildid_only then None else Some (nunits obj);
            ol_units := if buildid_only then [] else map dump_unit (units obj);
            ol_nrefs := nrefs ulp; ol_refs := map dump_reference (refs ulp) |} |}
  end.

Section dump.
Context `{Libelf}.

(** The comments of the file [lib], which are printed up to their end. *)
Definition dump_ulp_comments (lib : option elf) : res Z (option bytes) :=
  try out := extract_ulp_comment_to_mem lib in
  match out with
  | None => Ok None
  | Some out => if forallb (fun c => negb (c =? 0)) out then Ub else Ok (Some (cstr out))
  end.

(** [section] is [.ulp] or, with [--revert], [.ulp.rev]; the code and what is
    printed. *)
Definition run_dump (calloc_ok : nat -> Z -> bool) (c0 : Z) (section : bool -> option (option bytes)) (realpath : option bytes)
    (path : bytes) (lib : option elf) (revert buildid : bool) : res Z (Z * option (dump * option bytes)) :=
  match extract_ulp_from_so_to_mem (section revert) realpath path None with
  | Ok (livepatch_size, Buffer livepatch) =>
    match load_patch_info_from_mem calloc_ok c0 zero_metadata livepatch livepatch_size with
    | (Ok e, s) | (Err e, s) =>
      if negb (e =? 0) then Ok (1, None)
      else
        try d := dump_metadata (ps_ulp s) buildid in
        try c := dump_ulp_comments lib in
        Ok (0, Some (d, c))
    | (Ub, _) => Ub
    | (NoFuel, _) => NoFuel
    end
  | Ok (_, Null) => Ok (1, None)
  | Ok (_, Untouched) => Ub
  | Err _ => Ub
  | Ub => Ub
  | NoFuel => NoFuel
  end.

(** ** What is shown is what was packed *)

Lemma cstr_copy s rest : cstr (cstr s ++ 0 :: rest) = cstr s.
Proof. apply cstr_nul, cstr_no_nul. Qed.

Lemma dump_read_back_unit u : dump_unit (read_back_unit u) = dump_unit u.
Proof. unfold dump_unit, read_back_unit. cbn [old_fname new_fname old_faddr]. by rewrite !cstr_copy. Qed.

Lemma dump_read_back_ref r : dump_reference (read_back_ref r) = dump_reference r.
Proof. unfold dump_reference, read_back_ref. cbn [reference_name target_offset tls]. by rewrite cstr_copy. Qed.

(** C32. What [dump] prints of well-formed metadata that was packed into the [.ulp]
    section of a container, line by line: the code is 0, the file is the path of the
    container, and the name and the build id of the object, the names and the
    address of every unit, and the name, the offset in the target and the
    thread-local mark of every reference are those that the packer was given. Two
    lines are not what it was given: of the patch id the first 20 of its 32 bytes
    are shown, and the line for the offset of a reference in the patch shows its
    offset in the target. *)
Theorem dump_shows_packed calloc_ok c0 section u o id name data realpath path size buf comment lib
    (Halloc : forall n sz, calloc_ok n sz = true)
    (Hwf : wf_metadata u o id name) (Hid : zlen id = BUILDID_LEN) (Hsmall : zlen data < 2 ^ 31)
    (Hw : create_patch_metadata_file true u = Ok (1, data))
    (Hpath : cstr realpath <> []) (Hsec : section false = Some (Some data))
    (Hx : extract_ulp_from_so_to_mem (section false) (Some realpath) path None = Ok (size, Buffer buf))
    (Hc : dump_ulp_comments lib = Ok comment) :
  run_dump calloc_ok c0 section (Some realpath) path lib false false =
  Ok (0, Some (
    {| d_header := Some {| hl_patch_id := buildid_to_string (take 20 (patch_id u)); hl_so_filename := Some (cstr realpath) |};
       d_object := Some {|
         ol_build_id := buildid_to_string id; ol_name := Some (cstr name); ol_nunits := Some (zlen (units o));
         ol_units := map (fun u => {| ul_old_fname := cstr (old_fname u); ul_new_fname := cstr (new_fname u);
                                    ul_old_faddr := old_faddr u |}) (units o);
         ol_nrefs := zlen (refs u);
         ol_refs := map (fun r => {| rl_ref_name := cstr (reference_name r); rl_target_offset := target_offset r;
                                     rl_patch_offset := target_offset r; rl_tls := tls r |}) (refs u) |} |}, comment)).
Proof.
  unfold run_dump. rewrite Hx. rewrite Hsec in Hx.
  destruct (extract_inv _ _ _ _ _ _ Hsmall Hx) as (_ & -> & _).
  destruct (roundtrip_ok calloc_ok c0 u o id name data realpath path None (zlen buf) buf [] Halloc Hwf Hsmall Hw Hpath Hx)
    as (s & E & Hu & _).
  rewrite app_nil_r in E. unfold load_patch_info_from_mem. rewrite E, Hu. cbn [negb Z.eqb].
  destruct Hwf as [Hpid Ho Hbid (Hidl & Hidb) (Hname & Hns) (Hus & Hnu & Hlu) _ (Hrs & Hnr & Hlr)].
  unfold read_back. rewrite Ho. unfold dump_metadata, id_string. cbn [patch_id objs so_filename build_id deref rbind].
  assert (Hp : zlen (patch_id u) = 32) by (unfold zlen; by rewrite Hpid).
  rewrite Hp, Hid. change (32 <? BUILDID_LEN) with false. change (BUILDID_LEN <? BUILDID_LEN) with false. cbn [rbind]. rewrite Hc.
  cbn [rbind]. rewrite (take_ge id) by (unfold zlen, BUILDID_LEN in *; lia).
  cbn [fmap option_fmap option_map obj_name nunits units nrefs refs default]. rewrite Hnu, Hnr, !map_map, cstr_copy.
  rewrite (map_ext _ dump_unit dump_read_back_unit).
  rewrite (map_ext _ dump_reference dump_read_back_ref). unfold Datatypes.id. by rewrite cstr_copy.
Qed.
End dump.
