(* ===== verification/CommandLine.v ===== *)
(** * The command line (tools/ulp.c)

    The command, the option tables, the parser that argp calls for every option,
    argument and at the end, and the dispatch of [main]. argp itself, which splits
    the command line into options and arguments and ends the tool after
    [argp_error], is not modelled: what it delivers is a list of events, and an
    error is the message. [ENABLE_AFL] and [ENABLE_STACK_CHECK] are off. *)

From stdpp Require Import list functions.
From S2P Require Import Interpose Prelude Errors Metadata Extract RemoteState.

Open Scope ulp_scope.

Definition ARGS_MAX : nat := 1.

Definition ULP_OP_REVERT_ALL : Z := 256.
Definition ULP_OP_REVERT : Z := 257.
Definition ULP_OP_COLOR : Z := 258.
Definition ULP_OP_TIMEOUT : Z := 259.
Definition ULP_OP_DISABLE_THREADING : Z := 260.
Definition ULP_OP_RECURSIVE : Z := 261.
Definition ULP_OP_DISABLE_SUMMARIZATION : Z := 262.
Definition ULP_OP_ONLY_LIVEPATCHED : Z := 263.
Definition ULP_OP_DISABLE_SECCOMP : Z := 264.

Inductive command_t :=
| ULP_NONE | ULP_PATCHES | ULP_CHECK | ULP_DUMP | ULP_PACKER | ULP_TRIGGER | ULP_POST | ULP_MESSAGES
| ULP_LIVEPATCHABLE | ULP_EXTRACT | ULP_SET_PATCHABLE.

#[export] Instance command_eq_dec : EqDecision command_t.
Proof. solve_decision. Defined.

(** The members of [struct arguments] that are strings, and those that are flags. *)
Inductive string_member := livepatch | library | metadata | process_wildcard | user_wildcard | prefix | with_debuginfo.
Inductive flag_member :=
| quiet | verbose | buildid | revert | disable_threads | recursive | no_summarization | only_livepatched | disable_seccomp.

#[export] Instance string_member_eq_dec : EqDecision string_member.
Proof. solve_decision. Defined.
#[export] Instance flag_member_eq_dec : EqDecision flag_member.
Proof. solve_decision. Defined.

Record arguments := {
  args : list (option bytes); strings : string_member -> option bytes; command : command_t; retries : Z;
  flags : flag_member -> bool }.

(** [struct arguments arguments = { 0 }] and [arguments.retries = 1]. *)
Definition no_arguments : arguments :=
  {| args := replicate ARGS_MAX None; strings := fun _ => None; command := ULP_NONE; retries := 1; flags := fun _ => false |}.

(** The arguments, the globals that options set, and [state->arg_num]. *)
Record argp_state := { input : arguments; no_color : bool; rr_timeout : Z; arg_num : Z }.

Definition entries : list (bytes * command_t) := [
  (str "patches", ULP_PATCHES); (str "check", ULP_CHECK); (str "dump", ULP_DUMP); (str "packer", ULP_PACKER);
  (str "trigger", ULP_TRIGGER); (str "post", ULP_POST); (str "messages", ULP_MESSAGES);
  (str "livepatchable", ULP_LIVEPATCHABLE); (str "extract", ULP_EXTRACT); (str "set_patchable", ULP_SET_PATCHABLE)].

Definition command_from_string (s : bytes) : command_t :=
  match find (fun e => byte_eqb e.1 (cstr s)) entries with
  | Some e => e.2
  | None => ULP_NONE
  end.

Fixpoint get_command_from_args (argv : list bytes) : command_t :=
  match argv with
  | [] => ULP_NONE
  | a :: argv => if decide (command_from_string a = ULP_NONE) then get_command_from_args argv else command_from_string a
  end.

(** ** The options of a command *)

(** The options of a table: the key, and whether the option has an argument. *)
Definition option_table := list (Z * bool).

Definition verbose_quiet : option_table := [(118, false); (113, false)].
Definition process_user : option_table := [(112, true); (117, true); (ULP_OP_DISABLE_THREADING, false)].

Definition get_command_option_patches : option_table :=
  verbose_quiet ++ process_user ++ [(98, false); (ULP_OP_ONLY_LIVEPATCHED, false); (ULP_OP_COLOR, true)].
Definition get_command_option_check : option_table := verbose_quiet ++ [(112, true)].
Definition get_command_option_dump : option_table := verbose_quiet ++ [(98, false); (ULP_OP_REVERT, false)].
Definition get_command_option_packer : option_table := verbose_quiet ++ [(111, true); (108, true); (116, true)].
Definition get_command_option_trigger : option_table :=
  verbose_quiet ++ process_user ++
  [(ULP_OP_REVERT_ALL, true); (ULP_OP_TIMEOUT, true); (ULP_OP_DISABLE_SUMMARIZATION, false); (ULP_OP_RECURSIVE, false);
   (82, true); (ULP_OP_DISABLE_SECCOMP, false); (114, true); (ULP_OP_REVERT, false); (ULP_OP_COLOR, true)].
Definition get_command_option_post : option_table := verbose_quiet.
Definition get_command_option_messages : option_table := verbose_quiet ++ [(112, true)].
Definition get_command_option_livepatchable : option_table := verbose_quiet.
Definition get_command_option_extract : option_table := verbose_quiet ++ [(111, true); (100, true)].
Definition get_command_option_set_patchable : option_table := verbose_quiet ++ process_user ++ [(114, true)].

Definition get_command_option (cmd : command_t) : option_table :=
  match cmd with
  | ULP_NONE => []
  | ULP_PATCHES => get_command_option_patches
  | ULP_CHECK => get_command_option_check
  | ULP_DUMP => get_command_option_dump
  | ULP_PACKER => get_command_option_packer
  | ULP_TRIGGER => get_command_option_trigger
  | ULP_POST => get_command_option_post
  | ULP_MESSAGES => get_command_option_messages
  | ULP_LIVEPATCHABLE => get_command_option_livepatchable
  | ULP_EXTRACT => get_command_option_extract
  | ULP_SET_PATCHABLE => get_command_option_set_patchable
  end.

(** ** The parser *)

(** [atoi] of any string: white space, a sign and digits; undefined when the number
    is no [int]. *)
Fixpoint leading_digits (s : bytes) : bytes :=
  match s with c :: s => if isdigit c then c :: leading_digits s else [] | [] => [] end.

Definition atoi_value (s : bytes) : Z :=
  let s := skip_spaces s in
  let (neg, s) := match s with
                  | c :: s' => if c =? 45 then (true, s') else if c =? 43 then (false, s') else (false, s)
                  | [] => (false, [])
                  end in
  if neg : bool then - dec_value (leading_digits s) else dec_value (leading_digits s).

Definition is_int (v : Z) : bool := (- 2 ^ 31 <=? v) && (v <? 2 ^ 31).
Definition atoi_int (s : bytes) : res string Z := if is_int (atoi_value s) then Ok (atoi_value s) else Ub.

(** [atol] of digits. *)
Definition atol (s : bytes) : res string Z := if dec_value s <? 2 ^ 63 then Ok (dec_value s) else Ub.

(** What [check_color_available] asks of the environment. *)
Record terminal_env := { NO_COLOR : bool; isatty : bool; TERM : option bytes }.

Definition check_color_available (env : terminal_env) : bool :=
  if NO_COLOR env then false
  else if isatty env then match TERM env with Some term => negb (byte_eqb (cstr term) (str "dumb")) | None => false end
  else false.

Definition set_input (a : arguments) (s : argp_state) : argp_state :=
  {| input := a; no_color := no_color s; rr_timeout := rr_timeout s; arg_num := arg_num s |}.

Definition set_string (f : string_member) (arg : option bytes) (a : arguments) : arguments :=
  {| args := args a; strings := <[f := arg]> (strings a); command := command a; retries := retries a; flags := flags a |}.
Definition raise_flag (f : flag_member) (a : arguments) : arguments :=
  {| args := args a; strings := strings a; command := command a; retries := retries a; flags := <[f := true]> (flags a) |}.
Definition set_command (c : command_t) (a : arguments) : arguments :=
  {| args := args a; strings := strings a; command := c; retries := retries a; flags := flags a |}.
Definition set_retries (r : Z) (a : arguments) : arguments :=
  {| args := args a; strings := strings a; command := command a; retries := r; flags := flags a |}.

(** [arguments->args[i] = arg]. *)
Definition set_arg (i : Z) (arg : bytes) (a : arguments) : res string arguments :=
  if (0 <=? i) && (i <? zlen (args a)) then
    Ok {| args := <[Z.to_nat i := Some arg]> (args a); strings := strings a; command := command a; retries := retries a;
          flags := flags a |}
  else Ub.

Definition set_color (b : bool) (s : argp_state) : argp_state :=
  {| input := input s; no_color := b; rr_timeout := rr_timeout s; arg_num := arg_num s |}.
Definition set_run_and_redirect_timeout (t : Z) (s : argp_state) : argp_state :=
  {| input := input s; no_color := no_color s; rr_timeout := t; arg_num := arg_num s |}.

(** [handle_end_of_arguments]; [argp_error] ends the tool. *)
Definition path_shorter (msg : string) (path : option bytes) : res string unit :=
  try p := deref path in
  if ULP_PATH_LEN <? zlen (cstr p) then Err msg else Ok tt.

Definition at_least (n : Z) (s : argp_state) (msg : string) : res string unit :=
  if arg_num s <? n then Err msg else Ok tt.

Definition handle_end_of_arguments (s : argp_state) : res string unit :=
  let a := input s in
  let arg0 := default None (args a !! 0%nat) in
  try _ := at_least 1 s "Too few arguments." in
  try _ := (if flags a quiet && flags a verbose then Err "You must specify either '-v' or '-q' or none."%string else Ok tt) in
  match command a with
  | ULP_NONE => Err "Invalid command."%string
  | ULP_PATCHES => if 1 <? arg_num s then Err "Too many arguments."%string else Ok tt
  | ULP_EXTRACT | ULP_PACKER | ULP_CHECK => at_least 2 s "Too few arguments."
  | ULP_TRIGGER =>
    try _ :=
      match strings a library with
      | Some l =>
        try _ := (if flags a revert then Err "--revert and --revert-all can not be used together."%string else Ok tt) in
        try _ := at_least 1 s "Too few arguments." in
        path_shorter "LIB name must be shorter than %d bytes; got %d." (Some l)
      | None => at_least 2 s "Too few arguments."
      end in
    if 2 <=? arg_num s then path_shorter "METADATA path must be shorter than %d bytes; got %d." arg0 else Ok tt
  | ULP_POST | ULP_DUMP =>
    try _ := at_least 2 s "Too few arguments." in
    path_shorter "METADATA path must be shorter than %d bytes; got %d." arg0
  | ULP_MESSAGES =>
    match strings a process_wildcard with None => Err "process is mandatory in 'messages' command."%string | Some _ => Ok tt end
  | ULP_SET_PATCHABLE => at_least 2 s "passing 'enable' or 'disable' in ARG1 is mandatory in set_patches."
  | ULP_LIVEPATCHABLE => at_least 2 s "file is mandatory in 'livepatchable' command."
  end.

(** [parser] for an option; [None] is [ARGP_ERR_UNKNOWN]. *)
Definition parse_option (env : terminal_env) (key : Z) (arg : option bytes) (s : argp_state) : res string (option argp_state) :=
  let string f arg := Ok (Some (set_input (set_string f arg (input s)) s)) in
  let flag f := Ok (Some (set_input (raise_flag f (input s)) s)) in
  if key =? 118 then flag verbose
  else if key =? 113 then flag quiet
  else if key =? 112 then string process_wildcard arg
  else if key =? 98 then flag buildid
  else if key =? 111 then string metadata arg
  else if key =? 108 then string livepatch arg
  else if key =? 116 then string library arg
  else if key =? 114 then
    try arg := deref arg in
    try n := atoi_int (cstr arg) in
    if n <? 1 then Err "The argument to '-r' must be greater than zero; got %d."%string
    else Ok (Some (set_input (set_retries n (input s)) s))
  else if key =? 82 then string prefix arg
  else if key =? 100 then string with_debuginfo arg
  else if key =? ULP_OP_REVERT_ALL then string library (get_basename arg)
  else if key =? ULP_OP_REVERT then flag revert
  else if key =? ULP_OP_DISABLE_THREADING then flag disable_threads
  else if key =? ULP_OP_RECURSIVE then flag recursive
  else if key =? ULP_OP_DISABLE_SUMMARIZATION then flag no_summarization
  else if key =? ULP_OP_ONLY_LIVEPATCHED then flag only_livepatched
  else if key =? ULP_OP_DISABLE_SECCOMP then flag disable_seccomp
  else if key =? 117 then string user_wildcard arg
  else if key =? ULP_OP_COLOR then
    try arg := deref arg in
    Ok (Some (set_color
      (if byte_eqb (cstr arg) (str "no") || byte_eqb (cstr arg) (str "n") then true
       else if byte_eqb (cstr arg) (str "auto") then negb (check_color_available env)
       else false) s))
  else if key =? ULP_OP_TIMEOUT then
    if isnumber arg then
      try num := atol (cstr (default [] arg)) in
      if num <? 0 then Err "--timeout value must be a non-negative integer"%string
      else Ok (Some (set_run_and_redirect_timeout num s))
    else Err "--timeout value must be a non-negative integer"%string
  else Ok None.

(** [parser] for [ARGP_KEY_ARG]. *)
Definition parse_arg (arg : bytes) (s : argp_state) : res string argp_state :=
  if arg_num s =? 0 then
    let c := command_from_string arg in
    if decide (c = ULP_NONE) then Err "Invalid command: %s."%string else Ok (set_input (set_command c (input s)) s)
  else if arg_num s <=? Z.of_nat ARGS_MAX then
    try a := set_arg (arg_num s - 1) arg (input s) in Ok (set_input a s)
  else Err "Too many arguments."%string.

(** ** What argp delivers *)

Inductive event := Opt (key : Z) (arg : option bytes) | Arg (arg : bytes).

Definition next_arg (s : argp_state) : argp_state :=
  {| input := input s; no_color := no_color s; rr_timeout := rr_timeout s; arg_num := arg_num s + 1 |}.

Definition parser (env : terminal_env) (e : event) (s : argp_state) : res string argp_state :=
  match e with
  | Opt key arg =>
    try r := parse_option env key arg s in
    match r with Some s => Ok s | None => Err "ARGP_ERR_UNKNOWN"%string end
  | Arg arg => try s := parse_arg arg s in Ok (next_arg s)
  end.

(** The events, and [ARGP_KEY_END]. *)
Fixpoint argp_parse (env : terminal_env) (events : list event) (s : argp_state) : res string argp_state :=
  match events with
  | [] => try _ := handle_end_of_arguments s in Ok s
  | e :: events => try s := parser env e s in argp_parse env events s
  end.

Definition requires_ptrace (command : command_t) : bool :=
  match command with
  | ULP_NONE | ULP_DUMP | ULP_POST | ULP_EXTRACT | ULP_PACKER | ULP_LIVEPATCHABLE => false
  | ULP_PATCHES | ULP_TRIGGER | ULP_CHECK | ULP_MESSAGES | ULP_SET_PATCHABLE => true
  end.

(** [check_ptrace_scope] (tools/ptrace.c): the file of YAMA, if there is one; two
    bytes are expected in it. *)
Definition check_ptrace_scope (geteuid : Z) (ptrace_scope : option bytes) : res string bool :=
  if geteuid =? 0 then Ok true
  else
    match ptrace_scope with
    | None => Ok true
    | Some content =>
      match take 4 content with
      | [b; _] => Ok (b =? 48)
      | _ => Err "What is in the ptrace_scope?"%string
      end
    end.

Definition start_state (env : terminal_env) : argp_state :=
  {| input := no_arguments; no_color := negb (check_color_available env); rr_timeout := 200; arg_num := 0 |}.

(** [main], for the events of a command line; [run] is the commands. *)
Definition main (env : terminal_env) (geteuid : Z) (ptrace_scope : option bytes) (run : command_t -> argp_state -> Z)
    (events : list event) : res string Z :=
  try s := argp_parse env events (start_state env) in
  let cmd := command (input s) in
  try permitted := (if requires_ptrace cmd then check_ptrace_scope geteuid ptrace_scope else Ok true) in
  if permitted : bool then Ok (if decide (cmd = ULP_NONE) then 1 else run cmd s) else Ok EPERM.

(** ** What a parsed command line is *)

(** The path that a command reads. *)
Definition short (path : option bytes) : Prop := exists p, path = Some p /\ zlen (cstr p) <= ULP_PATH_LEN.
Definition arg0 (a : arguments) : option bytes := default None (args a !! 0%nat).

(** What the commands rely on: the arguments that they read without a test are
    there. *)
Definition well_formed (a : arguments) : Prop :=
  length (args a) = ARGS_MAX /\ 1 <= retries a /\ flags a quiet && flags a verbose = false /\
  match command a with
  | ULP_NONE => False
  | ULP_PATCHES => arg0 a = None
  | ULP_CHECK | ULP_PACKER | ULP_EXTRACT | ULP_SET_PATCHABLE | ULP_LIVEPATCHABLE => is_Some (arg0 a)
  | ULP_POST | ULP_DUMP => short (arg0 a)
  | ULP_TRIGGER =>
    (strings a library = None -> short (arg0 a)) /\
    (is_Some (strings a library) -> short (strings a library) /\ flags a revert = false) /\
    (is_Some (arg0 a) -> short (arg0 a))
  | ULP_MESSAGES => is_Some (strings a process_wildcard)
  end.

(** The arguments among the events. *)
Fixpoint args_of (events : list event) : list bytes :=
  match events with
  | [] => []
  | Opt _ _ :: events => args_of events
  | Arg a :: events => a :: args_of events
  end.

(** What argp can deliver for a table: options of the table, with an argument when
    they have one, and any words. *)
Definition deliverable (table : option_table) (e : event) : Prop :=
  match e with
  | Opt key arg => In (key, bool_decide (is_Some arg)) table
  | Arg _ => True
  end.

(** The numbers of [-r] and of [--timeout] are read by [atoi] and [atol], which are
    undefined out of the range of [int] and of [long]. *)
Definition number_fits (e : event) : bool :=
  match e with
  | Opt key (Some arg) =>
    if key =? 114 then is_int (atoi_value (cstr arg))
    else if key =? ULP_OP_TIMEOUT then negb (isnumber (Some arg)) || (dec_value (cstr arg) <? 2 ^ 63)
    else true
  | _ => true
  end.

(** A result that is no undefined behaviour: a value that satisfies [P], or the
    message of [argp_error]. *)
Definition safe {A} (P : A -> Prop) (r : res string A) : Prop :=
  match r with
  | Ok a => P a
  | Err msg => msg <> "ARGP_ERR_UNKNOWN"%string
  | _ => False
  end.

Lemma reported_bind {A B} (P : A -> Prop) (Q : B -> Prop) (r : res string A) (k : A -> res string B) :
  safe P r -> (forall a, P a -> safe Q (k a)) -> safe Q (rbind r k).
Proof. destruct r; cbn; auto. Qed.

(** The state after the arguments [l]. *)
Definition parsed (l : list bytes) (s : argp_state) : Prop :=
  let a := input s in
  length (args a) = ARGS_MAX /\ 1 <= retries a /\ arg_num s = zlen l /\ arg0 a = l !! 1%nat /\
  match l with
  | [] => command a = ULP_NONE
  | [c] | [c; _] => command a = command_from_string c /\ command a <> ULP_NONE
  | _ => False
  end.

Lemma retries_parsed l s n : parsed l s -> 1 <= n -> parsed l (set_input (set_retries n (input s)) s).
Proof. by intros (Ha & _ & Hn & Hc) Hr. Qed.

(** The keys with an argument, and those without. *)
Definition keys (has_arg : bool) : list Z :=
  if has_arg then [112; 117; 111; 108; 116; 100; 82; 114; ULP_OP_REVERT_ALL; ULP_OP_TIMEOUT; ULP_OP_COLOR]
  else [118; 113; 98; ULP_OP_REVERT; ULP_OP_DISABLE_THREADING; ULP_OP_RECURSIVE; ULP_OP_DISABLE_SUMMARIZATION;
        ULP_OP_ONLY_LIVEPATCHED; ULP_OP_DISABLE_SECCOMP].

Lemma option_keys cmd key b : In (key, b) (get_command_option cmd) -> key ∈ keys b.
Proof.
  intros Hk. assert (Hall : forallb (fun e => bool_decide (e.1 ∈ keys e.2)) (get_command_option cmd) = true) by by destruct cmd.
  rewrite forallb_forall in Hall. specialize (Hall _ Hk). by apply bool_decide_eq_true in Hall.
Qed.

(** Every option of a table is known to the parser, and leaves the arguments and
    the command; a number out of range is undefined behaviour. *)
Lemma option_parsed env cmd key arg l s : deliverable (get_command_option cmd) (Opt key arg) -> parsed l s ->
  if number_fits (Opt key arg) then safe (fun r => exists s', r = Some s' /\ parsed l s') (parse_option env key arg s)
  else parse_option env key arg s = Ub.
Proof.
  intros Hk Hs. apply option_keys in Hk. destruct arg as [arg|]; cbn [bool_decide decide_rel] in Hk; unfold keys in Hk;
    simpl in Hk; rewrite !elem_of_cons, elem_of_nil in Hk.
  - destruct Hk as [->|[->|[->|[->|[->|[->|[->|[->|[->|[->|[->|[]]]]]]]]]]]]; try by eexists.
    + change (if is_int (atoi_value (cstr arg)) then safe (fun r => exists s', r = Some s' /\ parsed l s')
          (parse_option env 114 (Some arg) s) else parse_option env 114 (Some arg) s = Ub).
      change (parse_option env 114 (Some arg) s) with
        (rbind (atoi_int (cstr arg)) (fun n => if n <? 1 then Err "The argument to '-r' must be greater than zero; got %d."%string
           else Ok (Some (set_input (set_retries n (input s)) s)))).
      unfold atoi_int. destruct (is_int _); [|done]. cbn [rbind].
      destruct (Z.ltb_spec (atoi_value (cstr arg)) 1); [done|]. eexists. split; [done|]. by apply retries_parsed.
    + change (if negb (isnumber (Some arg)) || (dec_value (cstr arg) <? 2 ^ 63) then safe (fun r => exists s', r = Some s' /\ parsed l s')
          (parse_option env ULP_OP_TIMEOUT (Some arg) s) else parse_option env ULP_OP_TIMEOUT (Some arg) s = Ub).
      change (parse_option env ULP_OP_TIMEOUT (Some arg) s) with
        (if isnumber (Some arg) then rbind (atol (cstr arg)) (fun num =>
           if num <? 0 then Err "--timeout value must be a non-negative integer"%string
           else Ok (Some (set_run_and_redirect_timeout num s)))
         else Err "--timeout value must be a non-negative integer"%string).
      destruct (isnumber (Some arg)); [|done]. cbn [negb orb]. unfold atol. destruct (dec_value (cstr arg) <? 2 ^ 63); [|done]. cbn [rbind].
      destruct (dec_value (cstr arg) <? 0); [done|]. by eexists.
  - destruct Hk as [->|[->|[->|[->|[->|[->|[->|[->|[->|[]]]]]]]]]]; by eexists.
Qed.

Lemma arg_parsed arg l s : parsed l s -> safe (parsed (l ++ [arg])) (try s := parse_arg arg s in Ok (next_arg s)).
Proof.
  intros (Ha & Hr & Hn & H0 & Hl). unfold parse_arg. rewrite Hn.
  destruct (input s) as [ar st c re fl] eqn:Ei. cbn [args command retries arg0] in *. unfold arg0 in H0. cbn [args] in H0.
  destruct ar as [|a0 [|]]; try done. destruct l as [|w [|x [|]]]; try done.
  - change (zlen [] =? 0) with true. cbv iota. destruct (decide _) as [|Hne]; [done|]. cbn [rbind safe].
    unfold parsed, next_arg, set_input. cbn. rewrite Hn. by split_and!.
  - change (zlen [w] =? 0) with false. change (zlen [w] <=? Z.of_nat ARGS_MAX) with true. cbv iota. cbn [rbind safe].
    unfold parsed, next_arg, set_input. cbn. rewrite Hn. by split_and!; try apply Hl.
Qed.

Lemma short_ok msg path : msg <> "ARGP_ERR_UNKNOWN"%string -> is_Some path -> safe (fun _ => short path) (path_shorter msg path).
Proof.
  intros Hm [p ->]. unfold path_shorter. cbn [deref rbind]. destruct (Z.ltb_spec ULP_PATH_LEN (zlen (cstr p))); [done|]. by exists p.
Qed.

Lemma at_least_ok n s msg : msg <> "ARGP_ERR_UNKNOWN"%string -> safe (fun _ => n <= arg_num s) (at_least n s msg).
Proof. intros Hm. unfold at_least. destruct (Z.ltb_spec (arg_num s) n); done. Qed.

Lemma second_arg l s : parsed l s -> 2 <= arg_num s -> is_Some (arg0 (input s)).
Proof. intros (_ & _ & Hn & -> & _) H2. rewrite Hn in H2. destruct l as [|w [|x l]]; [done..|by eexists]. Qed.

Lemma reported_weaken {A} (P Q : A -> Prop) (r : res string A) : safe P r -> (forall a, P a -> Q a) -> safe Q r.
Proof. destruct r; cbn; auto. Qed.

Lemma end_parsed l s : parsed l s -> safe (fun _ => well_formed (input s)) (handle_end_of_arguments s).
Proof.
  intros Hp. pose proof (second_arg l s Hp) as H2. destruct Hp as (Ha & Hr & Hn & H0 & _). unfold handle_end_of_arguments.
  eapply reported_bind; [by apply at_least_ok|]. intros _ _. fold (arg0 (input s)).
  destruct (flags (input s) quiet && flags (input s) verbose) eqn:Eq; [done|]. cbn [rbind].
  unfold well_formed. rewrite Eq. destruct (command (input s)); try done.
  all: try (apply (reported_weaken (fun _ : unit => 2 <= arg_num s)); [by apply at_least_ok|intros; by split_and!; auto]).
  all: try (apply (reported_bind (fun _ : unit => 2 <= arg_num s)); [by apply at_least_ok|];
    intros _ Hnum; apply (reported_weaken (fun _ : unit => short (arg0 (input s)))); [by apply short_ok; [|apply H2]|intros; split_and!; done]).
  - destruct (Z.ltb_spec 1 (arg_num s)) as [|Hle]; [done|]. cbn [safe]. split_and!; try done. rewrite H0, Hn in *.
    destruct l as [|w [|x l]]; [done..|]. unfold zlen in Hle. cbn [length] in Hle. lia.
  - apply (reported_bind (fun _ => (strings (input s) library = None -> 2 <= arg_num s) /\
      (is_Some (strings (input s) library) -> short (strings (input s) library) /\ flags (input s) revert = false))).
    + destruct (strings (input s) library) as [lib|].
      * destruct (flags (input s) revert); [done|]. cbn [rbind]. eapply reported_bind; [by apply at_least_ok|]. intros _ _.
        apply (reported_weaken (fun _ : unit => short (Some lib))); [apply short_ok; [done|by eexists]|]. by intros.
      * apply (reported_weaken (fun _ : unit => 2 <= arg_num s)); [by apply at_least_ok|]. intros _ Hnum. split; [done|]. by intros [].
    + intros _ [Hno Hlib]. destruct (Z.leb_spec 2 (arg_num s)) as [Hge|Hlt].
      * apply (reported_weaken (fun _ : unit => short (arg0 (input s)))); [by apply short_ok; [|apply H2]|]. intros. by split_and!.
      * cbn [safe]. split_and!; try done; [intros Hn'; specialize (Hno Hn'); lia|]. rewrite H0, Hn in *.
        intros Hs. destruct l as [|w [|x l]]; [by destruct Hs..|]. unfold zlen in Hlt. cbn [length] in Hlt. lia.
  - destruct (strings (input s) process_wildcard) as [p|]; [|done]. cbn [safe]. by split_and!.
Qed.

(** How the parser of a command line ends: it reports an error or satisfies [P] when
    the numbers are in range; with a number out of range it never ends well, since it
    meets an error before or runs into undefined behaviour. *)
Definition parsed_or_reported {A} (fits : bool) (P : A -> Prop) (r : res string A) : Prop :=
  if fits then safe P r else r = Ub \/ exists msg, r = Err msg.

Lemma parse_events env cmd events l s : Forall (deliverable (get_command_option cmd)) events -> parsed l s ->
  parsed_or_reported (forallb number_fits events) (fun s => well_formed (input s) /\ parsed (l ++ args_of events) s)
    (argp_parse env events s).
Proof.
  intros He. revert l s. unfold parsed_or_reported. induction He as [|e events Hd _ IH]; intros l s Hs; cbn [argp_parse args_of forallb].
  - apply (reported_bind (fun _ : unit => well_formed (input s))); [by apply (end_parsed l)|]. intros _ Hw. cbn [safe]. by rewrite app_nil_r.
  - destruct e as [key arg|arg]; cbn [parser].
    + pose proof (option_parsed env cmd key arg l s Hd Hs) as Ho. destruct (number_fits _); [|rewrite Ho; by left].
      destruct (parse_option env key arg s) as [r|msg| |]; cbn [rbind safe] in *; try done.
      * destruct Ho as (s' & -> & Hs'). cbn [rbind]. by apply IH.
      * cbn [andb]. destruct (forallb _ _); [done|right; by exists msg].
    + pose proof (arg_parsed arg l s Hs) as Ha. cbn [number_fits andb].
      destruct (rbind (parse_arg arg s) _) as [s'|msg| |]; cbn [rbind safe] in *; try done.
      * specialize (IH _ _ Ha). by rewrite <- app_assoc in IH.
      * destruct (forallb _ _); [done|right; by exists msg].
Qed.

(** C26. What the commands find in [struct arguments]: on every command line that argp
    can deliver in which the numbers of [-r] and [--timeout] are an [int] and a
    [long], the parser reports an error or leaves arguments that are well formed,
    with a command, the path or word that the command reads without a test, no path
    longer than [ULP_PATH_LEN], at least one try, and not both [-v] and [-q]. The
    command is the first argument and the path is the second; [args] is never
    written outside its bounds, and no option of a command is unknown to the parser.
    With a number out of range no arguments are left at all: the parser reports an
    error of an earlier word or runs into the undefined behaviour of [atoi] and
    [atol]. *)
Theorem arguments_well_formed env cmd events
    (He : Forall (deliverable (get_command_option cmd)) events) :
  parsed_or_reported (forallb number_fits events) (fun s => well_formed (input s) /\ parsed (args_of events) s)
    (argp_parse env events (start_state env)).
Proof. by apply (parse_events env cmd events []). Qed.

(** ** What goes wrong *)

(** [atoi] is asked for a number of eleven digits: [ulp trigger -r 99999999999 /lp.so]
    has no defined meaning. *)
Lemma retries_overflow env :
  argp_parse env [Arg (str "trigger"); Opt 114 (Some (str "99999999999")); Arg (str "/lp.so")] (start_state env) = Ub.
Proof. vm_compute. reflexivity. Qed.

(** The table is chosen by the first word of the command line that is the name of a
    command, the command by the first argument: a process called [dump] cannot be
    named. *)
Lemma wrong_table : get_command_from_args [str "ulp"; str "-p"; str "dump"; str "patches"; str "-b"; str "-u"; str "me"] = ULP_DUMP.
Proof. vm_compute. reflexivity. Qed.

Lemma process_option_unknown arg : ~ In (112, arg) (get_command_option ULP_DUMP).
Proof. vm_compute. intros [[=]|[[=]|[[=]|[[=]|[]]]]]. Qed.

(** A path of exactly [ULP_PATH_LEN] bytes is accepted, which the message says must be
    shorter. *)
Lemma path_len_accepted msg : path_shorter msg (Some (replicate 256 97)) = Ok tt.
Proof. vm_compute. reflexivity. Qed.

(** A file of YAMA that is not two bytes long ends the tool. *)
Lemma ptrace_scope_asserts uid : uid <> 0 -> check_ptrace_scope uid (Some (str "0")) = Err "What is in the ptrace_scope?"%string.
Proof. intros Hu. unfold check_ptrace_scope. by rewrite (proj2 (Z.eqb_neq _ _) Hu). Qed.
