(* ===== verification/RtldLocks.v ===== *)
(** * The locks of the loader (lib/symbol_loader.c, include/ld_rtld.h)

    libpulp asks whether the dynamic loader is at work by looking at two mutexes
    within its private [_rtld_global]. Where they are depends on the version of
    the C library: include/ld_rtld.h copies the beginning of the structure for
    each. The offsets are those of the rules of the ABI. *)

From stdpp Require Import list.
From S2P Require Import Interpose Prelude Errors SymbolLoader RemoteState CommandLine.

Open Scope ulp_scope.

(** ** Structures: the size and the alignment of a type *)

Definition ctype : Type := Z * Z.

Definition align_up (off a : Z) : Z := (off + a - 1) / a * a.

(** Where the fields lie, and the end of the last one. *)
Fixpoint layout (off : Z) (fields : list ctype) : list Z * Z :=
  match fields with
  | [] => ([], off)
  | (size, a) :: fields =>
    let o := align_up off a in
    let (os, e) := layout (o + size) fields in (o :: os, e)
  end.

Definition struct_of (fields : list ctype) : ctype :=
  let a := fold_right Z.max 1 (map snd fields) in (align_up (snd (layout 0 fields)) a, a).

Definition field_offset (i : nat) (fields : list ctype) : Z := nth i (fst (layout 0 fields)) 0.

Definition array_of (n : Z) (t : ctype) : ctype := (n * fst t, snd t).

(** The types of the 64-bit ABIs. *)
Definition PTR : ctype := (8, 8).
Definition UNSIGNED : ctype := (4, 4).
Definition SIZE_T : ctype := (8, 8).
Definition pthread_mutex : ctype := (40, 8).

(** ** [_rtld_global], as include/ld_rtld.h has it *)

Definition DL_NNS : Z := 16.
Definition rtld_lock_recursive : ctype := struct_of [pthread_mutex].
Definition r_debug : ctype := struct_of [UNSIGNED; PTR; PTR; UNSIGNED; PTR].
Definition r_debug_extended : ctype := struct_of [r_debug; PTR].
Definition ns_unique_sym_table : ctype := struct_of [rtld_lock_recursive; PTR; SIZE_T; SIZE_T; PTR].

Definition rtld_global__2_31 : list ctype :=
  [array_of DL_NNS (struct_of [PTR; UNSIGNED; PTR; UNSIGNED; UNSIGNED; ns_unique_sym_table; r_debug]);
   SIZE_T; rtld_lock_recursive; rtld_lock_recursive; SIZE_T].
Definition rtld_global__2_35 : list ctype :=
  [array_of DL_NNS (struct_of [PTR; UNSIGNED; PTR; UNSIGNED; UNSIGNED; PTR; ns_unique_sym_table; r_debug_extended]);
   SIZE_T; rtld_lock_recursive; rtld_lock_recursive; rtld_lock_recursive].
Definition rtld_global__2_42 : list ctype :=
  [array_of DL_NNS (struct_of [PTR; UNSIGNED; PTR; UNSIGNED; UNSIGNED; PTR; ns_unique_sym_table]);
   SIZE_T; rtld_lock_recursive; rtld_lock_recursive; rtld_lock_recursive].

(** ** [get_ld_global_locks] *)

(** The addresses of both mutexes; [None] is a pointer that was not written. *)
Record ld_locks := { dl_load_lock_at : option Z; dl_load_write_lock_at : option Z }.

Definition locks_of (rtld : Z) (fields : list ctype) : ld_locks :=
  {| dl_load_lock_at := Some (u64 (rtld + field_offset 2 fields));
     dl_load_write_lock_at := Some (u64 (rtld + field_offset 3 fields)) |}.

Section loader.
Variable infos : list dl_phdr_info.
Variable progname : bytes.
(** The macro [LD_LINUX], and [gnu_get_libc_version ()]. *)
Variable LD_LINUX : bytes.
Variable libc_version : bytes.

(** By the two numbers of the version. *)
Definition locks_by_version (rtld major minor : Z) (old : ld_locks) : res ending ld_locks :=
  if major =? 2 then
    if (31 <=? minor) && (minor <? 35) then Ok (locks_of rtld rtld_global__2_31)
    else if (35 <=? minor) && (minor <? 42) then Ok (locks_of rtld rtld_global__2_35)
    else if 42 <=? minor then Ok (locks_of rtld rtld_global__2_42)
    else Err (libpulp_crash "glibc version %d.%d is unsupported\n")
  else Ok old.

(** [atoi (strtok (s, "."))], with what follows; a missing token is followed as a
    null pointer. *)
Definition next_number (s : bytes) : res ending (Z * bytes) :=
  match strtok_dot s with
  | (Some tok, rest) => match atoi_int tok with Ok n => Ok (n, rest) | _ => Ub end
  | (None, _) => Ub
  end.

(** [old] is what the pointers were before. *)
Definition get_ld_global_locks (old : ld_locks) (d : diag) : res ending ld_locks * diag :=
  match get_loaded_symbol_addr infos progname (Some LD_LINUX) (str "_rtld_global") 0 d with
  | (Ok rtld_global, d) =>
    if rtld_global =? 0 then (Err (libpulp_crash "symbol _rtld_global not found in LD_LINUX\n"), d)
    else if 32 <=? zlen (cstr libc_version) then (Ub, d)
    else
      (try a := next_number (cstr libc_version) in
       try b := next_number (snd a) in
       locks_by_version rtld_global (fst a) (fst b) old, d)
  | (NoFuel, d) => (NoFuel, d)
  | (_, d) => (Ub, d)
  end.
End loader.

(** ** Versions are read *)

Lemma digits_kept (t : bytes) : Forall (fun c => 48 <= c <= 57) t ->
  leading_digits t = t.
Proof.
  induction 1 as [|c t Hc _ IH]; [done|]. cbn [leading_digits]. rewrite IH. unfold isdigit.
  by rewrite (proj2 (Z.leb_le _ _)), (proj2 (Z.leb_le c 57)) by lia.
Qed.

Lemma atoi_digits (t : bytes) : Forall (fun c => 48 <= c <= 57) t -> t <> [] -> dec_value t < 2 ^ 31 ->
  0 <= dec_value t -> atoi_int t = Ok (dec_value t).
Proof.
  intros Ht Hne Hlt Hge. destruct t as [|c t]; [done|]. pose proof (Forall_inv Ht) as Hc. cbn beta in Hc.
  unfold atoi_int, is_int, atoi_value. cbn [skip_spaces]. replace (isspace c) with false by (unfold isspace; lia).
  rewrite (proj2 (Z.eqb_neq c 45)), (proj2 (Z.eqb_neq c 43)) by lia. rewrite (digits_kept (c :: t) Ht).
  by rewrite (proj2 (Z.leb_le _ _)), (proj2 (Z.ltb_lt _ _)) by lia.
Qed.

(** A number, printed with at most five digits, and its end. *)
Lemma next_number_ok n rest : 0 <= n < 10 ^ 5 ->
  next_number (dec_digits 5 n ++ 46 :: rest) = Ok (n, rest) /\ next_number (dec_digits 5 n) = Ok (n, []).
Proof.
  intros Hn. destruct (dec_digits_spec 5 n ltac:(lia) ltac:(lia)) as (Hval & Hall & Hne).
  assert (Hd : Forall (fun c => c <> 46) (dec_digits 5 n)) by (eapply Forall_impl; [|exact Hall]; cbn; intros; lia).
  destruct (strtok_token (dec_digits 5 n) rest Hd Hne) as [E1 E2]. unfold next_number. rewrite E1, E2.
  rewrite atoi_digits, Hval; [done|done|done|rewrite Hval; lia|rewrite Hval; lia].
Qed.

(** The version of a release, as the C library gives it. *)
Definition release (major minor : Z) (patch : option bytes) : bytes :=
  dec_digits 5 major ++ 46 :: dec_digits 5 minor ++ match patch with Some p => 46 :: p | None => [] end.

(** Finding the locks: with the version 2.31 or later the two pointers are [_rtld_global] plus
    the offsets of the structure that belongs to the version; before 2.31 the
    process is stopped; with another major number the pointers stay what they were. *)
Theorem get_ld_global_locks_spec infos progname LD_LINUX libc_version old d rtld d' major minor patch
    (Hsym : get_loaded_symbol_addr infos progname (Some LD_LINUX) (str "_rtld_global") 0 d = (Ok rtld, d'))
    (Hrtld : 0 < rtld < 2 ^ 63)
    (Hversion : cstr libc_version = release major minor patch /\ zlen (cstr libc_version) < 32)
    (Hrange : 0 <= major < 10 ^ 5 /\ 0 <= minor < 10 ^ 5) :
  let locks a b := {| dl_load_lock_at := Some (rtld + a); dl_load_write_lock_at := Some (rtld + b) |} in
  get_ld_global_locks infos progname LD_LINUX libc_version old d =
    (if negb (major =? 2) then Ok old
     else if minor <? 31 then Err (libpulp_crash "glibc version %d.%d is unsupported\n")
     else if minor <? 35 then Ok (locks 2312 2352)
     else if minor <? 42 then Ok (locks 2568 2608)
     else Ok (locks 1800 1840), d').
Proof.
  intros locks. destruct Hversion as [Hv Hl]. destruct Hrange as [Ha Hb].
  unfold get_ld_global_locks. rewrite Hsym, (proj2 (Z.eqb_neq _ _)), (proj2 (Z.leb_gt _ _)) by lia. rewrite Hv. unfold release.
  rewrite (proj1 (next_number_ok major _ Ha)). cbn [rbind fst snd].
  assert (Em : exists r, next_number (dec_digits 5 minor ++ match patch with Some p => 46 :: p | None => [] end) = Ok (minor, r)).
  { destruct patch as [p|]; [exists p; apply (proj1 (next_number_ok minor p Hb))|].
    exists []. rewrite app_nil_r. apply (proj2 (next_number_ok minor [] Hb)). }
  destruct Em as [r ->]. cbn [rbind fst snd]. f_equal. unfold locks_by_version.
  assert (Hlocks : forall a b fields, field_offset 2 fields = a -> field_offset 3 fields = b -> 0 <= a < 2 ^ 20 -> 0 <= b < 2 ^ 20 ->
    locks_of rtld fields = locks a b).
  { intros a b fields <- <- H2 H3. unfold locks_of, locks. by rewrite !wrap_id by (unfold in_u; lia). }
  destruct (Z.eqb_spec major 2); cbn [negb]; [|done].
  destruct (Z.leb_spec 31 minor), (Z.ltb_spec minor 31); try lia; cbn [andb].
  - destruct (Z.ltb_spec minor 35); [f_equal; by apply Hlocks|].
    rewrite (proj2 (Z.leb_le 35 minor)) by lia. cbn [andb].
    destruct (Z.ltb_spec minor 42); [f_equal; by apply Hlocks|].
    rewrite (proj2 (Z.leb_le 42 minor)) by lia. f_equal. by apply Hlocks.
  - rewrite (proj2 (Z.leb_gt 35 minor)), (proj2 (Z.leb_gt 42 minor)) by lia. done.
Qed.
