(* ===== verification/TriggerEntry.v ===== *)
(** * The entry of the trigger command (tools/trigger.c, tools/introspection.c)

    From the parsed command line ([CommandLine]) to the processes ([Trigger]): the
    path says whether one container or the files of a directory are applied. *)

From stdpp Require Import gmap.
From S2P Require Import CommandLine.
From S2P Require Import Prelude Errors Memory Metadata InsnQueue Ptrace InsnQueueTool Extract Critical Trigger.

Open Scope ulp_scope.

(** ** Processes whose root is /proc *)

(** What is compared of [struct stat]. *)
Record stat_t := { st_dev : Z; st_ino : Z; st_blocks : Z }.

(** [stat] of /proc/PID/root and of /proc; [None] is a failure. *)
Definition is_proc_chroot (stat : bytes -> option stat_t) (root_of : Z -> bytes) (pid : Z) : bool :=
  match stat (root_of pid), stat (str "/proc") with
  | Some stat1, Some stat2 =>
    (st_dev stat1 =? st_dev stat2) && (st_ino stat1 =? st_ino stat2) && (st_blocks stat1 =? st_blocks stat2)
  | _, _ => false
  end.

(** ** The path *)

Fixpoint drop_while (f : Z -> bool) (s : bytes) : bytes :=
  match s with c :: s' => if f c then drop_while f s' else s | [] => [] end.

Definition strip_slashes (s : bytes) : bytes := rev (drop_while (Z.eqb 47) (rev s)).

(** [dirname] of the C library. *)
Definition dirname (path : bytes) : bytes :=
  let p := strip_slashes path in
  let d := strip_slashes (rev (drop_while (fun c => negb (c =? 47)) (rev p))) in
  match d with
  | [] => match path with c :: _ => if c =? 47 then str "/" else str "." | [] => str "." end
  | _ => d
  end.

Section entry.
Context {K : Type} `{Kernel K}.
Variable fuel : nat.
Variable timeout : Z.
Variable calloc_ok : nat -> Z -> bool.
Variable c0 : Z.
Variable calloc_thread : bool.
Variable parse_so_elf : bytes -> option ulp_so_info.
Variable fnmatch : bytes -> bytes -> bool.
(** The files: a container, and what a directory holds. *)
Variable container_at : bytes -> container_file.
Variable directory_at : bytes -> option (list dirent).
(** The lines of /proc/self/status, if it opens, and [sscanf (s, "%lx", &value)]. *)
Variable status_lines : option (list bytes).
Variable sscanf_lx : bytes -> option Z.

(** [ulp_folder_path && strchr (ulp_folder_path, '*')] *)
Definition is_wildcard (path : option bytes) : bool :=
  match path with Some p => existsb (Z.eqb 42) (cstr p) | None => false end.

Definition patch_arg_of (path : option bytes) : patch_arg :=
  match path with
  | None => NoPatch
  | Some p =>
    if is_wildcard path then
      Wildcard (dirname (cstr p)) (default [] (get_basename (Some (cstr p)))) (directory_at (dirname (cstr p)))
    else OneFile (container_at (cstr p))
  end.

(** A status file that does not open: no capability. *)
Definition sys_admin : option bool :=
  match status_lines with Some lines => check_sys_admin sscanf_lx lines | None => Some false end.

(** The code and the results of each process; [processes] are those that
    [process_list_begin] selects by the wildcard. *)
Definition run_trigger (a : arguments) (processes : option bytes -> list (ulp_process * target)) :
    st (tool K) Z (Z * list (ulp_process * list trigger_results)) :=
  match strings a user_wildcard with
  | Some _ => t_log "error: user wildcard is currently unsupported in trigger";;; ret (ENOSYS, [])
  | None =>
    match (if flags a CommandLine.disable_seccomp then sys_admin else Some true) with
    | None => undef
    | Some false => t_log "error: disabling seccomp requires CAP_SYS_ADMIN, but user does not provide it.\n";;; ret (EPERM, [])
    | Some true =>
      let! r := trigger_many_processes fuel timeout calloc_ok c0 calloc_thread parse_so_elf (strings a CommandLine.prefix)
        (flags a CommandLine.disable_seccomp) fnmatch (flags a recursive) (Z.to_nat (CommandLine.retries a)) (strings a CommandLine.library)
        (flags a CommandLine.revert) (patch_arg_of (arg0 a)) (processes (strings a process_wildcard)) in
      ret (cret (fst r), snd r)
    end
  end.

(** ** What the command answers *)

Lemma count_none results : count (fun r => negb (err r =? 0) && negb (skippable_error (err r))) results = 0 <->
  Forall (fun r => err r = 0 \/ skippable_error (err r) = true) results.
Proof.
  unfold count, zlen. induction results as [|r results IH]; [by split|]. cbn [filter]. rewrite Forall_cons_iff, <- IH.
  destruct (Z.eqb_spec (err r) 0), (skippable_error (err r)); cbn [negb andb]; cbn [length]; intuition (auto; lia || congruence).
Qed.

(** On arguments the parser lets through: a user's wildcard and a seccomp filter that may
    not be removed are refused before any process is touched; otherwise, with one
    container or none, every process has one result, and the code is 0 exactly when
    none of them is a failure. A run without a container has a library to revert. *)
Theorem run_trigger_spec a processes w
    (Hwf : well_formed a /\ command a = ULP_TRIGGER) :
  (is_Some (strings a user_wildcard) -> exists w', run_trigger a processes w = (Ok (ENOSYS, []), w') /\ kernel w' = kernel w) /\
  (strings a user_wildcard = None -> flags a CommandLine.disable_seccomp = true -> sys_admin = Some false ->
     exists w', run_trigger a processes w = (Ok (EPERM, []), w') /\ kernel w' = kernel w) /\
  (forall e rs w', strings a user_wildcard = None -> (flags a CommandLine.disable_seccomp = true -> sys_admin = Some true) ->
     is_wildcard (arg0 a) = false -> run_trigger a processes w = (Ok (e, rs), w') ->
     let results := concat (map snd rs) in
     zlen results = zlen (processes (strings a process_wildcard)) /\
     (e = 0 <-> Forall (fun r => err r = 0 \/ skippable_error (err r) = true) results) /\
     (arg0 a = None -> is_Some (strings a CommandLine.library)) /\ (0 < Z.to_nat (CommandLine.retries a))%nat).
Proof.
  destruct Hwf as [(_ & Hretries & _ & Hcmd) Hc]. rewrite Hc in Hcmd. destruct Hcmd as (Hlib & _ & _).
  unfold run_trigger. split; [|split].
  - intros [u ->]. eexists. split; reflexivity.
  - intros Eu Es Ea. rewrite Eu, Es, Ea. eexists. split; reflexivity.
  - intros e rs w' Hu Hs Hwild Hrun. rewrite Hu in Hrun.
    assert (Hcap : (if flags a CommandLine.disable_seccomp then sys_admin else Some true) = Some true) by (destruct (flags a CommandLine.disable_seccomp); auto).
    rewrite Hcap in Hrun. apply bind_ok_inv in Hrun as ([n rs0] & w1 & E & Hr). injection Hr as <- <- _. cbn [fst snd] in *.
    unfold trigger_many_processes in E. apply processes_one in E as (Hlen & _ & Hcode & _).
    2:{ intros f wc d0. unfold patch_arg_of. rewrite Hwild. by destruct (arg0 a). }
    cbn [cret] in Hcode. rewrite Z.lor_0_l in Hcode. split; [exact Hlen|]. split; [|split; [|lia]].
    + rewrite Hcode, batch_code_zero. apply count_none.
    + intros Hn. destruct (strings a CommandLine.library) as [l|] eqn:El; [by eexists|]. destruct (Hlib eq_refl) as (p & Hp & _). congruence.
Qed.
End entry.
