(* ===== verification/MiniElf.v ===== *)
(** * The ELF reader of the library (lib/minielf.c, lib/gdb_interface.c)

    A section of a container is read with [lseek] and [read], without allocating.
    The file is its bytes and a position; the buffers on the stack have an unknown
    content [junk]. An assertion of the library does not stop: it is reported and
    the code goes on. *)

From stdpp Require Import list.
From S2P Require Import Prelude Errors Metadata.

Open Scope ulp_scope.

Definition STRTBL_SIZE_MAX : Z := 0x500.
Definition EHDR_SIZE : Z := 64.
Definition SHDR_SIZE : Z := 64.

(** The fields that are used, where they lie in [Elf64_Ehdr] and [Elf64_Shdr]. *)
Record Elf_Ehdr := { e_ident : bytes; e_shoff : Z; e_shentsize : Z; e_shnum : Z; e_shstrndx : Z }.
Record Elf_Shdr := { sh_name : Z; sh_offset : Z; sh_size : Z }.

Definition ehdr_of (bs : bytes) : Elf_Ehdr :=
  {| e_ident := slice 0 16 bs; e_shoff := le_val (slice 40 8 bs); e_shentsize := le_val (slice 58 2 bs);
     e_shnum := le_val (slice 60 2 bs); e_shstrndx := le_val (slice 62 2 bs) |}.
Definition shdr_of (bs : bytes) : Elf_Shdr :=
  {| sh_name := le_val (slice 0 4 bs); sh_offset := le_val (slice 24 8 bs); sh_size := le_val (slice 32 8 bs) |}.

(** The descriptor, and the error state of the library. *)
Record fd_state := { content : bytes; position : Z; fd_diag : diag }.

Abbreviation io A := (st fd_state Z A).

Definition of_res {A} (r : res Z A) : io A := fun s => (r, s).
Definition warn (fmt : string) : io unit :=
  modify (fun s => {| content := content s; position := position s; fd_diag := push_msg fmt (fd_diag s) |}).
Definition fd_assert (b : bool) : io unit :=
  modify (fun s => {| content := content s; position := position s;
                      fd_diag := libpulp_assert_func (if b then 1 else 0) (fd_diag s) |}).

(** [lseek (fd, off, SEEK_SET)] of an unsigned offset: a negative one is refused. *)
Definition lseek (off : Z) : io unit :=
  modify (fun s => {| content := content s; position := if off <? 2 ^ 63 then off else position s; fd_diag := fd_diag s |}).

(** [read]: what is left of the file, at most [n] bytes and at most what Linux reads
    at once. *)
Definition read (n : Z) : io bytes := fun s =>
  let left := zlen (content s) - position s in
  let bs := if left <=? 0 then []
            else slice (Z.to_nat (position s)) (Z.to_nat (Z.min left (Z.min n 0x7ffff000))) (content s) in
  (Ok bs, {| content := content s; position := position s + zlen bs; fd_diag := fd_diag s |}).

(** [strcmp (name, &strtbl[i]) == 0]; the table ends where the array does. *)
Fixpoint streq (name tail : bytes) : res Z bool :=
  match tail with
  | [] => Ub
  | c :: tail =>
    match name with
    | [] => Ok (c =? 0)
    | d :: name => if c =? d then streq name tail else Ok false
    end
  end.

Definition Elf_Parse_Ehdr : io (option Elf_Ehdr) :=
  lseek 0;;;
  let! bs := read EHDR_SIZE in
  if negb (zlen bs =? EHDR_SIZE) then warn "Invalid ELF file: invalid size";;; ret None
  else if negb (byte_eqb (slice 0 4 bs) [127; 69; 76; 70]) then warn "Invalid ELF file: invalid magic number";;; ret None
  else ret (Some (ehdr_of bs)).

(** A header is read over [shdr], which has place for 64 bytes. *)
Definition read_shdr (ehdr : Elf_Ehdr) (shdr : bytes) : io (option bytes) :=
  let! bs := read (e_shentsize ehdr) in
  if SHDR_SIZE <? zlen bs then undef
  else if negb (zlen bs =? e_shentsize ehdr) then warn "Invalid ELF file: invalid size";;; ret None
  else ret (Some (splice 0 bs shdr)).

Fixpoint by_name_loop (n : nat) (name : bytes) (ehdr : Elf_Ehdr) (strtbl shdr : bytes) : io (option Elf_Shdr) :=
  match n with
  | O => ret None
  | S n =>
    let! r := read_shdr ehdr shdr in
    match r with
    | None => ret None
    | Some shdr =>
      let i := sh_name (shdr_of shdr) in
      let! eq := of_res (if zlen strtbl <=? i then Ub else streq name (drop (Z.to_nat i) strtbl)) in
      if eq : bool then ret (Some (shdr_of shdr)) else by_name_loop n name ehdr strtbl shdr
    end
  end.

Definition Elf_Get_Shdr_By_Name (junk : bytes) (name : bytes) (ehdr : Elf_Ehdr) (strtbl : bytes) : io (option Elf_Shdr) :=
  fd_assert (e_shentsize ehdr =? SHDR_SIZE);;;
  lseek (e_shoff ehdr);;;
  by_name_loop (Z.to_nat (e_shnum ehdr)) name ehdr strtbl junk.

Fixpoint by_index_loop (n : nat) (i index : Z) (ehdr : Elf_Ehdr) (shdr : bytes) : io (option Elf_Shdr) :=
  match n with
  | O => ret None
  | S n =>
    let! r := read_shdr ehdr shdr in
    match r with
    | None => ret None
    | Some shdr => if index =? i then ret (Some (shdr_of shdr)) else by_index_loop n (i + 1) index ehdr shdr
    end
  end.

Definition Elf_Get_Shdr (junk : bytes) (index : Z) (ehdr : Elf_Ehdr) : io (option Elf_Shdr) :=
  fd_assert (e_shentsize ehdr =? SHDR_SIZE);;;
  lseek (e_shoff ehdr);;;
  by_index_loop (Z.to_nat (e_shnum ehdr)) 0 index ehdr junk.

(** The size, and the table. *)
Definition Elf_Load_Strtbl (junk strtbl : bytes) (ehdr : Elf_Ehdr) : io (Z * bytes) :=
  fd_assert (e_shentsize ehdr =? SHDR_SIZE);;;
  let! r := Elf_Get_Shdr junk (e_shstrndx ehdr) ehdr in
  match r with
  | None => warn "Invalid ELF file: no section string table";;; ret (0, strtbl)
  | Some shdr =>
    if STRTBL_SIZE_MAX <? sh_size shdr then
      warn "Unable to load section string table: size larger than buffer";;; ret (0, strtbl)
    else
      lseek (sh_offset shdr);;;
      let! bs := read (sh_size shdr) in
      if negb (zlen bs =? sh_size shdr) then
        warn "Unable to load section string table: file size mismatch.\n";;; ret (0, splice 0 bs strtbl)
      else ret (sh_size shdr, splice 0 bs strtbl)
  end.

(** The size, and [dest]. *)
Definition Elf_Load_Section (dest_size : Z) (dest : bytes) (shdr : Elf_Shdr) : io (Z * bytes) :=
  if dest_size <? sh_size shdr then warn "Unable to load section: buffer too small";;; ret (0, dest)
  else
    lseek (sh_offset shdr);;;
    let! bs := read (sh_size shdr) in
    if zlen dest <? zlen bs then undef
    else if negb (zlen bs =? sh_size shdr) then
      warn "Unable to load section string table: read size mismatch";;; ret (0, splice 0 bs dest)
    else ret (sh_size shdr, splice 0 bs dest).

(** The arrays of the stack before they are written. *)
Record stack := { junk_shdr : bytes; junk_strtbl : bytes }.

Definition section_of_elf (junk : stack) (dest_size : Z) (dest section_name : bytes) : io (Z * bytes) :=
  let! ehdr := Elf_Parse_Ehdr in
  match ehdr with
  | None => warn "File is not an ELF object.";;; ret (- EINVAL, dest)
  | Some ehdr =>
    let! t := Elf_Load_Strtbl (junk_shdr junk) (junk_strtbl junk) ehdr in
    let! shdr := Elf_Get_Shdr_By_Name (junk_shdr junk) section_name ehdr (snd t) in
    match shdr with
    | None => warn "Section %s not found.";;; ret (- EINVAL, dest)
    | Some ulp_shdr =>
      let! r := Elf_Load_Section dest_size dest ulp_shdr in
      if fst r =? 0 then ret (- EINVAL, snd r) else ret r
    end
  end.

(** [file] is what [open] gives: the bytes of the file. *)
Definition Get_Elf_Section (junk : stack) (d : diag) (dest_size : Z) (dest section_name : bytes) (file : option bytes) :
    res Z (Z * bytes) * diag :=
  match file with
  | None => (Ok (- ENOENT, dest), push_msg "Unable to open file %s: %s" d)
  | Some bs =>
    let (r, s) := section_of_elf junk dest_size dest section_name {| content := bs; position := 0; fd_diag := d |} in
    (r, fd_diag s)
  end.

Definition Get_ULP_Section (junk : stack) (d : diag) (dest_size : Z) (dest : bytes) (file : option bytes) :=
  Get_Elf_Section junk d dest_size dest (str ".ulp") file.
Definition Get_ULP_REV_Section (junk : stack) (d : diag) (dest_size : Z) (dest : bytes) (file : option bytes) :=
  Get_Elf_Section junk d dest_size dest (str ".ulp.rev") file.

(** The metadata buffer, cleared. *)
Definition cleared_buffer : bytes := replicate (Z.to_nat ULP_METADATA_BUF_LEN) 0.

(** The first half of [gdb_ulp_apply] and, with [revert], of [gdb_ulp_revert]: the
    code, with 0 to go on, and the metadata buffer. *)
Definition gdb_prepare (junk : stack) (d : diag) (revert : bool) (path : bytes) (file : option bytes) :
    res Z (Z * bytes) * diag :=
  let get := if revert then Get_ULP_REV_Section else Get_ULP_Section in
  match get junk d ULP_METADATA_BUF_LEN cleared_buffer file with
  | (Ok (len, buffer), d) =>
    if len <? 0 then (Ok (- len, buffer), d)
    else
      match inject_lp_path path len buffer with
      | Ok (e, buffer) => (Ok (if negb (e =? 0) then EINVALIDULP else 0, buffer), d)
      | Err _ => (Ub, d)
      | Ub => (Ub, d)
      | NoFuel => (NoFuel, d)
      end
  | (Err e, d) => (Err e, d)
  | (Ub, d) => (Ub, d)
  | (NoFuel, d) => (NoFuel, d)
  end.

(** ** What is read of a file *)

(** The name of a section in the table [names]. *)
Definition name_of (names : bytes) (s : Elf_Shdr) : bytes := cstr (drop (Z.to_nat (sh_name s)) names).
Definition named_section (names name : bytes) (shdrs : list Elf_Shdr) : option Elf_Shdr :=
  find (fun s => byte_eqb (name_of names s) name) shdrs.

Definition shdr_at (f : bytes) (off : Z) (i : nat) : Elf_Shdr := shdr_of (slice (Z.to_nat (off + 64 * Z.of_nat i)) 64 f).
Definition section_data (f : bytes) (s : Elf_Shdr) : bytes := slice (Z.to_nat (sh_offset s)) (Z.to_nat (sh_size s)) f.

(** An ELF file with the sections [shdrs], whose names are in [names]. *)
Record elf_file (f : bytes) (ehdr : Elf_Ehdr) (shdrs : list Elf_Shdr) (names : bytes) : Prop := {
  ef_bytes : Forall is_byte f;
  ef_size : zlen f < 2 ^ 62;
  ef_ehdr : 64 <= zlen f /\ ehdr = ehdr_of (take 64 f) /\ slice 0 4 f = [127; 69; 76; 70];
  ef_entsize : e_shentsize ehdr = 64;
  ef_table : e_shoff ehdr + 64 * e_shnum ehdr <= zlen f;
  ef_shdrs : shdrs = map (shdr_at f (e_shoff ehdr)) (seq 0 (Z.to_nat (e_shnum ehdr)));
  ef_names : exists s, shdrs !! Z.to_nat (e_shstrndx ehdr) = Some s /\ sh_size s <= STRTBL_SIZE_MAX /\
    sh_offset s + sh_size s <= zlen f /\ names = section_data f s;
  ef_named : Forall (fun s => In 0 (drop (Z.to_nat (sh_name s)) names)) shdrs }.

Lemma streq_spec name tail : no_nul name -> In 0 tail -> streq name tail = Ok (byte_eqb (cstr tail) name).
Proof.
  intros Hn. revert tail. induction Hn as [|c name Hc Hn IH]; intros [|d tail] Ht; try done; cbn [streq].
  - cbn [cstr]. destruct (Z.eqb_spec d 0) as [->|Hd]; [done|]. by rewrite (proj2 (byte_eqb_neq _ _)).
  - cbn [cstr]. destruct (Z.eqb_spec d c) as [->|Hd].
    + destruct (Z.eqb_spec c 0); [done|]. destruct Ht as [|Ht]; [done|]. rewrite IH by done. f_equal.
      unfold byte_eqb. apply bool_decide_ext. split; [by intros ->|by intros [=]].
    + f_equal. symmetry. apply byte_eqb_neq. destruct (Z.eqb_spec d 0); congruence.
Qed.

Section reading.
Variable f : bytes.
Variable d : diag.
Hypothesis Hsize : zlen f < 2 ^ 62.

Abbreviation at_pos p := {| content := f; position := p; fd_diag := d |}.

Lemma read_ok p n : 0 <= p -> 0 <= n <= 0x7ffff000 -> p + n <= zlen f ->
  read n (at_pos p) = (Ok (slice (Z.to_nat p) (Z.to_nat n) f), at_pos (p + n)) /\ zlen (slice (Z.to_nat p) (Z.to_nat n) f) = n.
Proof.
  intros Hp Hn Hl. unfold read. cbn [content position fd_diag].
  assert (Hz : zlen (slice (Z.to_nat p) (Z.to_nat n) f) = n).
  { unfold slice, zlen in *. rewrite length_take, length_drop. lia. }
  split; [|done]. destruct (Z.leb_spec (zlen f - p) 0) as [Hle|Hlt].
  - by assert (n = 0) as -> by lia.
  - rewrite (Z.min_l n), Z.min_r by lia. by rewrite Hz.
Qed.

Lemma lseek_ok p q : q < 2 ^ 63 -> lseek q (at_pos p) = (Ok tt, at_pos q).
Proof. intros Hq. unfold lseek, modify. cbn. by rewrite (proj2 (Z.ltb_lt _ _) Hq). Qed.

Lemma assert_ok b p : b = true -> fd_assert b (at_pos p) = (Ok tt, at_pos p).
Proof. by intros ->. Qed.

Section headers.
Variable ehdr : Elf_Ehdr.
Variable shdrs : list Elf_Shdr.
Variable names : bytes.
Hypothesis Hf : elf_file f ehdr shdrs names.

Abbreviation entry i := (e_shoff ehdr + 64 * Z.of_nat i).

Lemma shoff_range : 0 <= e_shoff ehdr /\ 0 <= e_shnum ehdr < 2 ^ 16 /\ 0 <= e_shstrndx ehdr.
Proof.
  destruct Hf as [Hb _ (Hl & -> & _) _ _ _ _ _]. unfold ehdr_of. cbn [e_shoff e_shnum e_shstrndx].
  assert (Hs : forall o n, Forall is_byte (slice o n (take 64 f))).
  { intros o n. unfold slice. apply Forall_take, Forall_drop, Forall_take, Hb. }
  pose proof (le_val_range _ (Hs 40%nat 8%nat)). pose proof (le_val_range _ (Hs 60%nat 2%nat)). pose proof (le_val_range _ (Hs 62%nat 2%nat)).
  assert (Hlen : length (slice 60 2 (take 64 f)) = 2%nat); [|rewrite Hlen in *; lia].
  unfold slice, zlen in *. rewrite length_take, length_drop, length_take. lia.
Qed.

Lemma shdr_ranges i s : shdrs !! i = Some s -> 0 <= sh_name s /\ 0 <= sh_offset s /\ 0 <= sh_size s.
Proof.
  destruct Hf as [Hb _ _ _ _ -> _ _]. rewrite list_lookup_fmap. destruct (seq _ _ !! i); [|done]. intros [= <-].
  unfold shdr_at, shdr_of. cbn [sh_name sh_offset sh_size].
  assert (Hs : forall o n o' n', Forall is_byte (slice o n (slice o' n' f))) by (intros; unfold slice; by apply Forall_take, Forall_drop, Forall_take, Forall_drop).
  split_and!; by eapply le_val_range.
Qed.

Lemma read_shdr_ok i shdr : (i < length shdrs)%nat -> length shdr = 64%nat ->
  exists bs, read_shdr ehdr shdr (at_pos (entry i)) = (Ok (Some bs), at_pos (entry (S i))) /\ length bs = 64%nat /\
    shdrs !! i = Some (shdr_of bs).
Proof.
  intros Hi Hl. pose proof shoff_range. destruct Hf as [_ _ _ He Ht -> _ _]. rewrite length_map, length_seq in Hi.
  destruct (read_ok (entry i) 64) as [Hr Hz]; [lia|lia|lia|].
  change (Z.to_nat 64) with 64%nat in *.
  exists (slice (Z.to_nat (entry i)) 64 f). assert (Hlen : length (slice (Z.to_nat (entry i)) 64 f) = 64%nat) by (unfold zlen in Hz; lia).
  split_and!; [|done|].
  - unfold read_shdr. rewrite He. step_bind Hr. rewrite Hz. cbn.
    replace (entry i + 64) with (entry (S i)) by lia.
    unfold splice. by rewrite Hlen, (drop_ge shdr), app_nil_r by (rewrite Hl; lia).
  - by rewrite list_lookup_fmap, lookup_seq_lt by lia.
Qed.

(** From entry [i] on, the header [index] is found. *)
Lemma by_index_ok n i index shdr s : (i + n = length shdrs)%nat -> length shdr = 64%nat ->
  (i <= index)%nat -> shdrs !! index = Some s ->
  exists p, by_index_loop n (Z.of_nat i) (Z.of_nat index) ehdr shdr (at_pos (entry i)) = (Ok (Some s), at_pos p).
Proof.
  intros Hn Hl Hi Hs. apply lookup_lt_Some in Hs as Hlt. revert i shdr Hn Hl Hi.
  induction n as [|n IH]; intros i shdr Hn Hl Hi; [lia|]. cbn [by_index_loop].
  destruct (read_shdr_ok i shdr ltac:(lia) Hl) as (bs & E & Hb & Hlook). step_bind E.
  destruct (Z.eqb_spec (Z.of_nat index) (Z.of_nat i)) as [Heq|Hne].
  - apply Nat2Z.inj in Heq as ->. exists (entry (S i)). rewrite Hlook in Hs. by injection Hs as ->.
  - replace (Z.of_nat i + 1) with (Z.of_nat (S i)) by lia. apply IH; lia.
Qed.

(** From entry [i] on, the first section of the name is found. *)
Lemma by_name_ok n i name strtbl shdr : (i + n = length shdrs)%nat -> length shdr = 64%nat -> no_nul name ->
  take (length names) strtbl = names ->
  exists p, by_name_loop n name ehdr strtbl shdr (at_pos (entry i)) =
    (Ok (named_section names name (drop i shdrs)), at_pos p).
Proof.
  intros Hn Hl Hnul Htbl. revert i shdr Hn Hl. induction n as [|n IH]; intros i shdr Hn Hl.
  { rewrite drop_ge by lia. by eexists. }
  cbn [by_name_loop]. destruct (read_shdr_ok i shdr ltac:(lia) Hl) as (bs & E & Hb & Hlook). step_bind E.
  pose proof (ef_named _ _ _ _ Hf) as Hnm. rewrite List.Forall_forall in Hnm.
  specialize (Hnm (shdr_of bs) ltac:(by eapply list_elem_of_In, list_elem_of_lookup_2)).
  destruct (shdr_ranges i _ Hlook) as (H0 & _ & _). set (k := Z.to_nat (sh_name (shdr_of bs))) in *.
  rewrite (drop_S shdrs _ i Hlook). unfold named_section. cbn [find]. fold (named_section names name (drop (S i) shdrs)).
  assert (Hk : (k < length names)%nat).
  { destruct (Nat.lt_ge_cases k (length names)); [done|]. by rewrite drop_ge in Hnm by done. }
  assert (Hsplit : strtbl = names ++ drop (length names) strtbl) by (rewrite <- Htbl at 1; by rewrite take_drop).
  assert (Hdrop : drop k strtbl = drop k names ++ drop (length names) strtbl) by (rewrite Hsplit at 1; by rewrite drop_app_le by lia).
  assert (Hcs : forall l l', In 0 l -> cstr (l ++ l') = cstr l).
  { intros l l'. induction l as [|c l IHl]; [done|]. cbn [cstr app]. destruct (Z.eqb_spec c 0); [done|]. intros [|Hin]; [done|]. by rewrite IHl. }
  assert (Es : (if zlen strtbl <=? sh_name (shdr_of bs) then Ub else streq name (drop k strtbl)) =
    Ok (byte_eqb (name_of names (shdr_of bs)) name)).
  { apply (f_equal length) in Hsplit. rewrite length_app in Hsplit.
    rewrite (proj2 (Z.leb_gt _ _)) by (unfold zlen; lia). rewrite streq_spec, Hdrop, Hcs; [done|done|done|].
    rewrite Hdrop. apply in_or_app. by left. }
  rewrite Es. cbn [of_res bind]. destruct (byte_eqb _ name); [by eexists|]. apply IH; [lia|done].
Qed.

Variable junk : stack.
Hypothesis Hjunk : length (junk_shdr junk) = 64%nat /\ zlen (junk_strtbl junk) = STRTBL_SIZE_MAX.

Lemma count_shdrs : length shdrs = Z.to_nat (e_shnum ehdr).
Proof. destruct Hf as [_ _ _ _ _ -> _ _]. by rewrite length_map, length_seq. Qed.

Lemma parse_ehdr_ok p : Elf_Parse_Ehdr (at_pos p) = (Ok (Some ehdr), at_pos 64).
Proof.
  destruct Hf as [_ _ (Hl & -> & Hm) _ _ _ _ _]. unfold Elf_Parse_Ehdr. step_bind (lseek_ok p 0 ltac:(lia)).
  destruct (read_ok 0 64) as [Hr Hz]; [lia..|]. change (Z.to_nat 0) with 0%nat in *. change (Z.to_nat 64) with 64%nat in *.
  unfold EHDR_SIZE. step_bind Hr. rewrite Hz. cbn [negb Z.eqb Pos.eqb].
  assert (E : slice 0 4 (slice 0 64 f) = slice 0 4 f) by (unfold slice; rewrite !drop_0; by rewrite take_take).
  rewrite E, Hm. done.
Qed.

(** The table of names is in the buffer. *)
Lemma load_strtbl_ok p : exists n strtbl p', Elf_Load_Strtbl (junk_shdr junk) (junk_strtbl junk) ehdr (at_pos p) =
    (Ok (n, strtbl), at_pos p') /\ take (length names) strtbl = names.
Proof.
  destruct (ef_names _ _ _ _ Hf) as (s & Hs & Hmax & Hin & Hnames). pose proof shoff_range as (Hoff & Hnum & Hndx).
  destruct Hf as [_ _ _ He Ht _ _ _]. destruct (shdr_ranges _ _ Hs) as (_ & H1 & H2).
  assert (He' : (e_shentsize ehdr =? SHDR_SIZE) = true) by by rewrite He.
  unfold Elf_Load_Strtbl. step_bind (assert_ok _ p He'). unfold Elf_Get_Shdr.
  destruct (by_index_ok (Z.to_nat (e_shnum ehdr)) 0 (Z.to_nat (e_shstrndx ehdr)) (junk_shdr junk) s) as (p1 & E);
    [by rewrite count_shdrs|apply Hjunk|lia|done|].
  rewrite Z2Nat.id in E by done. replace (e_shoff ehdr + 64 * Z.of_nat 0) with (e_shoff ehdr) in E by lia.
  assert (E' : (fd_assert (e_shentsize ehdr =? SHDR_SIZE);;; lseek (e_shoff ehdr);;;
    by_index_loop (Z.to_nat (e_shnum ehdr)) 0 (e_shstrndx ehdr) ehdr (junk_shdr junk)) (at_pos p) = (Ok (Some s), at_pos p1)).
  { step_bind (assert_ok _ p He'). by step_bind (lseek_ok p (e_shoff ehdr) ltac:(lia)). }
  step_bind E'. rewrite (proj2 (Z.ltb_ge _ _) Hmax). step_bind (lseek_ok p1 (sh_offset s) ltac:(lia)).
  unfold STRTBL_SIZE_MAX in Hmax. destruct (read_ok (sh_offset s) (sh_size s)) as [Hr Hz]; [lia..|]. step_bind Hr.
  rewrite Hz, Z.eqb_refl. eexists _, _, _. split; [reflexivity|]. fold (section_data f s) in *. rewrite <- Hnames in *.
  unfold splice. by rewrite take_0, app_nil_l, take_app_length.
Qed.

Lemma by_name_found name strtbl p : no_nul name -> take (length names) strtbl = names -> exists p',
  Elf_Get_Shdr_By_Name (junk_shdr junk) name ehdr strtbl (at_pos p) = (Ok (named_section names name shdrs), at_pos p').
Proof.
  intros Hn Ht. pose proof shoff_range as (Hoff & Hnum & _).
  assert (He' : (e_shentsize ehdr =? SHDR_SIZE) = true) by by rewrite (ef_entsize _ _ _ _ Hf).
  pose proof (ef_table _ _ _ _ Hf). unfold Elf_Get_Shdr_By_Name. step_bind (assert_ok _ p He').
  step_bind (lseek_ok p (e_shoff ehdr) ltac:(lia)).
  destruct (by_name_ok (Z.to_nat (e_shnum ehdr)) 0 name strtbl (junk_shdr junk)) as (p' & E);
    [by rewrite count_shdrs|apply Hjunk|done|done|].
  replace (e_shoff ehdr + 64 * Z.of_nat 0) with (e_shoff ehdr) in E by lia. by exists p'.
Qed.

Lemma load_section_ok dest_size dest s p : 0 <= sh_offset s -> 0 <= sh_size s -> sh_size s <= dest_size ->
  dest_size <= 0x7ffff000 -> dest_size <= zlen dest -> sh_offset s + sh_size s <= zlen f ->
  exists p', Elf_Load_Section dest_size dest s (at_pos p) = (Ok (sh_size s, splice 0 (section_data f s) dest), at_pos p').
Proof.
  intros Ho Hs Hd Hmax Hl Hin. unfold Elf_Load_Section. rewrite (proj2 (Z.ltb_ge _ _) Hd).
  step_bind (lseek_ok p (sh_offset s) ltac:(lia)). destruct (read_ok (sh_offset s) (sh_size s)) as [Hr Hz]; [lia..|].
  step_bind Hr. rewrite Hz, (proj2 (Z.ltb_ge _ _)) by lia. rewrite Z.eqb_refl. by eexists.
Qed.
End headers.
End reading.

(** What is read of a section: its code and the buffer. *)
Definition section_read (f : bytes) (dest_size : Z) (dest : bytes) (s : option Elf_Shdr) : Z * bytes :=
  match s with
  | None => (- EINVAL, dest)
  | Some s =>
    if dest_size <? sh_size s then (- EINVAL, dest)
    else if sh_size s =? 0 then (- EINVAL, dest)
    else (sh_size s, splice 0 (section_data f s) dest)
  end.

(** [Get_Elf_Section] on an ELF file with a table of names of at most
    [STRTBL_SIZE_MAX] bytes: the first section of the name is copied to the start of
    the buffer and its size is returned, when it is not empty and the buffer can hold
    it; otherwise the code is [-EINVAL] and the buffer is as it was. The error state
    of the library does not change. *)
Theorem Get_Elf_Section_spec f ehdr shdrs names junk d dest_size dest name
    (Hf : elf_file f ehdr shdrs names)
    (Hjunk : length (junk_shdr junk) = 64%nat /\ zlen (junk_strtbl junk) = STRTBL_SIZE_MAX)
    (Hname : no_nul name) (Hdest : dest_size <= zlen dest /\ dest_size <= 0x7ffff000)
    (Hin : forall s, named_section names name shdrs = Some s -> sh_offset s + sh_size s <= zlen f) :
  exists d', Get_Elf_Section junk d dest_size dest name (Some f) =
      (Ok (section_read f dest_size dest (named_section names name shdrs)), d') /\ err_state d' = err_state d.
Proof.
  pose proof (ef_size _ _ _ _ Hf) as Hsize. unfold Get_Elf_Section, section_of_elf.
  rewrite (bind_ok _ _ _ _ _ (parse_ehdr_ok f d ehdr shdrs names Hf junk Hjunk 0)). cbv iota.
  destruct (load_strtbl_ok f d Hsize ehdr shdrs names Hf junk Hjunk 64) as (n & strtbl & p1 & E1 & Ht).
  rewrite (bind_ok _ _ _ _ _ E1). cbn [snd].
  destruct (by_name_found f d Hsize ehdr shdrs names Hf junk Hjunk name strtbl p1 Hname Ht) as (p2 & E2).
  rewrite (bind_ok _ _ _ _ _ E2). destruct (named_section names name shdrs) as [s|] eqn:Es; [|by eexists].
  cbn [section_read]. destruct (Z.ltb_spec dest_size (sh_size s)) as [Hlt|Hge].
  { unfold Elf_Load_Section. rewrite (proj2 (Z.ltb_lt _ _) Hlt). by eexists. }
  apply find_some in Es as Hs. destruct Hs as [Hs _]. apply list_elem_of_In, list_elem_of_lookup_1 in Hs as (i & Hs).
  destruct (shdr_ranges f ehdr shdrs names Hf i s Hs) as (_ & Ho & Hz).
  destruct (load_section_ok f d Hsize junk Hjunk dest_size dest s p2 Ho Hz Hge (proj2 Hdest) (proj1 Hdest) (Hin s eq_refl)) as (p3 & E3).
  rewrite (bind_ok _ _ _ _ _ E3). cbn [fst]. destruct (Z.eqb_spec (sh_size s) 0) as [H0|H0]; [|by eexists].
  eexists. split; [|reflexivity]. cbn. unfold section_data. by rewrite H0.
Qed.

Lemma zlen_section f s : 0 <= sh_offset s -> 0 <= sh_size s -> sh_offset s + sh_size s <= zlen f -> zlen (section_data f s) = sh_size s.
Proof. intros H1 H2 H3. unfold section_data, slice, zlen in *. rewrite length_take, length_drop. lia. Qed.

Lemma cleared_length : zlen cleared_buffer = ULP_METADATA_BUF_LEN.
Proof. unfold cleared_buffer, zlen. rewrite length_replicate. by apply Z2Nat.id. Qed.

#[local] Opaque cleared_buffer.

(** What is in the metadata buffer when the tool accepts the section. *)
Lemma gdb_prepare_ok f ehdr shdrs names junk d revert path s lp size out
    (Hf : elf_file f ehdr shdrs names)
    (Hjunk : length (junk_shdr junk) = 64%nat /\ zlen (junk_strtbl junk) = STRTBL_SIZE_MAX)
    (Hs : named_section names (if revert : bool then str ".ulp.rev" else str ".ulp") shdrs = Some s)
    (Hin : sh_offset s + sh_size s <= zlen f) (Hsmall : sh_size s < 2 ^ 31)
    (Hx : extract_ulp_from_so_to_mem (Some (Some (section_data f s))) (Some path) lp None = Ok (size, Buffer out)) :
  exists buffer d', gdb_prepare junk d revert path (Some f) = (Ok (0, buffer), d') /\
    take (Z.to_nat size) buffer = out /\ err_state d' = err_state d /\
    zlen buffer = ULP_METADATA_BUF_LEN /\ size = zlen out.
Proof.
  set (data := section_data f s) in *. pose proof cleared_length as Hb0.
  apply find_some in Hs as Hi. destruct Hi as [Hi _]. apply list_elem_of_In, list_elem_of_lookup_1 in Hi as (i & Hi).
  destruct (shdr_ranges f ehdr shdrs names Hf i s Hi) as (_ & Ho & Hz).
  assert (Hl : zlen data = sh_size s) by by apply zlen_section.
  destruct (extract_inv data path lp None size out) as (_ & Hsize & Hpm & Hmax & H33 & Hout); [by rewrite Hl|done|].
  assert (Hle : sh_size s <= size).
  { rewrite Hsize, Hout, !zlen_app, zlen_take, zlen_drop by lia.
    pose proof (zlen_nonneg (path_field (full_path None path))). lia. }
  assert (Hn : no_nul (if revert then str ".ulp.rev" else str ".ulp")) by (destruct revert; by repeat constructor).
  destruct (Get_Elf_Section_spec f ehdr shdrs names junk d ULP_METADATA_BUF_LEN cleared_buffer _ Hf Hjunk Hn) as (d' & E & Hd');
    [rewrite Hb0; split; [lia|done]|intros s' Hs'; rewrite Hs in Hs'; by injection Hs' as <-|].
  rewrite Hs in E. cbn [section_read] in E. rewrite (proj2 (Z.ltb_ge _ _)), (proj2 (Z.eqb_neq _ _)) in E by lia. fold data in E.
  set (buffer := splice 0 data cleared_buffer) in *.
  assert (Hb : zlen buffer = ULP_METADATA_BUF_LEN).
  { rewrite <- Hb0. unfold zlen in *. f_equal. apply length_splice. lia. }
  assert (Ht : take (Z.to_nat (sh_size s)) buffer = data).
  { unfold buffer, splice. rewrite take_0, app_nil_l, <- Hl, zlen_nat. by rewrite take_app_length. }
  rewrite <- Ht in Hx.
  destruct (inject_matches_extract buffer (sh_size s) path lp size out Hb ltac:(lia) Hx) as (buffer' & Ei & Hout' & _).
  exists buffer', d'. split; [|split; [exact Hout'|split; [exact Hd'|split; [|exact Hsize]]]].
  2:{ rewrite <- Hb. by apply (inject_length path (sh_size s) buffer 0 buffer'). }
  unfold gdb_prepare.
  assert (Eg : (if revert then Get_ULP_REV_Section else Get_ULP_Section) junk d ULP_METADATA_BUF_LEN cleared_buffer (Some f) =
    (Ok (sh_size s, buffer), d')) by (destruct revert; exact E).
  rewrite Eg, (proj2 (Z.ltb_ge _ 0)) by lia. by rewrite Ei.
Qed.

(** The same, as what the tool would send and what is left of the buffer. *)
Lemma gdb_buffer f ehdr shdrs names junk d revert path s lp size out
    (Hf : elf_file f ehdr shdrs names)
    (Hjunk : length (junk_shdr junk) = 64%nat /\ zlen (junk_strtbl junk) = STRTBL_SIZE_MAX)
    (Hs : named_section names (if revert : bool then str ".ulp.rev" else str ".ulp") shdrs = Some s)
    (Hin : sh_offset s + sh_size s <= zlen f) (Hsmall : sh_size s < 2 ^ 31)
    (Hx : extract_ulp_from_so_to_mem (Some (Some (section_data f s))) (Some path) lp None = Ok (size, Buffer out)) :
  exists rest d', gdb_prepare junk d revert path (Some f) = (Ok (0, out ++ rest), d') /\
    err_state d' = err_state d /\ zlen (out ++ rest) = ULP_METADATA_BUF_LEN.
Proof.
  destruct (gdb_prepare_ok f ehdr shdrs names junk d revert path s lp size out Hf Hjunk Hs Hin Hsmall Hx)
    as (buffer & d' & E & Ht & Hd & Hz & _).
  exists (drop (Z.to_nat size) buffer), d'. by rewrite <- Ht, take_drop.
Qed.

Lemma section_small f ehdr shdrs names name s : elf_file f ehdr shdrs names -> named_section names name shdrs = Some s ->
  sh_offset s + sh_size s <= zlen f -> sh_size s < 2 ^ 31 -> zlen (section_data f s) < 2 ^ 31.
Proof.
  intros Hf Hs Hin Hsm. apply find_some in Hs as [Hi _]. apply list_elem_of_In, list_elem_of_lookup_1 in Hi as (i & Hi).
  destruct (shdr_ranges f ehdr shdrs names Hf i s Hi) as (_ & Ho & Hz). by rewrite zlen_section.
Qed.

(** C31. A container whose path is given to [gdb_ulp_apply] or [gdb_ulp_revert] leaves
    in the metadata buffer what the tool sends for it: whenever the tool accepts the
    section of the container, so does the library, and the buffer starts with the
    bytes of [extract_ulp_from_so_to_mem]. *)
Theorem gdb_matches_tool f ehdr shdrs names junk d revert path s lp size out
    (Hf : elf_file f ehdr shdrs names)
    (Hjunk : length (junk_shdr junk) = 64%nat /\ zlen (junk_strtbl junk) = STRTBL_SIZE_MAX)
    (Hs : named_section names (if revert : bool then str ".ulp.rev" else str ".ulp") shdrs = Some s)
    (Hin : sh_offset s + sh_size s <= zlen f) (Hsmall : sh_size s < 2 ^ 31)
    (Hx : extract_ulp_from_so_to_mem (Some (Some (section_data f s))) (Some path) lp None = Ok (size, Buffer out)) :
  exists buffer d', gdb_prepare junk d revert path (Some f) = (Ok (0, buffer), d') /\
    take (Z.to_nat size) buffer = out /\ err_state d' = err_state d.
Proof.
  destruct (gdb_prepare_ok f ehdr shdrs names junk d revert path s lp size out Hf Hjunk Hs Hin Hsmall Hx)
    as (buffer & d' & E & Ht & Hd & _). by exists buffer, d'.
Qed.

Lemma gdb_apply_reads calloc_ok c0 u o id name f ehdr shdrs names junk d path s lp size out
    (Halloc : forall n sz, calloc_ok n sz = true)
    (Hwf : wf_metadata u o id name)
    (Hf : elf_file f ehdr shdrs names)
    (Hjunk : length (junk_shdr junk) = 64%nat /\ zlen (junk_strtbl junk) = STRTBL_SIZE_MAX)
    (Hs : named_section names (str ".ulp") shdrs = Some s)
    (Hin : sh_offset s + sh_size s <= zlen f) (Hsmall : sh_size s < 2 ^ 31)
    (Hw : create_patch_metadata_file true u = Ok (1, section_data f s))
    (Hpath : cstr path <> [])
    (Hx : extract_ulp_from_so_to_mem (Some (Some (section_data f s))) (Some path) lp None = Ok (size, Buffer out)) :
  exists buffer d' p, gdb_prepare junk d false path (Some f) = (Ok (0, buffer), d') /\ err_state d' = err_state d /\
    parse_metadata_from_mem calloc_ok c0 zero_metadata buffer ULP_METADATA_BUF_LEN = (Ok 0, p) /\
    ps_ulp p = read_back u id name (cstr path).
Proof.
  destruct (gdb_buffer f ehdr shdrs names junk d false path s lp size out Hf Hjunk Hs Hin Hsmall Hx)
    as (rest & d' & E & He & Hz).
  assert (Hd : zlen (section_data f s) < 2 ^ 31) by by eapply section_small.
  destruct (roundtrip_ok calloc_ok c0 u o id name (section_data f s) path lp None size out rest Halloc Hwf Hd Hw Hpath Hx)
    as (p & Ep & Hu & _).
  exists (out ++ rest), d', p. split; [exact E|]. split; [exact He|]. rewrite Hz in Ep. by split.
Qed.

(** The same for the reversal, from the section [.ulp.rev]. *)
Lemma gdb_reversal_reads calloc_ok c0 embed u o id name f ehdr shdrs names junk d path s lp size out
    (Halloc : forall n sz, calloc_ok n sz = true)
    (Hembed : forall file, embed file = 0)
    (Hwf : wf_metadata u o id name)
    (Hf : elf_file f ehdr shdrs names)
    (Hjunk : length (junk_shdr junk) = 64%nat /\ zlen (junk_strtbl junk) = STRTBL_SIZE_MAX)
    (Hs : named_section names (str ".ulp.rev") shdrs = Some s)
    (Hin : sh_offset s + sh_size s <= zlen f) (Hsmall : sh_size s < 2 ^ 31)
    (Hw : write_reverse_patch true embed u = Ok (1, section_data f s))
    (Hpath : cstr path <> [])
    (Hx : extract_ulp_from_so_to_mem (Some (Some (section_data f s))) (Some path) lp None = Ok (size, Buffer out)) :
  exists buffer d' p, gdb_prepare junk d true path (Some f) = (Ok (0, buffer), d') /\ err_state d' = err_state d /\
    parse_metadata_from_mem calloc_ok c0 zero_metadata buffer ULP_METADATA_BUF_LEN = (Ok 0, p) /\
    ps_ulp p = read_back_reverse u id name (cstr path).
Proof.
  destruct (gdb_buffer f ehdr shdrs names junk d true path s lp size out Hf Hjunk Hs Hin Hsmall Hx)
    as (rest & d' & E & He & Hz).
  assert (Hd : zlen (section_data f s) < 2 ^ 31) by by eapply section_small.
  destruct (reverse_roundtrip calloc_ok c0 embed u o id name (section_data f s) path lp None size out rest Halloc Hembed Hwf Hd Hw Hpath Hx)
    as (p & Ep & Hu & _).
  exists (out ++ rest), d', p. split; [exact E|]. split; [exact He|]. rewrite Hz in Ep. by split.
Qed.

(** From the packer to the library, without the tool: the metadata of a
    well-formed patch, packed into the section [.ulp] of an ELF file that
    [gdb_ulp_apply] is given, is read into the metadata buffer, completed with the
    path, and what the parser makes of the whole buffer is the patch that was packed. *)
Theorem gdb_metadata_roundtrip calloc_ok c0 u o id name f ehdr shdrs names junk d path s lp size out
    (Halloc : forall n sz, calloc_ok n sz = true)
    (Hwf : wf_metadata u o id name)
    (Hf : elf_file f ehdr shdrs names)
    (Hjunk : length (junk_shdr junk) = 64%nat /\ zlen (junk_strtbl junk) = STRTBL_SIZE_MAX)
    (Hs : named_section names (str ".ulp") shdrs = Some s)
    (Hin : sh_offset s + sh_size s <= zlen f) (Hsmall : sh_size s < 2 ^ 31)
    (Hw : create_patch_metadata_file true u = Ok (1, section_data f s))
    (Hpath : cstr path <> [])
    (Hx : extract_ulp_from_so_to_mem (Some (Some (section_data f s))) (Some path) lp None = Ok (size, Buffer out)) :
  exists buffer d' p, gdb_prepare junk d false path (Some f) = (Ok (0, buffer), d') /\
    parse_metadata_from_mem calloc_ok c0 zero_metadata buffer ULP_METADATA_BUF_LEN = (Ok 0, p) /\
    ps_ulp p = read_back u id name (cstr path).
Proof.
  destruct (gdb_apply_reads calloc_ok c0 u o id name f ehdr shdrs names junk d path s lp size out Halloc Hwf Hf Hjunk Hs Hin Hsmall
    Hw Hpath Hx) as (buffer & d' & p & E & _ & Ep & Hu). by exists buffer, d', p.
Qed.

(** ** What goes wrong *)

Definition file_header (shentsize shnum shstrndx : Z) : bytes :=
  [127; 69; 76; 70] ++ replicate 36 0 ++ le_bytes 8 64 ++ replicate 10 0 ++ le_bytes 2 shentsize ++ le_bytes 2 shnum ++
  le_bytes 2 shstrndx.
Definition file_section (name off size : Z) : bytes :=
  le_bytes 4 name ++ replicate 20 0 ++ le_bytes 8 off ++ le_bytes 8 size ++ replicate 24 0.

Definition zero_stack : stack := {| junk_shdr := replicate 64 0; junk_strtbl := replicate 0x500 0 |}.
Definition other_stack : stack := {| junk_shdr := replicate 64 0; junk_strtbl := [0] ++ str ".ulp" ++ replicate 0x4fb 0 |}.

(** The failed assertion on the size of the headers does not stop the reader, which
    writes 72 bytes over a header of 64. *)
Lemma large_headers : fst (Get_Elf_Section zero_stack diag_init 64 (replicate 64 0) (str ".ulp")
  (Some (file_header 72 1 0 ++ replicate 72 0))) = Ub.
Proof. vm_compute. reflexivity. Qed.

(** A file whose table of names does not fit the buffer is not refused: the names
    are looked up in what the stack holds. *)
Definition long_names : bytes := file_header 64 2 0 ++ file_section 0 0 0x501 ++ file_section 1 64 8.

Lemma names_from_stack :
  fst (Get_Elf_Section zero_stack diag_init 64 (replicate 64 0) (str ".ulp") (Some long_names)) = Ok (-22, replicate 64 0) /\
  fst (Get_Elf_Section other_stack diag_init 64 (replicate 64 0) (str ".ulp") (Some long_names)) =
    Ok (8, slice 64 8 long_names ++ replicate 56 0).
Proof. split; vm_compute; reflexivity. Qed.

(** The offset of a name is not compared with the size of the table. *)
Lemma name_outside : fst (Get_Elf_Section zero_stack diag_init 64 (replicate 64 0) (str ".ulp")
  (Some (file_header 64 1 0 ++ file_section 0x500 0 0))) = Ub.
Proof. vm_compute. reflexivity. Qed.
