(* ===== verification/GdbInterface.v ===== *)
(** * Live patching from a debugger (lib/gdb_interface.c)

    [gdb_ulp_apply] and [gdb_ulp_revert] run a whole request inside the process:
    the metadata of the container is put into the library's buffer ([MiniElf]),
    the request is made ([PatchCore]), which queues its writes, and the queue is
    interpreted by the library itself ([InsnQueueLib]). What the kernel knows of
    the process's mappings is part of the state of the loader, which changes them. *)

From stdpp Require Import gmap.
From S2P Require Import Prelude Errors Memory Metadata InsnQueue InsnQueueLib Arch SymbolLoader Interpose.
From S2P Require Import PatchCore PatchCoherence Requests MiniElf.

Open Scope ulp_scope.

(** The process: the library, and [errno]. *)
Record process (D : Type) := { library : lib_state D; process_errno : Z }.
Arguments library {D} _.
Arguments process_errno {D} _.

Section debugger.
Context {D : Type} `{Libdl D} `{Arch}.
Variable progname : bytes.
Variable alloc_ok : nat -> bool.
Variable calloc_ok : nat -> Z -> bool.
Variable c0 : Z.
Variable now : Z.
Variable proc_maps : D -> option (list read_result).
Variable mprotect : Z -> Z -> Z -> D -> Z * D.
Variable page_size : Z.
Variable junk : stack.

Abbreviation M A := (st (process D) Z A).

Definition on_library {A} (m : lib_m D A) : M A := fun p =>
  let (r, s) := m (library p) in (r, {| library := s; process_errno := process_errno p |}).

(** [insnq_interpret_from_lib ()], on the queue and the memory of the process. *)
Definition interpret_world (p : process D) : istate (lib_world D) :=
  let s := library p in
  {| world := {| os := loader s; lmem := code_mem (core s); errno := process_errno p; ldiag := lib_diag s |};
     output := []; warnings := [] |}.

Definition interpreted (i : istate (lib_world D)) (q : insn_queue) (s : lib_state D) : process D :=
  let w := world i in
  let d := {| err_state := err_state (ldiag w); messages := warnings i ++ messages (ldiag w) |} in
  {| library := set_loader (os w) (set_core {| code_mem := lmem w; code_q := {| queue := q; diagnosis := d |} |} s);
     process_errno := errno w |}.

Definition interpret_queue : M Z := fun p =>
  let s := library p in
  let '(r, i, q) := insnq_interpret_from_lib proc_maps mprotect page_size (queue (code_q (core s))) (interpret_world p) in
  (r, interpreted i q s).

(** Up to the request. *)
Definition prepare (revert : bool) (path : bytes) (file : option bytes) : M Z := on_library (fun s =>
  match gdb_prepare junk (lib_diag s) revert path file with
  | (Ok (e, buffer), d) => (Ok e, set_metadata_buffer buffer (set_lib_diag d s))
  | (Err e, d) => (Err e, set_lib_diag d s)
  | (Ub, d) => (Ub, set_lib_diag d s)
  | (NoFuel, d) => (NoFuel, set_lib_diag d s)
  end).

(** Both functions; [revert] says whose section is read. *)
Definition gdb_request (revert : bool) (path : bytes) (file : option bytes) : M Z :=
  let! e := prepare revert path file in
  if negb (e =? 0) then ret e
  else
    let! r := on_library (__ulp_apply_patch progname alloc_ok calloc_ok c0 now) in
    if negb (r =? 0) then ret r
    else
      let! r := interpret_queue in
      if negb (r =? 0) then ret r else ret 0.

Definition gdb_ulp_apply : bytes -> option bytes -> M Z := gdb_request false.
Definition gdb_ulp_revert : bytes -> option bytes -> M Z := gdb_request true.
End debugger.

(** ** The steps of a request *)

Lemma holds_empty q : queue_holds q [] -> q_size q = 0.
Proof. intros [_ _ _ Hs _]. by inversion Hs. Qed.

Lemma existsb_rev {A} (f : A -> bool) l : existsb f (rev l) = existsb f l.
Proof. apply eq_true_iff_eq. rewrite !existsb_exists. by setoid_rewrite <- in_rev. Qed.

(** The functions that have roots after a patch. *)
Lemma add_all_addrs u id funs rs n f :
  In f (map fst funs ++ root_addrs rs) -> In f (root_addrs (add_all u id funs (rs, n)).1).
Proof.
  revert rs n. induction funs as [|an funs IH]; intros rs n Hf; [done|].
  cbn [add_all fold_left fst snd]. rewrite (surjective_pairing (add_detour rs n an.1 _)). apply IH, in_app_iff.
  destruct Hf as [<-|[Hf|Hf]%in_app_iff]; [right; apply add_detour_addrs; by left|by left|right; apply add_detour_addrs; by right].
Qed.

(** The library when the metadata is in its buffer. *)
Definition prepared {D} (buffer : bytes) (d : diag) (s : lib_state D) : lib_state D :=
  set_metadata_buffer buffer (set_lib_diag d s).

Section steps.
Context {D : Type} `{Libdl D} `{Arch}.
Variable progname : bytes.
Variable alloc_ok : nat -> bool.
Variable calloc_ok : nat -> Z -> bool.
Variable c0 now : Z.
Variable proc_maps : D -> option (list read_result).
Variable mprotect : Z -> Z -> Z -> D -> Z * D.
Variable page_size : Z.
Variable prot : D -> Z -> Z.
Variable junk : stack.

Abbreviation request := (gdb_request progname alloc_ok calloc_ok c0 now proc_maps mprotect page_size junk).
Abbreviation accepted s := (fun i => match i with IPrint _ => True | IWrite a bs => lib_accepts page_size prot (loader s) a bs end).

(** What interpreting the queue [l] does to the process. *)
Record executed (l : list insn) (s s' : lib_state D) : Prop := {
  ex_memory : code_mem (core s') = written l (code_mem (core s));
  ex_queue : queue_holds (queue (code_q (core s'))) [];
  ex_err : err_state (lib_diag s') = err_state (lib_diag s);
  ex_prot : forall q, is_page page_size q -> prot (loader s') q = prot (loader s) q;
  ex_patches : patches s' = patches s;
  ex_roots : roots s' = roots s;
  ex_counter : root_index_counter s' = root_index_counter s;
  ex_universe : global_universe s' = global_universe s;
  ex_ref : metadata_ref s' = metadata_ref s;
  ex_locks : lib_locks s' = lib_locks s }.

Lemma interpret_queue_ok l p :
  vm_laws proc_maps mprotect page_size prot ->
  queue_holds (queue (code_q (core (library p)))) l -> Forall (accepted (library p)) l ->
  exists p', interpret_queue proc_maps mprotect page_size p = (Ok 0, p') /\ executed l (library p) (library p').
Proof.
  intros Hvm Hq Hacc.
  destruct (interpret_from_lib_ok proc_maps mprotect page_size prot Hvm _ l (world (interpret_world p)) Hq Hacc)
    as (i' & q' & E & Hq' & Hm & Hd & Hp).
  exists (interpreted i' q' (library p)). split.
  - unfold interpret_queue. change (interpret_world p) with
      {| world := world (interpret_world p); output := []; warnings := [] |}. by rewrite E.
  - split; try done. change (err_state (ldiag (world i')) = err_state (lib_diag (library p))). by rewrite Hd.
Qed.

Lemma prepare_ok revert path file (p : process D) buffer d :
  gdb_prepare junk (lib_diag (library p)) revert path file = (Ok (0, buffer), d) ->
  prepare junk revert path file p = (Ok 0, {| library := prepared buffer d (library p); process_errno := process_errno p |}).
Proof. intros Hprep. unfold prepare, on_library. by rewrite Hprep. Qed.

(** A request whose metadata was read, whose patching returned 0 and whose queue
    can be executed. *)
Lemma gdb_request_ok revert path file p buffer d s1 l :
  vm_laws proc_maps mprotect page_size prot ->
  gdb_prepare junk (lib_diag (library p)) revert path file = (Ok (0, buffer), d) ->
  __ulp_apply_patch progname alloc_ok calloc_ok c0 now (prepared buffer d (library p)) = (Ok 0, s1) ->
  queue_holds (queue (code_q (core s1))) l -> Forall (accepted s1) l ->
  exists p', request revert path file p = (Ok 0, p') /\ executed l s1 (library p').
Proof.
  intros Hvm Hprep Ha Hq Hacc.
  destruct (interpret_queue_ok l {| library := s1; process_errno := process_errno p |} Hvm Hq Hacc) as (p' & Ei & Hex).
  exists p'. split; [|exact Hex]. unfold gdb_request.
  rewrite (bind_ok _ _ _ _ _ (prepare_ok _ _ _ _ _ _ Hprep)). cbn [negb Z.eqb].
  assert (Er : on_library (__ulp_apply_patch progname alloc_ok calloc_ok c0 now)
    {| library := prepared buffer d (library p); process_errno := process_errno p |} =
    (Ok 0, {| library := s1; process_errno := process_errno p |})).
  { unfold on_library. cbn [library process_errno]. by rewrite Ha. }
  rewrite (bind_ok _ _ _ _ _ Er). cbn [negb Z.eqb]. by rewrite (bind_ok _ _ _ _ _ Ei).
Qed.

(** A request that is refused, or whose patching fails, returns that code, and its
    queue is not executed. *)
Lemma gdb_request_fails revert path file p buffer d s1 r :
  gdb_prepare junk (lib_diag (library p)) revert path file = (Ok (0, buffer), d) ->
  __ulp_apply_patch progname alloc_ok calloc_ok c0 now (prepared buffer d (library p)) = (Ok r, s1) -> r <> 0 ->
  request revert path file p = (Ok r, {| library := s1; process_errno := process_errno p |}).
Proof.
  intros Hprep Ha Hr. unfold gdb_request.
  rewrite (bind_ok _ _ _ _ _ (prepare_ok _ _ _ _ _ _ Hprep)). cbn [negb Z.eqb].
  unfold bind, on_library at 1. cbn [library process_errno]. rewrite Ha.
  by destruct (Z.eqb_spec r 0).
Qed.
End steps.

(** ** What a request does to the process *)

Section requests.
Context {D : Type} `{Libdl D} `{ArchLaws}.
Variable progname : bytes.
Variable alloc_ok : nat -> bool.
Variable calloc_ok : nat -> Z -> bool.
Variable c0 now : Z.
Variable proc_maps : D -> option (list read_result).
Variable mprotect : Z -> Z -> Z -> D -> Z * D.
Variable page_size : Z.
Variable prot : D -> Z -> Z.
Variable junk : stack.
Hypothesis Hvm : vm_laws proc_maps mprotect page_size prot.
Hypothesis Halloc : forall k, alloc_ok k = true.

Abbreviation apply_it := (gdb_ulp_apply progname alloc_ok calloc_ok c0 now proc_maps mprotect page_size junk).
Abbreviation revert_it := (gdb_ulp_revert progname alloc_ok calloc_ok c0 now proc_maps mprotect page_size junk).

(** The container is read into the buffer and loaded, from [s] to [s1], and nothing
    stands in the way of the request. *)
Record loads (revert : bool) path file (buffer : bytes) (d : diag) (s s1 : lib_state D) : Prop := {
  ld_read : gdb_prepare junk (lib_diag s) revert path file = (Ok (0, buffer), d);
  ld_admissible : admissible (prepared buffer d s);
  ld_loaded : load_metadata alloc_ok calloc_ok c0 (prepared buffer d s) = (Ok (true, 0), s1) }.

Lemma loads_roots revert path file buffer d s s1 : loads revert path file buffer d s s1 -> roots s1 = roots s.
Proof using.
  intros [_ _ Hl]. pose proof (keeps_load_metadata alloc_ok calloc_ok c0 (prepared buffer d s)) as Hk.
  rewrite Hl in Hk. exact (fr_roots _ _ Hk).
Qed.

(** The kernel lets the library write. *)
Definition writable (s : lib_state D) (i : insn) : Prop :=
  match i with IPrint _ => True | IWrite a bs => lib_accepts page_size prot (loader s) a bs end.

Lemma writable_loader s s' l : loader s' = loader s -> Forall (writable s) l -> Forall (writable s') l.
Proof using. intros E. apply Forall_impl. intros []; [done|]. unfold writable. by rewrite E. Qed.

Lemma executed_admissible l s s' : executed page_size prot l s s' -> err_state (lib_diag s) = ENONE ->
  lib_locks s = {| flag := 0; dl_load_lock := Some 0; dl_load_write_lock := Some 0 |} -> admissible s'.
Proof using. intros [? ? ? ? ? ? ? ? ? ?] He Hl. split; congruence. Qed.

Definition applied_writes (m : mem) (ulp : ulp_metadata) (funs : list (Z * Z)) (addrs : list Z) (tb ti : Z) : list insn :=
  all_writes m funs ++ ref_writes tb (u64 ti) (zip (refs ulp) addrs).

Lemma gdb_apply_ok p path file buffer d s1 ulp obj name container funs addrs tb ti pb :
  loads false path file buffer d (library p) s1 ->
  applicable progname s1 ulp obj name container funs addrs tb ti pb ->
  coherent (code_mem (core s1)) (roots (library p)) ->
  let s := library p in
  let m := code_mem (core s1) in
  let l := applied_writes m ulp funs addrs tb ti in
  Forall (writable s1) l ->
  exists p', apply_it path file p = (Ok 0, p') /\
    let s' := library p' in
    patches s' = new_entry now m ulp name container funs :: patches s /\
    roots s' = (add_all (u64 (global_universe s + 1)) (patch_id ulp) funs (roots s, root_index_counter s)).1 /\
    metadata_ref s' = None /\ code_mem (core s') = written l m /\ coherent (code_mem (core s')) (roots s') /\
    (forall g, In g (root_addrs (roots s)) -> ~ In g (map fst funs) -> target (code_mem (core s')) g = target m g) /\
    (forall q, is_page page_size q -> prot (loader s') q = prot (loader s1) q) /\ admissible s'.
Proof using Hvm Halloc.
  intros [Hr Ha Hl] Happ Hc s m l Hw. pose proof (adm_locks _ Ha) as Hk.
  destruct (apply_request_ok progname alloc_ok calloc_ok c0 now _ s1 ulp obj name container funs addrs tb ti pb Ha Halloc Hl Happ Hc)
    as (s2 & E & P & M & Er & R & U & C & Q & Co & [L K] & G).
  destruct (gdb_request_ok progname alloc_ok calloc_ok c0 now proc_maps mprotect page_size prot junk false path file p buffer d s2 l
    Hvm Hr E Q (writable_loader _ _ _ L Hw)) as (p' & Ep & Hex).
  exists p'. split; [exact Ep|]. cbv zeta. pose proof Hex as [Xm Xq Xe Xp Xpa Xr Xc Xu Xf Xl].
  rewrite Xpa, Xr, Xm, Xf, C. split; [exact P|]. split; [exact R|]. split; [exact M|]. split; [done|].
  split; [exact Co|]. split; [exact G|].
  split; [intros q Hq; by rewrite Xp, L|]. apply (executed_admissible l s2); [done|done|by rewrite K].
Qed.

Lemma gdb_revert_ok p path file buffer d s1 ulp :
  loads true path file buffer d (library p) s1 -> metadata_ref s1 = Some ulp -> type ulp = 2 ->
  let s := library p in
  let id := patch_id ulp in
  let m := code_mem (core s1) in
  is_applied id (patches s) = true -> depended_on id (patches s) = false ->
  coherent m (roots s) -> all_apart (root_addrs (roots s)) ->
  Z.of_nat (n_root_detours id (roots s)) * patch_room <= INSN_BUFFER_MAX ->
  (forall i, in_prologues (root_addrs (roots s)) i -> writable s1 i) ->
  exists p', revert_it path file p = (Ok 0, p') /\
    let s' := library p' in
    remove_patch id (patches s) = Some (patches s') /\ roots s' = map (drop_root id) (roots s) /\
    coherent (code_mem (core s')) (roots s') /\
    (forall x, (forall f, In f (root_addrs (roots s)) -> x < prologue_start f \/ prologue_end f <= x) ->
       code_mem (core s') !! x = m !! x) /\
    (forall q, is_page page_size q -> prot (loader s') q = prot (loader s1) q) /\ admissible s'.
Proof using Hvm Halloc.
  intros [Hr Ha Hl] Href Hty s id m Hap Hdep Hc Hapart Hroom Hw. pose proof (adm_locks _ Ha) as Hk.
  destruct (revert_request_ok progname alloc_ok calloc_ok c0 now _ s1 ulp Ha Hl Href Hty) as (_ & _ & Hrev).
  destruct Hrev as (s2 & l & E & P & R & M & Er & C & [L K] & (k & El & Hpro) & Q & Co & X); try done.
  { by rewrite (holds_empty _ (adm_queue _ Ha)). }
  cbn [app] in El. subst k.
  assert (Hacc : Forall (writable s1) l) by (eapply Forall_impl; [exact Hw|exact Hpro]).
  destruct (gdb_request_ok progname alloc_ok calloc_ok c0 now proc_maps mprotect page_size prot junk true path file p buffer d s2 l
    Hvm Hr E Q (writable_loader _ _ _ L Hacc)) as (p' & Ep & Hex).
  exists p'. split; [exact Ep|]. cbv zeta. pose proof Hex as [Xm Xq Xe Xp Xpa Xr Xc Xu Xf Xl].
  rewrite Xpa, Xr, Xm, C. split; [exact P|]. split; [exact R|]. split; [exact Co|]. split; [exact X|].
  split; [intros q Hq; by rewrite Xp, L|]. apply (executed_admissible l s2); [done|done|by rewrite K].
Qed.

(** C5. A whole request from the debugger. When the metadata of the container loads, the
    patch is applicable and the kernel lets the library write where the request has to,
    [gdb_ulp_apply] returns 0: the patch is recorded, the memory is that of before with
    exactly the writes of the prologues and of the references, every patched function
    goes where its newest active detour says and the functions of other patches where they went,
    every page has its protection back, the queue is empty and nothing stands in the way of the
    next request. *)
Theorem gdb_apply_spec p path file buffer d s1 ulp obj name container funs addrs tb ti pb
    (Hload : loads false path file buffer d (library p) s1)
    (Happ : applicable progname s1 ulp obj name container funs addrs tb ti pb)
    (Hcoh : coherent (code_mem (core s1)) (roots (library p)))
    (Hw : Forall (writable s1) (applied_writes (code_mem (core s1)) ulp funs addrs tb ti)) :
  let s := library p in
  let m := code_mem (core s1) in
  exists p', gdb_ulp_apply progname alloc_ok calloc_ok c0 now proc_maps mprotect page_size junk path file p = (Ok 0, p') /\
    let s' := library p' in
    patches s' = new_entry now m ulp name container funs :: patches s /\
    roots s' = (add_all (u64 (global_universe s + 1)) (patch_id ulp) funs (roots s, root_index_counter s)).1 /\
    metadata_ref s' = None /\ code_mem (core s') = written (applied_writes m ulp funs addrs tb ti) m /\
    coherent (code_mem (core s')) (roots s') /\
    (forall g, In g (root_addrs (roots s)) -> ~ In g (map fst funs) -> target (code_mem (core s')) g = target m g) /\
    (forall q, is_page page_size q -> prot (loader s') q = prot (loader s1) q) /\ admissible s'.
Proof using Hvm Halloc. by eapply gdb_apply_ok. Qed.

(** The container holds the reversal of the patch [id]. *)
Definition reads_reversal (path : bytes) (file : option bytes) (id : bytes) : Prop :=
  forall d, exists buffer d' ps, gdb_prepare junk d true path file = (Ok (0, buffer), d') /\ err_state d' = err_state d /\
    parse_metadata_from_mem calloc_ok c0 zero_metadata buffer ULP_METADATA_BUF_LEN = (Ok 0, ps) /\
    type (ps_ulp ps) = 2 /\ patch_id (ps_ulp ps) = id.

Lemma admissible_prepared buffer d (s : lib_state D) : admissible s -> err_state d = err_state (lib_diag s) -> admissible (prepared buffer d s).
Proof using. intros [He Hq Hl] Hd. split; [by rewrite <- He|exact Hq|exact Hl]. Qed.

(** Loading a reversal changes nothing else. *)
Lemma load_reversal (s : lib_state D) ps : metadata_ref s = None ->
  parse_metadata_from_mem calloc_ok c0 zero_metadata (metadata_buffer s) ULP_METADATA_BUF_LEN = (Ok 0, ps) ->
  type (ps_ulp ps) = 2 ->
  exists s1, load_metadata alloc_ok calloc_ok c0 s = (Ok (true, 0), s1) /\ metadata_ref s1 = Some (ps_ulp ps) /\
    core s1 = core (set_lib_diag {| err_state := err_state (lib_diag s); messages := ps_log ps ++ messages (lib_diag s) |} s) /\
    loader s1 = loader s.
Proof using Halloc.
  intros Hr Hp Hty. unfold load_metadata. unfold bind at 1, gets at 1. rewrite Hr.
  unfold bind at 1, lib_alloc at 1. rewrite Halloc. cbn [negb]. unfold bind at 1, modify at 1.
  set (s0 := set_metadata_ref _ _).
  set (s1 := set_lib_diag {| err_state := err_state (lib_diag s0); messages := ps_log ps ++ messages (lib_diag s0) |}
               (set_metadata_ref (Some (ps_ulp ps)) s0)).
  assert (E : run_parser calloc_ok c0 s0 = (Ok 0, s1)).
  { unfold run_parser. change (metadata_ref s0) with (Some zero_metadata). cbv iota beta. change (metadata_buffer s0) with (metadata_buffer s).
    by rewrite Hp. }
  unfold parse_metadata. rewrite bind_assoc, (bind_ok _ _ _ _ _ E).
  assert (Eg : get_ulp s1 = (Ok (ps_ulp ps), s1)) by done.
  rewrite bind_assoc, (bind_ok _ _ _ _ _ Eg), Hty. rewrite orb_true_r. unfold bind, ret, modify. cbv iota beta. cbn [negb Z.eqb].
  eexists. split; [reflexivity|]. by split_and!.
Qed.

(** C4. There and back. [gdb_ulp_apply] of a patch that was not active, then [gdb_ulp_revert]
    of its reversal, both return 0 when nothing depends on the patch: the list
    of patches is that of before, every function goes where it went before the patch was
    applied, the functions only this patch changed to their own bodies, and nothing
    stands in the way of the next request. *)
Theorem gdb_round_trip p path file buffer d s1 ulp obj name container funs addrs tb ti pb path2 file2
    (Hload : loads false path file buffer d (library p) s1)
    (Happ : applicable progname s1 ulp obj name container funs addrs tb ti pb)
    (Hcoh : coherent (code_mem (core s1)) (roots (library p)))
    (Hw : Forall (writable s1) (applied_writes (code_mem (core s1)) ulp funs addrs tb ti))
    (Hpatched : forall i, in_prologues (map fst funs ++ root_addrs (roots (library p))) i -> writable s1 i)
    (Hinactive : inactive (patch_id ulp) (roots (library p)))
    (Hunpatched : forall an, In an funs -> ~ In an.1 (root_addrs (roots (library p))) -> target (code_mem (core s1)) an.1 = None)
    (Hreversal : reads_reversal path2 file2 (patch_id ulp))
    (Hdep : depended_on (patch_id ulp) (patches (library p)) = false /\
            existsb (fun dep => same_id (dep_id dep) (patch_id ulp)) (deps ulp) = false)
    (Hroom : let u := u64 (global_universe (library p) + 1) in
       Z.of_nat (n_root_detours (patch_id ulp)
         (add_all u (patch_id ulp) funs (roots (library p), root_index_counter (library p))).1) * patch_room <= INSN_BUFFER_MAX) :
  exists p1 p2,
    gdb_ulp_apply progname alloc_ok calloc_ok c0 now proc_maps mprotect page_size junk path file p = (Ok 0, p1) /\
    gdb_ulp_revert progname alloc_ok calloc_ok c0 now proc_maps mprotect page_size junk path2 file2 p1 = (Ok 0, p2) /\
    let s' := library p2 in
    patches s' = patches (library p) /\
    (forall f, In f (map fst funs ++ root_addrs (roots (library p))) ->
       target (code_mem (core s')) f = target (code_mem (core s1)) f) /\
    coherent (code_mem (core s')) (roots s') /\ admissible s'.
Proof using Hvm Halloc.
  destruct (gdb_apply_ok p path file buffer d s1 ulp obj name container funs addrs tb ti pb Hload Happ Hcoh Hw)
    as (p1 & E & P & R & N & M & Co & _ & Pr & A). exists p1.
  destruct (Hreversal (lib_diag (library p1))) as (buffer2 & d2 & ps & Er & Ed & Ep & Hty & Hid).
  destruct (load_reversal (prepared buffer2 d2 (library p1)) ps N Ep Hty) as (s2 & El & Er2 & Ec & Elo).
  assert (Hin : forall f, In f (root_addrs (roots (library p1))) -> In f (map fst funs ++ root_addrs (roots (library p)))).
  { intros f Hf. rewrite R in Hf. eapply add_all_in; [exact Hf| |]; intros; apply in_app_iff; [left; by apply in_map|by right]. }
  destruct (gdb_revert_ok p1 path2 file2 buffer2 d2 s2 (ps_ulp ps)) as (p2 & E2 & P2 & R2 & Co2 & _ & _ & A2);
    rewrite ?Hid, ?Ec; try done.
  { split; [exact Er|by apply admissible_prepared|exact El]. }
  { rewrite P. unfold is_applied. cbn [existsb new_entry applied_id]. by rewrite same_id_take. }
  { rewrite P. cbn [depended_on existsb new_entry applied_deps]. rewrite existsb_rev, (proj2 Hdep). exact (proj1 Hdep). }
  { intros f g Hf Hg. rewrite <- (loads_roots _ _ _ _ _ _ _ Hload) in Hin.
    apply (ap_apart _ _ _ _ _ _ _ _ _ _ _ Happ); by apply Hin. }
  { by rewrite R. }
  { intros [|a bs] Hi; [done|]. unfold writable. rewrite Elo. apply (accepts_stays proc_maps mprotect page_size prot Hvm (loader s1)); [exact Pr|].
    apply (Hpatched (IWrite a bs)). destruct Hi as (f & Hf & Hr). by exists f; split; [apply Hin|]. }
  exists p2. split; [exact E|]. split; [exact E2|]. cbv zeta. rewrite Hid in *. split.
  { rewrite P in P2. cbn [remove_patch new_entry applied_id] in P2. rewrite same_id_take in P2. congruence. }
  split; [|by split]. intros f Hf.
  assert (Hf1 : In f (root_addrs (roots (library p1)))) by (rewrite R; by apply add_all_addrs).
  apply in_map_iff in Hf1 as (r & <- & Hr).
  rewrite R2 in Co2. rewrite (dropped_target _ _ _ _ Co2 Hr). rewrite R in Hr. by eapply add_all_undone.
Qed.
End requests.
