(* ===== verification/SimElf.v ===== *)
(** * A concrete libelf and a concrete json-c

    An ELF file is a list of section headers with their data; JSON text is the
    encoding of a tree between braces. They satisfy the laws that the theorems on
    ELF files and on [ulp extract] assume, which are therefore consistent. *)

From stdpp Require Import list countable.
From S2P Require Import Prelude Errors Metadata PatchId ElfFile Extract Post.

Open Scope ulp_scope.

(** ** ELF *)

Record sim_file := { sf_shstrndx : Z; sf_sections : list (Elf64_Shdr * bytes); sf_disk : nat -> option bytes }.

Definition sim_data (e : sim_file) (s : nat) : option bytes := snd <$> sf_sections e !! s.

Definition sim_store (e : sim_file) (s : nat) (off b : Z) : sim_file :=
  {| sf_shstrndx := sf_shstrndx e;
     sf_sections := alter (fun x => (x.1, <[Z.to_nat off := b]> x.2)) s (sf_sections e); sf_disk := sf_disk e |}.

Definition sim_flag (e : sim_file) (s : nat) : sim_file :=
  {| sf_shstrndx := sf_shstrndx e; sf_sections := sf_sections e;
     sf_disk := fun s' => if decide (s = s') then sim_data e s else sf_disk e s' |}.

Definition sim_scn (e : sim_file) (s : nat) : option nat :=
  if decide (s < length (sf_sections e))%nat then Some s else None.

Definition sim_sym (data : bytes) (i : Z) : option Elf64_Sym :=
  if decide (0 <= i /\ 24 * (i + 1) <= zlen data) then
    let y := slice (Z.to_nat (24 * i)) 24 data in
    Some {| st_name := le_val (slice 0 4 y); st_info := le_val (slice 4 1 y); st_other := le_val (slice 5 1 y);
            st_shndx := le_val (slice 6 2 y); st_value := le_val (slice 8 8 y); st_size := le_val (slice 16 8 y) |}
  else None.

Definition sim_note (data : bytes) (o : Z) : option note :=
  if decide (0 <= o /\ o + 12 <= zlen data) then
    let h := slice (Z.to_nat o) 12 data in
    let name := le_val (slice 0 4 h) in
    Some {| n_next := o + 12 + name + le_val (slice 4 4 h); n_type := le_val (slice 8 4 h);
            n_descp := o + 12 + name; n_descsz := le_val (slice 4 4 h) |}
  else None.

#[export] Instance sim_libelf : Libelf := {
  elf := sim_file;
  scn := nat;
  elf_getshdrnum e := Some (zlen (sf_sections e));
  elf_getscn e i := if i <? 0 then None else sim_scn e (Z.to_nat i);
  elf_nextscn e s := sim_scn e (match s with None => 1%nat | Some s => S s end);
  elf_getshdr e s := fst <$> sf_sections e !! s;
  elf_getshdrstrndx e := Some (sf_shstrndx e);
  elf_strptr e ndx off := (fun d => cstr (drop (Z.to_nat off) d)) <$> sim_data e (Z.to_nat ndx);
  elf_getdata := sim_data;
  gelf_getsym := sim_sym;
  gelf_getnote := sim_note;
  d_store := sim_store;
  elf_flag_dirty := sim_flag;
  elf_update e := Some [] }.

#[export] Instance sim_scn_dec : EqDecision scn := Nat.eq_dec.

Lemma sim_hdr_alter (e : sim_file) s off b i :
  fst <$> sf_sections (sim_store e s off b) !! i = fst <$> sf_sections e !! i.
Proof.
  unfold sim_store. cbn [sf_sections]. destruct (decide (s = i)) as [->|Hne].
  - rewrite list_lookup_alter_eq. by destruct (sf_sections e !! i).
  - by rewrite list_lookup_alter_ne.
Qed.

Lemma sim_scn_store (e : sim_file) s off b i : sim_scn (sim_store e s off b) i = sim_scn e i.
Proof. unfold sim_scn, sim_store. cbn [sf_sections]. by rewrite length_alter. Qed.

Lemma sim_data_other (e : sim_file) s off b i : s <> i -> sim_data (sim_store e s off b) i = sim_data e i.
Proof. intros Hne. unfold sim_data, sim_store. cbn [sf_sections]. by rewrite list_lookup_alter_ne. Qed.

#[export] Instance sim_elf_store : LibelfStore.
Proof.
  refine {| on_disk := (sf_disk : elf -> scn -> option bytes) |}.
  - intros e l s off b [Hnum Hscn Hfirst Hnext Hhdr (ndx & Endx & H0 & Hstr)] Hs. split.
    + etransitivity; [|exact Hnum]. cbn. unfold zlen. by rewrite length_alter.
    + intros i Hi. rewrite <- (Hscn i Hi). cbn. by rewrite sim_scn_store.
    + rewrite <- Hfirst. cbn. by rewrite sim_scn_store.
    + intros i x Hi. rewrite <- (Hnext i x Hi). cbn. by rewrite sim_scn_store.
    + intros x Hx. rewrite <- (Hhdr x Hx). apply sim_hdr_alter.
    + exists ndx. split; [done|]. split; [done|]. intros x Hx. rewrite <- (Hstr x Hx). cbn.
      f_equal. apply sim_data_other. intros Hn. pose proof (Hstr x Hx) as E. specialize (Hs ndx Endx). cbn in Hs, E.
      rewrite (proj2 (Z.ltb_ge ndx 0) H0) in Hs. unfold sim_data, sim_scn in *.
      destruct (sf_sections e !! Z.to_nat ndx) as [p|] eqn:Ep; [|done].
      apply lookup_lt_Some in Ep. rewrite decide_True in Hs by done. by rewrite Hn in Hs.
  - done.
  - intros e s off b d Hd Hoff. cbn in *. unfold sim_data, sim_store in *. cbn [sf_sections].
    rewrite list_lookup_alter_eq. destruct (sf_sections e !! s) as [p|]; [|done]. by injection Hd as <-.
  - intros e s off b s' Hne. by apply sim_data_other.
  - done.
  - intros e l s [Hnum Hscn Hfirst Hnext Hhdr Hstr]. by split.
  - done.
  - done.
  - intros e s. cbn. by rewrite decide_True.
  - intros e s s' Hne. cbn. by rewrite decide_False.
  - intros e l _. by eexists.
Defined.

(** ** JSON *)

Inductive leaf := LInt (n : Z) | LString (s : bytes) | LKey (k : string) | LObject | LArray.

Definition leaf_sum (x : leaf) : Z + bytes + string + bool :=
  match x with
  | LInt n => inl (inl (inl n)) | LString s => inl (inl (inr s)) | LKey k => inl (inr k)
  | LObject => inr true | LArray => inr false
  end.
Definition sum_leaf (x : Z + bytes + string + bool) : leaf :=
  match x with
  | inl (inl (inl n)) => LInt n | inl (inl (inr s)) => LString s | inl (inr k) => LKey k
  | inr true => LObject | inr false => LArray
  end.

#[export] Instance leaf_eq_dec : EqDecision leaf.
Proof. solve_decision. Defined.

#[export] Instance leaf_countable : Countable leaf.
Proof. apply (inj_countable' leaf_sum sum_leaf). by intros []. Defined.

(** An object is a node with its members, the last added first: the key, and the
    value in a node. *)
Definition tree := gen_tree leaf.

Fixpoint find_member (k : string) (l : list tree) : option tree :=
  match l with
  | GenNode _ [GenLeaf (LKey k'); v] :: l => if String.eqb k' k then Some v else find_member k l
  | _ :: l => find_member k l
  | [] => None
  end.

Fixpoint bits (p : positive) : bytes :=
  match p with xH => [] | xO p => 48 :: bits p | xI p => 49 :: bits p end.
Fixpoint of_bits (s : bytes) : positive :=
  match s with [] => xH | c :: s => if c =? 48 then xO (of_bits s) else xI (of_bits s) end.

Lemma of_bits_bits p : of_bits (bits p) = p.
Proof. induction p as [p IH|p IH|]; cbn [bits of_bits]; [by rewrite IH..|done]. Qed.

Definition tree_text (o : tree) : bytes := 123 :: [34; 34; 58; 125] ++ bits (encode o).

#[export] Instance sim_json : Json := {
  json := tree;
  json_object_new_object := GenNode 0 [];
  json_object_object_add o k v :=
    match o with GenNode n l => GenNode n (GenNode 1 [GenLeaf (LKey k); v] :: l) | GenLeaf x => GenNode 0 [GenNode 1 [GenLeaf (LKey k); v]] end;
  json_object_new_string s := GenLeaf (LString s);
  json_object_new_int n := GenLeaf (LInt n);
  json_object_new_array := GenNode 2 [];
  json_object_array_add a v := match a with GenNode n l => GenNode n (l ++ [v]) | GenLeaf x => a end;
  json_object_object_get o k := match o with GenNode _ l => find_member k l | GenLeaf _ => None end;
  json_object_get_string o := match o with Some (GenLeaf (LString s)) => Some s | _ => None end;
  json_object_get_int o := match o with Some (GenLeaf (LInt n)) => n | _ => 0 end;
  json_object_get_array o := match o with Some (GenNode _ l) => Some l | _ => None end;
  json_object_to_json_string := tree_text;
  json_tokener_parse s := decode (of_bits (drop 5 s)) }.

#[export] Instance sim_json_laws : JsonLaws.
Proof.
  split.
  - intros o k v k'. cbn. destruct o as [x|n l]; cbn; by destruct (String.eqb k k').
  - done.
  - done.
  - done.
  - intros a l v. destruct a as [x|n k]; [done|]. by intros [= <-].
  - intros o k v. eexists. split; [reflexivity|]. rewrite zlen_app. pose proof (zlen_nonneg (bits (encode (json_object_object_add o k v)))).
    change (zlen [34; 34; 58; 125]) with 4. cbn in *. lia.
  - intros o. cbn. rewrite drop_0, of_bits_bits. apply decode_encode.
Defined.

(** The sections of a file. *)
Definition sim_sects (e : sim_file) : list sect :=
  imap (fun i x => {| handle := (i : scn); hdr := x.1;
                      s_name := default [] ((fun d => cstr (drop (Z.to_nat (sh_name x.1)) d)) <$> sim_data e (Z.to_nat (sf_shstrndx e))) |})
    (sf_sections e).

Lemma sim_sects_lookup e (i : nat) : sim_sects e !! i = (fun x => {| handle := (i : scn); hdr := x.1;
    s_name := default [] ((fun d => cstr (drop (Z.to_nat (sh_name x.1)) d)) <$> sim_data e (Z.to_nat (sf_shstrndx e))) |}) <$>
  sf_sections e !! i.
Proof. apply list_lookup_imap. Qed.

Lemma sim_scn_lookup e (i : nat) : sim_scn e i = handle <$> sim_sects e !! i.
Proof.
  rewrite sim_sects_lookup. unfold sim_scn. destruct (decide _) as [Hi|Hi].
  - apply lookup_lt_is_Some_2 in Hi as [x ->]. done.
  - apply Nat.nlt_ge, lookup_ge_None_2 in Hi. by rewrite Hi.
Qed.

Lemma sim_wf (e : sim_file) : 0 <= sf_shstrndx e < zlen (sf_sections e) -> wf_elf e (sim_sects e).
Proof.
  intros [H0 Hlt]. split.
  - cbn. unfold zlen, sim_sects. by rewrite length_imap.
  - intros i Hi. cbn. rewrite (proj2 (Z.ltb_ge i 0) Hi). apply sim_scn_lookup.
  - apply (sim_scn_lookup e 1).
  - intros i x Hi. cbn. assert (handle x = i) as ->; [|apply sim_scn_lookup].
    rewrite sim_sects_lookup in Hi. destruct (sf_sections e !! i); [|done]. by injection Hi as <-.
  - intros x [i Hi]%list_elem_of_lookup_1. cbn. rewrite sim_sects_lookup in Hi.
    destruct (sf_sections e !! i) as [y|] eqn:E; [|done]. injection Hi as <-. cbn. by rewrite E.
  - exists (sf_shstrndx e). split; [done|]. split; [done|]. intros x [i Hi]%list_elem_of_lookup_1.
    rewrite sim_sects_lookup in Hi. destruct (sf_sections e !! i) as [y|]; [|done]. injection Hi as <-. cbn.
    unfold sim_data. destruct (lookup_lt_is_Some_2 (sf_sections e) (Z.to_nat (sf_shstrndx e))) as [d ->]; [unfold zlen in Hlt; lia|done].
Qed.
