(* ===== verification/WitnessMetadata.v ===== *)
(** * Concrete metadata on which the theorems about the metadata formats apply *)

From S2P Require Import Prelude Errors Metadata DiskMetadata.

Open Scope ulp_scope.

(** A patch of one function of libx, with a dependency and a TLS reference. *)
Definition ex_object : ulp_object :=
  {| build_id_len := 20; build_id_check := 0; build_id := Some (replicate 20 171);
     obj_name := Some (str "libx.so.0" ++ [0]); nunits := 1;
     units := [{| old_fname := str "f" ++ [0]; new_fname := str "new_f" ++ [0]; old_faddr := 0x1130 |}] |}.

Definition ex_metadata : ulp_metadata :=
  {| patch_id := replicate 32 7; so_filename := None; so_handler := 0; objs := Some ex_object;
     ndeps := 1; deps := [{| dep_id := replicate 32 8; patch_id_check := 0 |}];
     nrefs := 1;
     refs := [{| target_name := str "v" ++ [0]; reference_name := str "ref_v" ++ [0];
                 target_offset := 16; patch_offset := 32; tls := true |}];
     type := 1; comments := None |}.

Definition ex_path : bytes := str "/lp.so".

Lemma ex_wf : wf_metadata ex_metadata ex_object (replicate 20 171) (str "libx.so.0" ++ [0]).
Proof.
  assert (Hlt : forall a b, (a ?= b) = Lt -> a < b) by done.
  split; try done.
  - split; [|by split; [|apply Hlt]]. constructor; [|constructor]. split_and!; [by apply Hlt|by apply Hlt|].
    unfold in_u. simpl. lia.
  - split; [|by split; [|apply Hlt]]. by repeat constructor.
  - split; [|by split; [|apply Hlt]]. constructor; [|constructor].
    split_and!; [by apply Hlt|by apply Hlt|unfold in_u; simpl; lia|unfold in_u; simpl; lia].
Qed.

Definition always (n : nat) (sz : Z) : bool := true.

(** What the packer writes for it, with the container's path inserted. *)
Definition ex_data : bytes :=
  match create_patch_metadata_file true ex_metadata with Ok (_, d) => d | _ => [] end.
Definition ex_reverse : bytes :=
  match write_reverse_patch true (fun _ => 0) ex_metadata with Ok (_, d) => d | _ => [] end.
Definition ex_out (data : bytes) : Z * bytes :=
  match extract_ulp_from_so_to_mem (Some (Some data)) (Some ex_path) [] None with
  | Ok (n, Buffer b) => (n, b)
  | _ => (0, [])
  end.

Lemma metadata_roundtrip_witness : exists s,
  parse_metadata_from_mem always 0 zero_metadata ((ex_out ex_data).2 ++ [0; 7]) (zlen ((ex_out ex_data).2 ++ [0; 7])) = (Ok 0, s) /\
  ps_ulp s = read_back ex_metadata (replicate 20 171) (str "libx.so.0" ++ [0]) (full_path None ex_path) /\
  ps_cur s = (ex_out ex_data).1.
Proof.
  apply (metadata_roundtrip always 0 ex_metadata ex_object _ _ ex_data ex_path [] None);
    [done|exact ex_wf|vm_compute; reflexivity|vm_compute; reflexivity|done|vm_compute; reflexivity].
Defined.

Lemma reverse_roundtrip_witness : exists s,
  parse_metadata_from_mem always 0 zero_metadata ((ex_out ex_reverse).2 ++ [0; 7]) (zlen ((ex_out ex_reverse).2 ++ [0; 7])) = (Ok 0, s) /\
  ps_ulp s = read_back_reverse ex_metadata (replicate 20 171) (str "libx.so.0" ++ [0]) (full_path None ex_path) /\
  ps_cur s = (ex_out ex_reverse).1.
Proof.
  apply (reverse_roundtrip always 0 (fun _ => 0) ex_metadata ex_object _ _ ex_reverse ex_path [] None);
    [done|done|exact ex_wf|vm_compute; reflexivity|vm_compute; reflexivity|done|vm_compute; reflexivity].
Defined.

(** Forty bytes of metadata in the buffer of the process. *)
Definition ex_section : bytes := replicate 40 5.
Definition ex_buffer : bytes := ex_section ++ replicate (Z.to_nat ULP_METADATA_BUF_LEN - 40) 0.

Lemma inject_matches_extract_witness : exists buffer' size out,
  extract_ulp_from_so_to_mem (Some (Some ex_section)) (Some ex_path) [] None = Ok (size, Buffer out) /\
  inject_lp_path ex_path 40 ex_buffer = Ok (0, buffer') /\
  take (Z.to_nat size) buffer' = out /\ size = 40 + zlen (cstr ex_path) + 5.
Proof.
  assert (Et : take (Z.to_nat 40) ex_buffer = ex_section).
  { unfold ex_buffer. change (Z.to_nat 40) with (length ex_section). apply take_app_length. }
  edestruct (inject_matches_extract ex_buffer 40 ex_path []) as (b & H1 & H2 & H3).
  - unfold ex_buffer, zlen. rewrite length_app, length_replicate.
    change (length ex_section) with 40%nat. unfold ULP_METADATA_BUF_LEN. lia.
  - unfold ULP_METADATA_BUF_LEN. lia.
  - rewrite Et. vm_compute. reflexivity.
  - exists b. do 2 eexists. split; [vm_compute; reflexivity|]. by split.
Defined.

Lemma parse_metadata_safe_witness : exists rc s,
  parse_metadata_from_mem always 0 zero_metadata [1; 2; 3] 3 = (Ok rc, s).
Proof.
  apply (parse_metadata_safe always 0 zero_metadata [1; 2; 3]).
  - repeat constructor; unfold in_u; lia.
  - intros k Hk. apply (f_equal length) in Hk. unfold slice in Hk. rewrite length_take, length_drop in Hk.
    change (Nat.min 4 (3 - k) = 4)%nat in Hk. lia.
  - unfold in_u. lia.
  - done.
Defined.

Lemma parse_length_overflow_witness : exists s,
  parse_metadata_from_mem always 0 zero_metadata ([1] ++ replicate 32 0 ++ [255; 255; 255; 255] ++ [0]) 38 = (Ub, s).
Proof.
  apply (parse_length_overflow always 0 zero_metadata 1 (replicate 32 0) 0 []); [done|unfold is_byte, in_u; lia|done].
Defined.

(** The metadata of a reversal, as a file. *)
Definition ex_file : bytes :=
  [2] ++ replicate 32 7 ++ le_bytes 4 3 ++ str "/a" ++ [0] ++ le_bytes 4 1 ++ [9] ++ le_bytes 4 2 ++ str "n" ++ [0].

Definition ex_start : pstate := {| ps_cur := 0; ps_c := 0; ps_ulp := zero_metadata; ps_nalloc := 0; ps_log := [] |}.

Lemma disk_loader_agrees_witness : exists s' s2,
  load_patch_info_m always ex_file ex_start = (Ok 0, s') /\
  (load_header always ex_file;;; load_object always ex_file) ex_start = (Ok tt, s2) /\
  parse_metadata_m always ex_file (zlen ex_file) ex_start =
    code ((if type (ps_ulp s2) =? 2 then ret tt else parse_references always ex_file (zlen ex_file));;; ret 0) s'.
Proof.
  edestruct (disk_loader_agrees always ex_file ex_start) as (s2 & H1 & H2).
  - vm_compute. reflexivity.
  - eexists. split; [vm_compute; reflexivity|]. split; [vm_compute; reflexivity|]. done.
  - do 2 eexists. split; [vm_compute; reflexivity|]. split; [exact H1|exact H2].
Defined.
