(* ===== verification/WitnessQueue.v ===== *)
(** * Concrete queues and kernels on which the theorems about writes apply *)

From stdpp Require Import gmap.
From S2P Require Import Prelude Errors Memory InsnQueue InsnQueueLib.

Open Scope ulp_scope.

(** ** The queue *)

Definition q0 : qstate := {| queue := insnq_init; diagnosis := diag_init |}.
Definition nop_write : insn := IWrite 0x1000 [0x66; 0x90].

Lemma nop_write_ok : insn_ok nop_write.
Proof. split; [unfold in_u; lia|by vm_compute]. Qed.

Lemma nop_write_fits : q_size (queue q0) + isize nop_write <= INSN_BUFFER_MAX.
Proof. apply Z.leb_le. vm_compute. reflexivity. Qed.

Lemma hello_ok : insn_ok (IPrint (str "hello")).
Proof. split; [by repeat constructor|by vm_compute]. Qed.

Lemma insert_refines_witness :
  exists s', insert nop_write q0 = (Ok ENONE, s') /\ queue_holds (queue s') [nop_write].
Proof.
  destruct (insert_refines q0 [] nop_write (init_holds diag_init) nop_write_ok) as [H _].
  destruct (H nop_write_fits) as (s' & H1 & H2 & _). exists s'. by split.
Defined.

(** A backend that stores into a map, and one that always fails. *)
#[local] Instance map_backend : WriteBackend mem := {
  insn_interpret_write size a bs m := (size, mem_write a bs m) }.

#[local] Instance map_backend_laws : BackendLaws mem.
Proof.
  refine {| memory := fun m => m; accepts := fun _ _ _ => True |}.
  intros size a bs m _. by exists (mem_write a bs m).
Defined.

#[local] Instance no_backend : WriteBackend unit := {
  insn_interpret_write size a bs w := (-1, w) }.

Lemma insert_then_interpret_witness : exists s' i',
  insert_all [IPrint (str "hello"); nop_write] q0 = (Ok tt, s') /\
  insnq_interpret (queue s') {| world := (∅ : mem); output := []; warnings := [] |} = (Ok 0, i') /\
  world i' = mem_write 0x1000 [0x66; 0x90] ∅ /\ rev (output i') = [str "hello"] /\ warnings i' = [].
Proof.
  destruct (insert_then_interpret q0 [IPrint (str "hello"); nop_write] (∅ : mem)) as (s' & i' & H1 & H2 & H3 & H4).
  - exact (init_holds diag_init).
  - constructor; [exact hello_ok|]. constructor; [exact nop_write_ok|constructor].
  - apply Z.leb_le. vm_compute. reflexivity.
  - by repeat constructor.
  - exists s', i'. split; [exact H1|]. split; [exact H2|]. split; [exact H3|exact H4].
Defined.

Lemma failed_write_witness : exists s',
  insnq_interpret (queue (appended nop_write q0)) {| world := tt; output := []; warnings := [] |} = (Ok EINSNQ, s') /\
  world s' = tt.
Proof.
  destruct (failed_write (queue (appended nop_write q0)) 0x1000 [0x66; 0x90] []
    {| world := tt; output := []; warnings := [] |} tt) as [H _].
  - exact (appended_holds nop_write q0 [] (init_holds diag_init) nop_write_ok nop_write_fits).
  - done.
  - exact (H eq_refl).
Defined.

(** ** One page of code *)

Definition code_line (p : Z) : mapping :=
  {| lo := 0x1000; hi := 0x2000; width := 8;
     perm_r := Z.testbit p 0; perm_w := Z.testbit p 1; perm_x := Z.testbit p 2;
     trailer := str "p 00000000 00:00 0   /lib/libx.so" |}.

Lemma code_line_ok p : mapping_ok (code_line p).
Proof.
  split_and!; [simpl; lia|simpl; lia|cbn; lia|cbn; lia|cbn; lia|cbn; lia| |].
  - repeat constructor; done.
  - unfold map_line. autorewrite with ulp. by vm_compute.
Qed.

Lemma code_lines_ok p : Forall mapping_ok [code_line p].
Proof. constructor; [apply code_line_ok|constructor]. Qed.

Lemma memory_protection_get_spec_witness :
  memory_protection_get (Some (maps_text [code_line 5])) 0x1234 = Ok 5.
Proof.
  rewrite (memory_protection_get_spec [code_line 5] 0x1234); [reflexivity|].
  apply code_lines_ok.
Defined.

(** The state of the kernel is the protection of the page. *)
Definition one_maps (p : Z) : option (list read_result) := Some (maps_text [code_line p]).
Definition one_prot (p page : Z) : Z := prot_lookup [code_line p] page.
Definition one_mprotect (page len prot p : Z) : Z * Z :=
  if page =? 0x1000 then (0, prot) else (-1, p).

Lemma one_prot_page p page :
  is_page 4096 page -> one_prot p page = if page =? 0x1000 then prot_bits (code_line p) else -1.
Proof.
  intros [Hp Hu]. unfold in_u in Hu. unfold one_prot. cbn [prot_lookup lo hi code_line].
  pose proof (Z.div_mod page 4096 ltac:(lia)).
  destruct (Z.eqb_spec page 0x1000) as [->|Hne]; [done|].
  destruct (Z.leb_spec 0x1000 page), (Z.ltb_spec page 0x2000); try done. lia.
Qed.

Lemma code_line_bits p : 0 <= p <= 7 -> prot_bits (code_line p) = p.
Proof.
  intros Hp. assert (H : p = 0 \/ p = 1 \/ p = 2 \/ p = 3 \/ p = 4 \/ p = 5 \/ p = 6 \/ p = 7) by lia.
  by destruct H as [-> |[-> |[-> |[-> |[-> |[-> |[-> | ->]]]]]]].
Qed.

Lemma one_vm_laws : vm_laws one_maps one_mprotect 4096 one_prot.
Proof.
  split.
  - by exists 12.
  - intros p page _. apply memory_protection_get_ok, code_lines_ok.
  - intros p page Hp. rewrite one_prot_page by done. destruct (page =? 0x1000); [|lia].
    unfold prot_bits, PROT_READ, PROT_WRITE, PROT_EXEC.
    destruct (perm_r _), (perm_w _), (perm_x _); lia.
  - intros p page b Hp Hb. rewrite one_prot_page by done. unfold one_mprotect.
    destruct (Z.eqb_spec page 0x1000) as [->|]; [|done]. intros _. exists b. split; [done|].
    intros q Hq. rewrite !one_prot_page by done. destruct (q =? 0x1000); [by apply code_line_bits|done].
Qed.

Definition one_world : lib_world Z := {| os := 5; lmem := ∅; errno := 12; ldiag := diag_init |}.

Lemma library_write_spec_witness : exists s',
  lib_interpret_write one_maps one_mprotect 4096 24 0x1234 [0x66; 0x90] one_world = (Ok 24, s') /\
  lmem s' = mem_write 0x1234 [0x66; 0x90] ∅ /\
  (forall q, is_page 4096 q -> one_prot (os s') q = one_prot 5 q) /\ ldiag s' = diag_init.
Proof.
  apply (library_write_spec one_maps one_mprotect 4096 one_prot 24 0x1234 [0x66; 0x90] one_world one_vm_laws).
  - split; [done|]. by split; vm_compute.
  - intros i Hi. change (touched _ _ _) with 1%nat in Hi. replace i with 0%nat by lia. by vm_compute.
Defined.

Lemma library_write_boundary_witness : exists s',
  lib_interpret_write one_maps one_mprotect 4096 24 0x1ffe [0x66; 0x90] one_world = (Ok 12, s') /\ lmem s' = ∅.
Proof.
  apply (library_write_boundary one_maps one_mprotect 4096 one_prot 24 0x1ffe [0x66; 0x90] one_world one_vm_laws).
  - split; [done|]. by split; vm_compute.
  - done.
  - cbn [zlen]. change (zlen [0x66; 0x90]) with 2. intros q Hq Hm.
    assert (q = 0x1000) as ->; [|by vm_compute].
    pose proof (Z.div_mod q 4096 ltac:(lia)). lia.
  - by vm_compute.
Defined.
