(* ===== verification/WitnessProcess.v ===== *)
(** * A concrete process on which the theorems about the target apply *)

From stdpp Require Import gmap.
From S2P Require Import Prelude Errors Memory InsnQueue Ptrace InsnQueueTool SimKernel WitnessQueue.

Open Scope ulp_scope.

(** Sixteen bytes of memory at 0x1000, a string at its beginning. *)
Definition small : tool sim :=
  {| kernel := {| sim_map := mem_write 0x1000 (str "lib" ++ [0] ++ replicate 12 7) ∅; sim_us := 0 |}; tlog := [] |}.

Lemma hasbytezero_spec_witness :
  hasbytezero (le_val (str "lib" ++ [0; 1; 2; 3; 4])) = true <-> Exists (fun b => b = 0) (str "lib" ++ [0; 1; 2; 3; 4]).
Proof.
  apply hasbytezero_spec; [|done].
  assert (Hr : forall b, bool_decide (is_byte b) = true -> is_byte b) by (intros b; apply bool_decide_eq_true_1).
  repeat (constructor; [by apply Hr|]). constructor.
Defined.

Lemma nop_bytes : Forall is_byte [0x66; 0x90].
Proof. by repeat constructor. Qed.

Lemma write_bytes_ptrace_spec_witness :
  tmem 1 (write_bytes_ptrace 2 [0x66; 0x90] 1 0x1001 small).2 = mem_write 0x1001 [0x66; 0x90] (tmem 1 small).
Proof.
  destruct (write_bytes_ptrace_spec 2 [0x66; 0x90] 1 0x1001 small 0
    (write_bytes_ptrace 2 [0x66; 0x90] 1 0x1001 small).2) as [[_ H]|[H _]];
    [exact nop_bytes|by split; vm_compute|vm_compute; reflexivity|exact H|done].
Defined.

Lemma read_string_spec_witness : exists buffer,
  (read_string 4 1 0x1000 small).1 = Ok (0, Some buffer) /\
  mem_read 0x1000 (S (length (cstr buffer))) (tmem 1 small) = Some (cstr buffer ++ [0]).
Proof.
  exists (str "lib" ++ [0] ++ replicate 4 7). split; [vm_compute; reflexivity|].
  destruct (read_string_spec 4 1 0x1000 small 0 (str "lib" ++ [0] ++ replicate 4 7) (read_string 4 1 0x1000 small).2)
    as [_ H]; [intros x b; apply sim_lookup|by split; vm_compute|vm_compute; reflexivity|exact H].
Defined.

Lemma ulp_ptrace_terminates_witness : exists r s',
  ulp_ptrace 601 (PTRACE_PEEKDATA 0x2000) 1 small = (Ok r, s').
Proof. apply (ulp_ptrace_terminates 601 (PTRACE_PEEKDATA 0x2000) 1 small). lia. Defined.

Definition regs0 : registers_t := {| rip := 0x401000; rsp := 0x7ffffffde008; rax := 0; other_regs := [1; 2] |}.

Lemma redirected_spec_witness : rsp (redirected regs0 0x500000) mod 64 = 0.
Proof. apply (redirected_spec regs0 0x500000); by split; vm_compute. Defined.

(** A target with a queue of one write at 0x10000, for the code at 0x1000. *)
Definition target_queue : insn_queue := queue (appended nop_write q0).
Definition target_header : bytes := le_bytes 4 1 ++ le_bytes 4 1 ++ le_bytes 4 24 ++ le_bytes 4 0.
Definition target_data : bytes := encode nop_write ++ replicate 6 0.
Definition target : tool sim :=
  {| kernel := {| sim_map := mem_write 0x1000 (replicate 16 7) (mem_write 0x10000 (target_header ++ target_data) ∅);
                  sim_us := 0 |}; tlog := [] |}.

Lemma target_buffer : take 24 (q_buffer target_queue) = target_data.
Proof.
  unfold target_queue, appended. cbn [queue set_queue q_buffer]. unfold splice.
  change (Z.to_nat (q_size (queue q0))) with 0%nat. rewrite take_0, app_nil_l.
  change (take 24 (encode nop_write ++ drop (length (encode nop_write)) (q_buffer (queue q0))) = target_data).
  rewrite take_app. change (24 - length (encode nop_write))%nat with 6%nat.
  change (take 24 (encode nop_write)) with (encode nop_write).
  apply (f_equal (app (encode nop_write))).
  change (q_buffer (queue q0)) with (replicate (Z.to_nat INSN_BUFFER_MAX) 0).
  rewrite drop_replicate, take_replicate. apply (f_equal (fun n => replicate n 0)).
  change (length (encode nop_write)) with 18%nat. unfold INSN_BUFFER_MAX. lia.
Qed.

Lemma target_holds : queue_in_target (tmem 1 target) 0x10000 target_queue.
Proof.
  split; [vm_compute; reflexivity|].
  change (Z.to_nat (q_size target_queue)) with 24%nat. rewrite target_buffer. vm_compute. reflexivity.
Qed.

Definition target_dynobj : libpulp_dynobj := {| dyn_insn_queue := 0x10000; insn_queue_version := 0 |}.

Lemma interpret_from_process_spec_witness : exists s',
  insnq_interpret_from_process 2 1 target_dynobj target = (Ok 0, s') /\
  tmem 1 s' = queue_reset 0x10000 (mem_write 0x1000 [0x66; 0x90] (tmem 1 target)).
Proof.
  apply (interpret_from_process_spec 1 1 target_dynobj target_queue [nop_write] target).
  - exact (appended_holds nop_write q0 [] (init_holds diag_init) nop_write_ok nop_write_fits).
  - by split_and!.
  - done.
  - by split; vm_compute.
  - exact target_holds.
  - constructor; [|constructor]. split; [exact nop_bytes|]. split; [done|]. split; [by vm_compute|].
    eexists. vm_compute. reflexivity.
Defined.

(** A queue of a version that does not exist yet. *)
Definition newer : tool sim :=
  {| kernel := {| sim_map := mem_write 0x10000 (le_bytes 4 2 ++ replicate 12 0) ∅; sim_us := 0 |}; tlog := [] |}.

Lemma version_gate_witness : exists s',
  insnq_interpret_from_process 2 1 target_dynobj newer = (Ok EOLDULP, s') /\ tmem 1 s' = tmem 1 newer.
Proof.
  apply (version_gate 1 1 target_dynobj newer (le_bytes 4 2 ++ replicate 12 0)).
  intros _. split; vm_compute; reflexivity.
Defined.
