(* ===== verification/WitnessArch.v ===== *)
(** * Concrete functions, libraries and processes on which the theorems about the
    architectures, the symbols and the interposed functions apply *)

From stdpp Require Import gmap.
From S2P Require Import Prelude Errors Memory InsnQueue Arch ArchX86 ArchPpc PpcStack SymbolLoader Interpose WitnessQueue.

Open Scope ulp_scope.

(** ** x86_64: a function at 0x100e with its padding *)

Definition x86_code : mem := mem_write 0x1000 (replicate 14 0x90 ++ [0x66; 0x90] ++ replicate 16 0xcc) ∅.
Definition x86_state : code_state := {| code_mem := x86_code; code_q := q0 |}.

Lemma x86_code_livepatchable : x86_livepatchable x86_code 0x100e.
Proof.
  split; [by split; vm_compute|eexists; vm_compute; reflexivity|].
  exists 0x66, 0x90. split; [vm_compute; reflexivity|auto].
Qed.

Lemma new_in_range : in_u 64 0x2000.
Proof. by split; vm_compute. Qed.

Lemma empty_room k : k <= INSN_BUFFER_MAX -> q_size (queue q0) + k <= INSN_BUFFER_MAX.
Proof. done. Qed.

Lemma x86_patch_redirects_witness : exists s' a bs,
  x86_patch_addr 0x100e 0x2000 true x86_state = (Ok 0, s') /\
  x86_target (mem_write a bs x86_code) 0x100e = Some 0x2000.
Proof.
  destruct (x86_patch_redirects 0x100e 0x2000 x86_state []) as (s' & a & bs & H1 & _ & _ & H2 & _).
  - exact x86_code_livepatchable.
  - exact new_in_range.
  - exact (init_holds diag_init).
  - by vm_compute.
  - exists s', a, bs. by split.
Defined.

Lemma x86_unpatch_falls_through_witness : exists s' a,
  x86_patch_addr 0x100e 0x2000 false x86_state = (Ok 0, s') /\
  x86_target (mem_write a [0x66; 0x90] x86_code) 0x100e = None.
Proof.
  destruct (x86_unpatch_falls_through 0x100e 0x2000 x86_state []) as (s' & a & H1 & _ & _ & H2 & _).
  - exact x86_code_livepatchable.
  - exact new_in_range.
  - exact (init_holds diag_init).
  - by vm_compute.
  - exists s', a. by split.
Defined.

Lemma x86_not_patchable_witness : exists s',
  x86_patch_addr 0x1010 0x2000 true x86_state = (Ok ENOPATCHABLE, s') /\ code_mem s' = x86_code.
Proof.
  destruct (x86_not_patchable 0x1010 0x2000 true x86_state 0xcc 0xcc (replicate 8 0xcc)) as (s' & H1 & _ & H2).
  - by split; vm_compute.
  - vm_compute. reflexivity.
  - vm_compute. reflexivity.
  - by split.
  - exists s'. by split.
Defined.

(** ** powerpc64le: a function at 0x1034, and one without the nop at 0x1100 *)

Definition ppc_code : mem :=
  mem_write 0x1000 (concat (replicate 14 gNop) ++ replicate 12 1)
    (mem_write 0x1100 (replicate 16 1) ∅).
Definition ppc_state : code_state := {| code_mem := ppc_code; code_q := q0 |}.
Definition ppc_asm : bytes := replicate 52 2.

Lemma ppc_patch_redirects_witness : exists s' ws,
  ppc_patch_addr ppc_asm 44 0x1034 0x2000 true ppc_state = (Ok 0, s') /\
  ppc_target 44 (written ws ppc_code) 0x1034 = Some 0x2000.
Proof.
  destruct (ppc_patch_redirects ppc_asm 44 0x1034 0x2000 true ppc_state []) as (s' & ws & H1 & _ & H2 & _).
  - split; [done|lia].
  - split; [by split; vm_compute|eexists; vm_compute; reflexivity|eexists; vm_compute; reflexivity].
  - exact new_in_range.
  - exact (init_holds diag_init).
  - by vm_compute.
  - exists s', ws. by split.
Defined.

Lemma ppc_clobbers_unpatchable_witness : exists s',
  ppc_patch_addr ppc_asm 44 0x1100 0x2000 true ppc_state = (Ok ENOPATCHABLE, s') /\
  queue_holds (queue (code_q s')) [IWrite (0x1100 - 52) (ppc_prologue ppc_asm 44 0x2000)].
Proof.
  apply (ppc_clobbers_unpatchable ppc_asm 44 0x1100 0x2000 ppc_state [] (replicate 4 1) (replicate 4 1)).
  - split; [done|lia].
  - by split; vm_compute.
  - split; [vm_compute; reflexivity|by split].
  - split; [vm_compute; reflexivity|by split].
  - exact new_in_range.
  - exact (init_holds diag_init).
  - by vm_compute.
Defined.

(** A stack of one entry that is full; the kernel maps at 0x9000. *)
Definition full_stack : stack_state :=
  {| stack := {| real_size := 16; used_size := 16; stack_ptr := 0x8000 |};
     thread_mem := mem_write 0x8000 (replicate 16 3) ∅; thread_diag := diag_init;
     ulp_once_control := true; ulp_key := Some 3; key_value := 0 |}.
Definition map_at_9000 (n : Z) (m : mem) : option Z := Some 0x9000.

Lemma ulp_stack_helper_spec_witness : exists s',
  ulp_stack_helper 4096 map_at_9000 (0, 3) full_stack = (Ok tt, s') /\ stack_ptr (stack s') = 0x9000.
Proof.
  destruct (ulp_stack_helper_spec 4096 map_at_9000 (0, 3) full_stack 0x9000 (replicate 16 3)) as (s' & H1 & H2 & _).
  - done.
  - by split; vm_compute.
  - split; [done|by split; vm_compute].
  - intros _. vm_compute. reflexivity.
  - done.
  - done.
  - split; [done|right; by vm_compute].
  - exists s'. by split.
Defined.

(** The thread after its first patched call. *)
Definition fresh_thread : stack_state :=
  {| stack := {| real_size := 0; used_size := 0; stack_ptr := 0 |}; thread_mem := ∅; thread_diag := diag_init;
     ulp_once_control := false; ulp_key := None; key_value := 0 |}.
Definition grown_thread : stack_state := (ulp_stack_helper 1 map_at_9000 (0, 3) fresh_thread).2.

Lemma stack_never_released_witness :
  stack_ptr (stack grown_thread) = 0x9000 /\ ulp_key grown_thread = Some 3 /\
  thread_exit (fun a n m => (0, unmap a (Z.to_nat n) m)) grown_thread = grown_thread.
Proof.
  split; [vm_compute; reflexivity|]. split; [vm_compute; reflexivity|].
  apply (stack_never_released 1 map_at_9000 (0, 3)). apply (run_step _ _ _ fresh_thread).
  - apply run_start.
  - apply step_grow. unfold grown_thread.
    assert (E : (ulp_stack_helper 1 map_at_9000 (0, 3) fresh_thread).1 = Ok tt) by (vm_compute; reflexivity).
    destruct (ulp_stack_helper 1 map_at_9000 (0, 3) fresh_thread) as [r s']. cbn [fst snd] in *. by rewrite E.
Defined.

(** ** Two loaded libraries *)

Definition libx_info : dl_phdr_info :=
  {| dlpi_name := str "/lib/libx.so.0"; dlpi_addr := 0x7f0000000000;
     dlpi_phdr := [PT_DYNAMIC [DT_SYMTAB [{| st_name := 0; st_value := 0; st_size := 0 |};
                                          {| st_name := 1; st_value := 0x1130; st_size := 32 |}];
                               DT_STRTAB ([0] ++ str "f" ++ [0]); DT_HASH 1 2; DT_NULL]];
     dlpi_tls_modid := 2 |}.
Definition vdso_info : dl_phdr_info :=
  {| dlpi_name := vdso; dlpi_addr := 0x7fff00000000; dlpi_phdr := []; dlpi_tls_modid := 0 |}.
Definition infos0 : list dl_phdr_info := [vdso_info; libx_info].

Lemma base_addr_spec_witness :
  get_loaded_library_base_addr infos0 (str "a.out") (Some (str "libx.so")) diag_init = (Ok 0x7f0000000000, diag_init).
Proof.
  destruct (base_addr_spec infos0 (str "a.out") (Some (str "libx.so")) diag_init) as [H _]; [done|].
  rewrite H. vm_compute. reflexivity.
Defined.

Lemma symbol_addr_spec_witness : exists d',
  get_loaded_symbol_addr infos0 (str "a.out") (Some (str "libx.so")) (str "f") 0 diag_init =
    (Ok 0x7f0000001130, d').
Proof.
  destruct (symbol_addr_spec infos0 (str "a.out") (Some (str "libx.so")) (str "f") 0 diag_init) as [H _];
    [by split; vm_compute|].
  destruct (H libx_info [{| st_name := 0; st_value := 0; st_size := 0 |};
                         {| st_name := 1; st_value := 0x1130; st_size := 32 |}] ([0] ++ str "f" ++ [0]) 2
              (Some {| st_name := 1; st_value := 0x1130; st_size := 32 |})) as [d' H'];
    [vm_compute; reflexivity|vm_compute; reflexivity|vm_compute; reflexivity|].
  exists d'. rewrite H'. vm_compute. reflexivity.
Defined.

(** ** The locks of a process *)

Definition free_locks (n : Z) : lock_state :=
  {| lk := {| flag := n; dl_load_lock := Some 0; dl_load_write_lock := Some 0 |}; lk_diag := diag_init |}.
(** A user who forbids live patching in the processes of the user 1000. *)
Definition blocking_env (v : string) : option bytes :=
  if String.eqb v "LIBPULP_DISABLE_ON_USERS" then Some (str "root:1000") else None.
Definition same_name (p s : bytes) : bool := byte_eqb p s.

Lemma user_wishes_witness : exists d',
  maybe_disable_livepatching_on_user blocking_env (fun _ => None) 1000 None same_name diag_init = (Ok tt, d') /\
  err_state d' = EUSRBLOCKED.
Proof.
  destruct (user_wishes blocking_env (fun _ => None) None 1000 100 None None same_name (str "root:1000") diag_init)
    as [H _]; [done|done|].
  destruct (H eq_refl) as (d' & H1 & H2). exists d'. split; [exact H1|]. rewrite H2. vm_compute. reflexivity.
Defined.

Definition unresolved : init_state := {| real := fun _ => false; init_locks := free_locks 0 |}.

Lemma initialisation_witness :
  (exists s', __ulp_asunsafe_begin (fun _ => None) (fun _ => None) None 0 0 None None same_name
     (fun f => negb (bool_decide (f = Calloc))) (Some 0) (Some 0) unresolved = (Ok tt, s') /\
     libpulp_is_in_error_state (lk_diag (init_locks s')) = true) /\
  (exists s', __ulp_asunsafe_begin (fun _ => None) (fun _ => None) None 0 0 None None same_name
     (fun _ => true) (Some 0) (Some 0) unresolved = (Ok tt, s') /\
     libpulp_is_in_error_state (lk_diag (init_locks s')) = false).
Proof.
  split.
  - destruct (initialisation (fun _ => None) (fun _ => None) None 0 0 None None same_name
      (fun f => negb (bool_decide (f = Calloc))) (Some 0) (Some 0) unresolved) as [H _]; [done|done|].
    destruct H as (s' & H1 & _ & H2 & _); [|by exists s']. exists Calloc. split; [|done].
    vm_compute. tauto.
  - destruct (initialisation (fun _ => None) (fun _ => None) None 0 0 None None same_name
      (fun _ => true) (Some 0) (Some 0) unresolved) as [_ H]; [done|done|].
    destruct H as (s' & H1 & _ & _ & _ & H2 & _); [done|done|by left|by left|by exists s'].
Defined.
