(* ===== verification/WitnessPatch.v ===== *)
(** * A concrete process, library and patches on which the theorems about the
    requests apply *)

From stdpp Require Import gmap.
From S2P Require Import Prelude Errors Memory Metadata InsnQueue Arch ArchX86 SymbolLoader Interpose.
From S2P Require Import PatchCore PatchCoherence Requests PatchingLock RevertAll WitnessMetadata WitnessQueue.

Open Scope ulp_scope.

(** ** The process

    libx is loaded at [lib_addr], with the function [f] at [fun_addr], and the
    patch's library at [lp_addr], with [new_f] at [new_addr]. *)

Definition lib_addr : Z := 0x7f0000000000.
Definition lp_addr : Z := 0x7f1000000000.
Definition fun_addr : Z := lib_addr + 0x1130.
Definition new_addr : Z := lp_addr + 0x1200.

Definition libx_loaded (build_id : bytes) : dl_phdr_info :=
  {| dlpi_name := str "/lib/libx.so.0"; dlpi_addr := lib_addr;
     dlpi_phdr := [PT_NOTE (build_id_note build_id) 36;
                   PT_DYNAMIC [DT_SYMTAB [{| st_name := 0; st_value := 0; st_size := 0 |};
                                          {| st_name := 1; st_value := 0x1130; st_size := 32 |}];
                               DT_STRTAB ([0] ++ str "f" ++ [0]); DT_HASH 1 2; DT_NULL]];
     dlpi_tls_modid := 2 |}.

(** The protections of the page of [f] and of the one of the patch's data. *)
Definition pages : Type := Z * Z.
Definition mapped : pages := (5, 3).

(** A loader whose answers do not depend on what was asked before. *)
#[export] Instance one_loader : Libdl pages := {
  dlopen name d m := (0x55, d, m);
  dlclose h d := (0, d);
  dlsym h name d := if byte_eqb name (str "new_f") then (new_addr, false, d) else (0, true, d);
  dlinfo h d := (Some lp_addr, d);
  dl_objects d := [libx_loaded (replicate 20 9)] }.

Definition fun_code : mem :=
  mem_write (fun_addr - 14) (replicate 14 0x90 ++ [0x66; 0x90] ++ replicate 16 0xcc) ∅.

Lemma fun_livepatchable : x86_livepatchable fun_code fun_addr.
Proof.
  split; [by split; vm_compute|eexists; vm_compute; reflexivity|].
  exists 0x66, 0x90. split; [vm_compute; reflexivity|auto].
Qed.

(** The patch the example depends on, which has no functions. *)
Definition dep_entry : ulp_applied_patch :=
  {| applied_id := replicate 32 8; lib_name := str "libz.so"; container_name := str "/lp0.so";
     applied_units := []; applied_deps := []; timestamp := 0 |}.

Definition unlocked : locks := {| flag := 0; dl_load_lock := Some 0; dl_load_write_lock := Some 0 |}.

Definition process_state (ps : list ulp_applied_patch) (rs : list ulp_detour_root) (buf : bytes) (m : mem)
    (q : qstate) : lib_state pages :=
  {| load_state := 1; patches := ps; roots := rs; root_index_counter := 0; global_universe := 0;
     metadata_ref := None; metadata_buffer := buf; core := {| code_mem := m; code_q := q |};
     loader := mapped; lib_locks := unlocked; n_allocs := 0 |}.

Lemma process_admissible ps rs buf m : admissible (process_state ps rs buf m q0).
Proof. split; [done|exact (init_holds diag_init)|done]. Qed.

Definition all_ok (n : nat) : bool := true.
Definition zero_buffer : bytes := replicate (Z.to_nat ULP_METADATA_BUF_LEN) 0.

(** ** Loading the metadata *)

Definition with_ref (s : lib_state pages) : lib_state pages := set_metadata_ref (Some zero_metadata) (set_allocs 1 s).
Definition parsed (s : lib_state pages) : lib_state pages := (run_parser always 0 (with_ref s)).2.

(** What the parser leaves, when the rest of [parse_metadata] succeeds. *)
Lemma load_steps alloc s ulp s2 :
  alloc 0%nat = true -> metadata_ref s = None -> n_allocs s = 0%nat ->
  (run_parser always 0 (with_ref s)).1 = Ok 0 -> metadata_ref (parsed s) = Some ulp ->
  (if type ulp =? 2 then ret 0
   else
     let! r := check_patch_sanity in
     if negb (r =? 0) then ret r
     else
       let! ok := load_so_handlers in
       ret (if ok =? 0 then EDLOPEN else r)) (parsed s) = (Ok 0, s2) ->
  load_metadata alloc always 0 s = (Ok (true, 0), set_metadata_buffer zero_buffer s2).
Proof.
  intros Ha Hr Hn Hp Hu Hc. unfold load_metadata, bind at 1, gets at 1. rewrite Hr.
  unfold lib_alloc, bind at 1. rewrite Hn, Ha. cbn [negb].
  unfold bind at 1, modify at 1. fold (with_ref s).
  assert (E : parse_metadata always 0 (with_ref s) = (Ok 0, set_metadata_buffer zero_buffer s2)).
  { unfold parse_metadata.
    assert (Ep : run_parser always 0 (with_ref s) = (Ok 0, parsed s)).
    { unfold parsed. destruct (run_parser always 0 (with_ref s)) as [r s']. simpl in Hp. by rewrite Hp. }
    rewrite (bind_ok _ _ _ _ _ Ep).
    assert (Eg : get_ulp (parsed s) = (Ok ulp, parsed s)) by (unfold get_ulp; by rewrite Hu).
    rewrite (bind_ok _ _ _ _ _ Eg). cbv beta. change (negb (0 =? ENONE)) with false. cbn [orb].
    rewrite (bind_ok _ _ _ _ _ Hc). cbv beta. unfold zero_buffer. generalize (replicate (Z.to_nat ULP_METADATA_BUF_LEN) 0).
    reflexivity. }
  rewrite (bind_ok _ _ _ _ _ E). done.
Qed.

(** ** Applying the example *)

Definition apply_buffer : bytes := (ex_out ex_data).2.
Definition apply_state (q : qstate) : lib_state pages := process_state [dep_entry] [] apply_buffer fun_code q.

(** What loading the metadata leaves. *)
Definition ready_metadata (s : lib_state pages) : lib_state pages :=
  ((let! r := check_patch_sanity in
    if negb (r =? 0) then ret r
    else
      let! ok := load_so_handlers in
      ret (if ok =? 0 then EDLOPEN else r)) (parsed s)).2.
Definition apply_loaded (q : qstate) : lib_state pages := set_metadata_buffer zero_buffer (ready_metadata (apply_state q)).
Definition the_metadata (s : lib_state pages) : ulp_metadata := default zero_metadata (metadata_ref s).

Lemma apply_load alloc q : alloc 0%nat = true -> load_metadata alloc always 0 (apply_state q) = (Ok (true, 0), apply_loaded q).
Proof.
  intros Ha. apply (load_steps alloc (apply_state q) (the_metadata (parsed (apply_state q))) (ready_metadata (apply_state q)));
    [done|done|done|vm_compute; reflexivity|vm_compute; reflexivity|vm_compute; reflexivity].
Qed.


Definition no_queue : qstate :=
  {| queue := {| q_version := 1; q_num_insns := 0; q_size := 0; q_align := 0; q_buffer := [] |};
     diagnosis := diag_init |}.
Definition apply_metadata : ulp_metadata := Eval vm_compute in the_metadata (ready_metadata (apply_state no_queue)).
Definition apply_object : ulp_object := Eval vm_compute in default zero_object (objs apply_metadata).
Definition lib_file : bytes := str "libx.so.0" ++ [0; 0].
Definition program : bytes := str "a.out".

(** The buffer is cleared, and nothing else looks at it. *)
Lemma clear_buffer b (s : lib_state pages) :
  metadata_ref (set_metadata_buffer b s) = metadata_ref s /\ core (set_metadata_buffer b s) = core s /\
  roots (set_metadata_buffer b s) = roots s /\ loader (set_metadata_buffer b s) = loader s.
Proof. done. Qed.

Lemma apply_ref_set q : metadata_ref (apply_loaded q) = Some apply_metadata.
Proof. unfold apply_loaded. rewrite (proj1 (clear_buffer _ _)). vm_compute. reflexivity. Qed.

(** Its memory, roots, loader and queue are those of before. *)
Lemma apply_loaded_core q :
  code_mem (core (apply_loaded q)) = fun_code /\ queue (code_q (core (apply_loaded q))) = queue q /\
  roots (apply_loaded q) = [] /\ loader (apply_loaded q) = mapped.
Proof.
  unfold apply_loaded. destruct (clear_buffer zero_buffer (ready_metadata (apply_state q))) as (_ & -> & -> & ->).
  split_and!; vm_compute; reflexivity.
Qed.

Lemma apply_environment (mapped : pages) :
  environment program mapped apply_metadata apply_object [(fun_addr, new_addr)] [lp_addr + 32] lib_addr 2 lp_addr.
Proof.
  split.
  - constructor; [|constructor]. split; [|vm_compute; reflexivity|split; [done|by split; vm_compute]].
    intros dg. exists dg. split; [vm_compute; reflexivity|reflexivity].
  - intros dg. vm_compute. reflexivity.
  - intros dg. vm_compute. reflexivity.
  - done.
  - done.
  - constructor; [|constructor]. split; [done|]. split; [by split; vm_compute|]. vm_compute. reflexivity.
Qed.

Lemma one_apart f : all_apart [f].
Proof. by intros g h [<-|[]] [<-|[]]. Qed.

Lemma applicable_when (s1 : lib_state pages) :
  metadata_ref s1 = Some apply_metadata -> code_mem (core s1) = fun_code -> roots s1 = [] ->
  q_size (queue (code_q (core s1))) = 0 ->
  applicable program s1 apply_metadata apply_object lib_file (str "/lp.so" ++ [0; 0])
    [(fun_addr, new_addr)] [lp_addr + 32] lib_addr 2 lp_addr.
Proof.
  intros Hr Em Er Eq. split; rewrite ?Em, ?Eq, ?Er.
  - exact Hr.
  - vm_compute. reflexivity.
  - vm_compute. reflexivity.
  - vm_compute. reflexivity.
  - vm_compute. reflexivity.
  - exact (apply_environment (loader s1)).
  - constructor; [|constructor]. eexists. vm_compute. reflexivity.
  - intros f [<-|[]]. exact fun_livepatchable.
  - exact (one_apart fun_addr).
  - constructor; [|constructor]. intros f [<-|[]]. by left; vm_compute.
  - by vm_compute.
Qed.

Lemma apply_applicable :
  applicable program (apply_loaded q0) apply_metadata apply_object lib_file (str "/lp.so" ++ [0; 0])
    [(fun_addr, new_addr)] [lp_addr + 32] lib_addr 2 lp_addr.
Proof.
  destruct (apply_loaded_core q0) as (Em & Eq & Er & _).
  apply applicable_when; [exact (apply_ref_set q0)|exact Em|exact Er|by rewrite Eq].
Qed.

Lemma no_roots_coherent m : coherent m [].
Proof. split; [constructor|intros f []|intros r d []|intros r []]. Qed.

Lemma apply_request_witness : exists s',
  __ulp_apply_patch program all_ok always 0 17 (apply_state q0) = (Ok 0, s') /\
  err_state (lib_diag s') = ENONE /\
  coherent (written (all_writes fun_code [(fun_addr, new_addr)] ++
                     ref_writes lib_addr (u64 2) (zip (refs apply_metadata) [lp_addr + 32])) fun_code) (roots s').
Proof.
  destruct (apply_loaded_core q0) as (Em & _ & _ & _).
  destruct (apply_request program all_ok always 0 17 (apply_state q0) (apply_loaded q0) apply_metadata apply_object
    lib_file (str "/lp.so" ++ [0; 0]) [(fun_addr, new_addr)] [lp_addr + 32] lib_addr 2 lp_addr)
    as (s' & H1 & _ & _ & H2 & _ & _ & _ & _ & H3 & _).
  - apply process_admissible.
  - done.
  - exact (apply_load all_ok q0 eq_refl).
  - exact apply_applicable.
  - rewrite Em. apply no_roots_coherent.
  - exists s'. rewrite Em in H3. split; [exact H1|]. split; [exact H2|exact H3].
Defined.

(** ** A failure *)

Definition one_alloc (n : nat) : bool := (n =? 0)%nat.

Lemma failed_apply_witness : exists s',
  __ulp_apply_patch program one_alloc always 0 17 (apply_state q0) = (Ok ESTATE, s') /\
  patches s' = [dep_entry] /\ roots s' = [].
Proof.
  destruct (failed_apply program one_alloc always 0 17 (apply_state q0) (apply_loaded q0)
    (ulp_state_update program one_alloc 17 (apply_loaded q0)).2 (apply_loaded q0) apply_metadata) as [H _].
  - apply process_admissible.
  - exact (apply_load one_alloc q0 eq_refl).
  - exact (apply_ref_set q0).
  - reflexivity.
  - destruct H as (s' & H1 & H2 & H3 & _); [|exists s'; split; [exact H1|]; split; [exact H2|exact H3]].
    assert (E : (ulp_state_update program one_alloc 17 (apply_loaded q0)).1 = Ok 0) by (lazy; reflexivity).
    destruct (ulp_state_update program one_alloc 17 (apply_loaded q0)) as [r s'] eqn:E'.
    cbn [fst snd] in *. by rewrite E.
Defined.

(** ** Reverting it *)

Definition patch_entry : ulp_applied_patch :=
  {| applied_id := replicate 32 7; lib_name := str "libx.so.0"; container_name := str "/lp.so";
     applied_units := []; applied_deps := []; timestamp := 17 |}.
Definition patched_roots : list ulp_detour_root := (add_all 1 (replicate 32 7) [(fun_addr, new_addr)] ([], 0)).1.
Definition patched_code : mem := written (all_writes fun_code [(fun_addr, new_addr)]) fun_code.

Lemma patched_coherent : coherent patched_code patched_roots.
Proof.
  destruct (writes_law fun_code fun_addr (Some new_addr)) as (H1 & H2 & _).
  { exact fun_livepatchable. } { intros a [= <-]. by split; vm_compute. }
  split.
  - constructor; [intros []|constructor].
  - intros f [<-|[]]. exact H1.
  - intros r d [<-|[]] [<-|[]]. by split; vm_compute.
  - intros r [<-|[]]. exact H2.
Qed.

(** The memory and the library when the same patch is to be reverted. *)
Definition revert_state (q : qstate) : lib_state pages :=
  process_state [patch_entry; dep_entry] patched_roots (ex_out ex_reverse).2 patched_code q.
Definition revert_loaded (q : qstate) : lib_state pages := set_metadata_buffer zero_buffer (parsed (revert_state q)).
Definition revert_metadata : ulp_metadata := Eval vm_compute in the_metadata (parsed (revert_state no_queue)).

Lemma revert_load q : load_metadata all_ok always 0 (revert_state q) = (Ok (true, 0), revert_loaded q).
Proof.
  apply (load_steps all_ok (revert_state q) revert_metadata (parsed (revert_state q)));
    [done|done|done|vm_compute; reflexivity|vm_compute; reflexivity|reflexivity].
Qed.

Lemma revert_ref_set q : metadata_ref (revert_loaded q) = Some revert_metadata.
Proof. unfold revert_loaded. rewrite (proj1 (clear_buffer _ _)). vm_compute. reflexivity. Qed.

Lemma revert_loaded_mem q : code_mem (core (revert_loaded q)) = patched_code.
Proof. reflexivity. Qed.


Lemma revert_request_witness : exists s',
  __ulp_apply_patch program all_ok always 0 17 (revert_state q0) = (Ok 0, s') /\
  roots s' = map (drop_root (replicate 32 7)) patched_roots.
Proof.
  destruct (revert_request program all_ok always 0 17 (revert_state q0) (revert_loaded q0) revert_metadata)
    as (_ & _ & H).
  - apply process_admissible.
  - exact (revert_load q0).
  - exact (revert_ref_set q0).
  - reflexivity.
  - destruct H as (s' & lq & H1 & _ & H2 & _).
    + vm_compute. reflexivity.
    + vm_compute. reflexivity.
    + rewrite revert_loaded_mem. exact patched_coherent.
    + exact (one_apart fun_addr).
    + by vm_compute.
    + exists s'. split; [exact H1|exact H2].
Defined.

Lemma revert_restores_witness : exists s3 lq,
  ulp_revert_patch (replicate 32 7) (process_state [patch_entry] patched_roots [] patched_code q0) = (Ok 0, s3) /\
  patches s3 = [] /\ target (written lq patched_code) fun_addr = None.
Proof.
  destruct (revert_restores (process_state [] [] [] fun_code q0) (process_state [patch_entry] patched_roots [] patched_code q0)
    fun_code 1 (replicate 32 7) [(fun_addr, new_addr)] patch_entry) as (s3 & lq & H1 & H2 & _ & _ & H3 & _).
  - apply no_roots_coherent.
  - intros r d [].
  - intros an [<-|[]] _. vm_compute. reflexivity.
  - reflexivity.
  - reflexivity.
  - reflexivity.
  - exact patched_coherent.
  - exact (init_holds diag_init).
  - exact (one_apart fun_addr).
  - by vm_compute.
  - exists s3, lq. split; [exact H1|]. split; [exact H2|]. etransitivity; [exact (H3 fun_addr (or_introl eq_refl))|vm_compute; reflexivity].
Defined.

(** ** Build ids, and the checks before a patch is loaded *)

Definition check_object : ulp_object :=
  {| build_id_len := 20; build_id_check := 0; build_id := Some (replicate 20 171);
     obj_name := Some lib_file; nunits := 0; units := [] |}.

Lemma build_ids_inverted_witness :
  compare_build_ids [PT_NOTE (build_id_note (replicate 20 171)) 36] check_object = Ok false /\
  compare_build_ids [PT_NOTE (build_id_note (replicate 20 9)) 36] check_object = Ok true.
Proof.
  split.
  - apply (build_ids_inverted (replicate 20 171) check_object (replicate 20 171) [] [] 36);
      [by split|by split|done].
  - apply (build_ids_inverted (replicate 20 9) check_object (replicate 20 171) [] [] 36);
      [by split|by split|done].
Defined.

Definition checked_metadata : ulp_metadata := set_objs zero_metadata (Some check_object).

Lemma sanity_checks_witness : exists s',
  check_patch_sanity (set_metadata_ref (Some checked_metadata) (process_state [patch_entry] [] [] fun_code q0)) =
    (Ok 0, s').
Proof.
  destruct (sanity_checks (set_metadata_ref (Some checked_metadata) (process_state [patch_entry] [] [] fun_code q0))
    checked_metadata check_object [true]) as (s' & H & _).
  - reflexivity.
  - reflexivity.
  - reflexivity.
  - constructor; [vm_compute; reflexivity|constructor].
  - exists s'. exact H.
Defined.

(** ** Reverting the patches of a library *)

(** A patch of libz that depends on the one of libx. *)
Definition dependent_entry : ulp_applied_patch :=
  {| applied_id := replicate 32 6; lib_name := str "libz.so"; container_name := str "/lp2.so"; applied_units := [];
     applied_deps := [{| dep_id := replicate 32 7; patch_id_check := 1 |}]; timestamp := 18 |}.

Definition libx_buffer : bytes := str "/lib/libx.so.0" ++ [0].

Lemma revert_all_diverges_witness : exists s',
  __ulp_revert_patches_from_lib program 1000
    (process_state [dependent_entry; patch_entry] [] libx_buffer fun_code q0) = (NoFuel, s').
Proof.
  destruct (revert_all_diverges program 1000 (process_state [dependent_entry; patch_entry] [] libx_buffer fun_code q0)
    [dependent_entry] patch_entry [] (str "libx.so.0")) as (s' & H & _).
  - apply process_admissible.
  - vm_compute. reflexivity.
  - by vm_compute.
  - reflexivity.
  - constructor; [vm_compute; reflexivity|constructor].
  - vm_compute. reflexivity.
  - vm_compute. reflexivity.
  - exists s'. exact H.
Defined.

Lemma revert_all_spec_witness : exists s',
  __ulp_revert_patches_from_lib program 3
    (process_state [patch_entry; dep_entry] patched_roots libx_buffer patched_code q0) = (Ok 0, s') /\
  patches s' = [dep_entry].
Proof.
  destruct (revert_all_spec program 3 (process_state [patch_entry; dep_entry] patched_roots libx_buffer patched_code q0)
    (str "libx.so.0") lib_addr) as (s' & lq & H1 & H2 & _).
  - apply process_admissible.
  - vm_compute. reflexivity.
  - by vm_compute.
  - constructor; [intros [Hx|[]]; discriminate Hx|constructor; [intros []|constructor]].
  - constructor; [reflexivity|constructor; [reflexivity|constructor]].
  - exact patched_coherent.
  - exact (one_apart fun_addr).
  - by vm_compute.
  - by vm_compute.
  - simpl. lia.
  - intros dg. vm_compute. reflexivity.
  - exists s'. split; [exact H1|exact H2].
Defined.

(** ** A request while a thread allocates memory *)

Definition busy_state : lib_state pages :=
  set_locks {| flag := 1; dl_load_lock := Some 0; dl_load_write_lock := Some 0 |} (apply_state q0).

Lemma refused_requests_witness : exists dg,
  __ulp_apply_patch program all_ok always 0 17 busy_state = (Ok EAGAIN, set_lib_diag dg busy_state).
Proof.
  destruct (refused_requests program all_ok always 0 17 0 busy_state (__ulp_apply_patch program all_ok always 0 17))
    as (_ & _ & H); [by left|].
  apply (H 0 0); [reflexivity|exact (init_holds diag_init)|reflexivity|reflexivity|by right; right].
Defined.

(** Two threads, neither inside a wrapper; then the first enters one. *)
Definition two_threads : process pages := {| depths := [0; 0]%nat; lib := apply_state q0 |}.
Definition one_inside : process pages := {| depths := [1; 0]%nat; lib := busy_state |}.
Definition the_request : lib_m pages Z := load_patch program all_ok always 0 17.

Lemma queue_is_empty : queue_empty busy_state.
Proof. by split. Qed.

Lemma one_enters : step program two_threads one_inside.
Proof.
  pose proof (enter_locks (apply_state q0)) as E.
  assert (L : lib_locks (apply_state q0) = {| flag := 0; dl_load_lock := Some 0; dl_load_write_lock := Some 0 |}) by exact eq_refl.
  rewrite L in E. cbn [flag dl_load_lock dl_load_write_lock] in E. change (s32 (0 + 1)) with 1 in E.
  exact (Enters program two_threads 0 0 busy_state eq_refl eq_refl E).
Qed.

Lemma uncontended_free : uncontended 0 0.
Proof. unfold uncontended. lia. Qed.

Lemma two_counts : counts two_threads.
Proof. split; [exact eq_refl|by split|by exists 0|by exists 0]. Qed.

Lemma patching_lock_witness :
  entry_checks the_request (lib two_threads) = the_request (lib two_threads) /\
  exists dg, entry_checks the_request (lib one_inside) = (Ok EAGAIN, set_lib_diag dg busy_state) /\ err_state dg = ENONE.
Proof.
  assert (Hb : requests program the_request) by constructor. split.
  - destruct (patching_lock program two_threads two_threads the_request two_counts (reach_start _ _) Hb) as (_ & _ & H & _).
    destruct (H eq_refl queue_is_empty) as (l & w & Hl & Hw & Hx). injection Hl as <-. injection Hw as <-.
    rewrite bool_decide_eq_true_2 in Hx by (split_and!; [by repeat constructor|exact eq_refl|exact eq_refl]). exact Hx.
  - destruct (patching_lock program two_threads one_inside the_request two_counts
      (reach_step _ _ _ _ (reach_start _ _) one_enters) Hb) as (_ & _ & H & _).
    destruct (H eq_refl queue_is_empty) as (l & w & Hl & Hw & Hx). injection Hl as <-. injection Hw as <-.
    rewrite bool_decide_eq_false_2 in Hx by (intros [Hd _]; by inversion Hd). destruct Hx as (dg & E & Hu & _).
    exists dg. exact (conj E (Hu uncontended_free)).
Defined.

Definition contended_state : lib_state pages :=
  set_locks {| flag := 0; dl_load_lock := Some 2; dl_load_write_lock := Some 0 |} (apply_state q0).

Lemma contended_mutex_witness : exists s',
  entry_checks the_request contended_state = (Ok EAGAIN, s') /\ entry_checks the_request s' = (Ok EUNKNOWN, s').
Proof.
  destruct (contended_mutex the_request the_request contended_state 2 0 eq_refl queue_is_empty eq_refl eq_refl
    (or_introl eq_refl)) as (s' & H1 & H2 & _).
  exists s'. exact (conj H1 H2).
Defined.
