(* ===== verification/WitnessMessages.v ===== *)
(** * Concrete messages, digests and queues on which the theorems apply *)

From stdpp Require Import gmap relations.
From S2P Require Import Prelude Errors Memory InsnQueue Ptrace InsnQueueTool SimKernel Md4 PatchId MsgQueue Messages PcQueue.

Open Scope ulp_scope.

Lemma is_byte_dec (l : bytes) : forallb (fun b => (0 <=? b) && (b <? 256)) l = true -> Forall is_byte l.
Proof.
  rewrite forallb_forall. intros H. apply List.Forall_forall. intros b Hb. specialize (H b Hb).
  apply andb_true_iff in H as [Hx1 Hx2]. apply Z.leb_le in Hx1. apply Z.ltb_lt in Hx2. by split.
Qed.

Lemma MD4_is_md4_witness : MD4 (fun _ => true) (str "abc") 3 = Ok (Some (md4 (str "abc"))).
Proof.
  exact (MD4_is_md4 (fun _ => true) (str "abc") (is_byte_dec (str "abc") eq_refl) ltac:(vm_compute; reflexivity)).
Defined.

(** A live patch with one note, its build id of 20 bytes at offset 16, and a
    description of two lines. *)
Definition ex_dsc : bytes := str "/lp.so" ++ [10] ++ str "@/x.so" ++ [10].
Definition ex_note : note := {| n_next := 36; n_type := NT_GNU_BUILD_ID; n_descp := 16; n_descsz := 20 |}.
Definition ex_env : pack_env :=
  {| load_elf := true; build_id_note := true; elf_getdata := Some (replicate 16 1 ++ replicate 20 171);
     gelf_getnote := fun o => if o =? 0 then Some ex_note else None;
     fopen := true; fseek := true; ftell := zlen ex_dsc; malloc := fun _ => true;
     fread := fun n => take (Z.to_nat n) ex_dsc |}.

Lemma patch_id_spec_witness : write_patch_id 1 ex_env = Ok (0, replicate 16 171 ++ md4 ex_dsc).
Proof.
  destruct (patch_id_spec 0 ex_env ex_note (replicate 16 1 ++ replicate 20 171) eq_refl eq_refl eq_refl eq_refl eq_refl
    ltac:(cbn; lia) ltac:(cbn; lia) ltac:(vm_compute; discriminate)) as [H _].
  exact (H ex_dsc ltac:(split_and!; try reflexivity; exact (is_byte_dec ex_dsc eq_refl))).
Defined.

(** A buffer of 16 bytes and four messages. *)
Definition ex_texts : list bytes := [str "hello"; str "world"; []; str "again"].

Lemma no_nul_dec (l : bytes) : forallb (fun b => negb (b =? 0)) l = true -> no_nul l.
Proof.
  rewrite forallb_forall. intros H. apply List.Forall_forall. intros b Hb. specialize (H b Hb).
  by apply negb_true_iff, Z.eqb_neq in H.
Qed.

Lemma messages_kept_witness : exists q old new out, push_all 16 20 ex_texts (msgq_init 16) = Ok q /\
  [str "hello"; str "world"; str "again"] = old ++ new /\ new <> [] /\ msgq_print 16 q = Ok out /\ shown out = concat new.
Proof.
  destruct (messages_kept 16 20 ex_texts) as (q & old & new & out & H1 & _ & H2 & H3 & _ & H4 & H5).
  - lia.
  - lia.
  - unfold ex_texts. repeat (constructor; [split; [by apply no_nul_dec|done]|]). constructor.
  - exists q, old, new, out. split_and!; try done. by apply H3.
Defined.

(** A process whose memory holds a queue of 16 bytes with the message "hi". *)
Definition ex_queue : msg_queue :=
  {| buffer := str "hi" ++ replicate 14 0; top := 3; bottom := 0; distance := 3 |}.
Definition ex_process : tool sim :=
  {| kernel := {| sim_map := mem_write 0x3000 (msgq_image ex_queue) ∅; sim_us := 0 |}; tlog := [] |}.

Lemma print_message_buffer_spec_witness : exists s',
  print_message_buffer 2 16 [0; 0x3000] 7 false ex_process = (Ok (0, str "hi" ++ [0]), s') /\ tmem 7 s' = tmem 7 ex_process.
Proof.
  apply (print_message_buffer_spec 1 16 [0; 0x3000] 7 ex_queue (str "hi" ++ [0]) ex_process ex_process).
  - reflexivity.
  - intros s. exists s. split; [by destruct s|done].
  - done.
  - reflexivity.
  - by split_and!; vm_compute.
  - vm_compute. reflexivity.
  - reflexivity.
Defined.

(** A ring of two slots. *)
Definition ex_ring : producer_consumer_t (A := nat) :=
  {| n := 2; head := 0; tail := 0; empty := 0; full := 2; elem := [None; None] |}.

Definition ex_run (s : threads (A := nat)) : threads := match enqueue_step s with Ok s' => s' | _ => s end.

Lemma pc_refines_witness :
  let s := ex_run (ex_run (start ex_ring [Some 1%nat; None])) in
  stored s = loaded s ++ pending s /\ zlen (pending s) <= 2 /\ enqueue_step s <> Ub /\ dequeue_step s <> Ub.
Proof.
  intros s. apply (pc_refines (fun _ => true) 48 2 ex_ring [Some 1%nat; None] s).
  - lia.
  - reflexivity.
  - eapply rtc_l; [apply step_enqueue; reflexivity|]. eapply rtc_l; [apply step_enqueue; reflexivity|]. apply rtc_refl.
Defined.

Lemma pc_handover_witness :
  let s := ex_run (ex_run (start ex_ring [Some 1%nat; None])) in
  exists rest, [Some 1%nat; None] = got s ++ rest.
Proof.
  intros s. refine (proj1 (proj2 (pc_handover (fun _ => true) 48 2 ex_ring [Some 1%nat; None] 2 s _ _ _))).
  - lia.
  - reflexivity.
  - eapply nsteps_l; [apply run_enqueue; reflexivity|]. eapply nsteps_l; [apply run_enqueue; reflexivity|]. apply nsteps_O.
Defined.
