(* ===== verification/WitnessPacker.v ===== *)
(** * A concrete description of a patch *)

From stdpp Require Import list.
From S2P Require Import Prelude Errors Metadata Md4 PatchId Extract Description Packer WitnessMessages.

Open Scope ulp_scope.

(** A patch of one function and one variable of /x.so. *)
Definition ex_desc : description :=
  {| dsc_head := [IBlank]; dsc_container := str "/lp.so"; dsc_target := str "/x.so";
     dsc_items := [IUnit (str "f") (str "g"); IBlank; IRef true (str "v") (str "w")] |}.

Definition ex_container : ulp_so_info :=
  {| so_name := Some (str "lp.so"); so_buildid := replicate 20 171;
     symbols := [{| sym_name := str "g"; sym_offset := 0x1100; sym_size := 8; sym_info := 18; sym_other := 0 |}; {| sym_name := str "w"; sym_offset := 0x4000; sym_size := 8; sym_info := 18; sym_other := 0 |}] |}.
Definition ex_target : ulp_so_info :=
  {| so_name := Some (str "x.so"); so_buildid := replicate 20 205;
     symbols := [{| sym_name := str "f"; sym_offset := 0x1500; sym_size := 8; sym_info := 18; sym_other := 0 |}; {| sym_name := str "v"; sym_offset := 0x5010; sym_size := 8; sym_info := 18; sym_other := 0 |}] |}.

Definition ex_open (path : bytes) : option bytes :=
  if byte_eqb path (str "/p.dsc") then Some (print_description ex_desc)
  else if byte_eqb path (str "/lp.so") || byte_eqb path (str "/x.so") then Some [] else None.
Definition ex_info (path : bytes) : option ulp_so_info :=
  if byte_eqb path (str "/lp.so") then Some ex_container else if byte_eqb path (str "/x.so") then Some ex_target else None.

Definition plain_b (c : Z) : bool := negb (c =? 0) && negb (c =? 10).
Definition name_b (s : bytes) : bool := negb (byte_eqb s []) && forallb (fun c => plain_b c && negb (c =? 58)) s.

Lemma plain_dec l : forallb plain_b l = true -> Forall plain_char l.
Proof.
  rewrite forallb_forall. intros H. apply List.Forall_forall. intros c Hc. specialize (H c Hc).
  unfold plain_b in H. apply andb_true_iff in H as [Hx Hy]. split; intros E; rewrite E in *; done.
Qed.

Lemma name_dec s : name_b s = true -> name s.
Proof.
  unfold name_b. intros H. apply andb_true_iff in H as [Hx Hy]. split; [intros E; by rewrite E in Hx|].
  rewrite forallb_forall in Hy. apply List.Forall_forall. intros c Hc. specialize (Hy c Hc).
  apply andb_true_iff in Hy as [Hp Hz]. unfold plain_b in Hp. apply andb_true_iff in Hp as [Hp1 Hp2].
  split_and!; intros E; rewrite E in *; done.
Qed.

Lemma ex_desc_ok : description_ok ex_desc.
Proof.
  split.
  - repeat constructor; cbn; try done; try (intros ? ?; done).
  - split_and!; try done. by apply plain_dec.
  - split; [by apply plain_dec|done].
  - repeat constructor; cbn [item_ok]; try (by apply name_dec); try done; cbn; lia.
Qed.

Definition ex_patch : option ulp_metadata :=
  apply_items ex_container ex_target (dsc_items ex_desc) (dsc_base ex_desc ex_target).

Lemma dsc_roundtrip_witness : exists s u,
  parse_description ex_open (fun _ => false) ex_info true true None None (str "/p.dsc") = Ok s /\
  ex_patch = Some u /\ ulp s = u /\ target s = Some ex_target.
Proof.
  destruct ex_patch as [u|] eqn:E; [|vm_compute in E; discriminate].
  destruct (dsc_roundtrip ex_open (fun _ => false) ex_info ex_desc (str "/p.dsc") ex_container ex_target u [] [] ex_desc_ok
    eq_refl (conj eq_refl (conj eq_refl eq_refl)) (conj eq_refl (conj eq_refl eq_refl)) E) as (s & H1 & H2 & H3).
  by exists s, u.
Defined.

(** The state of the parser at the line of a function. *)
Definition ex_state : dstate :=
  {| file := []; line := 4; col := 1; ulp := dsc_base ex_desc ex_target; d_comments := []; cur_comment_pos := 0;
     cur_comment_size := 0; container := Some ex_container; target := Some ex_target; target_path := str "/x.so" |}.

Lemma unknown_function_witness :
  (body_line ex_open (fun _ => false) ex_info true true None (str "f:h" ++ [10]) ex_state).1 =
    Err {| at_line := 4; at_col := 3; why := "symbol %s is not present in %s" |}.
Proof.
  refine (proj2 (unknown_function ex_open (fun _ => false) ex_info true true None (str "f") (str "h") ex_state
    ex_container ex_target (set_obj_name zero_object (so_name ex_target)) _ _ _) _ _).
  - split; by apply name_dec.
  - cbn. lia.
  - done.
  - done.
  - done.
Defined.

Lemma offsets_dec info : forallb (fun x => (0 <=? sym_offset x) && (sym_offset x <? 2 ^ 64)) (symbols info) = true -> offsets_ok info.
Proof.
  intros H sym x. unfold offset_of, get_symbol_with_name. induction (symbols info) as [|s l IH]; cbn [get_symbol_in]; [done|].
  cbn [forallb] in H. apply andb_true_iff in H as [Hs Hl]. destruct (byte_eqb _ _); [|by apply IH].
  intros [= <-]. apply andb_true_iff in Hs as [Hx Hy]. apply Z.leb_le in Hx. apply Z.ltb_lt in Hy. by split.
Qed.

Definition ex_id : bytes := replicate 16 171 ++ md4 ex_dsc.

(** The sections the packer embeds. *)
Definition ex_sections : list (string * bytes) :=
  match run_packer ex_open (fun _ => false) ex_info true true (fun _ _ => ex_env) 1 true true true (fun _ _ => 0) (fun _ => 0)
    None None (str "/p.dsc") with Ok (_, l) => l | _ => [] end.
Definition ex_section : bytes := match ex_sections with (_, d) :: _ => d | [] => [] end.
Definition ex_extracted : Z * bytes :=
  match extract_ulp_from_so_to_mem (Some (Some ex_section)) (Some (str "/lp.so")) (str "lp.so") None with
  | Ok (size, Buffer b) => (size, b) | _ => (0, []) end.

Lemma packer_end_to_end_witness : exists secs data u buf size s,
  run_packer ex_open (fun _ => false) ex_info true true (fun _ _ => ex_env) 1 true true true (fun _ _ => 0) (fun _ => 0)
    None None (str "/p.dsc") = Ok (0, secs) /\
  In (".ulp"%string, data) secs /\
  extract_ulp_from_so_to_mem (Some (Some data)) (Some (str "/lp.so")) (str "lp.so") None = Ok (size, Buffer buf) /\
  parse_metadata_from_mem (fun _ _ => true) 0 zero_metadata (buf ++ [0; 0]) (zlen (buf ++ [0; 0])) = (Ok 0, s) /\
  ps_ulp s = read_back (packed ex_target ex_id u) (replicate 20 205) (str "x.so") (str "/lp.so").
Proof.
  destruct ex_patch as [u|] eqn:E; [|vm_compute in E; discriminate].
  destruct (packer_end_to_end ex_open (fun _ => false) ex_info (fun _ _ => ex_env) 1 (fun _ _ => 0) (fun _ => 0) ex_desc (str "/p.dsc")
    ex_container ex_target u [] [] (str "x.so") ex_id) as (secs & data & rev & H1 & H2 & _ & H3).
  - exact ex_desc_ok.
  - repeat constructor.
  - vm_compute. reflexivity.
  - reflexivity.
  - by split_and!.
  - by split_and!.
  - split_and!; try done; by apply offsets_dec.
  - exact E.
  - vm_compute. reflexivity.
  - done.
  - assert (Hsecs : secs = ex_sections) by (unfold ex_sections; by rewrite H1).
    assert (Hin : forallb (fun x => negb (String.eqb (fst x) ".ulp") || byte_eqb (snd x) ex_section) ex_sections = true) by (vm_compute; reflexivity).
    assert (data = ex_section) as ->.
    { rewrite forallb_forall in Hin. rewrite Hsecs in H2. specialize (Hin _ H2). cbn in Hin. by apply byte_eqb_spec in Hin. }
    assert (Hx : extract_ulp_from_so_to_mem (Some (Some ex_section)) (Some (str "/lp.so")) (str "lp.so") None = Ok (fst ex_extracted, Buffer (snd ex_extracted)))
      by (vm_compute; reflexivity).
    destruct (H3 (fun _ _ => true) 0 (str "/lp.so") (str "lp.so") None (fst ex_extracted) (snd ex_extracted) [0; 0]) as (s & Hs1 & Hs2);
      [done|vm_compute; reflexivity|done|exact Hx|].
    exists secs, ex_section, u, (snd ex_extracted), (fst ex_extracted), s.
    exact (conj H1 (conj H2 (conj Hx (conj Hs1 Hs2)))).
Defined.
