(* ===== verification/WitnessTrigger.v ===== *)
(** * A small kernel with threads, and a process that is patched

    The kernel keeps the registers of the threads, which of them are attached and
    stopped, and the histories of those caught and let go; a thread that runs a
    routine of libpulp comes back with 0. It satisfies the laws on threads, which
    are therefore consistent. *)

From stdpp Require Import gmap.
From S2P Require Import Prelude Errors Memory Metadata InsnQueue Ptrace InsnQueueTool PatchCore Extract Description Critical Tracees Trigger TriggerRun WitnessPacker.

Open Scope ulp_scope.

Record machine := {
  m_regs : Z -> registers_t; m_phase : Z -> tracee;
  m_caught : list (Z * registers_t); m_released : list (Z * registers_t); m_us : Z }.

Definition reply_with (r : option registers_t) : reply := {| r_ret := 0; r_regs := r; r_errno := 0 |}.

Definition set_reg (p : Z) (x : registers_t) (k : machine) : machine :=
  {| m_regs := fun t => if t =? p then x else m_regs k t; m_phase := m_phase k; m_caught := m_caught k;
     m_released := m_released k; m_us := m_us k |}.

Definition set_phase (p : Z) (x : tracee) (k : machine) : machine :=
  {| m_regs := m_regs k; m_phase := fun t => if t =? p then x else m_phase k t; m_caught := m_caught k;
     m_released := m_released k; m_us := m_us k |}.

Definition machine_ptrace (r : ptrace_request) (p : Z) (k : machine) : reply * machine :=
  match r with
  | PTRACE_ATTACH => (reply_with None, set_phase p Attached k)
  | PTRACE_DETACH =>
    (reply_with None, set_phase p Free
      {| m_regs := m_regs k; m_phase := m_phase k; m_caught := m_caught k;
         m_released := (p, m_regs k p) :: m_released k; m_us := m_us k |})
  | PTRACE_SETREGS x => (reply_with None, set_reg p x k)
  | PTRACE_GETREGS => (reply_with (Some (m_regs k p)), k)
  | PTRACE_CONT =>
    let x := m_regs k p in
    (reply_with None, set_phase p Resumed (set_reg p {| rip := rip x; rsp := rsp x; rax := 0; other_regs := other_regs x |} k))
  | _ => (reply_with None, k)
  end.

(** A thread that is waited for has stopped. *)
Definition machine_wait (p : Z) (k : machine) : machine :=
  set_phase p Halted
    {| m_regs := m_regs k; m_phase := m_phase k;
       m_caught := if bool_decide (m_phase k p = Attached) then (p, m_regs k p) :: m_caught k else m_caught k;
       m_released := m_released k; m_us := m_us k |}.

#[export] Instance machine_kernel : Kernel machine := {
  ptrace := machine_ptrace;
  process_vm_writev p bs a k := ((zlen bs, 0), k);
  process_vm_readv p n a k := ((n, 0, replicate (Z.to_nat n) 0), k);
  waitpid p nohang k :=
    (WaitPid p {| wifstopped := true; wifexited := false; wcoredump := false; wifsignaled := false |}, machine_wait p k);
  time k := (m_us k / 1000000, k);
  usleep n k := {| m_regs := m_regs k; m_phase := m_phase k; m_caught := m_caught k; m_released := m_released k; m_us := m_us k + n |} }.

#[export] Instance machine_threads : ThreadLaws machine.
Proof.
  refine {| held := fun t k => m_regs k t; released := m_released |}; try done.
  - intros r p k. by destruct r.
  - intros p k r k' [= <- <-]. done.
  - intros x p k r k' [= <- <-] _. cbn. by rewrite Z.eqb_refl.
  - intros p k r k' [= <- <-]. done.
  - intros r p k t Ht. destruct r; cbn; try done; by rewrite (proj2 (Z.eqb_neq _ _) Ht).
  - intros r p k Hr. by destruct r.
Defined.

#[export] Instance machine_tracees : TraceeLaws machine.
Proof.
  refine {| phase := fun t k => m_phase k t; caught := m_caught |}; try done.
  - intros p k r k' [= <- <-]. cbn. by rewrite Z.eqb_refl.
  - intros p k r k' [= <- <-]. cbn. by rewrite Z.eqb_refl.
  - intros r p k t [Ht|Hr]; destruct r; cbn; try done; by rewrite (proj2 (Z.eqb_neq _ _) Ht).
  - intros p k _. cbn. by rewrite Z.eqb_refl.
  - intros r p k. by destruct r.
  - intros p b k st k' [= _ <-] _. cbn. by rewrite Z.eqb_refl.
  - intros p b k w k' [= <- <-] Hw. by specialize (Hw _ eq_refl).
  - intros p b k t Ht. cbn. by rewrite (proj2 (Z.eqb_neq _ _) Ht).
Defined.

Definition regs_of (t : Z) : registers_t := {| rip := 0x401000 + t; rsp := 0x7ffff000; rax := 9; other_regs := [t] |}.
Definition ex_machine : tool machine :=
  {| kernel := {| m_regs := regs_of; m_phase := fun _ => Free; m_caught := []; m_released := []; m_us := 0 |}; tlog := [] |}.

(** A process with two threads, and an old libpulp without a queue. *)
Definition ex_proc : ulp_process :=
  {| pid := 70; threads := []; main_thread := None; all_threads_hijacked := false;
     symbols := {| sym_trigger := 0x1000; sym_check := 0x1100; sym_revert_all := 0x1200; sym_global := 0x1300; sym_metadata_buffer := 0x2000 |};
     dynobj_libpulp := {| dyn_insn_queue := 0; insn_queue_version := 0 |}; global_universe := 0 |}.
Definition ex_cstate : cstate machine := {| proc := ex_proc; tl := ex_machine |}.

(** The task directory: "." and "..", then the two threads. *)
Definition ex_listing (i : nat) : list Z * Z := ([0; 0; 70; 71], 0).

Definition after {A} (m : st (cstate machine) Z A) (s : cstate machine) : cstate machine := (m s).2.

Lemma after_ok {A} (m : st (cstate machine) Z A) s r : fst (m s) = r -> m s = (r, after m s).
Proof. unfold after. by intros <-; destruct (m s). Qed.

Lemma critical_section_transparent_witness :
  let s1 := after (hijack_threads 5 0 true ex_listing) ex_cstate in
  let s2 := after (apply_patch 5 200 (str "patch") false) s1 in
  let s3 := after (restore_threads 5) s2 in
  released (kernel (tl s3)) = [(70, regs_of 70); (71, regs_of 71)].
Proof.
  set (op := apply_patch 5 200 (str "patch") false). intros s1 s2 s3.
  assert (E1 : fst (hijack_threads 5 0 true ex_listing ex_cstate) = Ok 0) by (vm_compute; reflexivity).
  assert (E2 : fst (op s1) = Ok 0) by (vm_compute; reflexivity).
  assert (E3 : fst (restore_threads 5 s2) = Ok 0) by (vm_compute; reflexivity).
  assert (Hop : (exists metadata seccomp, op = apply_patch 5 200 metadata seccomp) \/
    (exists target lib, op = revert_patches_from_lib 5 200 target lib)) by (left; by exists (str "patch"), false).
  etransitivity; [exact (proj2 (proj2 (critical_section_transparent 5 200 0 true ex_listing ex_cstate s1 (Ok 0) s2 s3 op
    ltac:(done) (after_ok _ _ _ E1) Hop (after_ok _ _ _ E2) (after_ok _ _ _ E3))))|vm_compute; reflexivity].
Defined.

(** The directory cannot be read to its end. *)
Lemma hijack_error_witness :
  let s' := after (hijack_threads 5 0 true (fun _ => ([70; 71], 5))) ex_cstate in idle s' /\ pid (proc s') = 70.
Proof.
  intros s'. destruct (hijack_error 5 0 true (fun _ => ([70; 71], 5)) ex_cstate ETHRDATTACH s') as (H1 & H2 & _).
  - done.
  - done.
  - reflexivity.
  - by split.
Defined.

(** The live patch of the packer, for a process with its target library. *)
Definition ex_file : container_file :=
  {| c_path := str "lp.so"; c_section := fun revert => if revert then None else Some (Some ex_section); c_realpath := Some (str "/lp.so") |}.
Definition ex_tasks : target :=
  {| libraries := [{| filename := str "/lib64/libc.so.6"; dyn_build_id := replicate 20 1 |};
                   {| filename := str "/usr/lib64/x.so"; dyn_build_id := replicate 20 205 |}];
     chrooted := false; tasks := fun _ => (0, ex_listing) |}.

Lemma ex_errno : forall i, 0 <= fst (tasks ex_tasks i).
Proof. intros i. cbn. lia. Qed.

Abbreviation ex_trigger c := (trigger_one_process 5 200 (fun _ _ => true) 0 true ex_info None false ex_tasks 3 c None false).

(** The code of a result. *)
Definition code_of {S} (r : res Z trigger_results * S) : option Z := match fst r with Ok x => Some (err x) | _ => None end.

Lemma code_of_ok {S} (r : res Z trigger_results * S) c : code_of r = Some c -> exists x s, r = (Ok x, s) /\ err x = c.
Proof. unfold code_of. destruct r as [[x|e| |] s]; cbn; try done. intros [= <-]. by exists x, s. Qed.

(** Nothing the tool logs is a failure to let a thread go. *)
Definition content {S} (r : res Z trigger_results * cstate S) : bool :=
  forallb (fun m => negb (existsb (String.eqb m) letting_go_failed)) (tlog (tl (snd r))).

Lemma content_complains s s' : forallb (fun m => negb (existsb (String.eqb m) letting_go_failed)) (tlog s') = true ->
  complains (K := machine) s s' -> False.
Proof.
  intros Hf (new & m & E & Hm & Hl). rewrite forallb_forall in Hf. specialize (Hf m ltac:(rewrite E; apply in_or_app; by left)).
  apply negb_true_iff in Hf. assert (Ht : existsb (String.eqb m) letting_go_failed = true).
  { apply existsb_exists. exists m. split; [done|apply String.eqb_refl]. }
  congruence.
Qed.

(** The two threads are caught and let go, and none is attached. *)
Lemma trigger_leaves_nothing_stopped_witness : exists r s', ex_trigger (Some ex_file) ex_cstate = (Ok r, s') /\ idle s' /\
  (forall t, phase t (kernel (tl s')) = Free) /\ Permutation (caught (kernel (tl s'))) (released (kernel (tl s'))) /\
  released (kernel (tl s')) = [(70, regs_of 70); (71, regs_of 71)].
Proof.
  assert (Hc : code_of (ex_trigger (Some ex_file) ex_cstate) = Some 0) by (vm_compute; reflexivity).
  assert (Hl : content (ex_trigger (Some ex_file) ex_cstate) = true) by (vm_compute; reflexivity).
  assert (Hr : released (kernel (tl (snd (ex_trigger (Some ex_file) ex_cstate)))) = [(70, regs_of 70); (71, regs_of 71)]) by (vm_compute; reflexivity).
  apply code_of_ok in Hc as (r & s' & E & _). unfold content in Hl. rewrite E in Hl, Hr. cbn [snd] in Hl, Hr.
  destruct (trigger_leaves_nothing_stopped 5 200 (fun _ _ => true) 0 true ex_info None false ex_tasks ex_errno 3 (Some ex_file) None false
    ex_cstate r s' ltac:(by split_and!) E) as ((_ & [C|(Hp & l & l' & Hc & Hr' & Q)]) & Hi & _).
  - destruct (content_complains _ _ Hl C).
  - exists r, s'. refine (conj E (conj Hi (conj _ (conj _ Hr)))).
    + intros x. destruct (Hp x) as [Hx|Hx]; [exact Hx|rewrite Hx; reflexivity].
    + rewrite Hc, Hr'. cbn [kernel ex_cstate ex_machine tl caught released machine_tracees machine_threads m_caught m_released].
      rewrite !app_nil_r. exact Q.
Defined.


(** Two processes, one of which has another build of the library. *)
Definition ex_other : target :=
  {| libraries := [{| filename := str "/usr/lib64/x.so"; dyn_build_id := replicate 20 7 |}];
     chrooted := false; tasks := fun _ => (0, ex_listing) |}.

Abbreviation ex_batch := (trigger_many_processes 5 200 (fun _ _ => true) 0 true ex_info None false (fun _ _ => true) false 3 None false
  (OneFile ex_file) [(ex_proc, ex_tasks); (ex_proc, ex_other)] ex_machine).

Lemma batch_result_witness : exists n rs w', ex_batch = (Ok (n, rs), w') /\
  successes n = 1 /\ skippes n = 1 /\ cret n = 0.
Proof.
  assert (Hc : match fst ex_batch with Ok (n, _) => Some (successes n, skippes n, failures n) | _ => None end = Some (1, 1, 0))
    by (vm_compute; reflexivity).
  destruct ex_batch as [[[n rs]|e| |] w'] eqn:E; try discriminate Hc. cbn [fst] in Hc.
  destruct (batch_result 5 200 (fun _ _ => true) 0 true ex_info None false (fun _ _ => true) false 3 None false
    (OneFile ex_file) [(ex_proc, ex_tasks); (ex_proc, ex_other)] ex_machine n rs w' ltac:(done) E) as (_ & _ & _ & H).
  injection Hc as H1 H2 H3. exists n, rs, w'. exact (conj eq_refl (conj H1 (conj H2 (proj2 H H3)))).
Defined.

Lemma failures_are_shown_witness : exists out,
  print_patched_unpatched [{| patch_name := str "a.so"; err := EBUILDID |}; {| patch_name := str "b.so"; err := ETIME |}] true = Some out /\
  In (FAILED (Some (str "b.so")) ETIME) out.
Proof.
  apply (failures_are_shown [{| patch_name := str "a.so"; err := EBUILDID |}; {| patch_name := str "b.so"; err := ETIME |}] true
    {| patch_name := str "b.so"; err := ETIME |}); [right; by left|done|reflexivity].
Defined.
