(* ===== verification/WitnessElf.v ===== *)
(** * A concrete library on which the theorems about ELF files apply *)

From stdpp Require Import list.
From S2P Require Import Prelude Errors Metadata PatchId ElfFile Extract Arch ArchX86 Post SimElf SoInfo.

Open Scope ulp_scope.

Definition section_names : bytes :=
  [0] ++ str ".dynsym" ++ [0] ++ str ".dynstr" ++ [0] ++ str ".note.gnu.build-id" ++ [0] ++ str ".text" ++ [0] ++
  patchable_entries ++ [0] ++ str ".shstrtab" ++ [0].

Definition lib_id : bytes := map Z.of_nat (seq 100 20).
Definition lib_note : bytes := le_bytes 4 4 ++ le_bytes 4 20 ++ le_bytes 4 3 ++ str "GNU" ++ [0] ++ lib_id.
Definition lib_symbol : bytes := le_bytes 4 1 ++ [18; 0] ++ le_bytes 2 4 ++ le_bytes 8 0x100e ++ le_bytes 8 8.
Definition lib_text : bytes := replicate 16 0x90 ++ replicate 8 0xc3.

Definition header (name type addr size link entsize : Z) : Elf64_Shdr :=
  {| sh_name := name; sh_type := type; sh_addr := addr; sh_size := size; sh_link := link; sh_entsize := entsize |}.

(** A library with a function [f] behind fourteen nops. *)
Definition lib_sections : list (Elf64_Shdr * bytes) :=
  [(header 0 0 0 0 0 0, []);
   (header 1 SHT_DYNSYM 0 48 2 24, replicate 24 0 ++ lib_symbol);
   (header 9 3 0 3 0 0, [0; 102; 0]);
   (header 17 7 0 36 0 0, lib_note);
   (header 36 1 0x1000 24 0 0, lib_text);
   (header 42 1 0 8 0 0, le_bytes 8 0x1000);
   (header 71 3 0 81 0 0, section_names)].

Definition a_sect (i : nat) (name : bytes) (h : Elf64_Shdr) : @sect sim_libelf :=
  {| handle := (i : @scn sim_libelf); s_name := name; hdr := h |}.

Definition lib_elf : sim_file :=
  {| sf_shstrndx := 6; sf_sections := lib_sections; sf_disk := fun s => snd <$> lib_sections !! s |}.

Definition lib_f : Elf64_Sym := {| st_name := 1; st_info := 18; st_other := 0; st_shndx := 4; st_value := 0x100e; st_size := 8 |}.
Definition no_symbol : Elf64_Sym := {| st_name := 0; st_info := 0; st_other := 0; st_shndx := 0; st_value := 0; st_size := 0 |}.
Definition lib_dyn : list (bytes * Elf64_Sym) := [([], no_symbol); ([102], lib_f)].

Definition lib_image : bytes := elf_magic ++ [2; 1].
Definition lib_fopen (path : bytes) : option bytes := if byte_eqb path (str "/lib/libx.so") then Some lib_image else None.
Definition lib_begin (f : bytes) : option elf := Some lib_elf.

Lemma lib_table : table lib_elf (sim_sects lib_elf) SHT_DYNSYM lib_dyn.
Proof.
  assert (E : find (typed SHT_DYNSYM) (sim_sects lib_elf) =
    Some (a_sect 1%nat (str ".dynsym") (header 1 SHT_DYNSYM 0 48 2 24))) by by vm_compute.
  unfold table. rewrite E. split; [done|done|done|]. exists (replicate 24 0 ++ lib_symbol). split; [done|].
  intros [|[|i]] nm y; [| |done]; intros [= <- <-]; by vm_compute.
Qed.

Lemma lib_has_id : has_build_id lib_elf (sim_sects lib_elf) lib_id.
Proof.
  exists (a_sect 3%nat (str ".note.gnu.build-id") (header 17 7 0 36 0 0)), lib_note,
    {| n_next := 36; n_type := 3; n_descp := 16; n_descsz := 20 |}.
  by split_and!; vm_compute.
Qed.

Lemma lib_wf : wf_elf lib_elf (sim_sects lib_elf).
Proof. by apply sim_wf. Qed.

Lemma get_object_metadata_spec_witness :
  get_object_metadata (H := sim_libelf) 3 true zero_object lib_elf = (Ok (0, set_build_id zero_object (Some lib_id) BUILDID_LEN), lib_elf).
Proof. apply (get_object_metadata_spec (H := sim_libelf) lib_elf (sim_sects lib_elf) 3 zero_object lib_id lib_wf lib_has_id). lia. Defined.

(** A weak function. *)
Lemma dump_ulp_so_info_spec_witness :
  dump_ulp_so_info {| so_name := Some (str "lib.so"); so_buildid := lib_id; symbols :=
      [{| sym_name := str "f"; sym_offset := 0x1130; sym_size := 32; sym_info := 0x22; sym_other := 0 |}] |} =
    Ok {| il_name := Some (str "lib.so"); il_buildid := buildid_to_string lib_id; il_symbols :=
      [{| sl_name := str "f"; sl_offset := 0x1130; sl_size := 32; sl_info := 0x22; sl_type := "STT_FUNC"; sl_bind := "STB_WEAK"; sl_other := 0;
          sl_visibility := "STV_DEFAULT" |}] |}.
Proof.
  destruct (dump_ulp_so_info_spec {| so_name := Some (str "lib.so"); so_buildid := lib_id; symbols :=
    [{| sym_name := str "f"; sym_offset := 0x1130; sym_size := 32; sym_info := 0x22; sym_other := 0 |}] |}) as (d & E & _).
  - repeat constructor; done.
  - by vm_compute.
Defined.

Lemma extract_then_open_witness : exists name text,
  ulp_so_info_open lib_fopen lib_begin 3 (str "/lib/libx.so") =
    Ok (Some {| so_name := Some name; so_buildid := lib_id; symbols := symbols_of lib_dyn ++ [] |}) /\
  run_extract lib_fopen lib_begin 3 true (str "/lib/libx.so") None (Some (str "x.json")) = Ok (0, Some (str "x.json", text)).
Proof.
  destruct (extract_then_open lib_begin 3 lib_fopen (str "/lib/libx.so") (str "x.json") lib_image lib_elf (sim_sects lib_elf)
    lib_id lib_dyn [] None []) as (name & text & Hopen & Hrun & _);
    [done|done|done|done|exact lib_wf|exact lib_has_id|by repeat constructor|lia|exact lib_table|done|done| |].
  - by repeat constructor.
  - by exists name, text.
Defined.

Definition lib_entries : @sect sim_libelf := a_sect 5%nat patchable_entries (header 42 1 0 8 0 0).
Definition lib_dynsym : @sect sim_libelf := a_sect 1%nat (str ".dynsym") (header 1 SHT_DYNSYM 0 48 2 24).
Definition lib_syms : list (Z * Z) := [(0, 0); (0x100e, 4)].

Lemma lib_tables : tables 7 (sim_sects lib_elf) lib_entries lib_dynsym (le_bytes 8 0x1000) (replicate 24 0 ++ lib_symbol)
  [0x100e] lib_syms lib_elf.
Proof.
  split; [exact lib_wf|by vm_compute; lia| |].
  - split_and!; [by vm_compute|by vm_compute|by vm_compute|split; [by vm_compute|]]. intros [|i] f; [|done]. intros [= <-]. by vm_compute.
  - split_and!; [by vm_compute|by vm_compute|by vm_compute|split; [by vm_compute|]]. intros [|[|i]] v x; [| |done]; intros [= <- <-]; by vm_compute.
Qed.

Lemma lib_slot f s i : f ∈ [0x100e] -> slot (sim_sects lib_elf) lib_syms lib_elf f = Some (s, i) -> s = 4%nat /\ i = 14%nat.
Proof. intros ->%list_elem_of_singleton E. vm_compute in E. by injection E as <- <-. Qed.

Lemma lib_functions : functions_ok (sim_sects lib_elf) lib_entries lib_dynsym [0x100e] lib_syms lib_elf.
Proof.
  split.
  - intros f ->%list_elem_of_singleton i [= <-]. split; [done|].
    exists (a_sect 4%nat (str ".text") (header 36 1 0x1000 24 0 0)), lib_text. split_and!; [by vm_compute| |done|].
    + split_and!; [done|done|]. intros (ndx & [= <-] & E). by vm_compute in E.
    + split_and!; [by vm_compute|by vm_compute|]. left. by vm_compute.
  - intros f f' s i Hf Hf' E E'. destruct (lib_slot _ _ _ Hf E) as [_ Hi]. destruct (lib_slot _ _ _ Hf' E') as [_ Hi']. lia.
Qed.

Lemma lib_disk (s : @scn sim_libelf) : on_disk lib_elf s = elf_getdata lib_elf s.
Proof. reflexivity. Qed.

Lemma post_merges_nops_witness : exists e' d',
  run_post 7 true lib_elf = (Ok 0, e') /\ on_disk e' 4%nat = Some d' /\ slice 14 2 d' = [0x66; 0x90].
Proof.
  destruct (post_merges_nops 7 (sim_sects lib_elf) lib_entries lib_dynsym (le_bytes 8 0x1000) (replicate 24 0 ++ lib_symbol)
    [0x100e] lib_syms lib_elf lib_tables lib_functions lib_disk) as (e' & Hrun & Hslot & _).
  specialize (Hslot 0x100e ltac:(by left)). assert (Es : slot (sim_sects lib_elf) lib_syms lib_elf 0x100e = Some (4%nat, 14%nat)) by by vm_compute.
  change (symbol_section lib_syms 0x100e) with (Some 4) in Hslot. destruct Hslot as (s & i & d' & Hs & Hd & Hn).
  rewrite Es in Hs. injection Hs as <- <-. by exists e', d'.
Defined.
