(* ===== verification/WitnessIntrospect.v ===== *)
(** * The memory of a process that has loaded libpulp *)

From stdpp Require Import gmap.
From S2P Require Import Prelude Errors Memory SymbolLoader Ptrace InsnQueueTool SimKernel PatchId ElfFile RemoteState Introspect IntrospectSpec IntrospectProcess.

Open Scope ulp_scope.

Definition words (l : list Z) : bytes := concat (map (le_bytes 8) l).
Definition elf_header (phnum : Z) : bytes := replicate 32 0 ++ le_bytes 8 64 ++ replicate 14 0 ++ le_bytes 2 56 ++ le_bytes 2 phnum ++ replicate 6 0.
Definition program_header (type vaddr memsz : Z) : bytes :=
  le_bytes 4 type ++ replicate 12 0 ++ words [vaddr; 0; 0; memsz; 0].
Definition text (s : string) : bytes := str s ++ replicate 9 0.
Definition symbol_entry (name value : Z) : bytes := le_bytes 4 name ++ replicate 4 0 ++ words [value; 0].

(** The main program at 0x10000, the loader's structures at 0x20000, libpulp at
    0x30000. *)
Definition image : list (Z * bytes) :=
  [(0x10000, elf_header 2 ++ program_header PT_PHDR 0x40 0 ++ program_header PT_DYNAMIC 0x200 0);
   (0x10200, words [DT_STRTAB; 0x10400; DT_SYMTAB; 0x10300; DT_HASH; 0x10500; DT_DEBUG; 0x20000; DT_NULL; 0]);
   (0x10500, le_bytes 4 1 ++ le_bytes 4 1);
   (0x20000, words [1; 0x21000]);
   (0x21000, words [0x10000; 0x21100; 0; 0x21040; 0; 0; 0; 0]);
   (0x21040, words [0x30000; 0x21120; 0; 0x21080; 0; 0; 0; 0]);
   (0x21080, words [0x50000; 0x21160; 0; 0; 0; 0; 0; 0]);
   (0x21120, text "/lib/libpulp.so.0"); (0x21160, text "linux-vdso.so.1");
   (0x30000, elf_header 2 ++ program_header PT_DYNAMIC 0x200 0 ++ program_header PT_NOTE 0x280 36);
   (0x30200, words [1; 1; DT_STRTAB; 0x30600; DT_SYMTAB; 0x30300; DT_HASH; 0x30700; DT_NULL; 0]);
   (0x30280, le_bytes 4 4 ++ le_bytes 4 20 ++ le_bytes 4 NT_GNU_BUILD_ID ++ str "GNU" ++ [0] ++ replicate 20 7);
   (0x30300, symbol_entry 1 0x700 ++ symbol_entry 16 0x900 ++ symbol_entry 32 0x910 ++ symbol_entry 48 0x100);
   (0x30600, [0] ++ text "printf" ++ text "__ulp_state" ++ replicate 20 0);
   (0x30610, text "__ulp_state"); (0x30620, text "__ulp_version"); (0x30630, text "__ulp_trigger");
   (0x30700, le_bytes 4 1 ++ le_bytes 4 4);
   (0x30900, words [1; 0]); (0x30910, text "0.3.1")].

Definition ex_state : tool sim :=
  {| kernel := {| sim_map := foldl (fun m x => mem_write x.1 x.2 m) ∅ image; sim_us := 0 |}; tlog := [] |}.
Definition ex_mem : mem := tmem 1 ex_state.

Lemma ex_has_mem : has_mem 1 ex_mem ex_state.
Proof.
  split; [reflexivity|]. intros x b. apply sim_lookup.
Qed.

(** ** How the pieces of memory are recognised *)

Lemma dynamic_step m a t v l : (fun bs => (u64_at 0 bs, u64_at 8 bs)) <$> mem_read a 16 m = Some (t, v) -> t <> DT_NULL ->
  0 <= a -> a + 16 < 2 ^ 64 -> dynamic_at m (a + 16) l -> dynamic_at m a ((t, v) :: l).
Proof. destruct (mem_read a 16 m) as [bs|] eqn:E; [|done]. intros [= <- <-]. by apply dynamic_cons. Qed.

Lemma dynamic_stop m a : u64_at 0 <$> mem_read a 16 m = Some DT_NULL -> dynamic_at m a [].
Proof. destruct (mem_read a 16 m) as [bs|] eqn:E; [|done]. intros [= Ht]. by eapply dynamic_end. Qed.

Definition ends_text (m : mem) (a : Z) (t : bytes) : bool :=
  match mem_read a (length t + 9) m with
  | Some bs => byte_eqb (take (length t + 1) bs) (t ++ [0])
  | None => false
  end.

Lemma text_intro m a t : ends_text m a t = true -> no_nul t -> 0 < a -> a + zlen t + 9 < 2 ^ 64 -> text_at m a t.
Proof.
  unfold ends_text. destruct (mem_read a (length t + 9) m) as [bs|] eqn:E; [|done]. intros Hb%byte_eqb_spec Ht Ha Hlim.
  split_and!; [done..|]. exists (drop (length t + 1) bs). pose proof (mem_read_length _ _ _ _ E) as Hl.
  split; [rewrite length_drop; lia|]. rewrite E. f_equal. rewrite <- (take_drop (length t + 1) bs) at 1.
  by rewrite Hb, <- app_assoc.
Qed.

Lemma symtab_step fuel m dynstr a n v p l :
  (fun bs => (u32_at 0 bs, u64_at 8 bs)) <$> mem_read a 24 m = Some (p, v) -> 0 <= a -> a + 24 < 2 ^ 64 ->
  0 <= dynstr -> dynstr + p < 2 ^ 64 -> text_at m (dynstr + p) n -> (length n / 8 <= fuel)%nat ->
  symtab_at fuel m dynstr (a + 24) l -> symtab_at fuel m dynstr a ((n, v) :: l).
Proof. destruct (mem_read a 24 m) as [bs|] eqn:E; [|done]. intros [= <- <-]. by apply symtab_cons. Qed.

Lemma array_step m size a bs l : mem_read a (Z.to_nat size) m = Some bs -> 0 <= a -> a + size < 2 ^ 64 ->
  array_at m size (a + size) l -> array_at m size a (bs :: l).
Proof. apply array_cons. Qed.

Ltac calc := vm_compute; reflexivity.
Ltac a_text := apply text_intro; [calc|by repeat constructor|done|done].
Ltac some_tags := repeat (apply dynamic_step; [calc|done|done|done|]); apply dynamic_stop; calc.

(** A tag that occurs once. *)
Ltac absent := apply (bool_decide_unpack _); vm_compute; exact I.
Ltac give := first [simple apply gives_here; absent | simple apply gives_later; [done|give]].

Ltac given := vm_compute; give.

(** ** The program *)

Definition main_tags : list (Z * Z) := [(DT_STRTAB, 0x10400); (DT_SYMTAB, 0x10300); (DT_HASH, 0x10500); (DT_DEBUG, 0x20000)].
Definition main_image : lib_image :=
  {| li_link := {| l_addr := 0x10000; l_name := 0x21100; l_next := 0x21040 |}; li_segs := [SOther; SDynamic main_tags];
     li_tables := {| lt_dynsym := 0x10300; lt_dynstr := 0x10400; lt_hash := 0x10500; lt_id := 0 |};
     li_count := 1; li_id := [] |}.
Definition main_phdrs : list bytes := [program_header PT_PHDR 0x40 0; program_header PT_DYNAMIC 0x200 0].

Definition ex_fuel : nat := 7.

Lemma main_headers : headers_at ex_fuel ex_mem main_image.
Proof.
  split; [discriminate|]. split; [discriminate|]. split; [|split; [by split_and!|split; [calc|split]]].
  2: exists (le_bytes 4 1); split; calc.
  2: intros Hid; vm_compute in Hid; discriminate.
  exists (elf_header 2), main_phdrs. split_and!; [calc|calc|calc| |].
  - repeat (apply array_step; [calc|done|done|]). apply array_nil.
  - constructor; [by split|]. constructor; [|constructor].
    split_and!; [done|some_tags|by vm_compute; lia|unfold tables_given; split_and!; given].
Qed.

Definition ex_program : program :=
  {| pr_auxv := [(AT_PHDR, 0x10040); (AT_PHENT, 56); (AT_PHNUM, 2); (AT_ENTRY, 0x10800)]; pr_phdr := 0x10040;
     pr_phdrs := main_phdrs; pr_tags := main_tags; pr_debug := 0x20000; pr_link := 0x21000; pr_image := main_image |}.

Definition ex_files : proc_files :=
  {| f_comm := Some (str "server" ++ [10]); f_maps := None; f_auxv_fd := 3; f_auxv := auxv_of (pr_auxv ex_program); f_errno := 0 |}.

Lemma ex_program_files : program_files ex_files ex_mem ex_program.
Proof.
  split_and!; try done.
  - repeat (constructor; [by split_and!; vm_compute|]). constructor.
  - repeat (apply array_step; [calc|done|done|]). apply array_nil.
Qed.

Lemma ex_program_memory : program_memory ex_fuel ex_mem ex_program.
Proof.
  split_and!; [some_tags|by vm_compute; lia| | | |exact main_headers].
  2: exists (words [0x21000]); split; calc.
  2: exists (words [0x10000; 0x21100; 0; 0x21040; 0]); split; calc.
  exists [(DT_STRTAB, 0x10400); (DT_SYMTAB, 0x10300); (DT_HASH, 0x10500)], []. split; [done|absent].
Qed.

(** ** libpulp *)

Definition lp_tags : list (Z * Z) := [(1, 1); (DT_STRTAB, 0x30600); (DT_SYMTAB, 0x30300); (DT_HASH, 0x30700)].
Definition lp_img : lib_image :=
  {| li_link := {| l_addr := 0x30000; l_name := 0x21120; l_next := 0x21080 |};
     li_segs := [SDynamic lp_tags; SNotes 8 (Some 0x30290)];
     li_tables := {| lt_dynsym := 0x30300; lt_dynstr := 0x30600; lt_hash := 0x30700; lt_id := 0x30290 |};
     li_count := 4; li_id := replicate 20 7 |}.
Definition ex_syms : list (bytes * Z) :=
  [(str "printf", 0x700); (str "__ulp_state", 0x900); (str "__ulp_version", 0x910); (str "__ulp_trigger", 0x100)].
Definition ex_libpulp : libpulp_image :=
  {| lp_image := lp_img; lp_name := str "/lib/libpulp.so.0"; lp_syms := ex_syms; lp_version := ULP_VERSION_TRIPLET 0 3 1 |}.

Lemma lp_headers : headers_at ex_fuel ex_mem lp_img.
Proof.
  split; [discriminate|]. split; [discriminate|]. split; [|split; [by split_and!|split; [calc|split]]].
  2: exists (le_bytes 4 4); split; calc.
  2: intros _; split; [discriminate|calc].
  exists (elf_header 2), [program_header PT_DYNAMIC 0x200 0; program_header PT_NOTE 0x280 36]. split_and!; [calc|calc|calc| |].
  - repeat (apply array_step; [calc|done|done|]). apply array_nil.
  - constructor; [split_and!; [done|some_tags|by vm_compute; lia|unfold tables_given; split_and!; given]|]. constructor; [|constructor].
    split_and!; [done| |done|by right].
    refine (notes_id ex_mem _ 7 0x30280 (le_bytes 4 4 ++ le_bytes 4 20 ++ le_bytes 4 NT_GNU_BUILD_ID) _ _ _ _ _ _ _); by vm_compute.
Qed.

Lemma ex_symtab : symtab_at ex_fuel ex_mem 0x30600 0x30300 ex_syms.
Proof. repeat (eapply symtab_step; [calc|done|done|done|done|a_text|by vm_compute; lia|]). apply symtab_nil. Qed.

Lemma ex_version_text : ulp_version_from_string (str "0.3.1") = Ok (ULP_VERSION_TRIPLET 0 3 1).
Proof. calc. Qed.

Lemma ex_libpulp_at : libpulp_at ex_fuel ex_mem ex_libpulp.
Proof.
  split_and!; [calc|exact lp_headers|done|done|exact ex_symtab|absent|by repeat constructor; vm_compute; lia|].
  exists (str "0.3.1"). split; [exact ex_version_text|].
  intros v Hv. assert (v = 0x910) as ->.
  { apply list_elem_of_lookup_1 in Hv as [[|[|[|[|i]]]] Hi]; vm_compute in Hi; congruence. }
  split; [a_text|by vm_compute; lia].
Qed.

(** ** The libraries *)

Definition vdso : link_map * bytes := ({| l_addr := 0x50000; l_name := 0x21160; l_next := 0 |}, str "linux-vdso.so.1").
Definition ex_loaded : loaded :=
  {| before := []; before_objects := []; libpulp := ex_libpulp; after := [vdso]; after_objects := [fresh vdso] |}.

Lemma link_step fuel m a l name k : link_map_of <$> mem_read a 40 m = Some l -> a <> 0 -> text_at m (l_name l) name ->
  (length name / 8 <= fuel)%nat -> link_chain fuel m (l_next l) k -> link_chain fuel m a ((l, name) :: k).
Proof. destruct (mem_read a 40 m) as [bs|] eqn:E; [|done]. intros [= <-] ?. by apply link_cons. Qed.

Lemma ex_loaded_at : loaded_at ex_fuel ex_mem 0x21040 ex_loaded.
Proof.
  split_and!; [|constructor| |exact ex_libpulp_at|by vm_compute; lia].
  - repeat (apply link_step; [calc|done|a_text|by vm_compute; lia|]). apply link_nil.
  - constructor; [|constructor]. apply plain_vdso. by left.
Qed.

Lemma sim_detach (s : tool sim) : exists (e : Z) (s' : tool sim), detach 8 1 s = (Ok e, s') /\ tmem 1 s' = tmem 1 s.
Proof. by eexists _, _. Qed.

Lemma libpulp_found_witness : exists (p : process) (s' : tool sim), initialize_data_structures 8 ex_files 1 [] ex_state = (Ok (0, p), s') /\
  option_map (export 2) (libpulp_of p) = Some 0x30900 /\ option_map (export VERSION) (libpulp_of p) = Some (ULP_VERSION_TRIPLET 0 3 1) /\
  load_bias p = 0x10000.
Proof.
  assert (Hst : mem_read (nth 2 (libpulp_exports (IntrospectProcess.libpulp ex_loaded)) 0) 16 ex_mem = Some (words [1; 0])) by calc.
  assert (Hatt : attach 8 1 ex_state = (Ok 0, (attach 8 1 ex_state).2)) by reflexivity.
  assert (Hm : has_mem 1 ex_mem (attach 8 1 ex_state).2) by exact ex_has_mem.
  pose proof (libpulp_found ex_fuel ex_files 1 ex_mem [] ex_program ex_loaded (words [1; 0]) ex_state (attach 8 1 ex_state).2
    Hatt) as P.
  specialize (P sim_detach). specialize (P Hm). specialize (P ex_program_files ex_program_memory ex_loaded_at Hst). destruct P as (p & s' & E & _ & Hb & _ & _ & Hlp & _).
  exists p, s'. split; [exact E|]. rewrite Hlp, Hb. split_and!; calc.
Defined.

Lemma ex_tables : tables_at ex_fuel ex_mem (libpulp_object ex_libpulp) ex_syms.
Proof.
  assert (E1 : o_dynsym_addr (libpulp_object ex_libpulp) = 0x30300) by calc.
  assert (E2 : o_dynstr_addr (libpulp_object ex_libpulp) = 0x30600) by calc.
  assert (E3 : o_num_symbols (libpulp_object ex_libpulp) = 4) by calc.
  unfold tables_at. rewrite E1, E2, E3. split; [discriminate|]. split; [discriminate|]. split; [reflexivity|]. split; [reflexivity|].
  exact ex_symtab.
Qed.

Lemma get_loaded_symbol_addr_spec_witness : exists s',
  get_loaded_symbol_addr 8 1 (libpulp_object ex_libpulp) (str "__ulp_state") ex_state = (Ok 0x30900, s') /\ has_mem 1 ex_mem s'.
Proof.
  pose proof (get_loaded_symbol_addr_spec ex_fuel 1 ex_mem (libpulp_object ex_libpulp) ex_syms (str "__ulp_state") ex_state
    ex_has_mem ex_tables) as (s' & E & Hs'). exists s'. split; [|exact Hs']. etransitivity; [exact E|].
  assert (Ev : match first_symbol (str "__ulp_state") ex_syms with
    | None | Some 0 => 0 | Some v => u64 (l_addr (o_link_map (libpulp_object ex_libpulp)) + v) end = 0x30900) by calc.
  by rewrite Ev.
Defined.
