(* ===== verification/WitnessTools.v ===== *)
(** * Processes on which the theorems about the commands apply *)

From stdpp Require Import gmap.
From S2P Require Import Prelude Errors Memory Metadata InsnQueue Ptrace InsnQueueTool SimKernel Extract Description Critical Tracees Trigger RemoteState Commands WitnessPacker WitnessTrigger.

Open Scope ulp_scope.

(** ** A process with one patch *)

Definition lib_text : bytes := str "libc.so" ++ [0].
Definition patch_record : bytes :=
  replicate 32 5 ++ le_bytes 8 0x3000 ++ le_bytes 8 0 ++ le_bytes 8 0 ++ le_bytes 8 0 ++ le_bytes 8 0 ++ le_bytes 8 99.
Definition patched : tool sim :=
  {| kernel := {| sim_map := mem_write 0x1000 (le_bytes 8 2 ++ le_bytes 8 0x2000)
                    (mem_write 0x2000 patch_record (mem_write 0x3000 lib_text ∅)); sim_us := 0 |}; tlog := [] |}.

Definition libpulp_here : libpulp_state :=
  {| state_addr := 0x1000; error_state_addr := 0x4000; trigger_addr := 0x5000; enable_disable_patching := 0x6000;
     libpulp_version := ULP_VERSION_TRIPLET 0 3 4 |}.
Definition one_patch : recorded :=
  {| rc_id := replicate 32 5; rc_lib := Some (str "libc.so"); rc_container := None; rc_timestamp := 99 |}.

Lemma lib_text_at : string_at (tmem 1 patched) 1 0x3000 (str "libc.so").
Proof. split; [by repeat constructor|]. exists []. by split_and!; [cbn; lia|..|]; vm_compute. Qed.

Lemma one_chain : chain 3 (tmem 1 patched) (libpulp_version libpulp_here) 0x2000 [one_patch].
Proof.
  refine (chain_cons 3 (tmem 1 patched) (libpulp_version libpulp_here) 0x2000 patch_record one_patch [] _ _ _ _ _ _ _);
    [done|vm_compute; reflexivity|vm_compute; reflexivity| |vm_compute; reflexivity|vm_compute; reflexivity|].
  - exists 1%nat. split; [lia|]. exact lib_text_at.
  - change (le_val (slice 56 8 patch_record)) with 0. apply chain_nil.
Qed.

Lemma ulp_read_state_spec_witness : exists qs s',
  ulp_read_state 4 true 3 1 (Some libpulp_here) patched = (Ok qs, s') /\ length qs = 1%nat.
Proof.
  destruct (ulp_read_state_spec 3 3 1 libpulp_here (le_bytes 8 2 ++ le_bytes 8 0x2000) [one_patch] patched patched)
    as (qs & s' & E & F & _).
  - vm_compute. reflexivity.
  - intros s. by eexists.
  - intros x b. apply sim_lookup.
  - done.
  - vm_compute. reflexivity.
  - exact one_chain.
  - cbn. lia.
  - exists qs, s'. apply Forall2_length in F. by split.
Defined.

(** ** Commands on the small kernel *)

Abbreviation ex_check := (run_check 5 200 (fun _ _ => true) 0 true ex_info ex_file (Some (str "70")) (ret 0) ex_tasks).


Abbreviation ex_disable := (enable_or_disable_patching 5 200 true (Some libpulp_here) ex_tasks false 3).

Lemma enable_or_disable_safe_witness : exists s', ex_disable ex_cstate = (Ok ENONE, s') /\ idle s'.
Proof.
  assert (Hc : fst (ex_disable ex_cstate) = Ok ENONE) by (vm_compute; reflexivity).
  pose proof (after_ok _ _ _ Hc) as E. exists (after ex_disable ex_cstate). split; [exact E|].
  exact (proj1 (enable_or_disable_safe 5 200 true (Some libpulp_here) ex_tasks false 3 ex_cstate ENONE _
    ltac:(by split_and!) ex_errno E)).
Defined.
