(* ===== verification/WitnessPatches.v ===== *)
(** * Processes and command lines on which the theorems about the commands apply *)

From stdpp Require Import gmap.
From S2P Require Import Interpose Prelude Errors Memory Metadata Ptrace InsnQueueTool SimKernel PatchId ElfFile Extract Description RemoteState Commands Introspect IntrospectSpec IntrospectProcess PcQueue Patches PatchesSpec PatchesThreads Dump CommandLine MiniElf SimElf WitnessMetadata WitnessElf WitnessIntrospect.

Open Scope ulp_scope.

(** ** A comment *)

Definition ex_words : list (bytes * Z) :=
  [(str "Fix", 32); (str "use-after-free", 32); (str "bsc#1200001", 44); ([], 32); (str "CVE-2022-1234", 10); (str "and", 32); (str "jsc#PED-77", 46)].

Lemma labels_found_witness :
  print_relevant_labels (Some (str "Fix use-after-free bsc#1200001, CVE-2022-1234" ++ [10] ++ str "and jsc#PED-77." ++ [0])) =
  Ok [str "bsc#1200001"; str "CVE-2022-1234"; str "jsc#PED-77"].
Proof.
  assert (Hw : Forall (fun w => word_ok w = true) ex_words) by (repeat constructor).
  pose proof (labels_found ex_words Hw) as P.
  assert (E1 : comment_of ex_words = str "Fix use-after-free bsc#1200001, CVE-2022-1234" ++ [10] ++ str "and jsc#PED-77." ++ [0]) by (vm_compute; reflexivity).
  assert (E2 : List.filter is_label (map fst ex_words) = [str "bsc#1200001"; str "CVE-2022-1234"; str "jsc#PED-77"]) by (vm_compute; reflexivity).
  rewrite E1, E2 in P. exact P.
Defined.

(** ** Three processes, of which one cannot be examined *)

Definition ps_files (pid : Z) : proc_files :=
  {| f_comm := Some (str "server" ++ [10]); f_maps := Some (str "7f00-7f10 r-xp 0 0 0 /lib/libpulp.so.0" ++ [10]);
     f_auxv_fd := if pid =? 3 then -1 else 3; f_auxv := if pid =? 3 then [] else auxv_of (pr_auxv ex_program); f_errno := 2 |}.

Definition ps_dir : list bytes := [str "self"; str "1"; str "3"; str "7"].
Definition ps_succeeds (pid : Z) : bool := negb (pid =? 3).

Lemma sim_attach pid (s : tool sim) : attach 8 pid s = (Ok 0, s).
Proof.
  destruct s as [k l]. unfold attach, ulp_ptrace, attach_loop, bind, on_kernel. cbn. by rewrite Z.eqb_refl.
Qed.

Lemma sim_detaches pid (s : tool sim) : detach 8 pid s = (Ok 0, s).
Proof. by destruct s. Qed.

Lemma ps_program_files pid : pid <> 3 -> program_files (ps_files pid) ex_mem ex_program.
Proof.
  intros Hp. unfold ps_files. rewrite (proj2 (Z.eqb_neq _ _) Hp). exact ex_program_files.
Qed.

(** All processes of the small kernel have the same memory. *)
Lemma sim_tmem pid pid' (s : tool sim) : tmem pid s = tmem pid' s.
Proof. reflexivity. Qed.

Lemma sim_has_mem pid pid' m (s : tool sim) : has_mem pid m s -> has_mem pid' m s.
Proof. intros [Hm Hb]. split; [|exact Hb]. by rewrite (sim_tmem pid' pid). Qed.

Lemma sim_detach_any pid (s : tool sim) : exists e s', detach 8 pid s = (Ok e, s') /\ tmem pid s' = tmem pid s.
Proof. exists 0, s. by rewrite sim_detaches. Qed.

(** Process 3 cannot be examined, the others can. *)
Lemma ps_init pid (s : tool sim) : has_mem 1 ex_mem s ->
  exists e p s', initialize_data_structures 8 (ps_files pid) pid [] s = (Ok (e, p), s') /\ has_mem 1 ex_mem s' /\
    (e =? 0) = ps_succeeds pid.
Proof.
  intros Hs. unfold ps_succeeds. destruct (Z.eqb_spec pid 3) as [->|Hp].
  - destruct s as [k l]. eexists _, _, _. split; [reflexivity|]. split; [exact Hs|done].
  - assert (Hst : mem_read (nth 2 (libpulp_exports (IntrospectProcess.libpulp ex_loaded)) 0) 16 ex_mem = Some (words [1; 0])) by calc.
    pose proof (initialize_ok ex_fuel (ps_files pid) pid ex_mem [] ex_program ex_loaded (words [1; 0]) s s (sim_attach pid s)
      (sim_detach_any pid)) as P.
    specialize (P (sim_has_mem 1 pid ex_mem s Hs)). specialize (P (ps_program_files pid Hp) ex_program_memory ex_loaded_at Hst).
    destruct P as (p & s' & E & M & _).
    exists (if le_val (slice 0 1 (words [1; 0])) =? 0 then EAGAIN else 0), p, s'. split; [exact E|]. split; [|reflexivity].
    apply (sim_has_mem pid). split; [|exact (proj2 Hs)]. rewrite M. exact (proj1 (sim_has_mem 1 pid ex_mem s Hs)).
Qed.

Lemma ps_dir_names : proc_names ps_dir.
Proof. repeat constructor; intros Hn; try discriminate; eexists; vm_compute; reflexivity. Qed.

Lemma ps_candidates : candidates ps_files (fun _ => None) (fun _ => None) (fun _ _ => true) 99 [] None None ps_dir = [1; 3; 7].
Proof. vm_compute. reflexivity. Qed.

Abbreviation ps_list := (for_each_process 8 ps_files (fun _ => None) (fun _ => None) (fun _ _ => true) 99 [] (Some ps_dir) None None).

Lemma for_each_visits_witness : exists s', ps_list (fun _ => t_log "seen") ex_state = (Ok ENONE, s') /\ has_mem 1 ex_mem s' /\
  visits ps_succeeds None [1; 3; 7] = [1; 1; 7].
Proof.
  destruct (for_each_visits 8 ps_files (fun _ => None) (fun _ => None) (fun _ _ => true) 99 [] None None ps_succeeds
    (fun _ => has_mem 1 ex_mem) (fun _ => t_log "seen") ps_dir ex_state eq_refl ps_dir_names (fun _ _ _ Hs => Hs)
    (fun _ pid s => ps_init pid s) (fun _ _ s Hs => ex_intro _ _ (conj eq_refl Hs)) ex_has_mem) as (s' & E & Hs').
  exists s'. split; [exact E|]. split; [exact Hs'|reflexivity].
Defined.

(** The two threads over the same directory. *)
Abbreviation ps_step := (thread_step 8 ps_files (fun _ => None) (fun _ => None) (fun _ _ => true) 99 []
  (start None None ps_dir) (fun _ => t_log "seen")).
Definition ps_start : system sim :=
  {| ring := PcQueue.start {| n := 512; head := 0; tail := 0; empty := 0; full := 512; elem := replicate (Z.to_nat 512) None |} [];
     gen := Some (ps_dir, []); cons := CNext; shared := ex_state |}.

Lemma threaded_visits_witness : exists k s, nsteps ps_step k ps_start s /\ Z.of_nat k <= 55 /\ cons s = CDone /\
  visits ps_succeeds None [1; 3; 7] = [1; 1; 7].
Proof.
  assert (Hb : process_list_begin_thread (fun _ => true) (None, None) 64 (Some ps_dir) None None ex_state =
    Ok (start None None ps_dir, Some ps_start)) by reflexivity.
  destruct (begin_inv ps_files (fun _ => None) (fun _ => None) (fun _ _ => true) 99 [] (fun _ => true) 64 None None ps_dir ps_succeeds
    (fun _ => has_mem 1 ex_mem) ex_state _ _ ps_dir_names ex_has_mem Hb) as (Hit & Hi & _).
  destruct (run_ends 8 ps_files (fun _ => None) (fun _ => None) (fun _ _ => true) 99 [] None None ps_succeeds (fun _ => t_log "seen")
    (fun _ => has_mem 1 ex_mem) (fun _ _ _ Hs => Hs) (fun _ pid s => ps_init pid s)
    (fun _ _ s Hs => ex_intro _ _ (conj eq_refl Hs)) _ Hit _ ps_start Hi) as (k & s & Hrun & Hstuck).
  destruct (threaded_visits 8 ps_files (fun _ => None) (fun _ => None) (fun _ _ => true) 99 [] (fun _ => true) 64 None None ps_succeeds
    (fun _ => has_mem 1 ex_mem) (fun _ => t_log "seen") ps_dir ex_state _ ps_start k s ps_dir_names (fun _ _ _ Hs => Hs)
    (fun _ pid s => ps_init pid s) (fun _ _ s Hs => ex_intro _ _ (conj eq_refl Hs)) ex_has_mem Hb Hrun) as (Hk & _ & _ & Hend).
  rewrite ps_candidates in Hend. exists k, s.
  refine (conj Hrun (conj Hk (conj (proj1 (Hend _ Hstuck)) eq_refl))). vm_compute. discriminate.
Defined.

(** ** A library with a function that can be patched *)

Definition lp_sym (value : Z) : bytes := replicate 8 0 ++ le_bytes 8 value ++ replicate 8 0.
Definition lp_state : tool sim :=
  {| kernel := {| sim_map := mem_write 0x2000 (lp_sym 0x100 ++ lp_sym 0x110)
                    (mem_write 0x8100 [0xc3; 0xc3] (mem_write 0x8110 [0x66; 0x90] ∅)); sim_us := 0 |}; tlog := [] |}.
Definition lp_obj : dynobj :=
  set_tables 0x3000 0x2000 2 (new_dynobj (str "/lib/libx.so") {| l_addr := 0x8000; l_name := 0; l_next := 0 |}).

Lemma is_library_livepatchable_spec_witness : exists s',
  is_library_livepatchable 8 ps_files (check_preamble_x86 8) [] (str "server") lp_obj 1 lp_state = (Ok true, s').
Proof.
  assert (Hm : has_mem 1 (tmem 1 lp_state) lp_state) by (split; [reflexivity|intros x b; apply sim_lookup]).
  assert (Hdet : detaches 7 1 (tmem 1 lp_state) (K := sim)) by (intros s Hs; exists s; apply sim_detaches).
  assert (Ha : array_at (tmem 1 lp_state) SYM_SIZE 0x2000 [lp_sym 0x100; lp_sym 0x110]).
  { repeat (apply array_step; [vm_compute; reflexivity|done|done|]). apply array_nil. }
  assert (Hf : Forall (fun sym => is_Some (mem_read (u64 (0x8000 + u64_at 8 sym)) 2 (tmem 1 lp_state))) [lp_sym 0x100; lp_sym 0x110]).
  { constructor; [exists [0xc3; 0xc3]; vm_compute; reflexivity|].
    constructor; [exists [0x66; 0x90]; vm_compute; reflexivity|constructor]. }
  pose proof (is_library_livepatchable_spec 7 ps_files 1 (tmem 1 lp_state) [] (str "server") lp_obj (str "libx.so") 0x8000
    [lp_sym 0x100; lp_sym 0x110] lp_state lp_state) as P.
  specialize (P ltac:(vm_compute; reflexivity) ltac:(constructor) (sim_attach 1 lp_state) Hm Hdet ltac:(reflexivity)).
  specialize (P Ha ltac:(reflexivity) ltac:(reflexivity) Hf).
  destruct P as (s' & E). exists s'. etransitivity; [exact E|].
  assert (Ev : patched [] (cstr (str "libx.so")) ||
    existsb (fun sym => nops (tmem 1 lp_state) (u64 (0x8000 + u64_at 8 sym))) [lp_sym 0x100; lp_sym 0x110] = true)
    by (vm_compute; reflexivity).
  by rewrite Ev.
Defined.

(** ** A dump and a command line *)

Definition ex_dump_section (revert : bool) : option (option bytes) := Some (if revert then None else Some ex_data).

Lemma dump_shows_packed_witness : exists d,
  run_dump always 0 ex_dump_section (Some ex_path) [] (Some lib_elf) false false = Ok (0, Some (d, None)) /\
  hl_patch_id <$> d_header d = Some (buildid_to_string (replicate 20 7)) /\
  ol_refs <$> d_object d =
    Some [{| rl_ref_name := str "ref_v"; rl_target_offset := 16; rl_patch_offset := 16; rl_tls := true |}].
Proof.
  assert (Hx : extract_ulp_from_so_to_mem (ex_dump_section false) (Some ex_path) [] None = Ok ((ex_out ex_data).1, Buffer (ex_out ex_data).2))
    by (vm_compute; reflexivity).
  eexists. split; [|split].
  - apply (@dump_shows_packed sim_libelf always 0 ex_dump_section ex_metadata ex_object (replicate 20 171) (str "libx.so.0" ++ [0]) ex_data
      ex_path [] (ex_out ex_data).1 (ex_out ex_data).2 None (Some lib_elf));
      [done|exact ex_wf|done|vm_compute; reflexivity|vm_compute; reflexivity|done|done|exact Hx|vm_compute; reflexivity].
  - vm_compute. reflexivity.
  - vm_compute. reflexivity.
Defined.

Definition ex_events : list event :=
  [Opt 118 None; Arg (str "trigger"); Opt 112 (Some (str "server")); Opt 114 (Some (str "5")); Arg (str "/lp.so")].
Definition ex_env : terminal_env := {| NO_COLOR := false; isatty := true; TERM := Some (str "xterm") |}.

Lemma arguments_well_formed_witness : exists s, argp_parse ex_env ex_events (start_state ex_env) = Ok s /\
  well_formed (input s) /\ retries (input s) = 5.
Proof.
  assert (He : Forall (deliverable (get_command_option ULP_TRIGGER)) ex_events).
  { repeat constructor; cbn; tauto. }
  pose proof (arguments_well_formed ex_env ULP_TRIGGER ex_events He) as P.
  change (forallb number_fits ex_events) with true in P. cbn [parsed_or_reported] in P.
  destruct (argp_parse ex_env ex_events (start_state ex_env)) as [s|m| |] eqn:E; [|vm_compute in E; discriminate..].
  exists s. split; [reflexivity|]. split; [exact (proj1 P)|]. vm_compute in E. injection E as <-. reflexivity.
Defined.

(** ** A container that is read by the library *)

Definition ct_data : bytes := 1 :: replicate 32 7 ++ le_bytes 4 0 ++ [9; 9; 9].
Definition ct_file : bytes :=
  file_header 64 3 2 ++ file_section 0 0 0 ++ file_section 1 256 40 ++ file_section 6 296 16 ++
  ct_data ++ [0] ++ str ".ulp" ++ [0] ++ str ".shstrtab" ++ [0].
Definition ct_ehdr : Elf_Ehdr := ehdr_of (take 64 ct_file).
Definition ct_shdrs : list Elf_Shdr := map (shdr_at ct_file 64) (seq 0 3).
Definition ct_names : bytes := [0] ++ str ".ulp" ++ [0] ++ str ".shstrtab" ++ [0].

Lemma ct_elf : elf_file ct_file ct_ehdr ct_shdrs ct_names.
Proof.
  split.
  - apply (bool_decide_unpack _). vm_compute. exact I.
  - reflexivity.
  - split_and!; [by vm_compute|reflexivity|vm_compute; reflexivity].
  - vm_compute. reflexivity.
  - vm_compute. discriminate.
  - vm_compute. reflexivity.
  - exists {| MiniElf.sh_name := 6; MiniElf.sh_offset := 296; MiniElf.sh_size := 16 |}.
    split_and!; [vm_compute; reflexivity|by vm_compute|by vm_compute|vm_compute; reflexivity].
  - repeat constructor; vm_compute; tauto.
Qed.

Lemma gdb_matches_tool_witness : exists buffer d',
  gdb_prepare zero_stack diag_init false ex_path (Some ct_file) = (Ok (0, buffer), d') /\
  take 51 buffer = take 33 ct_data ++ le_bytes 4 7 ++ ex_path ++ [0] ++ drop 33 ct_data.
Proof.
  assert (Hs : named_section ct_names (str ".ulp") ct_shdrs =
    Some {| MiniElf.sh_name := 1; MiniElf.sh_offset := 256; MiniElf.sh_size := 40 |}) by (vm_compute; reflexivity).
  assert (Hx : extract_ulp_from_so_to_mem (Some (Some (section_data ct_file
      {| MiniElf.sh_name := 1; MiniElf.sh_offset := 256; MiniElf.sh_size := 40 |}))) (Some ex_path) [] None =
    Ok (51, Buffer (take 33 ct_data ++ le_bytes 4 7 ++ ex_path ++ [0] ++ drop 33 ct_data))) by (vm_compute; reflexivity).
  pose proof (gdb_matches_tool ct_file ct_ehdr ct_shdrs ct_names zero_stack diag_init false ex_path _ [] 51 _ ct_elf
    ltac:(split; vm_compute; reflexivity) Hs ltac:(vm_compute; discriminate) ltac:(vm_compute; reflexivity) Hx) as P.
  destruct P as (buffer & d' & E & Ht & _). exists buffer, d'. split; [exact E|exact Ht].
Defined.
