(* ===== verification/WitnessGdb.v ===== *)
(** * A patch applied and reverted from the debugger *)

From stdpp Require Import gmap.
From S2P Require Import Prelude Errors Memory Metadata InsnQueue InsnQueueLib Arch ArchX86 SymbolLoader Interpose.
From S2P Require Import PatchCore PatchCoherence Requests MiniElf GdbInterface WitnessMetadata WitnessQueue WitnessPatch.

Open Scope ulp_scope.

(** ** The kernel: two pages that can be written when they are asked to *)

Definition fun_page : Z := 0x7f0000001000.
Definition lp_page : Z := lp_addr.

Definition page_line (base p : Z) : mapping :=
  {| lo := base; hi := base + 4096; width := 12;
     perm_r := Z.testbit p 0; perm_w := Z.testbit p 1; perm_x := Z.testbit p 2;
     trailer := str "p 00000000 00:00 0" |}.

Lemma page_line_ok base p : 0 <= base -> base + 4096 < 16 ^ 12 -> mapping_ok (page_line base p).
Proof.
  intros Hb He. split_and!; try (cbn [width lo hi page_line]; change (Z.of_nat 12) with 12; lia).
  - repeat constructor; done.
  - unfold map_line. autorewrite with ulp. by vm_compute.
Qed.

Lemma page_line_bits base p : 0 <= p <= 7 -> prot_bits (page_line base p) = p.
Proof. exact (code_line_bits p). Qed.

Definition page_lines (k : pages) : list mapping := [page_line fun_page k.1; page_line lp_page k.2].
Definition two_maps (k : pages) : option (list read_result) := Some (maps_text (page_lines k)).
Definition two_prot (k : pages) (page : Z) : Z := prot_lookup (page_lines k) page.
Definition two_mprotect (page len prot : Z) (k : pages) : Z * pages :=
  if page =? fun_page then (0, (prot, k.2)) else if page =? lp_page then (0, (k.1, prot)) else (-1, k).

Lemma in_page base page : is_page 4096 page -> base mod 4096 = 0 ->
  (base <=? page) && (page <? base + 4096) = (page =? base).
Proof.
  intros [Hp _] Hb. pose proof (Z.div_mod page 4096 ltac:(lia)). pose proof (Z.div_mod base 4096 ltac:(lia)).
  destruct (Z.eqb_spec page base) as [->|Hne]; [apply andb_true_iff; split; [apply Z.leb_le|apply Z.ltb_lt]; lia|].
  apply andb_false_iff. destruct (Z.leb_spec base page); [right; apply Z.ltb_ge; lia|by left].
Qed.

Lemma two_prot_page k page : is_page 4096 page -> two_prot k page =
  if page =? fun_page then prot_bits (page_line fun_page k.1)
  else if page =? lp_page then prot_bits (page_line lp_page k.2) else -1.
Proof.
  intros Hp. unfold two_prot, page_lines. cbn [prot_lookup lo hi page_line].
  rewrite !in_page by done. done.
Qed.

Lemma prot_bits_range m : 0 <= prot_bits m <= 7.
Proof. unfold prot_bits, PROT_READ, PROT_WRITE, PROT_EXEC. destruct (perm_r m), (perm_w m), (perm_x m); lia. Qed.

Lemma two_vm_laws : vm_laws two_maps two_mprotect 4096 two_prot.
Proof.
  split.
  - by exists 12.
  - intros k page _. apply memory_protection_get_ok.
    constructor; [by apply page_line_ok|constructor; [by apply page_line_ok|constructor]].
  - intros k page Hp. rewrite two_prot_page by done. pose proof (prot_bits_range (page_line fun_page k.1)).
    pose proof (prot_bits_range (page_line lp_page k.2)). destruct (page =? fun_page), (page =? lp_page); lia.
  - intros k page b Hp Hb. rewrite two_prot_page by done. unfold two_mprotect.
    destruct (Z.eqb_spec page fun_page) as [->|Hf]; [|destruct (Z.eqb_spec page lp_page) as [->|Hl]; [|done]].
    + intros _. eexists. split; [reflexivity|]. intros q Hq. rewrite !two_prot_page by done. cbn [fst snd].
      destruct (q =? fun_page); [by apply page_line_bits|done].
    + intros _. eexists. split; [reflexivity|]. intros q Hq. rewrite !two_prot_page by done. cbn [fst snd].
      destruct (Z.eqb_spec q fun_page) as [->|]; [done|]. destruct (q =? lp_page); [by apply page_line_bits|done].
Qed.

(** ** The container, with the patch and its reversal *)

Definition lp_names : bytes := [0] ++ str ".ulp" ++ [0] ++ str ".ulp.rev" ++ [0] ++ str ".shstrtab" ++ [0].
Definition lp_file : bytes :=
  file_header 64 4 3 ++ file_section 0 0 0 ++ file_section 1 320 (zlen ex_data) ++
  file_section 6 (320 + zlen ex_data) (zlen ex_reverse) ++
  file_section 15 (320 + zlen ex_data + zlen ex_reverse) (zlen lp_names) ++ ex_data ++ ex_reverse ++ lp_names.
Definition lp_ehdr : Elf_Ehdr := ehdr_of (take 64 lp_file).
Definition lp_shdrs : list Elf_Shdr := map (shdr_at lp_file 64) (seq 0 4).

Lemma lp_elf : elf_file lp_file lp_ehdr lp_shdrs lp_names.
Proof.
  split.
  - apply (bool_decide_unpack _). vm_compute. exact I.
  - reflexivity.
  - split_and!; [by vm_compute|reflexivity|vm_compute; reflexivity].
  - vm_compute. reflexivity.
  - vm_compute. discriminate.
  - vm_compute. reflexivity.
  - exists {| MiniElf.sh_name := 15; MiniElf.sh_offset := 320 + zlen ex_data + zlen ex_reverse; MiniElf.sh_size := zlen lp_names |}.
    split_and!; [vm_compute; reflexivity|by vm_compute|by vm_compute|vm_compute; reflexivity].
  - repeat constructor; vm_compute; tauto.
Qed.

Definition ulp_section : Elf_Shdr := {| MiniElf.sh_name := 1; MiniElf.sh_offset := 320; MiniElf.sh_size := zlen ex_data |}.
Definition rev_section : Elf_Shdr :=
  {| MiniElf.sh_name := 6; MiniElf.sh_offset := 320 + zlen ex_data; MiniElf.sh_size := zlen ex_reverse |}.

Lemma stack_size : length (junk_shdr zero_stack) = 64%nat /\ zlen (junk_strtbl zero_stack) = STRTBL_SIZE_MAX.
Proof. by split; vm_compute. Qed.

Lemma ulp_data : section_data lp_file ulp_section = ex_data.
Proof. vm_compute. reflexivity. Qed.
Lemma rev_data : section_data lp_file rev_section = ex_reverse.
Proof. vm_compute. reflexivity. Qed.

Lemma reads_apply d : exists buffer d' ps,
  gdb_prepare zero_stack d false ex_path (Some lp_file) = (Ok (0, buffer), d') /\ err_state d' = err_state d /\
  parse_metadata_from_mem always 0 zero_metadata buffer ULP_METADATA_BUF_LEN = (Ok 0, ps) /\
  ps_ulp ps = read_back ex_metadata (replicate 20 171) (str "libx.so.0" ++ [0]) ex_path.
Proof.
  apply (gdb_apply_reads always 0 ex_metadata ex_object (replicate 20 171) (str "libx.so.0" ++ [0]) lp_file lp_ehdr lp_shdrs
    lp_names zero_stack d ex_path ulp_section [] (ex_out ex_data).1 (ex_out ex_data).2);
    [done|exact ex_wf|exact lp_elf|exact stack_size|vm_compute; reflexivity|by vm_compute|by vm_compute|vm_compute; reflexivity|done|].
  rewrite ulp_data. vm_compute. reflexivity.
Qed.

Lemma reads_back : reads_reversal always 0 zero_stack ex_path (Some lp_file) (replicate 32 7).
Proof.
  intros d.
  destruct (gdb_reversal_reads always 0 (fun _ => 0) ex_metadata ex_object (replicate 20 171) (str "libx.so.0" ++ [0]) lp_file
    lp_ehdr lp_shdrs lp_names zero_stack d ex_path rev_section [] (ex_out ex_reverse).1 (ex_out ex_reverse).2)
    as (buffer & d' & ps & E & He & Ep & Hu);
    [done|done|exact ex_wf|exact lp_elf|exact stack_size|vm_compute; reflexivity|by vm_compute|by vm_compute|vm_compute; reflexivity
    |done| |].
  - rewrite rev_data. vm_compute. reflexivity.
  - exists buffer, d', ps. rewrite Hu. exact (conj E (conj He (conj Ep (conj eq_refl eq_refl)))).
Qed.

(** ** The first request *)

Definition the_process : process pages := {| library := process_state [dep_entry] [] [] fun_code q0; process_errno := 0 |}.

Definition packed_metadata : ulp_metadata := Eval vm_compute in read_back ex_metadata (replicate 20 171) (str "libx.so.0" ++ [0]) ex_path.

Section loading.
Variable buffer : bytes.
Variable d : diag.
Variable log : list string.
Variable q : qstate.

Definition with_buffer : lib_state pages := prepared buffer d (process_state [dep_entry] [] [] fun_code q).
Definition with_metadata : lib_state pages :=
  set_lib_diag {| err_state := err_state (lib_diag (with_ref with_buffer)); messages := log ++ messages (lib_diag (with_ref with_buffer)) |}
    (set_metadata_ref (Some packed_metadata) (with_ref with_buffer)).
Definition with_library : lib_state pages :=
  ((let! r := check_patch_sanity in
    if negb (r =? 0) then ret r
    else
      let! ok := load_so_handlers in
      ret (if ok =? 0 then EDLOPEN else r)) with_metadata).2.
Definition gdb_loaded : lib_state pages := set_metadata_buffer zero_buffer with_library.

Lemma library_loads :
  (let! r := check_patch_sanity in
   if negb (r =? 0) then ret r
   else
     let! ok := load_so_handlers in
     ret (if ok =? 0 then EDLOPEN else r)) with_metadata = (Ok 0, with_library).
Proof. vm_compute. reflexivity. Qed.

Lemma library_loaded :
  metadata_ref with_library = Some apply_metadata /\ code_mem (core with_library) = fun_code /\
  roots with_library = [] /\ q_size (queue (code_q (core with_library))) = q_size (queue q) /\ loader with_library = mapped.
Proof. split_and!; vm_compute; reflexivity. Qed.
End loading.

Lemma gdb_loads buffer d ps q :
  parse_metadata_from_mem always 0 zero_metadata buffer ULP_METADATA_BUF_LEN = (Ok 0, ps) -> ps_ulp ps = packed_metadata ->
  load_metadata all_ok always 0 (with_buffer buffer d q) = (Ok (true, 0), gdb_loaded buffer d (ps_log ps) q).
Proof.
  intros Hp Hu.
  assert (E : run_parser always 0 (with_ref (with_buffer buffer d q)) = (Ok 0, with_metadata buffer d (ps_log ps) q)).
  { unfold run_parser. change (metadata_ref (with_ref (with_buffer buffer d q))) with (Some zero_metadata). cbv iota beta.
    change (metadata_buffer (with_ref (with_buffer buffer d q))) with buffer. by rewrite Hp, Hu. }
  assert (Ep : parsed (with_buffer buffer d q) = with_metadata buffer d (ps_log ps) q) by (unfold parsed; by rewrite E).
  apply (load_steps all_ok (with_buffer buffer d q) packed_metadata); [done|done|done|by rewrite E|by rewrite Ep|].
  rewrite Ep. exact (library_loads buffer d (ps_log ps) q).
Qed.

Lemma page_writable base k a bs : base mod 4096 = 0 -> 0 <= base < 2 ^ 47 -> base <= a -> a + zlen bs < base + 4096 ->
  two_prot k base <> -1 -> lib_accepts 4096 two_prot k a bs.
Proof.
  intros Hm Hb Ha He Hp. pose proof (zlen_nonneg bs). pose proof (Z.div_mod base 4096 ltac:(lia)).
  assert (E1 : a / 4096 = base / 4096) by (symmetry; apply (Z.div_unique a 4096 _ (a - base)); lia).
  assert (E2 : (a + zlen bs) / 4096 = base / 4096) by (symmetry; apply (Z.div_unique _ 4096 _ (a + zlen bs - base)); lia).
  split; [lia|]. unfold touched. rewrite E1, E2. intros i Hi. assert (i = 0%nat) as -> by lia.
  unfold nth_page. by replace (4096 * (base / 4096) + Z.of_nat 0 * 4096) with base by lia.
Qed.

Lemma two_prot_mapped : two_prot mapped fun_page = 5 /\ two_prot mapped lp_page = 3.
Proof. by split; vm_compute. Qed.

Lemma prologue_writable (s1 : lib_state pages) i :
  loader s1 = mapped -> in_prologues ([fun_addr] ++ []) i -> writable 4096 two_prot s1 i.
Proof.
  intros El Hi. destruct i as [|a bs]; [done|]. destruct Hi as (f & [<-|[]] & Ha & He). unfold writable. rewrite El.
  cbn [prologue_start prologue_end x86_arch_laws] in Ha, He. unfold fun_addr, lib_addr in *.
  apply (page_writable fun_page);
    [done|unfold fun_page; lia|unfold fun_page; lia|unfold fun_page; lia|by rewrite (proj1 two_prot_mapped)].
Qed.

Lemma request_writable (s1 : lib_state pages) : loader s1 = mapped ->
  Forall (writable 4096 two_prot s1) (applied_writes fun_code apply_metadata [(fun_addr, new_addr)] [lp_addr + 32] lib_addr 2).
Proof.
  intros El. unfold applied_writes. apply Forall_app. split.
  - unfold all_writes. cbn [flat_map]. rewrite app_nil_r. eapply Forall_impl; [|exact (confined_law fun_code fun_addr (Some new_addr) fun_livepatchable)].
    intros i Hi. apply prologue_writable; [done|]. destruct i as [|a bs]; [done|]. exists fun_addr. split; [by left|exact Hi].
  - constructor; [|constructor]. unfold writable. rewrite El. cbn [fst snd].
    apply (page_writable lp_page);
      [done|unfold lp_page, lp_addr; lia|unfold lp_page, lp_addr; lia| |by rewrite (proj2 two_prot_mapped)].
    match goal with |- _ + ?n < _ => replace n with 16 by (vm_compute; reflexivity) end. unfold lp_page, lp_addr. lia.
Qed.

Lemma the_first buffer d d' ps :
  gdb_prepare zero_stack d false ex_path (Some lp_file) = (Ok (0, buffer), d') -> d = lib_diag (library the_process) ->
  err_state d' = err_state d ->
  parse_metadata_from_mem always 0 zero_metadata buffer ULP_METADATA_BUF_LEN = (Ok 0, ps) -> ps_ulp ps = packed_metadata ->
  loads all_ok always 0 zero_stack false ex_path (Some lp_file) buffer d' (library the_process) (gdb_loaded buffer d' (ps_log ps) q0).
Proof.
  intros E -> He Ep Hu. split; [exact E| |exact (gdb_loads buffer d' ps q0 Ep Hu)].
  apply admissible_prepared; [apply process_admissible|exact He].
Qed.

Lemma loaded_facts buffer d log :
  let s1 := gdb_loaded buffer d log q0 in
  code_mem (core s1) = fun_code /\ loader s1 = mapped /\
  applicable program s1 apply_metadata apply_object lib_file (str "/lp.so" ++ [0; 0])
    [(fun_addr, new_addr)] [lp_addr + 32] lib_addr 2 lp_addr.
Proof.
  intros s1. destruct (library_loaded buffer d log q0) as (Hr & Em & Er & Eq & El).
  destruct (clear_buffer zero_buffer (with_library buffer d log q0)) as (C1 & C2 & C3 & C4).
  fold (gdb_loaded buffer d log q0) in C1, C2, C3, C4. fold s1 in C1, C2, C3, C4.
  split; [by rewrite C2|]. split; [by rewrite C4|].
  apply applicable_when; rewrite ?C1, ?C2, ?C3; [exact Hr|exact Em|exact Er|by rewrite Eq].
Qed.

Lemma gdb_apply_spec_witness : exists p',
  gdb_ulp_apply program all_ok always 0 17 two_maps two_mprotect 4096 zero_stack ex_path (Some lp_file) the_process = (Ok 0, p') /\
  code_mem (core (library p')) = written (applied_writes fun_code apply_metadata [(fun_addr, new_addr)] [lp_addr + 32] lib_addr 2) fun_code /\
  admissible (library p').
Proof.
  destruct (reads_apply (lib_diag (library the_process))) as (buffer & d' & ps & E & He & Ep & Hu).
  destruct (loaded_facts buffer d' (ps_log ps)) as (Em & El & Happ).
  destruct (gdb_apply_spec program all_ok always 0 17 two_maps two_mprotect 4096 two_prot zero_stack two_vm_laws (fun _ => eq_refl)
    the_process ex_path (Some lp_file) buffer d' (gdb_loaded buffer d' (ps_log ps) q0) apply_metadata apply_object lib_file
    (str "/lp.so" ++ [0; 0]) [(fun_addr, new_addr)] [lp_addr + 32] lib_addr 2 lp_addr) as (p' & H1 & _ & _ & _ & H2 & _ & _ & _ & H3).
  - exact (the_first buffer _ d' ps E eq_refl He Ep Hu).
  - exact Happ.
  - rewrite Em. apply no_roots_coherent.
  - rewrite Em. apply request_writable. exact El.
  - exists p'. split; [exact H1|]. split; [rewrite Em in H2; exact H2|exact H3].
Defined.

Lemma gdb_round_trip_witness : exists p1 p2,
  gdb_ulp_apply program all_ok always 0 17 two_maps two_mprotect 4096 zero_stack ex_path (Some lp_file) the_process = (Ok 0, p1) /\
  gdb_ulp_revert program all_ok always 0 17 two_maps two_mprotect 4096 zero_stack ex_path (Some lp_file) p1 = (Ok 0, p2) /\
  patches (library p2) = [dep_entry] /\ target (code_mem (core (library p2))) fun_addr = None.
Proof.
  destruct (reads_apply (lib_diag (library the_process))) as (buffer & d' & ps & E & He & Ep & Hu).
  destruct (loaded_facts buffer d' (ps_log ps)) as (Em & El & Happ).
  assert (Et : target fun_code fun_addr = None) by (vm_compute; reflexivity).
  destruct (gdb_round_trip program all_ok always 0 17 two_maps two_mprotect 4096 two_prot zero_stack two_vm_laws (fun _ => eq_refl)
    the_process ex_path (Some lp_file) buffer d' (gdb_loaded buffer d' (ps_log ps) q0) apply_metadata apply_object lib_file
    (str "/lp.so" ++ [0; 0]) [(fun_addr, new_addr)] [lp_addr + 32] lib_addr 2 lp_addr ex_path (Some lp_file))
    as (p1 & p2 & H1 & H2 & H3 & H4 & _).
  - exact (the_first buffer _ d' ps E eq_refl He Ep Hu).
  - exact Happ.
  - rewrite Em. apply no_roots_coherent.
  - rewrite Em. apply request_writable. exact El.
  - intros i Hi. apply prologue_writable; [exact El|exact Hi].
  - intros r d0 [].
  - rewrite Em. intros an [<-|[]] _. exact Et.
  - exact reads_back.
  - split; vm_compute; reflexivity.
  - by vm_compute.
  - exists p1, p2. split; [exact H1|]. split; [exact H2|]. split; [exact H3|]. rewrite (H4 fun_addr (or_introl eq_refl)), Em. exact Et.
Defined.

Lemma gdb_metadata_roundtrip_witness : exists buffer d' ps,
  gdb_prepare zero_stack diag_init false ex_path (Some lp_file) = (Ok (0, buffer), d') /\
  parse_metadata_from_mem always 0 zero_metadata buffer ULP_METADATA_BUF_LEN = (Ok 0, ps) /\
  ps_ulp ps = read_back ex_metadata (replicate 20 171) (str "libx.so.0" ++ [0]) ex_path.
Proof.
  assert (Hx : extract_ulp_from_so_to_mem (Some (Some (section_data lp_file ulp_section))) (Some ex_path) [] None =
    Ok ((ex_out ex_data).1, Buffer (ex_out ex_data).2)) by (rewrite ulp_data; vm_compute; reflexivity).
  exact (gdb_metadata_roundtrip always 0 ex_metadata ex_object (replicate 20 171) (str "libx.so.0" ++ [0]) lp_file lp_ehdr lp_shdrs
    lp_names zero_stack diag_init ex_path ulp_section [] (ex_out ex_data).1 (ex_out ex_data).2 (fun _ _ => eq_refl) ex_wf lp_elf
    stack_size ltac:(vm_compute; reflexivity) ltac:(vm_compute; discriminate) ltac:(vm_compute; reflexivity)
    ltac:(rewrite ulp_data; vm_compute; reflexivity) ltac:(discriminate) Hx).
Defined.
