(* ===== verification/WitnessLibrary.v ===== *)
(** * The loader's locks, the stacks, temporary files and the trigger command on examples *)

From stdpp Require Import gmap.
From S2P Require Import CommandLine.
From S2P Require Import Interpose Prelude Errors Metadata SymbolLoader InsnQueueLib RemoteState Ptrace Extract Trigger.
From S2P Require Import TempFile StackCheck RtldLocks TriggerEntry WitnessTrigger.

Open Scope ulp_scope.

(** ** The locks of the loader *)

Definition ld_so : dl_phdr_info :=
  {| dlpi_name := str "/lib64/ld-linux-x86-64.so.2"; dlpi_addr := 0x7f0000000000;
     dlpi_phdr := [PT_DYNAMIC [DT_SYMTAB [{| st_name := 0; st_value := 0; st_size := 0 |};
                                          {| st_name := 1; st_value := 0x36000; st_size := 4368 |}];
                               DT_STRTAB ([0] ++ str "_rtld_global" ++ [0]); DT_HASH 1 2; DT_NULL]];
     dlpi_tls_modid := 0 |}.

Definition unset_locks : ld_locks := {| dl_load_lock_at := None; dl_load_write_lock_at := None |}.

(** Version 2.39. *)
Lemma get_ld_global_locks_spec_witness :
  fst (get_ld_global_locks [ld_so] (str "a.out") (str "ld-linux-x86-64.so.2") (str "2.39") unset_locks diag_init) =
    Ok {| dl_load_lock_at := Some (0x7f0000036000 + 2568); dl_load_write_lock_at := Some (0x7f0000036000 + 2608) |}.
Proof.
  rewrite (get_ld_global_locks_spec [ld_so] (str "a.out") (str "ld-linux-x86-64.so.2") (str "2.39") unset_locks diag_init
    0x7f0000036000 diag_init 2 39 None); [reflexivity|by vm_compute|lia|split; by vm_compute|lia].
Defined.

(** ** The stacks *)

(** A cursor is the program counters that are left. *)
#[local] Instance list_unwind : Unwind (list Z) := {
  UPT_create _ := true;
  unw_create_addr_space _ := true;
  unw_init_remote tid := (0, if tid =? 7 then [0x401000; 0x7f0000001130] else [0x401000; 0x402000]);
  unw_get_ip c := match c with pc :: _ => (0, pc) | [] => (-1, 0) end;
  unw_step c := match c with _ :: (_ :: _) as rest => (1, tl c) | _ => (0, []) end }.

Definition libx_mapping : mapping :=
  {| lo := 0x7f0000000000; hi := 0x7f0000002000; width := 12; perm_r := true; perm_w := false; perm_x := true;
     trailer := str "p 00000000 00:00 0 /lib/libx.so.0" |}.

Lemma libx_mapping_ok : mapping_ok libx_mapping.
Proof.
  split_and!; try (cbn [width lo hi libx_mapping]; change (Z.of_nat 12) with 12; lia).
  - repeat constructor; done.
  - by vm_compute.
Qed.

Lemma both_unwind : Forall2 unwinds [6; 7] [[0x401000; 0x402000]; [0x401000; 0x7f0000001130]].
Proof.
  assert (Hb : forall a b, backtrace [a; b] [a; b]) by (intros a b; eapply bt_frame with (r := 1); [done|done|lia|by apply bt_last]).
  constructor; [|constructor; [|constructor]]; (split_and!; [done..|eexists; split; [reflexivity|apply Hb]]).
Qed.

(** The second frame of thread 7 is in the library. *)
Lemma coarse_library_range_check_spec_witness :
  fst (coarse_library_range_check (fun _ => Some (maps_file [libx_mapping])) 0 2 70 [6; 7] None (Some (str "libx.so"))
    {| contexts := 0; spaces := 0 |}) = Ok 1.
Proof.
  rewrite (coarse_library_range_check_spec (fun _ => Some (maps_file [libx_mapping])) 2 70 [6; 7] None (Some (str "libx.so"))
    [libx_mapping] [[0x401000; 0x402000]; [0x401000; 0x7f0000001130]] (str "libx.so")).
  - by vm_compute.
  - split; [done|]. constructor; [apply libx_mapping_ok|constructor].
  - done.
  - apply both_unwind.
  - repeat constructor.
Defined.

Lemma coarse_library_range_check_releases_witness :
  snd (coarse_library_range_check (fun _ => None) 0 2 70 [6; 7] None (Some (str "libx.so")) {| contexts := 0; spaces := 0 |}) =
    {| contexts := 0; spaces := 0 |}.
Proof.
  exact (coarse_library_range_check_releases (fun _ => None) 0 2 70 [6; 7] None (Some (str "libx.so"))
    {| contexts := 0; spaces := 0 |} (-1) _ eq_refl).
Defined.

(** ** Temporary files *)

Definition empty_disk : disk := {| files := ∅; draws := 0; disk_log := [] |}.
Definition taken_disk : disk := {| files := {[str "/tmp/ulp-42" := [1]]}; draws := 0; disk_log := [] |}.

Lemma extract_to_disk_ok_witness : exists s',
  extract_ulp_from_so_to_disk (fun _ => Some 42) (fun _ => true) (fun _ => None) 1 (Ok (3, Buffer [1; 2; 3])) empty_disk =
    (Ok (Some (str "/tmp/ulp-42")), s') /\ files s' !! str "/tmp/ulp-42" = Some [1; 2; 3].
Proof.
  destruct (extract_to_disk_ok (fun _ => Some 42) (fun _ => true) (fun _ => None) 1 empty_disk 42 3 [1; 2; 3]
    (conj eq_refl eq_refl) (conj eq_refl eq_refl) ltac:(by split) ltac:(lia)) as (s' & E & Hf).
  exists s'. split; [exact E|]. rewrite Hf. exact (lookup_insert_eq _ _ _).
Defined.

Lemma tmp_conflict_never_ends_witness : exists s',
  create_path_to_tmp_file (fun n => Some (42 + Z.of_nat n)) (fun _ => true) 1000 taken_disk = (NoFuel, s').
Proof.
  exact (tmp_conflict_never_ends (fun n => Some (42 + Z.of_nat n)) (fun _ => true) 1000 taken_disk 42 [1]
    ltac:(intros n; by eexists) eq_refl eq_refl).
Defined.

(** ** trigger *)

Definition for_a_user : arguments :=
  {| args := [Some (str "lp.so")];
     strings := fun m => match m with user_wildcard => Some (str "root") | _ => None end;
     command := ULP_TRIGGER; retries := 1; flags := fun _ => false |}.

Lemma for_a_user_ok : well_formed for_a_user /\ command for_a_user = ULP_TRIGGER.
Proof.
  split; [|done]. unfold well_formed. cbn [command for_a_user]. split_and!; [by vm_compute|done|done| | |].
  - intros _. exists (str "lp.so"). split; [done|]. by vm_compute.
  - by intros [].
  - intros _. exists (str "lp.so"). split; [done|]. by vm_compute.
Qed.

(** A user is refused before any process is looked at. *)
Lemma run_trigger_spec_witness : exists w',
  run_trigger 700 5 (fun _ _ => true) 0 true (fun _ => None) (fun _ _ => true) (fun _ => ex_file) (fun _ => None) None (fun _ => None)
    for_a_user (fun _ => []) ex_machine = (Ok (ENOSYS, []), w') /\ kernel w' = kernel ex_machine.
Proof.
  apply (run_trigger_spec 700 5 (fun _ _ => true) 0 true (fun _ => None) (fun _ _ => true) (fun _ => ex_file) (fun _ => None) None
    (fun _ => None) for_a_user (fun _ => []) ex_machine for_a_user_ok). by eexists.
Defined.
